(* ===== verification/_CoqProject ===== *)
-Q . S2P
Prelude.v
Config.v
Io.v
Cache.v
Ktfs.v
KtfsProofs.v
KtfsAlloc.v
KtfsDir.v
KtfsDemo.v
PhysPages.v
PageTable.v
PageTableProofs.v
Threads.v
ThreadProofs.v
LockProofs.v
SchedProofs.v
Ring.v
Heap.v
Boot.v
Pipe.v
Strings.v
Formats.v
Timer.v
Intr.v
Uart.v
Device.v
Virtio.v
Vioblk.v
VioblkProofs.v
VioblkDisk.v
Viorng.v
Attach.v
Console.v
Elf.v
UserMem.v
Exec.v
Process.v
ProcessProofs.v
Excp.v
UserIo.v
UserHeap.v
UserStrings.v
UserPrint.v
Shell.v
Programs.v
UserIoPrint.v
Csr.v
Panic.v
Startup.v
