(* ===== verification/Prelude.v ===== *)
(** * riscv-mini-os: a verification library

    The program is a small RISC-V kernel in C (src/kernel) with a user library
    and programs (src/user).  A boot path initializes memory, the interrupt
    controller, devices and threads, mounts the KTFS file system from a block
    device through a block cache, and executes an ELF file as the first user
    process; processes enter the kernel by system calls, page faults and
    interrupts.

    ** Parts, files and their sources

    - this file: outcomes of C functions ([Ret], [Fail], [Panic], [NoFuel]), the
      state monad [M], machine-width wraps ([u8], [u16], [u32], [u64]), bytes,
      little-endian words, lists, and the tactics [kbool], [krun], [kgets];
    - Config: the constants of error.h, io.h, conf.h, memory.h, cache.h, scnum.h;
    - Io: struct io with its operation table, the dispatching functions, the
      memory endpoint and the seekable endpoint (io.c, ioimpl.h);
    - Cache: the write-back block cache (cache.c) over any [BlockDevice]; it
      implements the interface [BlockCache];
    - Ktfs: the file system driver (ktfs.c, ktfs.h) over any [CacheOps];
      KtfsProofs (reading), KtfsAlloc (the bitmap), KtfsDir (the directory) are
      proved against [BlockCache]; KtfsDemo runs the driver on an image;
    - PhysPages: the physical page allocator; PageTable and PageTableProofs: Sv39
      page tables and memory spaces (memory.c); Boot: [memory_init] of memory.c, on
      top of these and Heap;
    - Threads: threads, conditions, locks (thread.c); ThreadProofs (queues),
      LockProofs (held locks), SchedProofs (all reachable states);
    - Heap: the kernel heap (heap0.c) over any [PageSource], which PhysPages
      implements;
    - Pipe: pipes (io.c, create_pipe on) on top of Threads and Heap;
    - Strings: string.c, with the formatter; Formats: what a format denotes, on
      its own; Ring: ring buffer positions;
    - Timer: timer.c on top of Threads; Intr: plic.c and intr.c;
    - Uart: dev/uart.c on top of Threads and Intr, its read and write as machines
      that the service routine interrupts; Device: device.c;
    - Virtio: dev/virtio.c and virtio.h; Vioblk, VioblkProofs and VioblkDisk:
      dev/vioblk.c over any [VirtioBlk], a second implementation of [BlockDevice];
      Viorng: dev/viorng.c over any [EntropySource];
    - Attach: dev/rtc.c, the attachment of dev/uart.c and that part of main.c;
    - Console: console.c on top of Strings and Device;
    - Elf: elf.c over Io and any [UserMemory]; UserMem: user memory as the kernel
      accesses it, through the page tables and with demand faults; Exec:
      build_stack and process_exec (process.c) over PhysPages, PageTable, Elf and
      UserMem;
    - Process: the rest of process.c and syscall.c, over Threads, PageTable and
      a table of I/O objects; ProcessProofs: reference counts and descriptors;
    - Excp: the exception handlers (excp.c) on top of Process and PageTable;
    - UserIo: the user library's I/O functions and terminal object (user/io.c,
      user/io.h) over any [RawIo]; UserHeap: its heap (user/heap.c);
      UserStrings: the string and memory functions of user/string.c over mapped
      bytes; UserPrint: its formatter and terminal functions over any [TermSys];
      UserIoPrint: formatted output to I/O objects (user/io.c), and hello.c;
    - Shell: user/shell.c over any [SysCalls]; Programs: init.c, trekfib.c, fib.c
      and bench.c as trees of system calls;
    - Csr: the control registers (riscv.h) and critical sections (intr.h); Panic:
      assert.c and error.c on top of Console;
    - Startup: main.c, over the joint state of all parts.

    ** How code is represented

    A C function is a definition of the same name.  A pure function is a Rocq
    function; a function that changes globals or an object is a function on a
    Record with the source's fields, or a computation in [M] where it can fail or
    panic.  Integers are in Z and are wrapped where the C type wraps and a value
    can leave its range.  Pointers into memory that the program addresses
    arithmetically (pages, page tables, heap blocks, user memory) are addresses;
    pointers to objects of one kind are indices of a map, so that aliasing is
    kept.  A failed assert, a call of panic and a NULL dereference are [Panic].
    A function that may block is modelled up to the context switch; its result
    says how it continues.  Interrupts are steps of their own; where the code
    has them enabled between two parts of a function, the function is split.

    ** What the theorems show

    - refinement of an abstract specification: the cache is an array of blocks
      ([cache_refines_block_store]), also on top of the disk driver and a VirtIO
      device ([disk_stack_is_block_store]); concurrent disk requests take effect
      one at a time ([vioblk_linearizable]); pipes are queues, [vgprintf] prints
      the text a format denotes ([vgprintf_correct], against a grammar of formats
      and numerals of its own), [resolve_block] is the block map of the on-disk
      format; the terminal object's line ends are those its header describes, but
      for a text that it sends twice ([ioterm_normalizes]); a session of the shell
      does to the kernel what the lines that were typed say, in their order
      ([shell_session]);
    - equivalence: the user library's string functions compute the functions of
      the kernel's library on the strings in memory ([user_strings_read]), and
      those that write change exactly their destination ([user_strings_write]);
      splitting a line gives back the words it was made of ([tokenize_words]);
    - bounds: [user_snprintf_correct] (no byte outside the buffer, the length
      that was needed, the terminating NUL);
    - invariants of all reachable states: the scheduler with its locks
      ([scheduler_safe], which also says that no operation panics or loops), the
      page allocator ([pages_conserved]), reference counts of I/O objects under
      all system calls and schedules ([references_counted]), the serial port's
      streams under interrupts between any two accesses
      ([uart_streams_conserved]), the order of the sleep list;
      [memory_init_correct] establishes those of the page allocator, the page
      tables and the heap, and [main_brings_up] all of them from power-on up to
      the file system;
    - functional behaviour on every branch: KTFS reading, opening, creation and
      block allocation, page mapping in terms of the hardware's translation,
      exceptions, heap allocation, descriptors and their copies in a fork, the
      loader, the start of a program with what its page tables and memory then
      hold ([process_exec_starts]), device registration, line editing, the
      service routines;
    - safety: no held block is evicted, locks exclude, loading writes only user
      memory, an interrupt's handler runs before its completion;
    - liveness: round-robin scheduling, the return of disk and entropy requests;
      lemmas show where a wake-up is lost (a reader of an empty pipe, an alarm
      that fires early, a second reader of the entropy device);
    - concrete runs that show where the code departs from what its comments
      say (KtfsDemo, and the last section of Cache, Elf, Exec, Pipe, UserIo,
      UserPrint, UserIoPrint, Shell and Programs).

    ** Bounds and fuel

    A loop is a Fixpoint over the data it consumes or takes fuel.  The fuel is
    computed from the state (the length of a list of chunks or alarms, the number
    of held locks, the bytes left to copy, the blocks of the bitmap, the entries
    of the directory), and a theorem about an operation states its result, not
    only its correctness if there is one.  The theorems about all reachable
    states ([references_counted], [uart_streams_conserved]) are about the steps
    that are taken; that a step can be taken is part of [scheduler_safe] and
    [vioblk_linearizable].  The length of an argument string and the lines and
    characters of a session are fuel of their definitions, with enough of it as
    a hypothesis or an argument of the theorem.
    Walks over linked lists take as fuel the size of the map that holds the
    nodes, which is an upper bound for lists without a cycle; that the lists have
    none is part of the invariants.

    ** Parameters and hypotheses

    The hardware is a parameter: the value of the time register, the source that
    the interrupt controller delivers (a source of priority 0 is not delivered),
    bytes that arrive on the serial line, the block device behind the cache
    ([BlockDevice], which the memory endpoint and the disk driver implement), the
    VirtIO devices (devices without faults that also serve a queue of three
    entries, which is more than the VirtIO specification requires; the ram disk of
    VioblkDisk and the counter of Viorng satisfy it), the time that passes
    between two accesses to the clock.  The layout of the kernel image that
    kernel.ld guarantees is [image_ok] of Boot, the state at power-on [reset] of
    Startup.  Allocation results of
    the kernel heap are parameters where the caller tests them.  Process takes
    what the file system, devices and pipes do for a system call as the record
    [services], with laws about calls that return, which its witnesses
    instantiate (with [create_pipe], which always panics, among them); an
    operation of an object is a function of its state there.  User programs take
    the system calls they make as a class ([TermSys]; [SysCalls] with the laws
    [ShellKernel]) or, in Programs, as a function from requests to answers; the
    witnesses have concrete instances.

    ** Not modelled

    Assembly (start.s, see.s, trap.s, thrasm.s, user/start.s, user/syscall.S):
    register saving and privilege changes; the C side gets a trap frame.
    The output of kprintf and trace inside other functions is not represented, nor
    are memory barriers; what panic prints is in Panic, and for exceptions in Excp.
    Startup runs the drivers' attach functions with the addresses of their
    allocations as arguments, not through the heap, and takes the file system as
    parameters, since its calls wait for the disk; [main_brings_up] ends before
    them. *)

From stdpp Require Export base tactics numbers list gmap.
From Stdlib Require Export ZArith Lia.

#[global] Open Scope Z_scope.

(** ** Outcomes of C functions and the state monad they run in *)

(** What a C function that may fail does: it returns normally, it returns a
    non-zero code to its caller, it panics (a failed [assert], a call of
    [panic], or a dereference of a NULL pointer), or the bound on the number
    of loop iterations of the model was reached. *)
Inductive outcome (A : Type) : Type :=
| Ret (a : A)
| Fail (rc : Z)
| Panic
| NoFuel.
Arguments Ret {A} a.
Arguments Fail {A} rc.
Arguments Panic {A}.
Arguments NoFuel {A}.

Definition M (St A : Type) : Type := St → outcome A * St.

#[export] Instance M_ret St : MRet (M St) := λ _ a s, (Ret a, s).
#[export] Instance M_bind St : MBind (M St) := λ _ _ f m s,
  match m s with
  | (Ret a, s') => f a s'
  | (Fail rc, s') => (Fail rc, s')
  | (Panic, s') => (Panic, s')
  | (NoFuel, s') => (NoFuel, s')
  end.

Definition fail {St A} (rc : Z) : M St A := λ s, (Fail rc, s).
Definition panic {St A} : M St A := λ s, (Panic, s).
Definition gets {St A} (f : St → A) : M St A := λ s, (Ret (f s), s).
Definition modify {St} (f : St → St) : M St unit := λ s, (Ret tt, f s).

(** [if (call(...) != 0) return e;] *)
Definition or_return {St A} (m : M St A) (e : Z) : M St A := λ s,
  match m s with
  | (Fail _, s') => (Fail e, s')
  | r => r
  end.

(** [if (call(...) == 0) { ... }]: the code is inspected, not returned. *)
Definition attempt {St A} (m : M St A) : M St (option A) := λ s,
  match m s with
  | (Ret a, s') => (Ret (Some a), s')
  | (Fail _, s') => (Ret None, s')
  | (Panic, s') => (Panic, s')
  | (NoFuel, s') => (NoFuel, s')
  end.

Declare Scope c_scope.
Delimit Scope c_scope with C.
Notation "m '?!' e" := (or_return m e) (at level 61, left associativity) : c_scope.
#[global] Open Scope c_scope.

(** ** Integers at machine width *)

Definition u8 (x : Z) : Z := x mod 2 ^ 8.
Definition u16 (x : Z) : Z := x mod 2 ^ 16.
Definition u32 (x : Z) : Z := x mod 2 ^ 32.
Definition u64 (x : Z) : Z := x mod 2 ^ 64.
Definition s32 (x : Z) : Z := (x + 2 ^ 31) mod 2 ^ 32 - 2 ^ 31.
Definition s64 (x : Z) : Z := (x + 2 ^ 63) mod 2 ^ 64 - 2 ^ 63.

(** ** Byte arrays *)

Definition is_byte (b : Z) : Prop := 0 ≤ b < 256.

(** [a[i]] and [a[i] = v] for an index already known to be in range. *)
Definition getb {A} (d : A) (l : list A) (i : Z) : A := default d (l !! Z.to_nat i).
Definition setb {A} (i : Z) (v : A) (l : list A) : list A := <[Z.to_nat i := v]> l.

(** The [n] elements of [l] from offset [off]; overwriting from [off]. *)
Definition slice {A} (off n : Z) (l : list A) : list A :=
  take (Z.to_nat n) (drop (Z.to_nat off) l).
Definition splice {A} (off : Z) (d l : list A) : list A :=
  take (Z.to_nat off) l ++ d ++ drop (Z.to_nat off + length d) l.

(** Little-endian integers of the on-disk and in-memory records. *)
Fixpoint le_val (bs : list Z) : Z :=
  match bs with
  | [] => 0
  | b :: r => b + 256 * le_val r
  end.

Fixpoint le_bytes (n : nat) (v : Z) : list Z :=
  match n with
  | O => []
  | S k => v mod 256 :: le_bytes k (v / 256)
  end.

(** [for (i = 0; i < n; i++) if (f(a[i])) return i;] *)
Fixpoint findi {A} (f : A → bool) (l : list A) : option nat :=
  match l with
  | [] => None
  | x :: r => if f x then Some O else S <$> findi f r
  end.

(** ** Automation *)

Create HintDb kern.
Create HintDb klen.

(** Case analysis on the scrutinees of the goal and of the hypotheses. *)
Ltac kcase :=
  match goal with
  | |- context [match ?x with _ => _ end] => destruct x eqn:?
  | H : context [match ?x with _ => _ end] |- _ => destruct x eqn:?
  end.

(** Boolean comparisons to propositions, everywhere. *)
Ltac kbool :=
  repeat match goal with
  | H : (_ && _)%bool = true |- _ => apply andb_true_iff in H as [? ?]
  | H : (_ || _)%bool = false |- _ => apply orb_false_iff in H as [? ?]
  | H : negb _ = true |- _ => apply negb_true_iff in H
  | H : negb _ = false |- _ => apply negb_false_iff in H
  | H : (_ =? _) = true |- _ => apply Z.eqb_eq in H
  | H : (_ =? _) = false |- _ => apply Z.eqb_neq in H
  | H : (_ <? _) = true |- _ => apply Z.ltb_lt in H
  | H : (_ <? _) = false |- _ => apply Z.ltb_ge in H
  | H : (_ <=? _) = true |- _ => apply Z.leb_le in H
  | H : (_ <=? _) = false |- _ => apply Z.leb_gt in H
  end.

(** Lengths of list expressions, then linear arithmetic. *)
Ltac klen := autorewrite with klen in *; try lia.

(** ** Generic lemmas *)

Section lists.
Context {A : Type}.
Implicit Types (l d : list A).

Lemma length_slice off n l :
  length (slice off n l) = (Z.to_nat n `min` (length l - Z.to_nat off))%nat.
Proof. unfold slice. rewrite length_take, length_drop. done. Qed.

Lemma length_splice off d l :
  (Z.to_nat off + length d ≤ length l)%nat → length (splice off d l) = length l.
Proof.
  intros. unfold splice. rewrite !length_app, length_take, length_drop. lia.
Qed.

Lemma lookup_slice off n l (i : nat) :
  (i < Z.to_nat n)%nat → slice off n l !! i = l !! (Z.to_nat off + i)%nat.
Proof. intros. unfold slice. rewrite lookup_take_lt, lookup_drop by lia. done. Qed.

Lemma lookup_splice off d l (i : nat) :
  (Z.to_nat off + length d ≤ length l)%nat →
  splice off d l !! i =
    if decide (Z.to_nat off ≤ i < Z.to_nat off + length d)%nat
    then d !! (i - Z.to_nat off)%nat else l !! i.
Proof.
  intros Hl. unfold splice. case_decide as Hi.
  - rewrite lookup_app_r by (rewrite length_take; lia).
    rewrite length_take, Nat.min_l by lia.
    by rewrite lookup_app_l by lia.
  - destruct (decide (i < Z.to_nat off)%nat).
    + rewrite lookup_app_l by (rewrite length_take; lia).
      by rewrite lookup_take_lt by lia.
    + rewrite lookup_app_r by (rewrite length_take; lia).
      rewrite length_take, Nat.min_l by lia.
      rewrite lookup_app_r by lia. rewrite lookup_drop. f_equal. lia.
Qed.

Lemma slice_splice_same off n d l :
  Z.to_nat n = length d → (Z.to_nat off + length d ≤ length l)%nat →
  slice off n (splice off d l) = d.
Proof.
  intros Hn Hl. unfold slice, splice. rewrite Hn.
  rewrite drop_app_length' by (rewrite length_take; lia).
  by rewrite take_app_length.
Qed.

Lemma slice_splice_other off n off' d l :
  (Z.to_nat off' + length d ≤ length l)%nat →
  (Z.to_nat off + Z.to_nat n ≤ Z.to_nat off'
   ∨ Z.to_nat off' + length d ≤ Z.to_nat off)%nat →
  slice off n (splice off' d l) = slice off n l.
Proof.
  intros Hl Hd. apply list_eq. intros i.
  destruct (decide (i < Z.to_nat n)%nat).
  - rewrite !lookup_slice, lookup_splice by lia. case_decide; [lia|done].
  - rewrite !lookup_ge_None_2; [done|rewrite length_slice; lia..].
Qed.

Lemma splice_full d l : length d = length l → splice 0 d l = d.
Proof.
  intros E. unfold splice. rewrite Z2Nat.inj_0. simpl. rewrite E, drop_all. by rewrite app_nil_r.
Qed.

Lemma slice_full n l : Z.to_nat n = length l → slice 0 n l = l.
Proof. intros E. unfold slice. rewrite E, Z2Nat.inj_0, drop_0, firstn_all. done. Qed.

Lemma slice_app_split off a b l :
  0 ≤ off → 0 ≤ a → 0 ≤ b →
  slice off (a + b) l = slice off a l ++ slice (off + a) b l.
Proof.
  intros. unfold slice. rewrite !Z2Nat.inj_add by lia.
  rewrite <- drop_drop. symmetry. apply take_take_drop.
Qed.

Lemma findi_Some f l i :
  findi f l = Some i →
  (∃ x, l !! i = Some x ∧ f x = true) ∧
  (∀ j y, (j < i)%nat → l !! j = Some y → f y = false).
Proof.
  revert i; induction l as [|x l IH]; intros i Hi; simpl in Hi; [done|].
  destruct (f x) eqn:Hx.
  - injection Hi as <-. split; [by exists x|]. intros; lia.
  - destruct (findi f l) as [k|]; simpl in Hi; [|done]. injection Hi as <-.
    destruct (IH k eq_refl) as [He Hb]. split; [done|].
    intros [|j] y Hj Hy; simpl in Hy; [congruence|]. eapply Hb; [|done]. lia.
Qed.

Lemma findi_None f l : findi f l = None ↔ ∀ j y, l !! j = Some y → f y = false.
Proof.
  induction l as [|x l IH]; simpl; [split; [intros _ j y; by rewrite lookup_nil|done]|].
  destruct (f x) eqn:Hx; [split; [done|intros H; specialize (H O x eq_refl); congruence]|].
  destruct (findi f l) eqn:E; simpl.
  - split; [done|]. intros H. assert (Some n = None) as ?; [|done].
    apply IH. intros j y. apply (H (S j)).
  - split; [|done]. intros _ [|j] y Hy; simpl in Hy; [congruence|].
    by eapply IH.
Qed.

Lemma findi_lt f l i : findi f l = Some i → (i < length l)%nat.
Proof. intros [(x & Hx & _) _]%findi_Some. by eapply lookup_lt_Some. Qed.

Lemma getb_lookup (d : A) l i x : l !! Z.to_nat i = Some x → getb d l i = x.
Proof. unfold getb. by intros ->. Qed.

Lemma length_setb i (v : A) l : length (setb i v l) = length l.
Proof. apply length_insert. Qed.

Lemma getb_setb_same (d v : A) l i :
  0 ≤ i → (Z.to_nat i < length l)%nat → getb d (setb i v l) i = v.
Proof. intros. unfold getb, setb. by rewrite list_lookup_insert_eq. Qed.

Lemma getb_setb_ne (d v : A) l i j :
  0 ≤ i → 0 ≤ j → i ≠ j → getb d (setb i v l) j = getb d l j.
Proof. intros. unfold getb, setb. rewrite list_lookup_insert_ne by lia. done. Qed.
End lists.

#[export] Hint Rewrite @length_slice @length_app @length_take @length_drop
  @length_replicate @length_insert @length_setb @length_fmap : klen.

Lemma length_le_bytes n v : length (le_bytes n v) = n.
Proof. revert v; induction n; intros; simpl; auto. Qed.
#[export] Hint Rewrite length_le_bytes : klen.

Lemma le_bytes_byte n v : Forall is_byte (le_bytes n v).
Proof.
  revert v; induction n; intros v; simpl; constructor; auto.
  unfold is_byte. apply Z.mod_pos_bound. lia.
Qed.

Lemma le_val_bytes n v : le_val (le_bytes n v) = v mod 256 ^ Z.of_nat n.
Proof.
  revert v; induction n as [|n IH]; intros v; cbn [le_bytes le_val].
  - by rewrite Z.mod_1_r.
  - rewrite IH, Nat2Z.inj_succ, Z.pow_succ_r by lia.
    rewrite Z.rem_mul_r; [lia| lia | ].
    apply Z.pow_pos_nonneg; lia.
Qed.

Lemma le_val_bytes_small n v :
  0 ≤ v < 256 ^ Z.of_nat n → le_val (le_bytes n v) = v.
Proof. intros. rewrite le_val_bytes. by apply Z.mod_small. Qed.

Lemma le_val_bound bs : Forall is_byte bs → 0 ≤ le_val bs < 256 ^ Z.of_nat (length bs).
Proof.
  induction 1 as [|b bs Hb _ IH]; cbn [le_val length]; [lia|].
  rewrite Nat2Z.inj_succ, Z.pow_succ_r by lia. unfold is_byte in Hb. lia.
Qed.

Lemma le_bytes_val bs : Forall is_byte bs → le_bytes (length bs) (le_val bs) = bs.
Proof.
  induction 1 as [|b bs Hb _ IH]; cbn [le_val length le_bytes]; [done|].
  unfold is_byte in Hb.
  rewrite Z.mul_comm, Z.mod_add, Z.div_add, Z.mod_small, Z.div_small, Z.add_0_l by lia.
  by rewrite IH.
Qed.

Lemma u32_small x : 0 ≤ x < 2 ^ 32 → u32 x = x.
Proof. apply Z.mod_small. Qed.
Lemma u16_small x : 0 ≤ x < 2 ^ 16 → u16 x = x.
Proof. apply Z.mod_small. Qed.
Lemma u64_small x : 0 ≤ x < 2 ^ 64 → u64 x = x.
Proof. apply Z.mod_small. Qed.
Lemma u32_range x : 0 ≤ u32 x < 2 ^ 32.
Proof. apply Z.mod_pos_bound. lia. Qed.
Lemma u16_range x : 0 ≤ u16 x < 2 ^ 16.
Proof. apply Z.mod_pos_bound. lia. Qed.
Lemma u64_range x : 0 ≤ u64 x < 2 ^ 64.
Proof. apply Z.mod_pos_bound. lia. Qed.
#[export] Hint Resolve u32_small u16_small u64_small u32_range u16_range u64_range : kern.

Lemma s32_small x : - 2 ^ 31 ≤ x < 2 ^ 31 → s32 x = x.
Proof. intros. unfold s32. rewrite Z.mod_small; lia. Qed.

(** ** Stepping through the monad *)

Lemma bind_ret {St A B} (m : M St A) (f : A → M St B) s s' a :
  m s = (Ret a, s') → (m ≫= f) s = f a s'.
Proof. intros E. unfold mbind, M_bind. by rewrite E. Qed.

Lemma bind_bind {St A B C} (m : M St A) (f : A → M St B) (g : B → M St C) s :
  ((m ≫= f) ≫= g) s = (m ≫= λ a, f a ≫= g) s.
Proof. unfold mbind, M_bind. by destruct (m s) as [[]]. Qed.

Lemma bind_ret_inv {St A B} (m : M St A) (f : A → M St B) s b s' :
  (m ≫= f) s = (Ret b, s') → ∃ a s1, m s = (Ret a, s1) ∧ f a s1 = (Ret b, s').
Proof. unfold mbind, M_bind. destruct (m s) as [[a|?| |] s1]; intros E; [eauto|done..]. Qed.

Lemma bind_fail {St A B} (m : M St A) (f : A → M St B) s s' rc :
  m s = (Fail rc, s') → (m ≫= f) s = (Fail rc, s').
Proof. intros E. unfold mbind, M_bind. by rewrite E. Qed.

Lemma or_return_ret {St A} (m : M St A) e s s' a :
  m s = (Ret a, s') → (m ?! e) s = (Ret a, s').
Proof. intros E. unfold or_return. by rewrite E. Qed.

Lemma or_return_fail {St A} (m : M St A) e s s' rc :
  m s = (Fail rc, s') → (m ?! e) s = (Fail e, s').
Proof. intros E. unfold or_return. by rewrite E. Qed.

Lemma attempt_ret {St A} (m : M St A) s s' a :
  m s = (Ret a, s') → attempt m s = (Ret (Some a), s').
Proof. intros E. unfold attempt. by rewrite E. Qed.

Lemma attempt_fail {St A} (m : M St A) s s' rc :
  m s = (Fail rc, s') → attempt m s = (Ret None, s').
Proof. intros E. unfold attempt. by rewrite E. Qed.

(** Run one statement whose effect the hypothesis [H] gives. *)
Ltac krun H :=
  first
    [ rewrite (bind_ret _ _ _ _ _ H)
    | rewrite (bind_ret _ _ _ _ _ (or_return_ret _ _ _ _ _ H))
    | rewrite (bind_ret _ _ _ _ _ (attempt_ret _ _ _ _ H)) ].

(** Reading a global. *)
Ltac kgets :=
  match goal with
  | |- context [(gets ?f ≫= ?k) ?s] => rewrite (bind_ret (gets f) k s s (f s) eq_refl)
  end.

(** A statement that only returns. *)
Ltac kret :=
  match goal with
  | |- context [(mret ?a ≫= ?k) ?s] => rewrite (bind_ret (mret a) k s s a eq_refl)
  end.

(** Writing a global. *)
Ltac kmodify :=
  match goal with
  | |- context [(modify ?f ≫= ?k) ?s] => rewrite (bind_ret (modify f) k s (f s) tt eq_refl)
  end.
