(* ===== verification/Config.v ===== *)
(** * Constants of the kernel's headers

    Error numbers (kernel/error.h), ioctl commands (kernel/io.h), the
    compile-time configuration (kernel/conf.h, kernel/memory.h, kernel/cache.h)
    and the system call numbers (kernel/scnum.h). *)

From S2P Require Import Prelude.

(** ** kernel/error.h *)

Definition EINVAL : Z := 1.
Definition EBUSY : Z := 2.
Definition ENOTSUP : Z := 3.
Definition ENODEV : Z := 4.
Definition EIO : Z := 5.
Definition EBADFMT : Z := 6.
Definition ENOENT : Z := 7.
Definition EACCESS : Z := 8.
Definition EBADFD : Z := 9.
Definition EMFILE : Z := 10.
Definition EMPROC : Z := 11.
Definition EMTHR : Z := 12.
Definition ECHILD : Z := 13.
Definition ENOMEM : Z := 14.
Definition EPIPE : Z := 15.
Definition ENODATABLKS : Z := 16.
Definition ENOINODEBLKS : Z := 17.

(** ** kernel/io.h *)

Definition IOCTL_GETBLKSZ : Z := 0.
Definition IOCTL_GETEND : Z := 2.
Definition IOCTL_SETEND : Z := 3.
Definition IOCTL_GETPOS : Z := 4.
Definition IOCTL_SETPOS : Z := 5.

(** ** kernel/memory.h and kernel/conf.h *)

Definition PAGE_ORDER : Z := 12.
Definition PAGE_SIZE : Z := Z.shiftl 1 PAGE_ORDER.
Definition ROUND_UP (n k : Z) : Z := (n + k - 1) / k * k.
Definition ROUND_DOWN (n k : Z) : Z := n / k * k.

Definition RAM_SIZE : Z := 8 * 1024 * 1024.
Definition RAM_START_PMA : Z := 0x80000000.
Definition RAM_END_PMA : Z := RAM_START_PMA + RAM_SIZE.
Definition TIMER_FREQ : Z := 10000000.
Definition UMEM_START_VMA : Z := 0xC0000000.
Definition UMEM_END_VMA : Z := 0xF0000000.
Definition NTHR : Z := 32.
Definition NPROC : Z := 16.
Definition NDEV : Z := 16.
Definition HEAP_ALIGN : Z := 16.
Definition PROCESS_IOMAX : Z := 16.

(** ** kernel/cache.h *)

Definition CACHE_BLKSZ : Z := 512.
Definition CACHE_CLEAN : Z := 0.
Definition CACHE_DIRTY : Z := 1.

(** ** kernel/scnum.h *)

Definition SYSCALL_EXIT : Z := 0.
Definition SYSCALL_EXEC : Z := 1.
Definition SYSCALL_FORK : Z := 2.
Definition SYSCALL_WAIT : Z := 3.
Definition SYSCALL_PRINT : Z := 4.
Definition SYSCALL_USLEEP : Z := 5.
Definition SYSCALL_DEVOPEN : Z := 10.
Definition SYSCALL_FSOPEN : Z := 11.
Definition SYSCALL_FSCREATE : Z := 12.
Definition SYSCALL_FSDELETE : Z := 13.
Definition SYSCALL_CLOSE : Z := 16.
Definition SYSCALL_READ : Z := 17.
Definition SYSCALL_WRITE : Z := 18.
Definition SYSCALL_IOCTL : Z := 19.
Definition SYSCALL_PIPE : Z := 20.
Definition SYSCALL_IODUP : Z := 21.

Lemma ROUND_UP_spec n k :
  0 < k → n ≤ ROUND_UP n k < n + k ∧ ROUND_UP n k mod k = 0.
Proof.
  intros. unfold ROUND_UP. split; [|by apply Z.mod_mul; lia].
  pose proof (Z.div_mod (n + k - 1) k ltac:(lia)).
  pose proof (Z.mod_pos_bound (n + k - 1) k ltac:(lia)). nia.
Qed.

Lemma ROUND_DOWN_spec n k :
  0 < k → n - k < ROUND_DOWN n k ≤ n ∧ ROUND_DOWN n k mod k = 0.
Proof.
  intros. unfold ROUND_DOWN. split; [|by apply Z.mod_mul; lia].
  pose proof (Z.div_mod n k ltac:(lia)). pose proof (Z.mod_pos_bound n k ltac:(lia)). nia.
Qed.
