(* ===== verification/Io.v ===== *)
(** * Unified I/O objects (kernel/io.c, kernel/ioimpl.h)

    [struct io] is modelled with the state of its concrete endpoint stored in
    it; [iointf] is the table of (possibly NULL) operations.  A read returns,
    next to its result, the bytes it stored at the start of the caller's
    buffer: a failing read may have stored some.  The section [memio] models
    the memory endpoint, the section [seekio] the seekable wrapper. *)

From S2P Require Import Prelude Config.

(** ** The operation table and the dispatching functions *)

Record iointf (St : Type) := IoIntf {
  i_close : option (St → St);
  i_cntl : option (St → Z → option Z → Z * option Z * St);
  i_read : option (St → Z → Z * list Z * St);
  i_write : option (St → list Z → Z → Z * St);
  i_readat : option (St → Z → Z → Z * list Z * St);
  i_writeat : option (St → Z → list Z → Z → Z * St)
}.
Arguments IoIntf {St}.
Arguments i_close {St}.
Arguments i_cntl {St}.
Arguments i_read {St}.
Arguments i_write {St}.
Arguments i_readat {St}.
Arguments i_writeat {St}.

Record io (St : Type) := Io { intf : iointf St; refcnt : Z; ist : St }.
Arguments Io {St}.
Arguments intf {St}.
Arguments refcnt {St}.
Arguments ist {St}.

Section io.
Context {St : Type}.
Implicit Types (o : io St) (pos len bufsz : Z) (buf : list Z).

Definition with_ist o (s : St) : io St := Io (intf o) (refcnt o) s.
Definition with_refcnt o (n : Z) : io St := Io (intf o) n (ist o).

Definition ioinit0 (s : St) (ops : iointf St) : io St := Io ops 0 s.
Definition ioinit1 (s : St) (ops : iointf St) : io St := Io ops 1 s.

Definition iorefcnt o : Z := refcnt o.
Definition ioaddref o : io St := with_refcnt o (u64 (refcnt o + 1)).

Definition ioclose : M (io St) unit := λ o,
  if refcnt o =? 0 then (Panic, o)
  else
    let o := with_refcnt o (refcnt o - 1) in
    if refcnt o =? 0 then
      match i_close (intf o) with
      | Some f => (Ret tt, with_ist o (f (ist o)))
      | None => (Ret tt, o)
      end
    else (Ret tt, o).

Definition ioread o bufsz : Z * list Z * io St :=
  match i_read (intf o) with
  | None => (- ENOTSUP, [], o)
  | Some f =>
      if bufsz <? 0 then (- EINVAL, [], o)
      else let '(n, got, s) := f (ist o) bufsz in (n, got, with_ist o s)
  end.

(** The loop of [iofill]; [buf] is the part of the buffer filled so far. *)
Fixpoint iofill_loop (fuel : nat) (f : St → Z → Z * list Z * St) bufsz buf bufpos (s : St)
  : outcome (Z * list Z) * St :=
  match fuel with
  | O => (NoFuel, s)
  | S k =>
      if bufpos <? bufsz then
        let '(nread, got, s) := f s (bufsz - bufpos) in
        let buf := splice bufpos got buf in
        if nread <=? 0 then (Ret (if nread <? 0 then nread else bufpos, buf), s)
        else iofill_loop k f bufsz buf (bufpos + nread) s
      else (Ret (bufpos, buf), s)
  end.

Definition iofill (buf : list Z) bufsz : M (io St) (Z * list Z) := λ o,
  match i_read (intf o) with
  | None => (Ret (- ENOTSUP, buf), o)
  | Some f =>
      if bufsz <? 0 then (Ret (- EINVAL, buf), o)
      else let '(r, s) := iofill_loop (S (Z.to_nat bufsz)) f bufsz buf 0 (ist o) in
           (r, with_ist o s)
  end.

Fixpoint iowrite_loop (fuel : nat) (f : St → list Z → Z → Z * St) buf len bufpos (s : St)
  : outcome Z * St :=
  match fuel with
  | O => (NoFuel, s)
  | S k =>
      let '(n, s) := f s (drop (Z.to_nat bufpos) buf) (len - bufpos) in
      if n <=? 0 then (Ret (if n <? 0 then n else bufpos), s)
      else
        let bufpos := bufpos + n in
        if bufpos <? len then iowrite_loop k f buf len bufpos s else (Ret bufpos, s)
  end.

Definition iowrite buf len : M (io St) Z := λ o,
  match i_write (intf o) with
  | None => (Ret (- ENOTSUP), o)
  | Some f =>
      if len <? 0 then (Ret (- EINVAL), o)
      else let '(r, s) := iowrite_loop (S (Z.to_nat len)) f buf len 0 (ist o) in
           (r, with_ist o s)
  end.

Definition ioreadat o pos bufsz : Z * list Z * io St :=
  match i_readat (intf o) with
  | None => (- ENOTSUP, [], o)
  | Some f =>
      if bufsz <? 0 then (- EINVAL, [], o)
      else let '(n, got, s) := f (ist o) pos bufsz in (n, got, with_ist o s)
  end.

Definition iowriteat o pos buf len : Z * io St :=
  match i_writeat (intf o) with
  | None => (- ENOTSUP, o)
  | Some f =>
      if len <? 0 then (- EINVAL, o)
      else let '(n, s) := f (ist o) pos buf len in (n, with_ist o s)
  end.

(** [arg] is the integer a non-NULL argument points to; the returned option
    is its value after the call. *)
Definition ioctl o (cmd : Z) (arg : option Z) : Z * option Z * io St :=
  match i_cntl (intf o) with
  | Some f => let '(r, a, s) := f (ist o) cmd arg in (r, a, with_ist o s)
  | None => (if cmd =? IOCTL_GETBLKSZ then 1 else - ENOTSUP, arg, o)
  end.

Definition ioblksz o : Z := (ioctl o IOCTL_GETBLKSZ None).1.1.

Definition ioseek o pos : Z * io St :=
  let '(r, _, o) := ioctl o IOCTL_SETPOS (Some pos) in (r, o).
End io.

(** ** What a block-device client relies on

    A readable and writable endpoint that stores 512-byte blocks: reading a
    block in range returns it whole, writing one replaces exactly it. *)

Definition blk_in_range (cap p : Z) : Prop :=
  0 ≤ p ∧ p mod CACHE_BLKSZ = 0 ∧ p + CACHE_BLKSZ ≤ cap.

Lemma blk_separated q p :
  q mod CACHE_BLKSZ = 0 → p mod CACHE_BLKSZ = 0 → q ≠ p →
  q + CACHE_BLKSZ ≤ p ∨ p + CACHE_BLKSZ ≤ q.
Proof. unfold CACHE_BLKSZ. intros. Z.div_mod_to_equations. lia. Qed.

Class BlockDevice {St : Type} (ops : iointf St) := {
  bd_ok : St → Prop;
  bd_cap : St → Z;
  bd_blk : St → Z → list Z;
  bd_len s p : bd_ok s → blk_in_range (bd_cap s) p → length (bd_blk s p) = Z.to_nat CACHE_BLKSZ;
  bd_read s p :
    bd_ok s → blk_in_range (bd_cap s) p →
    ∃ f s', i_readat ops = Some f ∧ f s p CACHE_BLKSZ = (CACHE_BLKSZ, bd_blk s p, s') ∧
      bd_ok s' ∧ bd_cap s' = bd_cap s ∧
      (∀ q, blk_in_range (bd_cap s) q → bd_blk s' q = bd_blk s q);
  bd_write s p d :
    bd_ok s → blk_in_range (bd_cap s) p → length d = Z.to_nat CACHE_BLKSZ →
    ∃ f s', i_writeat ops = Some f ∧ f s p d CACHE_BLKSZ = (CACHE_BLKSZ, s') ∧
      bd_ok s' ∧ bd_cap s' = bd_cap s ∧
      (∀ q, blk_in_range (bd_cap s) q →
            bd_blk s' q = if decide (q = p) then d else bd_blk s q)
}.

(** ** Memory endpoint *)

Record memio := MemIo { m_buf : list Z; m_size : Z }.

Section memio.
Implicit Types (m : memio) (pos : Z).

Definition memio_readat m pos (bufsz : Z) : Z * list Z * memio :=
  if bufsz <? 0 then (- EINVAL, [], m)
  else if m_size m <=? pos then (0, [], m)
  else
    let avail := u64 (m_size m - pos) in
    let bufsz := if avail <? bufsz then avail else bufsz in
    (bufsz, slice pos bufsz (m_buf m), m).

Definition memio_writeat m pos (buf : list Z) (len : Z) : Z * memio :=
  if len <? 0 then (- EINVAL, m)
  else if m_size m <=? pos then (0, m)
  else
    let avail := u64 (m_size m - pos) in
    let len := if avail <? len then avail else len in
    (len, MemIo (splice pos (take (Z.to_nat len) buf) (m_buf m)) (m_size m)).

Definition memio_cntl m (cmd : Z) (arg : option Z) : Z * option Z * memio :=
  if cmd =? IOCTL_GETBLKSZ then (1, arg, m)
  else if cmd =? IOCTL_GETEND then
    match arg with
    | None => (- EINVAL, arg, m)
    | Some _ => (0, Some (m_size m), m)
    end
  else if cmd =? IOCTL_SETEND then
    match arg with
    | None => (- EINVAL, arg, m)
    | Some ne => if m_size m <? ne then (- EINVAL, arg, m) else (0, arg, MemIo (m_buf m) ne)
    end
  else (- ENOTSUP, arg, m).

(** [memio_close] frees the descriptor; the backing buffer is the caller's. *)
Definition memio_close m : memio := m.

Definition memio_iointf : iointf memio :=
  IoIntf (Some memio_close) (Some memio_cntl) None None (Some memio_readat) (Some memio_writeat).

(** [None] is the NULL result; [kcalloc] tells whether the allocation of the
    descriptor succeeds. *)
Definition create_memory_io (kcalloc : bool) (buf : option (list Z)) (size : Z) : option (io memio) :=
  match buf with
  | None => None
  | Some b => if kcalloc then Some (ioinit1 (MemIo b size) memio_iointf) else None
  end.

(** The backing buffer really has the size the descriptor records. *)
Definition memio_ok m : Prop := 0 ≤ m_size m < 2 ^ 63 ∧ m_size m ≤ Z.of_nat (length (m_buf m)).

Lemma memio_readat_in m pos n :
  memio_ok m → 0 ≤ pos → 0 ≤ n → pos + n ≤ m_size m → 0 < n →
  memio_readat m pos n = (n, slice pos n (m_buf m), m).
Proof.
  intros [] ????. unfold memio_readat.
  rewrite (proj2 (Z.ltb_ge n 0)), (proj2 (Z.leb_gt (m_size m) pos)) by lia.
  rewrite u64_small by lia. by rewrite (proj2 (Z.ltb_ge _ n)) by lia.
Qed.

Lemma memio_writeat_in m pos d n :
  memio_ok m → 0 ≤ pos → n = Z.of_nat (length d) → 0 < n → pos + n ≤ m_size m →
  memio_writeat m pos d n = (n, MemIo (splice pos d (m_buf m)) (m_size m)).
Proof.
  intros [] ????. unfold memio_writeat.
  rewrite (proj2 (Z.ltb_ge n 0)), (proj2 (Z.leb_gt (m_size m) pos)) by lia.
  rewrite u64_small by lia. rewrite (proj2 (Z.ltb_ge _ n)) by lia.
  by rewrite take_ge by lia.
Qed.
End memio.

#[export] Program Instance memio_block_device : BlockDevice memio_iointf := {|
  bd_ok := memio_ok;
  bd_cap := m_size;
  bd_blk m p := slice p CACHE_BLKSZ (m_buf m)
|}.
Next Obligation.
  intros m p [] [? []]. rewrite length_slice. unfold CACHE_BLKSZ in *. lia.
Qed.
Next Obligation.
  intros m p Hok (? & ? & ?). exists memio_readat, m. split; [done|].
  split; [|done]. unfold CACHE_BLKSZ in *. apply memio_readat_in; try done; lia.
Qed.
Next Obligation.
  intros m p d Hok (? & Hp & ?) Hd. unfold CACHE_BLKSZ in *.
  eexists _, _. split; [done|]. split; [apply memio_writeat_in; try done; lia|].
  destruct Hok. unfold memio_ok. simpl.
  rewrite length_splice by lia. split_and!; [lia..|].
  intros q (? & Hq & ?). case_decide as E.
  - subst q. apply slice_splice_same; lia.
  - apply slice_splice_other; [lia|].
    pose proof (blk_separated q p Hq Hp E). unfold CACHE_BLKSZ in *. lia.
Qed.

(** ** Seekable wrapper *)

Module Seekio.

Record seekio (St : Type) := SeekIo { bkgio : io St; pos : Z; end_ : Z; blksz : Z }.
Arguments SeekIo {St}.
Arguments bkgio {St}.
Arguments pos {St}.
Arguments end_ {St}.
Arguments blksz {St}.

Section seekio.
Context {St : Type}.
Implicit Types (sio : seekio St).

Definition with_bkgio sio (b : io St) : seekio St := SeekIo b (pos sio) (end_ sio) (blksz sio).
Definition with_pos sio (p : Z) : seekio St := SeekIo (bkgio sio) p (end_ sio) (blksz sio).
Definition with_end sio (e : Z) : seekio St := SeekIo (bkgio sio) (pos sio) e (blksz sio).

(** Every command but GETBLKSZ and the forwarded ones reads or writes through
    [arg], which callers pass non-NULL. *)
Definition seekio_cntl sio (cmd : Z) (arg : option Z) : Z * option Z * seekio St :=
  let ullarg := default 0 arg in
  if cmd =? IOCTL_GETBLKSZ then (blksz sio, arg, sio)
  else if cmd =? IOCTL_GETPOS then (0, Some (pos sio), sio)
  else if cmd =? IOCTL_SETPOS then
    if negb (Z.land ullarg (blksz sio - 1) =? 0) then (- EINVAL, arg, sio)
    else if end_ sio <? ullarg then (- EINVAL, arg, sio)
    else (0, arg, with_pos sio ullarg)
  else if cmd =? IOCTL_GETEND then (0, Some (end_ sio), sio)
  else if cmd =? IOCTL_SETEND then
    let '(result, arg, b) := ioctl (bkgio sio) IOCTL_SETEND arg in
    let sio := with_bkgio sio b in
    (result, arg, if result =? 0 then with_end sio (default 0 arg) else sio)
  else
    let '(result, arg, b) := ioctl (bkgio sio) cmd arg in (result, arg, with_bkgio sio b).

Definition seekio_read sio (bufsz : Z) : Z * list Z * seekio St :=
  let pos := pos sio in
  let end_ := end_ sio in
  let bufsz := if u64 (end_ - pos) <? u64 bufsz then s64 (u64 (end_ - pos)) else bufsz in
  if bufsz =? 0 then (0, [], sio)
  else if bufsz <? blksz sio then (- EINVAL, [], sio)
  else
    let bufsz := Z.land bufsz (Z.lnot (blksz sio - 1)) in
    let '(rcnt, got, b) := ioreadat (bkgio sio) pos bufsz in
    (rcnt, got, with_pos (with_bkgio sio b) (u64 (pos + (if rcnt <? 0 then 0 else rcnt)))).

Definition seekio_write sio (buf : list Z) (len : Z) : Z * seekio St :=
  let pos := pos sio in
  if len =? 0 then (0, sio)
  else if len <? blksz sio then (- EINVAL, sio)
  else
    let len := Z.land len (Z.lnot (blksz sio - 1)) in
    let finish sio :=
      let '(wcnt, b) := iowriteat (bkgio sio) pos buf len in
      (wcnt, with_pos (with_bkgio sio b) (u64 (pos + (if wcnt <? 0 then 0 else wcnt)))) in
    if u64 (end_ sio - pos) <? u64 len then
      if u64 (2 ^ 64 - 1 - pos) <? u64 len then (- EINVAL, sio)
      else
        let new_end := u64 (pos + len) in
        let '(result, _, b) := ioctl (bkgio sio) IOCTL_SETEND (Some new_end) in
        let sio := with_bkgio sio b in
        if negb (result =? 0) then (result, sio) else finish (with_end sio new_end)
    else finish sio.

Definition seekio_readat sio (p bufsz : Z) : Z * list Z * seekio St :=
  let '(n, got, b) := ioreadat (bkgio sio) p bufsz in (n, got, with_bkgio sio b).

Definition seekio_writeat sio (p : Z) (buf : list Z) (len : Z) : Z * seekio St :=
  let '(n, b) := iowriteat (bkgio sio) p buf len in (n, with_bkgio sio b).

(** Closing drops the reference the wrapper holds on its backing endpoint. *)
Definition seekio_close sio : seekio St := with_bkgio sio (ioclose (bkgio sio)).2.

Definition seekio_iointf : iointf (seekio St) :=
  IoIntf (Some seekio_close) (Some seekio_cntl) (Some seekio_read) (Some seekio_write)
         (Some seekio_readat) (Some seekio_writeat).

(** The result of [kcalloc] is used without a check. *)
Definition create_seekable_io (kcalloc : bool) (o : io St) : outcome (io (seekio St)) :=
  let blksz := ioblksz o in
  if negb (0 <? blksz) then Panic
  else if negb (Z.land blksz (blksz - 1) =? 0) then Panic
  else
    let '(result, e, o) := ioctl o IOCTL_GETEND (Some 0) in
    if negb (result =? 0) then Panic
    else if negb kcalloc then Panic
    else Ret (ioinit1 (SeekIo (ioaddref o) 0 (default 0 e) blksz) seekio_iointf).
End seekio.
End Seekio.
