(* ===== verification/Cache.v ===== *)
(** * Write-back block cache (kernel/cache.c)

    A cache is the backing endpoint and a table of CACHE_NENT entries; a block
    pointer handed to a client is the index of its entry.  The interface
    [BlockCache] is what the file system relies on; the instance
    [cache_block_cache] discharges it for the cache over any [BlockDevice]. *)

From S2P Require Import Prelude Config Io.

(** ** The interface the file system uses *)

Class CacheOps (C : Type) := {
  cache_get_block : C → Z → Z * option nat * C;
  cache_release_block : C → option nat → Z → C;
  cache_flush : C → Z * C;
  blk_load : C → nat → list Z;
  blk_store : C → nat → list Z → C
}.

(** [view c p] is the content of block [p] as the client sees it; [pins c]
    records, for every entry a client holds, its block and how many times. *)
Class BlockCache (C : Type) `{CacheOps C} := {
  bc_ok : C → Prop;
  bc_cap : C → Z;
  view : C → Z → list Z;
  pins : C → gmap nat (Z * nat);
  bc_nent : nat;
  bc_nent_pos : (3 ≤ bc_nent)%nat;
  view_len c p : bc_ok c → blk_in_range (bc_cap c) p → length (view c p) = Z.to_nat CACHE_BLKSZ;
  get_block_spec c p :
    bc_ok c → blk_in_range (bc_cap c) p → (size (pins c) < bc_nent)%nat →
    ∃ i c' n, cache_get_block c p = (0, Some i, c') ∧ bc_ok c' ∧ bc_cap c' = bc_cap c ∧
      (∀ q, blk_in_range (bc_cap c) q → view c' q = view c q) ∧
      pins c' = <[i := (p, S n)]> (pins c) ∧
      pins c !! i = (if decide (n = O) then None else Some (p, n)) ∧
      blk_load c' i = view c p;
  release_clean_spec c i p n :
    bc_ok c → pins c !! i = Some (p, S n) →
    let c' := cache_release_block c (Some i) CACHE_CLEAN in
    bc_ok c' ∧ bc_cap c' = bc_cap c ∧
    (∀ q, blk_in_range (bc_cap c) q → view c' q = view c q) ∧
    pins c' = (if decide (n = O) then delete i (pins c) else <[i := (p, n)]> (pins c));
  release_dirty_spec c i p n d :
    bc_ok c → pins c !! i = Some (p, S n) → length d = Z.to_nat CACHE_BLKSZ →
    let c' := cache_release_block (blk_store c i d) (Some i) CACHE_DIRTY in
    bc_ok c' ∧ bc_cap c' = bc_cap c ∧
    (∀ q, blk_in_range (bc_cap c) q →
          view c' q = if decide (q = p) then d else view c q) ∧
    pins c' = (if decide (n = O) then delete i (pins c) else <[i := (p, n)]> (pins c));
  blk_load_spec c i p n :
    bc_ok c → pins c !! i = Some (p, n) → blk_load c i = view c p ∧ blk_in_range (bc_cap c) p;
  flush_spec c :
    bc_ok c →
    ∃ c', cache_flush c = (0, c') ∧ bc_ok c' ∧ bc_cap c' = bc_cap c ∧
      (∀ q, blk_in_range (bc_cap c) q → view c' q = view c q) ∧ pins c' = pins c
}.

Module Cache.

Definition CACHE_NENT : nat := 128.

Record cache_entry := Entry { pos : Z; valid : bool; refcnt : Z; dirty : bool; data : list Z }.

Record cache (St : Type) := Cache { bkgio : io St; ents : list cache_entry }.
Arguments Cache {St}.
Arguments bkgio {St}.
Arguments ents {St}.

(** A zeroed entry, as [kcalloc] returns it. *)
Definition zero_entry : cache_entry := Entry 0 false 0 false (replicate (Z.to_nat CACHE_BLKSZ) 0).

Section cache.
Context {St : Type}.
Implicit Types (c : cache St) (e : cache_entry) (i : nat) (p : Z).

Definition with_ent c i e : cache St := Cache (bkgio c) (<[i := e]> (ents c)).
Definition with_io c (o : io St) : cache St := Cache o (ents c).

(** [kcalloc k] tells whether the [k]-th allocation of the call succeeds.
    [create_entries] counts the entries allocated before the first failure. *)
Fixpoint create_entries (kcalloc : nat → bool) (i n : nat) : nat :=
  match n with
  | O => i
  | S n => if kcalloc (S i) then create_entries kcalloc (S i) n else i
  end.

(** The code, the cache, and the number of allocations still live on return. *)
Definition create_cache (kcalloc : nat → bool) (bkgio : option (io St))
  : Z * option (cache St) * nat :=
  match bkgio with
  | None => (- EINVAL, None, O)
  | Some o =>
      if kcalloc O then
        let i := create_entries kcalloc O CACHE_NENT in
        if (i <? CACHE_NENT)%nat
        then let live := S i in
             let live := (live - i)%nat (* the loop of kfree(c->ents[j]) *) in
             (- ENOMEM, None, (live - 1)%nat (* kfree(c) *))
        else (0, Some (Cache o (replicate CACHE_NENT zero_entry)), S i)
      else (- ENOMEM, None, O)
  end.

Definition find_entry c p : option nat :=
  findi (λ e, valid e && (pos e =? p))%bool (ents c).

Definition pick_victim c : option nat :=
  match findi (λ e, negb (valid e)) (ents c) with
  | Some i => Some i
  | None =>
      match findi (λ e, (refcnt e =? 0) && negb (dirty e))%bool (ents c) with
      | Some i => Some i
      | None => findi (λ e, refcnt e =? 0) (ents c)
      end
  end.

Definition ent c i : cache_entry := default zero_entry (ents c !! i).

Definition writeback c i : Z * cache St :=
  let e := ent c i in
  if negb (valid e) || negb (dirty e) then (0, c)
  else
    let '(n, o) := iowriteat (bkgio c) (pos e) (data e) CACHE_BLKSZ in
    let c := with_io c o in
    if negb (n =? CACHE_BLKSZ) then (s32 n, c)
    else (0, with_ent c i (Entry (pos e) (valid e) (refcnt e) false (data e))).

(** Bytes stored by a read at the start of the entry's buffer. *)
Definition deposit (got d : list Z) : list Z := got ++ drop (length got) d.

Definition get_block c p : Z * option nat * cache St :=
  if negb (p mod CACHE_BLKSZ =? 0) then (- EINVAL, None, c)
  else
    match find_entry c p with
    | Some i =>
        let e := ent c i in
        (0, Some i, with_ent c i (Entry (pos e) (valid e) (refcnt e + 1) (dirty e) (data e)))
    | None =>
        match pick_victim c with
        | None => (- ENOMEM, None, c)
        | Some i =>
            let '(rc, c) := if valid (ent c i) then writeback c i else (0, c) in
            if negb (rc =? 0) then (rc, None, c)
            else
              let e := ent c i in
              let '(n, got, o) := ioreadat (bkgio c) p CACHE_BLKSZ in
              let d := deposit got (data e) in
              let c := with_io c o in
              if negb (n =? CACHE_BLKSZ)
              then (s32 n, None, with_ent c i (Entry (pos e) (valid e) (refcnt e) (dirty e) d))
              else (0, Some i, with_ent c i (Entry p true 1 false d))
        end
    end.

Definition release_block c (pblk : option nat) (dirty_ : Z) : cache St :=
  match pblk with
  | None => c
  | Some i =>
      let e := ent c i in
      if negb (valid e) then c
      else
        let dy := if dirty_ =? CACHE_DIRTY then true else dirty e in
        let rc := if 0 <? refcnt e then refcnt e - 1 else refcnt e in
        with_ent c i (Entry (pos e) (valid e) rc dy (data e))
  end.

Fixpoint flush_from c (i n : nat) : Z * cache St :=
  match n with
  | O => (0, c)
  | S n =>
      let '(rc, c) := writeback c i in
      if negb (rc =? 0) then (rc, c) else flush_from c (S i) n
  end.

Definition flush c : Z * cache St := flush_from c O CACHE_NENT.

(** Loads and stores through a block pointer. *)
Definition load c i : list Z := data (ent c i).
Definition store c i (d : list Z) : cache St :=
  let e := ent c i in with_ent c i (Entry (pos e) (valid e) (refcnt e) (dirty e) d).
End cache.

#[global] Instance cache_ops St : CacheOps (cache St) := {|
  cache_get_block := get_block;
  cache_release_block := release_block;
  cache_flush := flush;
  blk_load := load;
  blk_store := store
|}.

(** ** The invariant and the client's view *)

Section proofs.
Context {St : Type} {ops : iointf St} `{!BlockDevice ops}.
Implicit Types (c : cache St) (e : cache_entry) (i : nat) (p q : Z).

Definition dev c : St := ist (bkgio c).
Definition cap c : Z := bd_cap (dev c).

Definition has c i p e : Prop := ents c !! i = Some e ∧ valid e = true ∧ pos e = p.

(** What every operation preserves, for one entry. *)
Record entry_ok c e : Prop := {
  eo_len : length (data e) = Z.to_nat CACHE_BLKSZ;
  eo_ref : 0 ≤ refcnt e;
  eo_free : valid e = false → refcnt e = 0;
  eo_range : valid e = true → blk_in_range (cap c) (pos e);
  eo_clean : valid e = true → dirty e = false → data e = bd_blk (dev c) (pos e)
}.

Record cache_ok c : Prop := {
  co_ops : intf (bkgio c) = ops;
  co_dev : bd_ok (dev c);
  co_len : length (ents c) = CACHE_NENT;
  co_ent i e : ents c !! i = Some e → entry_ok c e;
  co_uniq i j p e e' : has c i p e → has c j p e' → i = j
}.

Definition cache_view c p : list Z :=
  match find_entry c p with
  | Some i => data (ent c i)
  | None => bd_blk (dev c) p
  end.

Definition pin_of e : option (Z * nat) :=
  if (valid e && (0 <? refcnt e))%bool then Some (pos e, Z.to_nat (refcnt e)) else None.

Definition cache_pins c : gmap nat (Z * nat) := omap pin_of (map_seq (M := gmap nat _) 0 (ents c)).

Lemma cache_pins_lookup c i : cache_pins c !! i = ents c !! i ≫= pin_of.
Proof. unfold cache_pins. rewrite lookup_omap, lookup_map_seq_0. done. Qed.

Lemma ent_lookup c i e : ents c !! i = Some e → ent c i = e.
Proof. unfold ent. by intros ->. Qed.

Lemma find_entry_Some c p i : find_entry c p = Some i → has c i p (ent c i).
Proof.
  intros [(e & He & Hb) _]%findi_Some. kbool.
  by rewrite (ent_lookup c i e He).
Qed.

Lemma find_entry_None c p : find_entry c p = None → ∀ i e, ¬ has c i p e.
Proof.
  intros Hn i e (He & Hv & Hp). pose proof (proj1 (findi_None _ _) Hn i e He) as Hb.
  simpl in Hb. rewrite Hv, Hp, Z.eqb_refl in Hb. done.
Qed.

Lemma view_hit c i p e : cache_ok c → has c i p e → cache_view c p = data e.
Proof.
  intros Hok He. unfold cache_view. destruct (find_entry c p) as [j|] eqn:Hf.
  - apply find_entry_Some in Hf. pose proof (co_uniq c Hok _ _ _ _ _ He Hf) as <-.
    by rewrite (ent_lookup c i e) by apply He.
  - exfalso. by eapply find_entry_None.
Qed.

Lemma view_miss c p : (∀ i e, ¬ has c i p e) → cache_view c p = bd_blk (dev c) p.
Proof.
  intros Hn. unfold cache_view. destruct (find_entry c p) as [j|] eqn:Hf; [|done].
  apply find_entry_Some in Hf. by apply Hn in Hf.
Qed.

Lemma has_dec c p : (∃ i e, has c i p e) ∨ (∀ i e, ¬ has c i p e).
Proof.
  destruct (find_entry c p) eqn:Hf;
    [left; eauto using find_entry_Some | right; by apply find_entry_None].
Qed.

Lemma has_insert o l i e j p e' :
  (i < length l)%nat →
  has (Cache o (<[i := e]> l)) j p e' ↔
  (j = i ∧ e' = e ∧ valid e = true ∧ pos e = p) ∨ (j ≠ i ∧ has (Cache o l) j p e').
Proof.
  intros Hi. unfold has. simpl. destruct (decide (i = j)) as [->|Hne].
  - rewrite list_lookup_insert_eq by done. naive_solver.
  - rewrite list_lookup_insert_ne by done. naive_solver.
Qed.

(** Replacing entry [i] by one that names the same block keeps the invariant
    as long as the new entry satisfies its own part of it. *)
Lemma cache_ok_update c i e :
  cache_ok c → (i < CACHE_NENT)%nat → entry_ok c e →
  (valid e = true → ∀ j e', has c j (pos e) e' → j = i) →
  cache_ok (with_ent c i e).
Proof.
  intros [Hops Hdev Hlen Hent Huniq] Hi He Hu. unfold with_ent.
  split; simpl; [done|done|by rewrite length_insert|..].
  - intros j e' Hj. apply list_lookup_insert_Some in Hj as [(-> & -> & _)|[_ Hj]].
    + destruct He; by split.
    + destruct (Hent j e' Hj); by split.
  - intros j k p e1 e2 H1 H2.
    apply has_insert in H1; [|lia]. apply has_insert in H2; [|lia].
    destruct H1 as [(-> & _ & V1 & <-)|[N1 H1]], H2 as [(-> & _ & V2 & P2)|[N2 H2]].
    + done.
    + symmetry. by eapply Hu.
    + subst p. by eapply Hu.
    + by eapply Huniq.
Qed.

(** The view after an update of entry [i]: only the block that the new entry
    names and the one that the old entry named can change. *)
Lemma view_update c i e q :
  cache_ok c → cache_ok (with_ent c i e) → (i < CACHE_NENT)%nat →
  cache_view (with_ent c i e) q =
    if decide (valid e = true ∧ pos e = q) then data e
    else if decide (valid (ent c i) = true ∧ pos (ent c i) = q) then bd_blk (dev c) q
    else cache_view c q.
Proof.
  intros Hok Hok' Hi. pose proof (co_len c Hok) as Hlen.
  assert (∀ j e', has (with_ent c i e) j q e' ↔
    (j = i ∧ e' = e ∧ valid e = true ∧ pos e = q) ∨ (j ≠ i ∧ has c j q e')) as Hhas.
  { intros. apply has_insert. lia. }
  assert (∃ e0, ents c !! i = Some e0) as [e0 He0] by (apply lookup_lt_is_Some; lia).
  case_decide as D1.
  { apply (view_hit _ i q e Hok'). apply Hhas. naive_solver. }
  rewrite (ent_lookup c i e0 He0). case_decide as D2.
  - assert (has c i q e0) as Hh by (split; naive_solver).
    rewrite view_miss; [done|]. intros j e' [?|[Hne Hj]]%Hhas; [naive_solver|].
    by eapply Hne, (co_uniq c Hok).
  - destruct (has_dec c q) as [(j & e' & Hj)|Hno].
    + assert (j ≠ i) by (intros ->; destruct Hj as (Hj & ? & ?); naive_solver).
      rewrite (view_hit c j q e' Hok Hj). apply (view_hit _ j q e' Hok'). apply Hhas. auto.
    + rewrite !view_miss; [done|done|]. intros j e' [?|[_ Hj]]%Hhas; [naive_solver|].
      by apply Hno in Hj.
Qed.

Lemma pins_update c i e :
  (i < length (ents c))%nat →
  cache_pins (with_ent c i e) =
    match pin_of e with
    | Some x => <[i := x]> (cache_pins c)
    | None => delete i (cache_pins c)
    end.
Proof.
  intros Hi. apply map_eq. intros j. rewrite cache_pins_lookup. simpl.
  destruct (decide (i = j)) as [<-|Hne].
  - rewrite list_lookup_insert_eq by done. simpl.
    destruct (pin_of e); by rewrite ?lookup_insert_eq, ?lookup_delete_eq.
  - rewrite list_lookup_insert_ne, <- cache_pins_lookup by done.
    destruct (pin_of e); by rewrite ?lookup_insert_ne, ?lookup_delete_ne.
Qed.

(** The device below the cache changes: harmless for a block that is cached
    dirty, and for one whose content stays the same. *)
Lemma cache_ok_io c o :
  cache_ok c → intf o = ops → bd_ok (ist o) → bd_cap (ist o) = cap c →
  (∀ q, blk_in_range (cap c) q →
     (∀ i e, has c i q e → dirty e = true) ∨ bd_blk (ist o) q = bd_blk (dev c) q) →
  cache_ok (with_io c o).
Proof.
  intros [Hops Hdev Hlen Hent Huniq] Ho Hbd Hcap Hq.
  split; simpl; [done..| |].
  - intros i e He. destruct (Hent i e He) as [L R F Rg Cl].
    split; unfold cap, dev in *; simpl in *; rewrite ?Hcap; try done.
    intros Hv Hd. destruct (Hq (pos e) (Rg Hv)) as [Hdirty| ->]; [|auto].
    rewrite (Hdirty i e) in Hd by (by split). done.
  - intros i j q e e' H1 H2. by eapply Huniq.
Qed.

Lemma view_io c o q :
  (∃ i e, has c i q e) ∨ bd_blk (ist o) q = bd_blk (dev c) q →
  cache_view (with_io c o) q = cache_view c q.
Proof.
  intros Hq. unfold cache_view. change (find_entry (with_io c o) q) with (find_entry c q).
  destruct (find_entry c q) as [j|] eqn:Hf; [done|].
  destruct Hq as [(i & e & Hh)|Hq]; [|exact Hq].
  by apply (find_entry_None c q Hf) in Hh.
Qed.

Definition cleaned e : cache_entry :=
  Entry (pos e) (valid e) (refcnt e) (if valid e then false else dirty e) (data e).

Lemma cleaned_id e : valid e = false ∨ dirty e = false → cleaned e = e.
Proof. destruct e as [? v ? d ?]; unfold cleaned; simpl. intros [-> | ->]; by try destruct v. Qed.

Lemma entry_bound c i e : cache_ok c → ents c !! i = Some e → (i < CACHE_NENT)%nat.
Proof. intros Hok He. rewrite <- (co_len c Hok). by eapply lookup_lt_Some. Qed.

Lemma iowriteat_dev c p d :
  cache_ok c → blk_in_range (cap c) p → length d = Z.to_nat CACHE_BLKSZ →
  ∃ o, iowriteat (bkgio c) p d CACHE_BLKSZ = (CACHE_BLKSZ, o) ∧ intf o = ops ∧ bd_ok (ist o) ∧
    bd_cap (ist o) = cap c ∧
    (∀ q, blk_in_range (cap c) q →
          bd_blk (ist o) q = if decide (q = p) then d else bd_blk (dev c) q).
Proof.
  intros Hok Hp Hd. destruct (bd_write (dev c) p d (co_dev c Hok) Hp Hd)
    as (f & s' & Hf & Hr & Hs & Hc & Hb).
  exists (with_ist (bkgio c) s'). unfold iowriteat. rewrite (co_ops c Hok), Hf. simpl.
  fold (dev c). rewrite Hr. split_and!; try done. apply (co_ops c Hok).
Qed.

Lemma ioreadat_dev c p :
  cache_ok c → blk_in_range (cap c) p →
  ∃ o, ioreadat (bkgio c) p CACHE_BLKSZ = (CACHE_BLKSZ, bd_blk (dev c) p, o) ∧ intf o = ops ∧
    bd_ok (ist o) ∧ bd_cap (ist o) = cap c ∧
    (∀ q, blk_in_range (cap c) q → bd_blk (ist o) q = bd_blk (dev c) q).
Proof.
  intros Hok Hp. destruct (bd_read (dev c) p (co_dev c Hok) Hp)
    as (f & s' & Hf & Hr & Hs & Hc & Hb).
  exists (with_ist (bkgio c) s'). unfold ioreadat. rewrite (co_ops c Hok), Hf. simpl.
  fold (dev c). rewrite Hr. split_and!; try done. apply (co_ops c Hok).
Qed.

Lemma writeback_guard c i :
  (if valid (ent c i) then writeback c i else (0, c)) = writeback c i.
Proof. unfold writeback. by destruct (valid (ent c i)). Qed.

(** What the client cannot tell apart. *)
Record same c c' : Prop := {
  sm_ok : cache_ok c';
  sm_cap : cap c' = cap c;
  sm_view q : blk_in_range (cap c) q → cache_view c' q = cache_view c q
}.

Lemma same_refl c : cache_ok c → same c c.
Proof. by split. Qed.

Lemma same_trans c1 c2 c3 : same c1 c2 → same c2 c3 → same c1 c3.
Proof.
  intros [] []. split; [done|congruence|]. intros q Hq.
  rewrite sm_view1, sm_view0; [done|done|by rewrite sm_cap0].
Qed.

(** Writing an entry back succeeds, marks it clean and hides nothing. *)
Lemma writeback_spec c i e :
  cache_ok c → ents c !! i = Some e →
  ∃ c', writeback c i = (0, c') ∧ same c c' ∧ ents c' = <[i := cleaned e]> (ents c).
Proof.
  intros Hok He. pose proof (co_ent c Hok i e He) as [L R F Rg Cl].
  unfold writeback. rewrite (ent_lookup c i e He).
  destruct (valid e) eqn:Hv; simpl.
  2: { exists c. split_and!; [done|by apply same_refl|].
       rewrite list_insert_id; [done|]. by rewrite cleaned_id by auto. }
  destruct (dirty e) eqn:Hd; simpl.
  2: { exists c. split_and!; [done|by apply same_refl|].
       rewrite list_insert_id; [done|]. by rewrite cleaned_id by auto. }
  destruct (iowriteat_dev c (pos e) (data e) Hok (Rg eq_refl) L) as (o & -> & Ho & Hbd & Hcap & Hb).
  rewrite Z.eqb_refl. simpl. eexists. split; [done|].
  assert (has c i (pos e) e) as Hh by done.
  assert (cache_ok (with_io c o)) as Hok1.
  { apply cache_ok_io; try done. intros q Hq. rewrite Hb by done. case_decide; [left|by right].
    subst q. intros j e' Hj. pose proof (co_uniq c Hok _ _ _ _ _ Hh Hj) as <-.
    destruct Hj as (Hj & _). congruence. }
  pose proof (entry_bound c i e Hok He) as Hi.
  assert (cache_ok (with_ent (with_io c o) i (Entry (pos e) true (refcnt e) false (data e)))) as Hok2.
  { apply cache_ok_update; [done|done| |].
    - split; simpl; try done; unfold cap, dev; simpl; [by rewrite Hcap; auto|].
      intros _ _. rewrite Hb, decide_True by auto. done.
    - intros _ j e' Hj. symmetry. by eapply (co_uniq c Hok). }
  split; [|unfold cleaned; by rewrite Hv].
  split; [done|by unfold cap, dev; simpl|].
  intros q Hq. rewrite view_update by done. simpl. case_decide as D.
  - destruct D as [_ <-]. symmetry. by apply (view_hit c i).
  - rewrite decide_False.
    + apply view_io. rewrite Hb by done. rewrite decide_False by naive_solver. by right.
    + unfold ent. simpl. rewrite He. simpl. naive_solver.
Qed.

(** Some entry is not held as long as fewer than CACHE_NENT are. *)
Lemma unpinned_exists c :
  cache_ok c → (size (cache_pins c) < CACHE_NENT)%nat →
  ∃ i e, ents c !! i = Some e ∧ pin_of e = None.
Proof.
  intros Hok Hs. destruct (findi (λ e, bool_decide (pin_of e = None)) (ents c)) as [i|] eqn:Hf.
  - apply findi_Some in Hf as [(e & He & Hb) _]. exists i, e. by apply bool_decide_eq_true in Hb.
  - exfalso. apply (Nat.lt_irrefl CACHE_NENT). eapply Nat.le_lt_trans; [|exact Hs].
    rewrite <- (size_set_seq (C := gset nat) 0 CACHE_NENT), <- size_dom.
    apply subseteq_size. intros i Hi%elem_of_set_seq. apply elem_of_dom.
    rewrite cache_pins_lookup. destruct (lookup_lt_is_Some_2 (ents c) i) as [e He].
    { rewrite (co_len c Hok). lia. }
    rewrite He. simpl. apply (proj1 (findi_None _ _) Hf i e) in He.
    apply bool_decide_eq_false in He. destruct (pin_of e); [by eexists|done].
Qed.

(** The victim is never a held entry. *)
Lemma pick_victim_spec c :
  cache_ok c → (size (cache_pins c) < CACHE_NENT)%nat →
  ∃ i e, pick_victim c = Some i ∧ ents c !! i = Some e ∧ refcnt e = 0.
Proof.
  intros Hok Hs. unfold pick_victim.
  destruct (findi (λ e, negb (valid e)) (ents c)) as [i|] eqn:F1.
  { apply findi_Some in F1 as [(e & He & Hb) _]. exists i, e. kbool.
    split_and!; [done..|]. by apply (eo_free c e (co_ent c Hok i e He)). }
  destruct (findi (λ e, (refcnt e =? 0) && negb (dirty e))%bool (ents c)) as [i|] eqn:F2.
  { apply findi_Some in F2 as [(e & He & Hb) _]. exists i, e. by kbool. }
  destruct (findi (λ e, refcnt e =? 0) (ents c)) as [i|] eqn:F3.
  { apply findi_Some in F3 as [(e & He & Hb) _]. exists i, e. by kbool. }
  exfalso. destruct (unpinned_exists c Hok Hs) as (i & e & He & Hp).
  pose proof (proj1 (findi_None _ _) F1 i e He). pose proof (proj1 (findi_None _ _) F3 i e He).
  pose proof (eo_ref c e (co_ent c Hok i e He)). simpl in *. kbool. unfold pin_of in Hp.
  destruct (valid e); [|done]. simpl in Hp. destruct (0 <? refcnt e) eqn:?; [done|]. kbool. lia.
Qed.

Lemma pins_unheld_size c i e :
  cache_ok c → ents c !! i = Some e → pin_of e = None →
  (size (cache_pins c) < length (ents c))%nat.
Proof.
  intros Hok He Hp. pose proof (entry_bound c i e Hok He).
  rewrite <- size_dom, (co_len c Hok). apply Nat.le_lt_trans with (size (set_seq (C := gset nat) 0 CACHE_NENT ∖ {[i]})).
  - apply subseteq_size. intros j [x Hj]%elem_of_dom. rewrite cache_pins_lookup in Hj.
    apply elem_of_difference. rewrite elem_of_set_seq, elem_of_singleton. split.
    + destruct (ents c !! j) as [e'|] eqn:He'; [|done]. apply (entry_bound c j e' Hok) in He'. lia.
    + intros ->. rewrite He in Hj. simpl in Hj. congruence.
  - rewrite size_difference, size_singleton, size_set_seq; [lia|].
    apply singleton_subseteq_l, elem_of_set_seq. lia.
Qed.

Lemma pin_of_None_free e : refcnt e = 0 → pin_of e = None.
Proof. intros Hr. unfold pin_of. rewrite Hr. by rewrite andb_false_r. Qed.

Lemma pin_of_held e : valid e = true → 0 < refcnt e → pin_of e = Some (pos e, Z.to_nat (refcnt e)).
Proof. intros Hv Hr. unfold pin_of. rewrite Hv, (proj2 (Z.ltb_lt _ _) Hr). done. Qed.

Lemma pin_of_Some e p n :
  pin_of e = Some (p, n) → valid e = true ∧ pos e = p ∧ 0 < refcnt e ∧ n = Z.to_nat (refcnt e).
Proof. unfold pin_of. kcase; [|done]. kbool. naive_solver. Qed.

Lemma get_block_hit c p i :
  cache_ok c → find_entry c p = Some i →
  ∃ c' n, get_block c p = (0, Some i, c') ∧ same c c' ∧
    cache_pins c' = <[i := (p, S n)]> (cache_pins c) ∧
    cache_pins c !! i = (if decide (n = O) then None else Some (p, n)) ∧
    load c' i = cache_view c p.
Proof.
  intros Hok Hf. pose proof (find_entry_Some c p i Hf) as Hh.
  set (e := ent c i) in *. destruct (Hh) as (He & Hv & Hp).
  pose proof (entry_bound c i e Hok He) as Hi. pose proof (co_ent c Hok i e He) as [L R F Rg Cl].
  unfold get_block. assert (p mod CACHE_BLKSZ = 0) as Hal.
  { destruct (Rg Hv) as (_ & Hm & _). by rewrite Hp in Hm. }
  rewrite (proj2 (Z.eqb_eq _ _) Hal). simpl. rewrite Hf. fold e.
  set (e' := Entry (pos e) (valid e) (refcnt e + 1) (dirty e) (data e)).
  assert (cache_ok (with_ent c i e')) as Hok'.
  { apply cache_ok_update; [done|done| |].
    - split; simpl; try done; [lia|]. congruence.
    - intros _ j e2 Hj. simpl in Hj. rewrite Hp in Hj. symmetry. by eapply (co_uniq c Hok). }
  eexists _, (Z.to_nat (refcnt e)). split; [done|]. split_and!.
  - split; [done|done|]. intros q Hq. rewrite view_update by done.
    fold e. simpl. case_decide as D; [|done].
    destruct D as [_ <-]. rewrite Hp. symmetry. by apply (view_hit c i).
  - rewrite pins_update by (rewrite (co_len c Hok); lia).
    rewrite pin_of_held by (simpl; first [done | lia]). simpl. rewrite Hp. do 3 f_equal. lia.
  - rewrite cache_pins_lookup, He. simpl. unfold pin_of. rewrite Hv, Hp. simpl.
    case_decide; destruct (0 <? refcnt e) eqn:?; kbool; try done; lia.
  - unfold load. rewrite (ent_lookup _ i e'); [|by apply list_lookup_insert_eq; rewrite (co_len c Hok)].
    simpl. symmetry. by apply (view_hit c i p e).
Qed.

Lemma get_block_miss c p :
  cache_ok c → blk_in_range (cap c) p → (size (cache_pins c) < CACHE_NENT)%nat →
  find_entry c p = None →
  ∃ i c', get_block c p = (0, Some i, c') ∧ same c c' ∧
    cache_pins c' = <[i := (p, 1%nat)]> (cache_pins c) ∧
    cache_pins c !! i = None ∧ load c' i = cache_view c p.
Proof.
  intros Hok Hp Hs Hf.
  destruct (pick_victim_spec c Hok Hs) as (i & e & Hpick & He & Hr0).
  pose proof (entry_bound c i e Hok He) as Hi. pose proof (co_ent c Hok i e He) as [L R F Rg Cl].
  destruct (writeback_spec c i e Hok He) as (c1 & Hwb & Hsame1 & Hents1).
  pose proof Hsame1 as [Hok1 Hcap1 Hview1].
  destruct (ioreadat_dev c1 p Hok1) as (o & Hrd & Ho & Hbd & Hcap & Hb); [by rewrite Hcap1|].
  assert (∀ j e', ¬ has c1 j p e') as Hno.
  { intros j e'. unfold has. rewrite Hents1. intros (Hj & Hv & Hpos).
    apply list_lookup_insert_Some in Hj as [(<- & <- & _)|[_ Hj]];
      by eapply (find_entry_None c p Hf). }
  assert (ents c1 !! i = Some (cleaned e)) as He1.
  { rewrite Hents1. apply list_lookup_insert_eq. rewrite (co_len c Hok). lia. }
  assert (deposit (bd_blk (dev c1) p) (data (cleaned e)) = bd_blk (dev c1) p) as Hdep.
  { unfold deposit. pose proof (bd_len (dev c1) p (co_dev c1 Hok1)) as Hl.
    rewrite drop_ge, app_nil_r; [done|]. simpl. rewrite Hl, L; [done|].
    unfold cap in Hcap1. by rewrite Hcap1. }
  assert (cache_ok (with_io c1 o)) as Hok2.
  { apply cache_ok_io; try done. intros q Hq. right. by apply Hb. }
  set (e' := Entry p true 1 false (bd_blk (dev c1) p)).
  assert (cache_ok (with_ent (with_io c1 o) i e')) as Hok3.
  { apply cache_ok_update; [done|done| |].
    - split; simpl; try done; unfold cap, dev; simpl.
      + apply bd_len; [apply Hok1|]. unfold cap, dev in *. by rewrite Hcap1.
      + intros _. rewrite Hcap, Hcap1. done.
      + intros _ _. rewrite Hb; [done|]. by rewrite Hcap1.
    - intros _ j e2 Hj. by apply Hno in Hj. }
  exists i, (with_ent (with_io c1 o) i e').
  unfold get_block. destruct Hp as (? & Hal & ?). rewrite (proj2 (Z.eqb_eq _ _) Hal), Hf, Hpick.
  simpl. rewrite writeback_guard, Hwb. simpl. rewrite Hrd, Z.eqb_refl. simpl.
  rewrite (ent_lookup c1 i _ He1), Hdep. split; [done|]. split_and!.
  - eapply same_trans; [exact Hsame1|]. split; [done|by unfold cap, dev in *|].
    intros q Hq. rewrite view_update by done. simpl. unfold ent. simpl. rewrite He1. simpl.
    assert (cache_view (with_io c1 o) q = cache_view c1 q) as <- by (apply view_io; right; by apply Hb).
    case_decide as D.
    + destruct D as [_ <-]. rewrite view_miss by done. simpl. symmetry. apply Hb. done.
    + case_decide as D2; [|done]. destruct D2 as [V P2].
      rewrite (view_hit _ i q (cleaned e) Hok2) by (split; [exact He1|done]). simpl.
      change (dev (with_io c1 o)) with (ist o). rewrite (Hb q Hq), <- P2.
      symmetry. apply (eo_clean c1 (cleaned e)); [by eapply (co_ent c1 Hok1)|done|simpl; by rewrite V].
  - rewrite pins_update by (simpl; rewrite (co_len c1 Hok1); lia). simpl.
    apply map_eq. intros j. destruct (decide (i = j)) as [<-|Hne];
      [by rewrite !lookup_insert_eq|].
    rewrite !lookup_insert_ne by done. rewrite !cache_pins_lookup. simpl.
    by rewrite Hents1, list_lookup_insert_ne by done.
  - rewrite cache_pins_lookup, He. simpl. by apply pin_of_None_free.
  - unfold load. rewrite (ent_lookup _ i e')
      by (apply list_lookup_insert_eq; simpl; rewrite (co_len c1 Hok1); lia).
    simpl. rewrite view_miss by (intros ??; by apply (find_entry_None c p Hf)).
    rewrite <- (view_miss c1 p Hno). rewrite Hview1 by done.
    by rewrite view_miss by (intros ??; by apply (find_entry_None c p Hf)).
Qed.

Lemma get_block_ok c p :
  cache_ok c → blk_in_range (cap c) p → (size (cache_pins c) < CACHE_NENT)%nat →
  ∃ i c' n, get_block c p = (0, Some i, c') ∧ same c c' ∧
    cache_pins c' = <[i := (p, S n)]> (cache_pins c) ∧
    cache_pins c !! i = (if decide (n = O) then None else Some (p, n)) ∧
    load c' i = cache_view c p.
Proof.
  intros Hok Hp Hs. destruct (find_entry c p) as [i|] eqn:Hf.
  - destruct (get_block_hit c p i Hok Hf) as (c' & n & ?). eauto 10.
  - destruct (get_block_miss c p Hok Hp Hs Hf) as (i & c' & ?). exists i, c', O. done.
Qed.

(** Dropping a reference, with the dirty mark set or kept. *)
Definition released e (dy : bool) : cache_entry :=
  Entry (pos e) (valid e) (refcnt e - 1) (if dy then true else dirty e) (data e).

Lemma pins_release c i e (dy : bool) p n :
  cache_ok c → ents c !! i = Some e → pin_of e = Some (p, S n) →
  cache_pins (with_ent c i (released e dy)) =
    if decide (n = O) then delete i (cache_pins c) else <[i := (p, n)]> (cache_pins c).
Proof.
  intros Hok He Hp. apply pin_of_Some in Hp as (Hv & Hpos & Hr & Hn).
  rewrite pins_update by (rewrite (co_len c Hok); by eapply entry_bound).
  case_decide as D.
  - rewrite pin_of_None_free; [done|]. simpl. lia.
  - rewrite pin_of_held by (simpl; first [done|lia]). simpl. rewrite Hpos. do 3 f_equal. lia.
Qed.

Lemma release_entry c i e (dy : Z) :
  ents c !! i = Some e → valid e = true → 0 < refcnt e →
  release_block c (Some i) dy = with_ent c i (released e (dy =? CACHE_DIRTY)).
Proof.
  intros He Hv Hr. unfold release_block. rewrite (ent_lookup c i e He), Hv.
  rewrite (proj2 (Z.ltb_lt _ _) Hr). unfold released. by rewrite Hv.
Qed.

(** Releasing an entry whose data now is [d], marked dirty: block [p] reads
    as [d] from now on and no other block changes. *)
Lemma release_dirty_ok c i p n d :
  cache_ok c → cache_pins c !! i = Some (p, S n) → length d = Z.to_nat CACHE_BLKSZ →
  let c' := release_block (store c i d) (Some i) CACHE_DIRTY in
  cache_ok c' ∧ cap c' = cap c ∧
  (∀ q, blk_in_range (cap c) q → cache_view c' q = if decide (q = p) then d else cache_view c q) ∧
  cache_pins c' = (if decide (n = O) then delete i (cache_pins c) else <[i := (p, n)]> (cache_pins c)).
Proof.
  intros Hok Hpin Hd. rewrite cache_pins_lookup in Hpin.
  destruct (ents c !! i) as [e|] eqn:He; [|done]. simpl in Hpin.
  pose proof (pin_of_Some e p _ Hpin) as (Hv & Hpos & Hr & Hn).
  pose proof (entry_bound c i e Hok He) as Hi. pose proof (co_ent c Hok i e He) as [L R F Rg Cl].
  set (e1 := Entry (pos e) (valid e) (refcnt e) (dirty e) d).
  assert (ents (store c i d) !! i = Some e1) as He1.
  { unfold store. rewrite (ent_lookup c i e He). apply list_lookup_insert_eq.
    rewrite (co_len c Hok). lia. }
  cbv zeta. rewrite (release_entry _ i e1 _ He1) by done. change (CACHE_DIRTY =? CACHE_DIRTY) with true.
  assert (with_ent (store c i d) i (released e1 true) = with_ent c i (released e1 true)) as ->.
  { unfold with_ent, store. simpl. by rewrite list_insert_insert_eq. }
  assert (cache_ok (with_ent c i (released e1 true))) as Hok'.
  { apply cache_ok_update; [done|done| |].
    - split; simpl; try done; [lia|congruence].
    - intros _ j e2 Hj. simpl in Hj. symmetry.
      eapply (co_uniq c Hok _ _ (pos e)); [|exact Hj]. done. }
  split_and!; [done|done| |].
  - intros q Hq. rewrite view_update by done. rewrite (ent_lookup c i e He). simpl.
    rewrite Hv, Hpos. destruct (decide (q = p)) as [-> |Hne].
    + by rewrite decide_True.
    + rewrite decide_False by naive_solver. by rewrite decide_False by naive_solver.
  - assert (cache_pins (with_ent c i (released e1 true)) = cache_pins (with_ent c i (released e true)))
      as ->. { apply map_eq. intros j. rewrite !cache_pins_lookup. simpl.
               destruct (decide (i = j)) as [<-|]; [|by rewrite !list_lookup_insert_ne].
               rewrite !list_lookup_insert_eq by (rewrite (co_len c Hok); lia). done. }
    by apply pins_release.
Qed.

Lemma release_clean_ok c i p n :
  cache_ok c → cache_pins c !! i = Some (p, S n) →
  let c' := release_block c (Some i) CACHE_CLEAN in
  cache_ok c' ∧ cap c' = cap c ∧
  (∀ q, blk_in_range (cap c) q → cache_view c' q = cache_view c q) ∧
  cache_pins c' = (if decide (n = O) then delete i (cache_pins c) else <[i := (p, n)]> (cache_pins c)).
Proof.
  intros Hok Hpin. rewrite cache_pins_lookup in Hpin.
  destruct (ents c !! i) as [e|] eqn:He; [|done]. simpl in Hpin.
  pose proof (pin_of_Some e p _ Hpin) as (Hv & Hpos & Hr & Hn).
  pose proof (entry_bound c i e Hok He) as Hi. pose proof (co_ent c Hok i e He) as [L R F Rg Cl].
  cbv zeta. rewrite (release_entry _ i e _ He) by done. change (CACHE_CLEAN =? CACHE_DIRTY) with false.
  assert (cache_ok (with_ent c i (released e false))) as Hok'.
  { apply cache_ok_update; [done|done| |].
    - split; simpl; try done; [lia|congruence].
    - intros _ j e2 Hj. simpl in Hj. symmetry.
      eapply (co_uniq c Hok _ _ (pos e)); [|exact Hj]. done. }
  split_and!; [done|done| |by apply pins_release].
  intros q Hq. rewrite view_update by done. rewrite (ent_lookup c i e He). simpl.
  case_decide as D; [|done]. destruct D as [_ <-]. symmetry. by apply (view_hit c i).
Qed.

Lemma writeback_pins c c' i e :
  cache_ok c → ents c !! i = Some e → ents c' = <[i := cleaned e]> (ents c) →
  cache_pins c' = cache_pins c.
Proof.
  intros Hok He Hc'. apply map_eq. intros j. rewrite !cache_pins_lookup, Hc'.
  destruct (decide (i = j)) as [<-|]; [|by rewrite list_lookup_insert_ne].
  rewrite list_lookup_insert_eq by (rewrite (co_len c Hok); by eapply entry_bound).
  by rewrite He.
Qed.

(** The flush loop succeeds, keeps the view, and leaves no dirty entry in the
    part of the table it has visited. *)
Lemma flush_from_ok c i n :
  cache_ok c → (i + n = CACHE_NENT)%nat →
  (∀ j e, (j < i)%nat → ents c !! j = Some e → valid e = true → dirty e = false) →
  ∃ c', flush_from c i n = (0, c') ∧ same c c' ∧ cache_pins c' = cache_pins c ∧
    (∀ j e, ents c' !! j = Some e → valid e = true → dirty e = false).
Proof.
  revert c i. induction n as [|n IH]; intros c i Hok Hin Hpre; simpl.
  - exists c. split_and!; [done|by apply same_refl|done|]. intros j e Hj. eapply Hpre; [|done].
    rewrite Nat.add_0_r in Hin. subst i. by eapply entry_bound.
  - destruct (lookup_lt_is_Some_2 (ents c) i) as [e He]; [rewrite (co_len c Hok); lia|].
    destruct (writeback_spec c i e Hok He) as (c1 & -> & Hs & He1). simpl.
    destruct (IH c1 (S i)) as (c2 & -> & Hs2 & Hp2 & Hd2); [apply Hs|lia| |].
    + intros j e' Hj. rewrite He1. intros Hl.
      apply list_lookup_insert_Some in Hl as [(-> & <- & _)|[Hne Hl]].
      * simpl. by intros ->.
      * eapply Hpre; [|done]. lia.
    + exists c2. split_and!; [done|by eapply same_trans| |done].
      rewrite Hp2. by eapply writeback_pins.
Qed.

Lemma flush_ok c :
  cache_ok c →
  ∃ c', flush c = (0, c') ∧ same c c' ∧ cache_pins c' = cache_pins c ∧
    (∀ q, blk_in_range (cap c) q → bd_blk (dev c') q = cache_view c q).
Proof.
  intros Hok. destruct (flush_from_ok c 0 CACHE_NENT Hok eq_refl) as (c' & Hf & Hs & Hp & Hd);
    [intros; lia|].
  exists c'. split_and!; [done..|]. intros q Hq. rewrite <- (sm_view _ _ Hs q Hq).
  destruct Hs as [Hok' Hcap' _]. destruct (has_dec c' q) as [(j & e & Hj)|Hno].
  - rewrite (view_hit c' j q e Hok' Hj). destruct Hj as (Hj & Hv & <-).
    symmetry. apply (eo_clean c' e); [by eapply co_ent|done|by eapply Hd].
  - by rewrite view_miss.
Qed.
End proofs.

#[global] Program Instance cache_block_cache {St} {ops : iointf St} `{!BlockDevice ops} :
  BlockCache (cache St) := {|
  bc_ok := cache_ok (ops := ops);
  bc_cap := cap;
  view := cache_view;
  pins := cache_pins;
  bc_nent := CACHE_NENT
|}.
Next Obligation. intros. unfold CACHE_NENT. lia. Qed.
Next Obligation.
  intros St ops Hbd c p Hok Hp. destruct (has_dec c p) as [(i & e & Hh)|Hno].
  - rewrite (view_hit c i p e Hok Hh). apply (eo_len c e). eapply co_ent; [done|apply Hh].
  - rewrite view_miss by done. apply bd_len; [apply Hok|done].
Qed.
Next Obligation.
  intros St ops Hbd c p Hok Hp Hs. destruct (get_block_ok c p Hok Hp Hs)
    as (i & c' & n & Hg & [] & Hpins & Hpi & Hl). exists i, c', n. done.
Qed.
Next Obligation. intros St ops Hbd c i p n Hok Hp. by apply release_clean_ok. Qed.
Next Obligation. intros St ops Hbd c i p n d Hok Hp Hd. by apply release_dirty_ok. Qed.
Next Obligation.
  intros St ops Hbd c i p n Hok Hp. rewrite cache_pins_lookup in Hp.
  destruct (ents c !! i) as [e|] eqn:He; [|done]. simpl in Hp.
  apply pin_of_Some in Hp as (Hv & <- & _). split.
  - unfold load. simpl. unfold load. rewrite (ent_lookup c i e He). symmetry. by apply (view_hit c i).
  - apply (eo_range c e); [by eapply co_ent|done].
Qed.
Next Obligation.
  intros St ops Hbd c Hok. destruct (flush_ok c Hok) as (c' & Hf & [] & Hp & _). by exists c'.
Qed.

(** ** Client transactions and their trace semantics *)

Section client.
Context {C : Type} `{BlockCache C}.

Inductive cop :=
| CRead (p : Z)
| CWrite (p : Z) (d : list Z)
| CFlush.

(** Get the block, use it through the pointer, release it. *)
Definition run_cop (c : C) (op : cop) : list Z * C :=
  match op with
  | CRead p =>
      match cache_get_block c p with
      | (_, Some i, c) => (blk_load c i, cache_release_block c (Some i) CACHE_CLEAN)
      | (_, None, c) => ([], c)
      end
  | CWrite p d =>
      match cache_get_block c p with
      | (_, Some i, c) => ([], cache_release_block (blk_store c i d) (Some i) CACHE_DIRTY)
      | (_, None, c) => ([], c)
      end
  | CFlush => ([], (cache_flush c).2)
  end.

Fixpoint run_cops (c : C) (l : list cop) : list (list Z) * C :=
  match l with
  | [] => ([], c)
  | op :: l =>
      let '(r, c) := run_cop c op in
      let '(rs, c) := run_cops c l in (r :: rs, c)
  end.

(** The same on a plain array of blocks. *)
Definition spec_cop (m : Z → list Z) (op : cop) : list Z * (Z → list Z) :=
  match op with
  | CRead p => (m p, m)
  | CWrite p d => ([], λ q, if decide (q = p) then d else m q)
  | CFlush => ([], m)
  end.

Fixpoint spec_cops (m : Z → list Z) (l : list cop) : list (list Z) * (Z → list Z) :=
  match l with
  | [] => ([], m)
  | op :: l =>
      let '(r, m) := spec_cop m op in
      let '(rs, m) := spec_cops m l in (r :: rs, m)
  end.

Definition cop_ok (cap : Z) (op : cop) : Prop :=
  match op with
  | CRead p => blk_in_range cap p
  | CWrite p d => blk_in_range cap p ∧ length d = Z.to_nat CACHE_BLKSZ
  | CFlush => True
  end.

Definition agree (c : C) (m : Z → list Z) : Prop :=
  bc_ok c ∧ pins c = ∅ ∧ ∀ q, blk_in_range (bc_cap c) q → view c q = m q.

Lemma run_cop_refines c m op :
  agree c m → cop_ok (bc_cap c) op →
  (run_cop c op).1 = (spec_cop m op).1 ∧ agree (run_cop c op).2 (spec_cop m op).2 ∧
  bc_cap (run_cop c op).2 = bc_cap c.
Proof.
  intros (Hok & Hpin & Hv) Hop.
  assert (size (pins c) < bc_nent)%nat as Hsz.
  { rewrite Hpin, map_size_empty. pose proof bc_nent_pos. lia. }
  destruct op as [p|p d|]; simpl in *.
  - destruct (get_block_spec c p Hok Hop Hsz) as (i & c1 & n & -> & Hok1 & Hcap1 & Hv1 & Hp1 & Hpi & Hl).
    rewrite Hpin, lookup_empty in Hpi. case_decide; [|done]. subst n.
    destruct (release_clean_spec c1 i p O Hok1) as (Hok2 & Hcap2 & Hv2 & Hp2);
      [rewrite Hp1; apply lookup_insert_eq|].
    simpl. split_and!; [rewrite Hl; by apply Hv| |congruence].
    split_and!; [done| |].
    + rewrite Hp2, decide_True, Hp1, Hpin by done. by rewrite delete_insert_eq, delete_empty.
    + intros q Hq. rewrite Hcap2, Hcap1 in Hq. rewrite Hv2, Hv1, Hv; [done..|by rewrite Hcap1].
  - destruct Hop as [Hop Hd].
    destruct (get_block_spec c p Hok Hop Hsz) as (i & c1 & n & -> & Hok1 & Hcap1 & Hv1 & Hp1 & Hpi & Hl).
    rewrite Hpin, lookup_empty in Hpi. case_decide; [|done]. subst n.
    destruct (release_dirty_spec c1 i p O d Hok1) as (Hok2 & Hcap2 & Hv2 & Hp2);
      [rewrite Hp1; apply lookup_insert_eq|done|].
    simpl. split_and!; [done| |congruence]. split_and!; [done| |].
    + rewrite Hp2, decide_True, Hp1, Hpin by done. by rewrite delete_insert_eq, delete_empty.
    + intros q Hq. rewrite Hcap2, Hcap1 in Hq. rewrite Hv2 by (by rewrite Hcap1).
      destruct (decide (q = p)); [done|]. by rewrite Hv1, Hv.
  - destruct (flush_spec c Hok) as (c1 & -> & Hok1 & Hcap1 & Hv1 & Hp1). simpl.
    split_and!; [done| |done]. split_and!; [done|congruence|].
    intros q Hq. rewrite Hcap1 in Hq. by rewrite Hv1, Hv.
Qed.

Lemma run_cops_refines c m l :
  agree c m → Forall (cop_ok (bc_cap c)) l →
  (run_cops c l).1 = (spec_cops m l).1 ∧ agree (run_cops c l).2 (spec_cops m l).2 ∧
  bc_cap (run_cops c l).2 = bc_cap c.
Proof.
  revert c m. induction l as [|op l IH]; intros c m Ha Hl; simpl; [done|].
  inversion Hl as [|? ? Hop Hl']; subst.
  destruct (run_cop_refines c m op Ha Hop) as (Hr & Ha1 & Hc1).
  destruct (run_cop c op) as [r c1], (spec_cop m op) as [r' m1]. simpl in *. subst r'.
  destruct (IH c1 m1 Ha1) as (Hr2 & Ha2 & Hc2); [by rewrite Hc1|].
  destruct (run_cops c1 l) as [rs c2], (spec_cops m1 l) as [rs' m2]. simpl in *.
  split_and!; [by f_equal|done|congruence].
Qed.
End client.

(** A cache as [create_cache] returns it: nothing cached, nothing held. *)
Lemma fresh_agree {St} {ops : iointf St} `{!BlockDevice ops} (o : io St) :
  intf o = ops → bd_ok (ist o) →
  agree (Cache o (replicate CACHE_NENT zero_entry)) (bd_blk (ist o)).
Proof.
  intros Ho Hd. set (c := Cache o (replicate CACHE_NENT zero_entry)).
  assert (∀ i e, ents c !! i = Some e → e = zero_entry) as Hz.
  { intros i e [-> _]%lookup_replicate. done. }
  assert (∀ i p e, ¬ has c i p e) as Hno.
  { intros i p e (He%Hz & Hv & _). by subst e. }
  split_and!.
  - split; [done|done|apply length_replicate| |].
    + intros i e ->%Hz. by split.
    + intros i j p e e' Hh. by apply Hno in Hh.
  - apply map_empty. intros i. change (cache_pins c !! i = None). rewrite cache_pins_lookup.
    destruct (ents c !! i) as [e|] eqn:He; [|done]. apply Hz in He. by subst e.
  - intros q _. change (cache_view c q = bd_blk (dev c) q). apply view_miss; intros; apply Hno.
Qed.

(** C1. The cache is a transparent block store: for every sequence of block
    reads, block writes and flushes issued to a freshly created cache over a
    block device, every read returns exactly what it would return on a plain
    array of blocks (whatever was evicted in between), and after a final
    [cache_flush], which succeeds, the device holds that array. *)
Theorem cache_refines_block_store {St} {ops : iointf St} `{!BlockDevice ops}
    (o : io St) (l : list cop) :
  intf o = ops → bd_ok (ist o) → Forall (cop_ok (bd_cap (ist o))) l →
  ∃ c0 c', create_cache (λ _, true) (Some o) = (0, Some c0, S CACHE_NENT) ∧
    (run_cops c0 l).1 = (spec_cops (bd_blk (ist o)) l).1 ∧
    flush (run_cops c0 l).2 = (0, c') ∧
    (∀ q, blk_in_range (bd_cap (ist o)) q →
          bd_blk (dev c') q = (spec_cops (bd_blk (ist o)) l).2 q).
Proof.
  intros Ho Hd Hl. pose proof (fresh_agree o Ho Hd) as Ha.
  destruct (run_cops_refines _ _ l Ha Hl) as (Hr & (Hok & _ & Hv) & Hc).
  destruct (flush_ok _ Hok) as (c' & Hf & _ & _ & Hdev).
  eexists _, c'. split; [reflexivity|]. split_and!; [done|done|].
  change (cap (run_cops (Cache o (replicate CACHE_NENT zero_entry)) l).2 = bd_cap (ist o)) in Hc.
  intros q Hq. rewrite <- Hc in Hq. rewrite Hdev by done. by apply Hv.
Qed.

(** A held block is never evicted and a full cache says so: while every
    entry is held, a request for a block that is not cached returns -ENOMEM
    and changes nothing; in every state of the invariant with an entry that is
    not held, the victim has no holder. *)
Lemma victim_not_held {St} {ops : iointf St} `{!BlockDevice ops} (c : cache St) (p : Z) :
  cache_ok c → p mod CACHE_BLKSZ = 0 → find_entry c p = None →
  if decide (size (cache_pins c) < CACHE_NENT)%nat
  then ∃ i e, pick_victim c = Some i ∧ ents c !! i = Some e ∧ refcnt e = 0
  else get_block c p = (- ENOMEM, None, c).
Proof.
  intros Hok Hal Hf. case_decide as Hs; [by apply pick_victim_spec|].
  unfold get_block. rewrite Hal, Hf. simpl.
  assert (∀ i e, ents c !! i = Some e → valid e = true ∧ 0 < refcnt e) as Hall.
  { intros i e He. destruct (pin_of e) as [[]|] eqn:Hp; [by apply pin_of_Some in Hp as (? & _ & ? & _)|].
    exfalso. apply Hs. rewrite <- (co_len c Hok). apply pins_unheld_size with i e; try done. }
  assert (∀ f, (∀ e, valid e = true → 0 < refcnt e → f e = false) → findi f (ents c) = None) as Hnone.
  { intros f Hff. apply findi_None. intros i e He. destruct (Hall i e He). auto. }
  assert (pick_victim c = None) as ->; [|done]. unfold pick_victim.
  rewrite !Hnone; [done|..]; intros e Hv ?;
    rewrite ?Hv, ?(proj2 (Z.eqb_neq (refcnt e) 0)) by lia; done.
Qed.

(** ** Witnesses and boundary behaviour *)

Definition demo_io : io memio := ioinit1 (MemIo (replicate 1536 7) 1536) memio_iointf.
Definition demo_ops : list cop :=
  [CRead 0; CWrite 512 (replicate 512 9); CFlush; CRead 512; CRead 1024].

Lemma demo_io_ok : memio_ok (ist demo_io).
Proof. split; [split|]; vm_compute; congruence. Qed.

Lemma demo_ops_ok : Forall (cop_ok (bd_cap (ist demo_io))) demo_ops.
Proof. repeat constructor; try (vm_compute; congruence). Qed.

Lemma cache_refines_block_store_witness :
  ∃ c0 c', create_cache (λ _, true) (Some demo_io) = (0, Some c0, S CACHE_NENT) ∧
    (run_cops c0 demo_ops).1 = (spec_cops (bd_blk (ist demo_io)) demo_ops).1 ∧
    flush (run_cops c0 demo_ops).2 = (0, c') ∧
    (∀ q, blk_in_range (bd_cap (ist demo_io)) q →
          bd_blk (dev c') q = (spec_cops (bd_blk (ist demo_io)) demo_ops).2 q).
Proof.
  apply (cache_refines_block_store demo_io demo_ops);
    [reflexivity | exact demo_io_ok | exact demo_ops_ok].
Defined.

Definition demo_cache : cache memio := Cache demo_io (replicate CACHE_NENT zero_entry).

Lemma demo_cache_ok : cache_ok demo_cache.
Proof. destruct (fresh_agree (ops := memio_iointf) demo_io) as [Hok _]; [done|exact demo_io_ok|exact Hok]. Qed.

Lemma victim_not_held_witness :
  ∃ i e, pick_victim demo_cache = Some i ∧ ents demo_cache !! i = Some e ∧ refcnt e = 0.
Proof.
  exact (victim_not_held demo_cache 512 demo_cache_ok eq_refl eq_refl).
Defined.

(** A backing endpoint that ends before the block reports 0 bytes, and
    [return (int)n] turns that into the success code: no block pointer is
    stored although the caller is told that there is one. *)
Theorem get_block_past_end_succeeds_without_pointer :
  (get_block demo_cache 1536).1 = (0, None).
Proof. vm_compute. reflexivity. Qed.

(** 128 full blocks and a short one. *)
Definition ragged_io : io memio :=
  ioinit1 (MemIo (replicate (128 * 512) 7 ++ replicate 100 1) (128 * 512 + 100)) memio_iointf.

Definition ragged_cache : cache memio :=
  (run_cops (Cache ragged_io (replicate CACHE_NENT zero_entry))
            (map (λ k, CRead (Z.of_nat k * 512)) (seq 0 128))).2.

(** A read that fails after the victim was chosen leaves the victim marked
    valid for its old block with the new bytes in its buffer: block 0 then
    reads as bytes that were never written to it. *)
Theorem failed_read_corrupts_cached_block :
  let '(rc, _, c) := get_block ragged_cache (128 * 512) in
  rc = 100 ∧ (run_cop ragged_cache (CRead 0)).1 = replicate 512 7 ∧
  (run_cop c (CRead 0)).1 = replicate 100 1 ++ replicate 412 7 ∧
  bd_blk (dev c) 0 = replicate 512 7.
Proof. vm_compute. done. Qed.

(** Creating a cache leaks nothing: whatever pattern of allocation
    failures [kcalloc] shows, either all allocations succeed and the cache owns
    the 129 of them, or -ENOMEM is returned and every allocation made was
    freed. *)
Lemma create_cache_no_leak {St} (kcalloc : nat → bool) (o : io St) :
  (∃ c, create_cache kcalloc (Some o) = (0, Some c, S CACHE_NENT) ∧
        (∀ k, (k ≤ CACHE_NENT)%nat → kcalloc k = true)) ∨
  (create_cache kcalloc (Some o) = (- ENOMEM, None, O) ∧
   ∃ k, (k ≤ CACHE_NENT)%nat ∧ kcalloc k = false).
Proof.
  assert (∀ n i, let r := create_entries kcalloc i n in
            (i ≤ r ≤ i + n)%nat ∧ (∀ k, (i < k ≤ r)%nat → kcalloc k = true) ∧
            ((r < i + n)%nat → kcalloc (S r) = false)) as Hce.
  { induction n as [|n IH]; intros i; simpl; [split_and!; intros; lia|].
    destruct (kcalloc (S i)) eqn:Hk; [|split_and!; [lia|lia|intros; lia|done]].
    destruct (IH (S i)) as (Hr & Ht & Hf). split_and!; [lia|lia| |intros; apply Hf; lia].
    intros k Hk'. destruct (decide (k = S i)) as [->|]; [done|]. apply Ht. lia. }
  unfold create_cache. destruct (kcalloc O) eqn:H0.
  2: { right. split; [done|]. exists O. split; [lia|done]. }
  destruct (Hce CACHE_NENT O) as (Hr & Ht & Hf).
  destruct (create_entries kcalloc 0 CACHE_NENT <? CACHE_NENT)%nat eqn:Hlt.
  - apply Nat.ltb_lt in Hlt. right. split; [do 2 f_equal; lia|].
    eexists. split; [|apply Hf]; lia.
  - apply Nat.ltb_ge in Hlt. left. eexists. split; [do 2 f_equal; lia|].
    intros [|k] Hk; [done|]. apply Ht. lia.
Qed.
End Cache.
