(* ===== verification/Ktfs.v ===== *)
(** * KTFS file system driver: the model (kernel/ktfs.c, kernel/ktfs.h)

    The globals of ktfs.c are the record [fs]; every function is a definition
    in the monad [M fs] that follows the C body, early returns included.  The
    block cache is reached through [CacheOps], so the same definitions run on
    the cache of Cache.v over any backing endpoint.  An open file is the index
    of its slot in [g_open_files]; a C string is the list of its bytes before
    the terminating NUL. *)

From S2P Require Import Prelude Config Io Cache.

Module Ktfs.

(** ** On-disk records *)

Definition KTFS_BLKSZ : Z := 512.
Definition KTFS_INOSZ : Z := 32.
Definition KTFS_DENSZ : Z := 16.
Definition KTFS_MAX_FILENAME_LEN : Z := KTFS_DENSZ - 2 - 1.
Definition KTFS_NUM_DIRECT_DATA_BLOCKS : Z := 3.
Definition KTFS_NUM_INDIRECT_BLOCKS : Z := 1.
Definition KTFS_NUM_DINDIRECT_BLOCKS : Z := 2.
Definition KTFS_PTRS_PER_BLOCK : Z := KTFS_BLKSZ / 4.
Definition KTFS_MAX_OPEN : nat := 16.

Record ktfs_superblock := Superblock {
  block_count : Z; bitmap_block_count : Z; inode_block_count : Z; root_directory_inode : Z }.

Record ktfs_inode := Inode {
  size : Z; flags : Z; block : list Z; indirect : Z; dindirect : list Z }.

Record ktfs_dir_entry := DirEntry { de_inode : Z; de_name : list Z }.

(** A [uint32_t] array over the bytes of a block. *)
Definition word (d : list Z) (k : Z) : Z := le_val (slice (4 * k) 4 d).
Definition set_word (d : list Z) (k v : Z) : list Z := splice (4 * k) (le_bytes 4 v) d.

Definition superblock_of_bytes (d : list Z) : ktfs_superblock :=
  Superblock (word d 0) (word d 1) (word d 2) (le_val (slice 12 2 d)).

Definition inode_of_bytes (b : list Z) : ktfs_inode :=
  Inode (word b 0) (word b 1) [word b 2; word b 3; word b 4] (word b 5) [word b 6; word b 7].

Definition bytes_of_inode (ino : ktfs_inode) : list Z :=
  le_bytes 4 (size ino) ++ le_bytes 4 (flags ino)
  ++ le_bytes 4 (getb 0 (block ino) 0) ++ le_bytes 4 (getb 0 (block ino) 1)
  ++ le_bytes 4 (getb 0 (block ino) 2) ++ le_bytes 4 (indirect ino)
  ++ le_bytes 4 (getb 0 (dindirect ino) 0) ++ le_bytes 4 (getb 0 (dindirect ino) 1).

Definition dentry_of_bytes (b : list Z) : ktfs_dir_entry :=
  DirEntry (le_val (slice 0 2 b)) (slice 2 14 b).

Definition bytes_of_dentry (de : ktfs_dir_entry) : list Z :=
  le_bytes 2 (de_inode de) ++ de_name de.

Definition zero_inode : ktfs_inode := Inode 0 0 [0; 0; 0] 0 [0; 0].

Definition with_size (ino : ktfs_inode) (n : Z) : ktfs_inode :=
  Inode n (flags ino) (block ino) (indirect ino) (dindirect ino).
Definition with_block (ino : ktfs_inode) (k v : Z) : ktfs_inode :=
  Inode (size ino) (flags ino) (setb k v (block ino)) (indirect ino) (dindirect ino).
Definition with_indirect (ino : ktfs_inode) (v : Z) : ktfs_inode :=
  Inode (size ino) (flags ino) (block ino) v (dindirect ino).
Definition with_dindirect (ino : ktfs_inode) (k v : Z) : ktfs_inode :=
  Inode (size ino) (flags ino) (block ino) (indirect ino) (setb k v (dindirect ino)).

(** ** Driver state *)

Record ktfs_file := File {
  f_refcnt : Z; inode_idx : Z; f_size : Z; in_use : bool; f_name : list Z }.

Definition closed_file : ktfs_file := File 0 0 0 false (replicate 15 0).

Record fs (C : Type) := Fs {
  g_cache : option C;
  g_block_count : Z;
  g_bitmap_block_count : Z;
  g_inode_block_count : Z;
  g_root_inode_idx : Z;
  g_first_inode_block : Z;
  g_first_data_block : Z;
  g_open_files : list ktfs_file
}.
Arguments Fs {C}.
Arguments g_cache {C}.
Arguments g_block_count {C}.
Arguments g_bitmap_block_count {C}.
Arguments g_inode_block_count {C}.
Arguments g_root_inode_idx {C}.
Arguments g_first_inode_block {C}.
Arguments g_first_data_block {C}.
Arguments g_open_files {C}.

Definition unmounted C : fs C := Fs None 0 0 0 0 0 0 (replicate KTFS_MAX_OPEN closed_file).

Section driver.
Context {C : Type} `{CacheOps C}.
Implicit Types (s : fs C).

Definition with_cache s (c : C) : fs C :=
  Fs (Some c) (g_block_count s) (g_bitmap_block_count s) (g_inode_block_count s)
     (g_root_inode_idx s) (g_first_inode_block s) (g_first_data_block s) (g_open_files s).

Definition with_files s (l : list ktfs_file) : fs C :=
  Fs (g_cache s) (g_block_count s) (g_bitmap_block_count s) (g_inode_block_count s)
     (g_root_inode_idx s) (g_first_inode_block s) (g_first_data_block s) l.

Definition get_file s (slot : nat) : ktfs_file := default closed_file (g_open_files s !! slot).
Definition set_file (slot : nat) (f : ktfs_file) : M (fs C) unit :=
  modify (λ s, with_files s (<[slot := f]> (g_open_files s))).

(** ** Calls into the cache

    Every caller uses the pointer right after a successful call, so a zero
    code without a pointer is a NULL dereference. *)
Definition get_block (p : Z) : M (fs C) nat := λ s,
  match g_cache s with
  | None => (Fail (- EINVAL), s)
  | Some c =>
      let '(rc, q, c) := cache_get_block c p in
      let s := with_cache s c in
      if negb (rc =? 0) then (Fail rc, s)
      else match q with Some i => (Ret i, s) | None => (Panic, s) end
  end.

Definition on_cache {A} (f : C → A * C) : M (fs C) A := λ s,
  match g_cache s with
  | None => (Panic, s)
  | Some c => let '(a, c) := f c in (Ret a, with_cache s c)
  end.

Definition load (i : nat) : M (fs C) (list Z) := on_cache (λ c, (blk_load c i, c)).
Definition store (i : nat) (d : list Z) : M (fs C) unit := on_cache (λ c, (tt, blk_store c i d)).
Definition release (i : nat) (dirty : Z) : M (fs C) unit :=
  on_cache (λ c, (tt, cache_release_block c (Some i) dirty)).

(** ** Inodes and block addressing *)

Definition data_blk_to_pos s (data_blk_idx : Z) : Z :=
  u32 (g_first_data_block s + data_blk_idx) * KTFS_BLKSZ.

Definition inode_pos s (inode_idx : Z) : Z :=
  u32 (g_first_inode_block s + inode_idx / (KTFS_BLKSZ / KTFS_INOSZ)) * KTFS_BLKSZ.
Definition inode_off (inode_idx : Z) : Z :=
  inode_idx mod (KTFS_BLKSZ / KTFS_INOSZ) * KTFS_INOSZ.

Definition read_inode (inode_idx : Z) : M (fs C) ktfs_inode :=
  p ← gets (λ s, inode_pos s inode_idx);
  blk ← get_block p ?! - EIO;
  d ← load blk;
  release blk CACHE_CLEAN;;
  mret (inode_of_bytes (slice (inode_off inode_idx) KTFS_INOSZ d)).

Definition write_inode (inode_idx : Z) (ino : ktfs_inode) : M (fs C) unit :=
  p ← gets (λ s, inode_pos s inode_idx);
  blk ← get_block p ?! - EIO;
  d ← load blk;
  store blk (splice (inode_off inode_idx) (bytes_of_inode ino) d);;
  release blk CACHE_DIRTY.

(** Word [k] of the pointer block [idx] (data-relative). *)
Definition read_ptr (idx k : Z) : M (fs C) Z :=
  p ← gets (λ s, data_blk_to_pos s idx);
  iblk ← get_block p ?! - EIO;
  d ← load iblk;
  release iblk CACHE_CLEAN;;
  mret (word d k).

Definition resolve_block (ino : ktfs_inode) (logical_blk : Z) : M (fs C) Z :=
  if logical_blk <? KTFS_NUM_DIRECT_DATA_BLOCKS then mret (getb 0 (block ino) logical_blk)
  else
    let logical_blk := logical_blk - KTFS_NUM_DIRECT_DATA_BLOCKS in
    if logical_blk <? KTFS_PTRS_PER_BLOCK then read_ptr (indirect ino) logical_blk
    else
      let logical_blk := logical_blk - KTFS_PTRS_PER_BLOCK in
      let per_indirect := KTFS_PTRS_PER_BLOCK in
      let per_dind := per_indirect * KTFS_PTRS_PER_BLOCK in
      if per_dind * KTFS_NUM_DINDIRECT_BLOCKS <=? logical_blk then fail (- EINVAL)
      else
        let which_dind := logical_blk / per_dind in
        let into_dind := logical_blk mod per_dind in
        let which_ind := into_dind / per_indirect in
        let into_ind := into_dind mod per_indirect in
        indirect_blk ← read_ptr (getb 0 (dindirect ino) which_dind) which_ind;
        read_ptr indirect_blk into_ind.

Definition data_block_for_offset (ino : ktfs_inode) (byte_off : Z) : M (fs C) Z :=
  resolve_block ino (u32 (byte_off / KTFS_BLKSZ)).

(** ** Allocation bitmap *)

Inductive scan := ScanNone | ScanFull | ScanHit (k : Z).

(** Bits [bit], ..., 7 of byte value [v]; [base] is the number of the block
    that bit 0 covers. *)
Fixpoint scan_bits (first total v base bit : Z) (n : nat) : scan :=
  match n with
  | O => ScanNone
  | S n =>
      if negb (Z.land v (Z.shiftl 1 bit) =? 0) then scan_bits first total v base (bit + 1) n
      else
        let blk_num := u32 (base + bit) in
        if blk_num <? first then scan_bits first total v base (bit + 1) n
        else if total <=? blk_num then ScanFull
        else ScanHit (base + bit)
  end.

(** Bytes [byte], ... of a bitmap block; [base] is the block of its bit 0. *)
Fixpoint scan_bytes (first total : Z) (bytes : list Z) (base byte : Z) : scan :=
  match bytes with
  | [] => ScanNone
  | v :: bytes =>
      if v =? 0xFF then scan_bytes first total bytes base (byte + 1)
      else match scan_bits first total v (base + byte * 8) 0 8 with
           | ScanNone => scan_bytes first total bytes base (byte + 1)
           | r => r
           end
  end.

Fixpoint alloc_scan (bmp_blk : Z) (n : nat) : M (fs C) Z :=
  match n with
  | O => fail (- ENOMEM)
  | S n =>
      bmp ← get_block (u32 (1 + bmp_blk) * KTFS_BLKSZ) ?! - EIO;
      bytes ← load bmp;
      s ← gets id;
      let base := bmp_blk * KTFS_BLKSZ * 8 in
      match scan_bytes (g_first_data_block s) (g_block_count s) bytes base 0 with
      | ScanFull => release bmp CACHE_CLEAN;; fail (- ENOMEM)
      | ScanNone => release bmp CACHE_CLEAN;; alloc_scan (bmp_blk + 1) n
      | ScanHit k =>
          let byte := (k - base) / 8 in
          let bit := (k - base) mod 8 in
          store bmp (setb byte (Z.lor (getb 0 bytes byte) (Z.shiftl 1 bit)) bytes);;
          release bmp CACHE_DIRTY;;
          let blk_num := u32 k in
          dblk ← get_block (blk_num * KTFS_BLKSZ) ?! - EIO;
          store dblk (replicate (Z.to_nat KTFS_BLKSZ) 0);;
          release dblk CACHE_DIRTY;;
          mret (u32 (blk_num - g_first_data_block s))
      end
  end.

Definition alloc_data_block : M (fs C) Z :=
  n ← gets g_bitmap_block_count;
  alloc_scan 0 (Z.to_nat n).

Definition free_data_block (data_blk_idx : Z) : M (fs C) unit :=
  s ← gets id;
  let blk_num := u32 (g_first_data_block s + data_blk_idx) in
  let byte := blk_num / 8 mod KTFS_BLKSZ in
  let bmp_blk := blk_num / 8 / KTFS_BLKSZ in
  let bit := blk_num mod 8 in
  if g_bitmap_block_count s <=? bmp_blk then fail (- EINVAL)
  else
    bmp ← get_block (u32 (1 + bmp_blk) * KTFS_BLKSZ) ?! - EIO;
    bytes ← load bmp;
    store bmp (setb byte (Z.land (getb 0 bytes byte) (u8 (Z.lnot (Z.shiftl 1 bit)))) bytes);;
    release bmp CACHE_DIRTY.

(** Look up, and allocate when [alloc], block [logical_blk] of [ino]; the
    inode is returned as the call leaves it. *)
Definition alloc_ptr (alloc : bool) : M (fs C) Z :=
  if alloc then alloc_data_block else fail (- EINVAL).

(** The shared tail of the indirect and doubly-indirect cases: entry [k] of
    the pointer block [idx]. *)
Definition resolve_leaf (idx k : Z) (alloc : bool) : M (fs C) Z :=
  p ← gets (λ s, data_blk_to_pos s idx);
  iblk ← get_block p ?! - EIO;
  d ← load iblk;
  if negb (word d k =? 0) then release iblk CACHE_CLEAN;; mret (word d k)
  else if negb alloc then release iblk CACHE_CLEAN;; fail (- EINVAL)
  else λ s,
    match alloc_data_block s with
    | (Ret new_blk, s) =>
        (d ← load iblk;
         store iblk (set_word d k new_blk);;
         release iblk CACHE_DIRTY;;
         mret new_blk) s
    | (Fail rc, s) => (release iblk CACHE_CLEAN;; fail rc) s
    | r => r
    end.

Definition resolve_or_alloc (ino : ktfs_inode) (logical_blk : Z) (alloc : bool)
  : M (fs C) (ktfs_inode * Z) :=
  let allocated_blocks := u32 (size ino + KTFS_BLKSZ - 1) / KTFS_BLKSZ in
  if logical_blk <? KTFS_NUM_DIRECT_DATA_BLOCKS then
    if logical_blk <? allocated_blocks then mret (ino, getb 0 (block ino) logical_blk)
    else if negb alloc then fail (- EINVAL)
    else
      new_blk ← alloc_data_block;
      let ino := with_block ino logical_blk new_blk in
      let top := (logical_blk + 1) * KTFS_BLKSZ in
      mret (if size ino <? top then with_size ino top else ino, new_blk)
  else
    let logical_blk := logical_blk - KTFS_NUM_DIRECT_DATA_BLOCKS in
    if logical_blk <? KTFS_PTRS_PER_BLOCK then
      ino ← (if indirect ino =? 0
             then new_blk ← alloc_ptr alloc; mret (with_indirect ino new_blk)
             else mret ino);
      v ← resolve_leaf (indirect ino) logical_blk alloc;
      mret (ino, v)
    else
      let logical_blk := logical_blk - KTFS_PTRS_PER_BLOCK in
      let per_dind := KTFS_PTRS_PER_BLOCK * KTFS_PTRS_PER_BLOCK in
      if per_dind * KTFS_NUM_DINDIRECT_BLOCKS <=? logical_blk then fail (- EINVAL)
      else
        let which_dind := logical_blk / per_dind in
        let into_dind := logical_blk mod per_dind in
        let which_ind := into_dind / KTFS_PTRS_PER_BLOCK in
        let into_ind := into_dind mod KTFS_PTRS_PER_BLOCK in
        ino ← (if getb 0 (dindirect ino) which_dind =? 0
               then new_blk ← alloc_ptr alloc; mret (with_dindirect ino which_dind new_blk)
               else mret ino);
        _ ← resolve_leaf (getb 0 (dindirect ino) which_dind) which_ind alloc;
        ind_blk ← read_ptr (getb 0 (dindirect ino) which_dind) which_ind;
        v ← resolve_leaf ind_blk into_ind alloc;
        mret (ino, v).

(** ** Directory lookup *)

(** The name comparison loop: equal up to and including the NUL. *)
Fixpoint name_match (a b : list Z) (n : nat) : bool :=
  match n with
  | O => true
  | S n =>
      let ca := default 0 (head a) in
      let cb := default 0 (head b) in
      if negb (ca =? cb) then false
      else if ca =? 0 then true
      else name_match (tail a) (tail b) n
  end.

Fixpoint find_dentry_from (name : list Z) (root : ktfs_inode) (d : Z) (n : nat) : M (fs C) Z :=
  match n with
  | O => fail (- ENOENT)
  | S n =>
      let byte_off := d * KTFS_DENSZ in
      blk ← resolve_block root (u32 (byte_off / KTFS_BLKSZ)) ?! - EIO;
      p ← gets (λ s, data_blk_to_pos s blk);
      dblk ← get_block p ?! - EIO;
      b ← load dblk;
      let de := dentry_of_bytes (slice (byte_off mod KTFS_BLKSZ) KTFS_DENSZ b) in
      if name_match (de_name de) name (Z.to_nat (KTFS_MAX_FILENAME_LEN + 1)) then
        release dblk CACHE_CLEAN;; mret (de_inode de)
      else release dblk CACHE_CLEAN;; find_dentry_from name root (d + 1) n
  end.

Definition find_dentry (name : list Z) : M (fs C) Z :=
  r ← gets g_root_inode_idx;
  root ← read_inode r;
  find_dentry_from name root 0 (Z.to_nat (size root / KTFS_DENSZ)).

(** ** Mount, open, close, read, flush *)

(** [c] is the cache [create_cache] made over the endpoint. *)
Definition ktfs_mount (io : bool) (created : option C) : M (fs C) unit :=
  if negb io then fail (- EINVAL)
  else
    match created with
    | None => fail (- EIO)
    | Some c =>
        modify (λ s, with_cache s c);;
        sb_blk ← get_block 0 ?! - EIO;
        d ← load sb_blk;
        let sb := superblock_of_bytes d in
        modify (λ s,
          let first_inode := u32 (1 + bitmap_block_count sb) in
          Fs (g_cache s) (block_count sb) (bitmap_block_count sb) (inode_block_count sb)
             (root_directory_inode sb) first_inode (u32 (first_inode + inode_block_count sb))
             (g_open_files s));;
        release sb_blk CACHE_CLEAN;;
        modify (λ s, with_files s
          ((λ f, File (f_refcnt f) (inode_idx f) (f_size f) false (f_name f)) <$> g_open_files s))
    end.

(** [name] and the result pointer may be NULL. *)
Definition ktfs_open (name : option (list Z)) (ioptr : bool) : M (fs C) nat :=
  match name with
  | None => fail (- EINVAL)
  | Some name =>
      if negb ioptr then fail (- EINVAL)
      else
        mounted ← gets (λ s, bool_decide (is_Some (g_cache s)));
        if negb mounted then fail (- EIO)
        else
          inode_idx ← find_dentry name;
          files ← gets g_open_files;
          match findi (λ f, negb (in_use f)) files with
          | None => fail (- ENOMEM)
          | Some slot =>
              ino ← read_inode inode_idx;
              f ← gets (λ s, get_file s slot);
              let stash := take (Z.to_nat KTFS_MAX_FILENAME_LEN) name ++ [0] in
              set_file slot (File 1 inode_idx (size ino) true (splice 0 stash (f_name f)));;
              mret slot
          end
  end.

Definition ktfs_close (slot : nat) : M (fs C) unit :=
  f ← gets (λ s, get_file s slot);
  set_file slot (File (f_refcnt f) (inode_idx f) (f_size f) false (f_name f)).

(** The bytes copied so far are [out]; their number is [copied]. *)
Fixpoint readat_loop (fuel : nat) (ino : ktfs_inode) (pos len : Z) (out : list Z)
  : M (fs C) (list Z) :=
  match fuel with
  | O => λ s, (NoFuel, s)
  | S fuel =>
      let copied := Z.of_nat (length out) in
      if copied <? len then
        let byte_off := u64 (pos + copied) in
        data_blk ← data_block_for_offset ino byte_off;
        blk_pos ← gets (λ s, data_blk_to_pos s data_blk);
        let blk_off := byte_off mod KTFS_BLKSZ in
        let chunk := KTFS_BLKSZ - blk_off in
        let chunk := if len - copied <? chunk then len - copied else chunk in
        blk ← get_block blk_pos ?! - EIO;
        d ← load blk;
        release blk CACHE_CLEAN;;
        readat_loop fuel ino pos len (out ++ slice blk_off chunk d)
      else mret out
  end.

Definition ktfs_readat (slot : nat) (pos len : Z) : M (fs C) (list Z) :=
  f ← gets (λ s, get_file s slot);
  if len <=? 0 then mret []
  else if f_size f <=? pos then mret []
  else
    let avail := f_size f - pos in
    let len := if avail <? len then avail else len in
    ino ← read_inode (inode_idx f) ?! - EIO;
    readat_loop (3 + Z.to_nat (len / KTFS_BLKSZ)) ino pos len [].

Definition ktfs_flush : M (fs C) unit := λ s,
  match g_cache s with
  | None => (Fail (- EIO), s)
  | Some c =>
      let '(rc, c) := cache_flush c in
      (if rc =? 0 then Ret tt else Fail rc, with_cache s c)
  end.

(** [cache_flush(g_cache);] with the result ignored. *)
Definition flush_ignored : M (fs C) unit := _ ← attempt ktfs_flush; mret tt.

(** ** Truncate and extend *)

Fixpoint free_range (ino : ktfs_inode) (lb : Z) (n : nat) : M (fs C) unit :=
  match n with
  | O => mret tt
  | S n =>
      r ← attempt (resolve_or_alloc ino lb false);
      (match r with
       | Some (_, blk) => _ ← attempt (free_data_block blk); mret tt
       | None => mret tt
       end);;
      free_range ino (lb + 1) n
  end.

Definition zero_tail (ino : ktfs_inode) (new_size new_last_blk : Z) : M (fs C) unit :=
  r ← attempt (resolve_or_alloc ino (new_last_blk - 1) false);
  match r with
  | None => mret tt
  | Some (_, blk) =>
      p ← gets (λ s, data_blk_to_pos s blk);
      b ← attempt (get_block p);
      match b with
      | None => mret tt
      | Some b =>
          d ← load b;
          let off := new_size mod KTFS_BLKSZ in
          store b (splice off (replicate (Z.to_nat (KTFS_BLKSZ - off)) 0) d);;
          release b CACHE_DIRTY
      end
  end.

Definition ktfs_setend (slot : nat) (new_size : Z) : M (fs C) unit :=
  if 0xFFFFFFFF <? new_size then fail (- EINVAL)
  else
    f ← gets (λ s, get_file s slot);
    ino ← read_inode (inode_idx f) ?! - EIO;
    (if new_size <? size ino then
       let old_last_blk := u32 ((size ino + KTFS_BLKSZ - 1) / KTFS_BLKSZ) in
       let new_last_blk := u32 ((new_size + KTFS_BLKSZ - 1) / KTFS_BLKSZ) in
       (if (negb (new_size mod KTFS_BLKSZ =? 0) && (0 <? new_last_blk))%bool
        then zero_tail ino new_size new_last_blk else mret tt);;
       free_range ino new_last_blk (Z.to_nat (old_last_blk - new_last_blk))
     else mret tt);;
    write_inode (inode_idx f) (with_size ino (u32 new_size)) ?! - EIO;;
    f ← gets (λ s, get_file s slot);
    set_file slot (File (f_refcnt f) (inode_idx f) (u32 new_size) (in_use f) (f_name f));;
    flush_ignored.

(** The result and the value stored through [arg]. *)
Definition ktfs_cntl (slot : nat) (cmd : Z) (arg : option Z) : M (fs C) (Z * option Z) :=
  if cmd =? IOCTL_GETBLKSZ then mret (1, arg)
  else if cmd =? IOCTL_GETEND then
    match arg with
    | None => fail (- EINVAL)
    | Some _ => f ← gets (λ s, get_file s slot); mret (0, Some (f_size f))
    end
  else if cmd =? IOCTL_SETEND then
    match arg with
    | None => fail (- EINVAL)
    | Some new_size => ktfs_setend slot new_size;; mret (0, arg)
    end
  else fail (- ENOTSUP).

(** ** Write *)

Fixpoint writeat_loop (fuel : nat) (ino : ktfs_inode) (pos : Z) (buf : list Z) (len copied : Z)
  : M (fs C) (ktfs_inode * Z) :=
  match fuel with
  | O => λ s, (NoFuel, s)
  | S fuel =>
      if copied <? len then
        let byte_off := u64 (pos + copied) in
        let logical := u32 (byte_off / KTFS_BLKSZ) in
        r ← resolve_or_alloc ino logical true;
        let '(ino, data_blk) := (r : ktfs_inode * Z) in
        blk_pos ← gets (λ s, data_blk_to_pos s data_blk);
        let blk_off := byte_off mod KTFS_BLKSZ in
        let chunk := KTFS_BLKSZ - blk_off in
        let chunk := if len - copied <? chunk then len - copied else chunk in
        blk ← get_block blk_pos ?! - EIO;
        d ← load blk;
        store blk (splice blk_off (slice copied chunk buf) d);;
        release blk CACHE_DIRTY;;
        writeat_loop fuel ino pos buf len (copied + chunk)
      else mret (ino, copied)
  end.

Definition ktfs_writeat (slot : nat) (pos : Z) (buf : list Z) (len : Z) : M (fs C) Z :=
  f ← gets (λ s, get_file s slot);
  if len <=? 0 then mret 0
  else
    mounted ← gets (λ s, bool_decide (is_Some (g_cache s)));
    if negb mounted then fail (- EIO)
    else
      ino ← read_inode (inode_idx f) ?! - EIO;
      r ← writeat_loop (3 + Z.to_nat (len / KTFS_BLKSZ)) ino pos buf len 0;
      let '(ino, copied) := (r : ktfs_inode * Z) in
      let new_size := u64 (pos + copied) in
      ino ← (if size ino <? new_size then
               let ino := with_size ino (u32 new_size) in
               f ← gets (λ s, get_file s slot);
               set_file slot (File (f_refcnt f) (inode_idx f) (size ino) (in_use f) (f_name f));;
               mret ino
             else mret ino);
      write_inode (inode_idx f) ino ?! - EIO;;
      flush_ignored;;
      mret copied.

(** ** Create and delete *)

Definition all_zero (b : list Z) : bool := forallb (λ x, x =? 0) b.

(** Slots [i], ... of inode block [blk]. *)
Fixpoint scan_inodes (root blk : Z) (d : list Z) (i : Z) (n : nat) : option Z :=
  match n with
  | O => None
  | S n =>
      let inode_idx := u16 (blk * (KTFS_BLKSZ / KTFS_INOSZ) + i) in
      if inode_idx =? root then scan_inodes root blk d (i + 1) n
      else if all_zero (slice (i * KTFS_INOSZ) KTFS_INOSZ d) then Some inode_idx
      else scan_inodes root blk d (i + 1) n
  end.

Fixpoint find_free_inode_from (blk : Z) (n : nat) : M (fs C) Z :=
  match n with
  | O => fail (- ENOMEM)
  | S n =>
      s ← gets id;
      b ← get_block (u32 (g_first_inode_block s + blk) * KTFS_BLKSZ) ?! - EIO;
      d ← load b;
      release b CACHE_CLEAN;;
      match scan_inodes (g_root_inode_idx s) blk d 0 (Z.to_nat (KTFS_BLKSZ / KTFS_INOSZ)) with
      | Some idx => mret idx
      | None => find_free_inode_from (blk + 1) n
      end
  end.

Definition find_free_inode : M (fs C) Z :=
  n ← gets g_inode_block_count;
  find_free_inode_from 0 (Z.to_nat n).

Definition ktfs_create (name : option (list Z)) : M (fs C) unit :=
  mounted ← gets (λ s, bool_decide (is_Some (g_cache s)));
  match name with
  | None => fail (- EINVAL)
  | Some name =>
      let nlen := Z.of_nat (length name) in
      if negb mounted then fail (- EINVAL)
      else if ((nlen =? 0) || (KTFS_MAX_FILENAME_LEN <? nlen))%bool then fail (- EINVAL)
      else
        dup ← attempt (find_dentry name);
        match dup with
        | Some _ => fail (- EINVAL)
        | None =>
            new_inode ← find_free_inode;
            write_inode new_inode zero_inode ?! - EIO;;
            r ← gets g_root_inode_idx;
            root ← read_inode r ?! - EIO;
            let dent_no := size root / KTFS_DENSZ in
            let logical := u32 (dent_no * KTFS_DENSZ) / KTFS_BLKSZ in
            let blk_off := u32 (dent_no * KTFS_DENSZ) mod KTFS_BLKSZ in
            x ← resolve_or_alloc root logical true;
            let '(root, data_blk) := (x : ktfs_inode * Z) in
            p ← gets (λ s, data_blk_to_pos s data_blk);
            dblk ← get_block p ?! - EIO;
            d ← load dblk;
            let padded := name ++ replicate (14 - length name) 0 in
            store dblk (splice blk_off (bytes_of_dentry (DirEntry new_inode padded)) d);;
            release dblk CACHE_DIRTY;;
            write_inode r (with_size root (u32 (size root + KTFS_DENSZ))) ?! - EIO;;
            flush_ignored
        end
  end.

Definition free_if_used (b : Z) : M (fs C) unit :=
  if negb (b =? 0) then _ ← attempt (free_data_block b); mret tt else mret tt.

Fixpoint free_list (l : list Z) : M (fs C) unit :=
  match l with
  | [] => mret tt
  | b :: l => free_if_used b;; free_list l
  end.

(** The pointers are read through the cached block while the bitmap changes. *)
Fixpoint free_ptrs (iblk : nat) (k : Z) (n : nat) : M (fs C) unit :=
  match n with
  | O => mret tt
  | S n =>
      d ← load iblk;
      free_if_used (word d k);;
      free_ptrs iblk (k + 1) n
  end.

(** The dentry slot that names inode [target]; [total] when there is none. *)
Fixpoint find_slot (root : ktfs_inode) (target i total : Z) (n : nat) : M (fs C) Z :=
  match n with
  | O => mret total
  | S n =>
      let off := i * KTFS_DENSZ in
      r ← attempt (resolve_or_alloc root (u32 (off / KTFS_BLKSZ)) false);
      match r with
      | None => find_slot root target (i + 1) total n
      | Some (_, blk) =>
          p ← gets (λ s, data_blk_to_pos s blk);
          b ← attempt (get_block p);
          match b with
          | None => find_slot root target (i + 1) total n
          | Some d =>
              bytes ← load d;
              let de := dentry_of_bytes (slice (off mod KTFS_BLKSZ) KTFS_DENSZ bytes) in
              release d CACHE_CLEAN;;
              if de_inode de =? target then mret i
              else find_slot root target (i + 1) total n
          end
      end
  end.

(** The block that holds dentry slot [i] of the root directory. *)
Definition dentry_block (root : ktfs_inode) (i : Z) : M (fs C) nat :=
  r ← resolve_or_alloc root (u32 (i * KTFS_DENSZ / KTFS_BLKSZ)) false ?! - EIO;
  p ← gets (λ s, data_blk_to_pos s r.2);
  get_block p ?! - EIO.

Definition move_last_dentry (root : ktfs_inode) (found_idx total : Z) : M (fs C) unit :=
  d ← dentry_block root (total - 1);
  b ← load d;
  let last := slice ((total - 1) * KTFS_DENSZ mod KTFS_BLKSZ) KTFS_DENSZ b in
  release d CACHE_CLEAN;;
  fd ← dentry_block root found_idx;
  b ← load fd;
  store fd (splice (found_idx * KTFS_DENSZ mod KTFS_BLKSZ) last b);;
  release fd CACHE_DIRTY.

Definition ktfs_delete (name : option (list Z)) : M (fs C) unit :=
  mounted ← gets (λ s, bool_decide (is_Some (g_cache s)));
  match name with
  | None => fail (- EINVAL)
  | Some name =>
      if negb mounted then fail (- EINVAL)
      else
        target_inode ← find_dentry name;
        ino ← read_inode target_inode ?! - EIO;
        free_list (block ino);;
        (if negb (indirect ino =? 0) then
           p ← gets (λ s, data_blk_to_pos s (indirect ino));
           b ← attempt (get_block p);
           (match b with
            | None => mret tt
            | Some iblk =>
                free_ptrs iblk 0 (Z.to_nat KTFS_PTRS_PER_BLOCK);;
                release iblk CACHE_CLEAN
            end);;
           _ ← attempt (free_data_block (indirect ino)); mret tt
         else mret tt);;
        write_inode target_inode zero_inode ?! - EIO;;
        r ← gets g_root_inode_idx;
        root ← read_inode r ?! - EIO;
        let total := size root / KTFS_DENSZ in
        found_idx ← find_slot root target_inode 0 total (Z.to_nat total);
        if found_idx =? total then fail (- ENOENT)
        else
          (if negb (found_idx =? total - 1) then move_last_dentry root found_idx total else mret tt);;
          write_inode r (with_size root (u32 (size root - KTFS_DENSZ))) ?! - EIO;;
          flush_ignored
  end.
End driver.
End Ktfs.
