(* ===== verification/KtfsProofs.v ===== *)
(** * KTFS: what the driver does to the block store

    Every lemma and theorem here is proved against the interface [BlockCache],
    so it holds for the cache of Cache.v over every block device.  The
    assertion [st g V P s] says that the driver state [s] has the globals of
    [g], that its cache shows block [p] as [V p], and that [P] are the block
    pointers held. *)

From S2P Require Import Prelude Config Io Cache Ktfs.
Import Ktfs.

(** ** Geometry and the assertion on states *)

Section proofs.
Context {C : Type} `{BlockCache C}.
Context (cap : Z).
Implicit Types (g s : fs C) (V : Z → list Z) (P : gmap nat (Z * nat)).

Definition st g V P s : Prop :=
  ∃ c, s = with_cache g c ∧ bc_ok c ∧ bc_cap c = cap ∧ pins c = P ∧
       ∀ q, blk_in_range cap q → view c q = V q.

Definition upd V (p : Z) (d : list Z) : Z → list Z := λ q, if decide (q = p) then d else V q.

(** [P1] is [P] with one more reference, through entry [i], to block [p]. *)
Definition held P (i : nat) (p : Z) P1 : Prop :=
  ∃ n, P1 = <[i := (p, S n)]> P ∧ P !! i = (if decide (n = O) then None else Some (p, n)).

Lemma held_restore P i p n :
  P !! i = (if decide (n = O) then None else Some (p, n)) →
  (if decide (n = O) then delete i (<[i := (p, S n)]> P)
   else <[i := (p, n)]> (<[i := (p, S n)]> P)) = P.
Proof.
  intros E. case_decide.
  - by rewrite delete_insert_id.
  - rewrite insert_insert_eq. by apply insert_id.
Qed.

Lemma held_size P i p P1 :
  held P i p P1 → (base.size P1 ≤ S (base.size P))%nat.
Proof.
  intros (n & -> & E). case_decide.
  - rewrite map_size_insert_None by done. lia.
  - rewrite map_size_insert_Some by eauto. lia.
Qed.

Lemma st_get g V P s p :
  st g V P s → blk_in_range cap p → (base.size P < 3)%nat →
  ∃ i P1 s', get_block p s = (Ret i, s') ∧ st g V P1 s' ∧ held P i p P1.
Proof.
  intros (c & -> & Hok & Hcap & HP & HV) Hp Hs. pose proof bc_nent_pos.
  destruct (get_block_spec c p Hok) as (i & c' & n & Hg & Hok' & Hcap' & Hv & HP' & Hi & _);
    [by rewrite Hcap|subst P; lia|].
  exists i, (pins c'), (with_cache g c'). split_and!.
  - unfold get_block. simpl. by rewrite Hg.
  - exists c'. split_and!; try done; [congruence|]. intros q Hq. rewrite Hv, HV; [done..|by rewrite Hcap].
  - exists n. subst P. done.
Qed.

Lemma st_load g V P P1 s i p :
  st g V P1 s → held P i p P1 → load i s = (Ret (V p), s) ∧ blk_in_range cap p.
Proof.
  intros (c & -> & Hok & Hcap & HP & HV) (n & -> & _).
  destruct (blk_load_spec c i p (S n) Hok) as [Hl Hr]; [rewrite HP; apply lookup_insert_eq|].
  rewrite Hcap in Hr. split; [|done]. unfold load, on_cache. simpl. by rewrite Hl, HV.
Qed.

Lemma st_release g V P P1 s i p :
  st g V P1 s → held P i p P1 → ∃ s', release i CACHE_CLEAN s = (Ret tt, s') ∧ st g V P s'.
Proof.
  intros (c & -> & Hok & Hcap & HP & HV) (n & -> & Hi).
  destruct (release_clean_spec c i p n Hok) as (Hok' & Hcap' & Hv & HP');
    [rewrite HP; apply lookup_insert_eq|].
  eexists. split; [unfold release, on_cache; simpl; done|].
  eexists. split_and!; [done|done|congruence| |].
  - rewrite HP', HP. by apply held_restore.
  - intros q Hq. rewrite Hv, HV; [done..|by rewrite Hcap].
Qed.

(** Storing through the pointer and releasing it dirty. *)
Lemma st_put g V P P1 s i p d :
  st g V P1 s → held P i p P1 → length d = Z.to_nat CACHE_BLKSZ →
  ∃ s1 s', store i d s = (Ret tt, s1) ∧ release i CACHE_DIRTY s1 = (Ret tt, s') ∧
           st g (upd V p d) P s'.
Proof.
  intros (c & -> & Hok & Hcap & HP & HV) (n & -> & Hi) Hd.
  destruct (release_dirty_spec c i p n d Hok) as (Hok' & Hcap' & Hv & HP');
    [rewrite HP; apply lookup_insert_eq|done|].
  do 2 eexists. split; [unfold store, on_cache; simpl; done|].
  split; [unfold release, on_cache; simpl; done|].
  eexists. split_and!; [done|done|congruence| |].
  - rewrite HP', HP. by apply held_restore.
  - intros q Hq. rewrite Hv by (by rewrite Hcap). unfold upd. destruct (decide (q = p)); auto.
Qed.

Lemma st_flush g V P s : st g V P s → ∃ s', ktfs_flush s = (Ret tt, s') ∧ st g V P s'.
Proof.
  intros (c & -> & Hok & Hcap & HP & HV).
  destruct (flush_spec c Hok) as (c' & Hf & Hok' & Hcap' & Hv & HP').
  exists (with_cache g c'). split; [unfold ktfs_flush; simpl; by rewrite Hf|].
  exists c'. split_and!; try done; [congruence..|]. intros q Hq. rewrite Hv, HV; [done..|by rewrite Hcap].
Qed.

Lemma st_len g V P s p :
  st g V P s → blk_in_range cap p → length (V p) = Z.to_nat CACHE_BLKSZ.
Proof.
  intros (c & -> & Hok & Hcap & HP & HV) Hp. rewrite <- HV by done.
  apply view_len; [done|by rewrite Hcap].
Qed.

Lemma st_field {A} (f : fs C → A) g V P s :
  (∀ c, f (with_cache g c) = f g) → st g V P s → f s = f g.
Proof. intros Hf (c & -> & _). apply Hf. Qed.

#[global] Instance st_proper g :
  Proper (pointwise_relation Z eq ==> eq ==> eq ==> iff) (st g).
Proof.
  intros V V' HV P ? <- s ? <-. split; intros (c & -> & Hok & Hcap & HP & Hv);
    exists c; split_and!; try done; intros q Hq; rewrite Hv by done;
    [apply HV | symmetry; apply HV].
Qed.

(** ** Inodes *)

Definition inode_at g V (idx : Z) : ktfs_inode :=
  inode_of_bytes (slice (inode_off idx) KTFS_INOSZ (V (inode_pos g idx))).

(** The block store after the inode slot [idx] was overwritten. *)
Definition put_inode g V (idx : Z) (ino : ktfs_inode) : Z → list Z :=
  upd V (inode_pos g idx) (splice (inode_off idx) (bytes_of_inode ino) (V (inode_pos g idx))).

Lemma inode_off_range idx : 0 ≤ inode_off idx ≤ 480.
Proof.
  unfold inode_off, KTFS_BLKSZ, KTFS_INOSZ. change (512 / 32) with 16.
  pose proof (Z.mod_pos_bound idx 16). lia.
Qed.

Lemma length_bytes_of_inode ino : length (bytes_of_inode ino) = 32%nat.
Proof. unfold bytes_of_inode. by rewrite !length_app, !length_le_bytes. Qed.

Lemma read_inode_st g V P s idx :
  st g V P s → blk_in_range cap (inode_pos g idx) → (base.size P < 3)%nat →
  ∃ s', read_inode idx s = (Ret (inode_at g V idx), s') ∧ st g V P s'.
Proof.
  intros Hst Hp HP. unfold read_inode. kgets.
  rewrite (st_field (λ s, inode_pos s idx) g V P s) by done.
  destruct (st_get g V P s _ Hst Hp HP) as (i & P1 & s1 & H1 & Hst1 & Hh). krun H1.
  destruct (st_load g V P P1 s1 i _ Hst1 Hh) as [Hl _]. krun Hl.
  destruct (st_release g V P P1 s1 i _ Hst1 Hh) as (s2 & H2 & Hst2). krun H2.
  by exists s2.
Qed.

Lemma write_inode_st g V P s idx ino :
  st g V P s → blk_in_range cap (inode_pos g idx) → (base.size P < 3)%nat →
  ∃ s', write_inode idx ino s = (Ret tt, s') ∧ st g (put_inode g V idx ino) P s'.
Proof.
  intros Hst Hp HP. unfold write_inode. kgets.
  rewrite (st_field (λ s, inode_pos s idx) g V P s) by done.
  destruct (st_get g V P s _ Hst Hp HP) as (i & P1 & s1 & H1 & Hst1 & Hh). krun H1.
  destruct (st_load g V P P1 s1 i _ Hst1 Hh) as [Hl _]. krun Hl.
  destruct (st_put g V P P1 s1 i _ (splice (inode_off idx) (bytes_of_inode ino)
    (V (inode_pos g idx))) Hst1 Hh) as (s2 & s3 & H2 & H3 & Hst3).
  { pose proof (st_len g V P s _ Hst Hp) as Hl'. pose proof (inode_off_range idx).
    rewrite length_splice; [done|]. rewrite Hl', length_bytes_of_inode. unfold CACHE_BLKSZ. lia. }
  krun H2. rewrite H3. by exists s3.
Qed.

(** Field-wise well-formedness of an in-memory inode. *)
Definition inode_wf (ino : ktfs_inode) : Prop :=
  (length (block ino) = 3 ∧ length (dindirect ino) = 2)%nat ∧
  Forall (λ x, 0 ≤ x < 2 ^ 32) (size ino :: flags ino :: indirect ino :: block ino ++ dindirect ino).

Lemma word_app_skip a d k :
  length a = 4%nat → 0 < k → word (a ++ d) k = word d (k - 1).
Proof.
  intros Ha Hk. unfold word, slice. f_equal. f_equal.
  replace (Z.to_nat (4 * k)) with (length a + Z.to_nat (4 * (k - 1)))%nat by lia.
  apply drop_app_add.
Qed.

Lemma word_le_bytes v d : 0 ≤ v < 2 ^ 32 → word (le_bytes 4 v ++ d) 0 = v.
Proof.
  intros Hv. unfold word, slice. rewrite Z.mul_0_r, Z2Nat.inj_0, drop_0.
  change (Z.to_nat 4) with 4%nat. rewrite (take_app_length' _ _ 4) by done.
  by apply le_val_bytes_small.
Qed.

Lemma inode_bytes_roundtrip ino : inode_wf ino → inode_of_bytes (bytes_of_inode ino) = ino.
Proof.
  destruct ino as [sz fl bl ind di]. intros [[Hb Hd] Hall]. simpl in *.
  destruct bl as [|b0 [|b1 [|b2 [|]]]]; try done. destruct di as [|d0 [|d1 [|]]]; try done.
  repeat match goal with Hx : Forall _ (_ :: _) |- _ => inversion Hx; clear Hx; subst end.
  unfold inode_of_bytes, bytes_of_inode. cbn [size flags block indirect dindirect].
  change (getb 0 [b0; b1; b2] 0) with b0. change (getb 0 [b0; b1; b2] 1) with b1.
  change (getb 0 [b0; b1; b2] 2) with b2. change (getb 0 [d0; d1] 0) with d0.
  change (getb 0 [d0; d1] 1) with d1.
  rewrite <- (app_nil_r (le_bytes 4 d1)).
  repeat match goal with
  | |- context [word (le_bytes 4 ?v ++ ?d) (Zpos ?k)] =>
      rewrite (word_app_skip (le_bytes 4 v) d (Zpos k)) by first [apply length_le_bytes | lia];
      let k' := eval cbv in (Zpos k - 1) in change (Zpos k - 1) with k'
  end.
  rewrite !word_le_bytes by done. done.
Qed.

Lemma inode_at_put_same g V idx ino :
  length (V (inode_pos g idx)) = Z.to_nat CACHE_BLKSZ → inode_wf ino →
  inode_at g (put_inode g V idx ino) idx = ino.
Proof.
  intros Hlen Hwf. unfold inode_at, put_inode, upd. rewrite decide_True by done.
  rewrite slice_splice_same; [by apply inode_bytes_roundtrip|by rewrite length_bytes_of_inode|].
  rewrite length_bytes_of_inode, Hlen. pose proof (inode_off_range idx).
  unfold CACHE_BLKSZ. lia.
Qed.

(** Distinct inode numbers of one inode table occupy disjoint bytes. *)
Lemma inode_at_put_other g V idx idx' ino :
  length (V (inode_pos g idx)) = Z.to_nat CACHE_BLKSZ → 0 ≤ idx < 2 ^ 16 → 0 ≤ idx' < 2 ^ 16 →
  0 ≤ g_first_inode_block g → g_first_inode_block g + 2 ^ 12 ≤ 2 ^ 32 → idx ≠ idx' →
  inode_at g (put_inode g V idx ino) idx' = inode_at g V idx'.
Proof.
  intros Hlen Hi Hi' Hg0 Hg Hne. unfold inode_at, put_inode, upd.
  case_decide as E; [|done]. rewrite E. rewrite slice_splice_other; [done|..];
    rewrite ?length_bytes_of_inode, ?Hlen;
    pose proof (inode_off_range idx); [unfold CACHE_BLKSZ; lia|].
  unfold inode_pos in E. rewrite !u32_small in E by
    (unfold KTFS_BLKSZ, KTFS_INOSZ; change (512 / 32) with 16; Z.div_mod_to_equations; lia).
  unfold inode_off, KTFS_BLKSZ, KTFS_INOSZ in *. change (512 / 32) with 16 in *.
  change (Z.to_nat 32) with 32%nat. Z.div_mod_to_equations. lia.
Qed.

(** ** Block addressing

    The on-disk format's table of logical blocks (docs/ktfs-format.md), as a
    relation between a logical block and the data block that holds it. *)

Definition blk_ok g (idx : Z) : Prop := blk_in_range cap (data_blk_to_pos g idx).
Definition ptr_at g V (idx k : Z) : Z := word (V (data_blk_to_pos g idx)) k.

Inductive mapped g V (ino : ktfs_inode) : Z → Z → Prop :=
| map_direct lb :
    0 ≤ lb < 3 → mapped g V ino lb (getb 0 (block ino) lb)
| map_indirect lb :
    3 ≤ lb < 131 → blk_ok g (indirect ino) →
    mapped g V ino lb (ptr_at g V (indirect ino) (lb - 3))
| map_dindirect lb slot k mid :
    lb = 131 + 16384 * slot + k → 0 ≤ slot < 2 → 0 ≤ k < 16384 →
    blk_ok g (getb 0 (dindirect ino) slot) →
    mid = ptr_at g V (getb 0 (dindirect ino) slot) (k / 128) → blk_ok g mid →
    mapped g V ino lb (ptr_at g V mid (k mod 128)).

Lemma read_ptr_st g V P s idx k :
  st g V P s → blk_ok g idx → (base.size P < 3)%nat →
  ∃ s', read_ptr idx k s = (Ret (ptr_at g V idx k), s') ∧ st g V P s'.
Proof.
  intros Hst Hp HP. unfold read_ptr. kgets.
  rewrite (st_field (λ s, data_blk_to_pos s idx) g V P s) by done.
  destruct (st_get g V P s _ Hst Hp HP) as (i & P1 & s1 & H1 & Hst1 & Hh). krun H1.
  destruct (st_load g V P P1 s1 i _ Hst1 Hh) as [Hl _]. krun Hl.
  destruct (st_release g V P P1 s1 i _ Hst1 Hh) as (s2 & H2 & Hst2). krun H2.
  by exists s2.
Qed.

Lemma resolve_block_st g V P s ino lb b :
  st g V P s → mapped g V ino lb b → (base.size P < 3)%nat →
  ∃ s', resolve_block ino lb s = (Ret b, s') ∧ st g V P s'.
Proof.
  intros Hst Hm HP. unfold resolve_block, KTFS_NUM_DIRECT_DATA_BLOCKS, KTFS_NUM_DINDIRECT_BLOCKS.
  change KTFS_PTRS_PER_BLOCK with 128. change (128 * 128) with 16384. change (16384 * 2) with 32768.
  destruct Hm as [lb Hr|lb Hr Hi|lb slot k mid -> Hs Hk Hd -> Hm].
  - rewrite (proj2 (Z.ltb_lt lb 3)) by lia. by exists s.
  - rewrite (proj2 (Z.ltb_ge lb 3)), (proj2 (Z.ltb_lt (lb - 3) 128)) by lia.
    by apply read_ptr_st.
  - rewrite (proj2 (Z.ltb_ge _ 3)), (proj2 (Z.ltb_ge (_ - 3) 128)), (proj2 (Z.leb_gt 32768 _)) by lia.
    cbv zeta. replace (131 + 16384 * slot + k - 3 - 128) with (k + slot * 16384) by lia.
    rewrite Z.div_add, Z.mod_add, (Z.div_small k 16384), (Z.mod_small k 16384), Z.add_0_l by lia.
    destruct (read_ptr_st g V P s _ (k / 128) Hst Hd HP) as (s1 & H1 & Hst1). krun H1.
    by apply read_ptr_st.
Qed.

Lemma resolve_block_too_large ino lb s :
  32899 ≤ lb → resolve_block ino lb s = (Fail (- EINVAL), s).
Proof.
  intros Hl. unfold resolve_block, KTFS_NUM_DIRECT_DATA_BLOCKS, KTFS_NUM_DINDIRECT_BLOCKS.
  change KTFS_PTRS_PER_BLOCK with 128. change (128 * 128) with 16384. change (16384 * 2) with 32768.
  rewrite (proj2 (Z.ltb_ge lb 3)), (proj2 (Z.ltb_ge (lb - 3) 128)), (proj2 (Z.leb_le _ _)) by lia.
  done.
Qed.

(** ** Reading file data *)

(** The byte at offset [k] of a file whose logical block [b] is the data
    block [bm b], and the [n] bytes from offset [off]. *)
Definition file_byte g V (bm : Z → Z) (k : Z) : Z :=
  getb 0 (V (data_blk_to_pos g (bm (k / KTFS_BLKSZ)))) (k mod KTFS_BLKSZ).

Definition file_data g V (bm : Z → Z) (off : Z) (n : nat) : list Z :=
  (λ i : nat, file_byte g V bm (off + Z.of_nat i)) <$> seq 0 n.

(** [bm] is the block map of the first [sz] bytes of the file [ino]. *)
Definition maps_to g V (ino : ktfs_inode) (bm : Z → Z) (sz : Z) : Prop :=
  ∀ lb, 0 ≤ lb → lb * KTFS_BLKSZ < sz → mapped g V ino lb (bm lb) ∧ blk_ok g (bm lb).

Lemma file_data_app g V bm off n m :
  file_data g V bm off (n + m) =
  file_data g V bm off n ++ file_data g V bm (off + Z.of_nat n) m.
Proof.
  unfold file_data. rewrite seq_app, fmap_app. f_equal. simpl.
  replace (seq n m) with ((λ i, n + i)%nat <$> seq 0 m) by (rewrite fmap_add_seq; f_equal; lia).
  rewrite <- list_fmap_compose. apply list_fmap_ext. intros i x _. simpl. f_equal. lia.
Qed.

Lemma length_file_data g V bm off n : length (file_data g V bm off n) = n.
Proof. unfold file_data. by rewrite length_fmap, length_seq. Qed.

(** A run of bytes inside one block is a slice of that block. *)
Lemma file_data_block g V bm off (n : nat) :
  0 ≤ off → off mod KTFS_BLKSZ + Z.of_nat n ≤ KTFS_BLKSZ →
  length (V (data_blk_to_pos g (bm (off / KTFS_BLKSZ)))) = Z.to_nat CACHE_BLKSZ →
  slice (off mod KTFS_BLKSZ) (Z.of_nat n) (V (data_blk_to_pos g (bm (off / KTFS_BLKSZ)))) =
  file_data g V bm off n.
Proof.
  unfold KTFS_BLKSZ. intros Ho Hn Hl. set (d := V _) in *.
  pose proof (Z.mod_pos_bound off 512 ltac:(lia)).
  apply list_eq. intros i. destruct (decide (i < n)%nat) as [Hi|Hi].
  - rewrite lookup_slice by lia. unfold file_data. rewrite list_lookup_fmap, lookup_seq_lt by lia.
    simpl. unfold file_byte, KTFS_BLKSZ.
    assert ((off + Z.of_nat i) / 512 = off / 512) as -> by (Z.div_mod_to_equations; lia).
    assert ((off + Z.of_nat i) mod 512 = off mod 512 + Z.of_nat i) as ->
      by (Z.div_mod_to_equations; lia).
    fold d. unfold getb. rewrite Z2Nat.inj_add, Nat2Z.id by lia.
    destruct (lookup_lt_is_Some_2 d (Z.to_nat (off mod 512) + i)) as [x ->]; [|done].
    rewrite Hl. unfold CACHE_BLKSZ. lia.
  - rewrite !lookup_ge_None_2; [done|rewrite length_file_data; lia|rewrite length_slice; lia].
Qed.

Lemma readat_loop_st g V s ino bm pos len fuel (n : nat) :
  st g V ∅ s → 0 ≤ pos → pos + len < 2 ^ 32 → maps_to g V ino bm (pos + len) →
  Z.of_nat n ≤ len → (1 ≤ fuel)%nat →
  (Z.of_nat n < len → (pos + len - 1) / 512 - (pos + Z.of_nat n) / 512 + 1 < Z.of_nat fuel) →
  ∃ s', readat_loop fuel ino pos len (file_data g V bm pos n) s =
          (Ret (file_data g V bm pos (Z.to_nat len)), s') ∧ st g V ∅ s'.
Proof.
  revert s n. induction fuel as [|fuel IH]; intros s n Hst Hp Hlim Hmap Hn Hf Hm; [lia|].
  simpl. rewrite length_file_data.
  destruct (Z.of_nat n <? len) eqn:Hlt; kbool.
  2: { exists s. split; [|done]. replace n with (Z.to_nat len) by lia. done. }
  rewrite u64_small by lia. set (off := pos + Z.of_nat n) in *.
  assert (off / 512 * 512 < pos + len) as Hlb by (Z.div_mod_to_equations; lia).
  destruct (Hmap (off / 512)) as [Hmb Hbk]; [Z.div_mod_to_equations; lia|done|].
  unfold data_block_for_offset. change KTFS_BLKSZ with 512.
  rewrite u32_small by (Z.div_mod_to_equations; lia).
  destruct (resolve_block_st g V ∅ s ino _ _ Hst Hmb) as (s1 & H1 & Hst1);
    [rewrite map_size_empty; lia|]. krun H1. kgets.
  rewrite (st_field (λ s, data_blk_to_pos s (bm (off / 512))) g V ∅ s1) by done.
  destruct (st_get g V ∅ s1 _ Hst1 Hbk) as (i & P1 & s2 & H2 & Hst2 & Hh);
    [rewrite map_size_empty; lia|]. krun H2.
  destruct (st_load g V ∅ P1 s2 i _ Hst2 Hh) as [Hl _]. krun Hl.
  destruct (st_release g V ∅ P1 s2 i _ Hst2 Hh) as (s3 & H3 & Hst3). krun H3.
  set (chunk := if len - Z.of_nat n <? 512 - off mod 512 then len - Z.of_nat n else 512 - off mod 512).
  assert (0 < chunk ≤ len - Z.of_nat n ∧ off mod 512 + chunk ≤ 512 ∧
          (chunk = len - Z.of_nat n ∨ off mod 512 + chunk = 512)) as (Hc1 & Hc2 & Hc3).
  { unfold chunk. pose proof (Z.mod_pos_bound off 512 ltac:(lia)). kcase; kbool; lia. }
  replace chunk with (Z.of_nat (Z.to_nat chunk)) by lia.
  pose proof (file_data_block g V bm off (Z.to_nat chunk)) as Hfd.
  change KTFS_BLKSZ with 512 in Hfd. rewrite Hfd;
    [|lia|lia|by apply (st_len g V ∅ s3)].
  unfold off at 1. rewrite <- file_data_app.
  apply IH; try done; [lia| |].
  - enough (1 < Z.of_nat (S fuel)) by lia. specialize (Hm ltac:(lia)).
    assert (off / 512 ≤ (pos + len - 1) / 512) by (apply Z.div_le_mono; lia). lia.
  - intros Hlt'. specialize (Hm ltac:(lia)). destruct Hc3 as [Hc3|Hc3]; [lia|].
    assert ((pos + Z.of_nat (n + Z.to_nat chunk)) / 512 = off / 512 + 1) as ->; [|lia].
    unfold off in *. Z.div_mod_to_equations. lia.
Qed.

Lemma readat_fuel pos len :
  0 ≤ pos → 0 < len → (pos + len - 1) / 512 - pos / 512 + 1 < Z.of_nat (3 + Z.to_nat (len / 512)).
Proof. intros. Z.div_mod_to_equations. lia. Qed.

(** The bytes a read of [len] bytes at [pos] may return. *)
Definition readable (sz pos len : Z) : Z := Z.max 0 (Z.min len (sz - pos)).

(** C5. [ktfs_readat] returns, within its fuel, exactly the bytes of the file
    that lie in [pos, pos+len) and before the cached size, whatever mix of
    direct, indirect and doubly-indirect blocks they are in; it changes
    neither a block nor the pinned set. *)
Theorem ktfs_readat_correct g V s slot bm pos len :
  let f := get_file g slot in
  st g V ∅ s →
  blk_in_range cap (inode_pos g (inode_idx f)) →
  0 ≤ pos → 0 ≤ f_size f < 2 ^ 32 →
  maps_to g V (inode_at g V (inode_idx f)) bm (f_size f) →
  ∃ s', ktfs_readat slot pos len s =
          (Ret (file_data g V bm pos (Z.to_nat (readable (f_size f) pos len))), s') ∧
        st g V ∅ s'.
Proof.
  intros f Hst Hp Hpos Hsz Hmap. unfold ktfs_readat. kgets.
  rewrite (st_field (λ s, get_file s slot) g V ∅ s) by done. fold f. unfold readable.
  destruct (len <=? 0) eqn:Hl; kbool.
  { exists s. split; [|done]. by replace (Z.max _ _) with 0 by lia. }
  destruct (f_size f <=? pos) eqn:Hs; kbool.
  { exists s. split; [|done]. by replace (Z.max _ _) with 0 by lia. }
  cbv zeta. set (n := if _ <? len then _ else len).
  assert (n = Z.max 0 (Z.min len (f_size f - pos))) as <- by (unfold n; kcase; kbool; lia).
  assert (0 < n ≤ f_size f - pos) as Hn by (unfold n; kcase; kbool; lia).
  destruct (read_inode_st g V ∅ s _ Hst Hp) as (s1 & H1 & Hst1); [rewrite map_size_empty; lia|].
  krun H1. change (@nil Z) with (file_data g V bm pos 0). apply readat_loop_st; try done; [lia|..].
  - intros lb Hb Hb2. apply Hmap; [done|lia].
  - simpl; lia.
  - lia.
  - intros _. rewrite Nat2Z.inj_0, Z.add_0_r. apply readat_fuel; lia.
Qed.

(** The inode table behaves like an array: [write_inode] followed by
    [read_inode] gives the inode back, every other inode of the table reads
    as before, and no block but the one that holds the slot changes. *)
Lemma inode_table_get_set g V s idx ino :
  st g V ∅ s → blk_in_range cap (inode_pos g idx) → inode_wf ino → 0 ≤ idx < 2 ^ 16 →
  0 ≤ g_first_inode_block g → g_first_inode_block g + 2 ^ 12 ≤ 2 ^ 32 →
  ∃ V' s1, write_inode idx ino s = (Ret tt, s1) ∧ st g V' ∅ s1 ∧
    (∃ s2, read_inode idx s1 = (Ret ino, s2) ∧ st g V' ∅ s2) ∧
    (∀ idx', 0 ≤ idx' < 2 ^ 16 → idx' ≠ idx → blk_in_range cap (inode_pos g idx') →
       ∃ s2, read_inode idx' s1 = (Ret (inode_at g V idx'), s2) ∧ st g V' ∅ s2) ∧
    (∀ p, p ≠ inode_pos g idx → V' p = V p).
Proof.
  intros Hst Hp Hwf Hi Hg0 Hg. assert (base.size (∅ : gmap nat (Z * nat)) < 3)%nat as HP
    by (rewrite map_size_empty; lia).
  destruct (write_inode_st g V ∅ s idx ino Hst Hp HP) as (s1 & H1 & Hst1).
  exists (put_inode g V idx ino), s1. split_and!; [done|done| | |].
  - destruct (read_inode_st _ _ _ _ _ Hst1 Hp HP) as (s2 & H2 & Hst2). exists s2.
    rewrite H2, inode_at_put_same; [done|by apply (st_len g V ∅ s)|done].
  - intros idx' Hi' Hne Hp'. destruct (read_inode_st _ _ _ _ _ Hst1 Hp' HP) as (s2 & H2 & Hst2).
    exists s2. rewrite H2, inode_at_put_other; try done. by apply (st_len g V ∅ s).
  - intros p Hne. unfold put_inode, upd. by rewrite decide_False.
Qed.

(** [resolve_block] implements the addressing table of the on-disk format
    on every logical block the format can address, and refuses the others
    with [-EINVAL] without touching the cache. *)
Lemma resolve_block_table g V s ino lb :
  st g V ∅ s → 0 ≤ lb →
  (∀ b, mapped g V ino lb b → ∃ s', resolve_block ino lb s = (Ret b, s') ∧ st g V ∅ s') ∧
  (32899 ≤ lb → resolve_block ino lb s = (Fail (- EINVAL), s)).
Proof.
  intros Hst Hlb. split; [|apply resolve_block_too_large].
  intros b Hm. apply resolve_block_st; [done..|]. rewrite map_size_empty. lia.
Qed.

(** The globals that a superblock gives, with an empty open-file table. *)
Definition mounted_globals (c : C) (sb : ktfs_superblock) (files : list ktfs_file) : fs C :=
  let first_inode := u32 (1 + bitmap_block_count sb) in
  Fs (Some c) (block_count sb) (bitmap_block_count sb) (inode_block_count sb)
     (root_directory_inode sb) first_inode (u32 (first_inode + inode_block_count sb))
     ((λ f, File (f_refcnt f) (inode_idx f) (f_size f) false (f_name f)) <$> files).

Lemma ktfs_mount_st c s :
  bc_ok c → bc_cap c = cap → pins c = ∅ → blk_in_range cap 0 →
  ∃ s', ktfs_mount true (Some c) s = (Ret tt, s') ∧
        st (mounted_globals c (superblock_of_bytes (view c 0)) (g_open_files s)) (view c) ∅ s'.
Proof.
  intros Hok Hc HP H0'. unfold ktfs_mount. cbn [negb].
  assert (st (with_cache s c) (view c) ∅ (with_cache s c)) as Hst by (exists c; split_and!; auto).
  kmodify.
  assert (base.size (∅ : gmap nat (Z * nat)) < 3)%nat as Hsz by (rewrite map_size_empty; lia).
  destruct (st_get _ _ ∅ _ 0 Hst H0' Hsz) as (i & P1 & s1 & H1 & Hst1 & Hh). krun H1.
  destruct (st_load _ _ ∅ P1 s1 i _ Hst1 Hh) as [Hl _]. krun Hl.
  set (sb := superblock_of_bytes (view c 0)).
  kmodify. match goal with |- context [(release i CACHE_CLEAN ≫= _) ?s] => set (s2 := s) end.
  set (g2 := Fs (g_cache s) (block_count sb) (bitmap_block_count sb) (inode_block_count sb)
     (root_directory_inode sb) (u32 (1 + bitmap_block_count sb))
     (u32 (u32 (1 + bitmap_block_count sb) + inode_block_count sb)) (g_open_files s)).
  assert (st g2 (view c) P1 s2) as Hst2 by (destruct Hst1 as (c1 & -> & Hr); exists c1; by split).
  destruct (st_release _ _ ∅ P1 s2 i _ Hst2 Hh) as (s3 & H3 & Hst3). krun H3.
  eexists. split; [reflexivity|]. destruct Hst3 as (c3 & -> & Hr). exists c3. by split.
Qed.
End proofs.
