(* ===== verification/KtfsAlloc.v ===== *)
(** * KTFS: the allocation bitmap

    Against the interface [BlockCache]: [alloc_data_block] hands out the
    lowest free data block, [free_data_block] clears exactly one bit. *)

From S2P Require Import Prelude Config Io Cache Ktfs KtfsProofs.
Import Ktfs.

(** ** Scanning *)

Section scan.
Context (bit : Z → bool) (first total : Z).

(** A block that the scan accepts or, past [total], stops at. *)
Definition avail (k : Z) : Prop := bit k = false ∧ first ≤ k.

Definition none_avail (lo hi : Z) : Prop := ∀ k, lo ≤ k < hi → ¬ avail k.

Definition scan_ok (lo hi : Z) (r : scan) : Prop :=
  match r with
  | ScanNone => none_avail lo hi
  | ScanHit k => lo ≤ k < hi ∧ avail k ∧ k < total ∧ none_avail lo k
  | ScanFull => ∃ k, lo ≤ k < hi ∧ avail k ∧ total ≤ k ∧ none_avail lo k
  end.

Lemma none_avail_app lo mid hi :
  none_avail lo mid → none_avail mid hi → none_avail lo hi.
Proof. intros H1 H2 k Hk. destruct (decide (k < mid)); [apply H1|apply H2]; lia. Qed.

Lemma scan_ok_app lo mid hi r :
  lo ≤ mid → none_avail lo mid → scan_ok mid hi r → scan_ok lo hi r.
Proof.
  intros Hle Hn. destruct r as [| |k]; simpl.
  - by apply none_avail_app.
  - intros (k & ? & ? & ? & ?). exists k. split_and!; [lia..|done|done|by eapply none_avail_app].
  - intros (? & ? & ? & ?). split_and!; [lia..|done|done|by eapply none_avail_app].
Qed.

Lemma scan_ok_weaken lo hi hi' r :
  hi ≤ hi' → r ≠ ScanNone → scan_ok lo hi r → scan_ok lo hi' r.
Proof.
  intros Hle Hr. destruct r as [| |k]; simpl; [done|..].
  - intros (k & ? & ? & ? & ?). exists k. split_and!; [lia..|done|done|done].
  - intros (? & ? & ? & ?). split_and!; [lia..|done|done|done].
Qed.

Lemma none_avail_one k : bit k = true ∨ k < first → none_avail k (k + 1).
Proof. intros Hk k' Hk' [Hb Hf]. assert (k' = k) as -> by lia. destruct Hk; [congruence|lia]. Qed.

Lemma land_bit v i : 0 ≤ i → (Z.land v (Z.shiftl 1 i) =? 0) = negb (Z.testbit v i).
Proof.
  intros Hi. destruct (Z.testbit v i) eqn:Ht; simpl.
  - apply Z.eqb_neq. intros Hz. apply (f_equal (λ x, Z.testbit x i)) in Hz.
    rewrite Z.land_spec, Z.shiftl_spec, Z.sub_diag, Ht, Z.testbit_0_l in Hz by lia. done.
  - apply Z.eqb_eq. apply Z.bits_inj'. intros n Hn.
    rewrite Z.land_spec, Z.shiftl_spec, Z.testbit_0_l by lia.
    destruct (decide (n = i)) as [->|]; [by rewrite Ht|].
    destruct (decide (n < i)); [rewrite (Z.testbit_neg_r 1) by lia; apply andb_false_r|].
    rewrite (Z.bits_above_log2 1) by (simpl; lia). apply andb_false_r.
Qed.

Lemma scan_bits_ok v base i n :
  0 ≤ i → 0 ≤ base → base + i + Z.of_nat n ≤ 2 ^ 32 →
  (∀ j, i ≤ j < i + Z.of_nat n → bit (base + j) = Z.testbit v j) →
  scan_ok (base + i) (base + i + Z.of_nat n) (scan_bits first total v base i n).
Proof.
  revert i. induction n as [|n IH]; intros i Hi Hb Hlim Hbit; [intros k Hk; lia|].
  assert (bit (base + i) = Z.testbit v i) as Hbi by (apply Hbit; lia).
  assert (bit (base + i) = true ∨ base + i < first →
          scan_ok (base + i) (base + i + Z.of_nat (S n)) (scan_bits first total v base (i + 1) n)) as Hskip.
  { intros Hs. eapply scan_ok_app with (base + (i + 1)); [lia| |].
    - rewrite Z.add_assoc. by apply none_avail_one.
    - replace (base + i + Z.of_nat (S n)) with (base + (i + 1) + Z.of_nat n) by lia.
      apply IH; [lia..|]. intros j Hj. apply Hbit. lia. }
  simpl. rewrite land_bit, negb_involutive by lia.
  destruct (Z.testbit v i) eqn:Ht; [by apply Hskip; left|].
  rewrite u32_small by lia. destruct (base + i <? first) eqn:Hf; kbool; [by apply Hskip; right|].
  assert (none_avail (base + i) (base + i)) by (intros k Hk; lia).
  destruct (total <=? base + i) eqn:Hto; kbool; simpl.
  - exists (base + i). split_and!; [lia|lia|done|lia|done].
  - split_and!; [lia|lia|done|lia|done].
Qed.

Lemma testbit_255 j : 0 ≤ j < 8 → Z.testbit 255 j = true.
Proof. intros Hj. assert (j ∈ seqZ 0 8) as Hin by (apply elem_of_seqZ; lia).
  revert j Hj Hin. cbn. intros j _ Hin.
  repeat (apply elem_of_cons in Hin as [->|Hin]; [done|]). by apply elem_of_nil in Hin. Qed.

Lemma scan_bytes_ok bytes base byte :
  0 ≤ base → 0 ≤ byte → base + (byte + Z.of_nat (length bytes)) * 8 ≤ 2 ^ 32 →
  (∀ (i : nat) v j, bytes !! i = Some v → 0 ≤ j < 8 →
     bit (base + (byte + Z.of_nat i) * 8 + j) = Z.testbit v j) →
  scan_ok (base + byte * 8) (base + (byte + Z.of_nat (length bytes)) * 8)
    (scan_bytes first total bytes base byte).
Proof.
  revert byte. induction bytes as [|v bytes IH]; intros byte Hb Hy Hlim Hbit; [intros k Hk; simpl in *; lia|].
  cbn [length] in Hlim.
  assert (∀ j, 0 ≤ j < 8 → bit (base + byte * 8 + j) = Z.testbit v j) as Hv.
  { intros j Hj. rewrite <- (Hbit O v j) by done. f_equal. lia. }
  assert (none_avail (base + byte * 8) (base + (byte + 1) * 8) →
    scan_ok (base + byte * 8) (base + (byte + Z.of_nat (length (v :: bytes))) * 8)
      (scan_bytes first total bytes base (byte + 1))) as Hskip.
  { intros Hn. eapply scan_ok_app; [|exact Hn|]; [lia|]. cbn [length].
    replace (byte + Z.of_nat (S (length bytes))) with (byte + 1 + Z.of_nat (length bytes)) by lia.
    apply IH; [lia..|]. intros i w j Hi Hj. rewrite <- (Hbit (S i) w j) by done. f_equal. lia. }
  cbn [scan_bytes]. destruct (v =? 255) eqn:Hff; kbool.
  { apply Hskip. intros k Hk [Hk0 _]. replace k with (base + byte * 8 + (k - base - byte * 8)) in Hk0 by lia.
    rewrite Hv, Hff, testbit_255 in Hk0 by lia. done. }
  assert (scan_ok (base + byte * 8) (base + (byte + 1) * 8)
            (scan_bits first total v (base + byte * 8) 0 8)) as Hsb.
  { pose proof (scan_bits_ok v (base + byte * 8) 0 8) as Hs. rewrite Z.add_0_r in Hs.
    replace (base + (byte + 1) * 8) with (base + byte * 8 + Z.of_nat 8) by lia. apply Hs; [lia..|].
    intros j Hj. apply Hv. lia. }
  destruct (scan_bits _ _ _ _ _ _) as [| |k] eqn:Hr; [by apply Hskip|..];
    (eapply scan_ok_weaken; [|done|exact Hsb]; cbn [length]; lia).
Qed.
End scan.

(** ** The bitmap on the block store *)

Definition bmp_pos (k : Z) : Z := u32 (1 + k / 4096) * KTFS_BLKSZ.

(** Bit [k] of the bitmap, for the block with number [k] of the image. *)
Definition used (V : Z → list Z) (k : Z) : bool :=
  Z.testbit (getb 0 (V (bmp_pos k)) (k mod 4096 / 8)) (k mod 8).

(** The store after bit [k] was set or cleared. *)
Definition set_bit (b : bool) (V : Z → list Z) (k : Z) : Z → list Z :=
  let bytes := V (bmp_pos k) in
  let byte := k mod 4096 / 8 in
  let v := getb 0 bytes byte in
  upd V (bmp_pos k)
    (setb byte (if b then Z.lor v (Z.shiftl 1 (k mod 8))
                else Z.land v (u8 (Z.lnot (Z.shiftl 1 (k mod 8))))) bytes).

Definition zero_block : list Z := replicate (Z.to_nat KTFS_BLKSZ) 0.

Definition alloc_view V k : Z → list Z := upd (set_bit true V k) (k * KTFS_BLKSZ) zero_block.

Section bitmap.
Context {C : Type} `{BlockCache C} (cap : Z).
Implicit Types (g s : fs C) (V : Z → list Z) (P : gmap nat (Z * nat)).
Notation st := (st cap).

(** What mkfs guarantees of the superblock: the bitmap covers the image, the
    data area starts after the bitmap, the image fits the device. *)
Record geom_ok g : Prop := {
  go_bmp : 0 ≤ g_bitmap_block_count g;
  go_first : 1 + g_bitmap_block_count g ≤ g_first_data_block g < 2 ^ 32;
  go_cover : g_block_count g ≤ 4096 * g_bitmap_block_count g;
  go_lim : 4096 * g_bitmap_block_count g < 2 ^ 32;
  go_count : 0 ≤ g_block_count g;
  go_cap : g_block_count g * KTFS_BLKSZ ≤ cap;
  go_meta : (1 + g_bitmap_block_count g) * KTFS_BLKSZ ≤ cap
}.

Lemma blk_range k : 0 ≤ k → (k + 1) * 512 ≤ cap → blk_in_range cap (k * 512).
Proof. intros. unfold blk_in_range, CACHE_BLKSZ. rewrite Z.mod_mul by lia. lia. Qed.

Lemma bmp_range g k :
  geom_ok g → 0 ≤ k < 4096 * g_bitmap_block_count g →
  blk_in_range cap (bmp_pos k) ∧ bmp_pos k = (1 + k / 4096) * 512.
Proof.
  intros [] Hk. unfold bmp_pos, KTFS_BLKSZ in *.
  assert (0 ≤ k / 4096 < g_bitmap_block_count g) by (Z.div_mod_to_equations; lia).
  rewrite u32_small by lia. split; [|done]. apply blk_range; lia.
Qed.

Lemma testbit_shiftl1 i j : 0 ≤ i → 0 ≤ j → Z.testbit (Z.shiftl 1 i) j = bool_decide (i = j).
Proof.
  intros Hi Hj. rewrite Z.shiftl_1_l. case_bool_decide as E.
  - subst. by apply Z.pow2_bits_true.
  - by apply Z.pow2_bits_false.
Qed.

Lemma testbit_clear v i j :
  0 ≤ i < 8 → 0 ≤ j < 8 →
  Z.testbit (Z.land v (u8 (Z.lnot (Z.shiftl 1 i)))) j = (negb (bool_decide (i = j)) && Z.testbit v j)%bool.
Proof.
  intros Hi Hj. unfold u8. rewrite Z.land_spec, Z.mod_pow2_bits_low, Z.lnot_spec, testbit_shiftl1 by lia.
  apply andb_comm.
Qed.

Lemma testbit_set v i j :
  0 ≤ i → 0 ≤ j →
  Z.testbit (Z.lor v (Z.shiftl 1 i)) j = (bool_decide (i = j) || Z.testbit v j)%bool.
Proof. intros. rewrite Z.lor_spec, testbit_shiftl1 by lia. apply orb_comm. Qed.

(** Setting or clearing bit [k] does that and nothing else. *)
Lemma used_set_bit g b V P s k j :
  geom_ok g → st g V P s → 0 ≤ k < 4096 * g_bitmap_block_count g →
  0 ≤ j < 4096 * g_bitmap_block_count g →
  used (set_bit b V k) j = if decide (j = k) then b else used V j.
Proof.
  intros Hg Hst Hk Hj. destruct (bmp_range g k Hg Hk) as [Hr Hpk], (bmp_range g j Hg Hj) as [_ Hpj].
  pose proof (st_len cap g V P s _ Hst Hr) as Hlen. change (Z.to_nat CACHE_BLKSZ) with 512%nat in Hlen.
  unfold used, set_bit, upd. case_decide as Hsame.
  2: { rewrite decide_False; [done|]. congruence. }
  assert (j / 4096 = k / 4096) as Hq by lia. rewrite ?Hsame.
  set (bk := k mod 4096 / 8). set (bj := j mod 4096 / 8).
  assert (0 ≤ bk < 512 ∧ 0 ≤ bj < 512) as [Hbk Hbj] by (unfold bk, bj; Z.div_mod_to_equations; lia).
  assert (0 ≤ k mod 8 < 8 ∧ 0 ≤ j mod 8 < 8) as [Hk8 Hj8] by (Z.div_mod_to_equations; lia).
  destruct (decide (bj = bk)) as [Hb|Hb].
  - rewrite Hb, getb_setb_same by lia. destruct b; rewrite ?testbit_set, ?testbit_clear by lia.
    + case_bool_decide; case_decide; [done|exfalso..|done]; subst; unfold bk, bj in *; Z.div_mod_to_equations; lia.
    + case_bool_decide; case_decide; [done|exfalso..|done]; subst; unfold bk, bj in *; Z.div_mod_to_equations; lia.
  - rewrite getb_setb_ne by lia. rewrite decide_False; [done|]. intros ->. done.
Qed.

Lemma used_in_block g V b (i : nat) v j :
  geom_ok g → 0 ≤ b < g_bitmap_block_count g → (i < 512)%nat → 0 ≤ j < 8 →
  V (u32 (1 + b) * KTFS_BLKSZ) !! i = Some v →
  used V (b * KTFS_BLKSZ * 8 + (0 + Z.of_nat i) * 8 + j) = Z.testbit v j.
Proof.
  intros [] Hb Hi Hj Hv. unfold KTFS_BLKSZ in *.
  set (k := b * 512 * 8 + (0 + Z.of_nat i) * 8 + j).
  assert (k / 4096 = b ∧ k mod 4096 / 8 = Z.of_nat i ∧ k mod 8 = j) as (Hq & Hm & Hr)
    by (unfold k; Z.div_mod_to_equations; lia).
  unfold used, bmp_pos, KTFS_BLKSZ. rewrite Hq, Hm, Hr. unfold getb. by rewrite Nat2Z.id, Hv.
Qed.

Lemma scan_block_ok g V P s b :
  geom_ok g → st g V P s → 0 ≤ b < g_bitmap_block_count g →
  scan_ok (used V) (g_first_data_block g) (g_block_count g) (b * 4096) ((b + 1) * 4096)
    (scan_bytes (g_first_data_block g) (g_block_count g) (V (u32 (1 + b) * KTFS_BLKSZ))
       (b * KTFS_BLKSZ * 8) 0).
Proof.
  intros Hg Hst Hb. destruct (bmp_range g (b * 4096) Hg) as [Hr Hp]; [lia|].
  unfold bmp_pos in Hr. rewrite Z.div_mul in Hr by lia.
  pose proof (st_len cap g V P s _ Hst Hr) as Hlen. pose proof (go_lim g Hg) as Hglim.
  pose proof (scan_bytes_ok (used V) (g_first_data_block g) (g_block_count g)
    (V (u32 (1 + b) * KTFS_BLKSZ)) (b * KTFS_BLKSZ * 8) 0) as Hs.
  rewrite Hlen in Hs. unfold KTFS_BLKSZ, CACHE_BLKSZ in *.
  change (Z.of_nat (Z.to_nat 512)) with 512 in Hs.
  replace (b * 512 * 8 + 0 * 8) with (b * 4096) in Hs by lia.
  replace (b * 512 * 8 + (0 + 512) * 8) with ((b + 1) * 4096) in Hs by lia.
  apply Hs; [lia..|]. intros i v j Hi Hj. apply (used_in_block g); try done.
  apply lookup_lt_Some in Hi. by rewrite Hlen in Hi.
Qed.

Lemma alloc_hit g V P s bmp P1 s1 b k :
  geom_ok g → st g V P1 s1 → held P bmp (u32 (1 + b) * KTFS_BLKSZ) P1 → st g V P s →
  (base.size P < 3)%nat → b * 4096 ≤ k < (b + 1) * 4096 → 0 ≤ b < g_bitmap_block_count g →
  g_first_data_block g ≤ k < g_block_count g →
  let bytes := V (u32 (1 + b) * KTFS_BLKSZ) in
  let base := b * KTFS_BLKSZ * 8 in
  let byte := (k - base) / 8 in
  ∃ s', (store bmp (setb byte (Z.lor (getb 0 bytes byte) (Z.shiftl 1 ((k - base) mod 8))) bytes);;
         release bmp CACHE_DIRTY;;
         dblk ← get_block (u32 k * KTFS_BLKSZ) ?! - EIO;
         store dblk (replicate (Z.to_nat KTFS_BLKSZ) 0);;
         release dblk CACHE_DIRTY;;
         mret (u32 (u32 k - g_first_data_block g))) s1
        = (Ret (k - g_first_data_block g), s') ∧ st g (alloc_view V k) P s'.
Proof.
  intros Hg Hst1 Hh Hst HP Hkb Hb Hkr bytes base byte. pose proof (go_lim g Hg) as Hglim. pose proof (go_first g Hg) as Hgfirst.
  pose proof (go_cap g Hg) as Hgcap. pose proof (go_cover g Hg) as Hgcover. unfold KTFS_BLKSZ in *.
  assert (k / 4096 = b ∧ byte = k mod 4096 / 8 ∧ (k - base) mod 8 = k mod 8) as (Hq & Hy & Hr)
    by (unfold byte, base; Z.div_mod_to_equations; lia).
  destruct (bmp_range g k Hg) as [Hbr _]; [lia|].
  destruct (st_put cap g V P P1 s1 bmp _ (setb byte (Z.lor (getb 0 bytes byte)
    (Z.shiftl 1 ((k - base) mod 8))) bytes) Hst1 Hh) as (s2 & s3 & H2 & H3 & Hst3).
  { rewrite length_setb. apply (st_len cap g V P s _ Hst). unfold bmp_pos in Hbr. by rewrite Hq in Hbr. }
  krun H2. krun H3. rewrite (u32_small k) by lia.
  destruct (st_get cap g _ P s3 (k * 512) Hst3) as (d & P2 & s4 & H4 & Hst4 & Hh4);
    [apply blk_range; lia|done|]. krun H4.
  destruct (st_put cap g _ P P2 s4 d _ (replicate (Z.to_nat 512) 0) Hst4 Hh4)
    as (s5 & s6 & H5 & H6 & Hst6); [apply length_replicate|].
  krun H5. krun H6. exists s6. split; [by rewrite u32_small by lia|].
  unfold alloc_view, set_bit, bmp_pos, KTFS_BLKSZ. rewrite Hq, <- Hy, <- Hr. exact Hst6.
Qed.

(** The lowest available block from bitmap block [b] on, or none. *)
Lemma alloc_scan_st g V P s b n :
  geom_ok g → st g V P s → (base.size P < 3)%nat → 0 ≤ b →
  b + Z.of_nat n = g_bitmap_block_count g →
  (∃ k s', b * 4096 ≤ k < g_block_count g ∧ avail (used V) (g_first_data_block g) k ∧
     none_avail (used V) (g_first_data_block g) (b * 4096) k ∧
     alloc_scan b n s = (Ret (k - g_first_data_block g), s') ∧ st g (alloc_view V k) P s') ∨
  (∃ s', none_avail (used V) (g_first_data_block g) (b * 4096) (g_block_count g) ∧
     alloc_scan b n s = (Fail (- ENOMEM), s') ∧ st g V P s').
Proof.
  revert b s. induction n as [|n IH]; intros b s Hg Hst HP Hb Hn.
  { right. exists s. split; [|done]. intros k Hk. pose proof (go_cover g Hg) as Hgcover. lia. }
  cbn [alloc_scan]. assert (0 ≤ b < g_bitmap_block_count g) as Hbr by lia.
  destruct (bmp_range g (b * 4096) Hg) as [Hr _]; [lia|].
  unfold bmp_pos in Hr. rewrite Z.div_mul in Hr by lia.
  destruct (st_get cap g V P s _ Hst Hr HP) as (bmp & P1 & s1 & H1 & Hst1 & Hh). krun H1.
  destruct (st_load cap g V P P1 s1 bmp _ Hst1 Hh) as [Hl _]. krun Hl. kgets. cbv zeta. unfold id.
  rewrite (st_field cap g_first_data_block g V P1 s1), (st_field cap g_block_count g V P1 s1) by done.
  pose proof (scan_block_ok g V P s b Hg Hst Hbr) as Hscan.
  destruct (st_release cap g V P P1 s1 bmp _ Hst1 Hh) as (s2 & H2 & Hst2).
  destruct (scan_bytes _ _ _ _ _) as [| |k] eqn:Hsb; simpl in Hscan.
  - krun H2. destruct (IH (b + 1) s2 Hg Hst2 HP) as [(k & s' & ? & ? & ? & ? & ?)|(s' & ? & ? & ?)];
      [lia|lia|left; exists k, s'|right; exists s']; split_and!; try done; try lia;
      by eapply none_avail_app.
  - krun H2. right. exists s2. split_and!; [|done|done]. destruct Hscan as (k & ? & ? & ? & Hno).
    intros j Hj. apply Hno. lia.
  - destruct Hscan as (Hk & [Hfree Hfirst] & Htot & Hno). left.
    destruct (alloc_hit g V P s bmp P1 s1 b k Hg Hst1 Hh Hst HP Hk Hbr) as (s' & Hrun & Hst'); [lia|].
    exists k, s'. split_and!; [lia|lia|done|done|exact Hrun|done].
Qed.

(** C22. [alloc_data_block] is a lowest-first allocator over the bitmap: when
    a data block is free it returns the lowest one, marks exactly that block
    used, zero-fills it and changes no block outside the bitmap and the
    block itself; the superblock, the bitmap and the inode table are never
    handed out.  When no data block is free it fails with -ENOMEM and
    changes nothing. *)
Theorem alloc_data_block_lowest g V P s :
  geom_ok g → st g V P s → (base.size P < 3)%nat →
  (∃ k V' s', alloc_data_block s = (Ret (k - g_first_data_block g), s') ∧ st g V' P s' ∧
     g_first_data_block g ≤ k < g_block_count g ∧ used V k = false ∧
     (∀ j, g_first_data_block g ≤ j < k → used V j = true) ∧
     (∀ j, 0 ≤ j < 4096 * g_bitmap_block_count g →
        used V' j = if decide (j = k) then true else used V j) ∧
     V' (data_blk_to_pos g (k - g_first_data_block g)) = zero_block ∧
     (∀ p, p ≠ data_blk_to_pos g (k - g_first_data_block g) → p ≠ bmp_pos k → V' p = V p)) ∨
  (∃ s', alloc_data_block s = (Fail (- ENOMEM), s') ∧ st g V P s' ∧
     ∀ j, g_first_data_block g ≤ j < g_block_count g → used V j = true).
Proof.
  intros Hg Hst HP. unfold alloc_data_block. kgets.
  rewrite (st_field cap g_bitmap_block_count g V P s) by done.
  pose proof (go_bmp g Hg) as Hgbmp. pose proof (go_first g Hg) as Hgfirst. pose proof (go_cover g Hg) as Hgcover. pose proof (go_lim g Hg) as Hglim.
  assert (∀ lo hi, none_avail (used V) (g_first_data_block g) lo hi → lo ≤ g_first_data_block g →
            ∀ j, g_first_data_block g ≤ j < hi → used V j = true) as Hall.
  { intros lo hi Hno Hlo j Hj. destruct (used V j) eqn:E; [done|]. destruct (Hno j); [lia|].
    split; [done|lia]. }
  destruct (alloc_scan_st g V P s 0 (Z.to_nat (g_bitmap_block_count g)) Hg Hst HP)
    as [(k & s' & Hk & [Hfree Hfirst] & Hno & Hrun & Hst')|(s' & Hno & Hrun & Hst')]; [lia|lia|left|right].
  - assert (data_blk_to_pos g (k - g_first_data_block g) = k * KTFS_BLKSZ) as Hpos.
    { unfold data_blk_to_pos. rewrite u32_small; [f_equal; lia|lia]. }
    assert (∀ j, 0 ≤ j < 4096 * g_bitmap_block_count g → bmp_pos j ≠ k * KTFS_BLKSZ) as Hnb.
    { intros j Hj. rewrite (proj2 (bmp_range g j Hg Hj)). unfold KTFS_BLKSZ.
      assert (j / 4096 < g_bitmap_block_count g) by (Z.div_mod_to_equations; lia). lia. }
    exists k, (alloc_view V k), s'. rewrite Hpos. split_and!; [done|done|lia|lia|done| | | |].
    + apply (Hall 0); [done|lia].
    + intros j Hj. rewrite <- (used_set_bit g true V P s k j Hg Hst) by lia.
      unfold used, alloc_view, upd. by rewrite decide_False by auto.
    + unfold alloc_view, upd. by rewrite decide_True.
    + intros p Hp Hb. unfold alloc_view, set_bit, upd. by rewrite !decide_False.
  - exists s'. split_and!; [done|done|]. apply (Hall 0); [done|lia].
Qed.

(** [free_data_block] clears exactly the bit of its block and changes no
    other block; a block number past the bitmap is refused with -EINVAL. *)
Lemma free_data_block_exact g V P s idx :
  geom_ok g → st g V P s → (base.size P < 3)%nat → 0 ≤ idx →
  g_first_data_block g + idx < 2 ^ 32 →
  let k := g_first_data_block g + idx in
  if decide (k < 4096 * g_bitmap_block_count g) then
    ∃ V' s', free_data_block idx s = (Ret tt, s') ∧ st g V' P s' ∧
      (∀ j, 0 ≤ j < 4096 * g_bitmap_block_count g →
         used V' j = if decide (j = k) then false else used V j) ∧
      (∀ p, p ≠ bmp_pos k → V' p = V p)
  else free_data_block idx s = (Fail (- EINVAL), s).
Proof.
  intros Hg Hst HP Hi Hlim k. pose proof (go_first g Hg) as Hgfirst. pose proof (go_bmp g Hg) as Hgbmp.
  unfold free_data_block. kgets. unfold id.
  rewrite (st_field cap g_first_data_block g V P s), (st_field cap g_bitmap_block_count g V P s) by done.
  cbv zeta. rewrite (u32_small (g_first_data_block g + idx)) by lia. fold k. unfold KTFS_BLKSZ.
  assert (k / 8 / 512 = k / 4096 ∧ k / 8 mod 512 = k mod 4096 / 8) as [-> ->]
    by (Z.div_mod_to_equations; lia).
  case_decide as Hk.
  2: { rewrite (proj2 (Z.leb_le _ _)); [done|]. Z.div_mod_to_equations; lia. }
  rewrite (proj2 (Z.leb_gt _ _)) by (Z.div_mod_to_equations; lia).
  destruct (bmp_range g k Hg) as [Hr _]; [lia|].
  destruct (st_get cap g V P s _ Hst Hr HP) as (bmp & P1 & s1 & H1 & Hst1 & Hh).
  change (u32 (1 + k / 4096) * 512) with (bmp_pos k). krun H1.
  destruct (st_load cap g V P P1 s1 bmp _ Hst1 Hh) as [Hl _]. krun Hl.
  destruct (st_put cap g V P P1 s1 bmp _ (set_bit false V k (bmp_pos k)) Hst1 Hh)
    as (s2 & s3 & H2 & H3 & Hst3).
  { unfold set_bit, upd. rewrite decide_True by done. rewrite length_setb. by apply (st_len cap g V P s). }
  assert (set_bit false V k (bmp_pos k) =
    setb (k mod 4096 / 8) (Z.land (getb 0 (V (bmp_pos k)) (k mod 4096 / 8))
      (u8 (Z.lnot (Z.shiftl 1 (k mod 8))))) (V (bmp_pos k))) as <-.
  { unfold set_bit, upd. by rewrite decide_True. }
  krun H2. rewrite H3. exists (set_bit false V k), s3. split_and!; [done| | |].
  - eapply st_proper; [|done|done|exact Hst3]. intros q. unfold set_bit, upd. by repeat case_decide.
  - intros j Hj. apply (used_set_bit g false V P s); [done|done|lia|done].
  - intros p Hp. unfold set_bit, upd. by rewrite decide_False.
Qed.
End bitmap.
