(* ===== verification/KtfsDir.v ===== *)
(** * KTFS: the root directory

    The directory as a list of entries; lookup, open and create against the
    interface [BlockCache]. *)

From S2P Require Import Prelude Config Io Cache Ktfs KtfsProofs.
Import Ktfs.

(** ** Names *)

(** The C string at the start of a buffer. *)
Fixpoint cstr (l : list Z) : list Z :=
  match l with
  | [] => []
  | x :: r => if x =? 0 then [] else x :: cstr r
  end.

(** The name comparison loop compares C strings, up to [n] characters. *)
Lemma name_match_cstr a b n :
  Forall (λ x, x ≠ 0) b → name_match a b n = bool_decide (take n (cstr a) = take n b).
Proof.
  intros Hb. revert a b Hb. induction n as [|n IH]; intros a b Hb; [done|].
  assert (cstr a = [] ∧ default 0 (head a) = 0 ∨
          ∃ x r, a = x :: r ∧ x ≠ 0 ∧ cstr a = x :: cstr r) as [[Ha H0]|(x & r & -> & Hx & Ha)].
  { destruct a as [|x r]; [by left|]. simpl. destruct (x =? 0) eqn:E; kbool; [by left|right; eauto]. }
  - cbn [name_match]. rewrite Ha, H0. destruct Hb as [|y b Hy Hb]; cbn [head default].
    + by rewrite bool_decide_true.
    + rewrite (proj2 (Z.eqb_neq 0 _)) by (simpl; auto). by rewrite bool_decide_false.
  - cbn [name_match]. rewrite Ha. change (default 0 (head (x :: r))) with x.
    change (tail (x :: r)) with r. rewrite (proj2 (Z.eqb_neq x 0)) by done.
    destruct Hb as [|y b Hy Hb].
    + change (default 0 (head [])) with 0. rewrite (proj2 (Z.eqb_neq x 0)) by done.
      by rewrite bool_decide_false.
    + change (default 0 (head (y :: b))) with y. change (tail (y :: b)) with b. simpl take.
      destruct (x =? y) eqn:E; kbool; simpl.
      * subst. rewrite IH by done. apply bool_decide_ext. split; congruence.
      * rewrite bool_decide_false; [done|]. congruence.
Qed.

(** The first entry whose name is [name]. *)
Definition names (name : list Z) (de : ktfs_dir_entry) : Prop :=
  take 14 (cstr (de_name de)) = take 14 name.
#[global] Instance names_dec name de : Decision (names name de) := list_eq_dec _ _.

Fixpoint dir_lookup (name : list Z) (l : list ktfs_dir_entry) : option Z :=
  match l with
  | [] => None
  | de :: r => if decide (names name de) then Some (de_inode de) else dir_lookup name r
  end.

Lemma dir_lookup_app name l1 l2 :
  dir_lookup name (l1 ++ l2) =
  match dir_lookup name l1 with Some x => Some x | None => dir_lookup name l2 end.
Proof. induction l1 as [|de l1 IH]; simpl; [done|]. by case_decide. Qed.

Section dir.
Context {C : Type} `{BlockCache C} (cap : Z).
Implicit Types (g s : fs C) (V : Z → list Z) (P : gmap nat (Z * nat)).
Notation st := (st cap).
Notation no_pins := (∅ : gmap nat (Z * nat)).

Lemma no_pins_lt : (base.size no_pins < 3)%nat.
Proof. rewrite map_size_empty. lia. Qed.

(** Entry [i] of a directory whose logical block [b] is data block [bm b]. *)
Definition dentry_at g V (bm : Z → Z) (i : Z) : ktfs_dir_entry :=
  dentry_of_bytes (slice (i * KTFS_DENSZ mod KTFS_BLKSZ) KTFS_DENSZ
    (V (data_blk_to_pos g (bm (i * KTFS_DENSZ / KTFS_BLKSZ))))).

Definition dir_from g V bm (d : Z) (n : nat) : list ktfs_dir_entry :=
  (λ i : nat, dentry_at g V bm (d + Z.of_nat i)) <$> seq 0 n.

(** The entries of the root directory. *)
Definition directory g V bm : list ktfs_dir_entry :=
  dir_from g V bm 0 (Z.to_nat (size (inode_at g V (g_root_inode_idx g)) / KTFS_DENSZ)).

Lemma dir_from_S g V bm d n :
  dir_from g V bm d (S n) = dentry_at g V bm d :: dir_from g V bm (d + 1) n.
Proof.
  unfold dir_from. cbn [seq fmap list_fmap]. rewrite Z.add_0_r. f_equal.
  rewrite <- fmap_S_seq, <- list_fmap_compose. apply list_fmap_ext. intros i x _. simpl. f_equal. lia.
Qed.

Lemma dir_from_snoc g V bm d n :
  dir_from g V bm d (S n) = dir_from g V bm d n ++ [dentry_at g V bm (d + Z.of_nat n)].
Proof. unfold dir_from. rewrite seq_S, fmap_app. done. Qed.

(** The root directory is readable: its inode is in the inode table's range
    and its block map covers its size. *)
Definition root_ok g V bm : Prop :=
  let root := inode_at g V (g_root_inode_idx g) in
  blk_in_range cap (inode_pos g (g_root_inode_idx g)) ∧
  0 ≤ size root < 2 ^ 32 ∧ maps_to cap g V root bm (size root).

Lemma find_dentry_from_st g V s name root bm d n sz :
  st g V ∅ s → Forall (λ x, x ≠ 0) name → 0 ≤ d → (d + Z.of_nat n) * KTFS_DENSZ ≤ sz → sz < 2 ^ 32 →
  maps_to cap g V root bm sz →
  ∃ s', find_dentry_from name root d n s =
          (match dir_lookup name (dir_from g V bm d n) with
           | Some idx => Ret idx
           | None => Fail (- ENOENT)
           end, s') ∧ st g V ∅ s'.
Proof.
  intros Hst Hname. revert d s Hst. induction n as [|n IH]; intros d s Hst Hd Hle Hsz Hmap.
  { exists s. done. }
  unfold KTFS_DENSZ in Hle. cbn [find_dentry_from].
  destruct (Hmap (d * KTFS_DENSZ / KTFS_BLKSZ)) as [Hmb Hbk];
    [unfold KTFS_DENSZ, KTFS_BLKSZ; Z.div_mod_to_equations; lia..|].
  rewrite (u32_small (d * KTFS_DENSZ / KTFS_BLKSZ)) by
    (unfold KTFS_DENSZ, KTFS_BLKSZ; Z.div_mod_to_equations; lia).
  destruct (resolve_block_st cap g V ∅ s root _ _ Hst Hmb no_pins_lt) as (s1 & H1 & Hst1). krun H1. kgets.
  rewrite (st_field cap (λ s, data_blk_to_pos s _) g V ∅ s1) by done.
  destruct (st_get cap g V ∅ s1 _ Hst1 Hbk no_pins_lt) as (b & P1 & s2 & H2 & Hst2 & Hh). krun H2.
  destruct (st_load cap g V ∅ P1 s2 b _ Hst2 Hh) as [Hl _]. krun Hl.
  destruct (st_release cap g V ∅ P1 s2 b _ Hst2 Hh) as (s3 & H3 & Hst3).
  rewrite dir_from_S. cbn [dir_lookup]. rewrite name_match_cstr by done.
  change (Z.to_nat (KTFS_MAX_FILENAME_LEN + 1)) with 14%nat.
  case_bool_decide as Hm.
  - krun H3. exists s3. split; [|done]. rewrite decide_True; [done|exact Hm].
  - krun H3. rewrite decide_False by exact Hm. apply IH; try done; [lia|]. unfold KTFS_DENSZ. lia.
Qed.

Lemma find_dentry_st g V s name bm :
  st g V ∅ s → root_ok g V bm → Forall (λ x, x ≠ 0) name →
  ∃ s', find_dentry name s =
          (match dir_lookup name (directory g V bm) with
           | Some idx => Ret idx
           | None => Fail (- ENOENT)
           end, s') ∧ st g V ∅ s'.
Proof.
  intros Hst (Hr & Hsz & Hmap) Hname. unfold find_dentry. kgets.
  rewrite (st_field cap g_root_inode_idx g V ∅ s) by done.
  destruct (read_inode_st cap g V ∅ s _ Hst Hr no_pins_lt) as (s1 & H1 & Hst1). krun H1.
  unfold directory. apply find_dentry_from_st with (size (inode_at g V (g_root_inode_idx g)));
    try done; [|lia].
  rewrite Z2Nat.id by (apply Z.div_pos; unfold KTFS_DENSZ; lia).
  unfold KTFS_DENSZ. Z.div_mod_to_equations; lia.
Qed.

(** C25. [ktfs_open], on a mounted file system with a readable root directory
    and whatever name: -ENOENT when no entry has the name, -ENOMEM when it
    exists and all open-file slots are taken; otherwise the lowest free slot
    is filled with the first matching entry's inode number and its size, with
    one reference, and no other slot and no block changes. *)
Theorem ktfs_open_correct g V s bm name :
  st g V ∅ s → root_ok g V bm → Forall (λ x, x ≠ 0) name →
  (∀ idx, dir_lookup name (directory g V bm) = Some idx → blk_in_range cap (inode_pos g idx)) →
  ∃ r s' files, ktfs_open (Some name) true s = (r, s') ∧ st (with_files g files) V ∅ s' ∧
    match dir_lookup name (directory g V bm) with
    | None => r = Fail (- ENOENT) ∧ files = g_open_files g
    | Some idx =>
        match findi (λ f, negb (in_use f)) (g_open_files g) with
        | None => r = Fail (- ENOMEM) ∧ files = g_open_files g
        | Some slot =>
            r = Ret slot ∧
            ∃ f, files = <[slot := f]> (g_open_files g) ∧ in_use f = true ∧ f_refcnt f = 1 ∧
                 inode_idx f = idx ∧ f_size f = size (inode_at g V idx)
        end
    end.
Proof.
  intros Hst Hroot Hname Hidx. unfold ktfs_open. cbn [negb]. kgets.
  assert (∀ s, st g V ∅ s → st (with_files g (g_open_files g)) V ∅ s) as Hsame.
  { intros ? (c & -> & ?). exists c. by destruct g. }
  assert (bool_decide (is_Some (g_cache s)) = true) as ->
    by (destruct Hst as (c & -> & _); by apply bool_decide_true).
  cbn [negb]. destruct (find_dentry_st g V s name bm Hst Hroot Hname) as (s1 & H1 & Hst1).
  destruct (dir_lookup name (directory g V bm)) as [idx|].
  2: { exists (Fail (- ENOENT)), s1, (g_open_files g). rewrite (bind_fail _ _ _ _ _ H1). auto. }
  krun H1. kgets. rewrite (st_field cap g_open_files g V ∅ s1) by done.
  destruct (findi _ (g_open_files g)) as [slot|].
  2: { exists (Fail (- ENOMEM)), s1, (g_open_files g). auto. }
  destruct (read_inode_st cap g V ∅ s1 _ Hst1 (Hidx idx eq_refl) no_pins_lt) as (s2 & H2 & Hst2).
  krun H2. kgets. unfold set_file, modify.
  destruct Hst2 as (c & -> & Hc). eexists _, _, _. split; [reflexivity|].
  split; [exists c; split; [reflexivity|done]|].
  split; [done|]. eexists. split; [reflexivity|]. done.
Qed.

(** ** Free inodes *)

(** What [find_free_inode] accepts: an all-zero slot other than the root. *)
Definition free_slot g V (idx : Z) : bool :=
  (negb (idx =? g_root_inode_idx g) && all_zero (slice (inode_off idx) KTFS_INOSZ (V (inode_pos g idx))))%bool.

Lemma scan_inodes_spec root blk d i n (free : Z → bool) :
  0 ≤ blk → 0 ≤ i → i + Z.of_nat n ≤ 16 → (blk + 1) * 16 ≤ 2 ^ 16 →
  (∀ j, i ≤ j < 16 → free (blk * 16 + j) =
     (negb (blk * 16 + j =? root) && all_zero (slice (j * KTFS_INOSZ) KTFS_INOSZ d))%bool) →
  match scan_inodes root blk d i n with
  | Some idx => blk * 16 + i ≤ idx < blk * 16 + i + Z.of_nat n ∧ free idx = true ∧
                ∀ j, blk * 16 + i ≤ j < idx → free j = false
  | None => ∀ j, blk * 16 + i ≤ j < blk * 16 + i + Z.of_nat n → free j = false
  end.
Proof.
  intros Hb. revert i. induction n as [|n IH]; intros i Hi Hn Hlim Hf; [intros j Hj; lia|].
  cbn [scan_inodes]. change (KTFS_BLKSZ / KTFS_INOSZ) with 16. rewrite u16_small by lia.
  pose proof (Hf i ltac:(lia)) as Hfi.
  assert (free (blk * 16 + i) = false →
    match scan_inodes root blk d (i + 1) n with
    | Some idx => blk * 16 + i ≤ idx < blk * 16 + i + Z.of_nat (S n) ∧ free idx = true ∧
                  ∀ j, blk * 16 + i ≤ j < idx → free j = false
    | None => ∀ j, blk * 16 + i ≤ j < blk * 16 + i + Z.of_nat (S n) → free j = false
    end) as Hskip.
  { intros Hno. specialize (IH (i + 1)). destruct (scan_inodes root blk d (i + 1) n) as [idx|].
    - destruct IH as (H1 & H2 & H3); [lia..|intros; apply Hf; lia|]. split_and!; [lia..|done|].
      intros j Hj. destruct (decide (j = blk * 16 + i)) as [->|]; [done|]. apply H3. lia.
    - intros j Hj. destruct (decide (j = blk * 16 + i)) as [->|]; [done|].
      apply IH; [lia..|intros; apply Hf; lia|lia]. }
  destruct (blk * 16 + i =? root); [by apply Hskip|].
  destruct (all_zero _); [|by apply Hskip]. split_and!; [lia..|done|]. intros; lia.
Qed.

(** The inode table lies in front of the data area, inside the device. *)
Record table_ok g : Prop := {
  to_first : 0 ≤ g_first_inode_block g;
  to_count : 0 ≤ g_inode_block_count g;
  to_lim : g_inode_block_count g * 16 ≤ 2 ^ 16;
  to_data : g_first_data_block g = g_first_inode_block g + g_inode_block_count g;
  to_small : g_first_inode_block g + 2 ^ 12 ≤ 2 ^ 32;
  to_cap : g_first_data_block g * KTFS_BLKSZ ≤ cap
}.

Lemma inode_pos_table g idx :
  table_ok g → 0 ≤ idx < g_inode_block_count g * 16 →
  blk_in_range cap (inode_pos g idx) ∧ inode_pos g idx = (g_first_inode_block g + idx / 16) * 512 ∧
  inode_pos g idx < g_first_data_block g * 512.
Proof.
  intros [] Hi. unfold inode_pos, KTFS_BLKSZ, KTFS_INOSZ in *. change (512 / 32) with 16.
  assert (0 ≤ idx / 16 < g_inode_block_count g) by (Z.div_mod_to_equations; lia).
  rewrite u32_small by lia. split_and!; [|done|lia].
  unfold blk_in_range, CACHE_BLKSZ. rewrite Z.mod_mul by lia. lia.
Qed.

Lemma free_slot_block g V blk j :
  0 ≤ j < 16 →
  free_slot g V (blk * 16 + j) =
  (negb (blk * 16 + j =? g_root_inode_idx g) &&
   all_zero (slice (j * KTFS_INOSZ) KTFS_INOSZ (V (inode_pos g (blk * 16)))))%bool.
Proof.
  intros Hj. unfold free_slot, inode_off, inode_pos. change (KTFS_BLKSZ / KTFS_INOSZ) with 16.
  rewrite Z.div_add_l, (Z.div_small j), Z.add_0_r, Z.div_mul by lia.
  by rewrite Z.add_comm, Z.mod_add, Z.mod_small by lia.
Qed.

Lemma find_free_inode_from_st g V s blk n :
  table_ok g → st g V ∅ s → 0 ≤ blk → blk + Z.of_nat n = g_inode_block_count g →
  (∃ idx s', find_free_inode_from blk n s = (Ret idx, s') ∧ st g V ∅ s' ∧
     blk * 16 ≤ idx < g_inode_block_count g * 16 ∧ free_slot g V idx = true ∧
     ∀ j, blk * 16 ≤ j < idx → free_slot g V j = false) ∨
  (∃ s', find_free_inode_from blk n s = (Fail (- ENOMEM), s') ∧ st g V ∅ s' ∧
     ∀ j, blk * 16 ≤ j < g_inode_block_count g * 16 → free_slot g V j = false).
Proof.
  intros Ht. revert blk s. induction n as [|n IH]; intros blk s Hst Hb Hn.
  { right. exists s. split_and!; [done|done|]. intros; lia. }
  cbn [find_free_inode_from]. kgets. unfold id.
  rewrite (st_field cap g_first_inode_block g V ∅ s) by done.
  rewrite (st_field cap g_root_inode_idx g V ∅ s) by done.
  destruct (inode_pos_table g (blk * 16) Ht) as (Hr & Hp & _); [lia|].
  assert (inode_pos g (blk * 16) = u32 (g_first_inode_block g + blk) * KTFS_BLKSZ) as Hpos.
  { unfold inode_pos. change (KTFS_BLKSZ / KTFS_INOSZ) with 16. by rewrite Z.div_mul by lia. }
  rewrite <- Hpos.
  destruct (st_get cap g V ∅ s _ Hst Hr no_pins_lt) as (b & P1 & s1 & H1 & Hst1 & Hh). krun H1.
  destruct (st_load cap g V ∅ P1 s1 b _ Hst1 Hh) as [Hl _]. krun Hl.
  destruct (st_release cap g V ∅ P1 s1 b _ Hst1 Hh) as (s2 & H2 & Hst2). krun H2.
  change (Z.to_nat (KTFS_BLKSZ / KTFS_INOSZ)) with 16%nat. pose proof (to_lim g Ht) as Hlim.
  pose proof (scan_inodes_spec (g_root_inode_idx g) blk (V (inode_pos g (blk * 16))) 0 16
    (free_slot g V)) as Hs.
  destruct (scan_inodes _ _ _ _ _) as [idx|].
  - left. destruct Hs as (? & ? & ?); [lia..| |exists idx, s2; split_and!; try done; try lia].
    + intros j Hj. by apply free_slot_block.
    + intros j Hj. auto with lia.
  - assert (∀ j, blk * 16 ≤ j < (blk + 1) * 16 → free_slot g V j = false) as Hno.
    { intros j Hj. apply Hs; [lia..| |lia].
      intros k Hk. by apply free_slot_block. }
    destruct (IH (blk + 1) s2 Hst2) as [(idx & s' & Hrun & Hst' & ? & ? & Hleast)|(s' & Hrun & Hst' & Hall)];
      [lia|lia|left; exists idx, s'|right; exists s']; split_and!; try done; try lia;
      intros j Hj; destruct (decide (j < (blk + 1) * 16)); auto with lia.
Qed.

(** ** Creating a file *)

Definition padded (name : list Z) : list Z := name ++ replicate (14 - length name) 0.

Lemma dentry_roundtrip idx nm :
  0 ≤ idx < 2 ^ 16 → length nm = 14%nat →
  dentry_of_bytes (bytes_of_dentry (DirEntry idx nm)) = DirEntry idx nm.
Proof.
  intros Hi Hn. unfold dentry_of_bytes, bytes_of_dentry. simpl de_inode. simpl de_name. f_equal.
  - unfold slice. rewrite Z2Nat.inj_0, drop_0. rewrite (take_app_length' _ _ 2) by (by rewrite length_le_bytes).
    by apply le_val_bytes_small.
  - unfold slice. rewrite drop_app_length' by (by rewrite length_le_bytes). by apply take_ge; lia.
Qed.

Lemma length_bytes_of_dentry de : length (de_name de) = 14%nat → length (bytes_of_dentry de) = 16%nat.
Proof. intros Hn. unfold bytes_of_dentry. rewrite length_app, length_le_bytes. lia. Qed.

Lemma cstr_padded name : Forall (λ x, x ≠ 0) name → cstr (padded name) = name.
Proof.
  intros Hn. unfold padded. generalize (14 - length name)%nat as k. intros k.
  induction Hn as [|x l Hx Hl IH]; simpl; [by destruct k|].
  rewrite (proj2 (Z.eqb_neq x 0)) by done. by rewrite IH.
Qed.

(** The directory lies in its direct blocks, has room in the last of them, so
    that no block has to be allocated, and its blocks are data blocks of their
    own. *)
Record dir_room g V bm : Prop := {
  dr_root : 0 ≤ g_root_inode_idx g < g_inode_block_count g * 16;
  dr_wf : inode_wf (inode_at g V (g_root_inode_idx g));
  dr_mult : size (inode_at g V (g_root_inode_idx g)) mod KTFS_DENSZ = 0;
  dr_partial : size (inode_at g V (g_root_inode_idx g)) mod KTFS_BLKSZ ≠ 0;
  dr_direct : 0 ≤ size (inode_at g V (g_root_inode_idx g)) < 3 * KTFS_BLKSZ;
  dr_data lb : 0 ≤ lb → lb * KTFS_BLKSZ < size (inode_at g V (g_root_inode_idx g)) →
    0 ≤ bm lb ∧ g_first_data_block g + bm lb < 2 ^ 32;
  dr_inj lb lb' : 0 ≤ lb → lb * KTFS_BLKSZ < size (inode_at g V (g_root_inode_idx g)) →
    0 ≤ lb' → lb' * KTFS_BLKSZ < size (inode_at g V (g_root_inode_idx g)) →
    bm lb = bm lb' → lb = lb'
}.

Lemma data_pos_nowrap g b :
  table_ok g → 0 ≤ b → g_first_data_block g + b < 2 ^ 32 →
  data_blk_to_pos g b = (g_first_data_block g + b) * 512.
Proof.
  intros Ht Hb Hl. unfold data_blk_to_pos. pose proof (to_data g Ht). pose proof (to_first g Ht).
  pose proof (to_count g Ht). by rewrite u32_small by lia.
Qed.

Lemma resolve_existing ino lb al s :
  0 ≤ lb < 3 → 0 ≤ size ino < 2 ^ 31 → lb * 512 < size ino →
  resolve_or_alloc (C := C) ino lb al s = (Ret (ino, getb 0 (block ino) lb), s).
Proof.
  intros Hlb Hsz Hin. unfold resolve_or_alloc, KTFS_NUM_DIRECT_DATA_BLOCKS, KTFS_BLKSZ.
  rewrite (proj2 (Z.ltb_lt lb 3)), u32_small by lia.
  rewrite (proj2 (Z.ltb_lt lb _)) by (Z.div_mod_to_equations; lia). done.
Qed.

(** The block store that [ktfs_create] leaves. *)
Definition created g V bm (idx : Z) (name : list Z) : Z → list Z :=
  let r := g_root_inode_idx g in
  let root := inode_at g V r in
  let V1 := put_inode g V idx zero_inode in
  let p := data_blk_to_pos g (bm (size root / KTFS_BLKSZ)) in
  let V2 := upd V1 p (splice (size root mod KTFS_BLKSZ)
              (bytes_of_dentry (DirEntry idx (padded name))) (V1 p)) in
  put_inode g V2 r (with_size root (size root + KTFS_DENSZ)).

Section create.
Context g V s (bm : Z → Z) (idx : Z) (name : list Z).
Context (Hst : st g V ∅ s) (Ht : table_ok g) (Hroot : root_ok g V bm) (Hroom : dir_room g V bm).
Context (Hidx : 0 ≤ idx < g_inode_block_count g * 16) (Hne : idx ≠ g_root_inode_idx g).
Context (Hname : Forall (λ x, x ≠ 0) name) (Hlen : (1 ≤ length name ≤ 13)%nat).

Let r := g_root_inode_idx g.
Let root := inode_at g V r.
Let last := size root / KTFS_BLKSZ.
Let p := data_blk_to_pos g (bm last).

Lemma root_facts :
  0 < size root < 1536 ∧ size root mod 16 = 0 ∧ 0 ≤ last < 3 ∧ last * 512 < size root ∧
  bm last = getb 0 (block root) last ∧ blk_in_range cap p.
Proof.
  destruct Hroom as [_ _ Hm Hp Hd _ _]. destruct Hroot as (_ & _ & Hmap). fold r root in Hm, Hp, Hd, Hmap.
  unfold last, KTFS_BLKSZ, KTFS_DENSZ in *.
  assert (0 < size root) as Hpos by (assert (size root ≠ 0) by (intros E; rewrite E in Hp; done); lia).
  assert (size root / 512 * 512 < size root ∧ 0 ≤ size root / 512 < 3) as [Hl Hr3]
    by (Z.div_mod_to_equations; lia).
  destruct (Hmap (size root / 512)) as [Hmb Hbk]; [lia|done|].
  split_and!; try done; try lia. inversion Hmb; subst; [done|lia|lia].
Qed.

Lemma data_inode_ne lb idx' :
  0 ≤ lb → lb * 512 < size root → 0 ≤ idx' < g_inode_block_count g * 16 →
  data_blk_to_pos g (bm lb) ≠ inode_pos g idx'.
Proof.
  intros Hl Hs Hi. destruct (dr_data g V bm Hroom lb Hl Hs) as [Hb1 Hb2].
  rewrite (data_pos_nowrap g _ Ht Hb1 Hb2). destruct (inode_pos_table g idx' Ht Hi) as (_ & _ & Hlt). lia.
Qed.

Lemma root_kept : inode_at g (put_inode g V idx zero_inode) r = root.
Proof.
  destruct (inode_pos_table g idx Ht Hidx) as (Hr & _). pose proof (to_lim g Ht). destruct (dr_root g V bm Hroom).
  apply inode_at_put_other; try lia; [by apply (st_len cap g V ∅ s)|apply (to_first g Ht)|apply (to_small g Ht)].
Qed.

Lemma create_run :
  dir_lookup name (directory g V bm) = None →
  (∀ s1, st g V ∅ s1 → ∃ s2, find_free_inode s1 = (Ret idx, s2) ∧ st g V ∅ s2) →
  ∃ s', ktfs_create (Some name) s = (Ret tt, s') ∧ st g (created g V bm idx name) ∅ s'.
Proof.
  intros Hnodup Hfree. destruct root_facts as (Hsz & Hm16 & Hl3 & Hlt & Hbm & Hpr).
  unfold ktfs_create. kgets.
  assert (bool_decide (is_Some (g_cache s)) = true) as ->
    by (destruct Hst as (c & -> & _); by apply bool_decide_true).
  cbn [negb]. change KTFS_MAX_FILENAME_LEN with 13.
  rewrite (proj2 (Z.eqb_neq _ 0)), (proj2 (Z.ltb_ge 13 _)) by lia. cbn [orb].
  destruct (find_dentry_st g V s name bm Hst Hroot Hname) as (s1 & H1 & Hst1). rewrite Hnodup in H1.
  rewrite (bind_ret _ _ _ _ _ (attempt_fail _ _ _ _ H1)).
  destruct (Hfree s1 Hst1) as (s2 & H2 & Hst2). krun H2.
  destruct (inode_pos_table g idx Ht Hidx) as (Hri & _).
  destruct (write_inode_st cap g V ∅ s2 idx zero_inode Hst2 Hri no_pins_lt) as (s3 & H3 & Hst3). krun H3.
  kgets. rewrite (st_field cap g_root_inode_idx g _ ∅ s3) by done. fold r.
  destruct (inode_pos_table g r Ht (dr_root g V bm Hroom)) as (Hrr & _).
  destruct (read_inode_st cap g _ ∅ s3 r Hst3 Hrr no_pins_lt) as (s4 & H4 & Hst4).
  rewrite root_kept in H4. krun H4.
  assert (size root / KTFS_DENSZ * KTFS_DENSZ = size root) as ->
    by (unfold KTFS_DENSZ; Z.div_mod_to_equations; lia).
  rewrite (u32_small (size root)) by lia. fold last.
  rewrite (bind_ret _ _ _ _ _ (resolve_existing root last true s4 ltac:(lia) ltac:(lia) ltac:(lia))).
  rewrite <- Hbm. kgets. rewrite (st_field cap (λ s, data_blk_to_pos s (bm last)) g _ ∅ s4) by done. fold p.
  destruct (st_get cap g _ ∅ s4 p Hst4 Hpr no_pins_lt) as (d & P1 & s5 & H5 & Hst5 & Hh). krun H5.
  destruct (st_load cap g _ ∅ P1 s5 d _ Hst5 Hh) as [Hl _]. krun Hl.
  destruct (st_put cap g _ ∅ P1 s5 d _ (splice (size root mod KTFS_BLKSZ)
    (bytes_of_dentry (DirEntry idx (padded name))) (put_inode g V idx zero_inode p)) Hst5 Hh)
    as (s6 & s7 & H6 & H7 & Hst7).
  { rewrite length_splice; rewrite (st_len cap g _ ∅ s4 p Hst4 Hpr); [done|].
    rewrite length_bytes_of_dentry by (simpl; unfold padded; rewrite length_app, length_replicate; lia).
    unfold CACHE_BLKSZ, KTFS_BLKSZ. Z.div_mod_to_equations; lia. }
  fold (padded name). krun H6. krun H7.
  rewrite (u32_small (size root + KTFS_DENSZ)) by (unfold KTFS_DENSZ; lia).
  destruct (write_inode_st cap g _ ∅ s7 r (with_size root (size root + KTFS_DENSZ)) Hst7 Hrr no_pins_lt)
    as (s8 & H8 & Hst8). krun H8.
  unfold flush_ignored. destruct (st_flush cap g _ ∅ s8 Hst8) as (s9 & H9 & Hst9). krun H9.
  exists s9. split; [done|exact Hst9].
Qed.

Lemma len_V q : blk_in_range cap q → length (V q) = 512%nat.
Proof. intros Hq. by apply (st_len cap g V ∅ s). Qed.

(** Data blocks of the directory after the call. *)
Lemma created_data lb :
  0 ≤ lb → lb * 512 < size root →
  created g V bm idx name (data_blk_to_pos g (bm lb)) =
  if decide (lb = last)
  then splice (size root mod 512) (bytes_of_dentry (DirEntry idx (padded name))) (V p)
  else V (data_blk_to_pos g (bm lb)).
Proof.
  intros Hl Hs. destruct root_facts as (Hsz & _ & Hl3 & Hlt & _).
  unfold created. cbv zeta. fold r root. unfold put_inode, upd at 1.
  rewrite (decide_False (P := _ = inode_pos g r)) by (apply data_inode_ne; [done|done|apply (dr_root g V bm Hroom)]).
  fold last p. unfold upd at 1. destruct (decide (lb = last)) as [->|Hneq].
  - fold p. rewrite decide_True by done. unfold upd.
    by rewrite decide_False by (apply data_inode_ne; [lia|done|done]).
  - rewrite decide_False.
    + unfold upd. by rewrite decide_False by (apply data_inode_ne; done).
    + destruct (dr_data g V bm Hroom lb Hl Hs) as [Hb1 Hb2].
      destruct (dr_data g V bm Hroom last ltac:(lia) Hlt) as [Hb3 Hb4].
      unfold p. rewrite (data_pos_nowrap g _ Ht Hb1 Hb2), (data_pos_nowrap g _ Ht Hb3 Hb4).
      intros E. apply Hneq, (dr_inj g V bm Hroom); [done|done|lia|done|lia].
Qed.

(** The inode table between the two inode writes. *)
Lemma mid_inodes W idx' :
  0 ≤ idx' < g_inode_block_count g * 16 →
  let V2 := upd (put_inode g V idx zero_inode) p W in
  inode_at g V2 idx' = inode_at g (put_inode g V idx zero_inode) idx' ∧
  length (V2 (inode_pos g idx')) = Z.to_nat CACHE_BLKSZ.
Proof.
  intros Hi V2. destruct root_facts as (_ & _ & Hl3 & Hlt & _).
  assert (V2 (inode_pos g idx') = put_inode g V idx zero_inode (inode_pos g idx')) as E.
  { unfold V2, upd at 1. rewrite decide_False; [done|]. apply not_eq_sym, data_inode_ne; [lia|done|done]. }
  split; [unfold inode_at; by rewrite E|]. rewrite E. unfold put_inode, upd.
  assert (length (V (inode_pos g idx)) = Z.to_nat CACHE_BLKSZ) as Hlv
    by (apply len_V, (inode_pos_table g idx Ht Hidx)).
  destruct (decide _) as [_|_]; [|apply len_V, (inode_pos_table g idx' Ht Hi)].
  rewrite length_splice; [done|]. rewrite Hlv, length_bytes_of_inode.
  pose proof (inode_off_range idx). change (Z.to_nat CACHE_BLKSZ) with 512%nat. lia.
Qed.

(** Inodes after the call. *)
Lemma created_inode idx' :
  0 ≤ idx' < g_inode_block_count g * 16 →
  inode_at g (created g V bm idx name) idx' =
  if decide (idx' = r) then with_size root (size root + 16)
  else if decide (idx' = idx) then zero_inode else inode_at g V idx'.
Proof.
  intros Hi. destruct root_facts as (Hsz & _). pose proof (to_lim g Ht) as Hlim.
  pose proof (dr_root g V bm Hroom) as Hr. pose proof (to_first g Ht) as Hf. pose proof (to_small g Ht) as Hs.
  unfold created. cbv zeta. fold r root. fold last p.
  set (W := splice _ _ _). destruct (mid_inodes W r Hr) as [_ Hlr].
  fold r in Hr. case_decide as Hd.
  - subst idx'. apply inode_at_put_same; [done|].
    destruct (dr_wf g V bm Hroom) as [Hw1 Hw3]. split; [done|]. fold r root in Hw3.
    apply Forall_cons in Hw3 as [_ Hw3]. apply Forall_cons. split; [|exact Hw3].
    change (0 ≤ size root + 16 < 2 ^ 32). lia.
  - rewrite inode_at_put_other; [|done|lia|lia|lia|lia|congruence].
    rewrite (proj1 (mid_inodes W idx' Hi)).
    assert (length (V (inode_pos g idx)) = Z.to_nat CACHE_BLKSZ) as Hlv
      by (apply len_V, (inode_pos_table g idx Ht Hidx)).
    case_decide as Hd2; [subst; apply inode_at_put_same; [done|]|apply inode_at_put_other; [done|lia..]].
    split; [done|]. cbn. repeat (apply Forall_cons; split; [lia|]). apply Forall_nil_2.
Qed.

Lemma dentry_at_created i :
  0 ≤ i → i * 16 ≤ size root →
  dentry_at g (created g V bm idx name) bm i =
  if decide (i * 16 = size root) then DirEntry idx (padded name) else dentry_at g V bm i.
Proof.
  intros Hi Hle. destruct root_facts as (Hsz & Hm & Hl3 & Hlt & _ & Hpr). pose proof (to_lim g Ht) as Hlim.
  unfold dentry_at, KTFS_DENSZ, KTFS_BLKSZ. unfold last, KTFS_BLKSZ in Hlt, Hl3.
  rewrite created_data by (Z.div_mod_to_equations; lia). unfold last, KTFS_BLKSZ.
  assert (length (bytes_of_dentry (DirEntry idx (padded name))) = 16%nat) as Hlb.
  { apply length_bytes_of_dentry. simpl. unfold padded. rewrite length_app, length_replicate. lia. }
  assert (size root mod 512 ≤ 496) by (Z.div_mod_to_equations; lia).
  pose proof (Z.mod_pos_bound (size root) 512 ltac:(lia)). pose proof (len_V p Hpr) as Hlp.
  destruct (decide (i * 16 = size root)) as [E|E].
  - rewrite E, decide_True by done. rewrite slice_splice_same by (rewrite Hlb; try rewrite Hlp; lia).
    apply dentry_roundtrip; [lia|]. unfold padded. rewrite length_app, length_replicate. lia.
  - destruct (decide (i * 16 / 512 = size root / 512)) as [Eq|]; [|done].
    rewrite slice_splice_other; [unfold p, last, KTFS_BLKSZ; by rewrite Eq|rewrite Hlb, Hlp; lia|].
    left. assert (i * 16 mod 512 + 16 ≤ size root mod 512) by (Z.div_mod_to_equations; lia).
    pose proof (Z.mod_pos_bound (i * 16) 512 ltac:(lia)). lia.
Qed.

Lemma created_directory :
  directory g (created g V bm idx name) bm = directory g V bm ++ [DirEntry idx (padded name)].
Proof.
  destruct root_facts as (Hsz & Hm & _). unfold directory. fold r. fold root.
  rewrite created_inode, decide_True by (try done; apply (dr_root g V bm Hroom)).
  change (size (with_size root (size root + 16))) with (size root + 1 * 16).
  unfold KTFS_DENSZ. rewrite Z.div_add by lia.
  rewrite Z2Nat.inj_add, Nat.add_1_r by (try apply Z.div_pos; lia).
  rewrite dir_from_snoc. f_equal.
  - apply list_fmap_ext. intros i x Hx. apply lookup_seq in Hx as [-> Hx].
    rewrite dentry_at_created by (Z.div_mod_to_equations; lia).
    rewrite decide_False by (Z.div_mod_to_equations; lia). done.
  - rewrite dentry_at_created by (Z.div_mod_to_equations; lia).
    rewrite decide_True by (Z.div_mod_to_equations; lia). done.
Qed.

Lemma created_root_ok : root_ok g (created g V bm idx name) bm.
Proof.
  destruct root_facts as (Hsz & Hm & Hl3 & Hlt & _). destruct Hroot as (Hr & _ & Hmap).
  pose proof (dr_partial g V bm Hroom) as Hp. fold r root in Hr, Hmap, Hp.
  unfold root_ok. fold r. rewrite created_inode, decide_True by (try done; apply (dr_root g V bm Hroom)).
  change (size (with_size root (size root + 16))) with (size root + 16).
  split_and!; [done|lia|lia|]. intros lb Hl0 Hl. unfold KTFS_BLKSZ in *.
  assert (lb * 512 < size root) as Hl' by (Z.div_mod_to_equations; lia).
  destruct (Hmap lb Hl0 Hl') as [Hmb Hbk]. split; [|done].
  assert (lb < 3) by lia. inversion Hmb; [|lia|lia].
  change (getb 0 (block root) lb) with (getb 0 (block (with_size root (size root + 16))) lb).
  apply map_direct. lia.
Qed.
End create.

Lemma find_free_inode_st g V s :
  table_ok g → st g V ∅ s →
  (∃ idx s', find_free_inode s = (Ret idx, s') ∧ st g V ∅ s' ∧
     0 ≤ idx < g_inode_block_count g * 16 ∧ free_slot g V idx = true ∧
     ∀ j, 0 ≤ j < idx → free_slot g V j = false) ∨
  (∃ s', find_free_inode s = (Fail (- ENOMEM), s') ∧ st g V ∅ s' ∧
     ∀ j, 0 ≤ j < g_inode_block_count g * 16 → free_slot g V j = false).
Proof.
  intros Ht Hst. unfold find_free_inode. kgets. rewrite (st_field cap g_inode_block_count g V ∅ s) by done.
  pose proof (to_count g Ht). apply (find_free_inode_from_st g V s 0); [done|done|lia|lia].
Qed.

(** C6. Create, then look up, in a root directory that is not empty, lies in
    its direct blocks and has room for an entry in its last block ([dir_room];
    at the end of a block the code is wrong, see
    [KtfsDemo.create_at_block_end_loses_a_file]): a new name of 1 to 13 bytes is
    appended as the last entry, bound to the lowest free inode, which becomes an
    empty file; every other entry and every other inode is as before; and a
    lookup of the name then finds it. *)
Theorem ktfs_create_correct g V s bm name :
  st g V ∅ s → table_ok g → root_ok g V bm → dir_room g V bm →
  Forall (λ x, x ≠ 0) name → (1 ≤ length name ≤ 13)%nat →
  dir_lookup name (directory g V bm) = None →
  (∃ i, 0 ≤ i < g_inode_block_count g * 16 ∧ free_slot g V i = true) →
  ∃ idx V' s', ktfs_create (Some name) s = (Ret tt, s') ∧ st g V' ∅ s' ∧
    (0 ≤ idx < g_inode_block_count g * 16 ∧ free_slot g V idx = true ∧
     ∀ j, 0 ≤ j < idx → free_slot g V j = false) ∧
    directory g V' bm = directory g V bm ++ [DirEntry idx (padded name)] ∧
    inode_at g V' idx = zero_inode ∧
    (∀ j, 0 ≤ j < g_inode_block_count g * 16 → j ≠ idx → j ≠ g_root_inode_idx g →
       inode_at g V' j = inode_at g V j) ∧
    (∃ s2, find_dentry name s' = (Ret idx, s2)).
Proof.
  intros Hst Ht Hroot Hroom Hname Hlen Hnodup (i & Hi & Hfi).
  destruct (find_free_inode_st g V s Ht Hst) as [(idx & _ & _ & _ & Hr & Hfree & Hleast)|(_ & _ & _ & Hno)];
    [|by rewrite Hno in Hfi by lia].
  assert (idx ≠ g_root_inode_idx g) as Hne.
  { intros ->. unfold free_slot in Hfree. by rewrite Z.eqb_refl in Hfree. }
  destruct (create_run g V s bm idx name Hst Ht Hroot Hroom Hr Hne Hname Hlen Hnodup) as (s' & Hrun & Hst').
  { intros s1 Hs1. destruct (find_free_inode_st g V s1 Ht Hs1)
      as [(idx' & s2 & Hrun & Hst2 & Hr' & Hfree' & Hleast')|(_ & _ & _ & Hno)]; [|by rewrite Hno in Hfree by lia].
    assert (idx' = idx) as ->; [|by exists s2].
    destruct (Z.lt_total idx' idx) as [Hlt|[?|Hlt]]; [|done|];
      [rewrite Hleast in Hfree'|rewrite Hleast' in Hfree]; done || lia. }
  pose proof (created_directory g V s bm idx name Hst Ht Hroot Hroom Hr Hne Hlen) as Hdir.
  exists idx, (created g V bm idx name), s'. split; [done|]. split; [done|].
  split; [done|]. split; [done|]. split_and!.
  - rewrite (created_inode g V s bm idx name), decide_False, decide_True; done || (intros ?; congruence).
  - intros j Hj Hj1 Hj2. rewrite (created_inode g V s bm idx name), !decide_False; done.
  - destruct (find_dentry_st g _ s' name bm Hst' (created_root_ok g V s bm idx name Hst Ht Hroot Hroom Hr Hne Hlen) Hname)
      as (s2 & H2 & _). exists s2. rewrite H2, Hdir, dir_lookup_app, Hnodup. simpl.
    rewrite decide_True; [done|]. unfold names. simpl. by rewrite cstr_padded.
Qed.

(** C26. [ktfs_create] refuses an empty name, a name longer than 13 bytes and
    a name that is already in the directory with -EINVAL, and reports -ENOMEM
    when no inode is free; in all these cases no block changes. *)
Theorem ktfs_create_refuses g V s bm name :
  st g V ∅ s → table_ok g → root_ok g V bm → Forall (λ x, x ≠ 0) name →
  ((length name = 0 ∨ 13 < length name)%nat ∨ is_Some (dir_lookup name (directory g V bm)) →
     ∃ s', ktfs_create (Some name) s = (Fail (- EINVAL), s') ∧ st g V ∅ s') ∧
  ((1 ≤ length name ≤ 13)%nat → dir_lookup name (directory g V bm) = None →
   (∀ j, 0 ≤ j < g_inode_block_count g * 16 → free_slot g V j = false) →
     ∃ s', ktfs_create (Some name) s = (Fail (- ENOMEM), s') ∧ st g V ∅ s').
Proof.
  intros Hst Ht Hroot Hname. unfold ktfs_create. kgets.
  assert (bool_decide (is_Some (g_cache s)) = true) as ->
    by (destruct Hst as (c & -> & _); by apply bool_decide_true).
  cbn [negb]. change KTFS_MAX_FILENAME_LEN with 13.
  destruct (find_dentry_st g V s name bm Hst Hroot Hname) as (s1 & H1 & Hst1). split.
  - intros Hbad. destruct ((Z.of_nat (length name) =? 0) || (13 <? Z.of_nat (length name)))%bool eqn:Hl.
    { by exists s. }
    destruct Hbad as [Hbad|[idx Hd]]; [kbool; lia|]. rewrite Hd in H1. krun H1. by exists s1.
  - intros Hlen Hd Hno. rewrite (proj2 (Z.eqb_neq _ 0)), (proj2 (Z.ltb_ge 13 _)) by lia. cbn [orb].
    rewrite Hd in H1. rewrite (bind_ret _ _ _ _ _ (attempt_fail _ _ _ _ H1)).
    destruct (find_free_inode_st g V s1 Ht Hst1) as [(idx & _ & _ & _ & Hr & Hfree & _)|(s2 & H2 & Hst2 & _)].
    + by rewrite Hno in Hfree by lia.
    + rewrite (bind_fail _ _ _ _ _ H2). by exists s2.
Qed.
End dir.
