(* ===== verification/KtfsDemo.v ===== *)
(** * KTFS: a concrete image

    A twelve-block image mounted through the cache over a memory endpoint:
    the properties of the driver instantiated at it, and the behaviours of
    the write side that the format document does not describe, evaluated on
    it. *)

From S2P Require Import Prelude Config Io Cache Ktfs KtfsProofs KtfsAlloc KtfsDir.
Import Ktfs.

Module KtfsDemo.

Definition pad (n : nat) (l : list Z) : list Z := l ++ replicate (n - length l) 0.

(** Block 0 superblock, 1 bitmap, 2 inodes, 3 root directory, 4 the file "a". *)
Definition image : list Z :=
  pad 512 (le_bytes 4 12 ++ le_bytes 4 1 ++ le_bytes 4 1 ++ le_bytes 2 0)
  ++ pad 512 [31]
  ++ pad 512 (bytes_of_inode (Inode 16 0 [0; 0; 0] 0 [0; 0])
              ++ bytes_of_inode (Inode 5 0 [1; 0; 0] 0 [0; 0]))
  ++ pad 512 (bytes_of_dentry (DirEntry 1 (pad 14 [97])))
  ++ pad 512 [104; 101; 108; 108; 111]
  ++ replicate (7 * 512) 0.

Definition endpoint : io memio := ioinit1 (MemIo image 6144) memio_iointf.
Definition fresh : Cache.cache memio := Cache.Cache endpoint (replicate Cache.CACHE_NENT Cache.zero_entry).

Definition mounted : fs (Cache.cache memio) := (ktfs_mount true (Some fresh) (unmounted _)).2.
Definition globals : fs (Cache.cache memio) :=
  mounted_globals fresh (superblock_of_bytes (view fresh 0)) (g_open_files (unmounted (Cache.cache memio))).

Lemma fresh_ok : bc_ok fresh ∧ bc_cap fresh = 6144 ∧ pins fresh = ∅.
Proof.
  destruct (Cache.fresh_agree (ops := memio_iointf) endpoint) as (Hok & HP & _);
    [done|split; [split|]; vm_compute; congruence|].
  split_and!; [exact Hok|reflexivity|exact HP].
Qed.

Lemma mounted_st : st 6144 globals (view fresh) ∅ mounted.
Proof.
  destruct fresh_ok as (Hok & Hc & HP).
  destruct (ktfs_mount_st 6144 fresh (unmounted _) Hok Hc HP) as (s' & Hm & Hst).
  - vm_compute. split_and!; congruence.
  - unfold mounted. rewrite Hm. exact Hst.
Qed.

(** "a" open in slot 0. *)
Definition opened : fs (Cache.cache memio) :=
  with_files globals (<[0%nat := File 1 1 5 true (pad 15 [97])]> (g_open_files globals)).

Lemma opened_eq : (ktfs_open (Some [97]) true mounted).1 = Ret 0%nat ∧
  g_open_files (ktfs_open (Some [97]) true mounted).2 = g_open_files opened.
Proof. vm_compute. done. Qed.

Lemma opened_st : st 6144 opened (view fresh) ∅ opened.
Proof. destruct fresh_ok as (? & ? & ?). exists fresh. split_and!; done || reflexivity. Qed.

Lemma in_range p : (0 <=? p) = true → (p mod 512 =? 0) = true → (p + 512 <=? 6144) = true → blk_in_range 6144 p.
Proof. intros. kbool. unfold blk_in_range, CACHE_BLKSZ. auto. Qed.

Ltac ranged := apply in_range; vm_compute; reflexivity.

Lemma ktfs_readat_correct_witness :
  ∃ s', ktfs_readat 0 1 10 opened = (Ret [101; 108; 108; 111], s') ∧ st 6144 opened (view fresh) ∅ s'.
Proof.
  assert (file_data opened (view fresh) (λ _, 1) 1 (Z.to_nat (readable 5 1 10)) = [101; 108; 108; 111])
    as <- by (vm_compute; reflexivity).
  apply (ktfs_readat_correct 6144 opened (view fresh) opened 0 (λ _, 1) 1 10).
  - exact opened_st.
  - ranged.
  - lia.
  - vm_compute. split; congruence.
  - intros lb Hlb Hlt. change (lb * 512 < 5) in Hlt. assert (lb = 0) as -> by lia. split; [|ranged].
    assert (inode_at opened (view fresh) 1 = Inode 5 0 [1; 0; 0] 0 [0; 0]) as E by (vm_compute; reflexivity).
    change (inode_idx (get_file opened 0)) with 1. rewrite E. by apply (map_direct 6144).
Defined.

Lemma inode_table_get_set_witness :
  ∃ V' s1, write_inode 1 (Inode 7 0 [1; 2; 0] 0 [0; 0]) mounted = (Ret tt, s1) ∧
    st 6144 globals V' ∅ s1 ∧
    (∃ s2, read_inode 1 s1 = (Ret (Inode 7 0 [1; 2; 0] 0 [0; 0]), s2) ∧ st 6144 globals V' ∅ s2).
Proof.
  destruct (inode_table_get_set 6144 globals (view fresh) mounted 1 (Inode 7 0 [1; 2; 0] 0 [0; 0]))
    as (V' & s1 & H1 & H2 & H3 & _ & _).
  - exact mounted_st.
  - ranged.
  - split; [done|]. simpl. repeat constructor; lia.
  - lia.
  - vm_compute. congruence.
  - vm_compute. congruence.
  - exists V', s1. split_and!; assumption.
Defined.

Lemma resolve_block_table_witness :
  (∃ s', resolve_block (Inode 5 0 [1; 0; 0] 0 [0; 0]) 0 mounted = (Ret 1, s') ∧
         st 6144 globals (view fresh) ∅ s') ∧
  resolve_block (Inode 5 0 [1; 0; 0] 0 [0; 0]) 40000 mounted = (Fail (- EINVAL), mounted).
Proof.
  split.
  - refine (proj1 (resolve_block_table 6144 globals (view fresh) mounted _ 0 mounted_st _) 1 _); [lia|].
    by apply (map_direct 6144).
  - apply (proj2 (resolve_block_table 6144 globals (view fresh) mounted _ 40000 mounted_st ltac:(lia))). lia.
Defined.

Lemma globals_geom : geom_ok 6144 globals.
Proof. split; vm_compute; try split; congruence. Qed.

Lemma alloc_data_block_lowest_witness :
  ∃ k s', alloc_data_block mounted = (Ret (k - g_first_data_block globals), s') ∧ k = 5.
Proof.
  destruct (alloc_data_block_lowest 6144 globals (view fresh) ∅ mounted globals_geom mounted_st)
    as [(k & V' & s' & Hrun & _ & Hk & Hfree & Hlow & _)|(s' & Hrun & _ & Hall)];
    [rewrite map_size_empty; lia| |].
  - exists k, s'. split; [exact Hrun|]. change (g_first_data_block globals) with 3 in *.
    assert (used (view fresh) 5 = false) as H5 by (vm_compute; reflexivity).
    assert (used (view fresh) 3 = true ∧ used (view fresh) 4 = true) as [H3 H4] by (vm_compute; done).
    destruct (Z.lt_trichotomy k 5) as [?|[?|Hgt]]; [|done|].
    + assert (k = 3 ∨ k = 4) as [->| ->] by lia; congruence.
    + specialize (Hlow 5 ltac:(lia)). congruence.
  - exfalso. specialize (Hall 5 ltac:(vm_compute; split; congruence)).
    assert (used (view fresh) 5 = false) as H5 by (vm_compute; reflexivity). congruence.
Defined.

Lemma free_data_block_exact_witness :
  ∃ V' s', free_data_block 1 mounted = (Ret tt, s') ∧ st 6144 globals V' ∅ s' ∧ used V' 4 = false.
Proof.
  assert (base.size (∅ : gmap nat (Z * nat)) < 3)%nat as HP by (rewrite map_size_empty; lia).
  pose proof (free_data_block_exact 6144 globals (view fresh) ∅ mounted 1 globals_geom mounted_st HP
    ltac:(lia) ltac:(vm_compute; congruence)) as H. cbv zeta in H.
  change (g_first_data_block globals + 1) with 4 in H.
  change (4096 * g_bitmap_block_count globals) with 4096 in H.
  rewrite decide_True in H by lia. destruct H as (V' & s' & H1 & H2 & H3 & _).
  exists V', s'. split_and!; [exact H1|exact H2|]. rewrite H3 by lia. done.
Defined.

Lemma root_inode : inode_at globals (view fresh) 0 = Inode 16 0 [0; 0; 0] 0 [0; 0].
Proof. vm_compute. reflexivity. Qed.

Lemma demo_root_ok : root_ok 6144 globals (view fresh) (λ _, 0).
Proof.
  unfold root_ok. change (g_root_inode_idx globals) with 0. rewrite root_inode. cbn [size].
  split_and!; [ranged|lia|lia|]. intros lb Hlb Hlt. unfold KTFS_BLKSZ in Hlt. assert (lb = 0) as -> by lia.
  split; [by apply (map_direct 6144)|ranged].
Qed.

Lemma demo_table : table_ok 6144 globals.
Proof. split; vm_compute; congruence. Qed.

Lemma demo_room : dir_room globals (view fresh) (λ _, 0).
Proof.
  split; change (g_root_inode_idx globals) with 0; rewrite ?root_inode; cbn [size]; unfold KTFS_BLKSZ.
  - vm_compute. split; congruence.
  - split; [done|]. simpl. repeat constructor; lia.
  - done.
  - done.
  - lia.
  - intros lb _ _. vm_compute. split; congruence.
  - intros; lia.
Qed.

Lemma demo_directory : directory globals (view fresh) (λ _, 0) = [DirEntry 1 (pad 14 [97])].
Proof. vm_compute. reflexivity. Qed.

Lemma ktfs_open_correct_witness :
  ∃ s' files, ktfs_open (Some [97]) true mounted = (Ret 0%nat, s') ∧
    st 6144 (with_files globals files) (view fresh) ∅ s' ∧
    ∃ f, files = <[0%nat := f]> (g_open_files globals) ∧ inode_idx f = 1 ∧ f_size f = 5.
Proof.
  destruct (ktfs_open_correct 6144 globals (view fresh) mounted (λ _, 0) [97] mounted_st demo_root_ok)
    as (r & s' & files & Hrun & Hst & Hr); [by repeat constructor| |].
  - rewrite demo_directory. intros idx [= <-]. ranged.
  - rewrite demo_directory in Hr. change (dir_lookup _ _) with (Some 1) in Hr.
    change (findi _ (g_open_files globals)) with (Some 0%nat) in Hr. cbn beta iota in Hr.
    destruct Hr as (-> & f & Hf & _ & _ & Hi & Hs). exists s', files. split_and!; [done|done|].
    exists f. split_and!; [done|done|]. rewrite Hs. vm_compute. reflexivity.
Defined.

Lemma ktfs_create_correct_witness :
  ∃ s' s2, ktfs_create (Some [98]) mounted = (Ret tt, s') ∧ find_dentry [98] s' = (Ret 2, s2).
Proof.
  destruct (ktfs_create_correct 6144 globals (view fresh) mounted (λ _, 0) [98] mounted_st demo_table
    demo_root_ok demo_room) as (idx & V' & s' & Hrun & _ & (Hidx & Hfree & Hleast) & _ & _ & _ & s2 & Hfind);
    [by repeat constructor|simpl; lia|by rewrite demo_directory| |].
  - exists 2. split; [vm_compute; split; congruence|vm_compute; reflexivity].
  - exists s', s2. split; [done|]. assert (idx = 2) as <-; [|done].
    assert (free_slot globals (view fresh) 2 = true) as H2 by (vm_compute; reflexivity).
    destruct (Z.lt_trichotomy idx 2) as [Hlt|[?|Hgt]]; [exfalso|done|].
    + assert (idx = 0 ∨ idx = 1) as [->| ->] by lia; revert Hfree; vm_compute; congruence.
    + rewrite Hleast in H2 by lia. done.
Defined.

Lemma ktfs_create_refuses_witness :
  (∃ s', ktfs_create (Some [97]) mounted = (Fail (- EINVAL), s') ∧ st 6144 globals (view fresh) ∅ s').
Proof.
  apply (proj1 (ktfs_create_refuses 6144 globals (view fresh) mounted (λ _, 0) [97] mounted_st demo_table
    demo_root_ok ltac:(by repeat constructor))).
  right. rewrite demo_directory. by exists 1.
Defined.

(** ** The write side, evaluated

    [w] is the state after creating and opening "b" (slot 0). *)
Definition created_b : fs (Cache.cache memio) := (ktfs_create (Some [98]) mounted).2.
Definition open_b : fs (Cache.cache memio) := (ktfs_open (Some [98]) true created_b).2.

(** A three-byte write to an empty file is counted, but the on-disk size is
    rounded up to the block and the cached size stays zero, so a read through
    the same endpoint returns nothing. *)
Theorem write_then_read_returns_nothing :
  let w := ktfs_writeat 0 0 [1; 2; 3] 3 open_b in
  w.1 = Ret 3 ∧ size <$> (match (read_inode 2 w.2).1 with Ret i => Some i | _ => None end) = Some 512 ∧
  (ktfs_readat 0 0 3 w.2).1 = Ret [].
Proof. vm_compute. done. Qed.

(** A write that starts past the end leaves the skipped direct pointers zero,
    which is data block 0, the root directory: a later write to the hole goes
    to the directory, and "a" is lost. *)
Theorem sparse_write_hits_root_directory :
  let w := (ktfs_writeat 0 1024 [1; 2; 3] 3 open_b).2 in
  (find_dentry [97] w).1 = Ret 1 ∧
  (find_dentry [97] (ktfs_writeat 0 2 [120] 1 w).2).1 = Fail (- ENOENT).
Proof. vm_compute. done. Qed.

(** Extending an empty file with IOCTL_SETEND makes data block 0 readable
    through it: the bytes are not zero but the root directory's. *)
Theorem setend_extend_exposes_root_directory :
  let w := (ktfs_cntl 0 IOCTL_SETEND (Some 4) open_b).2 in
  (ktfs_readat 0 0 4 w).1 = Ret [1; 0; 97; 0].
Proof. vm_compute. done. Qed.

(** Two creates in a row bind both names to the same inode: a fresh file's
    inode is all zero, which is the mark of a free one. *)
Theorem two_creates_share_an_inode :
  let w := (ktfs_create (Some [99]) created_b).2 in
  (find_dentry [98] w).1 = Ret 2 ∧ (find_dentry [99] w).1 = Ret 2.
Proof. vm_compute. done. Qed.

(** The same image with a root directory that fills its block: 32 entries with
    the names of one byte from 64 on, all bound to inode 1. *)
Definition full_image : list Z :=
  pad 512 (le_bytes 4 12 ++ le_bytes 4 1 ++ le_bytes 4 1 ++ le_bytes 2 0)
  ++ pad 512 [31]
  ++ pad 512 (bytes_of_inode (Inode 512 0 [0; 0; 0] 0 [0; 0])
              ++ bytes_of_inode (Inode 5 0 [1; 0; 0] 0 [0; 0]))
  ++ mjoin ((λ i, bytes_of_dentry (DirEntry 1 (pad 14 [64 + Z.of_nat i]))) <$> seq 0 32)
  ++ pad 512 [104; 101; 108; 108; 111]
  ++ replicate (7 * 512) 0.
Definition full_mounted : fs (Cache.cache memio) :=
  (ktfs_mount true (Some (Cache.Cache (ioinit1 (MemIo full_image 6144) memio_iointf) (replicate Cache.CACHE_NENT Cache.zero_entry)))
     (unmounted _)).2.

(** Where [ktfs_create_correct] asks for room in the last block: at the end of
    a block, [resolve_or_alloc] has raised the size of the directory to the end
    of the new block when the size of an entry is added, so 33 entries appear
    for one create, the last of them in a block that does not exist; the next
    create writes its entry through the pointer of that block, which is 0, over
    the second entry of the directory, and that file is lost. *)
Theorem create_at_block_end_loses_a_file :
  let w1 := ktfs_create (Some [1]) full_mounted in
  let w2 := ktfs_create (Some [2]) w1.2 in
  w1.1 = Ret tt ∧ size <$> (match (read_inode 0 w1.2).1 with Ret i => Some i | _ => None end) = Some (2 * 512 + 16) ∧
  (find_dentry [65] w1.2).1 = Ret 1 ∧ w2.1 = Ret tt ∧ (find_dentry [65] w2.2).1 = Fail (- ENOENT).
Proof. vm_compute. done. Qed.
End KtfsDemo.
