(* ===== verification/PhysPages.v ===== *)
(** * Physical page allocator (kernel/memory.c)

    Physical memory is a map from 8-aligned addresses to 64-bit words; a word
    that was never written is 0.  Free pages form a linked list of chunks whose
    headers ([next], [pagecnt]) are the first two words of the chunk itself,
    exactly as in the source. *)

From S2P Require Import Prelude Config.

Module PhysPages.

(** The memory and the globals of memory.c, with the [satp] register. *)
Record mm := Mm { words : gmap Z Z; free_chunk_list : Z; satp : Z; main_mtag : Z }.

Definition NULL : Z := 0.

Definition rd (m : gmap Z Z) (a : Z) : Z := default 0 (m !! a).
Definition wr (m : gmap Z Z) (a v : Z) : gmap Z Z := <[a := v]> m.

Definition with_words (s : mm) (m : gmap Z Z) : mm := Mm m (free_chunk_list s) (satp s) (main_mtag s).
Definition with_list (s : mm) (p : Z) : mm := Mm (words s) p (satp s) (main_mtag s).

(** ** struct page_chunk *)

Definition next (m : gmap Z Z) (c : Z) : Z := rd m c.
Definition pagecnt (m : gmap Z Z) (c : Z) : Z := rd m (c + 8).

(** A [struct page_chunk **]: the list head, or the [next] field of a chunk. *)
Inductive link := LHead | LNext (c : Z).

Definition get_link (s : mm) (l : link) : Z :=
  match l with LHead => free_chunk_list s | LNext c => next (words s) c end.
Definition set_link (s : mm) (l : link) (v : Z) : mm :=
  match l with LHead => with_list s v | LNext c => with_words s (wr (words s) c v) end.

(** The number of pages of RAM bounds the length of the list. *)
Definition LIST_FUEL : nat := S (Z.to_nat (RAM_SIZE / PAGE_SIZE)).

(** The search loop: the best chunk so far and the link to it. *)
Fixpoint find_best (fuel : nat) (s : mm) (cnt : Z) (l : link) (best : option (link * Z))
  : option (option (link * Z)) :=
  match fuel with
  | O => None
  | S fuel =>
      let c := get_link s l in
      if c =? NULL then Some best
      else
        let best :=
          if cnt <=? pagecnt (words s) c then
            match best with
            | None => Some (l, c)
            | Some (_, b) =>
                if pagecnt (words s) c <? pagecnt (words s) b then Some (l, c) else best
            end
          else best in
        find_best fuel s cnt (LNext c) best
  end.

Definition alloc_phys_pages (cnt : Z) : M mm Z := λ s,
  if cnt =? 0 then (Ret NULL, s)
  else
    match find_best LIST_FUEL s cnt LHead None with
    | None => (NoFuel, s)
    | Some None => (Ret NULL, s)
    | Some (Some (best_link, best)) =>
        let m := words s in
        if cnt <? pagecnt m best then
          let remainder := best + cnt * PAGE_SIZE in
          let m := wr m remainder (next m best) in
          let m := wr m (remainder + 8) (pagecnt m best - cnt) in
          (Ret best, set_link (with_words s m) best_link remainder)
        else (Ret best, set_link s best_link (next m best))
    end.

Definition free_phys_pages (pp cnt : Z) : M mm unit := λ s,
  if ((pp =? NULL) || (cnt =? 0))%bool then (Ret tt, s)
  else
    let m := wr (words s) (pp + 8) cnt in
    let m := wr m pp (free_chunk_list s) in
    (Ret tt, with_list (with_words s m) pp).

Definition alloc_phys_page : M mm Z := alloc_phys_pages 1.
Definition free_phys_page (pp : Z) : M mm unit := free_phys_pages pp 1.

Fixpoint count_from (fuel : nat) (m : gmap Z Z) (c total : Z) : option Z :=
  match fuel with
  | O => None
  | S fuel => if c =? NULL then Some total
              else count_from fuel m (next m c) (u64 (total + pagecnt m c))
  end.

Definition free_phys_page_count (s : mm) : option Z :=
  count_from LIST_FUEL (words s) (free_chunk_list s) 0.

(** ** The list of chunks *)

(** [chain m p l]: the chunks from [p] are [l], as (address, page count). *)
Fixpoint chain (m : gmap Z Z) (p : Z) (l : list (Z * Z)) : Prop :=
  match l with
  | [] => p = NULL
  | (a, n) :: r => p = a ∧ a ≠ NULL ∧ pagecnt m a = n ∧ chain m (next m a) r
  end.

Definition page (a : Z) (i : nat) : Z := a + Z.of_nat i * PAGE_SIZE.
Definition block (a n : Z) : list Z := page a <$> seq 0 (Z.to_nat n).
Definition pages (l : list (Z * Z)) : list Z := l ≫= λ '(a, n), block a n.

(** RAM, as the page numbers that may be handed out. *)
Definition in_ram (a : Z) : Prop :=
  a mod PAGE_SIZE = 0 ∧ RAM_START_PMA ≤ a < RAM_END_PMA.

Record chunks_ok (l : list (Z * Z)) : Prop := {
  ck_pos : Forall (λ c, 0 < c.2) l;
  ck_nodup : NoDup (pages l);
  ck_ram : Forall in_ram (pages l)
}.

(** The invariant: the free list is [l]. *)
Definition free_list_is (s : mm) (l : list (Z * Z)) : Prop :=
  chain (words s) (free_chunk_list s) l ∧ chunks_ok l.

Lemma elem_of_block a n x :
  x ∈ block a n ↔ ∃ i, 0 ≤ i < n ∧ x = a + i * PAGE_SIZE.
Proof.
  unfold block, page. rewrite list_elem_of_fmap. split.
  - intros (i & -> & Hi). apply elem_of_seq in Hi. exists (Z.of_nat i). split; [lia|done].
  - intros (i & Hi & ->). exists (Z.to_nat i). rewrite elem_of_seq, Z2Nat.id by lia. split; [done|lia].
Qed.

Lemma block_split a n k :
  0 ≤ k ≤ n → block a n = block a k ++ block (a + k * PAGE_SIZE) (n - k).
Proof.
  intros Hk. unfold block. replace (Z.to_nat n) with (Z.to_nat k + Z.to_nat (n - k))%nat by lia.
  rewrite seq_app, fmap_app. f_equal. simpl.
  replace (seq (Z.to_nat k) (Z.to_nat (n - k))) with ((λ i, Z.to_nat k + i)%nat <$> seq 0 (Z.to_nat (n - k)))
    by (rewrite fmap_add_seq; f_equal; lia).
  rewrite <- list_fmap_compose. apply list_fmap_ext. intros i x _. unfold page. simpl.
  change PAGE_SIZE with 4096. lia.
Qed.

Lemma length_block a n : length (block a n) = Z.to_nat n.
Proof. unfold block. by rewrite length_fmap, length_seq. Qed.

Lemma head_in_block a n : 0 < n → a ∈ block a n.
Proof. intros. apply elem_of_block. exists 0. lia. Qed.

Lemma pages_app l1 l2 : pages (l1 ++ l2) = pages l1 ++ pages l2.
Proof. apply bind_app. Qed.

Lemma pages_cons a n l : pages ((a, n) :: l) = block a n ++ pages l.
Proof. done. Qed.

Lemma head_in_pages l a n : Forall (λ c : Z * Z, 0 < c.2) l → (a, n) ∈ l → a ∈ pages l.
Proof.
  intros Hpos Hin. apply list_elem_of_bind. exists (a, n). split; [|done].
  apply head_in_block. by apply (proj1 (Forall_forall _ _) Hpos _ Hin).
Qed.

(** A chain depends only on its headers. *)
Lemma chain_frame m m' p l :
  (∀ a n, (a, n) ∈ l → rd m' a = rd m a ∧ rd m' (a + 8) = rd m (a + 8)) →
  chain m p l → chain m' p l.
Proof.
  revert p. induction l as [|[a n] l IH]; intros p Hf; simpl; [done|].
  intros (-> & Ha & Hn & Hc). destruct (Hf a n) as [H1 H2]; [by left|].
  unfold next, pagecnt in *. rewrite H1, H2. split_and!; try done. apply IH; [|done].
  intros b k Hb. apply (Hf b k). by right.
Qed.

Lemma rd_wr_eq m a v : rd (wr m a v) a = v.
Proof. unfold rd, wr. by rewrite lookup_insert_eq. Qed.
Lemma rd_wr_ne m a b v : a ≠ b → rd (wr m a v) b = rd m b.
Proof. intros. unfold rd, wr. by rewrite lookup_insert_ne. Qed.

(** ** The search *)

Definition link_before (l : list (Z * Z)) : link :=
  match last l with None => LHead | Some (a, _) => LNext a end.

Lemma link_before_snoc l a n : link_before (l ++ [(a, n)]) = LNext a.
Proof. unfold link_before. by rewrite last_snoc. Qed.

(** [best] is the first of the smallest chunks of [l] with [cnt] pages. *)
Definition best_of (m : gmap Z Z) (cnt : Z) (l : list (Z * Z)) (best : option (link * Z)) : Prop :=
  match best with
  | None => ∀ c, c ∈ l → c.2 < cnt
  | Some (lk, b) =>
      ∃ l1 n l2, l = l1 ++ (b, n) :: l2 ∧ lk = link_before l1 ∧ pagecnt m b = n ∧ cnt ≤ n ∧
        (∀ c, c ∈ l → cnt ≤ c.2 → n ≤ c.2) ∧ (∀ c, c ∈ l1 → cnt ≤ c.2 → n < c.2)
  end.

Lemma best_of_snoc_small m cnt l a n best :
  n < cnt → best_of m cnt l best → best_of m cnt (l ++ [(a, n)]) best.
Proof.
  intros Hn. destruct best as [[lk b]|]; simpl.
  - intros (l1 & k & l2 & -> & -> & Hk & Hc & Hmin & Hfst).
    exists l1, k, (l2 ++ [(a, n)]). split; [by rewrite <- app_assoc|]. split_and!; try done.
    intros c [Hc'| ->%list_elem_of_singleton]%elem_of_app Hle; [by apply Hmin|simpl in *; lia].
  - intros Hall c [Hc| ->%list_elem_of_singleton]%elem_of_app; [by apply Hall|done].
Qed.

Lemma best_of_snoc_keep m cnt l a n lk b :
  pagecnt m b ≤ n → best_of m cnt l (Some (lk, b)) → best_of m cnt (l ++ [(a, n)]) (Some (lk, b)).
Proof.
  intros Hn (l1 & k & l2 & -> & -> & Hk & Hc & Hmin & Hfst).
  exists l1, k, (l2 ++ [(a, n)]). split; [by rewrite <- app_assoc|]. split_and!; try done.
  intros c [Hc'| ->%list_elem_of_singleton]%elem_of_app Hle; [by apply Hmin|simpl in *; lia].
Qed.

Lemma best_of_snoc_new m cnt l a n best :
  cnt ≤ n → pagecnt m a = n → best_of m cnt l best →
  (∀ lk b, best = Some (lk, b) → n < pagecnt m b) →
  best_of m cnt (l ++ [(a, n)]) (Some (link_before l, a)).
Proof.
  intros Hc Ha Hb Hnew. assert (∀ c, c ∈ l → cnt ≤ c.2 → n < c.2) as Hall.
  { intros c Hin Hle. destruct best as [[lk b]|].
    - specialize (Hnew lk b eq_refl). destruct Hb as (l1 & k & l2 & -> & -> & Hk & _ & Hmin & _).
      specialize (Hmin c Hin Hle). lia.
    - specialize (Hb c Hin). lia. }
  exists l, n, []. split_and!; try done.
  intros c [Hin| ->%list_elem_of_singleton]%elem_of_app Hle; [specialize (Hall c Hin Hle); lia|done].
Qed.

Lemma find_best_spec s cnt fuel l1 l2 best :
  (length l2 < fuel)%nat → chain (words s) (get_link s (link_before l1)) l2 →
  best_of (words s) cnt l1 best →
  ∃ best', find_best fuel s cnt (link_before l1) best = Some best' ∧
           best_of (words s) cnt (l1 ++ l2) best'.
Proof.
  revert fuel l1 best. induction l2 as [|[a n] l2 IH]; intros fuel l1 best Hf Hc Hb;
    (destruct fuel as [|fuel]; [simpl in Hf; lia|]); cbn [find_best].
  - simpl in Hc. rewrite Hc. exists best. rewrite app_nil_r. done.
  - simpl in Hc. destruct Hc as (Hp & Ha & Hn & Hc). rewrite Hp.
    rewrite (proj2 (Z.eqb_neq a NULL)) by done. rewrite Hn.
    rewrite <- (link_before_snoc l1 a n). replace (l1 ++ (a, n) :: l2) with ((l1 ++ [(a, n)]) ++ l2)
      by (by rewrite <- app_assoc).
    apply IH; [simpl in Hf; lia|by rewrite link_before_snoc|].
    destruct (cnt <=? n) eqn:Hle; kbool; [|by apply best_of_snoc_small].
    destruct best as [[lk b]|].
    + destruct (n <? pagecnt (words s) b) eqn:Hlt; kbool.
      * eapply best_of_snoc_new; [done|done|exact Hb|]. intros ? ? [= <- <-]. done.
      * apply best_of_snoc_keep; [lia|done].
    + by eapply best_of_snoc_new.
Qed.

(** ** Rewiring the list *)

Lemma chain_app_replace s l1 x l2 v l2' :
  chain (words s) (free_chunk_list s) (l1 ++ x :: l2) →
  (∀ a n, (a, n) ∈ l1 → (∀ b k, (b, k) ∈ l1 → b ≠ a + 8)) →
  NoDup (l1.*1) →
  chain (words (set_link s (link_before l1) v)) v l2' →
  chain (words (set_link s (link_before l1) v)) (free_chunk_list (set_link s (link_before l1) v)) (l1 ++ l2').
Proof.
  destruct l1 as [|[a n] l1 _] using rev_ind; [done|].
  rewrite link_before_snoc. simpl. intros Hc Hsep Hnd Hv. rewrite <- app_assoc. simpl.
  rewrite fmap_app in Hnd. apply NoDup_app in Hnd as (_ & Hdis & _). rewrite <- app_assoc in Hc. simpl in Hc.
  assert (∀ b k, (b, k) ∈ l1 → b ≠ a) as Hba.
  { intros b k Hb ->. apply (Hdis a); [apply list_elem_of_fmap; by exists (a, k)|by left]. }
  assert (∀ b k, (b, k) ∈ l1 ++ [(a, n)] → a ≠ b + 8) as Hs8.
  { intros b k Hb. apply (Hsep b k Hb a n). apply elem_of_app. right. by left. }
  clear Hdis Hsep. revert Hc. generalize (free_chunk_list s) as p. induction l1 as [|[b k] l1 IH]; intros p; simpl.
  - intros (-> & Ha & Hn & _). unfold pagecnt, next in *. rewrite rd_wr_eq.
    rewrite rd_wr_ne by (apply (Hs8 a n); by left). done.
  - intros (-> & Hb & Hk & Hc). unfold pagecnt, next in *.
    rewrite (rd_wr_ne _ a b) by (apply not_eq_sym, (Hba b k); by left).
    rewrite (rd_wr_ne _ a (b + 8)) by (apply (Hs8 b k); by left). split_and!; try done.
    apply IH; [intros b' k' Hin; apply (Hba b' k'); by right|intros b' k' Hin; apply (Hs8 b' k'); by right|done].
Qed.

(** ** Consequences of the invariant *)

Definition page_of (a : Z) : Z := ROUND_DOWN a PAGE_SIZE.

Lemma page_of_header a : a mod PAGE_SIZE = 0 → page_of a = a ∧ page_of (a + 8) = a.
Proof. unfold page_of, ROUND_DOWN. change PAGE_SIZE with 4096. intros. Z.div_mod_to_equations. lia. Qed.

Lemma ram_headers a b : in_ram a → in_ram b → b ≠ a + 8 ∧ (a ≠ b → a + 8 ≠ b + 8 ∧ a + 8 ≠ b).
Proof. intros [Ha _] [Hb _]. change PAGE_SIZE with 4096 in *. Z.div_mod_to_equations. lia. Qed.

Lemma ck_head l a n : chunks_ok l → (a, n) ∈ l → in_ram a ∧ 0 < n.
Proof.
  intros [Hp _ Hr] Hin. split; [|by apply (proj1 (Forall_forall _ _) Hp _ Hin)].
  apply (proj1 (Forall_forall _ _) Hr). by eapply head_in_pages.
Qed.

Lemma ck_app l1 l2 : chunks_ok (l1 ++ l2) → chunks_ok l1 ∧ chunks_ok l2.
Proof.
  intros [Hp Hn Hr]. rewrite pages_app in *. apply Forall_app in Hp as [? ?], Hr as [? ?].
  apply NoDup_app in Hn as (? & _ & ?). by split; split.
Qed.

Lemma ck_heads_nodup l : chunks_ok l → NoDup (l.*1).
Proof.
  induction l as [|[a n] l IH]; intros Hok; [constructor|].
  destruct (ck_app [(a, n)] l Hok) as [_ Hl]. cbn [fmap list_fmap]. apply NoDup_cons. split; [|by apply IH].
  intros ([b k] & Heq & Hin)%list_elem_of_fmap. simpl in Heq. subst b. destruct Hok as [Hp Hn _].
  rewrite pages_cons in Hn. apply NoDup_app in Hn as (_ & Hdis & _). simpl in Hdis.
  apply (Hdis a); [apply head_in_block; by inversion Hp|]. eapply head_in_pages; [by destruct Hl|done].
Qed.

Lemma length_pages_ge l : Forall (λ c : Z * Z, 0 < c.2) l → (length l ≤ length (pages l))%nat.
Proof.
  induction 1 as [|[a n] l Hn _ IH]; [simpl; lia|]. rewrite pages_cons, length_app, length_block. simpl in *. lia.
Qed.

Lemma ram_block a : in_ram a → a ∈ block RAM_START_PMA (RAM_SIZE / PAGE_SIZE).
Proof.
  intros [Ha Hr]. apply elem_of_block. change PAGE_SIZE with 4096 in *.
  change (RAM_SIZE / 4096) with 2048. unfold RAM_END_PMA, RAM_SIZE, RAM_START_PMA in *.
  exists ((a - 2147483648) / 4096). Z.div_mod_to_equations. lia.
Qed.

(** Disjoint chunks of RAM: the list is shorter than the fuel. *)
Lemma ck_length l : chunks_ok l → (length l < LIST_FUEL)%nat.
Proof.
  intros [Hp Hn Hr]. unfold LIST_FUEL. apply Nat.lt_succ_r.
  transitivity (length (pages l)); [by apply length_pages_ge|].
  rewrite <- (length_block RAM_START_PMA). apply submseteq_length, NoDup_submseteq; [done|].
  intros x Hx. apply ram_block. by apply (proj1 (Forall_forall _ _) Hr).
Qed.

Lemma ck_perm l l' : Forall (λ c : Z * Z, 0 < c.2) l' → (∃ b, pages l ≡ₚ b ++ pages l') → chunks_ok l → chunks_ok l'.
Proof.
  intros Hp [b Hperm] [_ Hn Hr]. split; [done|..].
  - rewrite Hperm in Hn. by apply NoDup_app in Hn as (_ & _ & ?).
  - rewrite Hperm in Hr. by apply Forall_app in Hr as [_ ?].
Qed.

(** What is left of chunk [(a, n)] when its first [cnt] pages are taken. *)
Definition rest (a n cnt : Z) : list (Z * Z) :=
  if cnt <? n then [(a + cnt * PAGE_SIZE, n - cnt)] else [].

Lemma rest_pages a n cnt : 0 < cnt ≤ n → block a n = block a cnt ++ pages (rest a n cnt).
Proof.
  intros Hc. unfold rest. destruct (cnt <? n) eqn:E; kbool.
  - rewrite (block_split a n cnt) by lia. simpl. by rewrite app_nil_r.
  - replace n with cnt by lia. simpl. by rewrite app_nil_r.
Qed.

Lemma rest_ok l1 a n l2 cnt :
  0 < cnt ≤ n → chunks_ok (l1 ++ (a, n) :: l2) →
  pages (l1 ++ (a, n) :: l2) ≡ₚ block a cnt ++ pages (l1 ++ rest a n cnt ++ l2) ∧
  chunks_ok (l1 ++ rest a n cnt ++ l2).
Proof.
  intros Hc Hok. assert (pages (l1 ++ (a, n) :: l2) ≡ₚ block a cnt ++ pages (l1 ++ rest a n cnt ++ l2)) as Hperm.
  { rewrite !pages_app, pages_cons, (rest_pages a n cnt Hc), <- !app_assoc.
    rewrite !(assoc_L (++)), (Permutation_app_comm (pages l1)). done. }
  split; [done|]. eapply ck_perm; [|by eexists|exact Hok].
  destruct Hok as [Hp _ _]. apply Forall_app in Hp as [Hp1 Hp2]. inversion Hp2; subst.
  apply Forall_app. split; [done|]. apply Forall_app. split; [|done].
  unfold rest. destruct (cnt <? n) eqn:E; kbool; [repeat constructor; simpl; lia|constructor].
Qed.

(** ** Allocation *)

Lemma set_link_chain s l1 x l2 v l2' :
  chain (words s) (free_chunk_list s) (l1 ++ x :: l2) → chunks_ok (l1 ++ l2') →
  chain (words s) v l2' →
  chain (words (set_link s (link_before l1) v)) (free_chunk_list (set_link s (link_before l1) v)) (l1 ++ l2').
Proof.
  intros Hc Hok Hv. pose proof (ck_heads_nodup _ Hok) as Hnd. rewrite fmap_app in Hnd.
  apply NoDup_app in Hnd as (Hnd1 & Hdis & _).
  assert (∀ a n, (a, n) ∈ l1 ++ l2' → in_ram a) as Hram by (intros a n Hin; by eapply ck_head).
  eapply chain_app_replace; [exact Hc| |done|].
  - intros a n Ha b k Hb. apply ram_headers; eapply Hram; apply elem_of_app; by left.
  - eapply chain_frame; [|exact Hv]. intros b k Hb. destruct l1 as [|[a n] l1 _] using rev_ind; [done|].
    rewrite link_before_snoc. simpl.
    assert (in_ram a) as Ha by (eapply (Hram a n); rewrite !elem_of_app; left; right; by left).
    assert (in_ram b) as Hb' by (eapply (Hram b k); apply elem_of_app; by right).
    assert (a ≠ b) as Hne.
    { intros ->. apply (Hdis b); apply list_elem_of_fmap; [exists (b, n)|by exists (b, k)].
      split; [done|]. apply elem_of_app. right. by left. }
    destruct (ram_headers b a Hb' Ha) as [H1 H2]. rewrite !rd_wr_ne by auto. done.
Qed.

(** What [set_link] writes is in a chunk header of [l1]. *)
Lemma set_link_frame s l1 v a :
  chunks_ok l1 → page_of a ∉ pages l1 →
  rd (words (set_link s (link_before l1) v)) a = rd (words s) a.
Proof.
  intros Hok Ha. destruct l1 as [|[b n] l1 _] using rev_ind; [done|]. rewrite link_before_snoc. simpl.
  apply rd_wr_ne. intros <-. apply Ha. assert ((b, n) ∈ l1 ++ [(b, n)]) as Hin.
  { apply elem_of_app. right. by left. }
  destruct (ck_head _ b n Hok Hin) as [[Hal _] _]. rewrite (proj1 (page_of_header b Hal)).
  eapply head_in_pages; [by destruct Hok|done].
Qed.

Lemma chain_tail s l1 b n l2 :
  chain (words s) (free_chunk_list s) (l1 ++ (b, n) :: l2) → chain (words s) (next (words s) b) l2.
Proof.
  generalize (free_chunk_list s) as p. induction l1 as [|[a k] l1 IH]; intros p; simpl.
  - by intros (_ & _ & _ & ?).
  - intros (_ & _ & _ & Hc). by eapply IH.
Qed.

(** The header of the remainder is in a page of its own. *)
Lemma remainder_fresh l1 b n l2 cnt r :
  chunks_ok (l1 ++ (b, n) :: l2) → 0 < cnt < n → r = b + cnt * PAGE_SIZE →
  in_ram r ∧ r ∈ pages (l1 ++ (b, n) :: l2) ∧
  ∀ c k, (c, k) ∈ l1 ++ (b, n) :: l2 → in_ram c ∧ c ≠ r.
Proof.
  intros Hok Hc ->. set (r := b + cnt * PAGE_SIZE).
  assert (r ∈ block b n) as Hr by (apply elem_of_block; exists cnt; split; [lia|done]).
  assert (r ∈ pages (l1 ++ (b, n) :: l2)) as Hrp.
  { rewrite pages_app, pages_cons, !elem_of_app. auto. }
  split_and!; [by apply (proj1 (Forall_forall _ _) (ck_ram _ Hok))|done|].
  intros c k Hin. split; [by eapply ck_head|]. intros ->.
  destruct (rest_ok l1 b n l2 cnt ltac:(lia) Hok) as [_ Hok'].
  pose proof (ck_heads_nodup _ Hok') as Hnd. unfold rest in Hnd. rewrite (proj2 (Z.ltb_lt cnt n)) in Hnd by lia.
  fold r in Hnd. rewrite !fmap_app in Hnd. simpl in Hnd.
  apply NoDup_app in Hnd as (_ & Hd1 & Hnd2). apply NoDup_cons in Hnd2 as [Hd2 _].
  apply elem_of_app in Hin as [Hin|[E|Hin]%elem_of_cons].
  - apply (Hd1 r); [apply list_elem_of_fmap; by exists (r, k)|by left].
  - injection E as E _. unfold r in E. change PAGE_SIZE with 4096 in E. lia.
  - apply Hd2, list_elem_of_fmap. by exists (r, k).
Qed.

Lemma alloc_phys_pages_ok s l cnt :
  free_list_is s l → 0 < cnt →
  (∃ pp n l1 l2 s', alloc_phys_pages cnt s = (Ret pp, s') ∧ l = l1 ++ (pp, n) :: l2 ∧ cnt ≤ n ∧
     (∀ c, c ∈ l → cnt ≤ c.2 → n ≤ c.2) ∧
     free_list_is s' (l1 ++ rest pp n cnt ++ l2) ∧
     (satp s' = satp s ∧ main_mtag s' = main_mtag s) ∧
     ∀ a, page_of a ∉ pages l → rd (words s') a = rd (words s) a) ∨
  (alloc_phys_pages cnt s = (Ret NULL, s) ∧ ∀ c, c ∈ l → c.2 < cnt).
Proof.
  intros [Hch Hok] Hcnt. unfold alloc_phys_pages. rewrite (proj2 (Z.eqb_neq cnt 0)) by lia.
  destruct (find_best_spec s cnt LIST_FUEL [] l None (ck_length l Hok) Hch) as (best & Hfb & Hbest).
  { intros c Hc. by apply not_elem_of_nil in Hc. }
  change (link_before []) with LHead in Hfb. rewrite Hfb. simpl in Hbest.
  destruct best as [[lk b]|]; [left|right; done].
  destruct Hbest as (l1 & n & l2 & -> & -> & Hn & Hle & Hmin & _). exists b, n, l1, l2.
  rewrite Hn. destruct (rest_ok l1 b n l2 cnt ltac:(lia) Hok) as [_ Hok'].
  destruct (ck_app _ _ Hok) as [Hok1 _].
  destruct (cnt <? n) eqn:Hlt; kbool.
  - set (r := b + cnt * PAGE_SIZE).
    destruct (remainder_fresh l1 b n l2 cnt r Hok ltac:(lia) eq_refl) as (Hrr & Hrp & Hfresh).
    assert ((b, n) ∈ l1 ++ (b, n) :: l2) as Hbin by (apply elem_of_app; right; by left).
    destruct (Hfresh b n Hbin) as [Hbr Hbne].
    destruct (ram_headers r b Hrr Hbr) as [Hb8 Hsep]. destruct (Hsep ltac:(auto)) as [Hs1 Hs2].
    assert (pagecnt (wr (words s) r (next (words s) b)) b = n) as ->.
    { unfold pagecnt. rewrite rd_wr_ne; [done|]. by apply (ram_headers b r). }
    set (m2 := wr (wr (words s) r (next (words s) b)) (r + 8) (n - cnt)).
    assert (∀ c k, (c, k) ∈ l1 ++ (b, n) :: l2 → rd m2 c = rd (words s) c ∧ rd m2 (c + 8) = rd (words s) (c + 8)) as Hm2.
    { intros c k Hin. destruct (Hfresh c k Hin) as [Hcr Hcne].
      destruct (ram_headers r c Hrr Hcr) as [H1 H2], (ram_headers c r Hcr Hrr) as [H3 H4].
      destruct (H2 ltac:(auto)) as [H5 H6]. unfold m2. rewrite !rd_wr_ne by auto. done. }
    eexists. split; [reflexivity|]. split_and!; try done.
    + assert (rest b n cnt = [(r, n - cnt)]) as Hrest by (unfold rest; by rewrite (proj2 (Z.ltb_lt cnt n))).
      rewrite Hrest in Hok'. rewrite Hrest. simpl app in Hok' |- *. split; [|done].
      eapply set_link_chain; [|exact Hok'|].
      * eapply chain_frame; [exact Hm2|exact Hch].
      * simpl. destruct Hrr as [_ Hrr]. unfold RAM_START_PMA in Hrr.
        split_and!; [done|unfold NULL; lia|unfold pagecnt, m2; by rewrite rd_wr_eq|].
        unfold next, m2. rewrite rd_wr_ne, rd_wr_eq by lia. fold m2.
        eapply chain_frame; [|apply (chain_tail s l1 b n l2 Hch)].
        intros c k Hin. apply (Hm2 c k). apply elem_of_app. right. by right.
    + by destruct (link_before l1).
    + by destruct (link_before l1).
    + intros a Ha. rewrite set_link_frame; [|done|by intros Hin; apply Ha; rewrite pages_app, elem_of_app; left].
      simpl. destruct Hrr as [Hal _]. destruct (page_of_header r Hal) as [Hp1 Hp2].
      unfold m2. rewrite !rd_wr_ne; [done|intros <-; apply Ha; by rewrite ?Hp1, ?Hp2..].
  - assert (rest b n cnt = []) as Hrest by (unfold rest; by rewrite (proj2 (Z.ltb_ge cnt n))).
    rewrite Hrest in Hok'. rewrite Hrest. simpl app in Hok' |- *.
    eexists. split; [reflexivity|]. split_and!; try done.
    + split; [|done]. eapply set_link_chain; [exact Hch|done|]. by eapply chain_tail.
    + by destruct (link_before l1).
    + by destruct (link_before l1).
    + intros a Ha. apply set_link_frame; [done|]. intros Hin. apply Ha. rewrite pages_app, elem_of_app. by left.
Qed.

Lemma free_phys_pages_ok s l pp cnt :
  free_list_is s l → 0 < cnt → Forall in_ram (block pp cnt) → (∀ x, x ∈ block pp cnt → x ∉ pages l) →
  ∃ s', free_phys_pages pp cnt s = (Ret tt, s') ∧ free_list_is s' ((pp, cnt) :: l) ∧
    (satp s' = satp s ∧ main_mtag s' = main_mtag s) ∧
    ∀ a, page_of a ≠ pp → rd (words s') a = rd (words s) a.
Proof.
  intros [Hch Hok] Hc Hram Hfresh.
  assert (in_ram pp) as Hpp by (apply (proj1 (Forall_forall _ _) Hram), head_in_block; lia).
  assert (pp ≠ NULL) as Hnn by (destruct Hpp as [_ Hpp]; unfold RAM_START_PMA, NULL in *; lia).
  unfold free_phys_pages. rewrite (proj2 (Z.eqb_neq pp NULL)), (proj2 (Z.eqb_neq cnt 0)) by lia || done.
  cbn [orb]. eexists. split; [reflexivity|]. split; [|split; [done|]].
  - split.
    + simpl. split_and!; try done.
      * unfold pagecnt. rewrite rd_wr_ne by lia. by rewrite rd_wr_eq.
      * unfold next at 1. rewrite rd_wr_eq. eapply chain_frame; [|exact Hch]. intros c k Hin.
        destruct (ck_head l c k Hok Hin) as [Hcr Hk].
        assert (pp ≠ c) as Hne.
        { intros ->. apply (Hfresh c); [apply head_in_block; lia|]. eapply head_in_pages; [by destruct Hok|done]. }
        destruct (ram_headers pp c Hpp Hcr) as [H1 H2], (ram_headers c pp Hcr Hpp) as [H3 H4].
        destruct (H2 Hne). rewrite !rd_wr_ne by auto. done.
    + destruct Hok as [Hp Hn Hr]. split; [by constructor|..]; rewrite pages_cons.
      * apply NoDup_app. split_and!; [|done|done]. unfold block. apply NoDup_fmap_2; [|apply NoDup_seq].
        intros i j Hij. unfold page in Hij. change PAGE_SIZE with 4096 in Hij. lia.
      * by apply Forall_app.
  - intros a Ha. destruct Hpp as [Hal _]. destruct (page_of_header pp Hal) as [H1 H2]. simpl.
    rewrite !rd_wr_ne; [done|intros <-; by apply Ha..].
Qed.

(** C23. [alloc_phys_pages] is a best-fit allocator that terminates: on every
    well-formed free list it either returns a block of [cnt] consecutive free
    pages taken from the head of a smallest chunk that is large enough, so
    that the free pages are exactly the block and the pages still listed, or,
    when no chunk is large enough, NULL with nothing changed; memory outside
    the free pages is never written. *)
Theorem alloc_phys_pages_correct s l cnt :
  free_list_is s l → 0 < cnt →
  (∃ pp n l' s', alloc_phys_pages cnt s = (Ret pp, s') ∧ free_list_is s' l' ∧
     pages l ≡ₚ block pp cnt ++ pages l' ∧
     ((pp, n) ∈ l ∧ cnt ≤ n ∧ ∀ c, c ∈ l → cnt ≤ c.2 → n ≤ c.2) ∧
     (∀ a, page_of a ∉ pages l → rd (words s') a = rd (words s) a)) ∨
  (alloc_phys_pages cnt s = (Ret NULL, s) ∧ ∀ c, c ∈ l → c.2 < cnt).
Proof.
  intros Hl Hc. destruct (alloc_phys_pages_ok s l cnt Hl Hc)
    as [(pp & n & l1 & l2 & s' & Hrun & -> & Hle & Hmin & Hl' & _ & Hfr)|?]; [left|by right].
  destruct Hl as [_ Hok]. destruct (rest_ok l1 pp n l2 cnt ltac:(lia) Hok) as [Hperm _].
  exists pp, n, (l1 ++ rest pp n cnt ++ l2), s'. split_and!; try done.
  apply elem_of_app. right. by left.
Qed.

Lemma count_from_chain m c l fuel total :
  chain m c l → (length l < fuel)%nat → Forall (λ x : Z * Z, 0 < x.2) l → 0 ≤ total →
  total + Z.of_nat (length (pages l)) < 2 ^ 64 →
  count_from fuel m c total = Some (total + Z.of_nat (length (pages l))).
Proof.
  revert c fuel total. induction l as [|[a n] l IH]; intros c fuel total Hc Hf Hp Ht Hlim;
    (destruct fuel as [|fuel]; [simpl in Hf; lia|]); cbn [count_from].
  - simpl in *. rewrite Hc. simpl. f_equal. lia.
  - simpl in Hc. destruct Hc as (-> & Ha & Hn & Hc). rewrite (proj2 (Z.eqb_neq a NULL)), Hn by done.
    apply Forall_cons in Hp as [Hpos Hp]. cbn [length snd] in *.
    rewrite pages_cons, length_app, length_block in Hlim |- *.
    rewrite u64_small by lia. rewrite (IH _ _ _ Hc); [f_equal; lia|lia|done|lia|lia].
Qed.

(** [free_phys_page_count] terminates and is the number of free pages. *)
Lemma free_phys_page_count_correct s l :
  free_list_is s l → free_phys_page_count s = Some (Z.of_nat (length (pages l))).
Proof.
  intros [Hch Hok]. unfold free_phys_page_count.
  rewrite (count_from_chain _ _ l); [done|done|by apply ck_length|by destruct Hok|lia|].
  assert (length (pages l) ≤ Z.to_nat (RAM_SIZE / PAGE_SIZE))%nat as Hle;
    [|change (Z.to_nat (RAM_SIZE / PAGE_SIZE)) with 2048%nat in Hle; lia].
  destruct Hok as [_ Hn Hr]. rewrite <- (length_block RAM_START_PMA).
  apply submseteq_length, NoDup_submseteq; [done|].
  intros x Hx. apply ram_block. by apply (proj1 (Forall_forall _ _) Hr).
Qed.

(** ** Clients

    The steps of clients that own the blocks [o]: allocate, free a block they
    own, write a word of a page they own. *)
Inductive reach (s0 : mm) : mm → list (Z * Z) → Prop :=
| reach_init : reach s0 s0 []
| reach_alloc s o cnt pp s' :
    reach s0 s o → 0 < cnt → alloc_phys_pages cnt s = (Ret pp, s') → pp ≠ NULL →
    reach s0 s' ((pp, cnt) :: o)
| reach_free s o1 pp cnt o2 s' :
    reach s0 s (o1 ++ (pp, cnt) :: o2) → free_phys_pages pp cnt s = (Ret tt, s') →
    reach s0 s' (o1 ++ o2)
| reach_write s o a v :
    reach s0 s o → page_of a ∈ pages o → reach s0 (with_words s (wr (words s) a v)) o.

Lemma reach_write_ok s l a v :
  free_list_is s l → page_of a ∉ pages l → free_list_is (with_words s (wr (words s) a v)) l.
Proof.
  intros [Hch Hok] Ha. split; [|done]. simpl. eapply chain_frame; [|exact Hch].
  intros c k Hin. destruct (ck_head l c k Hok Hin) as [[Hal _] _].
  assert (c ∈ pages l) as Hcp by (eapply head_in_pages; [by destruct Hok|done]).
  destruct (page_of_header c Hal) as [H1 H2].
  rewrite !rd_wr_ne; [done|intros ->; apply Ha; by rewrite ?H1, ?H2..].
Qed.

(** C4. Pages are neither lost nor handed out twice: whatever the clients do
    in whatever order, the free list stays well formed and the initial pages
    are, each exactly once, either free or in one block a client owns. *)
Theorem pages_conserved s0 l0 s o :
  free_list_is s0 l0 → reach s0 s o →
  Forall (λ c, 0 < c.2) o ∧ ∃ l, free_list_is s l ∧ pages l0 ≡ₚ pages l ++ pages o.
Proof.
  intros H0 Hr. induction Hr as [|s o cnt pp s' Hr [IHp (l & Hl & Hperm)] Hc Hrun Hnn
    |s o1 pp cnt o2 s' Hr [IHp (l & Hl & Hperm)] Hrun|s o a v Hr [IHp (l & Hl & Hperm)] Ha].
  - split; [constructor|]. exists l0. split; [done|]. simpl. by rewrite app_nil_r.
  - destruct (alloc_phys_pages_ok s l cnt Hl Hc)
      as [(pp' & n & l1 & l2 & s'' & Hrun' & -> & Hle & _ & Hl' & _)|[Hrun' _]];
      rewrite Hrun in Hrun'; [|congruence]. injection Hrun' as <- <-.
    split; [by constructor|]. eexists. split; [exact Hl'|]. destruct Hl as [_ Hok].
    rewrite Hperm, (proj1 (rest_ok l1 pp n l2 cnt ltac:(lia) Hok)), pages_cons.
    rewrite <- app_assoc. apply Permutation_app_swap_app.
  - apply Forall_app in IHp as [Hp1 Hp2]. inversion Hp2 as [|? ? Hcnt Hp2']; subst. simpl in Hcnt.
    rewrite pages_app, pages_cons in Hperm. destruct H0 as [_ [_ Hn0 Hr0]]. rewrite Hperm in Hn0, Hr0.
    assert (Forall in_ram (block pp cnt) ∧ ∀ x, x ∈ block pp cnt → x ∉ pages l) as [Hbr Hbf].
    { apply Forall_app in Hr0 as [_ Hr0]. apply Forall_app in Hr0 as [_ Hr0]. apply Forall_app in Hr0 as [Hr0 _].
      split; [done|]. apply NoDup_app in Hn0 as (_ & Hd & _). intros x Hx Hx'. apply (Hd x Hx').
      rewrite !elem_of_app. auto. }
    destruct (free_phys_pages_ok s l pp cnt Hl Hcnt Hbr Hbf) as (s'' & Hrun' & Hl' & _).
    rewrite Hrun in Hrun'. injection Hrun' as <-. split; [by apply Forall_app|]. eexists. split; [exact Hl'|].
    rewrite Hperm, pages_cons, pages_app, <- app_assoc.
    rewrite (Permutation_app_swap_app (pages o1)). apply Permutation_app_swap_app.
  - split; [done|]. exists l. split; [|done]. apply reach_write_ok; [done|]. intros Hl'.
    destruct H0 as [_ [_ Hn0 _]]. rewrite Hperm in Hn0. apply NoDup_app in Hn0 as (_ & Hd & _). by apply (Hd (page_of a)).
Qed.

(** One chunk [(a, n)], as [memory_init] builds it. *)
Lemma single_chunk_ok s a n :
  a mod PAGE_SIZE = 0 → RAM_START_PMA ≤ a → 0 < n → a + n * PAGE_SIZE ≤ RAM_END_PMA →
  free_chunk_list s = a → next (words s) a = NULL → pagecnt (words s) a = n →
  free_list_is s [(a, n)].
Proof.
  intros Hal Hlo Hn Hhi Hh Hnx Hpc. split.
  - simpl. split_and!; try done. unfold RAM_START_PMA, NULL in *. lia.
  - split; [by repeat constructor|..]; unfold pages; simpl; rewrite app_nil_r.
    + unfold block. apply NoDup_fmap_2; [|apply NoDup_seq].
      intros i j Hij. unfold page in Hij. change PAGE_SIZE with 4096 in Hij. lia.
    + apply Forall_forall. intros x (i & Hi & ->)%elem_of_block. unfold in_ram.
      rewrite Z.mod_add by done. change PAGE_SIZE with 4096 in *. split; [done|]. unfold RAM_START_PMA in *. lia.
Qed.

(** ** A concrete list: four free pages at 0x80300000 *)

Definition demo : mm := Mm {[ 0x80300008 := 4 ]} 0x80300000 0 0.

Lemma demo_ok : free_list_is demo [(0x80300000, 4)].
Proof. apply single_chunk_ok; done. Qed.

Lemma alloc_phys_pages_correct_witness :
  ∃ l' s', alloc_phys_pages 3 demo = (Ret 0x80300000, s') ∧ free_list_is s' l' ∧
    pages [(0x80300000, 4)] ≡ₚ block 0x80300000 3 ++ pages l'.
Proof.
  destruct (alloc_phys_pages_correct demo [(0x80300000, 4)] 3 demo_ok)
    as [(pp & n & l' & s' & Hrun & Hl & Hperm & (Hin & _) & _)|[_ Hno]]; [lia| |].
  - apply list_elem_of_singleton in Hin. injection Hin as -> ->. by exists l', s'.
  - specialize (Hno (0x80300000, 4)). simpl in Hno. assert (4 < 3); [|lia]. apply Hno. by left.
Defined.

Lemma free_phys_page_count_correct_witness : free_phys_page_count demo = Some 4.
Proof. exact (free_phys_page_count_correct demo [(0x80300000, 4)] demo_ok). Defined.

Lemma pages_conserved_witness :
  ∃ l, free_list_is (alloc_phys_pages 3 demo).2 l ∧
       pages [(0x80300000, 4)] ≡ₚ pages l ++ pages [(0x80300000, 3)].
Proof.
  apply (pages_conserved demo [(0x80300000, 4)] (alloc_phys_pages 3 demo).2 [(0x80300000, 3)] demo_ok).
  apply (reach_alloc demo demo [] 3 0x80300000); [constructor|lia|vm_compute; reflexivity|done].
Defined.
End PhysPages.
