(* ===== verification/PageTable.v ===== *)
(** * Virtual memory (kernel/memory.c)

    Sv39 page tables in the physical memory of PhysPages.v: a page table entry
    is a 64-bit word and [struct pte] its bit-fields.  A function that returns
    a pointer returns its address, NULL being 0.  [sfence_vma] orders the
    hardware's view of the tables and has no effect on this state. *)

From S2P Require Import Prelude Config PhysPages.
Import PhysPages.

Module PageTable.

(** ** Entries *)

Definition PTE_V : Z := Z.shiftl 1 0.
Definition PTE_R : Z := Z.shiftl 1 1.
Definition PTE_W : Z := Z.shiftl 1 2.
Definition PTE_X : Z := Z.shiftl 1 3.
Definition PTE_U : Z := Z.shiftl 1 4.
Definition PTE_G : Z := Z.shiftl 1 5.
Definition PTE_A : Z := Z.shiftl 1 6.
Definition PTE_D : Z := Z.shiftl 1 7.

Definition PTE_CNT : Z := Z.shiftl 1 (PAGE_ORDER - 3).
Definition MEGA_SIZE : Z := Z.shiftl 1 9 * PAGE_SIZE.
Definition GIGA_SIZE : Z := Z.shiftl 1 9 * MEGA_SIZE.
Definition ROOT_LEVEL : nat := 2.

Record pte := Pte { flags : Z; rsw : Z; ppn : Z; reserved : Z; pbmt : Z; nbit : Z }.

Definition pte_of_word (w : Z) : pte :=
  Pte (w mod 2 ^ 8) (w / 2 ^ 8 mod 2 ^ 2) (w / 2 ^ 10 mod 2 ^ 44)
      (w / 2 ^ 54 mod 2 ^ 7) (w / 2 ^ 61 mod 2 ^ 2) (w / 2 ^ 63 mod 2).

Definition word_of_pte (e : pte) : Z :=
  flags e + 2 ^ 8 * (rsw e + 2 ^ 2 * (ppn e + 2 ^ 44 * (reserved e + 2 ^ 7 * (pbmt e + 2 ^ 2 * nbit e)))).

Definition pageptr (n : Z) : Z := u64 (Z.shiftl n PAGE_ORDER).
Definition pagenum (p : Z) : Z := Z.shiftr p PAGE_ORDER.

Definition PTE_VALID (e : pte) : bool := negb (Z.land (flags e) PTE_V =? 0).
Definition PTE_GLOBAL (e : pte) : bool := negb (Z.land (flags e) PTE_G =? 0).
Definition PTE_LEAF (e : pte) : bool := negb (Z.land (flags e) (Z.lor PTE_R (Z.lor PTE_W PTE_X)) =? 0).

(** Assigning to a bit-field keeps its low bits. *)
Definition leaf_pte (pp rwxug_flags : Z) : pte :=
  Pte (u8 (Z.lor rwxug_flags (Z.lor PTE_A (Z.lor PTE_D PTE_V)))) 0 (pagenum pp mod 2 ^ 44) 0 0 0.
Definition ptab_pte (pt g_flag : Z) : pte :=
  Pte (u8 (Z.lor g_flag PTE_V)) 0 (pagenum pt mod 2 ^ 44) 0 0 0.
Definition null_pte : pte := Pte 0 0 0 0 0 0.

Definition VPN (vma : Z) : Z := vma / PAGE_SIZE.
Definition VPN2 (vma : Z) : Z := Z.shiftr (VPN vma) (2 * 9) mod PTE_CNT.
Definition VPN1 (vma : Z) : Z := Z.shiftr (VPN vma) (1 * 9) mod PTE_CNT.
Definition VPN0 (vma : Z) : Z := Z.shiftr (VPN vma) (0 * 9) mod PTE_CNT.

(** Address bits 63:38 all 0 or all 1; [>>] on a signed operand. *)
Definition wellformed (vma : Z) : bool :=
  let bits := u64 (Z.shiftr (s64 vma) 38) in
  ((bits =? 0) || (u64 (bits + 1) =? 0))%bool.

(** [&pt[i]], [pt[i]] and [pt[i] = e]. *)
Definition slot (pt i : Z) : Z := pt + 8 * i.
Definition pte_at (m : gmap Z Z) (a : Z) : pte := pte_of_word (rd m a).
Definition set_pte (a : Z) (e : pte) : M mm unit := modify (λ s, with_words s (wr (words s) a (word_of_pte e))).
Definition get_pte (a : Z) : M mm pte := gets (λ s, pte_at (words s) a).

(** [memset(p, 0, PAGE_SIZE)] and [memcpy(d, p, PAGE_SIZE)], by words. *)
Fixpoint zero_words (m : gmap Z Z) (a : Z) (n : nat) : gmap Z Z :=
  match n with O => m | S n => zero_words (wr m a 0) (a + 8) n end.
Fixpoint copy_words (m : gmap Z Z) (dst src : Z) (n : nat) : gmap Z Z :=
  match n with O => m | S n => copy_words (wr m dst (rd m src)) (dst + 8) (src + 8) n end.

Definition zero_page (pp : Z) : M mm unit := modify (λ s, with_words s (zero_words (words s) pp 512)).
Definition copy_page (dst src : Z) : M mm unit := modify (λ s, with_words s (copy_words (words s) dst src 512)).

(** ** Memory spaces *)

Definition ptab_to_mtag (ptab asid : Z) : Z :=
  u64 (Z.lor (Z.shiftl 8 60) (Z.lor (Z.shiftl asid 44) (pagenum ptab))).
Definition mtag_to_ptab (mtag : Z) : Z := Z.shiftr (u64 (Z.shiftl mtag 20)) 8.
Definition active_space_ptab (s : mm) : Z := mtag_to_ptab (satp s).

Definition active_mspace : M mm Z := gets satp.
Definition csrrw_satp (v : Z) : M mm Z := λ s, (Ret (satp s), Mm (words s) (free_chunk_list s) v (main_mtag s)).
Definition switch_mspace (mtag : Z) : M mm Z := csrrw_satp mtag.

(** ** Mapping *)

(** One level of the walk: the table below entry [i] of [pt], allocated when
    missing and [alloc]; NULL when it cannot be reached. *)
Definition descend (pt i : Z) (alloc : bool) : M mm Z :=
  e ← get_pte (slot pt i);
  ok ← (if negb (PTE_VALID e) then
          if negb alloc then mret false
          else
            pt1 ← alloc_phys_page;
            if pt1 =? NULL then mret false
            else zero_page pt1;; set_pte (slot pt i) (ptab_pte pt1 0);; mret true
        else mret true);
  if negb ok then mret NULL
  else
    e ← get_pte (slot pt i);
    if PTE_LEAF e then mret NULL else mret (pageptr (ppn e)).

Definition walk (vma : Z) (alloc : bool) : M mm Z :=
  pt ← gets active_space_ptab;
  pt1 ← descend pt (VPN2 vma) alloc;
  if pt1 =? NULL then mret NULL
  else
    pt0 ← descend pt1 (VPN1 vma) alloc;
    if pt0 =? NULL then mret NULL else mret (slot pt0 (VPN0 vma)).

Definition map_page (vma pp rwxug_flags : Z) : M mm Z :=
  if (negb (wellformed vma) || negb (Z.land vma (PAGE_SIZE - 1) =? 0))%bool then mret NULL
  else
    leaf ← walk vma true;
    if leaf =? NULL then mret NULL
    else set_pte leaf (leaf_pte pp rwxug_flags);; mret vma.

(** [n] more iterations of the loop over [off]. *)
Fixpoint map_range_from (vma pp fl off : Z) (n : nat) : M mm bool :=
  match n with
  | O => mret true
  | S n =>
      r ← map_page (u64 (vma + off)) (u64 (pp + off)) fl;
      if r =? NULL then mret false else map_range_from vma pp fl (off + PAGE_SIZE) n
  end.

Definition map_range (vma size pp rwxug_flags : Z) : M mm Z :=
  let size := u64 (size + PAGE_SIZE - 1) / PAGE_SIZE * PAGE_SIZE in
  ok ← map_range_from vma pp rwxug_flags 0 (Z.to_nat (size / PAGE_SIZE));
  mret (if (ok : bool) then vma else NULL).

Fixpoint alloc_and_map_from (vma fl off : Z) (n : nat) : M mm bool :=
  match n with
  | O => mret true
  | S n =>
      pp ← alloc_phys_page;
      if pp =? NULL then mret false
      else
        r ← map_page (u64 (vma + off)) pp fl;
        if r =? NULL then free_phys_page pp;; mret false
        else alloc_and_map_from vma fl (off + PAGE_SIZE) n
  end.

Definition alloc_and_map_range (vma size rwxug_flags : Z) : M mm Z :=
  let size := u64 (size + PAGE_SIZE - 1) / PAGE_SIZE * PAGE_SIZE in
  ok ← alloc_and_map_from vma rwxug_flags 0 (Z.to_nat (size / PAGE_SIZE));
  mret (if (ok : bool) then vma else NULL).

Definition with_flags (e : pte) (f : Z) : pte := Pte f (rsw e) (ppn e) (reserved e) (pbmt e) (nbit e).
Definition with_ppn (e : pte) (p : Z) : pte := Pte (flags e) (rsw e) p (reserved e) (pbmt e) (nbit e).

Fixpoint set_flags_from (vma fl off : Z) (n : nat) : M mm unit :=
  match n with
  | O => mret tt
  | S n =>
      leaf ← walk (u64 (vma + off)) false;
      (if leaf =? NULL then mret tt
       else
         e ← get_pte leaf;
         if negb (PTE_VALID e) then mret tt
         else set_pte leaf (with_flags e (u8 (Z.lor fl (Z.lor PTE_A (Z.lor PTE_D PTE_V))))));;
      set_flags_from vma fl (off + PAGE_SIZE) n
  end.

Definition set_range_flags (vma size rwxug_flags : Z) : M mm unit :=
  let size := u64 (size + PAGE_SIZE - 1) / PAGE_SIZE * PAGE_SIZE in
  set_flags_from vma rwxug_flags 0 (Z.to_nat (size / PAGE_SIZE)).

Fixpoint unmap_from (vma off : Z) (n : nat) : M mm unit :=
  match n with
  | O => mret tt
  | S n =>
      leaf ← walk (u64 (vma + off)) false;
      (if leaf =? NULL then mret tt
       else
         e ← get_pte leaf;
         if negb (PTE_VALID e) then mret tt
         else set_pte leaf null_pte;; free_phys_page (pageptr (ppn e)));;
      unmap_from vma (off + PAGE_SIZE) n
  end.

Definition unmap_and_free_range (vma size : Z) : M mm unit :=
  let size := u64 (size + PAGE_SIZE - 1) / PAGE_SIZE * PAGE_SIZE in
  unmap_from vma 0 (Z.to_nat (size / PAGE_SIZE)).

Definition handle_umode_page_fault (vma : Z) : M mm Z :=
  if ((vma <? UMEM_START_VMA) || (UMEM_END_VMA <=? vma))%bool then mret 0
  else
    let page_vma := Z.land vma (u64 (Z.lnot (PAGE_SIZE - 1))) in
    pp ← alloc_phys_page;
    if pp =? NULL then mret 0
    else
      zero_page pp;;
      r ← map_page page_vma pp (Z.lor PTE_R (Z.lor PTE_W (Z.lor PTE_X PTE_U)));
      if r =? NULL then free_phys_page pp;; mret 0 else mret 1.

(** ** Cloning and discarding

    [level] bounds the depth of the recursion; the source passes it down but
    stops at leaves. *)

(** Entries [i], ... of [old_pt] copied to [new_pt]; [clone] copies a subtree. *)
Fixpoint clone_entries (clone : Z → M mm Z) (old_pt new_pt i : Z) (n : nat) : M mm bool :=
  match n with
  | O => mret true
  | S n =>
      e ← get_pte (slot old_pt i);
      ok ← (if negb (PTE_VALID e) then mret true
            else if PTE_GLOBAL e then set_pte (slot new_pt i) e;; mret true
            else if PTE_LEAF e then
              new_pp ← alloc_phys_page;
              if new_pp =? NULL then mret false
              else
                copy_page new_pp (pageptr (ppn e));;
                set_pte (slot new_pt i) (with_ppn e (pagenum new_pp mod 2 ^ 44));; mret true
            else
              new_child ← clone (pageptr (ppn e));
              if new_child =? NULL then mret false
              else set_pte (slot new_pt i) (ptab_pte new_child (Z.land (flags e) PTE_G));; mret true);
      if (ok : bool) then clone_entries clone old_pt new_pt (i + 1) n else mret false
  end.

Fixpoint clone_pt (level : nat) (old_pt : Z) : M mm Z :=
  match level with
  | O => λ s, (NoFuel, s)
  | S level =>
      new_pt ← alloc_phys_page;
      if new_pt =? NULL then mret NULL
      else
        zero_page new_pt;;
        ok ← clone_entries (clone_pt level) old_pt new_pt 0 (Z.to_nat PTE_CNT);
        mret (if (ok : bool) then new_pt else NULL)
  end.

Definition clone_active_mspace : M mm Z :=
  old_root ← gets active_space_ptab;
  new_root ← clone_pt (S ROOT_LEVEL) old_root;
  mret (if new_root =? NULL then 0 else ptab_to_mtag new_root 0).

Fixpoint free_entries (free : Z → M mm bool) (pt i : Z) (n : nat) (has_global : bool) : M mm bool :=
  match n with
  | O => mret has_global
  | S n =>
      e ← get_pte (slot pt i);
      if negb (PTE_VALID e) then free_entries free pt (i + 1) n has_global
      else if PTE_GLOBAL e then free_entries free pt (i + 1) n true
      else
        (if PTE_LEAF e then free_phys_page (pageptr (ppn e))
         else
           child_has_global ← free (pageptr (ppn e));
           if (child_has_global : bool) then mret tt else free_phys_page (pageptr (ppn e)));;
        set_pte (slot pt i) null_pte;;
        free_entries free pt (i + 1) n has_global
  end.

Fixpoint free_user_pt (level : nat) (pt : Z) : M mm bool :=
  match level with
  | O => λ s, (NoFuel, s)
  | S level => free_entries (free_user_pt level) pt 0 (Z.to_nat PTE_CNT) false
  end.

Definition reset_active_mspace : M mm unit :=
  root ← gets active_space_ptab;
  _ ← free_user_pt (S ROOT_LEVEL) root;
  mret tt.

Definition discard_active_mspace : M mm Z :=
  main ← gets main_mtag;
  old ← csrrw_satp main;
  let old_root := mtag_to_ptab old in
  _ ← free_user_pt (S ROOT_LEVEL) old_root;
  free_phys_page old_root;;
  mret old.
End PageTable.
