(* ===== verification/PageTableProofs.v ===== *)
(** * Virtual memory: what the mapping functions do to address translation

    [translate] is the Sv39 address translation of the RISC-V privileged
    architecture, written as the specification (the hardware walk over the
    tables in memory, super-pages included; permission checks are the reader's
    of the returned flags).  The theorems relate the table-editing functions of
    PageTable.v to it. *)

From S2P Require Import Prelude Config PhysPages PageTable.
Import PhysPages PageTable.

Module PageTableProofs.

(** ** Encoding of entries *)

Definition pte_ok (e : pte) : Prop :=
  0 ≤ flags e < 2 ^ 8 ∧ 0 ≤ rsw e < 2 ^ 2 ∧ 0 ≤ ppn e < 2 ^ 44 ∧ 0 ≤ reserved e < 2 ^ 7 ∧
  0 ≤ pbmt e < 2 ^ 2 ∧ 0 ≤ nbit e < 2.

Lemma field_low a b k : 0 < k → 0 ≤ a < k → (a + k * b) mod k = a.
Proof. intros. rewrite Z.mul_comm, Z.mod_add, Z.mod_small; lia. Qed.
Lemma field_high a b k : 0 < k → 0 ≤ a < k → (a + k * b) / k = b.
Proof. intros. rewrite Z.mul_comm, Z.div_add, Z.div_small; lia. Qed.

Lemma pte_roundtrip e : pte_ok e → pte_of_word (word_of_pte e) = e.
Proof.
  intros (Hf & Hr & Hp & Hv & Hb & Hn). unfold pte_of_word, word_of_pte.
  change (2 ^ 10) with (2 ^ 8 * 2 ^ 2). change (2 ^ 54) with (2 ^ 8 * 2 ^ 2 * 2 ^ 44).
  change (2 ^ 61) with (2 ^ 8 * 2 ^ 2 * 2 ^ 44 * 2 ^ 7).
  change (2 ^ 63) with (2 ^ 8 * 2 ^ 2 * 2 ^ 44 * 2 ^ 7 * 2 ^ 2).
  rewrite <- !Z.div_div by done. rewrite !field_high, !field_low by lia.
  rewrite (Z.mod_small (nbit e)) by lia. by destruct e.
Qed.

Lemma pagenum_div p : pagenum p = p / 4096.
Proof. unfold pagenum. rewrite Z.shiftr_div_pow2 by done. done. Qed.

Lemma pageptr_mul n : 0 ≤ n < 2 ^ 52 → pageptr n = n * 4096.
Proof. intros. unfold pageptr. rewrite Z.shiftl_mul_pow2 by done. change (2 ^ PAGE_ORDER) with 4096. apply u64_small. lia. Qed.

(** Page addresses that a PTE can hold. *)
Definition page_addr (p : Z) : Prop := p mod PAGE_SIZE = 0 ∧ 0 < p < 2 ^ 56.

Lemma page_addr_ppn p : page_addr p → pagenum p mod 2 ^ 44 = pagenum p ∧ pageptr (pagenum p) = p.
Proof.
  intros [Ha Hr]. change PAGE_SIZE with 4096 in Ha. rewrite pagenum_div.
  assert (0 ≤ p / 4096 < 2 ^ 44) by (Z.div_mod_to_equations; lia).
  split; [by apply Z.mod_small|]. rewrite pageptr_mul by lia. Z.div_mod_to_equations; lia.
Qed.

Lemma in_ram_page_addr p : in_ram p → page_addr p.
Proof. intros [Ha Hr]. split; [done|]. unfold RAM_START_PMA, RAM_END_PMA, RAM_SIZE, RAM_START_PMA in Hr. lia. Qed.

Lemma u8_range x : 0 ≤ u8 x < 2 ^ 8.
Proof. unfold u8. apply Z.mod_pos_bound. lia. Qed.

Lemma ppn_field_range x : 0 ≤ x mod 2 ^ 44 < 2 ^ 44.
Proof. apply Z.mod_pos_bound. lia. Qed.

Lemma ptab_pte_ok p g : pte_ok (ptab_pte p g).
Proof. pose proof (u8_range (Z.lor g PTE_V)). pose proof (ppn_field_range (pagenum p)). unfold pte_ok. simpl. lia. Qed.

Lemma leaf_pte_ok p f : pte_ok (leaf_pte p f).
Proof.
  pose proof (u8_range (Z.lor f (Z.lor PTE_A (Z.lor PTE_D PTE_V)))). pose proof (ppn_field_range (pagenum p)).
  unfold pte_ok. simpl. lia.
Qed.

Lemma leaf_pte_bits p f :
  0 ≤ f < 2 ^ 8 → Z.land f (Z.lor PTE_R (Z.lor PTE_W PTE_X)) ≠ 0 →
  PTE_VALID (leaf_pte p f) = true ∧ PTE_LEAF (leaf_pte p f) = true.
Proof.
  intros Hf Hl. unfold PTE_VALID, PTE_LEAF, leaf_pte. cbn [flags].
  assert (∀ k, Z.land (u8 (Z.lor f 193)) k = Z.land (Z.lor f 193) (Z.land 255 k)) as Hu.
  { intros k. unfold u8. rewrite <- Z.land_ones by lia. change (Z.ones 8) with 255. by rewrite <- Z.land_assoc. }
  change (Z.lor PTE_A (Z.lor PTE_D PTE_V)) with 193. rewrite !Hu.
  change (Z.land 255 PTE_V) with 1. change (Z.land 255 (Z.lor PTE_R (Z.lor PTE_W PTE_X))) with 14.
  change (Z.lor PTE_R (Z.lor PTE_W PTE_X)) with 14 in Hl. split.
  - rewrite Z.land_lor_distr_l. change (Z.land 193 1) with 1.
    destruct (Z.lor (Z.land f 1) 1 =? 0) eqn:E; [|done]. kbool. apply Z.lor_eq_0_iff in E as [_ ?]. done.
  - rewrite Z.land_lor_distr_l. change (Z.land 193 14) with 0. rewrite Z.lor_0_r.
    by rewrite (proj2 (Z.eqb_neq _ _)).
Qed.

(** ** Tables and translation *)

Definition child (m : gmap Z Z) (t i : Z) : option Z :=
  let e := pte_at m (slot t i) in
  if (PTE_VALID e && negb (PTE_LEAF e))%bool then Some (pageptr (ppn e)) else None.

(** The table at the end of the path [p] of indices from the root. *)
Definition tab (m : gmap Z Z) (root : Z) (p : list Z) : option Z :=
  foldl (λ o i, o ≫= λ t, child m t i) (Some root) p.

(** The hardware walk: the leaf entry reached along the indices [r], with the
    indices that are left. *)
Fixpoint xlate (m : gmap Z Z) (t : Z) (r : list Z) : option (pte * list Z) :=
  match r with
  | [] => None
  | i :: r =>
      let e := pte_at m (slot t i) in
      if negb (PTE_VALID e) then None
      else if PTE_LEAF e then Some (e, r)
      else xlate m (pageptr (ppn e)) r
  end.

Definition vpns (va : Z) : list Z := [VPN2 va; VPN1 va; VPN0 va].

(** Physical address and flags for [va]: a leaf with [k] indices left maps
    2^(12+9k) bytes and its page number must be aligned to them. *)
Definition translate (m : gmap Z Z) (root va : Z) : option (Z * Z) :=
  match xlate m root (vpns va) with
  | None => None
  | Some (e, below) =>
      let sz := 2 ^ (12 + 9 * Z.of_nat (length below)) in
      if ppn e * 4096 mod sz =? 0 then Some (ppn e * 4096 + va mod sz, flags e) else None
  end.

Lemma tab_snoc m root p i : tab m root (p ++ [i]) = tab m root p ≫= λ t, child m t i.
Proof. unfold tab. by rewrite foldl_app. Qed.

Definition is_index (i : Z) : Prop := 0 ≤ i < 512.

(** The tables of the space: distinct, page aligned, not among the free pages. *)
Record tables_ok (m : gmap Z Z) (root : Z) (free : list Z) : Prop := {
  tk_addr p t : (length p ≤ 2)%nat → Forall is_index p → tab m root p = Some t → page_addr t ∧ t ∉ free;
  tk_inj p q t : (length p ≤ 2)%nat → Forall is_index p → (length q ≤ 2)%nat → Forall is_index q →
    tab m root p = Some t → tab m root q = Some t → p = q
}.

Definition space_ok (s : mm) (l : list (Z * Z)) : Prop :=
  free_list_is s l ∧ tables_ok (words s) (active_space_ptab s) (pages l).

Lemma slot_page t i : page_addr t → is_index i → page_of (slot t i) = t.
Proof.
  intros [Ha _] Hi. unfold page_of, ROUND_DOWN, slot, is_index in *. change PAGE_SIZE with 4096 in *.
  Z.div_mod_to_equations. lia.
Qed.

Lemma slot_inj t i u j : page_addr t → page_addr u → is_index i → is_index j → slot t i = slot u j → t = u ∧ i = j.
Proof.
  intros Ht Hu Hi Hj E. assert (t = u) as ->; [|unfold slot in E; split; [done|lia]].
  rewrite <- (slot_page t i), <- (slot_page u j) by done. by rewrite E.
Qed.

Lemma VPN_index va : Forall is_index (vpns va).
Proof.
  unfold vpns, VPN2, VPN1, VPN0, is_index. change PTE_CNT with 512.
  repeat constructor; apply Z.mod_pos_bound; lia.
Qed.

(** Reading an entry depends on its word only. *)
Lemma child_frame m m' t i : rd m' (slot t i) = rd m (slot t i) → child m' t i = child m t i.
Proof. intros E. unfold child, pte_at. by rewrite E. Qed.

Lemma rd_zero_words m a n x :
  rd (zero_words m a n) x =
  if decide (a ≤ x < a + 8 * Z.of_nat n ∧ (x - a) mod 8 = 0) then 0 else rd m x.
Proof.
  revert m a. induction n as [|n IH]; intros m a; cbn [zero_words].
  - rewrite decide_False; [done|]. lia.
  - rewrite IH. destruct (decide (x = a)) as [->|Hne].
    + rewrite (decide_False (P := _ ∧ (a - (a + 8)) mod 8 = 0)) by lia. rewrite rd_wr_eq.
      rewrite decide_True; [done|]. rewrite Z.sub_diag. split; [lia|done].
    + rewrite rd_wr_ne by auto. repeat case_decide; try done; exfalso;
        repeat match goal with H : _ ∧ _ |- _ => destruct H | H : ¬ _ |- _ => idtac end;
        Z.div_mod_to_equations; lia.
Qed.

Lemma child_Some m t i c : child m t i = Some c →
  PTE_VALID (pte_at m (slot t i)) = true ∧ PTE_LEAF (pte_at m (slot t i)) = false ∧
  c = pageptr (ppn (pte_at m (slot t i))).
Proof. unfold child. intros E. destruct (_ && _)%bool eqn:B; [|done]. kbool. injection E as <-. done. Qed.

(** ** A new table

    The walk found entry [i] of the table [t] invalid and pointed it to the
    zeroed page [pp]. *)
Section new_table.
Context (m m' : gmap Z Z) (root : Z) (free : list Z) (p : list Z) (t i pp : Z).
Context (Hok : tables_ok m root free) (Hp : (length p ≤ 1)%nat) (Hpi : Forall is_index p) (Hi : is_index i).
Context (Ht : tab m root p = Some t) (Hinv : PTE_VALID (pte_at m (slot t i)) = false).
Context (Hpp : page_addr pp) (Hfree : pp ∈ free).
Context (Hnew : pte_at m' (slot t i) = ptab_pte pp 0).
Context (Hzero : ∀ j, is_index j → rd m' (slot pp j) = 0).
Context (Hsame : ∀ x, page_of x ∉ free → x ≠ slot t i → rd m' x = rd m x).

Lemma new_child : child m' t i = Some pp.
Proof.
  unfold child. rewrite Hnew. unfold ptab_pte. cbn [PTE_VALID PTE_LEAF flags ppn].
  destruct (page_addr_ppn pp Hpp) as [-> ->]. done.
Qed.

Lemma zero_invalid j : is_index j → PTE_VALID (pte_at m' (slot pp j)) = false.
Proof. intros Hj. unfold pte_at. by rewrite Hzero. Qed.

Lemma same_slot q u j :
  (length q ≤ 2)%nat → Forall is_index q → is_index j → tab m root q = Some u → (q, j) ≠ (p, i) →
  rd m' (slot u j) = rd m (slot u j).
Proof.
  intros Hq Hqi Hj Hu Hne. destruct (tk_addr _ _ _ Hok q u Hq Hqi Hu) as [Hua Huf].
  destruct (tk_addr _ _ _ Hok p t ltac:(lia) Hpi Ht) as [Hta _].
  apply Hsame; [by rewrite slot_page|]. intros E. apply slot_inj in E as [-> ->]; try done.
  apply Hne. f_equal. by eapply (tk_inj _ _ _ Hok); [..|exact Hu|exact Ht]; try done; lia.
Qed.

Lemma new_tab q :
  (length q ≤ 2)%nat → Forall is_index q →
  tab m' root q = if decide (q = p ++ [i]) then Some pp else tab m root q.
Proof.
  induction q as [|j q IH] using rev_ind; intros Hq Hqi.
  { rewrite decide_False; [done|]. by destruct p. }
  rewrite length_app in Hq. simpl in Hq. apply Forall_app in Hqi as [Hqi Hj]. inversion Hj as [|? ? Hj' _]; subst.
  rewrite !tab_snoc, IH by (done || lia). destruct (decide (q = p ++ [i])) as [->|Hne].
  - simpl. assert (child m' pp j = None) as -> by (unfold child; by rewrite zero_invalid).
    rewrite decide_False by (intros E%(f_equal length); rewrite !length_app in E; simpl in E; lia).
    rewrite tab_snoc, Ht. simpl. assert (child m t i = None) as -> by (unfold child; by rewrite Hinv). done.
  - destruct (tab m root q) as [u|] eqn:Hu; simpl.
    + destruct (decide (q ++ [j] = p ++ [i])) as [E|E].
      * apply app_inj_tail in E as [-> ->]. rewrite Hu in Ht. injection Ht as ->. apply new_child.
      * apply child_frame, (same_slot q); try done; [lia|]. intros [= -> ->]. done.
    + rewrite decide_False; [done|]. intros [-> ->]%app_inj_tail. congruence.
Qed.

Lemma new_tables_ok free' : NoDup free → free ≡ₚ pp :: free' → tables_ok m' root free'.
Proof.
  intros Hnd Hperm. split.
  - intros q u Hq Hqi Hu. rewrite new_tab in Hu by done. case_decide.
    + injection Hu as <-. split; [done|]. rewrite Hperm in Hnd. by apply NoDup_cons in Hnd as [? _].
    + destruct (tk_addr _ _ _ Hok q u Hq Hqi Hu) as [Ha Hf]. split; [done|]. rewrite Hperm in Hf. set_solver.
  - intros q1 q2 u Hq1 Hqi1 Hq2 Hqi2 H1 H2. rewrite new_tab in H1, H2 by done.
    assert (∀ q, (length q ≤ 2)%nat → Forall is_index q → tab m root q = Some pp → False) as Hno.
    { intros q Hq Hqi Hu. by apply (tk_addr _ _ _ Hok q pp Hq Hqi Hu). }
    repeat case_decide; simplify_eq; try done; try (exfalso; by eapply Hno; [| |eassumption]).
    eapply (tk_inj _ _ _ Hok q1 q2 u); done.
Qed.

Lemma new_xlate q u r :
  (length q + length r ≤ 3)%nat → Forall is_index q → Forall is_index r → tab m root q = Some u →
  xlate m' u r = xlate m u r.
Proof.
  revert q u. induction r as [|j r IH]; intros q u Hlen Hqi Hri Hu; [done|].
  inversion Hri as [|? ? Hj Hri']; subst. simpl in Hlen. cbn [xlate].
  destruct (decide ((q, j) = (p, i))) as [[= -> ->]|Hne].
  - rewrite Hu in Ht. injection Ht as ->. rewrite Hnew, Hinv. cbn [negb]. unfold ptab_pte at 1 2.
    cbn [PTE_VALID PTE_LEAF flags ppn negb].
    change (negb (negb (Z.land (u8 (Z.lor 0 PTE_V)) PTE_V =? 0))) with false. cbv iota.
    change (negb (Z.land (u8 (Z.lor 0 PTE_V)) (Z.lor PTE_R (Z.lor PTE_W PTE_X)) =? 0)) with false. cbv iota.
    unfold ptab_pte. cbn [ppn]. destruct (page_addr_ppn pp Hpp) as [-> ->].
    destruct r as [|k r]; [done|]. cbn [xlate]. inversion Hri'; subst. by rewrite zero_invalid.
  - assert (pte_at m' (slot u j) = pte_at m (slot u j)) as ->.
    { unfold pte_at. by rewrite (same_slot q) by (done || lia). }
    destruct (PTE_VALID (pte_at m (slot u j))) eqn:Hv; [|done].
    destruct (PTE_LEAF (pte_at m (slot u j))) eqn:Hl; [done|]. cbn [negb].
    destruct r as [|k r]; [done|]. apply (IH (q ++ [j])); [rewrite length_app; simpl in *; lia|..|done|].
    + apply Forall_app. split; [done|]. by constructor.
    + rewrite tab_snoc, Hu. simpl. unfold child. by rewrite Hv, Hl.
Qed.
End new_table.

(** ** A leaf entry

    Entry [i] of the last-level table [t] becomes [e]. *)
Section new_leaf.
Context (m : gmap Z Z) (root : Z) (free : list Z) (p : list Z) (t i : Z) (e : pte).
Context (Hok : tables_ok m root free) (Hp : length p = 2%nat) (Hpi : Forall is_index p) (Hi : is_index i).
Context (Ht : tab m root p = Some t) (He : pte_ok e).
Let m' := wr m (slot t i) (word_of_pte e).

Lemma leaf_same_slot q u j :
  (length q ≤ 2)%nat → Forall is_index q → is_index j → tab m root q = Some u → (q, j) ≠ (p, i) →
  rd m' (slot u j) = rd m (slot u j).
Proof.
  intros Hq Hqi Hj Hu Hne. destruct (tk_addr _ _ _ Hok q u Hq Hqi Hu) as [Hua _].
  destruct (tk_addr _ _ _ Hok p t ltac:(lia) Hpi Ht) as [Hta _].
  apply rd_wr_ne. intros E. apply slot_inj in E as [-> ->]; try done.
  apply Hne. f_equal. by eapply (tk_inj _ _ _ Hok); [..|exact Hu|exact Ht]; try done; lia.
Qed.

Lemma leaf_tab q : (length q ≤ 2)%nat → Forall is_index q → tab m' root q = tab m root q.
Proof.
  induction q as [|j q IH] using rev_ind; intros Hq Hqi; [done|].
  rewrite length_app in Hq. simpl in Hq. apply Forall_app in Hqi as [Hqi Hj]. inversion Hj as [|? ? Hj' _]; subst.
  rewrite !tab_snoc, IH by (done || lia). destruct (tab m root q) as [u|] eqn:Hu; [simpl|done].
  apply child_frame, (leaf_same_slot q); try done; [lia|]. intros [= -> ->]. lia.
Qed.

Lemma leaf_tables_ok : tables_ok m' root free.
Proof.
  split.
  - intros q u Hq Hqi. rewrite leaf_tab by done. by apply (tk_addr _ _ _ Hok).
  - intros q1 q2 u Hq1 Hqi1 Hq2 Hqi2. rewrite !leaf_tab by done. by apply (tk_inj _ _ _ Hok).
Qed.

Lemma leaf_xlate q u r :
  (length q + length r = 3)%nat → r ≠ [] → Forall is_index q → Forall is_index r →
  tab m root q = Some u →
  xlate m' u r =
  if decide (q ++ r = p ++ [i])
  then (if (PTE_VALID e && PTE_LEAF e)%bool then Some (e, []) else None) else xlate m u r.
Proof.
  revert q u. induction r as [|j r IH]; intros q u Hlen Hnil Hqi Hri Hu; [done|].
  inversion Hri as [|? ? Hj Hri']; subst. cbn [length] in Hlen. cbn [xlate].
  destruct (decide ((q, j) = (p, i))) as [[= -> ->]|Hne].
  - rewrite Hu in Ht. injection Ht as ->. assert (r = []) as -> by (destruct r; [done|simpl in Hlen; lia]).
    rewrite decide_True by done. unfold pte_at, m'. rewrite rd_wr_eq, pte_roundtrip by done.
    destruct (PTE_VALID e), (PTE_LEAF e); done.
  - assert (pte_at m' (slot u j) = pte_at m (slot u j)) as ->.
    { unfold pte_at. by rewrite (leaf_same_slot q) by (done || lia). }
    destruct r as [|k r].
    + rewrite decide_False by (intros [-> ->]%app_inj_tail; done). done.
    + replace (q ++ j :: k :: r) with ((q ++ [j]) ++ k :: r) by (by rewrite <- app_assoc).
      assert (∀ c, child m u j = Some c → xlate m' c (k :: r) =
        if decide ((q ++ [j]) ++ k :: r = p ++ [i])
        then (if (PTE_VALID e && PTE_LEAF e)%bool then Some (e, []) else None) else xlate m c (k :: r)) as Hrec.
      { intros c Hc. apply IH; [rewrite length_app; simpl in *; lia|done| |done|].
        - apply Forall_app. split; [done|]. by constructor.
        - rewrite tab_snoc, Hu. done. }
      assert (∀ c, child m u j = None → (q ++ [j]) ++ k :: r = p ++ [i] → c) as Habs.
      { intros c Hc E. exfalso. assert (∃ r', p = (q ++ [j]) ++ r') as [r' Hr'].
        { destruct r as [|z r0 _] using rev_ind.
          - apply app_inj_tail in E as [-> _]. exists []. by rewrite app_nil_r.
          - rewrite app_comm_cons, app_assoc in E. apply app_inj_tail in E as [<- _]. by exists (k :: r0). }
        rewrite Hr' in Ht. unfold tab in Ht. rewrite !foldl_app in Ht. simpl in Ht.
        change (foldl _ (Some root) q) with (tab m root q) in Ht. rewrite Hu in Ht. simpl in Ht. rewrite Hc in Ht.
        clear -Ht. induction r' as [|x r' IH]; simpl in Ht; [done|]. auto. }
      destruct (PTE_VALID (pte_at m (slot u j))) eqn:Hv, (PTE_LEAF (pte_at m (slot u j))) eqn:Hl; cbn [negb];
        try (case_decide as E; [|done]; apply Habs; [|exact E]; unfold child; by rewrite Hv, ?Hl).
      apply Hrec. unfold child. by rewrite Hv, Hl.
Qed.
End new_leaf.

(** ** The walk *)



Lemma alloc_page_ok s l :
  free_list_is s l →
  (∃ pp l' s', alloc_phys_page s = (Ret pp, s') ∧ free_list_is s' l' ∧ pages l ≡ₚ pp :: pages l' ∧
     satp s' = satp s ∧ main_mtag s' = main_mtag s ∧ page_addr pp ∧
     ∀ a, page_of a ∉ pages l → rd (words s') a = rd (words s) a) ∨
  (alloc_phys_page s = (Ret NULL, s) ∧ pages l = []).
Proof.
  intros Hl. destruct (alloc_phys_pages_ok s l 1 Hl)
    as [(pp & n & l1 & l2 & s' & Hrun & -> & Hle & _ & Hl' & [Hs Hm] & Hfr)|[Hrun Hno]]; [lia|left|right].
  - destruct Hl as [_ Hok]. destruct (rest_ok l1 pp n l2 1 ltac:(lia) Hok) as [Hperm _].
    exists pp, (l1 ++ rest pp n 1 ++ l2), s'. split_and!; try done.
    + rewrite Hperm. unfold block, page. simpl. by rewrite Z.add_0_r.
    + apply in_ram_page_addr, (ck_head _ pp n Hok). apply elem_of_app. right. by left.
  - split; [done|]. destruct Hl as [_ [Hp _ _]]. destruct l as [|c l]; [done|].
    apply Forall_cons in Hp as [Hp _]. specialize (Hno c ltac:(by left)). lia.
Qed.

(** A free page may be written without disturbing the free list once it was
    taken out of it. *)
Lemma zero_page_frame m pp a : page_addr pp → page_of a ≠ pp → rd (zero_words m pp 512) a = rd m a.
Proof.
  intros [Hal _] Ha. rewrite rd_zero_words. rewrite decide_False; [done|]. intros [Hr _]. apply Ha.
  unfold page_of, ROUND_DOWN. change PAGE_SIZE with 4096 in *. Z.div_mod_to_equations; lia.
Qed.

Lemma zero_page_reads m pp j : is_index j → rd (zero_words m pp 512) (slot pp j) = 0.
Proof.
  intros Hj. unfold is_index, slot in *. rewrite rd_zero_words, decide_True; [done|]. split; [lia|].
  replace (pp + 8 * j - pp) with (j * 8) by lia. by apply Z.mod_mul.
Qed.

Lemma free_list_frame s l m :
  free_list_is s l → (∀ a, page_of a ∈ pages l → rd m a = rd (words s) a) → free_list_is (with_words s m) l.
Proof.
  intros [Hch Hok] Hf. split; [|done]. simpl. eapply chain_frame; [|exact Hch].
  intros c k Hin. destruct (ck_head l c k Hok Hin) as [[Hal _] _]. destruct (page_of_header c Hal) as [H1 H2].
  assert (c ∈ pages l) by (eapply head_in_pages; [by destruct Hok|done]).
  split; apply Hf; by rewrite ?H1, ?H2.
Qed.

Definition same_translation (s s' : mm) : Prop :=
  satp s' = satp s ∧
  ∀ r, Forall is_index r → length r = 3%nat →
       xlate (words s') (active_space_ptab s') r = xlate (words s) (active_space_ptab s) r.

(** Memory that agrees on every table slot has the same tables. *)
Lemma tab_frame m m' root q :
  (∀ q u j, (length q ≤ 1)%nat → Forall is_index q → tab m root q = Some u → is_index j →
     rd m' (slot u j) = rd m (slot u j)) →
  (length q ≤ 2)%nat → Forall is_index q → tab m' root q = tab m root q.
Proof.
  intros Hf. induction q as [|j q IH] using rev_ind; intros Hq Hqi; [done|].
  rewrite length_app in Hq. simpl in Hq. apply Forall_app in Hqi as [Hqi Hj]. apply Forall_cons in Hj as [Hj _].
  rewrite !tab_snoc, IH by (done || lia). destruct (tab m root q) as [u|] eqn:Hu; [simpl|done].
  apply child_frame. apply (Hf q); [lia|done..].
Qed.

Lemma xlate_frame m m' root q u r :
  (∀ q u j, (length q ≤ 2)%nat → Forall is_index q → tab m root q = Some u → is_index j →
     rd m' (slot u j) = rd m (slot u j)) →
  (length q + length r ≤ 3)%nat → Forall is_index q → Forall is_index r → tab m root q = Some u →
  xlate m' u r = xlate m u r.
Proof.
  intros Hf. revert q u. induction r as [|j r IH]; intros q u Hlen Hqi Hri Hu; [done|].
  apply Forall_cons in Hri as [Hj Hri]. simpl in Hlen. cbn [xlate].
  assert (pte_at m' (slot u j) = pte_at m (slot u j)) as -> by (unfold pte_at; by rewrite (Hf q) by (done || lia)).
  destruct (PTE_VALID (pte_at m (slot u j))) eqn:Hv; [|done].
  destruct (PTE_LEAF (pte_at m (slot u j))) eqn:Hl; [done|]. cbn [negb].
  destruct r as [|k r]; [done|]. apply (IH (q ++ [j])); [rewrite length_app; simpl in *; lia|..|done|].
  - apply Forall_app. split; [done|]. by apply Forall_cons.
  - rewrite tab_snoc, Hu. simpl. unfold child. by rewrite Hv, Hl.
Qed.

Definition is_table (s : mm) (u : Z) : Prop :=
  ∃ q, (length q ≤ 2)%nat ∧ Forall is_index q ∧ tab (words s) (active_space_ptab s) q = Some u.

(** From [s] to [s'] tables may have been added, taken from the free pages;
    nothing else changed. *)
Record grows (s : mm) (l : list (Z * Z)) (s' : mm) (l' : list (Z * Z)) : Prop := {
  gr_trans : same_translation s s';
  gr_free x : x ∈ pages l' → x ∈ pages l;
  gr_tab u : is_table s' u → is_table s u ∨ u ∈ pages l;
  gr_data x : page_of x ∉ pages l → ¬ is_table s (page_of x) → rd (words s') x = rd (words s) x
}.

Lemma grows_refl s l : grows s l s l.
Proof. split; auto. done. Qed.

Lemma grows_trans s l s1 l1 s2 l2 : grows s l s1 l1 → grows s1 l1 s2 l2 → grows s l s2 l2.
Proof.
  intros [T1 F1 B1 D1] [T2 F2 B2 D2]. split.
  - destruct T1 as [Ha Hb], T2 as [Hc Hd]. split; [congruence|]. intros r Hr Hr3. by rewrite Hd, Hb.
  - auto.
  - intros u Hu. destruct (B2 u Hu) as [?|?]; auto.
  - intros x Hx Hn. rewrite D2, D1; auto. intros Ht. destruct (B1 _ Ht); auto.
Qed.

(** The walk's allocation branch, as a memory [m3] that has the new table. *)
Lemma fresh_table s l t i :
  free_list_is s l → page_addr t → t ∉ pages l → is_index i → 
  (∃ pp l' s1 m3, alloc_phys_page s = (Ret pp, s1) ∧
     (zero_page pp;; set_pte (slot t i) (ptab_pte pp 0);; mret true) s1 = (Ret true, with_words s1 m3) ∧
     satp s1 = satp s ∧ page_addr pp ∧ pages l ≡ₚ pp :: pages l' ∧ free_list_is (with_words s1 m3) l' ∧
     pte_at m3 (slot t i) = ptab_pte pp 0 ∧ (∀ j, is_index j → rd m3 (slot pp j) = 0) ∧
     (∀ x, page_of x ∉ pages l → x ≠ slot t i → rd m3 x = rd (words s) x)) ∨
  (alloc_phys_page s = (Ret NULL, s) ∧ pages l = []).
Proof.
  intros Hl Hta Htf Hi.
  destruct (alloc_page_ok s l Hl) as [(pp & l' & s1 & Hrun & Hl' & Hperm & Hsatp & _ & Hpp & Hfr)|?];
    [left|by right].
  assert (NoDup (pages l)) as Hnd by (destruct Hl as [_ [_ Hn _]]; exact Hn).
  assert (pp ∈ pages l) as Hppf by (rewrite Hperm; by left).
  assert (pp ≠ t) as Hpt by (intros ->; done).
  assert (pp ∉ pages l') as Hppl' by (rewrite Hperm in Hnd; by apply NoDup_cons in Hnd as [? _]).
  assert (t ∉ pages l') as Htl' by (intros Hin; apply Htf; rewrite Hperm; by right).
  exists pp, l', s1, (wr (zero_words (words s1) pp 512) (slot t i) (word_of_pte (ptab_pte pp 0))).
  split; [exact Hrun|]. split; [unfold zero_page, set_pte; do 2 kmodify; reflexivity|].
  split; [exact Hsatp|]. split; [exact Hpp|]. split; [exact Hperm|]. split_and!.
  - apply free_list_frame; [exact Hl'|]. intros a Ha. rewrite rd_wr_ne.
    + apply zero_page_frame; [exact Hpp|]. intros E. rewrite E in Ha. exact (Hppl' Ha).
    + intros <-. rewrite slot_page in Ha by assumption. exact (Htl' Ha).
  - unfold pte_at. rewrite rd_wr_eq. apply pte_roundtrip, ptab_pte_ok.
  - intros j Hj. rewrite rd_wr_ne; [by apply zero_page_reads|].
    intros E. apply slot_inj in E as [? _]; try assumption. auto.
  - intros x Hx Hxt. rewrite rd_wr_ne by auto. rewrite zero_page_frame; [by apply Hfr|exact Hpp|].
    intros E. apply Hx. rewrite E. exact Hppf.
Qed.

Lemma descend_ok s l p t i :
  space_ok s l → (length p ≤ 1)%nat → Forall is_index p → is_index i →
  tab (words s) (active_space_ptab s) p = Some t →
  ∃ r s' l', descend t i true s = (Ret r, s') ∧ space_ok s' l' ∧ grows s l s' l' ∧
    (length (pages l) ≤ S (length (pages l')))%nat ∧
    (r ≠ NULL → tab (words s') (active_space_ptab s') (p ++ [i]) = Some r) ∧
    (r = NULL → s' = s ∧
       ((PTE_VALID (pte_at (words s) (slot t i)) && PTE_LEAF (pte_at (words s) (slot t i)))%bool = true ∨ pages l = [])).
Proof.
  intros [Hl Hok] Hp Hpi Hi Ht. set (root := active_space_ptab s) in *. unfold descend.
  destruct (tk_addr _ _ _ Hok p t ltac:(lia) Hpi Ht) as [Hta Htf].
  unfold get_pte. kgets.
  destruct (PTE_VALID (pte_at (words s) (slot t i))) eqn:Hv; cbn [negb].
  - rewrite (bind_ret (mret true) _ s s true eq_refl). cbn [negb]. kgets.
    destruct (PTE_LEAF (pte_at (words s) (slot t i))) eqn:Hlf; eexists _, s, l;
      (split; [reflexivity|]); (split; [by split|]); (split; [apply grows_refl|]); (split; [lia|]).
    + split; [done|]. intros _. auto.
    + assert (tab (words s) root (p ++ [i]) = Some (pageptr (ppn (pte_at (words s) (slot t i))))) as Hc.
      { rewrite tab_snoc, Ht. simpl. unfold child. by rewrite Hv, Hlf. }
      split; [done|]. intros Hn. exfalso.
      assert (Forall is_index (p ++ [i])) as Hpi' by (apply Forall_app; split; [done|by constructor]).
      assert (length (p ++ [i]) ≤ 2)%nat as Hp' by (rewrite length_app; simpl; lia).
      destruct (tk_addr _ _ _ Hok _ _ Hp' Hpi' Hc) as [[_ Ha] _]. rewrite Hn in Ha. unfold NULL in Ha. lia.
  - destruct (fresh_table s l t i Hl Hta Htf Hi)
      as [(pp & l' & s1 & m3 & Hrun & Hset & Hsatp & Hpp & Hperm & Hl' & Hnew & Hzero & Hsame)|[Hrun Hnil]].
    2: { exists NULL, s, l. split.
         { erewrite bind_ret; [|krun Hrun; reflexivity]. done. }
         split; [by split|]. split; [apply grows_refl|]. split; [lia|]. split; [done|]. auto. }
    assert (pp ≠ NULL) as Hnn by (destruct Hpp as [_ ?]; unfold NULL; lia).
    assert (NoDup (pages l)) as Hnd by (destruct Hl as [_ [_ Hn _]]; exact Hn).
    assert (pp ∈ pages l) as Hppf by (rewrite Hperm; by left).
    assert (active_space_ptab (with_words s1 m3) = root) as Hroot by (unfold active_space_ptab; simpl; by rewrite Hsatp).
    exists pp, (with_words s1 m3), l'. split.
    { erewrite bind_ret; [|krun Hrun; rewrite (proj2 (Z.eqb_neq pp NULL)) by exact Hnn; exact Hset].
      cbn [negb]. kgets. cbn [words with_words]. rewrite Hnew. change (PTE_LEAF (ptab_pte pp 0)) with false. cbv iota.
      unfold ptab_pte. cbn [ppn]. destruct (page_addr_ppn pp Hpp) as [-> ->]. done. }
    clear Hset Hrun. split; [|split; [|split_and!]].
    + split; [exact Hl'|]. rewrite Hroot. by eapply (new_tables_ok (words s) m3 root (pages l) p t i pp).
    + split.
      * split; [exact Hsatp|]. intros r Hr Hr3. rewrite Hroot.
        eapply (new_xlate (words s) m3 root (pages l) p t i pp) with (q := []); try done; simpl; lia.
      * intros x Hx. rewrite Hperm. by right.
      * intros u (q & Hq & Hqi & Hu). rewrite Hroot in Hu.
        rewrite (new_tab (words s) m3 root (pages l) p t i pp) in Hu by (done || lia).
        case_decide; [injection Hu as <-; by right|]. left. by exists q.
      * intros x Hx Hn. apply Hsame; [done|]. intros ->. apply Hn. rewrite slot_page by done.
        exists p. split_and!; [lia|done|done].
    + rewrite Hperm. simpl. lia.
    + intros _. rewrite Hroot, tab_snoc.
      rewrite (new_tab (words s) m3 root (pages l) p t i pp) by (done || lia).
      rewrite decide_False by (intros E%(f_equal length); rewrite length_app in E; simpl in E; lia).
      rewrite Ht. simpl. by apply new_child.
    + done.
Qed.

(** The page of a virtual address, as Sv39 sees it: address bits 38 to 12. *)
Definition vpage (va : Z) : Z := va / PAGE_SIZE mod 2 ^ 27.

Lemma vpns_page va vb : vpns va = vpns vb ↔ vpage va = vpage vb.
Proof.
  unfold vpns, VPN2, VPN1, VPN0, VPN, vpage. change PAGE_SIZE with 4096. change PTE_CNT with 512.
  rewrite !Z.shiftr_div_pow2 by lia. change (2 * 9) with 18. change (1 * 9) with 9. change (0 * 9) with 0.
  set (x := va / 4096). set (y := vb / 4096). change (2 ^ 0) with 1. rewrite !Z.div_1_r.
  assert (∀ z, z mod 2 ^ 27 = z mod 512 + 512 * (z / 2 ^ 9 mod 512 + 512 * (z / 2 ^ 18 mod 512))) as Hz.
  { intros z. change (2 ^ 27) with (512 * (512 * 512)). rewrite Z.rem_mul_r by lia.
    change (2 ^ 9) with 512. change (2 ^ 18) with (512 * 512). rewrite (Z.rem_mul_r (z / 512)) by lia.
    by rewrite Z.div_div by lia. }
  rewrite !Hz. split; [intros [= -> -> ->]; done|]. intros E.
  assert (∀ z, 0 ≤ z mod 512 < 512) as Hb by (intros z; apply Z.mod_pos_bound; lia).
  pose proof (Hb x). pose proof (Hb y). pose proof (Hb (x / 2 ^ 9)). pose proof (Hb (y / 2 ^ 9)).
  pose proof (Hb (x / 2 ^ 18)). pose proof (Hb (y / 2 ^ 18)).
  assert (x mod 512 = y mod 512) as -> by lia. assert (x / 2 ^ 9 mod 512 = y / 2 ^ 9 mod 512) as -> by lia.
  assert (x / 2 ^ 18 mod 512 = y / 2 ^ 18 mod 512) as -> by lia. done.
Qed.

Lemma same_translate s s' va :
  same_translation s s' → translate (words s') (active_space_ptab s') va = translate (words s) (active_space_ptab s) va.
Proof. intros [_ H]. unfold translate. by rewrite H by (done || apply VPN_index). Qed.

Lemma land_page_mask v : Z.land v (PAGE_SIZE - 1) = v mod PAGE_SIZE.
Proof. change (PAGE_SIZE - 1) with (Z.ones 12). by rewrite Z.land_ones. Qed.

(** A super-page on the way of the walk. *)
Definition superpage (m : gmap Z Z) (root va : Z) : Prop :=
  ∃ e below, xlate m root (vpns va) = Some (e, below) ∧ below ≠ [].

Lemma xlate_leaf_here m t i r e :
  pte_at m (slot t i) = e → (PTE_VALID e && PTE_LEAF e)%bool = true → xlate m t (i :: r) = Some (e, r).
Proof. intros He Hb. apply andb_true_iff in Hb as [Hv Hl]. cbn [xlate]. by rewrite He, Hv, Hl. Qed.

Ltac indices := repeat (apply Forall_cons; split; [assumption|]); apply Forall_nil_2.

(** The walk reaches the last-level slot, or reports why not. *)
Lemma walk_ok s l vma :
  space_ok s l →
  ∃ r s' l', walk vma true s = (Ret r, s') ∧ space_ok s' l' ∧ grows s l s' l' ∧
    (length (pages l) ≤ 2 + length (pages l'))%nat ∧
    ((∃ t0, tab (words s') (active_space_ptab s') [VPN2 vma; VPN1 vma] = Some t0 ∧
            r = slot t0 (VPN0 vma) ∧ r ≠ NULL) ∨
     (r = NULL ∧ (superpage (words s) (active_space_ptab s) vma ∨ (length (pages l) < 2)%nat))).
Proof.
  intros Hsp. pose proof (VPN_index vma) as Hidx. unfold vpns in Hidx.
  apply Forall_cons in Hidx as [H2 Hidx]. apply Forall_cons in Hidx as [H1 Hidx]. apply Forall_cons in Hidx as [H0 _].
  unfold walk. kgets. set (root := active_space_ptab s).
  destruct (descend_ok s l [] root (VPN2 vma) Hsp) as (r1 & s1 & l1 & Hd1 & Hsp1 & Htr1 & Hlen1 & Hnn1 & Hn1);
    [simpl; lia|constructor|done|done|]. krun Hd1.
  destruct (r1 =? NULL) eqn:E1; kbool.
  { exists NULL, s1, l1. split; [done|]. split; [done|]. split; [done|]. split; [lia|]. right. split; [done|].
    destruct (Hn1 E1) as [_ [Hb|Hnil]]; [left|right; rewrite Hnil; simpl; lia].
    eexists _, _. split; [by eapply xlate_leaf_here|done]. }
  specialize (Hnn1 E1).
  destruct (descend_ok s1 l1 [VPN2 vma] r1 (VPN1 vma) Hsp1) as (r0 & s0 & l0 & Hd0 & Hsp0 & Htr0 & Hlen0 & Hnn0 & Hn0);
    [simpl; lia|indices|done|exact Hnn1|]. krun Hd0.
  pose proof (grows_trans _ _ _ _ _ _ Htr1 Htr0) as Htr.
  destruct (r0 =? NULL) eqn:E0; kbool.
  { exists NULL, s0, l0. split; [done|]. split; [done|]. split; [done|]. split; [lia|]. right. split; [done|].
    destruct (Hn0 E0) as [_ [Hb|Hnil]]; [left|right; rewrite Hnil in Hlen1; simpl in Hlen1; lia].
    destruct (gr_trans _ _ _ _ Htr1) as [_ Htr1']. unfold superpage. fold root in Htr1' |- *. rewrite <- Htr1' by (done || apply VPN_index).
    simpl in Hnn1. apply child_Some in Hnn1 as (Hv & Hl & ->).
    eexists _, _. split; [|shelve]. unfold vpns. cbn [xlate]. rewrite Hv, Hl. cbn [negb].
    by eapply xlate_leaf_here. Unshelve. done. }
  specialize (Hnn0 E0). exists (slot r0 (VPN0 vma)), s0, l0. split; [done|]. split; [done|]. split; [done|]. split; [lia|].
  left. exists r0. split; [done|]. split; [done|]. destruct Hsp0 as [_ Hok0].
  destruct (tk_addr _ _ _ Hok0 [VPN2 vma; VPN1 vma] r0) as [[_ Ha] _]; [simpl; lia|indices|done|].
  unfold slot, NULL, is_index in *. lia.
Qed.

Lemma map_page_ok s l vma pp fl :
  space_ok s l → wellformed vma = true → vma mod PAGE_SIZE = 0 → vma ≠ 0 → page_addr pp →
  0 ≤ fl < 2 ^ 8 → Z.land fl (Z.lor PTE_R (Z.lor PTE_W PTE_X)) ≠ 0 →
  ∃ r s' l', map_page vma pp fl s = (Ret r, s') ∧ space_ok s' l' ∧ satp s' = satp s ∧
    (∀ x, page_of x ∉ pages l → ¬ is_table s (page_of x) → rd (words s') x = rd (words s) x) ∧
    (∀ u, is_table s' u → is_table s u ∨ u ∈ pages l) ∧ (∀ x, x ∈ pages l' → x ∈ pages l) ∧
    (length (pages l) ≤ 2 + length (pages l'))%nat ∧
    (∀ va, superpage (words s') (active_space_ptab s') va → superpage (words s) (active_space_ptab s) va) ∧
    ((r = vma ∧ ∀ va, translate (words s') (active_space_ptab s') va =
        if decide (vpage va = vpage vma)
        then Some (pp + va mod PAGE_SIZE, Z.lor fl (Z.lor PTE_A (Z.lor PTE_D PTE_V)))
        else translate (words s) (active_space_ptab s) va) ∨
     (r = NULL ∧
      (∀ va, translate (words s') (active_space_ptab s') va = translate (words s) (active_space_ptab s) va) ∧
      (superpage (words s) (active_space_ptab s) vma ∨ (length (pages l) < 2)%nat))).
Proof.
  intros Hsp Hwf Hal Hv0 Hpp Hfl Hrwx. unfold map_page. rewrite land_page_mask, Hwf, Hal. cbn [negb orb Z.eqb].
  destruct (walk_ok s l vma Hsp) as (r & s1 & l1 & Hw & Hsp1 & Htr & Hlen & Hr). krun Hw.
  assert (∀ va, superpage (words s1) (active_space_ptab s1) va → superpage (words s) (active_space_ptab s) va) as Hsup.
  { intros va (e & b & Hx & Hb). exists e, b. split; [|done]. rewrite <- Hx. destruct (gr_trans _ _ _ _ Htr) as [_ Hx']. symmetry. apply Hx'; [apply VPN_index|done]. }
  destruct Hr as [(t0 & Ht0 & -> & Hnn)|[-> Hwhy]].
  2: { exists NULL, s1, l1. split; [done|]. split; [done|]. split; [apply Htr|].
       split; [apply Htr|]. split; [apply Htr|]. split; [apply Htr|]. split; [done|]. split; [done|]. right. split; [done|].
       split; [|done]. intros va. apply same_translate, Htr. }
  rewrite (proj2 (Z.eqb_neq _ _)) by exact Hnn. unfold set_pte. kmodify.
  pose proof (VPN_index vma) as Hidx. unfold vpns in Hidx.
  apply Forall_cons in Hidx as [H2 Hidx]. apply Forall_cons in Hidx as [H1 Hidx]. apply Forall_cons in Hidx as [H0 _].
  assert (Forall is_index [VPN2 vma; VPN1 vma]) as Hpi by (indices).
  destruct Hsp1 as [Hl1 Hok1].
  destruct (tk_addr _ _ _ Hok1 [VPN2 vma; VPN1 vma] t0 ltac:(simpl; lia) Hpi Ht0) as [Hta Htf].
  eexists vma, _, l1. split; [reflexivity|]. split; [split|].
  - apply free_list_frame; [done|]. intros a Ha. apply rd_wr_ne. intros <-. by rewrite slot_page in Ha.
  - by apply (leaf_tables_ok _ _ _ [VPN2 vma; VPN1 vma]).
  - split; [apply Htr|]. split; [|split; [|split; [apply Htr|]]].
    { intros x Hx Hn. cbn [words with_words]. rewrite rd_wr_ne; [by apply Htr|]. intros <-.
      rewrite slot_page in Hx, Hn by done.
      destruct (gr_tab _ _ _ _ Htr t0) as [?|?]; [exists [VPN2 vma; VPN1 vma]; done|done|done]. }
    { intros u (q & Hq & Hqi & Hu). apply (gr_tab _ _ _ _ Htr). exists q. split; [done|]. split; [done|].
      rewrite <- Hu. symmetry. by apply (leaf_tab _ _ _ [VPN2 vma; VPN1 vma] t0 (VPN0 vma) (leaf_pte pp fl) Hok1). }
    assert (∀ va, xlate (words (with_words s1 (wr (words s1) (slot t0 (VPN0 vma)) (word_of_pte (leaf_pte pp fl))))) (active_space_ptab s1) (vpns va) =
      if decide (vpns va = vpns vma) then Some (leaf_pte pp fl, []) else xlate (words s1) (active_space_ptab s1) (vpns va)) as Hxl.
    { intros va. cbn [words with_words].
      rewrite (leaf_xlate (words s1) (active_space_ptab s1) (pages l1) [VPN2 vma; VPN1 vma] t0 (VPN0 vma)
        (leaf_pte pp fl) Hok1 eq_refl Hpi H0 Ht0 (leaf_pte_ok pp fl) []); [|done|done|done|apply VPN_index|done].
      change ([VPN2 vma; VPN1 vma] ++ [VPN0 vma]) with (vpns vma). change ([] ++ vpns va) with (vpns va).
      destruct (leaf_pte_bits pp fl Hfl Hrwx) as [Hbv Hbl]. by rewrite Hbv, Hbl. }
    split; [done|]. split.
    { intros va (e & b & Hx & Hb). apply Hsup. exists e, b. split; [|done]. rewrite <- Hx. etrans; [|symmetry; apply Hxl].
      rewrite decide_False; [done|]. intros Ev. rewrite Hxl, decide_True in Hx by done. by simplify_eq. }
    left. split; [done|]. intros va. rewrite <- (same_translate s s1 va (gr_trans _ _ _ _ Htr)).
    unfold translate. change (active_space_ptab (with_words s1 _)) with (active_space_ptab s1). rewrite Hxl.
    destruct (decide (vpage va = vpage vma)) as [E|E].
    + rewrite decide_True by (by apply vpns_page). cbn [length]. change (2 ^ (12 + 9 * Z.of_nat 0)) with 4096.
      destruct (page_addr_ppn pp Hpp) as [Hp1 Hp2]. unfold leaf_pte. cbn [ppn flags]. rewrite Hp1.
      destruct Hpp as [Hpa Hpr]. change PAGE_SIZE with 4096 in *. rewrite pagenum_div.
      replace (pp / 4096 * 4096) with pp by (Z.div_mod_to_equations; lia). rewrite Hpa. simpl.
      do 2 f_equal. unfold u8. apply Z.mod_small. split; [apply Z.lor_nonneg; split; [lia|done]|].
      apply Z.log2_lt_cancel. rewrite Z.log2_lor by (done || lia).
      apply Z.max_lub_lt; [|done]. destruct (decide (fl = 0)) as [->|]; [done|]. change (Z.log2 (2 ^ 8)) with 8. apply Z.log2_lt_pow2; lia.
    + rewrite decide_False; [done|]. by intros Ev%vpns_page.
Qed.

(** C3. [map_page] changes the translation of exactly one page: on success
    every address of the page [vma] translates to the same offset of the
    physical page [pp] with the requested permissions (and A, D, V), every
    other address translates as before, and the tables stay a well-formed
    tree apart from the free pages.  It fails only because a super-page is in
    the way or fewer than two pages are free, and then changes no
    translation. *)
Theorem map_page_translation s l vma pp fl :
  space_ok s l → wellformed vma = true → vma mod PAGE_SIZE = 0 → vma ≠ 0 → page_addr pp →
  0 ≤ fl < 2 ^ 8 → Z.land fl (Z.lor PTE_R (Z.lor PTE_W PTE_X)) ≠ 0 →
  ∃ r s' l', map_page vma pp fl s = (Ret r, s') ∧ space_ok s' l' ∧ satp s' = satp s ∧
    ((r = vma ∧ ∀ va, translate (words s') (active_space_ptab s') va =
        if decide (vpage va = vpage vma)
        then Some (pp + va mod PAGE_SIZE, Z.lor fl (Z.lor PTE_A (Z.lor PTE_D PTE_V)))
        else translate (words s) (active_space_ptab s) va) ∨
     (r = NULL ∧
      (∀ va, translate (words s') (active_space_ptab s') va = translate (words s) (active_space_ptab s) va) ∧
      (superpage (words s) (active_space_ptab s) vma ∨ (length (pages l) < 2)%nat))).
Proof.
  intros Hsp Hwf Hal Hv0 Hpp Hfl Hrwx.
  destruct (map_page_ok s l vma pp fl) as (r & s' & l' & Hrun & Hsp' & Hs & _ & _ & _ & _ & _ & Hr); try done.
  exists r, s', l'. auto.
Qed.

(** ** Page faults *)

(** Writes outside the tables and the free pages keep the space. *)
Lemma space_frame s l s' l' :
  space_ok s l → free_list_is s' l' → satp s' = satp s →
  (∀ x, x ∈ pages l' → ¬ is_table s x) →
  (∀ x, is_table s (page_of x) → rd (words s') x = rd (words s) x) →
  space_ok s' l' ∧ same_translation s s' ∧ (∀ u, is_table s' u ↔ is_table s u).
Proof.
  intros [_ Hok] Hl' Hsatp Hdis Hf.
  assert (active_space_ptab s' = active_space_ptab s) as Hroot by (unfold active_space_ptab; by rewrite Hsatp).
  assert (∀ q u j, (length q ≤ 2)%nat → Forall is_index q →
            tab (words s) (active_space_ptab s) q = Some u → is_index j →
            rd (words s') (slot u j) = rd (words s) (slot u j)) as Hslots.
  { intros q u j Hq Hqi Hu Hj. apply Hf. rewrite slot_page; [|by eapply (tk_addr _ _ _ Hok q)|done]. by exists q. }
  assert (∀ q, (length q ≤ 2)%nat → Forall is_index q →
            tab (words s') (active_space_ptab s') q = tab (words s) (active_space_ptab s) q) as Htab.
  { intros q Hq Hqi. rewrite Hroot. apply tab_frame; [|done|done].
    intros q' u j Hq' Hqi' Hu Hj. apply (Hslots q'); [lia|done..]. }
  split_and!.
  - split; [done|]. split.
    + intros q u Hq Hqi Hu. rewrite Htab in Hu by done. split; [by apply (tk_addr _ _ _ Hok q u)|].
      intros Hin. apply (Hdis u Hin). by exists q.
    + intros q1 q2 u Hq1 Hi1 Hq2 Hi2. rewrite !Htab by done. by apply (tk_inj _ _ _ Hok).
  - split; [done|]. intros r Hr Hr3. rewrite Hroot.
    apply (xlate_frame _ _ (active_space_ptab s) []); try done. simpl. lia.
  - intros u. split; intros (q & Hq & Hqi & Hu); exists q; split_and!; try done; [by rewrite <- Htab|by rewrite Htab].
Qed.

Lemma table_not_free s l u : space_ok s l → is_table s u → page_addr u ∧ u ∉ pages l.
Proof. intros [_ Hok] (q & Hq & Hqi & Hu). by apply (tk_addr _ _ _ Hok q u). Qed.

Lemma zero_page_run pp s : zero_page pp s = (Ret tt, with_words s (zero_words (words s) pp 512)).
Proof. done. Qed.

(** Taking a page out of the free list and zeroing it. *)
Lemma take_zero_page s l :
  space_ok s l →
  (∃ pp l1 s1 s2, alloc_phys_page s = (Ret pp, s1) ∧ zero_page pp s1 = (Ret tt, s2) ∧ page_addr pp ∧
     in_ram pp ∧ pages l ≡ₚ pp :: pages l1 ∧ space_ok s2 l1 ∧ same_translation s s2 ∧
     (∀ u, is_table s2 u ↔ is_table s u) ∧ ∀ j, is_index j → rd (words s2) (slot pp j) = 0) ∨
  (alloc_phys_page s = (Ret NULL, s) ∧ pages l = []).
Proof.
  intros Hsp. destruct Hsp as [Hl Hok].
  destruct (alloc_page_ok s l Hl) as [(pp & l1 & s1 & Hrun & Hl1 & Hperm & Hsatp & _ & Hpp & Hfr)|?];
    [left|by right].
  assert (NoDup (pages l)) as Hnd by (destruct Hl as [_ [_ Hn _]]; exact Hn).
  assert (pp ∈ pages l) as Hppf by (rewrite Hperm; by left).
  assert (pp ∉ pages l1) as Hpp1 by (rewrite Hperm in Hnd; by apply NoDup_cons in Hnd as [? _]).
  assert (in_ram pp) as Hram by (destruct Hl as [_ [_ _ Hr]]; by apply (proj1 (Forall_forall _ _) Hr)).
  set (s2 := with_words s1 (zero_words (words s1) pp 512)).
  exists pp, l1, s1, s2. split; [exact Hrun|]. split; [apply zero_page_run|]. split; [exact Hpp|]. split; [exact Hram|].
  split; [exact Hperm|]. clear Hrun.
  destruct (space_frame s l s2 l1) as (Hsp2 & Htr & Ht).
  - by split.
  - apply free_list_frame; [exact Hl1|]. intros a Ha. apply zero_page_frame; [exact Hpp|]. intros E. by rewrite E in Ha.
  - exact Hsatp.
  - intros x Hx Ht. apply (table_not_free s l x) in Ht as [_ Ht]; [|by split]. apply Ht. rewrite Hperm. by right.
  - intros x Ht. apply (table_not_free s l) in Ht as [_ Ht]; [|by split]. unfold s2. cbn [words with_words].
    rewrite zero_page_frame; [by apply Hfr|exact Hpp|]. intros E. by rewrite E in Ht.
  - split; [exact Hsp2|]. split; [exact Htr|]. split; [exact Ht|]. intros j Hj. by apply zero_page_reads.
Qed.

Lemma user_page vma :
  UMEM_START_VMA ≤ vma < UMEM_END_VMA →
  let p := Z.land vma (u64 (Z.lnot (PAGE_SIZE - 1))) in
  wellformed p = true ∧ p mod PAGE_SIZE = 0 ∧ p ≠ 0 ∧ vpage p = vpage vma.
Proof.
  unfold UMEM_START_VMA, UMEM_END_VMA. intros Hr.
  assert (Z.land vma (u64 (Z.lnot (PAGE_SIZE - 1))) = vma / 4096 * 4096) as ->.
  { change (u64 (Z.lnot (PAGE_SIZE - 1))) with (Z.shiftl (Z.ones 52) 12).
    rewrite <- (Z.shiftl_mul_pow2 _ 12), <- (Z.shiftr_div_pow2 _ 12) by lia.
    apply Z.bits_inj'. intros n Hn. rewrite Z.land_spec, !Z.shiftl_spec by lia.
    destruct (decide (n < 12)).
    - rewrite !(Z.testbit_neg_r _ (n - 12)) by lia. apply andb_false_r.
    - rewrite Z.shiftr_spec, Z.testbit_ones_nonneg by lia. replace (n - 12 + 12) with n by lia.
      destruct (n - 12 <? 52) eqn:E; kbool; [apply andb_true_r|].
      rewrite (Z.bits_above_log2 vma n); [done|lia|]. apply Z.log2_lt_pow2; [lia|].
      apply Z.lt_le_trans with (2 ^ 64); [lia|]. apply Z.pow_le_mono_r; lia. }
  cbv zeta. assert (3221225472 ≤ vma / 4096 * 4096 < 2 ^ 32) by (Z.div_mod_to_equations; lia).
  set (p := vma / 4096 * 4096) in *. split_and!.
  - unfold wellformed. assert (s64 p = p) as -> by (unfold s64; rewrite Z.mod_small by lia; lia).
    rewrite Z.shiftr_div_pow2 by lia. rewrite Z.div_small by lia. done.
  - unfold p. by apply Z.mod_mul.
  - lia.
  - unfold vpage, p. change PAGE_SIZE with 4096. by rewrite Z.div_mul.
Qed.

(** Giving a page back that no table and no free chunk uses. *)
Lemma give_page_back s l pp :
  space_ok s l → in_ram pp → pp ∉ pages l → ¬ is_table s pp →
  ∃ s', free_phys_page pp s = (Ret tt, s') ∧ space_ok s' ((pp, 1) :: l) ∧ same_translation s s'.
Proof.
  intros Hsp Hram Hfree Hnt. assert (block pp 1 = [pp]) as Hb by (unfold block, page; simpl; by rewrite Z.add_0_r).
  destruct (free_phys_pages_ok s l pp 1) as (s' & Hrun & Hl' & [Hs _] & Hfr).
  - apply Hsp.
  - lia.
  - rewrite Hb. by apply Forall_singleton.
  - rewrite Hb. by intros x ->%list_elem_of_singleton.
  - exists s'. split; [exact Hrun|]. clear Hrun. destruct (space_frame s l s' ((pp, 1) :: l)) as (H1 & H2 & _); try done.
    + rewrite pages_cons, Hb. intros x [->|Hx]%elem_of_cons; [done|].
      intros Ht. apply (table_not_free s l x) in Ht as [_ ?]; done.
    + intros x Hx. apply Hfr. intros E. by rewrite E in Hx.
Qed.

(** A fault that can be resolved takes at most three of the free pages and puts
    no super-page in the way of later ones. *)
Lemma user_fault_page s l vma :
  space_ok s l → UMEM_START_VMA ≤ vma < UMEM_END_VMA → ¬ superpage (words s) (active_space_ptab s) vma → (3 ≤ length (pages l))%nat →
  ∃ s' l' pp, handle_umode_page_fault vma s = (Ret 1, s') ∧ space_ok s' l' ∧ satp s' = satp s ∧
    (length (pages l) ≤ 3 + length (pages l'))%nat ∧ (∀ x, x ∈ pages l' → x ∈ pages l) ∧ pp ∈ pages l ∧
    (∀ va, superpage (words s') (active_space_ptab s') va → superpage (words s) (active_space_ptab s) va) ∧
    ∀ va, translate (words s') (active_space_ptab s') va =
      if decide (vpage va = vpage vma) then Some (pp + va mod PAGE_SIZE, 0xDF) else translate (words s) (active_space_ptab s) va.
Proof.
  intros Hsp Hin Hns Hlen. unfold handle_umode_page_fault. rewrite (proj2 (Z.ltb_ge _ _)), (proj2 (Z.leb_gt _ _)) by lia. cbn [orb].
  destruct (user_page vma Hin) as (Hwf & Hal & Hnz & Hvp). set (pv := Z.land _ _) in *.
  destruct (take_zero_page s l Hsp) as [(pp & l1 & s1 & s2 & Ha & Hz & Hpp & Hram & Hperm & Hsp2 & Htr2 & Ht2 & _)|[_ Hnil]];
    [|rewrite Hnil in Hlen; simpl in Hlen; lia].
  krun Ha. rewrite (proj2 (Z.eqb_neq pp NULL)) by (destruct Hpp as [_ ?]; unfold NULL; lia). krun Hz. rewrite Hperm in Hlen. simpl in Hlen.
  assert (∀ va, superpage (words s2) (active_space_ptab s2) va → superpage (words s) (active_space_ptab s) va) as Hsup.
  { intros va (e & b & Hx & Hb). exists e, b. split; [|done]. rewrite <- Hx. destruct Htr2 as [_ Hx']. symmetry. apply Hx'; [apply VPN_index|done]. }
  destruct (map_page_ok s2 l1 pv pp (Z.lor PTE_R (Z.lor PTE_W (Z.lor PTE_X PTE_U))) Hsp2 Hwf Hal Hnz Hpp)
    as (r & s3 & l3 & Hm & Hsp3 & Hs3 & _ & _ & Hf3 & Hl3 & Hsup3 & Hr); [done|done|]. krun Hm.
  destruct Hr as [[-> Hx]|(_ & _ & [Hs|?])]; [| |lia].
  - rewrite (proj2 (Z.eqb_neq _ NULL)) by done. exists s3, l3, pp. split; [done|]. split; [done|].
    split; [rewrite Hs3; apply Htr2|]. split; [rewrite Hperm; simpl; lia|]. split; [intros x Hx3; rewrite Hperm; right; by apply Hf3|].
    split; [rewrite Hperm; by left|]. split; [auto|]. intros va. rewrite Hx, Hvp. case_decide; [done|]. by apply same_translate.
  - destruct Hns. apply Hsup in Hs as (e & b & He & Hb). exists e, b. by rewrite <- (proj2 (vpns_page pv vma) Hvp).
Qed.

(** Demand paging: a fault outside the user range is refused without any
    effect; a fault inside it either installs a zero-filled page, taken from
    the free pages, readable, writable, executable and user accessible at
    exactly the faulting page, or reports failure (a super-page in the way or
    fewer than three free pages), changing no translation. *)
Lemma umode_page_fault_correct s l vma :
  space_ok s l →
  (vma < UMEM_START_VMA ∨ UMEM_END_VMA ≤ vma → handle_umode_page_fault vma s = (Ret 0, s)) ∧
  (UMEM_START_VMA ≤ vma < UMEM_END_VMA →
   ∃ r s' l', handle_umode_page_fault vma s = (Ret r, s') ∧ space_ok s' l' ∧
    ((r = 1 ∧ ∃ pp, pp ∈ pages l ∧ (∀ j, is_index j → rd (words s') (slot pp j) = 0) ∧
        ∀ va, translate (words s') (active_space_ptab s') va =
          if decide (vpage va = vpage vma) then Some (pp + va mod PAGE_SIZE, 0xDF)
          else translate (words s) (active_space_ptab s) va) ∨
     (r = 0 ∧
      (∀ va, translate (words s') (active_space_ptab s') va = translate (words s) (active_space_ptab s) va) ∧
      (superpage (words s) (active_space_ptab s) vma ∨ (length (pages l) < 3)%nat)))).
Proof.
  intros Hsp. unfold handle_umode_page_fault. split.
  { intros Hout. destruct (_ || _)%bool eqn:E; [done|]. kbool. lia. }
  intros Hin. rewrite (proj2 (Z.ltb_ge _ _)), (proj2 (Z.leb_gt _ _)) by lia. cbn [orb].
  destruct (user_page vma Hin) as (Hwf & Hal & Hnz & Hvp). set (pv := Z.land _ _) in *.
  destruct (take_zero_page s l Hsp)
    as [(pp & l1 & s1 & s2 & Ha & Hz & Hpp & Hram & Hperm & Hsp2 & Htr2 & Ht2 & Hzero)|[Ha Hnil]].
  2: { exists 0, s, l. split; [by krun Ha|]. split; [done|]. right. split; [done|]. split; [done|].
       right. rewrite Hnil. simpl. lia. }
  krun Ha. rewrite (proj2 (Z.eqb_neq pp NULL)) by (destruct Hpp as [_ ?]; unfold NULL; lia). krun Hz. clear Ha Hz.
  assert (pp ∈ pages l) as Hppf by (rewrite Hperm; by left).
  assert (¬ is_table s2 pp) as Hnt2 by (intros Ht%Ht2; by apply (table_not_free s l pp) in Ht as [_ ?]).
  assert (pp ∉ pages l1) as Hpp1.
  { destruct Hsp as [[_ [_ Hnd _]] _]. rewrite Hperm in Hnd. by apply NoDup_cons in Hnd as [? _]. }
  destruct (map_page_ok s2 l1 pv pp (Z.lor PTE_R (Z.lor PTE_W (Z.lor PTE_X PTE_U))) Hsp2 Hwf Hal Hnz Hpp)
    as (r & s3 & l3 & Hm & Hsp3 & Hs3 & Hd3 & Ht3 & Hf3 & _ & _ & Hr); [done|done|]. krun Hm. clear Hm.
  destruct Hr as [[-> Hx]|(-> & Hx & Hwhy)].
  - rewrite (proj2 (Z.eqb_neq _ NULL)) by done. exists 1, s3, l3. split; [done|]. split; [done|]. left.
    split; [done|]. exists pp. split; [done|]. split.
    + intros j Hj. rewrite Hd3; [by apply Hzero|rewrite slot_page; done..].
    + intros va. rewrite Hx, Hvp. case_decide; [done|]. by apply same_translate.
  - destruct (give_page_back s3 l3 pp Hsp3 Hram) as (s4 & Hg & Hsp4 & Htr4).
    { intros H. by apply Hpp1, Hf3. }
    { intros H. by apply Ht3 in H as [?|?]. }
    cbn [Z.eqb NULL]. krun Hg. exists 0, s4, ((pp, 1) :: l3). split; [done|]. split; [done|]. right. split; [done|]. split.
    + intros va. rewrite (same_translate s3 s4 va Htr4), Hx. by apply same_translate.
    + destruct Hwhy as [(e & b & He & Hb)|Hlen]; [left|right; rewrite Hperm; simpl; lia].
      exists e, b. split; [|done]. rewrite <- He. destruct Htr2 as [_ Htr2].
      rewrite Htr2 by (apply VPN_index || done). by rewrite (proj2 (vpns_page pv vma) Hvp).
Qed.


(** ** A concrete space: an empty root table and [n] free pages *)

Definition demo_root : Z := 0x80400000.
Definition small_space (n : Z) : mm := Mm {[ 0x80300008 := n ]} 0x80300000 (ptab_to_mtag demo_root 0) 0.
Definition demo_space : mm := Mm (words demo) (free_chunk_list demo) (ptab_to_mtag demo_root 0) 0.

Lemma small_root n : active_space_ptab (small_space n) = demo_root.
Proof. by vm_compute. Qed.
Lemma mtag_roundtrip : active_space_ptab demo_space = demo_root.
Proof. exact (small_root 4). Qed.

Lemma small_pte n i : is_index i → pte_at (words (small_space n)) (slot demo_root i) = pte_of_word 0.
Proof.
  intros Hi. unfold pte_at. f_equal. unfold rd, small_space. cbn [words].
  rewrite lookup_singleton_ne; [done|]. unfold slot, demo_root, is_index in *. lia.
Qed.

Lemma small_tab n p t :
  Forall is_index p → tab (words (small_space n)) demo_root p = Some t → p = [] ∧ t = demo_root.
Proof.
  revert t. induction p as [|i p IH] using rev_ind; intros t Hp; [by intros [= <-]|].
  apply Forall_app in Hp as [Hp Hi]. apply Forall_cons in Hi as [Hi _]. rewrite tab_snoc.
  destruct (tab (words (small_space n)) demo_root p) as [u|] eqn:Hu; [|done].
  destruct (IH u Hp eq_refl) as [-> ->]. cbn [mbind option_bind]. unfold child. by rewrite small_pte.
Qed.

Lemma small_space_ok n : 0 < n ≤ 256 → space_ok (small_space n) [(0x80300000, n)].
Proof.
  intros Hn. split.
  { apply single_chunk_ok; [done|done|lia|unfold RAM_END_PMA, RAM_SIZE, RAM_START_PMA; change PAGE_SIZE with 4096; lia|done|..].
    - unfold next, rd, small_space. cbn [words]. by rewrite lookup_singleton_ne.
    - unfold pagecnt, rd, small_space. cbn [words]. change (0x80300000 + 8) with 0x80300008. by rewrite lookup_singleton_eq. }
  rewrite small_root. split.
  - intros p t _ Hp Ht. apply small_tab in Ht as [_ ->]; [|done]. split; [done|]. unfold pages. cbn [mbind list_bind]. rewrite app_nil_r.
    unfold block, page. intros (i & E & Hi%elem_of_seq)%list_elem_of_fmap. unfold demo_root in E. change PAGE_SIZE with 4096 in E. cbn [fst snd] in *. lia.
  - intros p q t _ Hp _ Hq Ht Hu. apply small_tab in Ht as [-> _]; [|done]. by apply small_tab in Hu as [-> _].
Qed.

Lemma demo_space_ok : space_ok demo_space [(0x80300000, 4)].
Proof. by apply (small_space_ok 4). Qed.

(** Nothing is mapped there. *)
Lemma small_unmapped n va : xlate (words (small_space n)) (active_space_ptab (small_space n)) (vpns va) = None.
Proof.
  rewrite small_root. pose proof (VPN_index va) as Hi. unfold vpns in *. apply Forall_cons in Hi as [Hi _]. cbn [xlate]. by rewrite small_pte.
Qed.

Lemma map_page_translation_witness :
  ∃ s' l', map_page 0xC0001000 0x80500000 PTE_R demo_space = (Ret 0xC0001000, s') ∧ space_ok s' l' ∧
    translate (words s') (active_space_ptab s') 0xC0001234 = Some (0x80500234, 0xC3).
Proof.
  assert (page_addr 0x80500000) as Hpp by done. assert (0 ≤ PTE_R < 2 ^ 8) as Hfl by done.
  destruct (map_page_translation demo_space [(0x80300000, 4)] 0xC0001000 0x80500000 PTE_R demo_space_ok
    eq_refl eq_refl ltac:(discriminate) Hpp Hfl ltac:(discriminate))
    as (r & s' & l' & Hrun & Hsp & _ & [[-> Hx]|(_ & _ & [(e & b & He & _)|Hlen])]).
  - exists s', l'. split; [exact Hrun|]. split; [exact Hsp|]. rewrite Hx. reflexivity.
  - clear Hrun. rewrite mtag_roundtrip in He. vm_compute in He. discriminate.
  - clear Hrun. vm_compute in Hlen. lia.
Defined.

Lemma umode_page_fault_correct_witness :
  handle_umode_page_fault 0x1000 demo_space = (Ret 0, demo_space) ∧
  ∃ r s' l', handle_umode_page_fault 0xC0001234 demo_space = (Ret r, s') ∧ space_ok s' l'.
Proof.
  destruct (umode_page_fault_correct demo_space [(0x80300000, 4)] 0x1000 demo_space_ok) as [H1 _].
  destruct (umode_page_fault_correct demo_space [(0x80300000, 4)] 0xC0001234 demo_space_ok) as [_ H2].
  assert (UMEM_START_VMA ≤ 0xC0001234 < UMEM_END_VMA) as Hin by done.
  split; [apply H1; left; done|]. destruct (H2 Hin) as (r & s' & l' & Hrun & Hsp & _).
  exists r, s', l'. split; [exact Hrun|exact Hsp].
Defined.
End PageTableProofs.
