(* ===== verification/Threads.v ===== *)
(** * Threads, conditions and locks: the model (kernel/thread.c, kernel/thread.h)

    A [struct thread *], a [struct condition *] and a [struct lock *] are
    numbers that index the maps of the state; NULL is [None].  Thread lists
    are linked through [list_next] with a head and a tail pointer as in the
    source.  [TP] is the running thread; a context switch changes it, so a
    function that may block is modelled up to the switch and says in its
    result whether it returned or was suspended and what it runs when it is
    scheduled again.  [disable_interrupts] and [restore_interrupts] protect
    the list updates from interrupt handlers; every definition here is one such
    atomic section or a sequence of them on one processor.  Saved registers,
    stacks and the allocation of thread structures are not represented: the
    address of a new structure is an argument. *)

From S2P Require Import Prelude Config.

Module Threads.

Inductive thread_state := UNINITIALIZED | WAITING | SELF | READY | EXITED.
#[global] Instance thread_state_eq_dec : EqDecision thread_state.
Proof. solve_decision. Defined.

Record thread := Thread {
  id : Z; state : thread_state; name : Z; parent : option nat; list_next : option nat;
  wait_cond : option nat; child_exit : nat; lock_list : option nat; proc : option nat }.

Record thread_list := TList { head : option nat; tail : option nat }.

Record lock := Lock { cv : nat; owner : option nat; count : Z; lnext : option nat }.

(** [procs] gives the memory space of a process, [active] the installed one. *)
Record ks := Ks {
  thr : gmap nat thread; thrtab : list (option nat); ready_list : thread_list;
  conds : gmap nat thread_list; locks : gmap nat lock; TP : nat;
  procs : gmap nat Z; active : Z }.

Definition main_thread : nat := 0.
Definition idle_thread : nat := 1.
Definition MAIN_TID : Z := 0.
Definition IDLE_TID : Z := NTHR - 1.

Definition with_thr (s : ks) m := Ks m (thrtab s) (ready_list s) (conds s) (locks s) (TP s) (procs s) (active s).
Definition with_tab (s : ks) t := Ks (thr s) t (ready_list s) (conds s) (locks s) (TP s) (procs s) (active s).
Definition with_locks (s : ks) l := Ks (thr s) (thrtab s) (ready_list s) (conds s) l (TP s) (procs s) (active s).
Definition with_TP (s : ks) t := Ks (thr s) (thrtab s) (ready_list s) (conds s) (locks s) t (procs s) (active s).
Definition with_active (s : ks) a := Ks (thr s) (thrtab s) (ready_list s) (conds s) (locks s) (TP s) (procs s) a.

Definition with_state (t : thread) x :=
  Thread (id t) x (name t) (parent t) (list_next t) (wait_cond t) (child_exit t) (lock_list t) (proc t).
Definition with_next (t : thread) x :=
  Thread (id t) (state t) (name t) (parent t) x (wait_cond t) (child_exit t) (lock_list t) (proc t).
Definition with_cond (t : thread) x :=
  Thread (id t) (state t) (name t) (parent t) (list_next t) x (child_exit t) (lock_list t) (proc t).
Definition with_parent (t : thread) x :=
  Thread (id t) (state t) (name t) x (list_next t) (wait_cond t) (child_exit t) (lock_list t) (proc t).
Definition with_held (t : thread) x :=
  Thread (id t) (state t) (name t) (parent t) (list_next t) (wait_cond t) (child_exit t) x (proc t).
Definition with_proc (t : thread) x :=
  Thread (id t) (state t) (name t) (parent t) (list_next t) (wait_cond t) (child_exit t) (lock_list t) x.

(** Reading and updating the object a pointer refers to. *)
Definition deref {A} (o : option A) : M ks A := match o with Some a => mret a | None => panic end.
Definition get_thr (p : nat) : M ks thread := o ← gets (λ s, thr s !! p); deref o.
Definition upd_thr (p : nat) (f : thread → thread) : M ks unit :=
  t ← get_thr p; modify (λ s, with_thr s (<[p := f t]> (thr s))).
Definition get_lock (l : nat) : M ks lock := o ← gets (λ s, locks s !! l); deref o.
Definition put_lock (l : nat) (k : lock) : M ks unit := modify (λ s, with_locks s (<[l := k]> (locks s))).

(** ** Thread lists *)

(** The list a [struct thread_list *] points to. *)
Inductive tlref := Ready | Cond (c : nat).
#[global] Instance tlref_eq_dec : EqDecision tlref.
Proof. solve_decision. Defined.

Definition tl_of (s : ks) (r : tlref) : thread_list :=
  match r with Ready => ready_list s | Cond c => default (TList None None) (conds s !! c) end.
Definition put_tl (r : tlref) (l : thread_list) : M ks unit := modify (λ s,
  match r with
  | Ready => Ks (thr s) (thrtab s) l (conds s) (locks s) (TP s) (procs s) (active s)
  | Cond c => Ks (thr s) (thrtab s) (ready_list s) (<[c := l]> (conds s)) (locks s) (TP s) (procs s) (active s)
  end).

Definition tlclear (r : tlref) : M ks unit := put_tl r (TList None None).

Definition tlempty (r : tlref) : M ks bool := gets (λ s, bool_decide (head (tl_of s r) = None)).

Definition tlinsert (r : tlref) (t : nat) : M ks unit :=
  upd_thr t (λ x, with_next x None);;
  l ← gets (λ s, tl_of s r);
  match tail l with
  | Some q =>
      match head l with
      | None => panic
      | Some _ => upd_thr q (λ x, with_next x (Some t));; put_tl r (TList (head l) (Some t))
      end
  | None =>
      match head l with
      | Some _ => panic
      | None => put_tl r (TList (Some t) (Some t))
      end
  end.

Definition tlremove (r : tlref) : M ks (option nat) :=
  l ← gets (λ s, tl_of s r);
  match head l with
  | None => mret None
  | Some t =>
      x ← get_thr t;
      put_tl r (TList (list_next x) (match list_next x with Some _ => tail l | None => None end));;
      upd_thr t (λ x, with_next x None);;
      mret (Some t)
  end.

Definition tlappend (r0 r1 : tlref) : M ks unit :=
  l0 ← gets (λ s, tl_of s r0);
  l1 ← gets (λ s, tl_of s r1);
  (match head l0 with
   | Some _ =>
       match tail l0 with
       | None => panic
       | Some q =>
           match head l1 with
           | None => mret tt
           | Some h1 =>
               match tail l1 with
               | None => panic
               | Some _ => upd_thr q (λ x, with_next x (Some h1));; put_tl r0 (TList (head l0) (tail l1))
               end
           end
       end
   | None =>
       match tail l0 with
       | Some _ => panic
       | None => put_tl r0 (TList (head l1) (tail l1))
       end
   end);;
  put_tl r1 (TList None None).

(** ** Scheduling *)

Definition set_thread_state (t : nat) (x : thread_state) : M ks unit := upd_thr t (λ y, with_state y x).

(** Up to [_thread_swtch]: the next thread is running when it returns. *)
Definition running_thread_suspend : M ks unit :=
  me ← gets TP;
  x ← get_thr me;
  (if decide (state x = SELF)
   then set_thread_state me READY;; tlinsert Ready me
   else mret tt);;
  next ← tlremove Ready;
  next ← deref next;
  set_thread_state next SELF;;
  y ← get_thr next;
  (match proc y with
   | Some p =>
       mtag ← gets (λ s, default 0 (procs s !! p));
       if negb (mtag =? 0) then modify (λ s, with_active s mtag) else mret tt
   | None => mret tt
   end);;
  modify (λ s, with_TP s next).

Definition thread_yield : M ks unit := running_thread_suspend.

(** One pass of the idle thread's loop: [true] when it sleeps with [wfi]. *)
Definition idle_thread_func : M ks bool :=
  e ← tlempty Ready;
  if (e : bool) then mret true else thread_yield;; mret false.

Definition running_thread : M ks Z := me ← gets TP; t ← get_thr me; mret (id t).

(** ** Conditions *)

Definition condition_init (c : nat) : M ks unit := tlclear (Cond c).

Definition condition_wait (c : nat) : M ks unit :=
  me ← gets TP;
  x ← get_thr me;
  if decide (state x ≠ SELF) then panic
  else
    set_thread_state me WAITING;;
    upd_thr me (λ y, with_cond y (Some c));;
    upd_thr me (λ y, with_next y None);;
    tlinsert (Cond c) me;;
    running_thread_suspend.

(** The loop of [condition_broadcast]; a wait list is no longer than the
    number of threads. *)
Fixpoint broadcast_loop (fuel : nat) (c : nat) : M ks unit :=
  match fuel with
  | O => λ s, (NoFuel, s)
  | S fuel =>
      t ← tlremove (Cond c);
      match t with
      | None => mret tt
      | Some t =>
          upd_thr t (λ y, with_cond y None);;
          set_thread_state t READY;;
          tlinsert Ready t;;
          broadcast_loop fuel c
      end
  end.

Definition condition_broadcast (c : nat) : M ks unit :=
  n ← gets (λ s, base.size (thr s));
  broadcast_loop (S n) c.

(** ** Locks *)

(** [cv] is the condition embedded in the lock. *)
Definition lock_init (l : nat) (c : nat) : M ks unit :=
  condition_init c;; put_lock l (Lock c None 0 None).

(** The [while] loop of [lock_acquire] from its test on: [true] when the lock
    was taken, [false] when the thread was suspended and runs this again when
    it is scheduled. *)
Definition lock_acquire_loop (l : nat) : M ks bool :=
  me ← gets TP;
  k ← get_lock l;
  match owner k with
  | Some _ => condition_wait (cv k);; mret false
  | None =>
      x ← get_thr me;
      put_lock l (Lock (cv k) (Some me) 1 (lock_list x));;
      upd_thr me (λ y, with_held y (Some l));;
      mret true
  end.

Definition lock_acquire (l : nat) : M ks bool :=
  me ← gets TP;
  k ← get_lock l;
  if decide (owner k = Some me)
  then put_lock l (Lock (cv k) (owner k) (s32 (count k + 1)) (lnext k));; mret true
  else lock_acquire_loop l.

(** Unlink [l] from the chain that starts at the [struct lock **] [ins]: the
    thread's [lock_list] or the [next] of a lock. *)
Inductive lref := LList (t : nat) | LNext (k : nat).

Definition get_lref (r : lref) : M ks (option nat) :=
  match r with
  | LList t => x ← get_thr t; mret (lock_list x)
  | LNext k => x ← get_lock k; mret (lnext x)
  end.
Definition set_lref (r : lref) (v : option nat) : M ks unit :=
  match r with
  | LList t => upd_thr t (λ y, with_held y v)
  | LNext k => x ← get_lock k; put_lock k (Lock (cv x) (owner x) (count x) v)
  end.

Fixpoint find_ins (fuel : nat) (l : nat) (ins : lref) : M ks lref :=
  match fuel with
  | O => λ s, (NoFuel, s)
  | S fuel =>
      v ← get_lref ins;
      match v with
      | None => mret ins
      | Some k => if decide (k = l) then mret ins else find_ins fuel l (LNext k)
      end
  end.

Definition lock_release (l : nat) : M ks unit :=
  me ← gets TP;
  k ← get_lock l;
  if decide (owner k ≠ Some me) then mret tt
  else
    let c := s32 (count k - 1) in
    put_lock l (Lock (cv k) (owner k) c (lnext k));;
    if 0 <? c then mret tt
    else
      n ← gets (λ s, base.size (locks s));
      ins ← find_ins (S n) l (LList me);
      v ← get_lref ins;
      (if decide (v = Some l) then k ← get_lock l; set_lref ins (lnext k) else mret tt);;
      k ← get_lock l;
      put_lock l (Lock (cv k) None (count k) None);;
      condition_broadcast (cv k).

(** ** Threads *)

(** The lowest free slot from 1. *)
Definition free_tid (tab : list (option nat)) : option nat :=
  S <$> findi (λ o, match o with None => true | Some _ => false end) (list.tail tab).

(** [p] and [c] are the addresses of the new structure and of the condition
    in it. *)
Definition create_thread (p c : nat) (nm : Z) : M ks (option nat) :=
  tab ← gets thrtab;
  match free_tid (take (Z.to_nat NTHR) tab) with
  | None => mret None
  | Some tid =>
      me ← gets TP;
      modify (λ s, with_thr s (<[p := Thread (Z.of_nat tid) UNINITIALIZED nm (Some me) None None c None None]> (thr s)));;
      modify (λ s, with_tab s (<[tid := Some p]> (thrtab s)));;
      mret (Some p)
  end.

Definition thread_spawn (p c : nat) (nm : Z) : M ks Z :=
  child ← create_thread p c nm;
  match child with
  | None => mret (- EMTHR)
  | Some child =>
      set_thread_state child READY;;
      tlinsert Ready child;;
      x ← get_thr child;
      condition_init (child_exit x);;
      mret (id x)
  end.

(** Every pass releases the first lock once; the sum of the counts bounds the
    number of passes. *)
Fixpoint drain_locks (fuel : nat) (me : nat) : M ks unit :=
  match fuel with
  | O => λ s, (NoFuel, s)
  | S fuel =>
      x ← get_thr me;
      match lock_list x with
      | None => mret tt
      | Some l => lock_release l;; drain_locks fuel me
      end
  end.

Definition drain_fuel (s : ks) : nat := S (map_fold (λ _ k n, (Z.to_nat (count k) + n)%nat) O (locks s)).

(** [true] when the system halts because the main thread ended. *)
Definition thread_exit : M ks bool :=
  me ← gets TP;
  n ← gets drain_fuel;
  drain_locks n me;;
  if decide (me = main_thread) then mret true
  else
    set_thread_state me EXITED;;
    x ← get_thr me;
    (match parent x with
     | Some p => y ← get_thr p; condition_broadcast (child_exit y)
     | None => mret tt
     end);;
    running_thread_suspend;;
    mret false.

(** Entries [i], ... of [thrtab]: is there a child of [me] that matches [tid],
    and the first one of them that has exited. *)
Fixpoint join_scan (me : nat) (tid : Z) (tab : list (option nat)) (has_match : bool) : M ks (bool * option nat) :=
  match tab with
  | [] => mret (has_match, None)
  | None :: tab => join_scan me tid tab has_match
  | Some c :: tab =>
      x ← get_thr c;
      if decide (parent x ≠ Some me) then join_scan me tid tab has_match
      else if (negb (tid =? 0) && negb (id x =? tid))%bool then join_scan me tid tab has_match
      else if decide (state x = EXITED) then mret (true, Some c)
      else join_scan me tid tab true
  end.

Fixpoint reparent (old : nat) (new : option nat) (tab : list (option nat)) : M ks unit :=
  match tab with
  | [] => mret tt
  | None :: tab => reparent old new tab
  | Some c :: tab =>
      x ← get_thr c;
      (if decide (parent x = Some old) then upd_thr c (λ y, with_parent y new) else mret tt);;
      reparent old new tab
  end.

Definition thread_reclaim (tid : Z) : M ks unit :=
  tab ← gets thrtab;
  if negb ((0 <? tid) && (tid <? NTHR))%bool then panic
  else
    t ← deref (getb None tab tid);
    x ← get_thr t;
    if decide (state x ≠ EXITED) then panic
    else
      reparent t (parent x) (list.tail tab);;
      modify (λ s, with_tab s (setb tid None (thrtab s)));;
      modify (λ s, with_thr s (delete t (thr s))).

(** One pass of the loop: the result, or [None] when the thread was suspended
    and starts over when it is scheduled. *)
Definition thread_join (tid : Z) : M ks (option Z) :=
  me ← gets TP;
  tab ← gets thrtab;
  r ← join_scan me tid (list.tail tab) false;
  match r with
  | (_, Some c) =>
      x ← get_thr c;
      thread_reclaim (id x);;
      mret (Some (id x))
  | (false, None) => mret (Some (- EINVAL))
  | (true, None) =>
      x ← get_thr me;
      condition_wait (child_exit x);;
      mret None
  end.

(** ** Processes of threads *)

Definition thread_process (tid : Z) : M ks (option nat) :=
  if negb ((0 <=? tid) && (tid <? NTHR))%bool then panic
  else
    tab ← gets thrtab;
    match getb None tab tid with
    | None => mret None
    | Some t => x ← get_thr t; mret (proc x)
    end.

Definition running_thread_process : M ks (option nat) := me ← gets TP; x ← get_thr me; mret (proc x).

Definition thread_set_process (tid : Z) (p : option nat) : M ks unit :=
  if negb ((0 <=? tid) && (tid <? NTHR))%bool then panic
  else
    tab ← gets thrtab;
    t ← deref (getb None tab tid);
    upd_thr t (λ y, with_proc y p).

Definition thread_name (tid : Z) : M ks Z :=
  if negb ((0 <=? tid) && (tid <? NTHR))%bool then panic
  else
    tab ← gets thrtab;
    t ← deref (getb None tab tid);
    x ← get_thr t;
    mret (name x).

Definition running_thread_name : M ks Z := me ← gets TP; x ← get_thr me; mret (name x).

(** The state after [thrmgr_init]: [cm] and [ci] are the conditions embedded
    in the two static thread structures. *)
Definition initial (cm ci : nat) : ks :=
  Ks {[ main_thread := Thread MAIN_TID SELF 0 None None None cm None None;
        idle_thread := Thread IDLE_TID READY 0 (Some main_thread) None None ci None None ]}
     (Some main_thread :: replicate (Z.to_nat NTHR - 2) None ++ [Some idle_thread])
     (TList (Some idle_thread) (Some idle_thread))
     {[ cm := TList None None; ci := TList None None ]} ∅ main_thread ∅ 0.
End Threads.
