(* ===== verification/ThreadProofs.v ===== *)
(** * Threads: the scheduler's invariant

    [lists s q] says that the linked lists of the state [s] hold the queues
    [q]; [inv s q] adds that the state of every thread agrees with the queue it
    is in.  The operations are described as operations on queues. *)

From S2P Require Import Prelude Config Threads.
Import Threads.

Module ThreadProofs.

Implicit Types (s : ks) (q : tlref → list nat).

(** ** Linked lists and queues *)

Record tl_rep (m : gmap nat thread) (l : thread_list) (xs : list nat) : Prop := {
  tr_head : head l = xs !! O;
  tr_tail : tail l = last xs;
  tr_next i x : xs !! i = Some x → ∃ t, m !! x = Some t ∧ list_next t = xs !! S i
}.

Definition qset q (r : tlref) (l : list nat) : tlref → list nat := λ r', if decide (r' = r) then l else q r'.

Record lists s q : Prop := {
  ls_rep r : tl_rep (thr s) (tl_of s r) (q r);
  ls_nodup r : NoDup (q r);
  ls_disj r r' x : x ∈ q r → x ∈ q r' → r = r'
}.

(** What list operations leave alone. *)
Record same_rest s s' : Prop := {
  sr_tab : thrtab s' = thrtab s;
  sr_locks : locks s' = locks s;
  sr_tp : TP s' = TP s;
  sr_procs : procs s' = procs s;
  sr_active : active s' = active s
}.

(** Threads changed at most in their link. *)
Definition same_threads s s' : Prop :=
  same_rest s s' ∧ ∀ p, (λ t, with_next t None) <$> thr s' !! p = (λ t, with_next t None) <$> thr s !! p.

#[global] Instance same_rest_refl : Reflexive same_rest.
Proof. by split. Qed.
#[global] Instance same_rest_trans : Transitive same_rest.
Proof. intros s1 s2 s3 [] []; split; congruence. Qed.
#[global] Instance same_threads_refl : Reflexive same_threads.
Proof. by split. Qed.
#[global] Instance same_threads_trans : Transitive same_threads.
Proof. intros s1 s2 s3 [H1 H2] [H3 H4]. split; [by etrans|]. intros p. by rewrite H4. Qed.

Lemma same_threads_lookup s s' p t :
  same_threads s s' → thr s !! p = Some t → ∃ t', thr s' !! p = Some t' ∧ with_next t' None = with_next t None.
Proof.
  intros [_ H] Hp. specialize (H p). rewrite Hp in H. simpl in H.
  destruct (thr s' !! p) as [t'|]; [|done]. injection H as H. exists t'. split; [done|]. unfold with_next. congruence.
Qed.

Lemma same_threads_back s s' p t' :
  same_threads s s' → thr s' !! p = Some t' → ∃ t, thr s !! p = Some t ∧ with_next t' None = with_next t None.
Proof.
  intros [_ H] Hp. specialize (H p). rewrite Hp in H. simpl in H.
  destruct (thr s !! p) as [t|]; [|done]. injection H as H. exists t. split; [done|]. unfold with_next. congruence.
Qed.

(** ** Running the primitive accesses *)

Lemma get_thr_run s p t : thr s !! p = Some t → get_thr p s = (Ret t, s).
Proof. intros H. unfold get_thr. kgets. by rewrite H. Qed.

Lemma upd_thr_run s p f t :
  thr s !! p = Some t → upd_thr p f s = (Ret tt, with_thr s (<[p := f t]> (thr s))).
Proof. intros H. unfold upd_thr. krun (get_thr_run s p t H). done. Qed.

Lemma get_lock_run s l k : locks s !! l = Some k → get_lock l s = (Ret k, s).
Proof. intros H. unfold get_lock. kgets. by rewrite H. Qed.

(** A chain depends only on the links of its members. *)
Lemma tl_rep_frame m m' l xs :
  tl_rep m l xs → (∀ x t, x ∈ xs → m !! x = Some t → ∃ t', m' !! x = Some t' ∧ list_next t' = list_next t) →
  tl_rep m' l xs.
Proof.
  intros [H1 H2 H3] Hf. split; [done|done|]. intros i x Hx. destruct (H3 i x Hx) as (t & Ht & Hn).
  destruct (Hf x t) as (t' & Ht' & Hn'); [by eapply list_elem_of_lookup_2|done|]. exists t'. by rewrite Hn'.
Qed.

Lemma tl_of_with_thr s m r : tl_of (with_thr s m) r = tl_of s r.
Proof. by destruct r. Qed.

Lemma put_tl_run s r l : ∃ s', put_tl r l s = (Ret tt, s') ∧ thr s' = thr s ∧ same_rest s s' ∧
  ∀ r', tl_of s' r' = if decide (r' = r) then l else tl_of s r'.
Proof.
  unfold put_tl, modify. destruct r as [|c]; eexists; (split; [reflexivity|]); (split; [done|]); (split; [done|]).
  - intros [|c']; by case_decide.
  - intros [|c']; case_decide as E; try done; cbn [tl_of conds].
    + injection E as ->. by rewrite lookup_insert_eq.
    + by rewrite lookup_insert_ne by congruence.
Qed.

Lemma put_tl_lists s s' q r l xs :
  lists s q → thr s' = thr s → (∀ r', tl_of s' r' = if decide (r' = r) then l else tl_of s r') →
  tl_rep (thr s) l xs → NoDup xs → (∀ r' x, r' ≠ r → x ∈ xs → x ∉ q r') →
  lists s' (qset q r xs).
Proof.
  intros [Hrep Hnd Hdis] Hthr Htl Hxs Hndx Hfresh. unfold qset. split.
  - intros r'. rewrite Hthr, Htl. by destruct (decide (r' = r)).
  - intros r'. by destruct (decide (r' = r)).
  - intros r1 r2 x. destruct (decide (r1 = r)) as [->|], (decide (r2 = r)) as [->|]; try done.
    + intros H1 H2. exfalso. by eapply Hfresh.
    + intros H1 H2. exfalso. by eapply Hfresh.
    + apply Hdis.
Qed.

(** An update of a thread that keeps its link keeps the lists. *)
Lemma upd_lists s q p f t :
  lists s q → thr s !! p = Some t → list_next (f t) = list_next t →
  lists (with_thr s (<[p := f t]> (thr s))) q.
Proof.
  intros [Hrep Hnd Hdis] Hp Hf. split; [|done|done]. intros r. rewrite tl_of_with_thr.
  eapply tl_rep_frame; [apply Hrep|]. intros x tx _ Hx. simpl. destruct (decide (x = p)) as [->|Hne].
  - rewrite lookup_insert_eq. exists (f t). split; [done|]. congruence.
  - rewrite lookup_insert_ne by auto. by exists tx.
Qed.

(** So does an update of a thread that is in no list. *)
Lemma upd_lists_out s q p x :
  lists s q → (∀ r, p ∉ q r) → lists (with_thr s (<[p := x]> (thr s))) q.
Proof.
  intros [Hrep Hnd Hdis] Hp. split; [|done|done]. intros r. rewrite tl_of_with_thr.
  eapply tl_rep_frame; [apply Hrep|]. intros y ty Hy Hm. exists ty. split; [|done].
  simpl. rewrite lookup_insert_ne; [done|]. intros ->. by apply (Hp r).
Qed.

Lemma same_threads_upd s p t v :
  thr s !! p = Some t → same_threads s (with_thr s (<[p := with_next t v]> (thr s))).
Proof.
  intros Hp. split; [done|]. intros y. simpl. destruct (decide (y = p)) as [->|].
  - by rewrite lookup_insert_eq, Hp.
  - by rewrite lookup_insert_ne by auto.
Qed.

Lemma same_threads_thr s s' : thr s' = thr s → same_rest s s' → same_threads s s'.
Proof. intros H1 H2. split; [done|]. intros p. by rewrite H1. Qed.

Lemma tlinsert_ok s q r t x :
  lists s q → thr s !! t = Some x → (∀ r', t ∉ q r') →
  ∃ s', tlinsert r t s = (Ret tt, s') ∧ lists s' (qset q r (q r ++ [t])) ∧ same_threads s s'.
Proof.
  intros Hls Ht Hfresh. unfold tlinsert. krun (upd_thr_run s t (λ x, with_next x None) x Ht). kgets.
  set (s1 := with_thr s (<[t := with_next x None]> (thr s))).
  pose proof (upd_lists_out s q t (with_next x None) Hls Hfresh) as Hls1. fold s1 in Hls1.
  assert (thr s1 !! t = Some (with_next x None)) as Ht1 by apply lookup_insert_eq.
  assert (same_threads s s1) as Hsame by (by apply same_threads_upd).
  destruct (ls_rep s1 q Hls1 r) as [Hh Htl Hnx]. rewrite Hh, Htl.
  destruct (q r) as [|z l _] eqn:Hq using rev_ind; cbn beta.
  - cbn [last lookup list_lookup app]. destruct (put_tl_run s1 r (TList (Some t) (Some t))) as (s2 & -> & Hthr & Hr & Htl2). exists s2.
    split; [done|]. split; [|etrans; [exact Hsame|by apply same_threads_thr]].
    eapply put_tl_lists; [exact Hls1|done|done| | |].
    + split; [done|done|]. intros [|i] y; simpl; [|done]. intros [= <-]. by exists (with_next x None).
    + apply NoDup_singleton.
    + intros r' y Hne ->%list_elem_of_singleton. apply Hfresh.
  - rewrite last_snoc. assert (is_Some ((l ++ [z]) !! O)) as [h Hh0].
    { apply lookup_lt_is_Some. rewrite length_app. simpl. lia. }
    rewrite Hh0. assert (∃ tz, thr s1 !! z = Some tz) as [tz Hz].
    { destruct (Hnx (length l) z) as (tz & Hz & _); [|by exists tz]. by apply list_lookup_middle. }
    krun (upd_thr_run s1 z (λ x, with_next x (Some t)) tz Hz).
    set (s2 := with_thr s1 (<[z := with_next tz (Some t)]> (thr s1))).
    destruct (put_tl_run s2 r (TList (Some h) (Some t))) as (s3 & -> & Hthr & Hr & Htl3). exists s3.
    split; [done|]. split; [|etrans; [exact Hsame|]; etrans; [by eapply same_threads_upd|by apply same_threads_thr]].
    assert (z ≠ t) as Hzt by (intros ->; apply (Hfresh r); rewrite Hq, elem_of_app; right; by left).
    assert (NoDup (l ++ [z])) as Hnd by (rewrite <- Hq; apply Hls).
    assert (z ∉ l) as Hzl by (intros Hin; apply NoDup_app in Hnd as (_ & Hd & _); apply (Hd z Hin); by left).
    split.
    + intros r'. rewrite Htl3, Hthr. unfold qset. destruct (decide (r' = r)) as [->|Hne].
      * split; [by rewrite lookup_app_l by (rewrite length_app; simpl; lia)|by rewrite last_snoc|].
        intros i y Hy. simpl. destruct (decide (y = z)) as [->|Hyz].
        -- rewrite lookup_insert_eq. eexists. split; [done|]. simpl.
           assert (i = length l) as ->.
           { apply (NoDup_lookup (l ++ [z] ++ [t]) i (length l) z).
             - rewrite app_assoc. apply NoDup_app. split_and!; [done| |apply NoDup_singleton].
               intros w Hw ->%list_elem_of_singleton. apply (Hfresh r). by rewrite Hq.
             - by rewrite app_assoc.
             - by apply (list_lookup_middle l [t] z). }
           rewrite <- app_assoc. rewrite lookup_app_r by lia. by replace (S (length l) - length l)%nat with 1%nat by lia.
        -- rewrite lookup_insert_ne by auto. apply lookup_app_Some in Hy as [Hy|[Hlen Hy]].
           ++ destruct (Hnx i y Hy) as (ty & Hty & Hn). exists ty. split; [done|]. rewrite Hn.
              symmetry. apply lookup_app_l. pose proof (lookup_lt_Some _ _ _ Hy) as Hlt. rewrite length_app in *. simpl in *.
              destruct (decide (i = length l)) as [->|]; [|lia]. rewrite list_lookup_middle in Hy by done. congruence.
           ++ apply list_lookup_singleton_Some in Hy as [Hi <-]. exists (with_next x None). split; [exact Ht1|].
              simpl. symmetry. apply lookup_ge_None_2. rewrite !length_app in *. simpl in *. lia.
      * unfold s2. rewrite tl_of_with_thr. eapply tl_rep_frame; [apply Hls1|]. intros y ty Hy Hm. exists ty.
        split; [|done]. simpl. rewrite lookup_insert_ne; [done|]. intros ->. apply Hne.
        apply (ls_disj s q Hls r' r y Hy). rewrite Hq, elem_of_app. right. by left.
    + intros r'. unfold qset. case_decide; [|apply Hls]. apply NoDup_app. split_and!; [done| |apply NoDup_singleton].
      intros w Hw ->%list_elem_of_singleton. apply (Hfresh r). by rewrite Hq.
    + intros r1 r2 y. unfold qset. repeat case_decide; subst; try done; [..|apply Hls].
      * rewrite <- Hq. intros [Hy| ->%list_elem_of_singleton]%elem_of_app Hy2; [by apply (ls_disj s q Hls r r2 y)|].
        by apply Hfresh in Hy2.
      * rewrite <- Hq. intros Hy2 [Hy| ->%list_elem_of_singleton]%elem_of_app; [by apply (ls_disj s q Hls r1 r y)|].
        by apply Hfresh in Hy2.
Qed.

Lemma tlremove_empty s q r : lists s q → q r = [] → tlremove r s = (Ret None, s).
Proof.
  intros Hls Hq. unfold tlremove. kgets. destruct (ls_rep s q Hls r) as [Hh _ _]. rewrite Hh, Hq. done.
Qed.

Lemma tlremove_ok s q r x l :
  lists s q → q r = x :: l →
  ∃ s', tlremove r s = (Ret (Some x), s') ∧ lists s' (qset q r l) ∧ same_threads s s'.
Proof.
  intros Hls Hq. unfold tlremove. kgets. destruct (ls_rep s q Hls r) as [Hh Htl Hnx]. rewrite Hq in Hh, Htl, Hnx.
  rewrite Hh. cbn [lookup list_lookup]. destruct (Hnx O x eq_refl) as (t & Ht & Hn). cbn in Hn.
  krun (get_thr_run s x t Ht). rewrite Hn, Htl.
  pose proof (ls_nodup s q Hls r) as Hnd. rewrite Hq in Hnd. apply NoDup_cons in Hnd as [Hx Hnd].
  set (tl' := TList (l !! O) (match l !! O with Some _ => last (x :: l) | None => None end)).
  destruct (put_tl_run s r tl') as (s1 & Hp & Hthr & Hr & Htl1). krun Hp.
  assert (lists s1 (qset q r l)) as Hls1.
  { eapply put_tl_lists; [exact Hls|done|exact Htl1| |done|].
    - split; [done|by destruct l|]. intros i y Hy. by apply (Hnx (S i)).
    - intros r' y Hne Hy Hy'. apply Hne. apply (ls_disj s q Hls r' r y Hy'). rewrite Hq. by right. }
  assert (thr s1 !! x = Some t) as Ht1 by (by rewrite Hthr).
  krun (upd_thr_run s1 x (λ y, with_next y None) t Ht1). eexists. split; [reflexivity|]. split.
  - apply upd_lists_out; [done|]. intros r'. unfold qset. case_decide as E; [done|].
    intros Hin. apply E. apply (ls_disj s q Hls r' r x Hin). rewrite Hq. by left.
  - etrans; [by apply same_threads_thr|]. by apply same_threads_upd.
Qed.

(** ** Queues and thread states *)

(** The queue a thread belongs to, from its state. *)
Definition loc (t : thread) : option tlref :=
  match state t with READY => Some Ready | WAITING => Cond <$> wait_cond t | _ => None end.

Lemma loc_next t v : loc (with_next t v) = loc t.
Proof. done. Qed.

Definition member s (r : tlref) (x : nat) : Prop := ∃ t, thr s !! x = Some t ∧ loc t = Some r.

Definition agree s q : Prop := ∀ r x, x ∈ q r ↔ member s r x.
Definition agree_but s q (y : nat) : Prop := (∀ r, y ∉ q r) ∧ ∀ r x, x ≠ y → (x ∈ q r ↔ member s r x).

Lemma member_same s s' r x : same_threads s s' → member s' r x ↔ member s r x.
Proof.
  intros Hs. split; intros (t & Ht & Hl).
  - destruct (same_threads_back s s' x t Hs Ht) as (t' & Ht' & E). exists t'. split; [done|].
    rewrite <- (loc_next t' None), <- E. done.
  - destruct (same_threads_lookup s s' x t Hs Ht) as (t' & Ht' & E). exists t'. split; [done|].
    rewrite <- (loc_next t' None), E. done.
Qed.

Lemma member_upd s x y t r :
  x ≠ y → member (with_thr s (<[y := t]> (thr s))) r x ↔ member s r x.
Proof. intros Hne. unfold member. simpl. by rewrite lookup_insert_ne by auto. Qed.

Lemma enqueue_ok s q r t x :
  lists s q → agree_but s q t → thr s !! t = Some x → loc x = Some r →
  ∃ s', tlinsert r t s = (Ret tt, s') ∧ lists s' (qset q r (q r ++ [t])) ∧
        agree s' (qset q r (q r ++ [t])) ∧ same_threads s s'.
Proof.
  intros Hls [Hout Hag] Ht Hl. destruct (tlinsert_ok s q r t x Hls Ht Hout) as (s' & Hrun & Hls' & Hsame).
  exists s'. split_and!; try done. intros r' y. rewrite (member_same s s') by done. unfold qset.
  destruct (decide (y = t)) as [->|Hne].
  - split.
    + case_decide as E; [subst; intros _; by exists x|]. intros Hin. by apply Hout in Hin.
    + intros (x' & Hx' & Hl'). simplify_eq. rewrite decide_True by done. apply elem_of_app. right. by left.
  - case_decide as E; [subst r'|by apply Hag]. rewrite elem_of_app, (Hag r y Hne), list_elem_of_singleton. naive_solver.
Qed.

Lemma dequeue_ok s q r x l :
  lists s q → agree s q → q r = x :: l →
  ∃ s', tlremove r s = (Ret (Some x), s') ∧ lists s' (qset q r l) ∧ agree_but s' (qset q r l) x ∧ same_threads s s'.
Proof.
  intros Hls Hag Hq. destruct (tlremove_ok s q r x l Hls Hq) as (s' & Hrun & Hls' & Hsame).
  exists s'. split_and!; try done. pose proof (ls_nodup s q Hls r) as Hnd. rewrite Hq in Hnd.
  apply NoDup_cons in Hnd as [Hx _]. split.
  - intros r'. unfold qset. case_decide as E; [done|]. intros Hin. apply E, (ls_disj s q Hls r' r x Hin). rewrite Hq. by left.
  - intros r' y Hne. rewrite (member_same s s'), <- (Hag r' y) by done. unfold qset. case_decide as E; [|done].
    subst r'. rewrite Hq, elem_of_cons. naive_solver.
Qed.

(** Changing the state of a thread that is in no queue. *)
Lemma upd_but s q y t :
  lists s q → agree_but s q y →
  lists (with_thr s (<[y := t]> (thr s))) q ∧ agree_but (with_thr s (<[y := t]> (thr s))) q y.
Proof.
  intros Hls [Hout Hag]. split; [by apply upd_lists_out|]. split; [done|]. intros r x Hne.
  rewrite member_upd by done. by apply Hag.
Qed.

Lemma agree_but_intro s q y t : agree s q → thr s !! y = Some t → loc t = None → agree_but s q y.
Proof.
  intros Hag Hy Hl. split; [|intros r x _; apply Hag]. intros r Hin. apply Hag in Hin as (t' & Ht' & Hl'). congruence.
Qed.

Lemma agree_but_elim s q y t : agree_but s q y → thr s !! y = Some t → loc t = None → agree s q.
Proof.
  intros [Hout Hag] Hy Hl r x. destruct (decide (x = y)) as [->|Hne]; [|by apply Hag].
  split; [intros Hin; by apply Hout in Hin|]. intros (t' & Ht' & Hl'). congruence.
Qed.

(** Threads changed at most in link, awaited condition and state, and no thread
    came to an end. *)
Definition ident (t : thread) : thread :=
  with_state (with_next (with_cond t None) None) (if decide (state t = EXITED) then EXITED else UNINITIALIZED).

Record same_ids s s' : Prop := {
  si_tab : thrtab s' = thrtab s;
  si_locks : locks s' = locks s;
  si_procs : procs s' = procs s;
  si_thr p : ident <$> thr s' !! p = ident <$> thr s !! p
}.

#[global] Instance same_ids_refl : Reflexive same_ids.
Proof. by split. Qed.
#[global] Instance same_ids_trans : Transitive same_ids.
Proof. intros s1 s2 s3 [] []; split; congruence. Qed.

Lemma ident_next t t' : with_next t' None = with_next t None → ident t' = ident t.
Proof. intros E. change (ident (with_next t' None) = ident (with_next t None)). by rewrite E. Qed.

Lemma ident_live t t' :
  with_state (with_next (with_cond t' None) None) SELF = with_state (with_next (with_cond t None) None) SELF →
  state t ≠ EXITED → state t' ≠ EXITED → ident t' = ident t.
Proof.
  intros E H1 H2. unfold ident. rewrite !decide_False by done.
  exact (f_equal (λ x, with_state x UNINITIALIZED) E).
Qed.

Lemma same_threads_ids s s' : same_threads s s' → same_ids s s'.
Proof.
  intros Hs. pose proof Hs as [[] Hth]. split; try done. intros p. specialize (Hth p).
  destruct (thr s' !! p) as [t'|], (thr s !! p) as [t|]; simpl in *; try done.
  injection Hth as Hth. f_equal. apply ident_next. unfold with_next. congruence.
Qed.

Lemma upd_ids s p t t' : thr s !! p = Some t → ident t' = ident t → same_ids s (with_thr s (<[p := t']> (thr s))).
Proof.
  intros Hp Hi. split; try done. intros x. simpl. destruct (decide (x = p)) as [->|].
  - rewrite lookup_insert_eq, Hp. simpl. by rewrite Hi.
  - by rewrite lookup_insert_ne by auto.
Qed.

(** ** The scheduler's invariant *)

(** [TP] is the one thread in state SELF, every READY or WAITING thread is in
    the list its state names and in no other, and the idle thread is runnable. *)
Record inv s q : Prop := {
  inv_lists : lists s q;
  inv_agree : agree s q;
  inv_self p t : thr s !! p = Some t → state t = SELF ↔ p = TP s;
  inv_tp : is_Some (thr s !! TP s);
  inv_idle : idle_thread ∈ TP s :: q Ready
}.

#[global] Instance inv_proper s : Proper (pointwise_relation tlref eq ==> impl) (inv s).
Proof.
  intros q q' Hq [[] Hag ? ? Hidle]. split; [split| |done|done|]; intros *; rewrite <- ?Hq; eauto. intros r x. rewrite <- Hq. apply Hag.
Qed.

#[global] Instance qset_proper : Proper (pointwise_relation tlref eq ==> eq ==> eq ==> pointwise_relation tlref eq) qset.
Proof. intros q q' Hq r ? <- l ? <- r'. unfold qset. by case_decide. Qed.

Lemma qset_twice q r l l' : pointwise_relation tlref eq (qset (qset q r l) r l') (qset q r l').
Proof. intros r'. unfold qset. by case_decide. Qed.

(** The state between leaving the running thread and choosing the next. *)
Record between s q : Prop := {
  btw_lists : lists s q;
  btw_agree : agree s q;
  btw_self p t : thr s !! p = Some t → state t ≠ SELF;
  btw_idle : idle_thread ∈ q Ready
}.

Definition pick_next : M ks unit :=
  next ← tlremove Ready;
  next ← deref next;
  set_thread_state next SELF;;
  y ← get_thr next;
  (match proc y with
   | Some p =>
       mtag ← gets (λ s, default 0 (procs s !! p));
       if negb (mtag =? 0) then modify (λ s, with_active s mtag) else mret tt
   | None => mret tt
   end);;
  modify (λ s, with_TP s next).

(** The memory space that is installed after switching to [t]. *)
Definition space_of s (t : thread) : Z :=
  match proc t with
  | Some p => let m := default 0 (procs s !! p) in if m =? 0 then active s else m
  | None => active s
  end.

Lemma pick_next_ok s q x l :
  between s q → q Ready = x :: l →
  ∃ s' t, pick_next s = (Ret tt, s') ∧ inv s' (qset q Ready l) ∧ TP s' = x ∧ same_ids s s' ∧
          thr s !! x = Some t ∧ active s' = space_of s t.
Proof.
  intros [Hls Hag Hself Hidle] Hq. unfold pick_next.
  destruct (dequeue_ok s q Ready x l Hls Hag Hq) as (s1 & Hrun & Hls1 & Hag1 & Hsame). krun Hrun.
  assert (member s Ready x) as (t & Ht & Hl) by (apply Hag; rewrite Hq; by left).
  destruct (same_threads_lookup s s1 x t Hsame Ht) as (t1 & Ht1 & E). cbn [deref]. kret.
  unfold set_thread_state. krun (upd_thr_run s1 x (λ y, with_state y SELF) t1 Ht1).
  destruct (upd_but s1 _ x (with_state t1 SELF) Hls1 Hag1) as [Hls2 Hag2].
  set (s2 := with_thr s1 _) in *. assert (thr s2 !! x = Some (with_state t1 SELF)) as Ht2 by apply lookup_insert_eq.
  krun (get_thr_run s2 x _ Ht2). cbn [proc with_state].
  assert (state t1 = READY) as Hst1.
  { change (state (with_next t1 None) = READY). rewrite E. simpl. unfold loc in Hl. destruct (state t); try done.
    by destruct (wait_cond t). }
  assert (same_ids s s2) as Hids.
  { etrans; [by apply same_threads_ids|]. apply (upd_ids s1 x t1 _ Ht1). apply ident_live; [done|by rewrite Hst1|done]. }
  assert (agree s2 (qset q Ready l)) as Hag3 by (by eapply agree_but_elim).
  assert (∀ s3, s3 = with_TP (with_active s2 (active s3)) x → inv s3 (qset q Ready l) ∧ TP s3 = x ∧ same_ids s s3) as Hfin.
  { intros s3 ->. split_and!; [|done|by destruct Hids; split]. split.
    - destruct Hls2 as [Hrep2 ? ?]. split; [|done|done]. intros r. specialize (Hrep2 r). by destruct r.
    - done.
    - intros p tp. simpl. destruct (decide (p = x)) as [->|Hne]; [rewrite lookup_insert_eq; by intros [= <-]|].
      rewrite lookup_insert_ne by auto. intros Hp. split; [|done]. intros Hst. exfalso.
      destruct (same_threads_back s s1 p tp Hsame Hp) as (tp' & Hp' & E'). apply (Hself p tp' Hp').
      change (state (with_next tp' None) = SELF). by rewrite <- E'.
    - by exists (with_state t1 SELF).
    - simpl. unfold qset. rewrite decide_True by done. rewrite Hq in Hidle. done. }
  assert (proc t1 = proc t) as Hpr by (change (proc (with_next t1 None) = proc (with_next t None)); by rewrite E).
  pose proof Hsame as [[_ _ _ Hprocs Hact] _].
  assert (∀ s3, (s3 = with_TP (with_active s2 (active s3)) x) → active s3 = space_of s t →
    ∃ s' t0, (Ret tt, s3) = (Ret tt, s') ∧ inv s' (qset q Ready l) ∧ TP s' = x ∧ same_ids s s' ∧
             thr s !! x = Some t0 ∧ active s' = space_of s t0) as Hdone.
  { intros s3 H3 Ha. exists s3, t. destruct (Hfin s3 H3) as (?&?&?). by split_and!. }
  assert (active s2 = active s) as Ha2 by exact Hact.
  destruct (proc t1) as [p|] eqn:Ep.
  - rewrite bind_bind. kgets. simpl. rewrite Hprocs.
    destruct (default 0 (procs s !! p) =? 0) eqn:E0; simpl; apply Hdone; try done;
      unfold space_of; rewrite <- Hpr, E0; [exact Ha2|done].
  - apply Hdone; [done|]. unfold space_of. rewrite <- Hpr. exact Ha2.
Qed.

(** Suspending a thread that was already taken off the processor. *)
Lemma suspend_off s q t :
  between s q → thr s !! TP s = Some t → running_thread_suspend s = pick_next s.
Proof.
  intros Hb Ht. unfold running_thread_suspend. kgets. krun (get_thr_run s (TP s) t Ht).
  rewrite decide_False by (by eapply btw_self). kret. done.
Qed.

(** Taking the running thread off the processor into the state [t']. *)
Lemma off_but s q t t' :
  inv s q → thr s !! TP s = Some t → state t' ≠ SELF →
  lists (with_thr s (<[TP s := t']> (thr s))) q ∧ agree_but (with_thr s (<[TP s := t']> (thr s))) q (TP s) ∧
  ∀ p x, (<[TP s := t']> (thr s)) !! p = Some x → state x ≠ SELF.
Proof.
  intros Hinv Ht Hst. pose proof (inv_lists s q Hinv) as Hls.
  assert (loc t = None) as Hloc by (unfold loc; by rewrite (proj2 (inv_self s q Hinv _ _ Ht) eq_refl)).
  destruct (upd_but s q (TP s) t' Hls) as [H1 H2]; [by eapply agree_but_intro; [apply Hinv|..]|].
  split_and!; [done|done|]. intros p x. destruct (decide (p = TP s)) as [->|Hne].
  - rewrite lookup_insert_eq. by intros [= <-].
  - rewrite lookup_insert_ne by auto. intros Hp E. by apply Hne, (inv_self s q Hinv p x Hp).
Qed.

Lemma same_threads_noself s s' :
  same_threads s s' → (∀ p x, thr s !! p = Some x → state x ≠ SELF) → ∀ p x, thr s' !! p = Some x → state x ≠ SELF.
Proof.
  intros Hs Hno p x Hp. destruct (same_threads_back s s' p x Hs Hp) as (x' & Hx' & E).
  change (state (with_next x None) ≠ SELF). rewrite E. exact (Hno p x' Hx').
Qed.

(** [thread_yield] rotates the ready list. *)
Lemma thread_yield_ok s q :
  inv s q → ∃ s' x l t, thread_yield s = (Ret tt, s') ∧ q Ready ++ [TP s] = x :: l ∧ TP s' = x ∧
    inv s' (qset q Ready l) ∧ same_ids s s' ∧ thr s !! x = Some t ∧ active s' = space_of s t.
Proof.
  intros Hinv. destruct (inv_tp s q Hinv) as [t Ht]. unfold thread_yield, running_thread_suspend. kgets.
  assert (state t = SELF) as Hst by (by apply (inv_self s q Hinv _ _ Ht)).
  krun (get_thr_run s (TP s) t Ht). rewrite decide_True by done.
  rewrite bind_bind. krun (upd_thr_run s (TP s) (λ y, with_state y READY) t Ht).
  destruct (off_but s q t (with_state t READY) Hinv Ht) as (Hls1 & Hag1 & Hno1); [done|].
  set (s1 := with_thr s _) in *. assert (thr s1 !! TP s = Some (with_state t READY)) as Ht1 by apply lookup_insert_eq.
  destruct (enqueue_ok s1 q Ready (TP s) _ Hls1 Hag1 Ht1 eq_refl) as (s2 & Hins & Hls2 & Hag2 & Hsame).
  krun Hins. change (∃ s' x l t0, pick_next s2 = (Ret tt, s') ∧ q Ready ++ [TP s] = x :: l ∧ TP s' = x ∧
    inv s' (qset q Ready l) ∧ same_ids s s' ∧ thr s !! x = Some t0 ∧ active s' = space_of s t0).
  destruct (q Ready ++ [TP s]) as [|x l] eqn:Hq; [by destruct (q Ready)|].
  assert (between s2 (qset q Ready (x :: l))) as Hb.
  { split; [done|done|by eapply same_threads_noself|]. unfold qset. rewrite decide_True by done. rewrite <- Hq.
    apply elem_of_app. pose proof (inv_idle s q Hinv) as [<-|H]%elem_of_cons; [right; by left|by left]. }
  destruct (pick_next_ok s2 _ x l Hb) as (s' & t' & Hrun & Hinv' & Htp & Hids & Ht' & Hact).
  { unfold qset. by rewrite decide_True by done. }
  assert (same_ids s s2) as Hids2.
  { transitivity s1; [apply (upd_ids s (TP s) t _ Ht), ident_live; [done|by rewrite Hst|done]|by apply same_threads_ids]. }
  assert (∃ t0, thr s !! x = Some t0 ∧ proc t0 = proc t') as (t0 & Ht0 & Hp0).
  { pose proof (si_thr s s2 Hids2 x) as E. rewrite Ht' in E. destruct (thr s !! x) as [t0|]; [|done].
    apply (inj Some) in E. exists t0. split; [done|]. change (proc (ident t0) = proc (ident t')). by rewrite E. }
  exists s', x, l, t0. split_and!; try done.
  - by rewrite qset_twice in Hinv'.
  - by etrans.
  - rewrite Hact. unfold space_of. rewrite Hp0, (si_procs s s2 Hids2).
    destruct Hsame as [[_ _ _ _ Ha] _]. rewrite Ha. done.
Qed.

(** [condition_wait] moves the running thread to the end of the wait list and
    runs the first ready thread. *)
Lemma condition_wait_ok s q c :
  inv s q → TP s ≠ idle_thread →
  ∃ s' x l, condition_wait c s = (Ret tt, s') ∧ q Ready = x :: l ∧ TP s' = x ∧
    inv s' (qset (qset q (Cond c) (q (Cond c) ++ [TP s])) Ready l) ∧ same_ids s s'.
Proof.
  intros Hinv Hni. destruct (inv_tp s q Hinv) as [t Ht]. unfold condition_wait. kgets.
  krun (get_thr_run s (TP s) t Ht).
  assert (state t = SELF) as Hst by (by apply (inv_self s q Hinv _ _ Ht)). rewrite decide_False by (intros E; by apply E).
  unfold set_thread_state. krun (upd_thr_run s (TP s) (λ y, with_state y WAITING) t Ht).
  set (s1 := with_thr s _). assert (thr s1 !! TP s = Some (with_state t WAITING)) as H1 by apply lookup_insert_eq.
  krun (upd_thr_run s1 (TP s) (λ y, with_cond y (Some c)) _ H1).
  set (s2 := with_thr s1 _). assert (thr s2 !! TP s = Some (with_cond (with_state t WAITING) (Some c))) as H2 by apply lookup_insert_eq.
  krun (upd_thr_run s2 (TP s) (λ y, with_next y None) _ H2). unfold s2, s1. cbn [with_thr thr]. rewrite !insert_insert_eq.
  clear s1 s2 H1 H2. set (t' := with_next (with_cond (with_state t WAITING) (Some c)) None).
  destruct (off_but s q t t' Hinv Ht) as (Hls1 & Hag1 & Hno1); [done|].
  change (with_thr (with_thr (with_thr s (<[TP s:=with_state t WAITING]> (thr s))) (<[TP s:=with_cond (with_state t WAITING) (Some c)]> (thr s)))
    (<[TP s:=t']> (thr s))) with (with_thr s (<[TP s:=t']> (thr s))).
  set (s1 := with_thr s _) in *. assert (thr s1 !! TP s = Some t') as Ht1 by apply lookup_insert_eq.
  destruct (enqueue_ok s1 q (Cond c) (TP s) _ Hls1 Hag1 Ht1 eq_refl) as (s2 & Hins & Hls2 & Hag2 & Hsame).
  krun Hins. pose proof (inv_idle s q Hinv) as [Hi|Hidle]%elem_of_cons; [congruence|].
  destruct (q Ready) as [|x l] eqn:Hq; [by apply not_elem_of_nil in Hidle|].
  assert (between s2 (qset q (Cond c) (q (Cond c) ++ [TP s]))) as Hb.
  { split; [done|done|by eapply same_threads_noself|]. unfold qset. rewrite decide_False by done. by rewrite Hq. }
  destruct (same_threads_lookup s1 s2 _ _ Hsame Ht1) as (t2 & Ht2 & _).
  assert (TP s2 = TP s) as Htp by (by destruct Hsame as [[] _]). rewrite <- Htp in Ht2.
  rewrite (suspend_off s2 _ t2 Hb Ht2).
  destruct (pick_next_ok s2 _ x l Hb) as (s' & t3 & Hrun & Hinv' & Htp' & Hids & _).
  { unfold qset. by rewrite decide_False by done. }
  exists s', x, l. split_and!; try done. etrans; [|exact Hids].
  transitivity s1; [apply (upd_ids s (TP s) t _ Ht), ident_live; [done|by rewrite Hst|done]|by apply same_threads_ids].
Qed.

(** ** Broadcast *)

(** The rest of the state and the identity of the running thread are kept. *)
Record quiet s s' : Prop := {
  qu_ids : same_ids s s';
  qu_tp : TP s' = TP s;
  qu_active : active s' = active s;
  qu_self p t' : thr s' !! p = Some t' → ∃ t, thr s !! p = Some t ∧ (state t' = SELF ↔ state t = SELF)
}.

#[global] Instance quiet_trans : Transitive quiet.
Proof.
  intros s1 s2 s3 [H1 H2 H3 H4] [G1 G2 G3 G4]. split; [by etrans|congruence|congruence|].
  intros p t (t2 & (t1 & Ht1 & E1)%H4 & E2)%G4. exists t1. split; [done|]. by rewrite E2.
Qed.

#[global] Instance quiet_refl : Reflexive quiet.
Proof. split; try done. intros p t Ht. by exists t. Qed.

Lemma same_threads_quiet s s' : same_threads s s' → quiet s s'.
Proof.
  intros Hs. pose proof Hs as [[] _]. split; [by apply same_threads_ids|done|done|].
  intros p t Hp. destruct (same_threads_back s s' p t Hs Hp) as (t0 & Ht0 & E). exists t0. split; [done|].
  change (state (with_next t None) = SELF ↔ state t0 = SELF). by rewrite E.
Qed.

Lemma upd_quiet s p t t' :
  thr s !! p = Some t → ident t' = ident t → state t ≠ SELF → state t' ≠ SELF →
  quiet s (with_thr s (<[p := t']> (thr s))).
Proof.
  intros Hp Hi H1 H2. split; [by eapply upd_ids|done|done|]. intros x tx. simpl.
  destruct (decide (x = p)) as [->|Hne]; [rewrite lookup_insert_eq; intros [= <-]; by exists t|].
  rewrite lookup_insert_ne by auto. intros Hx. by exists tx.
Qed.

(** Waking the first waiter. *)
Lemma wake_one_ok s q c x l fuel :
  lists s q → agree s q → q (Cond c) = x :: l →
  ∃ s', broadcast_loop (S fuel) c s = broadcast_loop fuel c s' ∧
    lists s' (qset (qset q (Cond c) l) Ready (q Ready ++ [x])) ∧
    agree s' (qset (qset q (Cond c) l) Ready (q Ready ++ [x])) ∧ quiet s s'.
Proof.
  intros Hls Hag Hq. cbn [broadcast_loop].
  destruct (dequeue_ok s q (Cond c) x l Hls Hag Hq) as (s1 & Hrun & Hls1 & Hag1 & Hsame). krun Hrun.
  assert (member s (Cond c) x) as (t & Ht & Hl) by (apply Hag; rewrite Hq; by left).
  destruct (same_threads_lookup s s1 x t Hsame Ht) as (t1 & Ht1 & E).
  krun (upd_thr_run s1 x (λ y, with_cond y None) t1 Ht1).
  set (s2 := with_thr s1 _). assert (thr s2 !! x = Some (with_cond t1 None)) as Ht2 by apply lookup_insert_eq.
  unfold set_thread_state. krun (upd_thr_run s2 x (λ y, with_state y READY) _ Ht2).
  unfold s2. cbn [with_thr thr]. rewrite insert_insert_eq. clear s2 Ht2.
  set (t' := with_state (with_cond t1 None) READY).
  change (with_thr (with_thr s1 (<[x:=with_cond t1 None]> (thr s1))) (<[x:=t']> (thr s1)))
    with (with_thr s1 (<[x:=t']> (thr s1))).
  destruct (upd_but s1 _ x t' Hls1 Hag1) as [Hls2 Hag2]. set (s2 := with_thr s1 _) in *.
  assert (thr s2 !! x = Some t') as Ht2 by apply lookup_insert_eq.
  destruct (enqueue_ok s2 _ Ready x _ Hls2 Hag2 Ht2 eq_refl) as (s3 & Hins & Hls3 & Hag3 & Hsame3). krun Hins.
  exists s3. split_and!; [done|done|done|]. etrans; [by apply same_threads_quiet|]. etrans; [|by apply same_threads_quiet].
  assert (state t1 = WAITING) as Hst1.
  { change (state (with_next t1 None) = WAITING). rewrite E. simpl. unfold loc in Hl. by destruct (state t). }
  apply (upd_quiet s1 x t1 t' Ht1); [|by rewrite Hst1|done]. apply ident_live; [done|by rewrite Hst1|done].
Qed.

Lemma broadcast_loop_ok l : ∀ fuel s q c,
  lists s q → agree s q → q (Cond c) = l → (length l < fuel)%nat →
  ∃ s' q', broadcast_loop fuel c s = (Ret tt, s') ∧ lists s' q' ∧ agree s' q' ∧ quiet s s' ∧
    pointwise_relation tlref eq q' (qset (qset q (Cond c) []) Ready (q Ready ++ l)).
Proof.
  induction l as [|x l IH]; intros [|fuel] s q c Hls Hag Hq Hfuel; try (simpl in Hfuel; lia).
  - exists s, q. cbn [broadcast_loop]. krun (tlremove_empty s q (Cond c) Hls Hq). split_and!; try done.
    intros r. unfold qset. rewrite app_nil_r. repeat case_decide; congruence.
  - destruct (wake_one_ok s q c x l fuel Hls Hag Hq) as (s1 & -> & Hls1 & Hag1 & Hqu1).
    destruct (IH fuel s1 _ c Hls1 Hag1) as (s2 & q2 & Hrun & Hls2 & Hag2 & Hqu2 & Hq2).
    { unfold qset. by rewrite decide_False, decide_True by done. }
    { simpl in Hfuel. lia. }
    exists s2, q2. split_and!; try done; [by etrans|]. intros r. rewrite Hq2. unfold qset.
    repeat case_decide; try done; simplify_eq. by rewrite <- app_assoc.
Qed.

Lemma queue_length s q r : lists s q → (length (q r) ≤ base.size (thr s))%nat.
Proof.
  intros Hls. rewrite <- size_dom. rewrite <- (size_list_to_set (C:=gset nat) (q r)) by apply Hls.
  apply subseteq_size. intros x [i Hi]%elem_of_list_to_set%list_elem_of_lookup.
  destruct (tr_next _ _ _ (ls_rep s q Hls r) i x Hi) as (t & Ht & _). by apply elem_of_dom_2 in Ht.
Qed.

Lemma condition_broadcast_ok s q c :
  lists s q → agree s q →
  ∃ s' q', condition_broadcast c s = (Ret tt, s') ∧ lists s' q' ∧ agree s' q' ∧ quiet s s' ∧
    pointwise_relation tlref eq q' (qset (qset q (Cond c) []) Ready (q Ready ++ q (Cond c))).
Proof.
  intros Hls Hag. unfold condition_broadcast. kgets. eapply broadcast_loop_ok; try done.
  pose proof (queue_length s q (Cond c) Hls). lia.
Qed.

Lemma quiet_inv s s' q q' :
  inv s q → quiet s s' → lists s' q' → agree s' q' → idle_thread ∈ TP s' :: q' Ready → inv s' q'.
Proof.
  intros Hinv [Hids Htp Hact Hself] Hls Hag Hidle. split; try done.
  - intros p t Hp. destruct (Hself p t Hp) as (t0 & Ht0 & ->). rewrite Htp. by apply (inv_self s q Hinv).
  - rewrite Htp. destruct (inv_tp s q Hinv) as [t Ht]. pose proof (si_thr s s' Hids (TP s)) as E. rewrite Ht in E.
    by destruct (thr s' !! TP s).
Qed.

(** [condition_broadcast] by a running thread. *)
Lemma broadcast_inv s q c :
  inv s q →
  ∃ s' q', condition_broadcast c s = (Ret tt, s') ∧ inv s' q' ∧ q' Ready = q Ready ++ q (Cond c) ∧ q' (Cond c) = [] ∧
    (∀ c', c' ≠ c → q' (Cond c') = q (Cond c')) ∧ TP s' = TP s ∧ same_ids s s'.
Proof.
  intros Hinv. destruct (condition_broadcast_ok s q c (inv_lists s q Hinv) (inv_agree s q Hinv))
    as (s' & q' & Hrun & Hls & Hag & Hqu & Hq'). exists s', q'.
  assert (inv s' q') as Hinv'.
  { apply (quiet_inv s s' q q' Hinv Hqu Hls Hag). rewrite (Hq' Ready), (qu_tp _ _ Hqu). unfold qset. rewrite decide_True by done.
    pose proof (inv_idle s q Hinv) as Hi. rewrite elem_of_cons, elem_of_app in *. tauto. }
  split_and!; [done|done| | | |by apply (qu_tp _ _ Hqu)|by apply (qu_ids _ _ Hqu)].
  - by rewrite (Hq' Ready).
  - rewrite (Hq' (Cond c)). unfold qset. by rewrite decide_False, decide_True by done.
  - intros c' Hne. rewrite (Hq' (Cond c')). unfold qset. by rewrite decide_False, decide_False by congruence.
Qed.

End ThreadProofs.
