(* ===== verification/LockProofs.v ===== *)
(** * Locks: the chain of held locks

    [held s h] says that the [lock_list] of every thread is the chain of the
    locks it owns.  Acquiring adds at the front, the last release of a lock
    unlinks it from wherever it is and wakes its waiters, and a thread that
    exits gives back everything it holds. *)

From S2P Require Import Prelude Config Threads ThreadProofs.
Import Threads ThreadProofs.

Module LockProofs.

Implicit Types (s : ks) (q : tlref → list nat) (h : nat → list nat) (ls : gmap nat lock).

Definition with_lnext (k : lock) v : lock := Lock (cv k) (owner k) (count k) v.

Fixpoint lchain ls (o : option nat) (xs : list nat) : Prop :=
  match xs with
  | [] => o = None
  | l :: xs => o = Some l ∧ ∃ k, ls !! l = Some k ∧ lchain ls (lnext k) xs
  end.

Definition hset h (t : nat) (l : list nat) : nat → list nat := λ t', if decide (t' = t) then l else h t'.

Record held s h : Prop := {
  hd_chain t x : thr s !! t = Some x → lchain (locks s) (lock_list x) (h t);
  hd_nodup t : NoDup (h t);
  hd_owner t l : l ∈ h t ↔ ∃ k, locks s !! l = Some k ∧ owner k = Some t;
  hd_live t l : l ∈ h t → ∃ x, thr s !! t = Some x ∧ state x ≠ EXITED
}.

(** A lock that is taken has been acquired at least once. *)
Definition counted ls : Prop := ∀ l k, ls !! l = Some k → owner k ≠ None → 1 ≤ count k < 2 ^ 31.

Lemma counted_upd ls l k : counted ls → (owner k ≠ None → 1 ≤ count k < 2 ^ 31) → counted (<[l := k]> ls).
Proof.
  intros Hc Hk l' k'. destruct (decide (l' = l)) as [->|]; [rewrite lookup_insert_eq; by intros [= <-]|].
  rewrite lookup_insert_ne by auto. apply Hc.
Qed.

Lemma lchain_frame ls ls' xs : ∀ o,
  lchain ls o xs → (∀ x, x ∈ xs → lnext <$> ls' !! x = lnext <$> ls !! x) → lchain ls' o xs.
Proof.
  induction xs as [|x xs IH]; [done|]. intros o (-> & k & Hk & Hc) Hf. split; [done|].
  pose proof (Hf x ltac:(by left)) as E. rewrite Hk in E. destruct (ls' !! x) as [k'|]; [|done].
  injection E as E. exists k'. split; [done|]. rewrite E. apply IH; [done|]. intros y Hy. apply Hf. by right.
Qed.

Lemma lchain_upd ls xs o l k :
  lchain ls o xs → l ∉ xs → lchain (<[l := k]> ls) o xs.
Proof. intros Hc Hl. eapply lchain_frame; [done|]. intros x Hx. rewrite lookup_insert_ne by set_solver. done. Qed.

Lemma lchain_keep ls xs o l k k' :
  lchain ls o xs → ls !! l = Some k → lnext k' = lnext k → lchain (<[l := k']> ls) o xs.
Proof.
  intros Hc Hl E. eapply lchain_frame; [done|]. intros x _. destruct (decide (x = l)) as [->|].
  - rewrite lookup_insert_eq, Hl. simpl. by rewrite E.
  - by rewrite lookup_insert_ne by auto.
Qed.

(** Two owners hold different locks. *)
Lemma held_disjoint s h t t' l : held s h → l ∈ h t → l ∈ h t' → t = t'.
Proof.
  intros Hh (k & Hk & Ho)%(hd_owner s h Hh) (k' & Hk' & Ho')%(hd_owner s h Hh). congruence.
Qed.

(** The operations of the scheduler leave the held locks alone. *)
Lemma held_ids s s' h : same_ids s s' → held s h → held s' h.
Proof.
  intros [_ Hl _ Hth] [H1 H2 H3 H4]. split; rewrite ?Hl; try done.
  - intros t x Hx. pose proof (Hth t) as E. rewrite Hx in E. destruct (thr s !! t) as [y|] eqn:Hy; [|done].
    apply (inj Some) in E. change (lchain (locks s) (lock_list (ident x)) (h t)). rewrite E. by apply (H1 t y).
  - intros t l Hin. destruct (H4 t l Hin) as (y & Hy & Hst). pose proof (Hth t) as E. rewrite Hy in E.
    destruct (thr s' !! t) as [x|]; [|done]. apply (inj Some) in E. exists x. split; [done|]. intros Hx.
    pose proof (f_equal state E) as Es. unfold ident in Es. simpl in Es. rewrite decide_True, decide_False in Es by done. done.
Qed.

(** What neither the scheduler nor the locks change: who the threads are. *)
Definition core (t : thread) : thread := with_held (ident t) None.

Record same_core s s' : Prop := {
  sc_tab : thrtab s' = thrtab s;
  sc_thr p : core <$> thr s' !! p = core <$> thr s !! p
}.

#[global] Instance same_core_refl : Reflexive same_core.
Proof. by split. Qed.
#[global] Instance same_core_trans : Transitive same_core.
Proof. intros s1 s2 s3 [] []; split; congruence. Qed.

Lemma same_ids_core s s' : same_ids s s' → same_core s s'.
Proof.
  intros [Ht _ _ Hth]. split; [done|]. intros p. specialize (Hth p).
  destruct (thr s' !! p), (thr s !! p); simpl in *; try done. apply (inj Some) in Hth. unfold core. by rewrite Hth.
Qed.

Lemma same_core_held s p t v :
  thr s !! p = Some t → same_core s (with_thr s (<[p := with_held t v]> (thr s))).
Proof.
  intros Hp. split; [done|]. intros x. simpl. destruct (decide (x = p)) as [->|].
  - by rewrite lookup_insert_eq, Hp.
  - by rewrite lookup_insert_ne by auto.
Qed.

(** ** Updates that the scheduler's invariant does not see *)

Lemma lists_locks s q m : lists s q → lists (with_locks s m) q.
Proof. intros [H1 H2 H3]. split; [|done|done]. intros r. specialize (H1 r). by destruct r. Qed.

Lemma inv_locks s q m : inv s q → inv (with_locks s m) q.
Proof. intros []. split; try done. by apply lists_locks. Qed.

Lemma inv_held s q p t v :
  inv s q → thr s !! p = Some t → inv (with_thr s (<[p := with_held t v]> (thr s))) q.
Proof.
  intros [Hls Hag Hself Htp Hidle] Hp. split; [by apply (upd_lists s q p (λ y, with_held y v) t)| | | |done].
  - intros r x. rewrite (Hag r x). destruct (decide (x = p)) as [->|Hne]; [|by rewrite member_upd].
    unfold member. simpl. rewrite lookup_insert_eq, Hp. split; intros (? & [= <-] & Hl); by eexists.
  - intros x tx. simpl. destruct (decide (x = p)) as [->|Hne].
    + rewrite lookup_insert_eq. intros [= <-]. by apply (Hself p t).
    + rewrite lookup_insert_ne by auto. apply Hself.
  - simpl. destruct (decide (TP s = p)) as [->|]; [by rewrite lookup_insert_eq|by rewrite lookup_insert_ne by auto].
Qed.

Lemma put_lock_run s l k : put_lock l k s = (Ret tt, with_locks s (<[l := k]> (locks s))).
Proof. done. Qed.

(** ** Acquire *)

Lemma lock_acquire_free s q h l k :
  inv s q → held s h → locks s !! l = Some k → owner k = None →
  ∃ s' t, thr s !! TP s = Some t ∧ lock_acquire l s = (Ret true, s') ∧ inv s' q ∧ held s' (hset h (TP s) (l :: h (TP s))) ∧
        TP s' = TP s ∧ locks s' = <[l := Lock (cv k) (Some (TP s)) 1 (h (TP s) !! O)]> (locks s) ∧
        thrtab s' = thrtab s ∧ thr s' = <[TP s := with_held t (Some l)]> (thr s).
Proof.
  intros Hinv Hh Hl Ho. destruct (inv_tp s q Hinv) as [t Ht].
  assert (l ∉ h (TP s)) as Hfresh by (intros (k' & ? & ?)%(hd_owner s h Hh); congruence).
  assert (∀ t', l ∉ h t') as Hout by (intros t' (k' & ? & ?)%(hd_owner s h Hh); congruence).
  assert (lock_list t = h (TP s) !! O) as Hll.
  { pose proof (hd_chain s h Hh _ _ Ht) as Hc. by destruct (h (TP s)); [|destruct Hc]. }
  unfold lock_acquire. kgets. krun (get_lock_run s l k Hl). rewrite Ho, decide_False by done.
  unfold lock_acquire_loop. kgets. krun (get_lock_run s l k Hl). rewrite Ho. krun (get_thr_run s (TP s) t Ht).
  krun (put_lock_run s l (Lock (cv k) (Some (TP s)) 1 (lock_list t))).
  set (s1 := with_locks s _). assert (thr s1 !! TP s = Some t) as Ht1 by done.
  krun (upd_thr_run s1 (TP s) (λ y, with_held y (Some l)) t Ht1). eexists _, t. split; [done|]. split; [reflexivity|].
  split_and!; [by apply inv_held; [apply inv_locks|]| |done|simpl; by rewrite Hll|done|done].
  destruct Hh as [H1 H2 H3 H4]. unfold hset. split.
  - intros p x. simpl. case_decide as E; [subst p; rewrite lookup_insert_eq; intros [= <-]|].
    + split; [done|]. eexists. rewrite lookup_insert_eq. split; [done|]. simpl. apply lchain_upd; [by apply H1|done].
    + rewrite lookup_insert_ne by auto. intros Hp. apply lchain_upd; [by apply H1|apply Hout].
  - intros p. case_decide; [|done]. by apply NoDup_cons.
  - intros p x. simpl. destruct (decide (x = l)) as [->|Hne].
    + rewrite lookup_insert_eq. case_decide as E.
      * subst p. split; [intros _; by eexists|]. intros _. by left.
      * split; [intros Hin; by apply Hout in Hin|]. intros (? & [= <-] & [= ?]). congruence.
    + rewrite lookup_insert_ne by auto. case_decide as E; [|apply H3]. subst p. rewrite elem_of_cons, H3. naive_solver.
  - intros p x. simpl. case_decide as E; [subst p; rewrite lookup_insert_eq; intros _|].
    + eexists. split; [done|]. simpl. by rewrite (proj2 (inv_self s q Hinv _ _ Ht) eq_refl).
    + rewrite lookup_insert_ne by auto. apply H4.
Qed.

(** A change of the count of a held lock. *)
Lemma held_count s h l k c :
  held s h → locks s !! l = Some k →
  held (with_locks s (<[l := Lock (cv k) (owner k) c (lnext k)]> (locks s))) h.
Proof.
  intros [H1 H2 H3 H4] Hl. split; try done; simpl.
  - intros t x Hx. eapply lchain_keep; [by apply H1|done|done].
  - intros t x. rewrite H3. destruct (decide (x = l)) as [->|Hne]; [|by rewrite lookup_insert_ne by auto].
    rewrite lookup_insert_eq, Hl. split; intros (? & [= <-] & Ho); by eexists.
Qed.

(** A lock that did not exist and is free. *)
Lemma held_fresh s h l c :
  held s h → locks s !! l = None → held (with_locks s (<[l := Lock c None 0 None]> (locks s))) h.
Proof.
  intros [H1 H2 H3 H4] Hl.
  assert (∀ t, l ∉ h t) as Hout by (intros t (k & Hk & _)%H3; congruence).
  split; try done; simpl.
  - intros t x Hx. apply lchain_upd; [by apply H1|done].
  - intros t x. destruct (decide (x = l)) as [->|].
    + rewrite lookup_insert_eq. split; [intros Hin; by apply Hout in Hin|]. by intros (? & [= <-] & ?).
    + rewrite lookup_insert_ne by auto. apply H3.
Qed.

Lemma lock_acquire_again s q h l k :
  inv s q → held s h → counted (locks s) → locks s !! l = Some k → owner k = Some (TP s) → count k + 1 < 2 ^ 31 →
  ∃ s', lock_acquire l s = (Ret true, s') ∧ inv s' q ∧ held s' h ∧ TP s' = TP s ∧
        locks s' = <[l := Lock (cv k) (owner k) (count k + 1) (lnext k)]> (locks s) ∧ thr s' = thr s ∧ thrtab s' = thrtab s.
Proof.
  intros Hinv Hh Hcnt Hl Ho Hc. unfold lock_acquire. kgets. krun (get_lock_run s l k Hl). rewrite decide_True by done.
  pose proof (Hcnt l k Hl ltac:(by rewrite Ho)) as Hk.
  assert (s32 (count k + 1) = count k + 1) as -> by (apply s32_small; lia).
  eexists. split; [reflexivity|]. split_and!; [by apply inv_locks|by apply held_count|done|done|done|done].
Qed.

Lemma lock_acquire_blocks s q h l k o :
  inv s q → held s h → TP s ≠ idle_thread → locks s !! l = Some k → owner k = Some o → o ≠ TP s →
  ∃ s' x r, lock_acquire l s = (Ret false, s') ∧ q Ready = x :: r ∧ TP s' = x ∧
    inv s' (qset (qset q (Cond (cv k)) (q (Cond (cv k)) ++ [TP s])) Ready r) ∧ same_ids s s'.
Proof.
  intros Hinv Hh Hni Hl Ho Hne. unfold lock_acquire. kgets. krun (get_lock_run s l k Hl).
  rewrite decide_False by congruence. unfold lock_acquire_loop. kgets. krun (get_lock_run s l k Hl). rewrite Ho.
  destruct (condition_wait_ok s q (cv k) Hinv Hni) as (s' & x & r & Hrun & Hq & Htp & Hinv' & Hids).
  krun Hrun. by exists s', x, r.
Qed.

(** ** Release *)

(** Where [find_ins] stops: at the link that leads to the lock after [pre]. *)
Definition insref (r : lref) (pre : list nat) : lref := match last pre with None => r | Some k => LNext k end.

Lemma find_ins_ok l post pre : ∀ fuel s r o,
  get_lref r s = (Ret o, s) → lchain (locks s) o (pre ++ l :: post) → l ∉ pre → (length pre < fuel)%nat →
  find_ins fuel l r s = (Ret (insref r pre), s).
Proof.
  induction pre as [|x pre IH]; intros [|fuel] s r o Hr Hc Hl Hf; try (simpl in Hf; lia); cbn [find_ins]; krun Hr.
  - destruct Hc as [-> _]. by rewrite decide_True.
  - destruct Hc as (-> & k & Hk & Hc). apply not_elem_of_cons in Hl as [Hxl Hl]. rewrite decide_False by congruence.
    rewrite (IH fuel s (LNext x) (lnext k)); [|by unfold get_lref; krun (get_lock_run s x k Hk)|done|done|simpl in Hf; lia].
    unfold insref. rewrite last_cons. by destruct (last pre).
Qed.

(** The chain is cut short by pointing the link before [l] past it. *)
Lemma lchain_unlink l post k pre : ∀ ls o y ky,
  lchain ls o (pre ++ [y] ++ l :: post) → NoDup (pre ++ [y] ++ l :: post) → ls !! l = Some k → ls !! y = Some ky →
  lchain (<[y := with_lnext ky (lnext k)]> ls) o (pre ++ [y] ++ post).
Proof.
  induction pre as [|x pre IH]; intros ls o y ky Hc Hnd Hl Hy; simpl in *.
  - destruct Hc as (-> & ky' & Hy' & _ & k' & Hk' & Hc). simplify_eq. split; [done|].
    eexists. rewrite lookup_insert_eq. split; [done|]. apply lchain_upd; [done|].
    apply NoDup_cons in Hnd as [Hn _]. set_solver.
  - destruct Hc as (-> & kx & Hx & Hc). apply NoDup_cons in Hnd as [Hn Hnd]. split; [done|].
    exists kx. split; [|by eapply IH]. rewrite lookup_insert_ne; [done|]. set_solver.
Qed.

(** Removing [l] from the chain of its owner, and clearing its owner. *)
Lemma held_unlink s h t x pre post l k c k' :
  held s h → thr s !! t = Some x → h t = pre ++ l :: post → locks s !! l = Some k →
  k' = Lock (cv k) None c None →
  match last pre with
  | None => held (with_locks (with_thr s (<[t := with_held x (lnext k)]> (thr s))) (<[l := k']> (locks s))) (hset h t post)
  | Some y => ∀ ky, locks s !! y = Some ky →
      held (with_locks s (<[l := k']> (<[y := with_lnext ky (lnext k)]> (locks s)))) (hset h t (pre ++ post))
  end.
Proof.
  intros Hh Ht Hht Hl ->. pose proof (hd_nodup s h Hh t) as Hnd. rewrite Hht in Hnd.
  assert (∀ t' z, t' ≠ t → z ∈ h t' → z ∉ h t) as Hdis by (intros t' z Hne H1 H2; by apply Hne, (held_disjoint s h t' t z Hh)).
  assert (∀ p z, z ∈ hset h t (pre ++ post) p ↔ z ≠ l ∧ z ∈ h p) as Hmem.
  { intros p z. unfold hset. case_decide as E; [subst p; rewrite Hht|].
    - assert (l ∉ pre ++ post) as Hlp.
      { apply NoDup_app in Hnd as (_ & Hd & [Hp _]%NoDup_cons). intros [Hi|Hi]%elem_of_app; [|done].
        apply (Hd l Hi). by left. }
      rewrite !elem_of_app, elem_of_cons in *. set_solver.
    - split; [|by intros [_ ?]]. intros Hz. split; [|done]. intros ->. apply (Hdis p l E Hz). rewrite Hht. set_solver. }
  assert (NoDup (pre ++ post)) as Hnd'.
  { apply NoDup_app in Hnd as (Hp & Hd & [_ Hq]%NoDup_cons). apply NoDup_app. split_and!; try done.
    intros z Hz Hz'. apply (Hd z Hz). by right. }
  assert (l ∉ pre ++ post) as Hlp.
  { intros Hin. specialize (Hmem t l). unfold hset in Hmem. rewrite decide_True in Hmem by done. by apply Hmem in Hin as [? _]. }
  pose proof Hh as [H1 H2 H3 H4]. pose proof (H1 t x Ht) as Hc. rewrite Hht in Hc.
  destruct (last pre) as [y|] eqn:Hlast.
  - apply last_Some in Hlast as [pre' ->]. intros ky Hy.
    assert (y ∈ h t) as Hyt by (rewrite Hht; set_solver).
    assert (y ≠ l) as Hyl by (intros ->; apply Hlp; set_solver).
    split; simpl.
    + intros p z Hp. unfold hset. case_decide as E; [subst p; simplify_eq|].
      * apply lchain_upd; [|done]. rewrite <- app_assoc in *. by eapply lchain_unlink.
      * assert (y ∉ h p) by (intros Hin; by apply (Hdis p y E Hin)).
        assert (l ∉ h p) by (intros Hin; apply (Hdis p l E Hin); rewrite Hht; set_solver).
        apply lchain_upd; [|done]. apply lchain_upd; [by apply H1|done].
    + intros p. unfold hset. by case_decide.
    + intros p z. rewrite Hmem, H3. destruct (decide (z = l)) as [->|Hzl]; [rewrite lookup_insert_eq; naive_solver|].
      rewrite lookup_insert_ne by auto. destruct (decide (z = y)) as [->|Hzy].
      * rewrite lookup_insert_eq, Hy. unfold with_lnext. naive_solver.
      * rewrite lookup_insert_ne by auto. naive_solver.
    + intros p z Hz. apply Hmem in Hz as [_ Hz]. by apply (H4 p z).
  - apply last_None in Hlast as ->. destruct Hc as (Hll & k2 & Hk2 & Hc). simplify_eq. split; simpl.
    + intros p z. unfold hset. case_decide as E; [subst p; rewrite lookup_insert_eq; intros [= <-]; by apply lchain_upd|].
      rewrite lookup_insert_ne by auto. intros Hp.
      assert (l ∉ h p) by (intros Hin; apply (Hdis p l E Hin); rewrite Hht; set_solver).
      apply lchain_upd; [by apply H1|done].
    + intros p. unfold hset. by case_decide.
    + intros p z. rewrite (Hmem p z), H3. destruct (decide (z = l)) as [->|Hzl]; [rewrite lookup_insert_eq; naive_solver|].
      rewrite lookup_insert_ne by auto. naive_solver.
    + intros p z Hz. apply Hmem in Hz as [_ Hz]. destruct (H4 p z Hz) as (w & Hw & Hst).
      destruct (decide (p = t)) as [->|]; [rewrite lookup_insert_eq; simplify_eq; by eexists|].
      rewrite lookup_insert_ne by auto. by exists w.
Qed.

Lemma lock_release_other s l k :
  locks s !! l = Some k → owner k ≠ Some (TP s) → lock_release l s = (Ret tt, s).
Proof. intros Hl Ho. unfold lock_release. kgets. krun (get_lock_run s l k Hl). by rewrite decide_True. Qed.

Lemma lock_release_nested s q h l k :
  inv s q → held s h → counted (locks s) → locks s !! l = Some k → owner k = Some (TP s) → 1 < count k →
  ∃ s', lock_release l s = (Ret tt, s') ∧ inv s' q ∧ held s' h ∧ TP s' = TP s ∧
        locks s' = <[l := Lock (cv k) (owner k) (count k - 1) (lnext k)]> (locks s) ∧ thr s' = thr s ∧ thrtab s' = thrtab s.
Proof.
  intros Hinv Hh Hcnt Hl Ho Hc. pose proof (Hcnt l k Hl ltac:(by rewrite Ho)) as Hk.
  unfold lock_release. kgets. krun (get_lock_run s l k Hl). rewrite decide_False by (intros E; by apply E).
  rewrite s32_small by lia. krun (put_lock_run s l (Lock (cv k) (owner k) (count k - 1) (lnext k))).
  rewrite (proj2 (Z.ltb_lt 0 (count k - 1))) by lia. eexists. split; [reflexivity|].
  split_and!; [by apply inv_locks|by apply held_count|done|done|done|done].
Qed.

(** The lock as the last release leaves it. *)
Definition released (k : lock) : lock := Lock (cv k) None (count k - 1) None.

(** The unlinking part of the last release. *)
Lemma unlink_run s q h l k n pre post :
  inv s q → held s h → locks s !! l = Some k → owner k = Some (TP s) → h (TP s) = pre ++ l :: post → (length pre < n)%nat →
  ∃ s' k', (∀ rest : M ks unit, (ins ← find_ins n l (LList (TP s));
     v ← get_lref ins;
     (if decide (v = Some l) then k ← get_lock l; set_lref ins (lnext k) else mret tt);;
     rest) s = rest s') ∧
    locks s' !! l = Some k' ∧ cv k' = cv k ∧ count k' = count k ∧ TP s' = TP s ∧ inv s' q ∧
    same_core s s' ∧
    (∀ c, held (with_locks s' (<[l := Lock (cv k) None c None]> (locks s'))) (hset h (TP s) (pre ++ post))) ∧
    (∀ j, j ≠ l → (λ k, (count k, owner k)) <$> locks s' !! j = (λ k, (count k, owner k)) <$> locks s !! j).
Proof.
  intros Hinv Hh Hl Ho Hht Hn. destruct (inv_tp s q Hinv) as [t Ht].
  pose proof (hd_chain s h Hh _ _ Ht) as Hc. pose proof (hd_nodup s h Hh (TP s)) as Hnd. rewrite Hht in Hc, Hnd.
  assert (l ∉ pre) as Hlp by (apply NoDup_app in Hnd as (_ & Hd & _); intros Hi; apply (Hd l Hi); by left).
  assert (get_lref (LList (TP s)) s = (Ret (lock_list t), s)) as Hget by (unfold get_lref; by krun (get_thr_run s (TP s) t Ht)).
  pose proof (find_ins_ok l post pre n s (LList (TP s)) (lock_list t) Hget Hc Hlp Hn) as Hfind.
  pose proof (λ c k', held_unlink s h (TP s) t pre post l k c k' Hh Ht Hht Hl) as Hun. unfold insref in Hfind.
  destruct (last pre) as [y|] eqn:Hlast.
  - apply last_Some in Hlast as [pre' ->]. assert (y ∈ h (TP s)) as (ky & Hy & Hoy)%(hd_owner s h Hh) by (rewrite Hht; set_solver).
    assert (lnext ky = Some l) as Hny.
    { clear -Hc Hy. revert Hc. generalize (lock_list t). induction pre' as [|z pre' IH]; intros o; simpl.
      - intros (_ & k1 & Hk1 & E & _). by simplify_eq.
      - intros (_ & k1 & _ & H). by eapply IH. }
    assert (y ≠ l) as Hyl by set_solver.
    eexists _, k. split.
    { intros rest. krun Hfind. unfold get_lref. rewrite bind_bind. krun (get_lock_run s y ky Hy). kret.
      rewrite decide_True by done. rewrite bind_bind. krun (get_lock_run s l k Hl). unfold set_lref. rewrite bind_bind.
      krun (get_lock_run s y ky Hy). krun (put_lock_run s y (with_lnext ky (lnext k))). reflexivity. }
    simpl. rewrite lookup_insert_ne by done.
    split_and!; try done; [by apply inv_locks|intros c; by apply (Hun c _ eq_refl ky)|].
    intros j Hj. destruct (decide (j = y)) as [->|]; [by rewrite lookup_insert_eq, Hy|by rewrite lookup_insert_ne by auto].
  - apply last_None in Hlast as ->. destruct Hc as (Hll & _). eexists _, k. split.
    { intros rest. krun Hfind. unfold get_lref. rewrite bind_bind. krun (get_thr_run s (TP s) t Ht). kret.
      rewrite decide_True by done. rewrite bind_bind. krun (get_lock_run s l k Hl). unfold set_lref.
      krun (upd_thr_run s (TP s) (λ y, with_held y (lnext k)) t Ht). reflexivity. }
    split_and!; try done; [by apply inv_held|by apply same_core_held|]. intros c. by apply (Hun c).
Qed.

Lemma held_length s h t : held s h → (length (h t) ≤ base.size (locks s))%nat.
Proof.
  intros Hh. rewrite <- size_dom. rewrite <- (size_list_to_set (C:=gset nat) (h t)) by apply (hd_nodup s h Hh).
  apply subseteq_size. intros x (k & Hk & _)%elem_of_list_to_set%(hd_owner s h Hh). by apply elem_of_dom_2 in Hk.
Qed.

Lemma counted_but ls ls' l k' :
  counted ls → ls' !! l = Some k' → owner k' = None →
  (∀ j, j ≠ l → (λ k, (count k, owner k)) <$> ls' !! j = (λ k, (count k, owner k)) <$> ls !! j) → counted ls'.
Proof.
  intros Hc Hl Ho Hj j k Hk Hok. destruct (decide (j = l)) as [->|Hne]; [congruence|].
  specialize (Hj j Hne). rewrite Hk in Hj. destruct (ls !! j) as [k0|] eqn:E; [|done]. simpl in Hj.
  injection Hj as Ec Eo. rewrite Ec. apply (Hc j k0 E). congruence.
Qed.

(** The last release: the lock is free, it is no longer in the chain, and
    every thread that waited for it is ready, after those that already were. *)
Lemma lock_release_last s q h l k pre post :
  inv s q → held s h → locks s !! l = Some k → owner k = Some (TP s) → count k = 1 → h (TP s) = pre ++ l :: post →
  ∃ s' q' k', lock_release l s = (Ret tt, s') ∧ inv s' q' ∧ held s' (hset h (TP s) (pre ++ post)) ∧ TP s' = TP s ∧
    same_core s s' ∧ locks s' !! l = Some k' ∧ owner k' = None ∧ cv k' = cv k ∧ count k' = 0 ∧
    (∀ j, j ≠ l → (λ k, (count k, owner k)) <$> locks s' !! j = (λ k, (count k, owner k)) <$> locks s !! j) ∧
    pointwise_relation tlref eq q' (qset (qset q (Cond (cv k)) []) Ready (q Ready ++ q (Cond (cv k)))).
Proof.
  intros Hinv Hh Hl Ho Hc Hht. unfold lock_release. kgets. krun (get_lock_run s l k Hl).
  rewrite decide_False by (intros E; by apply E). rewrite Hc. change (s32 (1 - 1)) with 0.
  krun (put_lock_run s l (Lock (cv k) (owner k) 0 (lnext k))). change (0 <? 0) with false. cbn iota.
  set (k0 := Lock (cv k) (owner k) 0 (lnext k)). set (s0 := with_locks s (<[l := k0]> (locks s))).
  assert (inv s0 q) as Hinv0 by (by apply inv_locks). assert (held s0 h) as Hh0 by (by apply held_count).
  assert (locks s0 !! l = Some k0) as Hl0 by apply lookup_insert_eq.
  assert (length pre < S (base.size (locks s0)))%nat as Hn.
  { pose proof (held_length s0 h (TP s) Hh0) as Hlen. rewrite Hht, length_app in Hlen. lia. }
  destruct (unlink_run s0 q h l k0 _ pre post Hinv0 Hh0 Hl0 Ho Hht Hn)
    as (s1 & k1 & Hun & Hl1 & Hcv & Hcn & Htp1 & Hinv1 & Hcore1 & Hh1 & Hoth1).
  kgets. rewrite Hun. krun (get_lock_run s1 l k1 Hl1).
  krun (put_lock_run s1 l (Lock (cv k1) None (count k1) None)). rewrite Hcv, Hcn.
  set (s2 := with_locks s1 (<[l := Lock (cv k) None 0 None]> (locks s1))).
  assert (inv s2 q) as Hinv2 by (by apply inv_locks).
  destruct (condition_broadcast_ok s2 q (cv k) (inv_lists s2 q Hinv2) (inv_agree s2 q Hinv2))
    as (s3 & q3 & Hrun & Hls3 & Hag3 & Hqu & Hq3).
  pose proof Hqu as [Hids Htp3 _ _]. pose proof (si_locks s2 s3 Hids) as Hlk3.
  exists s3, q3, (Lock (cv k) None 0 None). rewrite Hlk3. unfold s2. simpl. rewrite lookup_insert_eq. split_and!; try done.
  - apply (quiet_inv s2 s3 q q3 Hinv2 Hqu Hls3 Hag3). rewrite (Hq3 Ready), Htp3. unfold qset.
    rewrite decide_True by done. pose proof (inv_idle s2 q Hinv2) as Hi. rewrite elem_of_cons, elem_of_app in *. tauto.
  - by eapply held_ids; [|apply Hh1].
  - by rewrite Htp3.
  - transitivity s0; [by split|]. etrans; [exact Hcore1|]. transitivity s2; [by split|]. by apply same_ids_core.
  - intros j Hj. rewrite lookup_insert_ne by auto. rewrite Hoth1 by done. unfold s0. simpl. by rewrite lookup_insert_ne by auto.
Qed.
End LockProofs.
