(* ===== verification/SchedProofs.v ===== *)
(** * Threads: every operation keeps the system consistent

    [sys s] collects the invariants of the thread manager: the scheduler's
    lists ([inv]), the chains of held locks ([held], [counted]) and the thread
    table ([tab_ok]).  [step] is the execution of one operation by the running
    thread; every state that is reachable from [initial] satisfies [sys], and
    no operation fails an assertion, follows a bad pointer or loops. *)

From S2P Require Import Prelude Config Threads ThreadProofs LockProofs.
Import Threads ThreadProofs LockProofs.

Module SchedProofs.

Implicit Types (s : ks) (q : tlref → list nat) (h : nat → list nat) (ls : gmap nat lock).

(** ** Giving back all locks *)

Definition add_count (_ : nat) (k : lock) (n : nat) : nat := (Z.to_nat (count k) + n)%nat.
Definition total ls : nat := map_fold add_count O ls.

Lemma total_delete ls l k : ls !! l = Some k → total ls = (Z.to_nat (count k) + total (delete l ls))%nat.
Proof. intros Hl. apply (map_fold_delete_L add_count O l k ls); [|done]. unfold add_count. intros. lia. Qed.

Lemma total_counts ls ls' : (∀ j, count <$> ls !! j = count <$> ls' !! j) → total ls = total ls'.
Proof.
  revert ls'. induction ls as [|l k ls Hl IH] using map_ind; intros ls' Hj.
  - assert (ls' = ∅) as ->; [|done]. apply map_empty. intros j. specialize (Hj j). rewrite lookup_empty in Hj.
    by destruct (ls' !! j).
  - pose proof (Hj l) as E. rewrite lookup_insert_eq in E. destruct (ls' !! l) as [k'|] eqn:Hl'; [|done].
    injection E as E. rewrite (total_delete _ l k) by apply lookup_insert_eq. rewrite (total_delete ls' l k' Hl').
    rewrite delete_insert_id by done. rewrite E. f_equal. apply IH. intros j. specialize (Hj j).
    destruct (decide (j = l)) as [->|Hne]; [by rewrite lookup_delete_eq, Hl|].
    rewrite lookup_insert_ne in Hj by auto. by rewrite lookup_delete_ne by auto.
Qed.

Lemma total_step ls ls' l k k' :
  ls !! l = Some k → ls' !! l = Some k' → 1 ≤ count k → count k' = count k - 1 →
  (∀ j, j ≠ l → count <$> ls' !! j = count <$> ls !! j) → S (total ls') = total ls.
Proof.
  intros Hl Hl' Hk Hk' Hj. rewrite (total_delete ls l k Hl), (total_delete ls' l k' Hl').
  rewrite (total_counts (delete l ls') (delete l ls)).
  - rewrite Hk', Z2Nat.inj_sub by lia. lia.
  - intros j. destruct (decide (j = l)) as [->|Hne]; [by rewrite !lookup_delete_eq|].
    rewrite !lookup_delete_ne by auto. by apply Hj.
Qed.

(** One release of a lock the running thread holds. *)
Lemma lock_release_held s q h l :
  inv s q → held s h → counted (locks s) → l ∈ h (TP s) →
  ∃ s' q' h', lock_release l s = (Ret tt, s') ∧ inv s' q' ∧ held s' h' ∧ counted (locks s') ∧ TP s' = TP s ∧
    same_core s s' ∧ S (total (locks s')) = total (locks s).
Proof.
  intros Hinv Hh Hcnt Hin. pose proof Hin as (k & Hk & Ho)%(hd_owner s h Hh).
  pose proof (Hcnt l k Hk ltac:(by rewrite Ho)) as Hc. destruct (decide (count k = 1)) as [H1|H1].
  - apply list_elem_of_split in Hin as (pre & post & Hht).
    destruct (lock_release_last s q h l k pre post Hinv Hh Hk Ho H1 Hht)
      as (s' & q' & k' & Hrun & Hinv' & Hh' & Htp & Hcore & Hk' & Ho' & Hcv & Hc' & Hoth & _).
    exists s', q', (hset h (TP s) (pre ++ post)). split_and!; try done; [by eapply counted_but|].
    eapply (total_step _ _ l k k'); try done; [lia|lia|]. intros j Hj. specialize (Hoth j Hj).
    destruct (locks s' !! j), (locks s !! j); simpl in *; congruence.
  - destruct (lock_release_nested s q h l k Hinv Hh Hcnt Hk Ho ltac:(lia)) as (s' & Hrun & Hinv' & Hh' & Htp & Hl' & Ht & Htab).
    exists s', q, h. split_and!; try done.
    + rewrite Hl'. apply counted_upd; [done|]. simpl. lia.
    + split; [done|]. by rewrite Ht.
    + rewrite Hl'. eapply (total_step _ _ l k); [done|apply lookup_insert_eq|lia|done|].
      intros j Hj. by rewrite lookup_insert_ne by auto.
Qed.

Lemma drain_locks_ok fuel : ∀ s q h,
  inv s q → held s h → counted (locks s) → (total (locks s) < fuel)%nat →
  ∃ s' q' h', drain_locks fuel (TP s) s = (Ret tt, s') ∧ inv s' q' ∧ held s' h' ∧ h' (TP s) = [] ∧
    counted (locks s') ∧ TP s' = TP s ∧ same_core s s'.
Proof.
  induction fuel as [|fuel IH]; [lia|]. intros s q h Hinv Hh Hcnt Hf. destruct (inv_tp s q Hinv) as [t Ht].
  cbn [drain_locks]. krun (get_thr_run s (TP s) t Ht). pose proof (hd_chain s h Hh _ _ Ht) as Hc.
  destruct (h (TP s)) as [|l post] eqn:Hht; simpl in Hc.
  - rewrite Hc. by exists s, q, h.
  - destruct Hc as [-> _].
    destruct (lock_release_held s q h l Hinv Hh Hcnt) as (s1 & q1 & h1 & Hrun & Hi1 & Hh1 & Hc1 & Htp & Hcore & Htot).
    { rewrite Hht. by left. }
    krun Hrun. rewrite <- Htp.
    destruct (IH s1 q1 h1 Hi1 Hh1 Hc1 ltac:(lia)) as (s2 & q2 & h2 & Hrun2 & Hi2 & Hh2 & Hn2 & Hc2 & Htp2 & Hcore2).
    exists s2, q2, h2. split_and!; try done. by etrans.
Qed.

(** ** The thread table *)

Record tab_ok s : Prop := {
  tb_len : length (thrtab s) = Z.to_nat NTHR;
  tb_in p x : thr s !! p = Some x → 0 ≤ id x ∧ thrtab s !! Z.to_nat (id x) = Some (Some p);
  tb_out i p : thrtab s !! i = Some (Some p) → ∃ x, thr s !! p = Some x ∧ id x = Z.of_nat i;
  tb_parent p x pp : thr s !! p = Some x → parent x = Some pp → is_Some (thr s !! pp);
  tb_root p x : thr s !! p = Some x → id x = 0 → parent x = None
}.

(** The table speaks of the numbers and parents of the threads. *)
Definition same_tab s s' : Prop :=
  thrtab s' = thrtab s ∧ ∀ p, (λ x, (id x, parent x)) <$> thr s' !! p = (λ x, (id x, parent x)) <$> thr s !! p.

#[global] Instance same_tab_equiv : Equivalence same_tab.
Proof.
  split; [by intros s|intros s s' []; by split|]. intros s1 s2 s3 [? H] [? H']. split; [congruence|].
  intros p. by rewrite H', H.
Qed.

Lemma same_core_tab s s' : same_core s s' → same_tab s s'.
Proof.
  intros [Ht H]. split; [done|]. intros p. specialize (H p).
  destruct (thr s' !! p), (thr s !! p); simpl in *; try done. apply (inj Some) in H.
  pose proof (f_equal id H). pose proof (f_equal parent H). simpl in *. congruence.
Qed.

Lemma same_tab_upd s p t t' :
  thr s !! p = Some t → id t' = id t → parent t' = parent t → same_tab s (with_thr s (<[p := t']> (thr s))).
Proof.
  intros Hp E1 E2. split; [done|]. intros x. simpl. destruct (decide (x = p)) as [->|].
  - rewrite lookup_insert_eq, Hp. simpl. by rewrite E1, E2.
  - by rewrite lookup_insert_ne by auto.
Qed.

Lemma tab_back s s' p x' :
  same_tab s s' → thr s' !! p = Some x' → ∃ x, thr s !! p = Some x ∧ id x' = id x ∧ parent x' = parent x.
Proof.
  intros [_ H] Hp. specialize (H p). rewrite Hp in H. destruct (thr s !! p) as [x|]; [|done].
  exists x. simpl in H. split_and!; congruence.
Qed.

#[global] Instance tab_ok_proper : Proper (same_tab ==> impl) tab_ok.
Proof.
  intros s s' Hc [H1 H2 H3 H4 H5]. pose proof Hc as [Ht _]. pose proof (symmetry Hc) as Hc'. split; rewrite ?Ht; try done.
  - intros p x (y & Hy & -> & _)%(tab_back s s' p x Hc). by apply H2.
  - intros i p (x & Hx & Hi)%H3. destruct (tab_back s' s p x Hc' Hx) as (y & Hy & E & _). exists y. split; [done|lia].
  - intros p x pp (y & Hy & _ & ->)%(tab_back s s' p x Hc) Hpp. destruct (H4 p y pp Hy Hpp) as [z Hz].
    destruct (tab_back s' s pp z Hc' Hz) as (w & Hw & _). by exists w.
  - intros p x (y & Hy & -> & ->)%(tab_back s s' p x Hc). by apply (H5 p).
Qed.

Lemma tab_inj s p p' x x' : tab_ok s → thr s !! p = Some x → thr s !! p' = Some x' → id x = id x' → p = p'.
Proof.
  intros Ht [_ H]%(tb_in s Ht) [_ H']%(tb_in s Ht) E. rewrite E in H. congruence.
Qed.

(** All the invariants. *)
Definition sys s : Prop := ∃ q h, inv s q ∧ held s h ∧ counted (locks s) ∧ tab_ok s.

(** ** Exit *)

Lemma held_state s h p t x :
  held s h → thr s !! p = Some t → h p = [] → held (with_thr s (<[p := with_state t x]> (thr s))) h.
Proof.
  intros [H1 H2 H3 H4] Hp Hn. split; try done; simpl.
  - intros y ty. destruct (decide (y = p)) as [->|]; [rewrite lookup_insert_eq; intros [= <-]; by apply (H1 p t)|].
    rewrite lookup_insert_ne by auto. apply H1.
  - intros y l Hin. destruct (decide (y = p)) as [->|]; [rewrite Hn in Hin; by apply not_elem_of_nil in Hin|].
    rewrite lookup_insert_ne by auto. by apply (H4 y l).
Qed.

Lemma between_quiet s s' q q' :
  between s q → quiet s s' → lists s' q' → agree s' q' → idle_thread ∈ q' Ready → between s' q'.
Proof.
  intros Hb Hqu Hls Hag Hidle. split; try done. intros p t (t0 & Ht0 & E)%(qu_self s s' Hqu).
  rewrite E. by apply (btw_self s q Hb p).
Qed.

Lemma suspend_off_ok s q t :
  between s q → thr s !! TP s = Some t →
  ∃ s' x l, running_thread_suspend s = (Ret tt, s') ∧ q Ready = x :: l ∧ TP s' = x ∧ inv s' (qset q Ready l) ∧ same_ids s s'.
Proof.
  intros Hb Ht. rewrite (suspend_off s q t Hb Ht). destruct (q Ready) as [|x l] eqn:Hq.
  - pose proof (btw_idle s q Hb) as Hi. rewrite Hq in Hi. by apply not_elem_of_nil in Hi.
  - destruct (pick_next_ok s q x l Hb Hq) as (s' & t' & ? & ? & ? & ? & _). by exists s', x, l.
Qed.

Lemma core_lookup s s' p y :
  same_core s s' → thr s !! p = Some y →
  ∃ y', thr s' !! p = Some y' ∧ child_exit y' = child_exit y ∧ parent y' = parent y.
Proof.
  intros [_ H] Hp. specialize (H p). rewrite Hp in H. destruct (thr s' !! p) as [y'|]; [|done].
  apply (inj Some) in H. exists y'. split; [done|].
  pose proof (f_equal child_exit H). pose proof (f_equal parent H). by split.
Qed.

Lemma ids_lookup s s' p y : same_ids s s' → thr s !! p = Some y → ∃ y', thr s' !! p = Some y' ∧ ident y' = ident y.
Proof.
  intros [_ _ _ H] Hp. specialize (H p). rewrite Hp in H. destruct (thr s' !! p) as [y'|]; [|done].
  apply (inj Some) in H. by exists y'.
Qed.

(** The state of a thread that has run [set_thread_state(TP, THREAD_EXITED)]. *)
Lemma exit_wake_ok s q t :
  between s q → tab_ok s → thr s !! TP s = Some t →
  ∃ s' q', (match parent t with
            | Some p => y ← get_thr p; condition_broadcast (child_exit y)
            | None => mret tt
            end) s = (Ret tt, s') ∧ between s' q' ∧ quiet s s' ∧
           (∀ p y, parent t = Some p → thr s !! p = Some y → q' (Cond (child_exit y)) = []).
Proof.
  intros Hb Htab Ht. destruct (parent t) as [p|] eqn:Hp; [|by exists s, q].
  destruct (tb_parent s Htab _ _ _ Ht Hp) as [y Hy]. krun (get_thr_run s p y Hy).
  destruct (condition_broadcast_ok s q (child_exit y) (btw_lists s q Hb) (btw_agree s q Hb))
    as (s' & q' & Hrun & Hls & Hag & Hqu & Hq'). exists s', q'. split_and!; try done.
  - apply (between_quiet s s' q q' Hb Hqu Hls Hag). rewrite (Hq' Ready). unfold qset. rewrite decide_True by done.
    apply elem_of_app. left. exact (btw_idle s q Hb).
  - intros p' y' [= <-] Hy'. simplify_eq. rewrite (Hq' _). unfold qset. by rewrite decide_False, decide_True by done.
Qed.

Lemma thread_exit_ok s q h :
  inv s q → held s h → counted (locks s) → tab_ok s → TP s ≠ main_thread → TP s ≠ idle_thread →
  ∃ s' q' h', thread_exit s = (Ret false, s') ∧ inv s' q' ∧ held s' h' ∧ h' (TP s) = [] ∧ counted (locks s') ∧
    tab_ok s' ∧ (∃ t, thr s' !! TP s = Some t ∧ state t = EXITED) ∧
    (∀ t p y, thr s !! TP s = Some t → parent t = Some p → thr s !! p = Some y → q' (Cond (child_exit y)) = []).
Proof.
  intros Hinv Hh Hcnt Htab Hmain Hidle. unfold thread_exit. kgets. kgets.
  destruct (drain_locks_ok (drain_fuel s) s q h Hinv Hh Hcnt) as (s1 & q1 & h1 & Hrun & Hi1 & Hh1 & Hn1 & Hc1 & Htp1 & Hcore1).
  { unfold drain_fuel, total. unfold add_count. lia. }
  krun Hrun. rewrite decide_False by done. destruct (inv_tp s1 q1 Hi1) as [t1 Ht1].
  assert (tab_ok s1) as Htab1 by (by rewrite <- (same_core_tab _ _ Hcore1)).
  unfold set_thread_state. rewrite <- Htp1 in *. krun (upd_thr_run s1 (TP s1) (λ y, with_state y EXITED) t1 Ht1).
  destruct (off_but s1 q1 t1 (with_state t1 EXITED) Hi1 Ht1) as (Hls2 & Hag2 & Hno2); [done|].
  pose proof (held_state s1 h1 (TP s1) t1 EXITED Hh1 Ht1 Hn1) as Hh2.
  pose proof (same_tab_upd s1 (TP s1) t1 (with_state t1 EXITED) Ht1 eq_refl eq_refl) as Htab2.
  set (s2 := with_thr s1 _) in *. assert (thr s2 !! TP s1 = Some (with_state t1 EXITED)) as Ht2 by apply lookup_insert_eq.
  assert (agree s2 q1) as Hag2' by (by eapply agree_but_elim).
  pose proof (inv_idle s1 q1 Hi1) as [?|Hidle1]%elem_of_cons; [congruence|].
  assert (between s2 q1) as Hb2 by (by split).
  krun (get_thr_run s2 (TP s1) _ Ht2). rewrite Htab2 in Htab1.
  destruct (exit_wake_ok s2 q1 _ Hb2 Htab1 Ht2) as (s3 & q3 & Hwake & Hb3 & Hqu3 & Hempty). krun Hwake.
  pose proof (qu_ids s2 s3 Hqu3) as Hids3. destruct (ids_lookup s2 s3 _ _ Hids3 Ht2) as (t3 & Ht3 & _).
  assert (TP s3 = TP s1) as Htp3 by (by rewrite (qu_tp s2 s3 Hqu3)). rewrite <- Htp3 in Ht3.
  destruct (suspend_off_ok s3 q3 t3 Hb3 Ht3) as (s4 & x & l & Hsus & Hq3 & Htp4 & Hinv4 & Hids4). krun Hsus.
  assert (same_ids s2 s4) as Hids by (by etrans).
  exists s4, (qset q3 Ready l), h1. split_and!; try done.
  - by apply (held_ids s2 s4).
  - by rewrite (si_locks s2 s4 Hids).
  - rewrite <- (same_core_tab _ _ (same_ids_core _ _ Hids)). done.
  - destruct (ids_lookup s2 s4 _ _ Hids Ht2) as (t4 & Ht4 & E). exists t4. split; [done|].
    apply (f_equal state) in E. unfold ident in E. simpl in E. by case_decide.
  - intros t p y Ht Hp Hy. destruct (core_lookup s s1 _ _ Hcore1 Ht) as (t1' & Ht1' & _ & Hpar).
    assert (∃ y2, thr s2 !! p = Some y2 ∧ child_exit y2 = child_exit y) as (y2 & Hy2 & E).
    { destruct (core_lookup s s1 _ _ Hcore1 Hy) as (y1 & Hy1 & E & _). unfold s2. simpl.
      destruct (decide (p = TP s1)) as [->|]; [rewrite lookup_insert_eq; simplify_eq; by eexists|].
      rewrite lookup_insert_ne by auto. by exists y1. }
    rewrite <- E. unfold qset. rewrite decide_False by done. apply (Hempty p y2); [|done]. simpl. congruence.
Qed.

(** ** Spawn *)

(** No thread waits on [c]. *)
Definition unused s (c : nat) : Prop := ∀ p x, thr s !! p = Some x → loc x ≠ Some (Cond c).

Lemma unused_nil s q c : agree s q → unused s c → q (Cond c) = [].
Proof.
  intros Hag Hu. destruct (q (Cond c)) as [|x l] eqn:Hq; [done|]. exfalso.
  assert (x ∈ q (Cond c)) as (t & Ht & Hl)%Hag by (rewrite Hq; by left). by apply (Hu x t).
Qed.

Lemma condition_init_ok s q c :
  inv s q → unused s c → ∃ s', condition_init c s = (Ret tt, s') ∧ inv s' q ∧ thr s' = thr s ∧ same_rest s s'.
Proof.
  intros Hinv Hu. unfold condition_init, tlclear.
  destruct (put_tl_run s (Cond c) (TList None None)) as (s' & -> & Hthr & Hr & Htl). exists s'. split_and!; try done.
  assert (q (Cond c) = []) as Hq by (apply (unused_nil s); [apply Hinv|done]).
  assert (pointwise_relation tlref eq (qset q (Cond c) []) q) as Hqs by (intros r; unfold qset; case_decide; congruence).
  rewrite <- Hqs. destruct Hr as [_ _ Htp _ _]. split.
  - apply (put_tl_lists s s' q (Cond c) (TList None None) []); [apply Hinv|done|done|by split|apply NoDup_nil_2|].
    intros r' x _ Hx. by apply not_elem_of_nil in Hx.
  - intros r x. rewrite (Hqs r). unfold member. rewrite Hthr. by apply (inv_agree s q Hinv).
  - intros p t. rewrite Hthr, Htp. apply Hinv.
  - rewrite Hthr, Htp. apply Hinv.
  - rewrite (Hqs Ready), Htp. apply (inv_idle s q Hinv).
Qed.

Lemma free_tid_ok s tid :
  tab_ok s → free_tid (take (Z.to_nat NTHR) (thrtab s)) = Some tid → thrtab s !! tid = Some None ∧ (0 < tid)%nat.
Proof.
  intros Ht. rewrite take_ge by (rewrite (tb_len s Ht); lia). unfold free_tid.
  destruct (findi _ _) as [i|] eqn:Hf; [|done]. intros [= <-]. split; [|lia].
  apply findi_Some in Hf as [(x & Hx & Hb) _]. destruct x; [done|].
  destruct (thrtab s) as [|o l]; [simpl in Hx; by rewrite lookup_nil in Hx|exact Hx].
Qed.

Lemma free_tid_none s :
  tab_ok s → free_tid (take (Z.to_nat NTHR) (thrtab s)) = None →
  ∀ i o, (0 < i)%nat → thrtab s !! i = Some o → o ≠ None.
Proof.
  intros Ht. rewrite take_ge by (rewrite (tb_len s Ht); lia). unfold free_tid.
  destruct (findi _ _) as [i|] eqn:Hf; [done|]. intros _ [|i] o Hi Ho ->; [lia|].
  rewrite findi_None in Hf. specialize (Hf i None). destruct (thrtab s); [by rewrite lookup_nil in Ho|]. by specialize (Hf Ho).
Qed.

Lemma lists_tab s q tab : lists s q → lists (with_tab s tab) q.
Proof. intros [H1 H2 H3]. split; [|done|done]. intros r. specialize (H1 r). by destruct r. Qed.

Lemma inv_tab s q tab : inv s q → inv (with_tab s tab) q.
Proof. intros []. split; try done. by apply lists_tab. Qed.

(** A new thread in the table and at the end of the ready list. *)
Lemma inv_new s s' q p x :
  inv s q → thr s !! p = None → state x = READY → same_threads (with_thr s (<[p := x]> (thr s))) s' →
  lists s' (qset q Ready (q Ready ++ [p])) → agree s' (qset q Ready (q Ready ++ [p])) →
  inv s' (qset q Ready (q Ready ++ [p])).
Proof.
  intros Hinv Hp Hx Hsame Hls Hag. pose proof Hsame as [[_ _ Htp _ _] _]. simpl in Htp. split; try done.
  - intros y ty Hy. destruct (same_threads_back _ s' y ty Hsame Hy) as (t & Ht & E). rewrite Htp.
    change (state (with_next ty None) = SELF ↔ y = TP s). rewrite E. simpl in *. destruct (decide (y = p)) as [->|Hne].
    + rewrite lookup_insert_eq in Ht. simplify_eq. rewrite Hx. split; [done|]. intros ->. destruct (inv_tp s q Hinv). congruence.
    + rewrite lookup_insert_ne in Ht by auto. by apply (inv_self s q Hinv).
  - rewrite Htp. destruct (inv_tp s q Hinv) as [t Ht].
    destruct (same_threads_lookup _ s' (TP s) t Hsame) as (t' & Ht' & _); [|by exists t']. simpl.
    rewrite lookup_insert_ne by congruence. done.
  - rewrite Htp. unfold qset. rewrite decide_True by done. pose proof (inv_idle s q Hinv) as Hi.
    rewrite elem_of_cons, elem_of_app in *. tauto.
Qed.

Lemma held_new s h p x :
  held s h → thr s !! p = None → lock_list x = None → held (with_thr s (<[p := x]> (thr s))) h.
Proof.
  intros [H1 H2 H3 H4] Hp Hx.
  assert (h p = []) as Hn.
  { destruct (h p) as [|l r] eqn:E; [done|]. destruct (H4 p l) as (y & Hy & _); [rewrite E; by left|congruence]. }
  split; try done; simpl.
  - intros y ty. destruct (decide (y = p)) as [->|]; [rewrite lookup_insert_eq; intros [= <-]; by rewrite Hn, Hx|].
    rewrite lookup_insert_ne by auto. apply H1.
  - intros y l Hin. destruct (decide (y = p)) as [->|]; [rewrite Hn in Hin; by apply not_elem_of_nil in Hin|].
    rewrite lookup_insert_ne by auto. by apply (H4 y l).
Qed.

Lemma tab_new s p x tid :
  tab_ok s → thr s !! p = None → thrtab s !! tid = Some None → (0 < tid)%nat → id x = Z.of_nat tid →
  (∀ pp, parent x = Some pp → is_Some (thr s !! pp)) →
  tab_ok (with_tab (with_thr s (<[p := x]> (thr s))) (<[tid := Some p]> (thrtab s))).
Proof.
  intros [H1 H2 H3 H4 H5] Hp Htid Hpos Hid Hpar. split; simpl.
  - by rewrite length_insert.
  - intros y ty. destruct (decide (y = p)) as [->|].
    + rewrite lookup_insert_eq. intros [= <-]. split; [lia|]. rewrite Hid, Nat2Z.id, list_lookup_insert_eq; [done|].
      by eapply lookup_lt_Some.
    + rewrite lookup_insert_ne by auto. intros [Hge Hy]%H2. split; [done|].
      rewrite list_lookup_insert_ne; [done|]. intros E. rewrite <- E in Hy. congruence.
  - intros i y. destruct (decide (i = tid)) as [->|].
    + rewrite list_lookup_insert_eq by (by eapply lookup_lt_Some). intros [= <-]. exists x. by rewrite lookup_insert_eq.
    + rewrite list_lookup_insert_ne by auto. intros (ty & Hty & Hi)%H3. exists ty. rewrite lookup_insert_ne by congruence. done.
  - intros y ty pp. destruct (decide (pp = p)) as [->|]; [by rewrite lookup_insert_eq|].
    rewrite (lookup_insert_ne _ p pp) by auto. destruct (decide (y = p)) as [->|].
    + rewrite lookup_insert_eq. intros [= <-]. apply Hpar.
    + rewrite lookup_insert_ne by auto. apply H4.
  - intros y ty. destruct (decide (y = p)) as [->|]; [rewrite lookup_insert_eq; intros [= <-]; lia|].
    rewrite lookup_insert_ne by auto. apply H5.
Qed.

Lemma thread_spawn_ok s q h p c nm :
  inv s q → held s h → counted (locks s) → tab_ok s → thr s !! p = None → unused s c →
  (thread_spawn p c nm s = (Ret (- EMTHR), s) ∧ ∀ i o, (0 < i)%nat → thrtab s !! i = Some o → o ≠ None) ∨
  ∃ s' tid, thread_spawn p c nm s = (Ret (Z.of_nat tid), s') ∧ thrtab s !! tid = Some None ∧ (0 < tid)%nat ∧
    thrtab s' !! tid = Some (Some p) ∧ inv s' (qset q Ready (q Ready ++ [p])) ∧ held s' h ∧ counted (locks s') ∧
    tab_ok s' ∧ TP s' = TP s.
Proof.
  intros Hinv Hh Hcnt Htab Hp Hu. unfold thread_spawn, create_thread. rewrite bind_bind. kgets.
  destruct (free_tid _) as [tid|] eqn:Hft.
  2:{ left. split; [done|]. by apply free_tid_none. }
  right. destruct (free_tid_ok s tid Htab Hft) as [Htid Hpos]. rewrite bind_bind. kgets. rewrite bind_bind. kmodify.
  set (x := Thread _ _ _ _ _ _ _ _ _). rewrite bind_bind. kmodify. kret.
  pose proof (tab_new s p x tid Htab Hp Htid Hpos eq_refl) as Htab1. pose proof (held_new s h p x Hh Hp eq_refl) as Hh1.
  assert (agree_but s q p) as Hag.
  { split; [|intros r y _; apply (inv_agree s q Hinv)]. intros r (t & Ht & _)%(inv_agree s q Hinv). congruence. }
  simpl thrtab.
  set (s1 := with_tab (with_thr s (<[p := x]> (thr s))) (<[tid := Some p]> (thrtab s))) in *.
  assert (thr s1 !! p = Some x) as Hp1 by apply lookup_insert_eq.
  unfold set_thread_state. krun (upd_thr_run s1 p (λ y, with_state y READY) x Hp1).
  destruct (upd_but s q p x (inv_lists s q Hinv) Hag) as [Hls0 Hag0].
  apply lists_tab with (tab := <[tid := Some p]> (thrtab s)) in Hls0. change (agree_but s1 q p) in Hag0.
  destruct (upd_but s1 q p (with_state x READY) Hls0 Hag0) as [Hls2 Hag2].
  pose proof (same_tab_upd s1 p x (with_state x READY) Hp1 eq_refl eq_refl) as Htab2.
  assert (held (with_thr s1 (<[p := with_state x READY]> (thr s1))) h) as Hh2.
  { destruct (held_new s h p (with_state x READY) Hh Hp eq_refl) as [? ? ? ?]. unfold s1. simpl. by rewrite insert_insert_eq. }
  set (s2 := with_thr s1 (<[p := with_state x READY]> (thr s1))) in *.
  assert (thr s2 !! p = Some (with_state x READY)) as Hp2 by apply lookup_insert_eq.
  destruct (enqueue_ok s2 q Ready p _ Hls2 Hag2 Hp2 eq_refl) as (s3 & Hins & Hls3 & Hag3 & Hsame). krun Hins.
  destruct (same_threads_lookup s2 s3 p _ Hsame Hp2) as (x3 & Hp3 & E3). krun (get_thr_run s3 p x3 Hp3).
  assert (s2 = with_thr (with_tab s (<[tid := Some p]> (thrtab s))) (<[p := with_state x READY]> (thr s))) as Es2
    by (unfold s2, s1; simpl; by rewrite insert_insert_eq).
  assert (inv s3 (qset q Ready (q Ready ++ [p]))) as Hinv3.
  { apply (inv_new (with_tab s (<[tid := Some p]> (thrtab s))) s3 q p (with_state x READY)); try done; [by apply inv_tab|].
    simpl. by rewrite <- Es2. }
  assert (child_exit x3 = c) as Ec by exact (f_equal child_exit E3).
  assert (id x3 = Z.of_nat tid) as Ei by exact (f_equal id E3).
  assert (unused s3 c) as Hu3.
  { intros y ty Hy. destruct (same_threads_back s2 s3 y ty Hsame Hy) as (t & Ht & E).
    rewrite <- (loc_next ty None), E, loc_next. rewrite Es2 in Ht. simpl in Ht. destruct (decide (y = p)) as [->|].
    - rewrite lookup_insert_eq in Ht. by simplify_eq.
    - rewrite lookup_insert_ne in Ht by auto. by apply (Hu y). }
  rewrite Ec, Ei. destruct (condition_init_ok s3 _ c Hinv3 Hu3) as (s4 & Hini & Hinv4 & Hthr4 & Hr4). krun Hini.
  assert (same_threads s2 s4) as Hs24 by (etrans; [exact Hsame|by apply same_threads_thr]).
  pose proof (same_threads_ids _ _ Hs24) as Hids. exists s4, tid. split_and!; try done.
  - rewrite (si_tab _ _ Hids). simpl. apply list_lookup_insert_eq. by eapply lookup_lt_Some.
  - by apply (held_ids s2 s4).
  - by rewrite (si_locks _ _ Hids).
  - rewrite <- (same_core_tab _ _ (same_ids_core _ _ Hids)), <- Htab2. apply Htab1.
    intros pp [= <-]. apply Hinv.
  - destruct Hs24 as [[] _]. done.
Qed.

(** ** Join *)

(** A child the caller of [thread_join] may reap. *)
Definition matches (me : nat) (tid : Z) (x : thread) : Prop := parent x = Some me ∧ (tid = 0 ∨ id x = tid).

(** What a scan of the entries [tab] says when it started with [hm]. *)
Definition scanned s me tid (tab : list (option nat)) (hm : bool) (r : bool * option nat) : Prop :=
  match r with
  | (_, Some c) => Some c ∈ tab ∧ ∃ x, thr s !! c = Some x ∧ matches me tid x ∧ state x = EXITED
  | (hm', None) =>
      (hm' = true ↔ hm = true ∨ ∃ c x, Some c ∈ tab ∧ thr s !! c = Some x ∧ matches me tid x) ∧
      ∀ c x, Some c ∈ tab → thr s !! c = Some x → matches me tid x → state x ≠ EXITED
  end.

Lemma scanned_skip s me tid o tab hm r :
  (∀ c x, o = Some c → thr s !! c = Some x → ¬ matches me tid x) → scanned s me tid tab hm r → scanned s me tid (o :: tab) hm r.
Proof.
  intros Ho. destruct r as [b [c|]]; simpl.
  - intros [Hin Hx]. split; [by right|done].
  - intros [H1 H2]. split.
    + rewrite H1. apply or_iff_compat_l. split; intros (c & x & Hin & Hx & Hm); exists c, x; split_and!; try done; [by right|].
      apply elem_of_cons in Hin as [E|?]; [|done]. by destruct (Ho c x (eq_sym E) Hx).
    + intros c x [E|Hin]%elem_of_cons Hx Hm; [by destruct (Ho c x (eq_sym E) Hx)|by apply (H2 c)].
Qed.

Lemma scanned_live s me tid c x tab hm r :
  thr s !! c = Some x → matches me tid x → state x ≠ EXITED →
  scanned s me tid tab true r → scanned s me tid (Some c :: tab) hm r.
Proof.
  intros Hx Hm Hst. destruct r as [b [c'|]]; simpl.
  - intros [Hin ?]. split; [by right|done].
  - intros [H1 H2]. split.
    + rewrite H1. split; [|by left]. intros _. right. exists c, x. split; [by left|done].
    + intros c' x' [[= ->]|Hin]%elem_of_cons Hx' Hm'; [by simplify_eq|by apply (H2 c')].
Qed.

Lemma join_scan_spec s me tid tab : (∀ c, Some c ∈ tab → is_Some (thr s !! c)) → ∀ hm,
  ∃ r, join_scan me tid tab hm s = (Ret r, s) ∧ scanned s me tid tab hm r.
Proof.
  induction tab as [|[c|] tab IH]; intros Hall hm; cbn [join_scan].
  { eexists. split; [reflexivity|]. split; [|intros c x Hc; by apply not_elem_of_nil in Hc]. split; [by left|].
    intros [?|(c & x & Hc & _)]; [done|by apply not_elem_of_nil in Hc]. }
  all: assert (∀ c, Some c ∈ tab → is_Some (thr s !! c)) as Hall' by (intros c' ?; apply Hall; by right); specialize (IH Hall').
  - destruct (Hall c ltac:(by left)) as [x Hx]. krun (get_thr_run s c x Hx).
    destruct (IH hm) as (r & Hr & Hs). destruct (IH true) as (r' & Hr' & Hs').
    case_decide as Hp; [exists r; split; [done|]; apply scanned_skip; [|done]; intros ? ? [= <-] ? [? _]; congruence|].
    destruct (negb (tid =? 0) && negb (id x =? tid))%bool eqn:Hb.
    { exists r. split; [done|]. apply scanned_skip; [|done]. intros ? ? [= <-] ? [_ ?]. simplify_eq. lia. }
    assert (matches me tid x) as Hm by (split; [done|lia]). case_decide as Hst.
    + eexists. split; [reflexivity|]. split; [by left|by exists x].
    + exists r'. split; [done|]. by apply (scanned_live s me tid c x).
  - destruct (IH hm) as (r & Hr & Hs). exists r. split; [done|]. by apply scanned_skip.
Qed.

(** ** Reclaiming an exited child *)

(** Threads that keep what the scheduler and the locks look at; only threads
    that have exited may disappear. *)
Definition view (x : thread) := (list_next x, state x, wait_cond x, lock_list x).

Record shrinks (m m' : gmap nat thread) : Prop := {
  sk_in y x' : m' !! y = Some x' → ∃ x, m !! y = Some x ∧ view x' = view x;
  sk_out y x : m !! y = Some x → state x ≠ EXITED → is_Some (m' !! y)
}.

Lemma shrinks_live m m' y x :
  shrinks m m' → m !! y = Some x → state x ≠ EXITED → ∃ x', m' !! y = Some x' ∧ view x' = view x.
Proof.
  intros Hs Hy Hst. destruct (sk_out m m' Hs y x Hy Hst) as [x' Hx']. exists x'. split; [done|].
  destruct (sk_in m m' Hs y x' Hx') as (x2 & ? & ?). congruence.
Qed.

Lemma loc_live x r : loc x = Some r → state x ≠ EXITED.
Proof. unfold loc. by destruct (state x). Qed.

Lemma view_loc x x' : view x' = view x → loc x' = loc x.
Proof. unfold view, loc. intros [= _ -> -> _]. done. Qed.

Lemma inv_shrink s q m' : inv s q → shrinks (thr s) m' → inv (with_thr s m') q.
Proof.
  intros Hinv Hs. pose proof Hinv as [Hls Hag Hself Htp Hidle]. split; [| | | |done].
  - pose proof Hls as [H1 H2 H3]. split; [|done|done]. intros r. rewrite tl_of_with_thr. eapply tl_rep_frame; [apply H1|].
    intros x t Hin Ht. apply (Hag r) in Hin as (t2 & Ht2 & Hl). assert (t2 = t) as -> by congruence.
    destruct (shrinks_live _ _ x t Hs Ht (loc_live t r Hl)) as (t' & Ht' & E). exists t'. split; [done|].
    unfold view in E. congruence.
  - intros r x. rewrite (Hag r x). split; intros (t & Ht & Hl).
    + destruct (shrinks_live _ _ x t Hs Ht (loc_live t r Hl)) as (t' & Ht' & E). exists t'. split; [done|].
      by rewrite (view_loc t t').
    + destruct (sk_in _ _ Hs x t Ht) as (t' & Ht' & E). exists t'. split; [done|]. by rewrite <- (view_loc t' t).
  - intros p t Hp. destruct (sk_in _ _ Hs p t Hp) as (t' & Ht' & E). unfold view in E.
    assert (state t = state t') as -> by congruence. by apply Hself.
  - destruct Htp as [t Ht]. apply (sk_out _ _ Hs _ t Ht). by rewrite (proj2 (Hself _ _ Ht) eq_refl).
Qed.

Lemma held_shrink s h m' : held s h → shrinks (thr s) m' → held (with_thr s m') h.
Proof.
  intros [H1 H2 H3 H4] Hs. split; try done.
  - intros t x Hx. destruct (sk_in _ _ Hs t x Hx) as (y & Hy & E). unfold view in E.
    assert (lock_list x = lock_list y) as -> by congruence. by apply (H1 t y).
  - intros t l Hin. destruct (H4 t l Hin) as (x & Hx & Hst).
    destruct (shrinks_live _ _ t x Hs Hx Hst) as (x' & Hx' & E). exists x'. split; [done|]. unfold view in E. congruence.
Qed.

(** The effect of the loop of [thread_reclaim] on the threads. *)
Definition adopt (old : nat) (new : option nat) (x : thread) : thread :=
  if decide (parent x = Some old) then with_parent x new else x.

Lemma adopt_idem old new x : adopt old new (adopt old new x) = adopt old new x.
Proof. unfold adopt. repeat case_decide; simpl in *; try done. Qed.

Lemma reparent_ok old new tab : ∀ s,
  (∀ c, Some c ∈ tab → is_Some (thr s !! c)) →
  ∃ m', reparent old new tab s = (Ret tt, with_thr s m') ∧
    ∀ y, m' !! y = (if decide (Some y ∈ tab) then adopt old new else (λ x, x)) <$> thr s !! y.
Proof.
  induction tab as [|[c|] tab IH]; intros s Hall; cbn [reparent].
  - exists (thr s). split; [by destruct s|]. intros y. rewrite decide_False by apply not_elem_of_nil.
    by destruct (thr s !! y).
  - destruct (Hall c ltac:(by left)) as [x Hx]. krun (get_thr_run s c x Hx).
    assert ((if decide (parent x = Some old) then upd_thr c (λ y, with_parent y new) else mret tt) s
            = (Ret tt, with_thr s (<[c := adopt old new x]> (thr s)))) as Hstep.
    { unfold adopt. case_decide; [by apply (upd_thr_run s c (λ y, with_parent y new) x)|]. rewrite insert_id by done. by destruct s. }
    krun Hstep. set (s1 := with_thr s _).
    destruct (IH s1) as (m' & Hrun & Hm').
    { intros c' Hc'. simpl. destruct (decide (c' = c)) as [->|]; [by rewrite lookup_insert_eq|].
      rewrite lookup_insert_ne by auto. apply Hall. by right. }
    exists m'. split; [by rewrite Hrun|]. intros y. rewrite Hm'. simpl. destruct (decide (y = c)) as [->|Hne].
    + rewrite lookup_insert_eq, Hx, (decide_True (P := Some c ∈ Some c :: tab)) by (by left).
      destruct (decide (Some c ∈ tab)); cbn [fmap option_fmap option_map]; [by rewrite adopt_idem|done].
    + rewrite lookup_insert_ne by auto. f_equal.
      destruct (decide (Some y ∈ tab)); [rewrite decide_True by (by right)|rewrite decide_False]; try done.
      by intros [[= ->]|?]%elem_of_cons.
  - destruct (IH s) as (m' & Hrun & Hm'); [intros c Hc; apply Hall; by right|]. exists m'. split; [done|].
    intros y. rewrite Hm'. f_equal. destruct (decide (Some y ∈ tab)); [rewrite decide_True by (by right)|rewrite decide_False]; try done.
    by intros [?|?]%elem_of_cons.
Qed.

Lemma reclaim_tab s c x me m' :
  tab_ok s → thr s !! c = Some x → parent x = Some me → me ≠ c → 0 < id x →
  (∀ y ty, thr s !! y = Some ty → m' !! y = Some (adopt c (Some me) ty)) →
  (∀ y ty, m' !! y = Some ty → ∃ t0, thr s !! y = Some t0 ∧ ty = adopt c (Some me) t0) →
  tab_ok (with_thr (with_tab s (setb (id x) None (thrtab s))) (delete c m')).
Proof.
  intros Htab Hc Hpar Hne Hpos Hmap Hback. pose proof Htab as [H1 H2 H3 H4 H5].
  assert (∀ t, id (adopt c (Some me) t) = id t) as Hid by (intros t; unfold adopt; by case_decide).
  split; simpl.
  - by rewrite length_setb.
  - intros p ty [Hpc Hy]%lookup_delete_Some. destruct (Hback p ty Hy) as (t0 & Ht0 & ->). rewrite Hid.
    destruct (H2 p t0 Ht0) as [Hge Hsl]. split; [done|]. unfold setb. rewrite list_lookup_insert_ne; [done|].
    intros E. apply Hpc, (tab_inj s c p x t0 Htab Hc Ht0). lia.
  - intros i p. unfold setb. destruct (decide (i = Z.to_nat (id x))) as [->|].
    + destruct (H2 c x Hc) as [_ Hsl]. by rewrite list_lookup_insert_eq by (by eapply lookup_lt_Some).
    + rewrite list_lookup_insert_ne by auto. intros (t0 & Ht0 & Hi)%H3. exists (adopt c (Some me) t0).
      rewrite lookup_delete_ne; [by rewrite Hid, (Hmap p t0 Ht0)|]. intros <-. assert (t0 = x) as -> by congruence. lia.
  - intros p ty pp [Hpc Hy]%lookup_delete_Some. destruct (Hback p ty Hy) as (t0 & Ht0 & ->). unfold adopt.
    assert (is_Some (delete c m' !! me)) as Hme.
    { destruct (H4 c x me Hc Hpar) as [z Hz]. rewrite lookup_delete_ne by auto. by rewrite (Hmap me z Hz). }
    case_decide as E; simpl; [by intros [= <-]|]. intros Hpp. destruct (H4 p t0 pp Ht0 Hpp) as [z Hz].
    rewrite lookup_delete_ne by congruence. by rewrite (Hmap pp z Hz).
  - intros p ty [Hpc Hy]%lookup_delete_Some. destruct (Hback p ty Hy) as (t0 & Ht0 & ->). rewrite Hid. intros H0.
    pose proof (H5 p t0 Ht0 H0) as Hn. unfold adopt. by rewrite Hn.
Qed.

(** The entries from 1 on are the threads with a positive number. *)
Lemma tail_pos s c x : tab_ok s → Some c ∈ list.tail (thrtab s) → thr s !! c = Some x → 0 < id x.
Proof.
  intros Ht Hin Hx. destruct (thrtab s) as [|o tab] eqn:Et; [by apply not_elem_of_nil in Hin|].
  apply list_elem_of_lookup in Hin as [i Hi]. destruct (tb_out s Ht (S i) c) as (y & Hy & E); [by rewrite Et|].
  assert (y = x) as -> by congruence. lia.
Qed.

Lemma pos_tail s c x : tab_ok s → thr s !! c = Some x → 0 < id x → Some c ∈ list.tail (thrtab s).
Proof.
  intros Ht Hx Hpos. destruct (tb_in s Ht c x Hx) as [_ Hsl].
  destruct (thrtab s) as [|o tab] eqn:Et; [done|]. destruct (Z.to_nat (id x)) as [|n] eqn:En; [lia|].
  by apply (list_elem_of_lookup_2 _ n).
Qed.

(** What reclaiming the exited child [c] of [me] leaves. *)
Lemma thread_reclaim_ok s q h c x me :
  inv s q → held s h → tab_ok s → thr s !! c = Some x → state x = EXITED → parent x = Some me → me ≠ c → 0 < id x →
  ∃ s', thread_reclaim (id x) s = (Ret tt, s') ∧ inv s' q ∧ held s' h ∧ tab_ok s' ∧ locks s' = locks s ∧
    thr s' !! c = None ∧ thrtab s' !! Z.to_nat (id x) = Some None ∧
    (∀ p y, thr s !! p = Some y → p ≠ c → thr s' !! p = Some (adopt c (Some me) y)).
Proof.
  intros Hinv Hh Htab Hc Hst Hpar Hne Hpos. pose proof Htab as [H1 H2 H3 H4 H5].
  destruct (H2 c x Hc) as [_ Hslot]. pose proof (lookup_lt_Some _ _ _ Hslot) as Hlt. rewrite H1 in Hlt.
  unfold thread_reclaim. kgets. rewrite (proj2 (Z.ltb_lt 0 (id x)) Hpos).
  rewrite (proj2 (Z.ltb_lt (id x) NTHR)) by lia. cbn [andb negb].
  rewrite (getb_lookup _ _ _ _ Hslot). cbn [deref]. kret. krun (get_thr_run s c x Hc).
  rewrite decide_False by (intros E; by apply E). rewrite Hpar.
  destruct (reparent_ok c (Some me) (list.tail (thrtab s)) s) as (m' & Hrun & Hm').
  { intros p Hp. destruct (thrtab s) as [|o tab] eqn:Et; [by apply not_elem_of_nil in Hp|].
    apply list_elem_of_lookup in Hp as [i Hi]. destruct (H3 (S i) p Hi) as (y & Hy & _). by exists y. }
  krun Hrun. kmodify. simpl thrtab.
  assert (∀ y ty, thr s !! y = Some ty → m' !! y = Some (adopt c (Some me) ty)) as Hmap.
  { intros y ty Hy. rewrite Hm', Hy. case_decide as E; [done|]. simpl. f_equal. symmetry. unfold adopt. rewrite decide_False; [done|].
    intros Hp. destruct (H2 y ty Hy) as [Hge Hsl]. destruct (decide (id ty = 0)) as [H0|H0]; [by rewrite (H5 y ty Hy H0) in Hp|].
    apply E, (pos_tail s y ty Htab Hy). lia. }
  assert (∀ y ty, m' !! y = Some ty → ∃ t0, thr s !! y = Some t0 ∧ ty = adopt c (Some me) t0) as Hback.
  { intros y ty Hy. destruct (thr s !! y) as [t0|] eqn:E; [|by rewrite Hm', E in Hy].
    exists t0. split; [done|]. pose proof (Hmap y t0 E). congruence. }
  assert (∀ t, view (adopt c (Some me) t) = view t ∧ id (adopt c (Some me) t) = id t) as Hview
    by (intros t; unfold adopt; by case_decide).
  eexists. split; [reflexivity|]. simpl.
  assert (shrinks (thr s) (delete c m')) as Hsk.
  { split.
    - intros y ty [_ Hy]%lookup_delete_Some. destruct (Hback y ty Hy) as (t0 & Ht0 & ->). exists t0. split; [done|]. apply Hview.
    - intros y ty Hy Hs. exists (adopt c (Some me) ty). rewrite lookup_delete_ne by congruence. by apply Hmap. }
  split_and!.
  - exact (inv_tab (with_thr s (delete c m')) q (setb (id x) None (thrtab s)) (inv_shrink s q _ Hinv Hsk)).
  - apply (held_shrink s h _ Hh) in Hsk as []. by split.
  - exact (reclaim_tab s c x me m' Htab Hc Hpar Hne Hpos Hmap Hback).
  - done.
  - apply lookup_delete_eq.
  - unfold setb. apply list_lookup_insert_eq. by eapply lookup_lt_Some.
  - intros p y Hy Hpc. rewrite lookup_delete_ne by auto. by apply Hmap.
Qed.

(** The caller is at the end of its list of threads that wait for a child: a
    child matches the request, and none that does has exited. *)
Definition waits_for_child s tid s' (q q' : tlref → list nat) : Prop := ∃ t,
  thr s !! TP s = Some t ∧ (∃ c x, thr s !! c = Some x ∧ 0 < id x ∧ matches (TP s) tid x) ∧
  (∀ c x, thr s !! c = Some x → 0 < id x → matches (TP s) tid x → state x ≠ EXITED) ∧
  q' (Cond (child_exit t)) = q (Cond (child_exit t)) ++ [TP s].

Lemma tail_live s : tab_ok s → ∀ c, Some c ∈ list.tail (thrtab s) → is_Some (thr s !! c).
Proof.
  intros Ht c Hc. destruct (thrtab s) as [|o tab] eqn:Et; [by apply not_elem_of_nil in Hc|].
  apply list_elem_of_lookup in Hc as [i Hi]. destruct (tb_out s Ht (S i) c) as (y & Hy & _); [by rewrite Et|]. by exists y.
Qed.

(** One pass of [thread_join]. *)
Lemma thread_join_ok s q h tid :
  inv s q → held s h → counted (locks s) → tab_ok s → TP s ≠ idle_thread →
  ∃ r s' q', thread_join tid s = (Ret r, s') ∧ inv s' q' ∧ held s' h ∧ counted (locks s') ∧ tab_ok s' ∧
    match r with
    | Some i => if 0 <? i
        then ∃ c x, thr s !! c = Some x ∧ matches (TP s) tid x ∧ state x = EXITED ∧ id x = i ∧ thr s' !! c = None
        else i = - EINVAL ∧ s' = s ∧ ∀ c x, thr s !! c = Some x → 0 < id x → ¬ matches (TP s) tid x
    | None => waits_for_child s tid s' q q'
    end.
Proof.
  intros Hinv Hh Hcnt Htab Hni. destruct (inv_tp s q Hinv) as [t Ht]. unfold thread_join. kgets. kgets.
  destruct (join_scan_spec s (TP s) tid (list.tail (thrtab s))) with (hm := false) as (r & Hrun0 & Hscan); [by apply tail_live|].
  krun Hrun0. destruct r as [[|] [c|]].
  1, 3: destruct Hscan as (Hin & x & Hx & Hm & Hst); krun (get_thr_run s c x Hx);
    assert (0 < id x) as Hpos by (by eapply tail_pos);
    destruct (thread_reclaim_ok s q h c x (TP s) Hinv Hh Htab Hx Hst (proj1 Hm)) as (s' & Hrun & Hi & Hh' & Ht' & Hl & Hgone & _);
    [intros <-; assert (t = x) as -> by congruence; by rewrite (proj2 (inv_self s q Hinv _ _ Ht) eq_refl) in Hst|done|];
    krun Hrun; exists (Some (id x)), s', q; split_and!; try done; [by rewrite Hl|];
    rewrite (proj2 (Z.ltb_lt 0 (id x)) Hpos); by exists c, x.
  - destruct Hscan as [[Hex _] Hno]. krun (get_thr_run s (TP s) t Ht).
    destruct (condition_wait_ok s q (child_exit t) Hinv Hni) as (s' & x & l & Hrun & _ & _ & Hinv' & Hids). krun Hrun.
    eexists None, s', _. split_and!; [done|exact Hinv'|by apply (held_ids s s')|by rewrite (si_locks _ _ Hids)| |].
    + by rewrite <- (same_core_tab _ _ (same_ids_core _ _ Hids)).
    + destruct (Hex eq_refl) as [?|(c & y & Hin & Hy & Hm)]; [done|].
      exists t. split_and!; [done|exists c, y; split_and!; [done|by eapply tail_pos|done]| |].
      * intros c' y' Hy' Hpos Hm'. by apply (Hno c'); [apply (pos_tail s c' y')|..].
      * unfold qset. by rewrite decide_False, decide_True by done.
  - destruct Hscan as [[_ Hex] _]. exists (Some (- EINVAL)), s, q. change (0 <? - EINVAL) with false. cbn iota.
    split_and!; try done. intros c x Hx Hpos Hm.
    assert (false = true); [|done]. apply Hex. right. exists c, x. split_and!; try done.
    by apply (pos_tail s c x).
Qed.

(** ** Operations and reachable states *)

Inductive op :=
  | OYield | OWait (c : nat) | OBroadcast (c : nat) | OCondInit (c : nat)
  | OLockInit (l c : nat) | OAcquire (l : nat) | ORelease (l : nat)
  | OSpawn (p c : nat) (nm : Z) | OExit | OJoin (tid : Z).

Definition exec (o : op) : M ks unit :=
  match o with
  | OYield => thread_yield
  | OWait c => condition_wait c
  | OBroadcast c => condition_broadcast c
  | OCondInit c => condition_init c
  | OLockInit l c => lock_init l c
  | OAcquire l => _ ← lock_acquire l; mret tt
  | ORelease l => lock_release l
  | OSpawn p c nm => _ ← thread_spawn p c nm; mret tt
  | OExit => _ ← thread_exit; mret tt
  | OJoin tid => _ ← thread_join tid; mret tt
  end.

(** What the callers guarantee: the idle thread only yields, the main thread
    does not exit, structures that are initialised are not in use, a new thread
    structure is fresh memory, and a lock is not taken 2^31 times over. *)
Definition enabled s (o : op) : Prop :=
  match o with
  | OYield | OBroadcast _ => True
  | OCondInit c => unused s c
  | OWait _ | OJoin _ => TP s ≠ idle_thread
  | OLockInit l c => locks s !! l = None ∧ unused s c
  | OAcquire l => TP s ≠ idle_thread ∧ ∃ k, locks s !! l = Some k ∧ count k + 1 < 2 ^ 31
  | ORelease l => is_Some (locks s !! l)
  | OSpawn p c _ => thr s !! p = None ∧ unused s c
  | OExit => TP s ≠ idle_thread ∧ TP s ≠ main_thread
  end.

Inductive step : ks → ks → Prop :=
  | step_op s o s' : enabled s o → exec o s = (Ret tt, s') → step s s'.

Lemma sys_ids s s' q' : sys s → same_ids s s' → inv s' q' → sys s'.
Proof.
  intros (q & h & Hinv & Hh & Hc & Ht) Hids Hinv'. exists q', h.
  split_and!; [done|by apply (held_ids s s')|by rewrite (si_locks _ _ Hids)|].
  by rewrite <- (same_core_tab _ _ (same_ids_core _ _ Hids)).
Qed.

Lemma broadcast_sys s c : sys s → ∃ s', condition_broadcast c s = (Ret tt, s') ∧ sys s'.
Proof.
  intros Hsys. pose proof Hsys as (q & h & Hinv & _).
  destruct (broadcast_inv s q c Hinv) as (s' & q' & Hrun & Hi & _ & _ & _ & _ & Hids). exists s'. split; [done|]. by eapply sys_ids.
Qed.

Lemma cond_init_sys s c : sys s → unused s c → ∃ s', condition_init c s = (Ret tt, s') ∧ sys s' ∧ locks s' = locks s.
Proof.
  intros Hsys Hu. pose proof Hsys as (q & h & Hinv & _).
  destruct (condition_init_ok s q c Hinv Hu) as (s' & Hrun & Hinv' & Hthr & Hr). exists s'. split_and!; [done| |by apply Hr].
  apply (sys_ids s s' q); [done| |done]. by apply same_threads_ids, same_threads_thr.
Qed.

Lemma acquire_sys s l :
  sys s → TP s ≠ idle_thread → (∃ k, locks s !! l = Some k ∧ count k + 1 < 2 ^ 31) →
  ∃ b s', lock_acquire l s = (Ret b, s') ∧ sys s'.
Proof.
  intros (q & h & Hinv & Hh & Hc & Ht) Hni (k & Hk & Hlt). destruct (owner k) as [o|] eqn:Ho.
  - destruct (decide (o = TP s)) as [->|Hne].
    + destruct (lock_acquire_again s q h l k Hinv Hh Hc Hk Ho Hlt) as (s' & Hrun & Hi & Hh' & Htp & Hl & Hthr & Htab).
      exists true, s'. split; [done|]. exists q, h. split_and!; try done.
      * rewrite Hl. apply counted_upd; [done|]. intros Hn. simpl. pose proof (Hc l k Hk Hn). lia.
      * assert (same_tab s s') as <-; [|done]. split; [done|]. by rewrite Hthr.
    + destruct (lock_acquire_blocks s q h l k o Hinv Hh Hni Hk Ho Hne) as (s' & x & r & Hrun & _ & _ & Hi & Hids).
      exists false, s'. split; [done|]. eapply sys_ids; [by exists q, h|done|done].
  - destruct (lock_acquire_free s q h l k Hinv Hh Hk Ho) as (s' & t & Htp & Hrun & Hi & Hh' & _ & Hl & Htab & Hthr).
    exists true, s'. split; [done|]. eexists q, _. split_and!; [done|exact Hh'| |].
    + rewrite Hl. apply counted_upd; [done|]. simpl. lia.
    + assert (same_tab s s') as <-; [|done]. split; [done|]. rewrite Hthr.
      exact (proj2 (same_tab_upd s (TP s) t (with_held t (Some l)) Htp eq_refl eq_refl)).
Qed.

Lemma release_sys s l : sys s → is_Some (locks s !! l) → ∃ s', lock_release l s = (Ret tt, s') ∧ sys s'.
Proof.
  intros Hsys [k Hk]. pose proof Hsys as (q & h & Hinv & Hh & Hc & Ht).
  destruct (decide (owner k = Some (TP s))) as [Ho|Ho].
  - destruct (lock_release_held s q h l Hinv Hh Hc) as (s' & q' & h' & Hrun & Hi & Hh' & Hc' & _ & Hcore & _).
    { apply Hh. by exists k. }
    exists s'. split; [done|]. exists q', h'. split_and!; try done. by rewrite <- (same_core_tab _ _ Hcore).
  - exists s. split; [by apply (lock_release_other s l k)|done].
Qed.

Lemma lock_init_sys s l c :
  sys s → locks s !! l = None → unused s c → ∃ s', lock_init l c s = (Ret tt, s') ∧ sys s'.
Proof.
  intros Hsys Hl Hu. destruct (cond_init_sys s c Hsys Hu) as (s1 & Hrun & (q & h & Hinv & Hh & Hc & Ht) & Hl1).
  unfold lock_init. krun Hrun. eexists. split; [reflexivity|]. exists q, h. rewrite <- Hl1 in Hl.
  split_and!; [by apply inv_locks|by apply held_fresh|by apply counted_upd|by destruct Ht; split].
Qed.

(** Every enabled operation runs to its end and keeps the invariants. *)
Lemma exec_ok s o : sys s → enabled s o → ∃ s', exec o s = (Ret tt, s') ∧ sys s'.
Proof.
  intros Hsys Hen. pose proof Hsys as (q & h & Hinv & Hh & Hc & Ht). destruct o as [|c|c|c|l c|l|l|p c nm| |tid]; cbn [exec enabled] in *.
  - destruct (thread_yield_ok s q Hinv) as (s' & x & l & t & Hrun & _ & _ & Hi & Hids & _).
    exists s'. split; [done|]. by eapply sys_ids.
  - destruct (condition_wait_ok s q c Hinv Hen) as (s' & x & l & Hrun & _ & _ & Hi & Hids).
    exists s'. split; [done|]. by eapply sys_ids.
  - by apply broadcast_sys.
  - destruct (cond_init_sys s c Hsys Hen) as (s' & Hrun & ? & _). by exists s'.
  - destruct Hen. by apply lock_init_sys.
  - destruct Hen as [Hni Hk]. destruct (acquire_sys s l Hsys Hni Hk) as (b & s' & Hrun & ?). krun Hrun. by exists s'.
  - by apply release_sys.
  - destruct Hen as [Hp Hu]. destruct (thread_spawn_ok s q h p c nm Hinv Hh Hc Ht Hp Hu) as [[Hrun _]|(s' & tid & Hrun & _ & _ & _ & ? & ? & ? & ? & _)];
      krun Hrun; [by exists s|]. exists s'. split; [done|]. by eexists _, h.
  - destruct Hen. destruct (thread_exit_ok s q h Hinv Hh Hc Ht) as (s' & q' & h' & Hrun & ? & ? & _ & ? & ? & _); try done.
    krun Hrun. exists s'. split; [done|]. by exists q', h'.
  - destruct (thread_join_ok s q h tid Hinv Hh Hc Ht Hen) as (r & s' & q' & Hrun & ? & ? & ? & ? & _). krun Hrun.
    exists s'. split; [done|]. by exists q', h.
Qed.

Definition q0 : tlref → list nat := λ r, match r with Ready => [idle_thread] | Cond _ => [] end.

Lemma initial_thr cm ci p x :
  thr (initial cm ci) !! p = Some x →
  (p = main_thread ∧ x = Thread MAIN_TID SELF 0 None None None cm None None) ∨
  (p = idle_thread ∧ x = Thread IDLE_TID READY 0 (Some main_thread) None None ci None None).
Proof.
  simpl. intros [[<- <-]|[_ [<- <-]%lookup_singleton_Some]]%lookup_insert_Some; [by left|by right].
Qed.

Lemma initial_cond cm ci c : tl_of (initial cm ci) (Cond c) = TList None None.
Proof.
  simpl. destruct (decide (c = cm)) as [->|]; [by rewrite lookup_insert_eq|]. rewrite lookup_insert_ne by auto.
  destruct (decide (c = ci)) as [->|]; [by rewrite lookup_singleton_eq|]. by rewrite lookup_singleton_ne by auto.
Qed.

Lemma initial_inv cm ci : inv (initial cm ci) q0.
Proof.
  split.
  - split.
    + intros [|c]; [|rewrite initial_cond; by split].
      split; [done|done|]. intros [|i] x; [|by destruct i]. intros [= <-]. by eexists.
    + intros [|c]; [apply NoDup_singleton|apply NoDup_nil_2].
    + intros [|c] [|c'] x Hx Hx'; first [done | by apply not_elem_of_nil in Hx | by apply not_elem_of_nil in Hx'].
  - intros r x. split.
    + destruct r; [|intros Hx; by apply not_elem_of_nil in Hx]. intros ->%list_elem_of_singleton. by eexists.
    + intros (t & [[-> ->]|[-> ->]]%initial_thr & Hl); [done|]. injection Hl as <-. by left.
  - intros p t [[-> ->]|[-> ->]]%initial_thr; by split.
  - by eexists.
  - right. by left.
Qed.

Lemma initial_slot cm ci i p :
  thrtab (initial cm ci) !! i = Some (Some p) → (i = O ∧ p = main_thread) ∨ (i = Z.to_nat IDLE_TID ∧ p = idle_thread).
Proof.
  destruct i as [|i]; [intros [= <-]; by left|]. cbn [thrtab initial lookup list_lookup].
  intros [[H _]%lookup_replicate|[Hge H]]%lookup_app_Some; [done|]. rewrite length_replicate in Hge, H.
  apply list_lookup_singleton_Some in H as [Hi [= <-]]. right. split; [|done]. unfold IDLE_TID, NTHR in *. lia.
Qed.

Lemma initial_sys cm ci : sys (initial cm ci).
Proof.
  exists q0, (λ _, []). split_and!; [apply initial_inv| | |].
  - split.
    + by intros t x [[-> ->]|[-> ->]]%initial_thr.
    + intros _. apply NoDup_nil_2.
    + intros t l. split; [intros Hx; by apply not_elem_of_nil in Hx|intros (k & Hk & _); destruct (lookup_empty_Some l k Hk)].
    + intros t l Hx. by apply not_elem_of_nil in Hx.
  - intros l k Hk. by destruct (lookup_empty_Some (M:=gmap nat) l k Hk).
  - split.
    + done.
    + by intros p x [[-> ->]|[-> ->]]%initial_thr.
    + intros i p [[-> ->]|[-> ->]]%initial_slot; by eexists.
    + intros p x pp [[-> ->]|[-> ->]]%initial_thr; [done|]. intros [= <-]. by eexists.
    + by intros p x [[-> ->]|[-> ->]]%initial_thr.
Qed.

(** The states the system can be in; [cm] and [ci] are the conditions of the
    two static threads. *)
Definition reachable (cm ci : nat) s : Prop := rtc step (initial cm ci) s.

Lemma reachable_sys cm ci s : reachable cm ci s → sys s.
Proof.
  intros Hr. remember (initial cm ci) as s0 eqn:E. unfold reachable in Hr. rewrite <- E in Hr.
  assert (sys s0) as Hs0 by (rewrite E; apply initial_sys). clear E.
  induction Hr as [|s0 s1 s2 Hst _ IH]; [done|]. apply IH. destruct Hst as [s o s' Hen Hrun].
  destruct (exec_ok s o Hs0 Hen) as (s'' & Hrun' & Hsys). congruence.
Qed.

(** ** Critical sections *)

(** Lock [l] is held by the running thread, once. *)
Definition entered (k : ks) (l : nat) : Prop :=
  sys k ∧ ∃ x, locks k !! l = Some x ∧ owner x = Some (TP k) ∧ count x = 1.
(** It is free. *)
Definition unlocked (k : ks) (l : nat) : Prop := sys k ∧ ∃ x, locks k !! l = Some x ∧ owner x = None.

Lemma enter_ok k l : unlocked k l → ∃ k', lock_acquire l k = (Ret true, k') ∧ entered k' l ∧ TP k' = TP k.
Proof.
  intros [(q & h & Hinv & Hh & Hc & Ht) (x & Hx & Ho)].
  destruct (lock_acquire_free k q h l x Hinv Hh Hx Ho) as (k' & t & Htp & Hrun & Hi & Hh' & Htp' & Hl & Htab & Hthr).
  exists k'. split_and!; [done| |done]. split.
  - eexists q, _. split_and!; [done|exact Hh'| |].
    + rewrite Hl. apply counted_upd; [done|]. simpl. lia.
    + assert (same_tab k k') as <-; [|done]. split; [done|]. rewrite Hthr.
      exact (proj2 (same_tab_upd k (TP k) t (with_held t (Some l)) Htp eq_refl eq_refl)).
  - eexists. rewrite Hl, lookup_insert_eq, Htp'. done.
Qed.

Lemma yield_ok k : sys k → ∃ k', thread_yield k = (Ret tt, k') ∧ sys k' ∧ locks k' = locks k.
Proof.
  intros Hsys. pose proof Hsys as (q & h & Hinv & _).
  destruct (thread_yield_ok k q Hinv) as (k' & x & l & t & Hrun & _ & _ & Hi & Hids & _).
  exists k'. split_and!; [done|by eapply sys_ids|by rewrite (si_locks _ _ Hids)].
Qed.

Lemma entered_broadcast k l c : entered k l → ∃ k', condition_broadcast c k = (Ret tt, k') ∧ entered k' l ∧ TP k' = TP k.
Proof.
  intros [Hsys (x & Hx & Ho & Hc)]. destruct (broadcast_sys k c Hsys) as (k' & Hrun & Hsys').
  pose proof Hsys as (q & h & Hinv & _).
  destruct (condition_broadcast_ok k q c (inv_lists k q Hinv) (inv_agree k q Hinv)) as (k2 & q2 & Hrun2 & _ & _ & Hqu & _).
  assert (k2 = k') as -> by congruence. exists k'. split_and!; [done| |by apply (qu_tp _ _ Hqu)]. split; [done|].
  exists x. by rewrite (si_locks _ _ (qu_ids _ _ Hqu)), (qu_tp _ _ Hqu).
Qed.

Lemma leave_ok k l : entered k l → ∃ k', lock_release l k = (Ret tt, k') ∧ unlocked k' l ∧ TP k' = TP k.
Proof.
  intros [(q & h & Hinv & Hh & Hc & Ht) (x & Hx & Ho & H1)].
  assert (l ∈ h (TP k)) as Hin by (apply Hh; by exists x). apply list_elem_of_split in Hin as (pre & post & Hht).
  destruct (lock_release_last k q h l x pre post Hinv Hh Hx Ho H1 Hht)
    as (k' & q' & x' & Hrun & Hi & Hh' & Htp & Hcore & Hx' & Ho' & _ & _ & Hoth & _).
  exists k'. split_and!; try done. split; [|by exists x']. exists q', (hset h (TP k) (pre ++ post)).
  split_and!; try done; [by eapply counted_but|]. by rewrite <- (same_core_tab _ _ Hcore).
Qed.

(** ** Theorems *)

(** C2. Starting from the state [thrmgr_init] leaves, whatever sequence of
    thread, condition and lock operations has run, the next one runs to its
    end: no assertion fails, no NULL or stale pointer is followed, no list loop
    runs on, and afterwards the running thread is again the only one in state
    SELF, the linked lists again hold exactly the READY and WAITING threads,
    every thread's lock list is the locks it owns, and the thread table
    matches the threads. *)
Theorem scheduler_safe cm ci s o :
  reachable cm ci s → enabled s o → ∃ s', exec o s = (Ret tt, s') ∧ sys s'.
Proof. intros Hr. by apply exec_ok, (reachable_sys cm ci). Qed.

(** [n] yields in a row, each by the thread that is then running. *)
Definition yields (n : nat) : M ks unit := Nat.iter n (λ m : M ks unit, m;; thread_yield) (mret tt).

Lemma yields_rotate n : ∀ s q, inv s q → (n ≤ length (TP s :: q Ready))%nat →
  ∃ s' q', yields n s = (Ret tt, s') ∧ inv s' q' ∧ same_ids s s' ∧
    TP s' :: q' Ready = drop n (TP s :: q Ready) ++ take n (TP s :: q Ready).
Proof.
  induction n as [|n IH]; intros s q Hinv Hn.
  - exists s, q. split_and!; try done. by rewrite app_nil_r.
  - destruct (IH s q Hinv ltac:(lia)) as (s1 & q1 & Hrun1 & Hi1 & Hids1 & Hrot1). unfold yields. cbn [Nat.iter nat_rect].
    fold (yields n). krun Hrun1.
    destruct (thread_yield_ok s1 q1 Hi1) as (s2 & x & l & t & Hrun2 & Hq & Htp & Hi2 & Hids2 & _).
    exists s2, (qset q1 Ready l). split_and!; try done; [by etrans|]. unfold qset at 1. rewrite decide_True by done.
    rewrite Htp, <- Hq. set (L := TP s :: q Ready) in *.
    destruct (lookup_lt_is_Some_2 L n ltac:(lia)) as [y Hy]. rewrite (drop_S L y n Hy) in Hrot1.
    rewrite (take_S_r L n y Hy). simpl in Hrot1. injection Hrot1 as -> ->. by rewrite app_assoc.
Qed.

(** C30. The scheduler is round-robin: of the running thread and the ready list
    in order, the i-th one runs after i yields, whatever the threads are, and
    when each has yielded once the order is the original one. *)
Theorem yield_round_robin s q n x :
  inv s q → (TP s :: q Ready) !! n = Some x →
  (∃ s' q', yields n s = (Ret tt, s') ∧ inv s' q' ∧ TP s' = x) ∧
  (∃ s' q', yields (length (TP s :: q Ready)) s = (Ret tt, s') ∧ inv s' q' ∧ TP s' = TP s ∧ q' Ready = q Ready).
Proof.
  intros Hinv Hx. split.
  - pose proof (lookup_lt_Some _ _ _ Hx). destruct (yields_rotate n s q Hinv ltac:(lia)) as (s' & q' & ? & ? & _ & Hrot).
    exists s', q'. split_and!; try done. rewrite (drop_S _ x n Hx) in Hrot. simpl in Hrot. congruence.
  - destruct (yields_rotate _ s q Hinv (le_n _)) as (s' & q' & ? & ? & _ & Hrot).
    exists s', q'. rewrite drop_all, take_ge in Hrot by lia. simpl in Hrot. injection Hrot as -> ->. done.
Qed.

(** C28. [thread_exit]: from any reachable state, the exiting thread ends up
    EXITED and owning no lock, whatever it held and however often, its parent
    is no longer waiting for a child, and another thread runs. *)
Theorem thread_exit_gives_back cm ci s :
  reachable cm ci s → TP s ≠ idle_thread → TP s ≠ main_thread →
  ∃ s', thread_exit s = (Ret false, s') ∧ sys s' ∧ TP s' ≠ TP s ∧
    (∃ t, thr s' !! TP s = Some t ∧ state t = EXITED) ∧
    (∀ l k, locks s' !! l = Some k → owner k ≠ Some (TP s)) ∧
    (∀ t p y, thr s !! TP s = Some t → parent t = Some p → thr s !! p = Some y →
              ∀ z, ¬ member s' (Cond (child_exit y)) z).
Proof.
  intros Hr Hni Hnm. destruct (reachable_sys cm ci s Hr) as (q & h & Hinv & Hh & Hc & Ht).
  destruct (thread_exit_ok s q h Hinv Hh Hc Ht Hnm Hni) as (s' & q' & h' & Hrun & Hi' & Hh' & Hn & Hc' & Ht' & (t & Hx & Hst) & Hw).
  exists s'. split_and!; [done|by exists q', h'| |by exists t| |].
  - intros E. rewrite <- E in Hx. by rewrite (proj2 (inv_self s' q' Hi' _ _ Hx) eq_refl) in Hst.
  - intros l k Hk Ho. assert (l ∈ h' (TP s)) as Hin by (apply Hh'; by exists k). rewrite Hn in Hin. by apply not_elem_of_nil in Hin.
  - intros t0 p y Ht0 Hp Hy z Hz. apply (inv_agree s' q' Hi') in Hz. rewrite (Hw t0 p y Ht0 Hp Hy) in Hz.
    by apply not_elem_of_nil in Hz.
Qed.

(** C29. One pass of [thread_join] from any reachable state: it returns the
    number of an exited child that matches the request, whose structure and
    table slot are then free; or -EINVAL, changing nothing, exactly when no
    child matches; or it waits at the end of its own list of waiters, exactly
    when a child matches and no matching child has exited. *)
Theorem thread_join_correct cm ci s tid :
  reachable cm ci s → TP s ≠ idle_thread →
  ∃ r s', thread_join tid s = (Ret r, s') ∧ sys s' ∧
    match r with
    | Some i => if 0 <? i
        then ∃ c x, thr s !! c = Some x ∧ matches (TP s) tid x ∧ state x = EXITED ∧ id x = i ∧ thr s' !! c = None
        else i = - EINVAL ∧ s' = s ∧ ∀ c x, thr s !! c = Some x → 0 < id x → ¬ matches (TP s) tid x
    | None => ∃ q q', inv s q ∧ inv s' q' ∧ waits_for_child s tid s' q q'
    end.
Proof.
  intros Hr Hni. destruct (reachable_sys cm ci s Hr) as (q & h & Hinv & Hh & Hc & Ht).
  destruct (thread_join_ok s q h tid Hinv Hh Hc Ht Hni) as (r & s' & q' & Hrun & ? & ? & ? & ? & Hspec).
  exists r, s'. split_and!; [done|by exists q', h|]. destruct r; [done|by exists q, q'].
Qed.

(** C27. Locks exclude: from any reachable state, [lock_acquire] of a lock that
    another thread owns does not return, changes no lock and puts the caller at
    the end of the lock's wait list; [lock_release] of it changes nothing; and
    acquiring a free lock makes the caller its owner. *)
Theorem lock_excludes cm ci s l k :
  reachable cm ci s → TP s ≠ idle_thread → locks s !! l = Some k → owner k ≠ Some (TP s) →
  lock_release l s = (Ret tt, s) ∧
  match owner k with
  | Some _ => ∃ s' q q', lock_acquire l s = (Ret false, s') ∧ locks s' = locks s ∧ inv s q ∧ inv s' q' ∧
                         q' (Cond (cv k)) = q (Cond (cv k)) ++ [TP s] ∧ TP s' ≠ TP s
  | None => ∃ s', lock_acquire l s = (Ret true, s') ∧ sys s' ∧ TP s' = TP s ∧
                  (∃ k', locks s' !! l = Some k' ∧ owner k' = Some (TP s) ∧ count k' = 1) ∧
                  ∀ j, j ≠ l → locks s' !! j = locks s !! j
  end.
Proof.
  intros Hr Hni Hk Ho. destruct (reachable_sys cm ci s Hr) as (q & h & Hinv & Hh & Hc & Ht).
  split; [by apply (lock_release_other s l k)|]. destruct (owner k) as [o|] eqn:Eo.
  - destruct (lock_acquire_blocks s q h l k o Hinv Hh Hni Hk Eo ltac:(congruence)) as (s' & x & r & Hrun & Hq & Htp & Hi & Hids).
    eexists s', q, _. split_and!; [done|apply Hids|done|exact Hi| |].
    + unfold qset. by rewrite decide_False, decide_True by done.
    + rewrite Htp. intros ->. assert (TP s ∈ q Ready) as (t & Hs & Hl)%(inv_agree s q Hinv) by (rewrite Hq; by left).
      unfold loc in Hl. by rewrite (proj2 (inv_self s q Hinv _ _ Hs) eq_refl) in Hl.
  - destruct (lock_acquire_free s q h l k Hinv Hh Hk Eo) as (s' & t & Htp & Hrun & Hi & Hh' & Htp' & Hl & Htab & Hthr).
    exists s'. split_and!; try done.
    + eexists q, _. split_and!; [done|exact Hh'| |].
      * rewrite Hl. apply counted_upd; [done|]. simpl. lia.
      * assert (same_tab s s') as <-; [|done]. split; [done|]. rewrite Hthr.
        exact (proj2 (same_tab_upd s (TP s) t (with_held t (Some l)) Htp eq_refl eq_refl)).
    + rewrite Hl, lookup_insert_eq. by eexists.
    + intros j Hj. by rewrite Hl, lookup_insert_ne by auto.
Qed.

(** ** Concrete runs *)

Definition unusedb s (c : nat) : bool :=
  forallb (λ '(_, x), bool_decide (loc x ≠ Some (Cond c))) (map_to_list (thr s)).

Lemma unusedb_ok s c : unusedb s c = true → unused s c.
Proof.
  unfold unusedb. rewrite forallb_forall. intros H p x Hx.
  specialize (H (p, x)). simpl in H. apply bool_decide_eq_true in H; [done|].
  by apply list_elem_of_In, elem_of_map_to_list.
Qed.

(** The main thread takes a lock, starts a thread and yields to the idle
    thread, which yields to the new one. *)
Definition prog : list op := [OLockInit 0 10; OAcquire 0; OSpawn 2 2 7; OYield; OYield].
Definition run_ops (l : list op) s : ks := foldl (λ s o, (exec o s).2) s l.
Definition demo : ks := run_ops prog (initial 0 1).

Lemma reach_op s o : reachable 0 1 s → enabled s o → (exec o s).1 = Ret tt → reachable 0 1 (exec o s).2.
Proof.
  intros Hr Hen Hrun. eapply rtc_r; [exact Hr|]. apply (step_op s o); [done|]. rewrite <- Hrun. by destruct (exec o s).
Qed.

Lemma demo_reachable : reachable 0 1 demo.
Proof.
  unfold demo, run_ops, prog. cbn [foldl].
  apply reach_op; [|done|by vm_compute]. apply reach_op; [|done|by vm_compute].
  apply reach_op; [|split; [by vm_compute|by apply unusedb_ok; vm_compute]|by vm_compute].
  apply reach_op; [|split; [by vm_compute|]|by vm_compute].
  - apply reach_op; [apply rtc_refl|split; [by vm_compute|by apply unusedb_ok; vm_compute]|by vm_compute].
  - exists (Lock 10 None 0 None). split; [by vm_compute|done].
Qed.

Lemma scheduler_safe_witness : ∃ s', exec (OAcquire 0) demo = (Ret tt, s') ∧ sys s'.
Proof.
  apply (scheduler_safe 0 1 demo (OAcquire 0) demo_reachable).
  split; [by vm_compute|]. exists (Lock 10 (Some main_thread) 1 None). split; [by vm_compute|done].
Defined.

Lemma yield_round_robin_witness :
  (∃ s' q', yields 1 (initial 0 1) = (Ret tt, s') ∧ inv s' q' ∧ TP s' = idle_thread) ∧
  (∃ s' q', yields 2 (initial 0 1) = (Ret tt, s') ∧ inv s' q' ∧ TP s' = main_thread ∧ q' Ready = [idle_thread]).
Proof. exact (yield_round_robin (initial 0 1) q0 1 idle_thread (initial_inv 0 1) eq_refl). Defined.

Lemma thread_exit_gives_back_witness :
  ∃ s', thread_exit demo = (Ret false, s') ∧ sys s' ∧ TP s' ≠ TP demo ∧
    (∃ t, thr s' !! TP demo = Some t ∧ state t = EXITED) ∧
    (∀ l k, locks s' !! l = Some k → owner k ≠ Some (TP demo)) ∧
    (∀ t p y, thr demo !! TP demo = Some t → parent t = Some p → thr demo !! p = Some y →
              ∀ z, ¬ member s' (Cond (child_exit y)) z).
Proof. apply (thread_exit_gives_back 0 1 demo demo_reachable); by vm_compute. Defined.

(** Back in the main thread, before and after the new thread has exited. *)
Definition demo_main : ks := (exec OYield demo).2.
Definition demo_exited : ks := (exec OExit demo).2.

Lemma demo_main_reachable : reachable 0 1 demo_main ∧ reachable 0 1 demo_exited.
Proof. split; (apply reach_op; [apply demo_reachable|by vm_compute|by vm_compute]). Qed.

Lemma thread_join_correct_witness :
  (∃ s', thread_join 0 demo_main = (Ret None, s') ∧ ∃ q q', inv demo_main q ∧ inv s' q' ∧ waits_for_child demo_main 0 s' q q') ∧
  (∃ s', thread_join 0 demo_exited = (Ret (Some 1), s') ∧
     ∃ c x, thr demo_exited !! c = Some x ∧ matches (TP demo_exited) 0 x ∧ state x = EXITED ∧ id x = 1 ∧ thr s' !! c = None).
Proof.
  destruct demo_main_reachable as [H1 H2]. split.
  - destruct (thread_join_correct 0 1 demo_main 0 H1) as (r & s' & Hrun & _ & Hr); [by vm_compute|]. exists s'.
    assert ((thread_join 0 demo_main).1 = Ret None) as E by (by vm_compute). rewrite Hrun in E. injection E as ->. by split.
  - destruct (thread_join_correct 0 1 demo_exited 0 H2) as (r & s' & Hrun & _ & Hr); [by vm_compute|]. exists s'.
    assert ((thread_join 0 demo_exited).1 = Ret (Some 1)) as E by (by vm_compute). rewrite Hrun in E. injection E as ->. by split.
Defined.

Lemma lock_excludes_witness :
  lock_release 0 demo = (Ret tt, demo) ∧
  ∃ s' q q', lock_acquire 0 demo = (Ret false, s') ∧ locks s' = locks demo ∧ inv demo q ∧ inv s' q' ∧
             q' (Cond 10) = q (Cond 10) ++ [TP demo] ∧ TP s' ≠ TP demo.
Proof.
  apply (lock_excludes 0 1 demo 0 (Lock 10 (Some main_thread) 1 None) demo_reachable); by vm_compute.
Defined.

End SchedProofs.
