(* ===== verification/Ring.v ===== *)
(** * Ring buffers with free-running positions

    Pipes and the serial port keep a queue of bytes in an array of [N] bytes
    with a read and a write position that count modulo a power of two [W] that
    [N] divides.  The lemmas here are shared by both. *)

From S2P Require Import Prelude.

Module Ring.
Section ring.
Context (W N : Z) (HN : 0 < N) (HNW : N < W) (Hdiv : (N | W)).
Implicit Types (h t c : Z) (b : list Z).

Definition rcount h t : Z := (t - h) mod W.

(** The bytes from the read position on, oldest first. *)
Definition rcontents b h t : list Z :=
  (λ i : nat, getb 0 b ((h + Z.of_nat i) mod N)) <$> seq 0 (Z.to_nat (rcount h t)).

Lemma wrap_slot x : (x mod W) mod N = x mod N.
Proof. symmetry. apply Znumtheory.Zmod_div_mod; [done|lia|done]. Qed.

Lemma rcount_bound h t : 0 ≤ rcount h t < W.
Proof. apply Z.mod_pos_bound. lia. Qed.

Lemma length_rcontents b h t : length (rcontents b h t) = Z.to_nat (rcount h t).
Proof. unfold rcontents. by rewrite length_fmap, length_seq. Qed.

(** The write position is the read position plus the count. *)
Lemma tail_slot h t : t mod N = (h + rcount h t) mod N.
Proof. rewrite <- (wrap_slot (h + rcount h t)), <- (wrap_slot t). f_equal. unfold rcount. rewrite Zplus_mod_idemp_r. f_equal. lia. Qed.

Lemma rcount_pop h t : 0 < rcount h t → rcount ((h + 1) mod W) t = rcount h t - 1.
Proof.
  unfold rcount. intros H0. rewrite Zminus_mod_idemp_r.
  replace (t - (h + 1)) with (t - h - 1) by lia. rewrite <- Zminus_mod_idemp_l. apply Z.mod_small.
  pose proof (Z.mod_pos_bound (t - h) W). lia.
Qed.

Lemma rcount_push h t : rcount h t < N → rcount h ((t + 1) mod W) = rcount h t + 1.
Proof.
  unfold rcount. intros H0. rewrite Zminus_mod_idemp_l.
  replace (t + 1 - h) with (t - h + 1) by lia. rewrite <- Zplus_mod_idemp_l. apply Z.mod_small.
  pose proof (Z.mod_pos_bound (t - h) W). lia.
Qed.

Lemma rcontents_pop b h t :
  0 < rcount h t → rcontents b h t = getb 0 b (h mod N) :: rcontents b ((h + 1) mod W) t.
Proof.
  intros H0. unfold rcontents. rewrite rcount_pop by done.
  replace (Z.to_nat (rcount h t)) with (S (Z.to_nat (rcount h t - 1))) by lia.
  simpl. f_equal; [do 2 f_equal; lia|]. rewrite <- fmap_S_seq, <- list_fmap_compose.
  apply list_fmap_ext. intros _ i _. simpl. f_equal.
  rewrite <- (Zplus_mod_idemp_l ((h + 1) mod W)), wrap_slot, Zplus_mod_idemp_l. f_equal. lia.
Qed.

Lemma rcontents_push b h t c :
  rcount h t < N → length b = Z.to_nat N →
  rcontents (setb (t mod N) c b) h ((t + 1) mod W) = rcontents b h t ++ [c].
Proof.
  intros Hlt Hl. pose proof (rcount_bound h t) as Hb. unfold rcontents. rewrite rcount_push by done.
  replace (Z.to_nat (rcount h t + 1)) with (S (Z.to_nat (rcount h t))) by lia.
  rewrite seq_S, fmap_app. simpl. f_equal.
  - apply list_fmap_ext. intros k i [Hki Hk]%lookup_seq. rewrite (tail_slot h t).
    apply getb_setb_ne; [by apply Z.mod_pos_bound|by apply Z.mod_pos_bound|].
    assert (0 ≤ Z.of_nat i < rcount h t) as Hi by lia. intros E.
    assert ((h + rcount h t - (h + Z.of_nat i)) mod N = 0) as E0 by (rewrite Zminus_mod, E, Z.sub_diag; apply Z.mod_0_l; lia).
    rewrite Z.mod_small in E0 by lia. lia.
  - f_equal. rewrite Z2Nat.id, <- tail_slot by lia. apply getb_setb_same; [by apply Z.mod_pos_bound|].
    rewrite Hl. apply Z2Nat.inj_lt; [by apply Z.mod_pos_bound|lia|by apply Z.mod_pos_bound].
Qed.

End ring.
End Ring.
