(* ===== verification/Heap.v ===== *)
(** * Kernel heap (kernel/heap0.c)

    Memory is a function from byte addresses to bytes; headers are the 32-bit
    words below a block.  Pages come from a page allocator that the heap sees
    only through the interface [PageSource], which the physical page allocator
    implements.  Blocks are carved downwards from the end of a pool and are
    never reused. *)

From S2P Require Import Prelude Config PhysPages.

(** ** What the heap needs of a page allocator *)

Class PageSource (St : Type) := {
  ps_alloc : M St Z;
  (** the pages that are free *)
  ps_free : St → list Z → Prop;
  ps_ram s l p : ps_free s l → p ∈ l → PhysPages.in_ram p;
  ps_nodup s l : ps_free s l → NoDup l;
  ps_alloc_ok s l : ps_free s l →
    (∃ p l' s', ps_alloc s = (Ret p, s') ∧ ps_free s' l' ∧ l ≡ₚ p :: l') ∨
    (ps_alloc s = (Ret 0, s) ∧ l = [])
}.

Module Heap.

Definition HEAP_ALLOC_MAX : Z := 4000.
Definition HEAP_ALLOC_MAGIC : Z := 0xEAEAEAEA.
Definition HEAP_FREE_MAGIC : Z := 0x25252525.
(** sizeof(struct heap_alloc_header), sizeof(struct heap_free_record) *)
Definition HDRSZ : Z := 16.
Definition RECSZ : Z := 8.

(** ** Memory *)

Definition memory := Z → Z.

Definition load32 (m : memory) (a : Z) : Z :=
  m a + 2 ^ 8 * m (a + 1) + 2 ^ 16 * m (a + 2) + 2 ^ 24 * m (a + 3).
Definition store32 (m : memory) (a v : Z) : memory := λ x,
  if x =? a then v mod 2 ^ 8
  else if x =? a + 1 then v / 2 ^ 8 mod 2 ^ 8
  else if x =? a + 2 then v / 2 ^ 16 mod 2 ^ 8
  else if x =? a + 3 then v / 2 ^ 24 mod 2 ^ 8
  else m x.
Definition memset (m : memory) (a c n : Z) : memory := λ x,
  if ((a <=? x) && (x <? a + n))%bool then c else m x.

(** The fields of [struct heap_alloc_header] and [struct heap_free_record]. *)
Definition hdr_magic (m : memory) (hdr : Z) : Z := load32 m hdr.
Definition hdr_size (m : memory) (hdr : Z) : Z := load32 m (hdr + 4).
Definition hdr_size_inv (m : memory) (hdr : Z) : Z := load32 m (hdr + 8).
Definition not32 (x : Z) : Z := 2 ^ 32 - 1 - x.

Section heap.
Context `{PageSource St}.

Record heap := MkHeap { heap_low : Z; heap_end : Z; heap_initialized : bool; mem : memory; pgs : St }.

Definition with_mem (h : heap) (m : memory) : heap := MkHeap (heap_low h) (heap_end h) (heap_initialized h) m (pgs h).
Definition with_pool (h : heap) (lo hi : Z) : heap := MkHeap lo hi (heap_initialized h) (mem h) (pgs h).

Definition heap_init (start stop : Z) : M heap unit := λ h,
  let start := ROUND_UP start HEAP_ALIGN in
  let stop := ROUND_DOWN stop HEAP_ALIGN in
  if start <? stop then (Ret tt, MkHeap start stop true (mem h) (pgs h)) else (Panic, h).

Definition get_page : M heap Z := λ h,
  let (r, p) := ps_alloc (pgs h) in
  (r, MkHeap (heap_low h) (heap_end h) (heap_initialized h) (mem h) p).

(** A failed [alloc_phys_page] is not tested for: the header is then stored in
    page 0, where there is no memory, and the store faults. *)
Definition heap_malloc_actual (size ra : Z) : M heap Z :=
  if size =? 0 then mret 0
  else
    let size := u64 (size + HEAP_ALIGN - 1) / HEAP_ALIGN * HEAP_ALIGN in
    if HEAP_ALLOC_MAX <? size then panic
    else
      h ← gets (λ h, h);
      ptr ← (if u64 (size + HDRSZ) <=? u64 (heap_end h - heap_low h) then
               let ptr := heap_end h - size in
               modify (λ h, with_pool h (heap_low h) (ptr - HDRSZ));; mret ptr
             else if PAGE_SIZE - HDRSZ <? size then panic
             else
               newpage ← get_page;
               if newpage =? 0 then panic
               else
                 let ptr := newpage + PAGE_SIZE - size in
                 let leftover := PAGE_SIZE - size - HDRSZ in
                 (if u64 (heap_end h - heap_low h) <? leftover
                  then modify (λ h, with_pool h newpage (ptr - HDRSZ)) else mret tt);;
                 mret ptr);
      let hdr := ptr - HDRSZ in
      modify (λ h, with_mem h (store32 (mem h) hdr HEAP_ALLOC_MAGIC));;
      modify (λ h, with_mem h (store32 (mem h) (hdr + 4) size));;
      modify (λ h, with_mem h (store32 (mem h) (hdr + 8) (not32 size)));;
      modify (λ h, with_mem h (store32 (mem h) (hdr + 12) (u32 ra)));;
      modify (λ h, with_mem h (memset (mem h) ptr 0x33 size));;
      mret ptr.

(** No caller passes an [eltsz] of 0. *)
Definition heap_calloc_actual (nelts eltsz ra : Z) : M heap Z :=
  if negb (nelts <=? HEAP_ALLOC_MAX / eltsz) then panic
  else
    let size := u64 (nelts * eltsz) in
    ptr ← heap_malloc_actual size ra;
    modify (λ h, with_mem h (memset (mem h) ptr 0 size));;
    mret ptr.

Definition heap_free_actual (ptr ra : Z) : M heap unit :=
  let hdr := ptr - HDRSZ in
  let rec := ptr in
  m ← gets mem;
  if negb (hdr_size m hdr =? not32 (hdr_size_inv m hdr)) then panic
  else
    modify (λ h, with_mem h (memset (mem h) (rec + RECSZ) 0x11 (u64 (hdr_size (mem h) hdr - RECSZ))));;
    modify (λ h, with_mem h (store32 (mem h) rec HEAP_FREE_MAGIC));;
    modify (λ h, with_mem h (store32 (mem h) (rec + 4) (u32 ra)));;
    modify (λ h, with_mem h (store32 (mem h) (hdr + 8) 0)).

Definition kmalloc (size ra : Z) : M heap Z := heap_malloc_actual size ra.
Definition kcalloc (nelts eltsz ra : Z) : M heap Z := heap_calloc_actual nelts eltsz ra.
Definition kfree (ptr ra : Z) : M heap unit := heap_free_actual ptr ra.

(** ** Areas of memory *)

Definition apart (r s : Z * Z) : Prop := r.2 ≤ s.1 ∨ s.2 ≤ r.1.

Fixpoint all_apart (l : list (Z * Z)) : Prop :=
  match l with [] => True | r :: l => Forall (apart r) l ∧ all_apart l end.

(** The areas of the pool, of the blocks handed out (with their headers) and
    of the free pages. *)
Definition block_area (b : Z * Z) : Z * Z := (b.1 - HDRSZ, b.1 + b.2).
Definition page_area (p : Z) : Z * Z := (p, p + PAGE_SIZE).
Definition areas (h : heap) (bs : list (Z * Z)) (l : list Z) : list (Z * Z) :=
  (heap_low h, heap_end h) :: (block_area <$> bs) ++ (page_area <$> l).

Record heap_ok (h : heap) (bs : list (Z * Z)) (l : list Z) : Prop := {
  hk_pages : ps_free (pgs h) l;
  hk_pool : 0 < heap_low h ≤ heap_end h ∧ heap_end h < 2 ^ 63;
  hk_align : heap_end h mod HEAP_ALIGN = 0;
  hk_blocks : Forall (λ b, b.1 mod HEAP_ALIGN = 0 ∧ 0 < b.2 ≤ HEAP_ALLOC_MAX ∧ 0 < b.1 - HDRSZ ∧ b.1 < 2 ^ 63) bs;
  hk_apart : all_apart (areas h bs l)
}.

(** The header of a block that was not freed. *)
Definition live (m : memory) (b : Z * Z) : Prop :=
  hdr_magic m (b.1 - HDRSZ) = HEAP_ALLOC_MAGIC ∧
  hdr_size m (b.1 - HDRSZ) = b.2 ∧ hdr_size_inv m (b.1 - HDRSZ) = not32 b.2.

(** ** Lemmas on areas *)

Lemma apart_sym r s : apart r s → apart s r.
Proof. unfold apart. lia. Qed.

#[local] Hint Resolve apart_sym : core.

Lemma all_apart_perm l l' : l ≡ₚ l' → all_apart l → all_apart l'.
Proof.
  induction 1 as [|r l l' HP IH|r s l|l1 l2 l3 _ IH1 _ IH2]; simpl; [done| |  |auto].
  - intros [Hf Ha]. split; [by rewrite <- HP|auto].
  - intros [[Hrs Hr]%Forall_cons [Hs Ha]]. repeat split; try done. constructor; auto.
Qed.

Lemma all_apart_split a b c l : all_apart ((a, c) :: l) → a ≤ b ≤ c → all_apart ((a, b) :: (b, c) :: l).
Proof.
  intros [Hf Ha] Hb. repeat split; [constructor| |done]; [left; simpl; lia| |];
    (eapply Forall_impl; [exact Hf|]); intros r; unfold apart; simpl; lia.
Qed.

Lemma all_apart_drop2 r s t l : all_apart (r :: s :: t :: l) → all_apart (r :: s :: l).
Proof. intros [[H1 [H2 H3]%Forall_cons]%Forall_cons [[H4 H5]%Forall_cons [H6 H7]]]. repeat split; try done. by constructor. Qed.

Lemma all_apart_at l r s : all_apart (r :: l) → s ∈ l → apart r s.
Proof. intros [Hf _] Hs. rewrite Forall_forall in Hf. by apply Hf. Qed.

(** ** Lemmas on memory *)

Lemma store32_ne m a v x : x < a ∨ a + 4 ≤ x → store32 m a v x = m x.
Proof.
  intros Hx. unfold store32. destruct (Z.eqb_spec x a), (Z.eqb_spec x (a + 1)), (Z.eqb_spec x (a + 2)), (Z.eqb_spec x (a + 3));
    lia || done.
Qed.

Lemma load_store32 m a v : 0 ≤ v < 2 ^ 32 → load32 (store32 m a v) a = v.
Proof.
  intros Hv. unfold load32, store32. rewrite !Z.eqb_refl.
  rewrite (proj2 (Z.eqb_neq (a + 1) a)), (proj2 (Z.eqb_neq (a + 2) a)), (proj2 (Z.eqb_neq (a + 3) a)) by lia.
  rewrite (proj2 (Z.eqb_neq (a + 2) (a + 1))), (proj2 (Z.eqb_neq (a + 3) (a + 1))), (proj2 (Z.eqb_neq (a + 3) (a + 2))) by lia.
  change (2 ^ 8) with 256. change (2 ^ 16) with 65536. change (2 ^ 24) with 16777216. Z.div_mod_to_equations. lia.
Qed.

Lemma load_store32_ne m a b v : b + 4 ≤ a ∨ a + 4 ≤ b → load32 (store32 m a v) b = load32 m b.
Proof. intros H0. unfold load32. rewrite !store32_ne by lia. done. Qed.

Lemma memset_in m a c n x : a ≤ x < a + n → memset m a c n x = c.
Proof. intros Hx. unfold memset. by rewrite (proj2 (Z.leb_le _ _)), (proj2 (Z.ltb_lt _ _)) by lia. Qed.

Lemma memset_out m a c n x : x < a ∨ a + n ≤ x → memset m a c n x = m x.
Proof. intros Hx. unfold memset. destruct (_ && _)%bool eqn:E; [lia|done]. Qed.

Lemma load_memset_out m a c n b : b + 4 ≤ a ∨ a + n ≤ b → load32 (memset m a c n) b = load32 m b.
Proof. intros Hx. unfold load32. rewrite !memset_out by lia. done. Qed.

(** Headers are not affected by changes elsewhere. *)
Lemma live_frame m m' b :
  live m b → (∀ x, b.1 - HDRSZ ≤ x < b.1 → m' x = m x) → live m' b.
Proof.
  unfold live, hdr_magic, hdr_size, hdr_size_inv, load32, HDRSZ. intros Hl Hx. rewrite !Hx by lia. done.
Qed.

(** ** Allocation *)

(** The header and the fill pattern. *)
Definition fresh_block (m : memory) (ptr size ra : Z) : memory :=
  memset (store32 (store32 (store32 (store32 m (ptr - HDRSZ) HEAP_ALLOC_MAGIC) (ptr - HDRSZ + 4) size)
    (ptr - HDRSZ + 8) (not32 size)) (ptr - HDRSZ + 12) (u32 ra)) ptr 0x33 size.

Lemma fresh_block_live m ptr size ra : 0 < size ≤ HEAP_ALLOC_MAX → live (fresh_block m ptr size ra) (ptr, size).
Proof.
  unfold HEAP_ALLOC_MAX. intros Hs. unfold live, fresh_block, hdr_magic, hdr_size, hdr_size_inv, HDRSZ, not32. simpl.
  rewrite !load_memset_out by lia. split_and!.
  - rewrite !load_store32_ne by lia. by apply load_store32.
  - rewrite !load_store32_ne by lia. apply load_store32. lia.
  - rewrite load_store32_ne by lia. apply load_store32. lia.
Qed.

Lemma fresh_block_out m ptr size ra x :
  0 < size → x < ptr - HDRSZ ∨ ptr + size ≤ x → fresh_block m ptr size ra x = m x.
Proof. unfold HDRSZ. intros Hs Hx. unfold fresh_block, HDRSZ. rewrite memset_out, !store32_ne by lia. done. Qed.

Lemma fresh_block_in m ptr size ra x : ptr ≤ x < ptr + size → fresh_block m ptr size ra x = 0x33.
Proof. apply memset_in. Qed.

(** The size after rounding. *)
Definition padded (size : Z) : Z := ROUND_UP size HEAP_ALIGN.

Lemma padded_spec size : 0 < size ≤ HEAP_ALLOC_MAX →
  size ≤ padded size ≤ HEAP_ALLOC_MAX ∧ padded size mod HEAP_ALIGN = 0 ∧
  u64 (size + HEAP_ALIGN - 1) / HEAP_ALIGN * HEAP_ALIGN = padded size.
Proof.
  unfold HEAP_ALLOC_MAX, padded, HEAP_ALIGN, u64. intros Hs. pose proof (ROUND_UP_spec size 16 ltac:(lia)) as [Hb Hm]. set (r := ROUND_UP size 16) in *.
  rewrite (Z.mod_small (size + 16 - 1)) by lia. split_and!; try done; [lia|].
  clearbody r. Z.div_mod_to_equations. lia.
Qed.

(** A block of [n] bytes at the end of the area [(a, c)]. *)
Lemma carve a c n rs :
  all_apart ((a, c) :: rs) → a + HDRSZ + n ≤ c → 0 ≤ n →
  all_apart ((a, c - n - HDRSZ) :: block_area (c - n, n) :: rs).
Proof.
  unfold HDRSZ. intros Ha Hc Hn. unfold block_area, HDRSZ. simpl. replace (c - n + n) with c by lia.
  replace (c - n - 16) with (c - (n + 16)) by lia. apply all_apart_split; [done|lia].
Qed.

Lemma aligned_sub x n : x mod HEAP_ALIGN = 0 → n mod HEAP_ALIGN = 0 → (x - n) mod HEAP_ALIGN = 0 ∧ (x - n - HDRSZ) mod HEAP_ALIGN = 0.
Proof. unfold HEAP_ALIGN, HDRSZ. intros. split; Z.div_mod_to_equations; lia. Qed.

Lemma malloc_ok h bs l size ra :
  heap_ok h bs l → 0 < size ≤ HEAP_ALLOC_MAX →
  (∃ ptr h' l', heap_malloc_actual size ra h = (Ret ptr, h') ∧ mem h' = fresh_block (mem h) ptr (padded size) ra ∧
     heap_ok h' ((ptr, padded size) :: bs) l') ∨
  ((heap_malloc_actual size ra h).1 = Panic ∧ l = [] ∧ heap_end h - heap_low h < padded size + HDRSZ).
Proof.
  intros [Hpg Hpool Hal Hbs Hap] Hs. destruct (padded_spec size Hs) as (Hn & Hnm & Hr). set (n := padded size) in *.
  assert (HEAP_ALLOC_MAX = 4000) as Hmax by done. assert (HDRSZ = 16) as Hh by done. assert (PAGE_SIZE = 4096) as Hp by done.
  unfold heap_malloc_actual. rewrite (proj2 (Z.eqb_neq size 0)) by lia. rewrite Hr.
  rewrite (proj2 (Z.ltb_ge HEAP_ALLOC_MAX n)) by lia. kgets.
  assert (u64 (n + HDRSZ) = n + HDRSZ) as -> by (unfold u64; rewrite Z.mod_small; lia).
  assert (u64 (heap_end h - heap_low h) = heap_end h - heap_low h) as -> by (unfold u64; rewrite Z.mod_small; lia).
  destruct (Z.leb_spec (n + HDRSZ) (heap_end h - heap_low h)) as [Hfit|Hfit].
  - left. rewrite bind_bind. kmodify. kret. kmodify. kmodify. kmodify. kmodify. kmodify.
    eexists (heap_end h - n), _, l. split; [reflexivity|]. split; [done|]. destruct (aligned_sub (heap_end h) n Hal Hnm).
    split; simpl; [done|lia|done| |].
    + constructor; [simpl; lia|done].
    + apply (carve (heap_low h) (heap_end h) n); [done|lia|lia].
  - rewrite (proj2 (Z.ltb_ge (PAGE_SIZE - HDRSZ) n)) by lia. rewrite bind_bind.
    destruct (ps_alloc_ok (pgs h) l Hpg) as [(p & l' & s' & Halloc & Hpg' & HP)|[Halloc ->]].
    + left. assert (PhysPages.in_ram p) as [Hpa Hpr] by (apply (ps_ram (pgs h) l p Hpg); rewrite HP; by left).
      set (h1 := MkHeap (heap_low h) (heap_end h) (heap_initialized h) (mem h) s').
      assert (get_page h = (Ret p, h1)) as Hget by (unfold get_page; by rewrite Halloc).
      krun Hget. assert (RAM_START_PMA = 0x80000000 ∧ RAM_END_PMA = 0x80800000) as [Hr0 Hr1] by done.
      rewrite (proj2 (Z.eqb_neq p 0)) by lia. rewrite bind_bind.
      assert ((p + PAGE_SIZE) mod HEAP_ALIGN = 0) as Hpm.
      { unfold PAGE_SIZE, HEAP_ALIGN in *. Z.div_mod_to_equations. lia. }
      destruct (aligned_sub (p + PAGE_SIZE) n Hpm Hnm) as [Ha1 Ha2].
      assert (all_apart ((p, p + PAGE_SIZE - n - HDRSZ) :: block_area (p + PAGE_SIZE - n, n) ::
        (heap_low h, heap_end h) :: (block_area <$> bs) ++ (page_area <$> l'))) as Hap'.
      { apply (carve p (p + PAGE_SIZE) n); [|lia|lia]. eapply all_apart_perm; [|exact Hap]. unfold areas.
        rewrite HP. simpl.
        rewrite (Permutation_app_comm _ (page_area p :: _)). simpl. rewrite perm_swap. by rewrite Permutation_app_comm. }
      destruct (Z.ltb_spec (heap_end h - heap_low h) (PAGE_SIZE - n - HDRSZ)) as [Hsw|Hsw].
      * kmodify. kret. kmodify. kmodify. kmodify. kmodify. kmodify.
        eexists (p + PAGE_SIZE - n), _, l'. split; [reflexivity|]. split; [done|]. split; simpl; [done|lia|done| |].
        -- constructor; [simpl; lia|done].
        -- eapply all_apart_drop2; exact Hap'.
      * kret. kret. kmodify. kmodify. kmodify. kmodify. kmodify.
        eexists (p + PAGE_SIZE - n), _, l'. split; [reflexivity|]. split; [done|]. split; simpl; [done|lia|done| |].
        -- constructor; [simpl; lia|done].
        -- destruct Hap' as [_ Hap']. exact (all_apart_perm _ _ (perm_swap _ _ _) Hap').
    + right. split_and!; [|done|lia].
      assert (get_page h = (Ret 0, MkHeap (heap_low h) (heap_end h) (heap_initialized h) (mem h) (pgs h))) as Hget
        by (unfold get_page; by rewrite Halloc).
      krun Hget. done.
Qed.


(** Every block other than the new one is left as it is. *)
Lemma malloc_keeps h bs l ptr n h' ra b :
  heap_ok h' ((ptr, n) :: bs) l → 0 < n → mem h' = fresh_block (mem h) ptr n ra → b ∈ bs →
  ∀ x, b.1 - HDRSZ ≤ x < b.1 + b.2 → mem h' x = mem h x.
Proof.
  intros Hok Hn Hm Hb x Hx. rewrite Hm. apply fresh_block_out; [done|].
  assert (apart (block_area (ptr, n)) (block_area b)) as Ha.
  { apply (all_apart_at ((block_area <$> bs) ++ (page_area <$> l))).
    - by destruct (hk_apart _ _ _ Hok) as [_ Ha].
    - apply elem_of_app. left. by apply list_elem_of_fmap_2. }
  unfold apart, block_area in Ha. simpl in Ha. lia.
Qed.

(** C31. [kmalloc] of 1 to HEAP_ALLOC_MAX bytes: the block returned is 16-byte
    aligned, holds the request, is filled with 0x33 and has an intact header;
    it overlaps neither the pool nor a free page nor any block handed out
    before, and those blocks, headers included, keep their contents.  The
    kernel halts only when neither the pool nor the page allocator has room. *)
Theorem kmalloc_correct h bs l size ra :
  heap_ok h bs l → 0 < size ≤ HEAP_ALLOC_MAX →
  (∃ ptr n h' l', kmalloc size ra h = (Ret ptr, h') ∧ size ≤ n ∧ ptr mod HEAP_ALIGN = 0 ∧
     heap_ok h' ((ptr, n) :: bs) l' ∧ live (mem h') (ptr, n) ∧
     (∀ x, ptr ≤ x < ptr + n → mem h' x = 0x33) ∧
     (∀ b, b ∈ bs → ∀ x, b.1 - HDRSZ ≤ x < b.1 + b.2 → mem h' x = mem h x)) ∨
  ((kmalloc size ra h).1 = Panic ∧ l = [] ∧ heap_end h - heap_low h < padded size + HDRSZ).
Proof.
  intros Hok Hs. destruct (malloc_ok h bs l size ra Hok Hs) as [(ptr & h' & l' & Hrun & Hm & Hok')|Hno]; [left|by right].
  destruct (padded_spec size Hs) as (Hn & _ & _). exists ptr, (padded size), h', l'. split_and!; try done; [lia| | | |].
  - by destruct (Forall_inv (hk_blocks _ _ _ Hok')).
  - rewrite Hm. apply fresh_block_live. lia.
  - intros x Hx. rewrite Hm. by apply fresh_block_in.
  - intros b Hb. eapply malloc_keeps; [exact Hok'|lia|exact Hm|done].
Qed.

(** [kcalloc] returns a block whose first [nelts * eltsz] bytes are zero
    and whose header is intact. *)
Lemma kcalloc_zeroed h bs l nelts eltsz ra ptr h' :
  heap_ok h bs l → 0 < nelts → 0 < eltsz → kcalloc nelts eltsz ra h = (Ret ptr, h') →
  nelts * eltsz ≤ HEAP_ALLOC_MAX ∧ (∀ x, ptr ≤ x < ptr + nelts * eltsz → mem h' x = 0) ∧
  ∃ n l', nelts * eltsz ≤ n ∧ live (mem h') (ptr, n) ∧ heap_ok h' ((ptr, n) :: bs) l'.
Proof.
  intros Hok Hn He. unfold kcalloc, heap_calloc_actual. assert (HEAP_ALLOC_MAX = 4000) as Hmax by done.
  destruct (Z.leb_spec nelts (HEAP_ALLOC_MAX / eltsz)) as [Hle|]; [|done]. cbv iota zeta beta delta [negb].
  assert (nelts * eltsz ≤ HEAP_ALLOC_MAX) as Hsz by (rewrite Hmax in *; Z.div_mod_to_equations; nia).
  assert (u64 (nelts * eltsz) = nelts * eltsz) as -> by (unfold u64; rewrite Z.mod_small; nia).
  assert (0 < nelts * eltsz ≤ HEAP_ALLOC_MAX) as Hs by nia. destruct (padded_spec _ Hs) as (Hp & _ & _).
  destruct (malloc_ok h bs l _ ra Hok Hs) as [(p & h1 & l1 & Hrun & Hm & Hok1)|[Hpanic _]].
  - krun Hrun. kmodify. intros [= <- <-]. split; [done|]. split; [intros x Hx; simpl; by apply memset_in|].
    exists (padded (nelts * eltsz)), l1. split_and!; [lia| |by destruct Hok1; split].
    simpl. apply (live_frame (mem h1)); [rewrite Hm; apply fresh_block_live; lia|]. simpl. intros x Hx. by rewrite memset_out by lia.
  - unfold mbind, M_bind. destruct (heap_malloc_actual _ _ _) as [[] ?]; simpl in *; congruence.
Qed.

(** The memory after [kfree]. *)
Definition freed_block (m : memory) (ptr size ra : Z) : memory :=
  store32 (store32 (store32 (memset m (ptr + RECSZ) 0x11 (size - RECSZ)) ptr HEAP_FREE_MAGIC) (ptr + 4) (u32 ra)) (ptr - HDRSZ + 8) 0.

Lemma free_ok h ptr size ra :
  live (mem h) (ptr, size) → RECSZ ≤ size < 2 ^ 32 →
  heap_free_actual ptr ra h = (Ret tt, with_mem h (freed_block (mem h) ptr size ra)).
Proof.
  intros (Hmg & Hsz & Hinv) Hb. simpl in *. unfold heap_free_actual. kgets. rewrite Hsz, Hinv.
  assert (not32 (not32 size) = size) as -> by (unfold not32; lia). rewrite Z.eqb_refl. cbv iota zeta beta delta [negb].
  kmodify. kmodify. kmodify. simpl. rewrite Hsz. unfold modify. simpl. do 2 f_equal. unfold freed_block, RECSZ, u64 in *.
  rewrite Z.mod_small by lia. done.
Qed.

(** [kfree] of a block that was not freed returns, changes nothing but that
    block, and a second [kfree] of the same block halts the kernel: the header
    it left does not pass the integrity check. *)
Lemma kfree_once h bs l b ra ra' :
  heap_ok h bs l → b ∈ bs → live (mem h) b → RECSZ ≤ b.2 →
  ∃ h', kfree b.1 ra h = (Ret tt, h') ∧ heap_ok h' bs l ∧
    (∀ x, x < b.1 - HDRSZ ∨ b.1 + b.2 ≤ x → mem h' x = mem h x) ∧
    (kfree b.1 ra' h').1 = Panic.
Proof.
  intros Hok Hb Hlive Hsz. destruct b as [ptr size]. simpl in *.
  pose proof (hk_blocks _ _ _ Hok) as Hbs. rewrite Forall_forall in Hbs. specialize (Hbs _ Hb) as (_ & Hs & _). simpl in Hs.
  assert (HEAP_ALLOC_MAX = 4000) as Hmax by done. unfold kfree. rewrite (free_ok h ptr size ra Hlive) by lia.
  eexists. split; [reflexivity|]. split_and!; [by destruct Hok; split| |].
  - intros x Hx. simpl. unfold freed_block, RECSZ, HDRSZ in *. rewrite !store32_ne, memset_out by lia. done.
  - unfold heap_free_actual. kgets. cbn [mem with_mem]. destruct Hlive as (_ & Hz & _). simpl in Hz.
    assert (hdr_size (freed_block (mem h) ptr size ra) (ptr - HDRSZ) = size) as ->.
    { rewrite <- Hz at 2. unfold hdr_size, freed_block, RECSZ, HDRSZ in *. rewrite !load_store32_ne, load_memset_out by lia. done. }
    assert (hdr_size_inv (freed_block (mem h) ptr size ra) (ptr - HDRSZ) = 0) as ->.
    { unfold hdr_size_inv, freed_block. apply load_store32. lia. }
    unfold not32. rewrite (proj2 (Z.eqb_neq _ _)) by lia. done.
Qed.

(** Requests above HEAP_ALLOC_MAX halt the kernel. *)
Lemma kcalloc_too_large h size ra : HEAP_ALLOC_MAX < size → kcalloc 1 size ra h = (Panic, h).
Proof. unfold HEAP_ALLOC_MAX. intros Hs. unfold kcalloc, heap_calloc_actual, HEAP_ALLOC_MAX. rewrite Z.div_small by lia. done. Qed.

End heap.

(** ** The physical page allocator is a page source *)

#[export] Program Instance phys_pages : PageSource PhysPages.mm := {
  ps_alloc := PhysPages.alloc_phys_page;
  ps_free s l := ∃ c, PhysPages.free_list_is s c ∧ l = PhysPages.pages c
}.
Next Obligation. intros s l p (c & [_ Hc] & ->) Hp. pose proof (PhysPages.ck_ram c Hc) as Hr. rewrite Forall_forall in Hr. by apply Hr. Qed.
Next Obligation. intros s l (c & [_ Hc] & ->). apply Hc. Qed.
Next Obligation.
  intros s l (c & Hc & ->).
  destruct (PhysPages.alloc_phys_pages_ok s c 1 Hc) as [(pp & n & l1 & l2 & s' & Hrun & -> & Hle & _ & Hl' & _)|[Hrun Hno]]; [lia|left|right].
  - destruct Hc as [_ Hok]. destruct (PhysPages.rest_ok l1 pp n l2 1 ltac:(lia) Hok) as [Hperm _].
    exists pp, (PhysPages.pages (l1 ++ PhysPages.rest pp n 1 ++ l2)), s'. split_and!; [done|by eexists|].
    rewrite Hperm. unfold PhysPages.block, PhysPages.page. simpl. by rewrite Z.add_0_r.
  - split; [done|]. destruct Hc as [_ [Hp _ _]]. destruct c as [|a c]; [done|].
    apply Forall_cons in Hp as [Hp _]. specialize (Hno a ltac:(by left)). lia.
Qed.

(** ** Concrete runs: a pool of 256 bytes and four free pages *)

Definition demo_heap : heap (St := PhysPages.mm) := MkHeap 0x80200000 0x80200100 true (λ _, 0) PhysPages.demo.
Definition demo_pages : list Z := [0x80300000; 0x80301000; 0x80302000; 0x80303000].

Lemma demo_heap_ok : heap_ok demo_heap [] demo_pages.
Proof.
  split.
  - exists [(0x80300000, 4)]. split; [apply PhysPages.demo_ok|reflexivity].
  - cbn [heap_low heap_end demo_heap]. lia.
  - reflexivity.
  - constructor.
  - unfold areas, demo_pages, page_area, block_area. cbn [fmap list_fmap app heap_low heap_end demo_heap all_apart fst snd].
    repeat split; repeat (apply Forall_cons_2); try apply Forall_nil_2; unfold apart, HDRSZ; change PAGE_SIZE with 4096; simpl; lia.
Qed.

Lemma kmalloc_correct_witness :
  (∃ ptr n h' l', kmalloc 300 0 demo_heap = (Ret ptr, h') ∧ 300 ≤ n ∧ ptr mod HEAP_ALIGN = 0 ∧
     heap_ok h' [(ptr, n)] l' ∧ live (mem h') (ptr, n) ∧ (∀ x, ptr ≤ x < ptr + n → mem h' x = 0x33) ∧
     (∀ b, b ∈ [] → ∀ x, b.1 - HDRSZ ≤ x < b.1 + b.2 → mem h' x = mem demo_heap x)) ∨
  ((kmalloc 300 0 demo_heap).1 = Panic ∧ demo_pages = [] ∧ heap_end demo_heap - heap_low demo_heap < padded 300 + HDRSZ).
Proof. apply (kmalloc_correct demo_heap [] demo_pages 300 0 demo_heap_ok). unfold HEAP_ALLOC_MAX. lia. Defined.

Lemma kcalloc_zeroed_witness :
  2 * 20 ≤ HEAP_ALLOC_MAX ∧ (∀ x, 0x802000D0 ≤ x < 0x802000D0 + 2 * 20 → mem (kcalloc 2 20 0 demo_heap).2 x = 0) ∧
  ∃ n l', 2 * 20 ≤ n ∧ live (mem (kcalloc 2 20 0 demo_heap).2) (0x802000D0, n) ∧
          heap_ok (kcalloc 2 20 0 demo_heap).2 [(0x802000D0, n)] l'.
Proof. apply (kcalloc_zeroed demo_heap [] demo_pages 2 20 0); [apply demo_heap_ok|lia|lia|reflexivity]. Defined.

Definition demo_heap1 : heap (St := PhysPages.mm) := (kmalloc 24 0 demo_heap).2.

Lemma demo_heap1_ok : heap_ok demo_heap1 [(0x802000E0, 32)] demo_pages.
Proof.
  split.
  - exists [(0x80300000, 4)]. split; [apply PhysPages.demo_ok|reflexivity].
  - change (heap_low demo_heap1) with 0x80200000. change (heap_end demo_heap1) with 0x802000D0. lia.
  - reflexivity.
  - apply Forall_singleton. unfold HEAP_ALLOC_MAX, HDRSZ. simpl. split; [reflexivity|lia].
  - unfold areas, demo_pages, page_area, block_area. change (heap_low demo_heap1) with 0x80200000. change (heap_end demo_heap1) with 0x802000D0.
    cbn [fmap list_fmap app all_apart fst snd].
    repeat split; repeat (apply Forall_cons_2); try apply Forall_nil_2; unfold apart, HDRSZ; change PAGE_SIZE with 4096; simpl; lia.
Qed.

Lemma kfree_once_witness :
  ∃ h', kfree 0x802000E0 7 demo_heap1 = (Ret tt, h') ∧ heap_ok h' [(0x802000E0, 32)] demo_pages ∧
    (∀ x, x < 0x802000E0 - HDRSZ ∨ 0x802000E0 + 32 ≤ x → mem h' x = mem demo_heap1 x) ∧
    (kfree 0x802000E0 8 h').1 = Panic.
Proof.
  apply (kfree_once demo_heap1 [(0x802000E0, 32)] demo_pages (0x802000E0, 32) 7 8 demo_heap1_ok).
  - by left.
  - vm_compute. done.
  - vm_compute. congruence.
Defined.

End Heap.
