(* ===== verification/Boot.v ===== *)
(** * Initialization of memory ([memory_init] of kernel/memory.c)

    The addresses of the kernel image are symbols of the linker script: a record.
    The three static page tables are pages inside the image.  [memory_init] fills
    them, switches paging on, and gives what is left of RAM to the heap and to
    the page allocator. *)

From S2P Require Import Prelude Config PhysPages PageTable PageTableProofs Heap.
Import PhysPages PageTable PageTableProofs.

Module Boot.

#[local] Existing Instance Heap.phys_pages.

Definition HEAP_INIT_MIN : Z := 256.
Definition RISCV_SSTATUS_SUM : Z := Z.shiftl 1 18.

Record image := Image {
  kimg_start : Z; kimg_end : Z; text_start : Z; text_end : Z; rodata_start : Z; rodata_end : Z; data_start : Z;
  main_pt2 : Z; main_pt1_0x80000 : Z; main_pt0_0x80000 : Z }.

Record boot := MkBoot { bheap : Heap.heap (St := mm); sstatus : Z; memory_initialized : bool }.
Implicit Types (img : image) (b : boot) (m : gmap Z Z).

Definition on_heap {A} (f : M (Heap.heap (St := mm)) A) : M boot A := λ b,
  let (r, h) := f (bheap b) in (r, MkBoot h (sstatus b) (memory_initialized b)).
Definition with_pgs (h : Heap.heap (St := mm)) (s : mm) : Heap.heap (St := mm) :=
  Heap.MkHeap (Heap.heap_low h) (Heap.heap_end h) (Heap.heap_initialized h) (Heap.mem h) s.
Definition on_mm {A} (f : M mm A) : M boot A := on_heap (λ h, let (r, s) := f (Heap.pgs h) in (r, with_pgs h s)).

Definition no_fuel {A} : M mm A := λ s, (NoFuel, s).

(** [for (pp = start; pp < stop; pp += step) body] *)
Fixpoint for_range (fuel : nat) (pp stop step : Z) (body : Z → M mm unit) : M mm unit :=
  match fuel with
  | O => no_fuel
  | S fuel => if pp <? stop then body pp;; for_range fuel (pp + step) stop step body else mret tt
  end.
(** One more than the number of passes. *)
Definition range_fuel (start stop step : Z) : nat := S (Z.to_nat ((stop - start + step - 1) / step)).
Definition map_loop (pt : Z) (vpn : Z → Z) (start stop step fl : Z) : M mm unit :=
  for_range (range_fuel start stop step) start stop step (λ pp, set_pte (slot pt (vpn pp)) (leaf_pte pp fl)).

Definition heap_bounds img : Z * Z :=
  let heap_start := kimg_end img in
  let heap_end := ROUND_UP heap_start PAGE_SIZE in
  (heap_start, if heap_end - heap_start <? HEAP_INIT_MIN
               then heap_end + ROUND_UP (HEAP_INIT_MIN - (heap_end - heap_start)) PAGE_SIZE else heap_end).

(** The static tables and the switch to them. *)
Definition init_tables img : M mm unit :=
  map_loop (main_pt2 img) VPN2 0 RAM_START_PMA GIGA_SIZE (Z.lor PTE_R (Z.lor PTE_W PTE_G));;
  set_pte (slot (main_pt2 img) (VPN2 RAM_START_PMA)) (ptab_pte (main_pt1_0x80000 img) PTE_G);;
  set_pte (slot (main_pt1_0x80000 img) (VPN1 RAM_START_PMA)) (ptab_pte (main_pt0_0x80000 img) PTE_G);;
  map_loop (main_pt0_0x80000 img) VPN0 (text_start img) (text_end img) PAGE_SIZE (Z.lor PTE_R (Z.lor PTE_X PTE_G));;
  map_loop (main_pt0_0x80000 img) VPN0 (rodata_start img) (rodata_end img) PAGE_SIZE (Z.lor PTE_R PTE_G);;
  map_loop (main_pt0_0x80000 img) VPN0 (data_start img) (RAM_START_PMA + MEGA_SIZE) PAGE_SIZE (Z.lor PTE_R (Z.lor PTE_W PTE_G));;
  map_loop (main_pt1_0x80000 img) VPN1 (RAM_START_PMA + MEGA_SIZE) RAM_END_PMA MEGA_SIZE (Z.lor PTE_R (Z.lor PTE_W PTE_G));;
  modify (λ s, Mm (words s) (free_chunk_list s) (satp s) (ptab_to_mtag (main_pt2 img) 0));;
  modify (λ s, Mm (words s) (free_chunk_list s) (main_mtag s) (main_mtag s)).

(** The free chunk [heap_end, RAM_END). *)
Definition init_chunks (heap_end : Z) : M mm unit :=
  if heap_end <? RAM_END_PMA then
    modify (λ s, with_words s (wr (words s) heap_end NULL));;
    modify (λ s, with_words s (wr (words s) (heap_end + 8) ((RAM_END_PMA - heap_end) / PAGE_SIZE)));;
    modify (λ s, with_list s heap_end)
  else modify (λ s, with_list s NULL).

Definition memory_init img : M boot unit :=
  if negb (RAM_START_PMA =? kimg_start img) then panic
  else if MEGA_SIZE <? kimg_end img - kimg_start img then panic
  else
    on_mm (init_tables img);;
    let '(heap_start, heap_end) := heap_bounds img in
    if RAM_END_PMA <? heap_end then panic
    else
      on_heap (Heap.heap_init heap_start heap_end);;
      on_mm (init_chunks heap_end);;
      modify (λ b, MkBoot (bheap b) (Z.lor (sstatus b) RISCV_SSTATUS_SUM) true).


(** ** The image *)

(** What kernel.ld guarantees: the image starts at RAM with the text, each
    segment starts on the page after the one before, and the tables are three
    page-aligned pages of the image. *)
Definition tables img : list Z := [main_pt2 img; main_pt1_0x80000 img; main_pt0_0x80000 img].

Record image_ok img : Prop := {
  io_start : kimg_start img = RAM_START_PMA;
  io_text : text_start img = RAM_START_PMA ∧ RAM_START_PMA ≤ text_end img;
  io_rodata : rodata_start img = ROUND_UP (text_end img) PAGE_SIZE ∧ rodata_start img ≤ rodata_end img;
  io_data : data_start img = ROUND_UP (rodata_end img) PAGE_SIZE ∧ data_start img ≤ kimg_end img;
  io_fits : kimg_end img ≤ RAM_START_PMA + MEGA_SIZE;
  io_tables : Forall (λ t, t mod PAGE_SIZE = 0 ∧ data_start img ≤ t ∧ t + PAGE_SIZE ≤ kimg_end img) (tables img);
  io_distinct : NoDup (tables img)
}.

(** The flags of the direct map. *)
Definition kernel_flags img (va : Z) : Z :=
  Z.lor (Z.lor PTE_A (Z.lor PTE_D PTE_V))
    (Z.lor PTE_G
      (if va <? RAM_START_PMA then Z.lor PTE_R PTE_W
       else if va <? rodata_start img then Z.lor PTE_R PTE_X
       else if va <? data_start img then PTE_R else Z.lor PTE_R PTE_W)).

(** ** The loops *)

Definition in_range (start stop step pp : Z) : Prop := ∃ k, 0 ≤ k ∧ pp = start + k * step ∧ pp < stop.

Lemma in_range_next start stop step pp :
  start < stop → in_range start stop step pp ↔ pp = start ∨ in_range (start + step) stop step pp.
Proof.
  intros Hlt. split.
  - intros (k & Hk & -> & Hs). destruct (decide (k = 0)) as [->|Hne]; [left; lia|]. right. exists (k - 1). lia.
  - intros [->|(k & Hk & -> & Hs)]; [exists 0; lia|]. exists (k + 1). lia.
Qed.

(** A loop that stores the entries of a table leaves the other words alone. *)
Lemma for_range_entries pt vpn stop step (e : Z → pte) fuel start s :
  0 < step → (range_fuel start stop step ≤ fuel)%nat →
  (∀ p q, in_range start stop step p → in_range start stop step q → vpn p = vpn q → p = q) →
  ∃ m, for_range fuel start stop step (λ pp, set_pte (slot pt (vpn pp)) (e pp)) s = (Ret tt, with_words s m) ∧
    (∀ x, (∀ pp, in_range start stop step pp → x ≠ slot pt (vpn pp)) → rd m x = rd (words s) x) ∧
    (∀ pp, in_range start stop step pp → rd m (slot pt (vpn pp)) = word_of_pte (e pp)).
Proof.
  intros Hstep. revert start s. induction fuel as [|fuel IH]; intros start s Hfuel Hinj; [unfold range_fuel in Hfuel; lia|].
  cbn [for_range]. destruct (Z.ltb_spec start stop) as [Hlt|Hge].
  - set (s1 := with_words s (wr (words s) (slot pt (vpn start)) (word_of_pte (e start)))).
    assert (set_pte (slot pt (vpn start)) (e start) s = (Ret tt, s1)) as Hset by done. krun Hset.
    destruct (IH (start + step) s1) as (m & Hrun & Hout & Hin).
    { unfold range_fuel in *. assert ((stop - start + step - 1) / step = (stop - (start + step) + step - 1) / step + 1) as E.
      { rewrite <- Z.div_add by lia. f_equal. lia. }
      rewrite E in Hfuel. pose proof (Z.div_pos (stop - (start + step) + step - 1) step). lia. }
    { intros p q Hp Hq. apply Hinj; apply in_range_next; auto. }
    exists m. split; [by rewrite Hrun|]. split.
    + intros x Hx. rewrite Hout by (intros pp Hpp; apply Hx, in_range_next; auto).
      unfold s1. cbn [words with_words]. apply rd_wr_ne. apply not_eq_sym, Hx, in_range_next; auto.
    + intros pp Hpp. destruct (decide (pp = start)) as [->|Hne].
      * rewrite Hout; [unfold s1; cbn [words with_words]; apply rd_wr_eq|].
        intros q Hq E. assert (start = q) as <-; [apply Hinj; [done|apply in_range_next; auto|unfold slot in E; lia]|].
        destruct Hq as (k & ? & ? & ?). nia.
      * apply Hin. apply in_range_next in Hpp as [|]; done.
  - exists (words s). split_and!; [by destruct s|done|]. intros pp (k & ? & ? & ?). nia.
Qed.

(** The same by index: the loop covers entries [lo] to [hi] - 1 of its table. *)
Lemma map_loop_table pt vpn base lo hi start stop step fl s :
  page_addr pt → 0 < step → start = base + lo * step → 0 ≤ lo → hi ≤ 512 →
  (∀ j, lo ≤ j → base + j * step < stop ↔ j < hi) → (∀ j, lo ≤ j < hi → vpn (base + j * step) = j) →
  ∃ m, map_loop pt vpn start stop step fl s = (Ret tt, with_words s m) ∧
    ∀ u i, page_addr u → is_index i →
      rd m (slot u i) = if decide (u = pt ∧ lo ≤ i < hi) then word_of_pte (leaf_pte (base + i * step) fl)
                        else rd (words s) (slot u i).
Proof.
  intros Hpt Hstep Hstart Hlo Hhi Hstop Hvpn.
  assert (∀ pp, in_range start stop step pp → ∃ j, lo ≤ j < hi ∧ pp = base + j * step) as Hidx.
  { intros pp (k & Hk & -> & Hs). exists (lo + k). split; [|lia]. split; [lia|]. apply Hstop; lia. }
  destruct (for_range_entries pt vpn stop step (λ pp, leaf_pte pp fl) (range_fuel start stop step) start s)
    as (m & Hrun & Hout & Hin); [done|done| |].
  { intros p q (j & Hj & ->)%Hidx (k & Hk & ->)%Hidx. rewrite !Hvpn by done. by intros ->. }
  exists m. split; [exact Hrun|]. intros u i Hu Hi. destruct (decide (u = pt ∧ lo ≤ i < hi)) as [[-> Hr]|Hn].
  - rewrite <- (Hvpn i Hr) at 1. apply Hin. exists (i - lo). split_and!; [lia|lia|]. apply Hstop; lia.
  - apply Hout. intros pp (j & Hj & ->)%Hidx E. rewrite Hvpn in E by done.
    apply slot_inj in E as [-> ->]; [|done..|unfold is_index; lia]. apply Hn. done.
Qed.

Lemma set_pte_table pt i e s :
  page_addr pt → is_index i →
  ∃ m, set_pte (slot pt i) e s = (Ret tt, with_words s m) ∧
    ∀ u j, page_addr u → is_index j →
      rd m (slot u j) = if decide (u = pt ∧ j = i) then word_of_pte e else rd (words s) (slot u j).
Proof.
  intros Hpt Hi. eexists. split; [reflexivity|]. intros u j Hu Hj. case_decide as D.
  - destruct D as [-> ->]. apply rd_wr_eq.
  - apply rd_wr_ne. intros E. apply slot_inj in E as [-> ->]; try done. by apply D.
Qed.

(** ** The tables *)

Definition pt2_entry img (i : Z) : pte :=
  if i <? 2 then leaf_pte (i * GIGA_SIZE) (Z.lor PTE_R (Z.lor PTE_W PTE_G))
  else if i =? 2 then ptab_pte (main_pt1_0x80000 img) PTE_G else null_pte.
Definition pt1_entry img (i : Z) : pte :=
  if i =? 0 then ptab_pte (main_pt0_0x80000 img) PTE_G
  else if i <? RAM_SIZE / MEGA_SIZE then leaf_pte (RAM_START_PMA + i * MEGA_SIZE) (Z.lor PTE_R (Z.lor PTE_W PTE_G))
  else null_pte.
Definition pt0_entry img (i : Z) : pte :=
  let pp := RAM_START_PMA + i * PAGE_SIZE in
  leaf_pte pp (if pp <? rodata_start img then Z.lor PTE_R (Z.lor PTE_X PTE_G)
               else if pp <? data_start img then Z.lor PTE_R PTE_G else Z.lor PTE_R (Z.lor PTE_W PTE_G)).

Lemma image_tables img : image_ok img →
  page_addr (main_pt2 img) ∧ page_addr (main_pt1_0x80000 img) ∧ page_addr (main_pt0_0x80000 img).
Proof.
  intros Hok. pose proof (io_tables _ Hok) as Ht. pose proof (io_fits _ Hok) as Hf.
  pose proof (io_data _ Hok) as [Hd _]. pose proof (io_rodata _ Hok) as [Hr Hr']. pose proof (io_text _ Hok) as [_ Hx].
  assert (RAM_START_PMA ≤ data_start img) as Hlo.
  { rewrite Hd. rewrite Hr in Hr'. unfold ROUND_UP in *. change PAGE_SIZE with 4096 in *. Z.div_mod_to_equations; lia. }
  unfold RAM_START_PMA in *. change MEGA_SIZE with 2097152 in Hf. change PAGE_SIZE with 4096 in *.
  repeat (apply Forall_cons in Ht as [? Ht]). unfold page_addr. change PAGE_SIZE with 4096. lia.
Qed.

(** The page numbers where the segments start. *)
Definition pages_at img (r d : Z) : Prop :=
  rodata_start img = RAM_START_PMA + r * PAGE_SIZE ∧ data_start img = RAM_START_PMA + d * PAGE_SIZE ∧ 0 ≤ r ≤ d ∧ d ≤ 512 ∧
  (∀ j, 0 ≤ j → RAM_START_PMA + j * PAGE_SIZE < text_end img ↔ j < r) ∧
  (∀ j, r ≤ j → RAM_START_PMA + j * PAGE_SIZE < rodata_end img ↔ j < d).

Lemma image_pages img : image_ok img → ∃ r d, pages_at img r d.
Proof.
  intros Hok. pose proof (io_fits _ Hok) as Hf. pose proof (io_data _ Hok) as [Hd Hd'].
  pose proof (io_rodata _ Hok) as [Hr Hr']. pose proof (io_text _ Hok) as [_ Hx].
  exists ((rodata_start img - RAM_START_PMA) / 4096), ((data_start img - RAM_START_PMA) / 4096).
  unfold pages_at, RAM_START_PMA, ROUND_UP in *. change MEGA_SIZE with 2097152 in Hf. change PAGE_SIZE with 4096 in *.
  split_and!; try (Z.div_mod_to_equations; lia); intros j Hj; split; intros; Z.div_mod_to_equations; lia.
Qed.

Lemma VPN0_ram j : 0 ≤ j < 512 → VPN0 (RAM_START_PMA + j * PAGE_SIZE) = j.
Proof.
  intros Hj. unfold VPN0, VPN, RAM_START_PMA. change (0 * 9) with 0. change PTE_CNT with 512. change PAGE_SIZE with 4096.
  rewrite Z.shiftr_0_r. Z.div_mod_to_equations; lia.
Qed.
Lemma VPN1_ram j : 0 ≤ j < 512 → VPN1 (RAM_START_PMA + j * MEGA_SIZE) = j.
Proof.
  intros Hj. unfold VPN1, VPN, RAM_START_PMA. rewrite Z.shiftr_div_pow2 by lia. change (2 ^ (1 * 9)) with 512.
  change PTE_CNT with 512. change PAGE_SIZE with 4096. change MEGA_SIZE with 2097152. Z.div_mod_to_equations; lia.
Qed.
Lemma VPN2_giga j : 0 ≤ j < 512 → VPN2 (0 + j * GIGA_SIZE) = j.
Proof.
  intros Hj. unfold VPN2, VPN. rewrite Z.shiftr_div_pow2 by lia. change (2 ^ (2 * 9)) with 262144.
  change PTE_CNT with 512. change PAGE_SIZE with 4096. change GIGA_SIZE with 1073741824. Z.div_mod_to_equations; lia.
Qed.

Definition zero_tables img m : Prop := ∀ t i, t ∈ tables img → is_index i → rd m (slot t i) = 0.

(** The tables that [init_tables] leaves. *)
Record filled img m : Prop := {
  fi_2 i : is_index i → pte_at m (slot (main_pt2 img) i) = pt2_entry img i;
  fi_1 i : is_index i → pte_at m (slot (main_pt1_0x80000 img) i) = pt1_entry img i;
  fi_0 i : is_index i → pte_at m (slot (main_pt0_0x80000 img) i) = pt0_entry img i
}.

(** The word at entry [i] of table [u]; rodata starts at page [r], data at [d]. *)
Definition init_word img (r d u i old : Z) : Z :=
  if decide (u = main_pt1_0x80000 img ∧ 1 ≤ i < 4) then word_of_pte (leaf_pte (RAM_START_PMA + i * MEGA_SIZE) (Z.lor PTE_R (Z.lor PTE_W PTE_G)))
  else if decide (u = main_pt0_0x80000 img ∧ d ≤ i < 512) then word_of_pte (leaf_pte (RAM_START_PMA + i * PAGE_SIZE) (Z.lor PTE_R (Z.lor PTE_W PTE_G)))
  else if decide (u = main_pt0_0x80000 img ∧ r ≤ i < d) then word_of_pte (leaf_pte (RAM_START_PMA + i * PAGE_SIZE) (Z.lor PTE_R PTE_G))
  else if decide (u = main_pt0_0x80000 img ∧ 0 ≤ i < r) then word_of_pte (leaf_pte (RAM_START_PMA + i * PAGE_SIZE) (Z.lor PTE_R (Z.lor PTE_X PTE_G)))
  else if decide (u = main_pt1_0x80000 img ∧ i = 0) then word_of_pte (ptab_pte (main_pt0_0x80000 img) PTE_G)
  else if decide (u = main_pt2 img ∧ i = 2) then word_of_pte (ptab_pte (main_pt1_0x80000 img) PTE_G)
  else if decide (u = main_pt2 img ∧ 0 ≤ i < 2) then word_of_pte (leaf_pte (0 + i * GIGA_SIZE) (Z.lor PTE_R (Z.lor PTE_W PTE_G)))
  else old.

Lemma init_tables_words img s r d :
  image_ok img → pages_at img r d →
  ∃ m, init_tables img s =
         (Ret tt, Mm m (free_chunk_list s) (ptab_to_mtag (main_pt2 img) 0) (ptab_to_mtag (main_pt2 img) 0)) ∧
    ∀ u i, page_addr u → is_index i → rd m (slot u i) = init_word img r d u i (rd (words s) (slot u i)).
Proof.
  intros Hok (Hr & Hd & Hrd & Hd512 & Ht & Hro). destruct (image_tables _ Hok) as (P2 & P1 & P0).
  unfold init_tables.
  destruct (map_loop_table (main_pt2 img) VPN2 0 0 2 0 RAM_START_PMA GIGA_SIZE (Z.lor PTE_R (Z.lor PTE_W PTE_G)) s)
    as (m1 & R1 & E1); [done..| |intros; by apply VPN2_giga; lia|].
  { intros j Hj. unfold RAM_START_PMA. change GIGA_SIZE with 1073741824. lia. }
  krun R1. clear R1.
  destruct (set_pte_table (main_pt2 img) (VPN2 RAM_START_PMA) (ptab_pte (main_pt1_0x80000 img) PTE_G) (with_words s m1))
    as (m2 & R2 & E2); [done|done|]. krun R2. clear R2.
  destruct (set_pte_table (main_pt1_0x80000 img) (VPN1 RAM_START_PMA) (ptab_pte (main_pt0_0x80000 img) PTE_G) (with_words s m2))
    as (m3 & R3 & E3); [done|done|]. krun R3. clear R3.
  destruct (map_loop_table (main_pt0_0x80000 img) VPN0 RAM_START_PMA 0 r (text_start img) (text_end img) PAGE_SIZE
    (Z.lor PTE_R (Z.lor PTE_X PTE_G)) (with_words s m3))
    as (m4 & R4 & E4); [done|done|rewrite (proj1 (io_text _ Hok)); lia|done|lia|done|intros; apply VPN0_ram; lia|]. krun R4. clear R4.
  destruct (map_loop_table (main_pt0_0x80000 img) VPN0 RAM_START_PMA r d (rodata_start img) (rodata_end img) PAGE_SIZE
    (Z.lor PTE_R PTE_G) (with_words s m4))
    as (m5 & R5 & E5); [done|done|done|lia|lia|done|intros; apply VPN0_ram; lia|]. krun R5. clear R5.
  destruct (map_loop_table (main_pt0_0x80000 img) VPN0 RAM_START_PMA d 512 (data_start img) (RAM_START_PMA + MEGA_SIZE) PAGE_SIZE
    (Z.lor PTE_R (Z.lor PTE_W PTE_G)) (with_words s m5))
    as (m6 & R6 & E6); [done|done|done|lia|lia| |intros; apply VPN0_ram; lia|].
  { intros j Hj. change MEGA_SIZE with (512 * 4096). change PAGE_SIZE with 4096. lia. }
  krun R6. clear R6.
  destruct (map_loop_table (main_pt1_0x80000 img) VPN1 RAM_START_PMA 1 (RAM_SIZE / MEGA_SIZE) (RAM_START_PMA + MEGA_SIZE) RAM_END_PMA
    MEGA_SIZE (Z.lor PTE_R (Z.lor PTE_W PTE_G)) (with_words s m6))
    as (m7 & R7 & E7); [done|done|lia|lia|done| |intros; apply VPN1_ram; change (RAM_SIZE / MEGA_SIZE) with 4 in *; lia|].
  { intros j Hj. unfold RAM_END_PMA. change MEGA_SIZE with 2097152. change RAM_SIZE with 8388608. change (8388608 / 2097152) with 4. lia. }
  krun R7. clear R7.
  change (VPN2 RAM_START_PMA) with 2 in *. change (VPN1 RAM_START_PMA) with 0 in *. change (RAM_SIZE / MEGA_SIZE) with 4 in *.
  cbn [words with_words] in *. exists m7. split; [reflexivity|].
  intros u i Hu Hi. by rewrite E7, E6, E5, E4, E3, E2, E1.
Qed.

Lemma init_tables_run img s :
  image_ok img → zero_tables img (words s) →
  ∃ m, init_tables img s =
         (Ret tt, Mm m (free_chunk_list s) (ptab_to_mtag (main_pt2 img) 0) (ptab_to_mtag (main_pt2 img) 0)) ∧
    filled img m.
Proof.
  intros Hok Hz. destruct (image_tables _ Hok) as (P2 & P1 & P0). destruct (image_pages _ Hok) as (r & d & Hpg).
  destruct (init_tables_words img s r d Hok Hpg) as (m & Hrun & Hw). exists m. split; [exact Hrun|]. clear Hrun.
  destruct Hpg as (Hr & Hd & Hrd & Hd512 & _).
  pose proof (io_distinct _ Hok) as Hnd. unfold tables in Hnd.
  apply NoDup_cons in Hnd as [H2 Hnd]. apply NoDup_cons in Hnd as [H1 _].
  assert (main_pt2 img ≠ main_pt1_0x80000 img ∧ main_pt2 img ≠ main_pt0_0x80000 img ∧
          main_pt1_0x80000 img ≠ main_pt0_0x80000 img) as (N21 & N20 & N10) by set_solver. clear H2 H1.
  split; intros i Hi; unfold pte_at, is_index in *.
  - rewrite Hw by done. unfold init_word.
    rewrite !(decide_False (P := main_pt2 img = main_pt1_0x80000 img ∧ _)), !(decide_False (P := main_pt2 img = main_pt0_0x80000 img ∧ _)) by tauto.
    unfold pt2_entry. destruct (Z.eqb_spec i 2) as [->|Hne].
    + rewrite decide_True by done. apply pte_roundtrip, ptab_pte_ok.
    + rewrite decide_False by tauto. destruct (Z.ltb_spec i 2).
      * rewrite decide_True by lia. rewrite Z.add_0_l. apply pte_roundtrip, leaf_pte_ok.
      * rewrite decide_False by lia. rewrite Hz; [done| |done]. unfold tables. set_solver.
  - rewrite Hw by done. unfold init_word. apply not_eq_sym in N21.
    rewrite !(decide_False (P := main_pt1_0x80000 img = main_pt2 img ∧ _)), !(decide_False (P := main_pt1_0x80000 img = main_pt0_0x80000 img ∧ _)) by tauto.
    unfold pt1_entry. change (RAM_SIZE / MEGA_SIZE) with 4. destruct (Z.eqb_spec i 0) as [->|Hne].
    + rewrite decide_False by lia. rewrite decide_True by done. apply pte_roundtrip, ptab_pte_ok.
    + destruct (Z.ltb_spec i 4).
      * rewrite decide_True by lia. apply pte_roundtrip, leaf_pte_ok.
      * rewrite decide_False by lia. rewrite decide_False by tauto. rewrite Hz; [done| |done]. unfold tables. set_solver.
  - rewrite Hw by done. unfold init_word. rewrite decide_False by (intros [? _]; congruence).
    unfold pt0_entry. rewrite Hr, Hd. change PAGE_SIZE with 4096 in *.
    destruct (decide (d ≤ i)).
    { rewrite decide_True by (split; [done|lia]). rewrite (proj2 (Z.ltb_ge _ _)) by lia. rewrite (proj2 (Z.ltb_ge _ _)) by lia.
      apply pte_roundtrip, leaf_pte_ok. }
    rewrite decide_False by lia. destruct (decide (r ≤ i)).
    { rewrite decide_True by (split; [done|lia]). rewrite (proj2 (Z.ltb_ge _ _)) by lia. rewrite (proj2 (Z.ltb_lt _ _)) by lia.
      apply pte_roundtrip, leaf_pte_ok. }
    rewrite decide_False by lia. rewrite decide_True by (split; [done|lia]).
    rewrite (proj2 (Z.ltb_lt _ _)) by lia. apply pte_roundtrip, leaf_pte_ok.
Qed.

(** ** Translation *)

Lemma xlate_leaf m t i r p f :
  pte_at m (slot t i) = leaf_pte p f → 0 ≤ f < 2 ^ 8 → Z.land f (Z.lor PTE_R (Z.lor PTE_W PTE_X)) ≠ 0 →
  xlate m t (i :: r) = Some (leaf_pte p f, r).
Proof. intros E Hf Hl. cbn [xlate]. rewrite E. by destruct (leaf_pte_bits p f Hf Hl) as [-> ->]. Qed.

Lemma xlate_table m t i r pt :
  pte_at m (slot t i) = ptab_pte pt PTE_G → page_addr pt → xlate m t (i :: r) = xlate m pt r.
Proof.
  intros E Hp. cbn [xlate]. rewrite E. unfold ptab_pte at 1 2. cbn [PTE_VALID PTE_LEAF flags].
  change (negb (negb (Z.land (u8 (Z.lor PTE_G PTE_V)) PTE_V =? 0))) with false.
  change (negb (Z.land (u8 (Z.lor PTE_G PTE_V)) (Z.lor PTE_R (Z.lor PTE_W PTE_X)) =? 0)) with false. cbv iota.
  cbn [ppn ptab_pte]. by destruct (page_addr_ppn pt Hp) as [-> ->].
Qed.

Lemma xlate_null m t i r : pte_at m (slot t i) = null_pte → xlate m t (i :: r) = None.
Proof. intros E. cbn [xlate]. by rewrite E. Qed.

(** A leaf at the start [p] of the super-page that [va] is in. *)
Lemma translate_leaf m root va p f below :
  xlate m root (vpns va) = Some (leaf_pte p f, below) →
  0 ≤ p < 2 ^ 56 → (length below ≤ 2)%nat →
  va - va mod 2 ^ (12 + 9 * Z.of_nat (length below)) = p →
  translate m root va = Some (va, u8 (Z.lor f (Z.lor PTE_A (Z.lor PTE_D PTE_V)))).
Proof.
  intros E Hp Hb Hva. unfold translate. rewrite E. cbn [ppn flags leaf_pte].
  set (n := Z.of_nat (length below)) in *. assert (n = 0 ∨ n = 1 ∨ n = 2) as Hn by lia.
  assert (pagenum p mod 2 ^ 44 * 4096 = p) as ->.
  { rewrite pagenum_div, Z.mod_small by (Z.div_mod_to_equations; lia).
    destruct Hn as [-> | [-> | ->]]; [change (2 ^ (12 + 9 * 0)) with 4096 in Hva|change (2 ^ (12 + 9 * 1)) with 2097152 in Hva|change (2 ^ (12 + 9 * 2)) with 1073741824 in Hva]; Z.div_mod_to_equations; lia. }
  rewrite (proj2 (Z.eqb_eq _ _)).
  - do 2 f_equal. lia.
  - rewrite <- Hva. rewrite Zminus_mod_idemp_r. by rewrite Z.sub_diag.
Qed.

Lemma VPN2_low va : 0 ≤ va < 2 ^ 38 → VPN2 va = va / GIGA_SIZE.
Proof.
  intros. unfold VPN2, VPN. rewrite Z.shiftr_div_pow2 by lia. change (2 ^ (2 * 9)) with 262144.
  change PTE_CNT with 512. change PAGE_SIZE with 4096. change GIGA_SIZE with 1073741824. Z.div_mod_to_equations; lia.
Qed.
Lemma VPN2_high va : 2 ^ 64 - 2 ^ 38 ≤ va < 2 ^ 64 → 256 ≤ VPN2 va.
Proof.
  intros. unfold VPN2, VPN. rewrite Z.shiftr_div_pow2 by lia. change (2 ^ (2 * 9)) with 262144.
  change PTE_CNT with 512. change PAGE_SIZE with 4096. Z.div_mod_to_equations; lia.
Qed.
Lemma VPN1_third va : RAM_START_PMA ≤ va < RAM_START_PMA + GIGA_SIZE → VPN1 va = (va - RAM_START_PMA) / MEGA_SIZE.
Proof.
  unfold RAM_START_PMA. intros. unfold VPN1, VPN. rewrite Z.shiftr_div_pow2 by lia. change (2 ^ (1 * 9)) with 512.
  change PTE_CNT with 512. change PAGE_SIZE with 4096. change MEGA_SIZE with 2097152. change GIGA_SIZE with 1073741824 in *.
  Z.div_mod_to_equations; lia.
Qed.
Lemma VPN0_first va : RAM_START_PMA ≤ va < RAM_START_PMA + MEGA_SIZE → VPN0 va = (va - RAM_START_PMA) / PAGE_SIZE.
Proof.
  unfold RAM_START_PMA. intros. unfold VPN0, VPN. change (0 * 9) with 0. rewrite Z.shiftr_0_r. change PTE_CNT with 512.
  change PAGE_SIZE with 4096. change MEGA_SIZE with 2097152 in *. Z.div_mod_to_equations; lia.
Qed.

(** The two halves of the Sv39 address space. *)
Lemma wellformed_halves va : 0 ≤ va < 2 ^ 64 → wellformed va = true → va < 2 ^ 38 ∨ 2 ^ 64 - 2 ^ 38 ≤ va.
Proof.
  intros Hva Hw. unfold wellformed in Hw. rewrite Z.shiftr_div_pow2 in Hw by lia.
  destruct (decide (va < 2 ^ 63)).
  - assert (s64 va = va) as E by (unfold s64; rewrite Z.mod_small by lia; lia). rewrite E in Hw.
    unfold u64 in Hw. change (2 ^ 38) with 274877906944 in *. left.
    apply orb_true_iff in Hw as [Hw|Hw]; apply Z.eqb_eq in Hw; Z.div_mod_to_equations; lia.
  - assert (s64 va = va - 2 ^ 64) as E by (unfold s64; Z.div_mod_to_equations; lia). rewrite E in Hw.
    unfold u64 in Hw. change (2 ^ 38) with 274877906944 in *. right.
    apply orb_true_iff in Hw as [Hw|Hw]; apply Z.eqb_eq in Hw; Z.div_mod_to_equations; lia.
Qed.

Section direct_map.
Context (img : image) (m : gmap Z Z).
Context (Hok : image_ok img) (Hm : filled img m).

Lemma translate_mmio va : 0 ≤ va < RAM_START_PMA → translate m (main_pt2 img) va = Some (va, kernel_flags img va).
Proof.
  intros Hva. unfold RAM_START_PMA in Hva. assert (VPN2 va = va / GIGA_SIZE) as E by (apply VPN2_low; lia).
  change GIGA_SIZE with 1073741824 in E. assert (0 ≤ VPN2 va < 2) as Hi by (rewrite E; Z.div_mod_to_equations; lia).
  unfold kernel_flags. rewrite (proj2 (Z.ltb_lt va _)) by (unfold RAM_START_PMA; lia).
  apply (translate_leaf _ _ _ (VPN2 va * GIGA_SIZE) (Z.lor PTE_R (Z.lor PTE_W PTE_G)) [VPN1 va; VPN0 va]).
  - unfold vpns. apply xlate_leaf; [|done..]. rewrite (fi_2 _ _ Hm) by (unfold is_index; lia).
    unfold pt2_entry. by rewrite (proj2 (Z.ltb_lt _ 2)) by lia.
  - change GIGA_SIZE with 1073741824. lia.
  - done.
  - change (2 ^ (12 + 9 * Z.of_nat (length [VPN1 va; VPN0 va]))) with 1073741824. change GIGA_SIZE with 1073741824.
    rewrite E. Z.div_mod_to_equations; lia.
Qed.

(** The walk of an address of the third gigabyte goes to the level-1 table. *)
Lemma third_gigabyte va :
  RAM_START_PMA ≤ va < RAM_START_PMA + GIGA_SIZE →
  xlate m (main_pt2 img) (vpns va) = xlate m (main_pt1_0x80000 img) [(va - RAM_START_PMA) / MEGA_SIZE; VPN0 va].
Proof.
  intros Hva. unfold vpns. rewrite VPN1_third by done.
  assert (VPN2 va = 2) as ->.
  { unfold RAM_START_PMA in Hva. change GIGA_SIZE with 1073741824 in Hva. rewrite VPN2_low by lia.
    change GIGA_SIZE with 1073741824. Z.div_mod_to_equations; lia. }
  apply xlate_table; [by rewrite (fi_2 _ _ Hm)|by apply image_tables].
Qed.

Lemma translate_image va :
  RAM_START_PMA ≤ va < RAM_START_PMA + MEGA_SIZE → translate m (main_pt2 img) va = Some (va, kernel_flags img va).
Proof.
  intros Hva. pose proof Hva as Hva'. unfold RAM_START_PMA in Hva'. change MEGA_SIZE with 2097152 in Hva'.
  assert (is_index ((va - RAM_START_PMA) / PAGE_SIZE)) as Hi.
  { unfold is_index, RAM_START_PMA. change PAGE_SIZE with 4096. Z.div_mod_to_equations; lia. }
  assert (RAM_START_PMA + (va - RAM_START_PMA) / PAGE_SIZE * PAGE_SIZE = va - va mod 4096) as Hpp.
  { unfold RAM_START_PMA. change PAGE_SIZE with 4096. Z.div_mod_to_equations; lia. }
  assert (xlate m (main_pt2 img) (vpns va) = Some (pt0_entry img ((va - RAM_START_PMA) / PAGE_SIZE), [])) as Hx.
  { rewrite third_gigabyte by (change GIGA_SIZE with 1073741824; unfold RAM_START_PMA; lia).
    rewrite VPN0_first by done. assert ((va - RAM_START_PMA) / MEGA_SIZE = 0) as ->.
    { unfold RAM_START_PMA. change MEGA_SIZE with 2097152. Z.div_mod_to_equations; lia. }
    rewrite (xlate_table _ _ _ _ (main_pt0_0x80000 img)); [|by rewrite (fi_1 _ _ Hm)|by apply image_tables].
    apply xlate_leaf; [by apply (fi_0 _ _ Hm)|by repeat case_match..]. }
  unfold pt0_entry in Hx. cbv zeta in Hx. rewrite Hpp in Hx.
  destruct (image_pages _ Hok) as (r & d & Hr & Hd & Hrd & _).
  assert (∀ k, (va - va mod 4096 <? RAM_START_PMA + k * PAGE_SIZE) = (va <? RAM_START_PMA + k * PAGE_SIZE)) as Hcmp.
  { intros k. unfold RAM_START_PMA. change PAGE_SIZE with 4096. apply Bool.eq_iff_eq_true. rewrite !Z.ltb_lt. Z.div_mod_to_equations; lia. }
  rewrite Hr, Hd, !Hcmp, <- Hr, <- Hd in Hx.
  pose proof (Z.mod_pos_bound va 4096 ltac:(lia)) as Hmod.
  erewrite (translate_leaf m _ va _ _ []); [|exact Hx|lia|simpl; lia|done].
  unfold kernel_flags. rewrite (proj2 (Z.ltb_ge va RAM_START_PMA)) by (unfold RAM_START_PMA; lia). by repeat case_match.
Qed.

Lemma translate_ram va :
  RAM_START_PMA + MEGA_SIZE ≤ va < RAM_END_PMA → translate m (main_pt2 img) va = Some (va, kernel_flags img va).
Proof.
  intros Hva. pose proof Hva as Hva'. unfold RAM_END_PMA, RAM_START_PMA, RAM_SIZE in Hva'. change MEGA_SIZE with 2097152 in Hva'.
  set (i := (va - RAM_START_PMA) / MEGA_SIZE). assert (1 ≤ i < 4 ∧ RAM_START_PMA + i * MEGA_SIZE = va - va mod 2097152) as [Hi Hpp].
  { unfold i, RAM_START_PMA. change MEGA_SIZE with 2097152. split; Z.div_mod_to_equations; lia. }
  assert (xlate m (main_pt2 img) (vpns va) = Some (pt1_entry img i, [VPN0 va])) as Hx.
  { rewrite third_gigabyte by (change GIGA_SIZE with 1073741824; unfold RAM_START_PMA; lia). fold i.
    assert (pt1_entry img i = leaf_pte (RAM_START_PMA + i * MEGA_SIZE) (Z.lor PTE_R (Z.lor PTE_W PTE_G))) as E.
    { unfold pt1_entry. change (RAM_SIZE / MEGA_SIZE) with 4.
      by rewrite (proj2 (Z.eqb_neq i 0)), (proj2 (Z.ltb_lt i 4)) by lia. }
    rewrite E. apply xlate_leaf; [|done..]. rewrite <- E. apply (fi_1 _ _ Hm). unfold is_index. lia. }
  unfold pt1_entry in Hx. change (RAM_SIZE / MEGA_SIZE) with 4 in Hx.
  rewrite (proj2 (Z.eqb_neq i 0)), (proj2 (Z.ltb_lt i 4)), Hpp in Hx by lia.
  pose proof (Z.mod_pos_bound va 2097152 ltac:(lia)) as Hmod.
  rewrite (translate_leaf m _ va _ _ [VPN0 va] Hx); [|lia|simpl; lia|done].
  destruct (image_pages _ Hok) as (r & d & Hr & Hd & Hrd & Hd512 & _). change PAGE_SIZE with 4096 in *. unfold RAM_START_PMA in *.
  unfold kernel_flags. rewrite (proj2 (Z.ltb_ge va RAM_START_PMA)) by (unfold RAM_START_PMA; lia).
  by rewrite (proj2 (Z.ltb_ge va (rodata_start img))), (proj2 (Z.ltb_ge va (data_start img))) by lia.
Qed.

Lemma xlate_none va :
  RAM_END_PMA ≤ va < 2 ^ 64 → wellformed va = true → xlate m (main_pt2 img) (vpns va) = None.
Proof.
  intros Hva Hw. unfold RAM_END_PMA, RAM_START_PMA, RAM_SIZE in Hva.
  destruct (decide (va < RAM_START_PMA + GIGA_SIZE)) as [Hlt|Hge].
  - rewrite third_gigabyte by (unfold RAM_START_PMA in *; lia). unfold RAM_START_PMA in Hlt. change GIGA_SIZE with 1073741824 in Hlt.
    set (i := (va - RAM_START_PMA) / MEGA_SIZE). assert (4 ≤ i < 512) as Hi.
    { unfold i, RAM_START_PMA. change MEGA_SIZE with 2097152. Z.div_mod_to_equations; lia. }
    apply xlate_null. rewrite (fi_1 _ _ Hm) by (unfold is_index; lia). unfold pt1_entry. change (RAM_SIZE / MEGA_SIZE) with 4.
    by rewrite (proj2 (Z.eqb_neq i 0)), (proj2 (Z.ltb_ge i 4)) by lia.
  - unfold RAM_START_PMA in Hge. change GIGA_SIZE with 1073741824 in Hge. assert (3 ≤ VPN2 va < 512) as Hi.
    { split; [|by apply (proj1 (Forall_cons _ _ _) (VPN_index va))].
      destruct (wellformed_halves va ltac:(lia) Hw) as [Hl|Hh]; [|pose proof (VPN2_high va); lia].
      rewrite VPN2_low by lia. change GIGA_SIZE with 1073741824. Z.div_mod_to_equations; lia. }
    apply xlate_null. rewrite (fi_2 _ _ Hm) by (unfold is_index; lia). unfold pt2_entry.
    by rewrite (proj2 (Z.ltb_ge _ 2)), (proj2 (Z.eqb_neq _ 2)) by lia.
Qed.

Lemma translate_none va :
  RAM_END_PMA ≤ va < 2 ^ 64 → wellformed va = true → translate m (main_pt2 img) va = None.
Proof. intros Hva Hw. unfold translate. by rewrite xlate_none. Qed.

(** The three tables are the only ones. *)
Lemma child_entry t i e : pte_at m (slot t i) = e → child m t i = if (PTE_VALID e && negb (PTE_LEAF e))%bool then Some (pageptr (ppn e)) else None.
Proof. unfold child. by intros ->. Qed.

Lemma kernel_tab p t : (length p ≤ 2)%nat → Forall is_index p → tab m (main_pt2 img) p = Some t →
  (p = [] ∧ t = main_pt2 img) ∨ (p = [2] ∧ t = main_pt1_0x80000 img) ∨ (p = [2; 0] ∧ t = main_pt0_0x80000 img).
Proof.
  destruct (image_tables _ Hok) as (P2 & P1 & P0).
  assert (∀ i t, is_index i → child m (main_pt2 img) i = Some t → i = 2 ∧ t = main_pt1_0x80000 img) as C2.
  { intros i t' Hi. rewrite (child_entry _ _ _ (fi_2 _ _ Hm i Hi)). unfold pt2_entry. repeat case_match; kbool; try done.
    intros [= <-]. split; [done|]. cbn [ppn ptab_pte]. by destruct (page_addr_ppn _ P1) as [-> ->]. }
  assert (∀ i t, is_index i → child m (main_pt1_0x80000 img) i = Some t → i = 0 ∧ t = main_pt0_0x80000 img) as C1.
  { intros i t' Hi. rewrite (child_entry _ _ _ (fi_1 _ _ Hm i Hi)). unfold pt1_entry. repeat case_match; kbool; try done.
    intros [= <-]. split; [done|]. cbn [ppn ptab_pte]. by destruct (page_addr_ppn _ P0) as [-> ->]. }
  intros Hlen Hp. destruct p as [|i [|j [|k p]]]; [| | |simpl in Hlen; lia]; unfold tab; cbn [foldl mbind option_bind].
  - intros [= <-]. by left.
  - apply Forall_cons in Hp as [Hi _]. intros [-> ->]%C2; [|done]. right. by left.
  - apply Forall_cons in Hp as [Hi Hj]. apply Forall_cons in Hj as [Hj _]. intros (t1 & Ht1 & Ht)%bind_Some.
    apply C2 in Ht1 as [-> ->]; [|done]. apply C1 in Ht as [-> ->]; [|done]. right. by right.
Qed.

Lemma kernel_tables_ok free :
  Forall (λ p, kimg_end img ≤ p) free → tables_ok m (main_pt2 img) free.
Proof.
  intros Hfree. destruct (image_tables _ Hok) as (P2 & P1 & P0). pose proof (io_tables _ Hok) as Ht.
  pose proof (io_distinct _ Hok) as Hnd. unfold tables in *. apply NoDup_cons in Hnd as [H2 Hnd]. apply NoDup_cons in Hnd as [H1 _].
  assert (∀ t, t ∈ tables img → t ∉ free) as Hnot.
  { intros t Hin Hf. rewrite Forall_forall in Ht, Hfree. specialize (Hfree _ Hf). specialize (Ht _ Hin). change PAGE_SIZE with 4096 in Ht. lia. }
  unfold tables in Hnot. split.
  - intros p t Hl Hp Htab. destruct (kernel_tab p t Hl Hp Htab) as [[_ ->]|[[_ ->]|[_ ->]]]; (split; [done|apply Hnot; set_solver]).
  - intros p q t Hl Hp Hq Hqi Htp Htq.
    destruct (kernel_tab p t Hl Hp Htp) as [[-> E]|[[-> E]|[-> E]]], (kernel_tab q t Hq Hqi Htq) as [[-> E']|[[-> E']|[-> E']]];
      first [done | exfalso; set_solver].
Qed.
End direct_map.

(** ** Initialization *)

Lemma on_heap_run {A} (f : M _ A) h st mi a h' : f h = (Ret a, h') → on_heap f (MkBoot h st mi) = (Ret a, MkBoot h' st mi).
Proof. unfold on_heap. cbn [bheap]. by intros ->. Qed.
Lemma on_mm_run {A} (f : M _ A) h st mi a s' :
  f (Heap.pgs h) = (Ret a, s') → on_mm f (MkBoot h st mi) = (Ret a, MkBoot (with_pgs h s') st mi).
Proof. intros E. apply on_heap_run. by rewrite E. Qed.

Lemma kernel_mtag p : page_addr p → mtag_to_ptab (ptab_to_mtag p 0) = p.
Proof.
  intros [Ha Hp]. change PAGE_SIZE with 4096 in Ha. unfold mtag_to_ptab, ptab_to_mtag.
  rewrite pagenum_div, Z.shiftl_0_l, Z.lor_0_l. set (n := p / 4096).
  assert (0 ≤ n < 2 ^ 44 ∧ n * 4096 = p) as [Hn Hnp] by (unfold n; Z.div_mod_to_equations; lia).
  assert (Z.lor (Z.shiftl 8 60) n = 2 ^ 63 + n) as ->.
  { change (Z.shiftl 8 60) with (2 ^ 63). rewrite <- Z.lxor_lor, Z.add_nocarry_lxor; [done|..];
      apply Z.bits_inj'; intros i Hi; rewrite Z.land_spec, Z.bits_0, Z.pow2_bits_eqb by lia;
      destruct (Z.eqb_spec 63 i) as [<-|]; try done; rewrite (Z.bits_above_log2 n 63); try done; try lia;
      (destruct (decide (n = 0)) as [->|]; [done|]; apply Z.log2_lt_pow2; lia). }
  rewrite (u64_small (2 ^ 63 + n)) by lia. rewrite Z.shiftl_mul_pow2, Z.shiftr_div_pow2 by lia. unfold u64.
  replace ((2 ^ 63 + n) * 2 ^ 20) with (n * 2 ^ 20 + 2 ^ 19 * 2 ^ 64) by lia.
  rewrite Z.mod_add, Z.mod_small by lia. replace (n * 2 ^ 20) with (p * 2 ^ 8) by lia. by apply Z.div_mul.
Qed.

Lemma heap_bounds_spec img start stop :
  image_ok img → heap_bounds img = (start, stop) →
  start = kimg_end img ∧ stop mod PAGE_SIZE = 0 ∧ start + HEAP_INIT_MIN ≤ stop ∧
  RAM_START_PMA ≤ start ∧ stop ≤ RAM_START_PMA + MEGA_SIZE + PAGE_SIZE.
Proof.
  intros Hok. unfold heap_bounds, HEAP_INIT_MIN. intros [= <- <-].
  destruct (image_pages _ Hok) as (r & d & Hr & Hd & Hrd & _). pose proof (io_data _ Hok) as [_ He]. pose proof (io_fits _ Hok) as Hf.
  rewrite Hd in He. unfold ROUND_UP, RAM_START_PMA in *. change PAGE_SIZE with 4096 in *. change MEGA_SIZE with 2097152 in *.
  case_match eqn:E; kbool; split_and!; try done; Z.div_mod_to_equations; lia.
Qed.

Lemma slot_low t i : t mod PAGE_SIZE = 0 → is_index i → t ≤ slot t i ∧ slot t i + 8 ≤ t + PAGE_SIZE.
Proof. unfold slot, is_index. change PAGE_SIZE with 4096. lia. Qed.

(** The tables are inside the image. *)
Lemma filled_frame img m m' :
  image_ok img → (∀ x, x < kimg_end img → rd m' x = rd m x) → filled img m → filled img m'.
Proof.
  intros Hok Hfr Hm. pose proof (io_tables _ Hok) as Ht. unfold tables in Ht. rewrite !Forall_cons in Ht.
  destruct Ht as ((A2 & _ & B2) & (A1 & _ & B1) & (A0 & _ & B0) & _).
  split; intros i Hi; unfold pte_at; rewrite Hfr;
    try (match goal with |- slot ?t _ < _ => destruct (slot_low t i) end; [done|done|lia]); by apply Hm.
Qed.

Lemma pages_apart l : NoDup l → Forall in_ram l → Heap.all_apart (Heap.page_area <$> l).
Proof.
  induction l as [|p l IH]; [done|]. intros [Hp Hnd]%NoDup_cons [Hr Hrs]%Forall_cons. cbn [fmap list_fmap Heap.all_apart].
  split; [|by apply IH]. apply Forall_fmap, Forall_forall. intros q Hq. rewrite Forall_forall in Hrs. specialize (Hrs q Hq).
  assert (p ≠ q) by (by intros ->). destruct Hr as [Hp' _], Hrs as [Hq' _].
  unfold Heap.apart, Heap.page_area. simpl. change PAGE_SIZE with 4096 in *. Z.div_mod_to_equations; lia.
Qed.

Lemma block_bound a n p : p ∈ block a n → a ≤ p.
Proof. unfold block, page. intros (i & -> & _)%list_elem_of_fmap. change PAGE_SIZE with 4096. lia. Qed.

(** The rest of RAM, as the free list. *)
Definition pool (stop : Z) : list (Z * Z) := [(stop, (RAM_END_PMA - stop) / PAGE_SIZE)].

Lemma pool_bound stop p : p ∈ pages (pool stop) → stop ≤ p.
Proof. unfold pages, pool. cbn [mbind list_bind]. rewrite app_nil_r. apply block_bound. Qed.

Lemma init_chunks_run stop s :
  stop mod PAGE_SIZE = 0 → RAM_START_PMA ≤ stop < RAM_END_PMA →
  ∃ s', init_chunks stop s = (Ret tt, s') ∧ free_list_is s' (pool stop) ∧ satp s' = satp s ∧ main_mtag s' = main_mtag s ∧
    ∀ x, x < stop → rd (words s') x = rd (words s) x.
Proof.
  intros Ha Hr. unfold init_chunks. rewrite (proj2 (Z.ltb_lt _ _)) by lia. eexists. split; [reflexivity|]. split_and!; try done.
  - unfold RAM_END_PMA, RAM_SIZE, RAM_START_PMA in *. unfold pool, RAM_END_PMA, RAM_SIZE, RAM_START_PMA.
    change PAGE_SIZE with 4096 in *. apply single_chunk_ok; unfold RAM_END_PMA, RAM_SIZE, RAM_START_PMA; change PAGE_SIZE with 4096;
      [done|lia|Z.div_mod_to_equations; lia..|done| |]; unfold next, pagecnt; cbn [words with_words with_list].
    + rewrite rd_wr_ne by lia. apply rd_wr_eq.
    + apply rd_wr_eq.
  - intros x Hx. cbn [words with_words with_list]. rewrite !rd_wr_ne by lia. done.
Qed.

Lemma heap_init_run start stop (h : Heap.heap (St := mm)) l :
  0 < start → start + HEAP_INIT_MIN ≤ stop → stop mod PAGE_SIZE = 0 → stop < 2 ^ 63 →
  ∃ h', Heap.heap_init start stop h = (Ret tt, h') ∧ Heap.heap_initialized h' = true ∧ Heap.pgs h' = Heap.pgs h ∧
    start ≤ Heap.heap_low h' ∧ HEAP_INIT_MIN - HEAP_ALIGN < Heap.heap_end h' - Heap.heap_low h' ∧ Heap.heap_end h' ≤ stop ∧
    ∀ s : mm, ps_free s l → Forall (λ p, stop ≤ p) l →
      Heap.heap_ok (with_pgs h' s) [] l.
Proof.
  unfold HEAP_INIT_MIN. intros Hs Hmin Ha Hb. change PAGE_SIZE with 4096 in Ha. unfold Heap.heap_init.
  assert (ROUND_DOWN stop HEAP_ALIGN = stop) as ->.
  { unfold ROUND_DOWN. change HEAP_ALIGN with 16. Z.div_mod_to_equations; lia. }
  destruct (ROUND_UP_spec start HEAP_ALIGN) as [Hu _]; [done|]. change HEAP_ALIGN with 16 in *.
  rewrite (proj2 (Z.ltb_lt _ _)) by lia. eexists. split; [reflexivity|]. cbn [Heap.heap_low Heap.heap_end Heap.pgs Heap.heap_initialized Heap.mem].
  split_and!; [done|done|lia|lia|lia|]. intros s Hfree Hl. split; cbn [with_pgs Heap.heap_low Heap.heap_end Heap.pgs].
  - done.
  - lia.
  - change HEAP_ALIGN with 16. Z.div_mod_to_equations; lia.
  - constructor.
  - unfold Heap.areas. cbn [fmap list_fmap app Heap.all_apart with_pgs Heap.heap_low Heap.heap_end]. split.
    + apply Forall_fmap. eapply Forall_impl; [exact Hl|]. intros p Hp. left. simpl in *. lia.
    + apply pages_apart; [by eapply ps_nodup|]. apply Forall_forall. intros p Hp. by eapply ps_ram.
Qed.

(** What the kernel finds after [memory_init]: paging is on, RAM and the
    device registers are mapped at their own addresses and nothing else is, and
    what is left of RAM is split between the heap and the page allocator. *)
Record booted img b : Prop := {
  bt_flags : memory_initialized b = true ∧ Heap.heap_initialized (bheap b) = true ∧ Z.testbit (sstatus b) 18 = true;
  bt_mtag : main_mtag (Heap.pgs (bheap b)) = satp (Heap.pgs (bheap b));
  bt_map va : 0 ≤ va < 2 ^ 64 → wellformed va = true →
    translate (words (Heap.pgs (bheap b))) (active_space_ptab (Heap.pgs (bheap b))) va =
    if va <? RAM_END_PMA then Some (va, kernel_flags img va) else None;
  bt_high va : RAM_END_PMA ≤ va < 2 ^ 64 → wellformed va = true →
    xlate (words (Heap.pgs (bheap b))) (active_space_ptab (Heap.pgs (bheap b))) (vpns va) = None;
  bt_wxorx va : Z.land (kernel_flags img va) PTE_W = 0 ∨ Z.land (kernel_flags img va) PTE_X = 0;
  bt_space : space_ok (Heap.pgs (bheap b)) (pool (heap_bounds img).2);
  bt_heap : Heap.heap_ok (bheap b) [] (pages (pool (heap_bounds img).2));
  bt_pool : kimg_end img ≤ Heap.heap_low (bheap b) ∧
    HEAP_INIT_MIN - HEAP_ALIGN < Heap.heap_end (bheap b) - Heap.heap_low (bheap b)
}.

Lemma translate_kernel img m va :
  image_ok img → filled img m → 0 ≤ va < 2 ^ 64 → wellformed va = true →
  translate m (main_pt2 img) va = if va <? RAM_END_PMA then Some (va, kernel_flags img va) else None.
Proof.
  intros Hok Hm Hva Hw. destruct (Z.ltb_spec va RAM_END_PMA) as [Hlt|Hge]; [|apply translate_none; first [done|lia]].
  destruct (decide (va < RAM_START_PMA)); [apply translate_mmio; first [done|lia]|].
  destruct (decide (va < RAM_START_PMA + MEGA_SIZE)); [apply translate_image|apply translate_ram]; first [done|lia].
Qed.

Lemma kernel_wxorx img va : Z.land (kernel_flags img va) PTE_W = 0 ∨ Z.land (kernel_flags img va) PTE_X = 0.
Proof. unfold kernel_flags. repeat case_match; vm_compute; auto. Qed.

Lemma memory_init_ok img b :
  image_ok img → zero_tables img (words (Heap.pgs (bheap b))) →
  ∃ b', memory_init img b = (Ret tt, b') ∧ booted img b'.
Proof.
  intros Hok Hz. destruct (heap_bounds img) as [start stop] eqn:Hb.
  destruct (heap_bounds_spec _ _ _ Hok Hb) as (Hs & Ha & Hmin & Hlo & Hhi). unfold RAM_START_PMA in Hlo, Hhi.
  change MEGA_SIZE with 2097152 in Hhi. change PAGE_SIZE with 4096 in Hhi.
  destruct b as [h st mi]. cbn [bheap] in Hz. destruct (init_tables_run img (Heap.pgs h) Hok Hz) as (m & Hrun1 & Hm).
  set (h1 := with_pgs h (Mm m (free_chunk_list (Heap.pgs h)) (ptab_to_mtag (main_pt2 img) 0) (ptab_to_mtag (main_pt2 img) 0))).
  unfold HEAP_INIT_MIN in Hmin.
  destruct (heap_init_run start stop h1 (pages (pool stop))) as (h2 & Hrun2 & Hini & Hpg & Hl & Hsz & He & Hheap); [lia|done|done|lia|].
  destruct (init_chunks_run stop (Heap.pgs h2)) as (s3 & Hrun3 & Hfree & Hsatp & Htag & Hfr); [done|unfold RAM_END_PMA, RAM_SIZE, RAM_START_PMA; lia|].
  rewrite Hpg in Hfr, Hsatp, Htag. unfold h1 in Hfr, Hsatp, Htag. cbn [with_pgs Heap.pgs words satp main_mtag] in Hfr, Hsatp, Htag.
  assert (filled img (words s3)) as Hm3 by (eapply filled_frame; [done| |exact Hm]; intros x Hx; apply Hfr; lia).
  assert (active_space_ptab s3 = main_pt2 img) as Hroot.
  { unfold active_space_ptab. rewrite Hsatp. by apply kernel_mtag, image_tables. }
  assert (Forall (λ p, stop ≤ p) (pages (pool stop))) as Hpool by (apply Forall_forall; apply pool_bound).
  unfold memory_init. rewrite (io_start _ Hok), Z.eqb_refl. cbn [negb].
  rewrite (proj2 (Z.ltb_ge MEGA_SIZE _)) by (pose proof (io_fits _ Hok); lia). krun (on_mm_run _ h st mi _ _ Hrun1). rewrite Hb. cbv iota.
  rewrite (proj2 (Z.ltb_ge RAM_END_PMA _)) by (unfold RAM_END_PMA, RAM_SIZE, RAM_START_PMA; lia).
  krun (on_heap_run _ h1 st mi _ _ Hrun2). krun (on_mm_run _ h2 st mi _ _ Hrun3).
  eexists. split; [reflexivity|]. split; cbn [bheap memory_initialized sstatus with_pgs Heap.pgs Heap.heap_low Heap.heap_end].
  - split; [done|]. split; [done|]. rewrite Z.lor_spec. apply orb_true_iff. by right.
  - by rewrite Hsatp, Htag.
  - intros va. rewrite Hroot. by apply translate_kernel.
  - intros va. rewrite Hroot. by apply xlate_none.
  - apply kernel_wxorx.
  - rewrite Hb. split; [done|]. rewrite Hroot. apply kernel_tables_ok; [done|done|].
    eapply Forall_impl; [exact Hpool|]. intros p ?. simpl in *. lia.
  - rewrite Hb. apply Hheap; [by eexists|done].
  - split; [lia|done].
Qed.

(** C15. For an image laid out as kernel.ld does, whose tables are zero,
    [memory_init] returns with paging on: every address of the device region and
    of RAM is mapped to itself with the permissions of its segment, nothing else
    is mapped, no page is both writable and executable, and the rest of RAM is a
    well-formed heap pool of at least 241 bytes and a well-formed free page list, which
    overlap neither the image nor a page table. *)
Theorem memory_init_correct img b :
  image_ok img → zero_tables img (words (Heap.pgs (bheap b))) →
  ∃ b', memory_init img b = (Ret tt, b') ∧ booted img b'.
Proof. apply memory_init_ok. Qed.

(** ** A concrete image *)

Definition demo_image : image :=
  Image 0x80000000 0x80030010 0x80000000 0x80010010 0x80011000 0x80012010 0x80013000 0x80020000 0x80021000 0x80022000.
Definition demo_boot : boot := MkBoot (Heap.MkHeap 0 0 false (λ _, 0) (Mm ∅ 0 0 0)) 0 false.

Lemma demo_image_ok : image_ok demo_image.
Proof.
  split; try done.
  - unfold tables. repeat (apply Forall_cons_2; [done|]). by apply Forall_nil_2.
  - unfold tables. simpl. repeat (apply NoDup_cons; split; [set_solver|]). by apply NoDup_nil.
Qed.

Lemma memory_init_correct_witness :
  ∃ b', memory_init demo_image demo_boot = (Ret tt, b') ∧ booted demo_image b' ∧
    kernel_flags demo_image 0x80000000 = 235 ∧ pool (heap_bounds demo_image).2 = [(0x80031000, 1999)].
Proof.
  destruct (memory_init_correct demo_image demo_boot demo_image_ok) as (b' & Hrun & Hb); [intros t i _ _; reflexivity|].
  exists b'. split; [exact Hrun|]. split; [exact Hb|]. clear. split; vm_compute; reflexivity.
Defined.

End Boot.
