(* ===== verification/Pipe.v ===== *)
(** * Pipes (kernel/io.c, create_pipe and the pipe endpoints)

    A pipe is a ring buffer with 16-bit positions under a lock, with one
    condition for each direction.  The state pairs the thread manager with the
    pipe.  A call that blocks is modelled up to the context switch; its result
    says where it continues when the thread is scheduled again. *)

From S2P Require Import Prelude Config Ring PhysPages Heap Threads ThreadProofs LockProofs SchedProofs.
Import Threads ThreadProofs LockProofs SchedProofs.

Module Pipe.

Definition PIPE_BUF_SIZE : Z := 4096.
(** sizeof(struct pipe_state): 48 bytes of lock, two conditions of 24, two
    ints, two 16-bit positions and the buffer, rounded up to 8; and
    sizeof(struct pipe_end). *)
Definition SIZEOF_PIPE_STATE : Z := 4208.
Definition SIZEOF_PIPE_END : Z := 32.

Record pipe_state := PipeState {
  plock : nat; not_empty : nat; not_full : nat; write_open : bool; read_open : bool;
  head : Z; tail : Z; buf : list Z }.

Definition with_head (p : pipe_state) x :=
  PipeState (plock p) (not_empty p) (not_full p) (write_open p) (read_open p) x (tail p) (buf p).
Definition with_tail_buf (p : pipe_state) x b :=
  PipeState (plock p) (not_empty p) (not_full p) (write_open p) (read_open p) (head p) x b.
Definition with_open (p : pipe_state) w r :=
  PipeState (plock p) (not_empty p) (not_full p) w r (head p) (tail p) (buf p).

Record psys := PSys { kern : ks; pipe : pipe_state }.

Definition on_kern {A} (m : M ks A) : M psys A := λ s,
  let (r, k) := m (kern s) in (r, PSys k (pipe s)).
Definition put_pipe (p : pipe_state) : M psys unit := modify (λ s, PSys (kern s) p).

Definition pipe_count (p : pipe_state) : Z := u16 (tail p - head p).

(** The copying loop of [pipe_read], with room for [room] more bytes. *)
Fixpoint take_bytes (room : nat) (p : pipe_state) : list Z * pipe_state :=
  match room with
  | O => ([], p)
  | S room =>
      if 0 <? pipe_count p then
        let b := getb 0 (buf p) (head p mod PIPE_BUF_SIZE) in
        let '(out, p) := take_bytes room (with_head p (u16 (head p + 1))) in
        (b :: out, p)
      else ([], p)
  end.

(** The copying loop of [pipe_write]: the bytes of [inp] that are left. *)
Fixpoint put_bytes (inp : list Z) (p : pipe_state) : list Z * pipe_state :=
  match inp with
  | [] => ([], p)
  | b :: rest =>
      if pipe_count p <? PIPE_BUF_SIZE
      then put_bytes rest (with_tail_buf p (u16 (tail p + 1)) (setb (tail p mod PIPE_BUF_SIZE) b (buf p)))
      else (inp, p)
  end.

(** How a call ends: with a result, waiting for the lock, or waiting on a
    condition with [left] still to be written. *)
Inductive pres := Done (n : Z) (out : list Z) | LockWait | CondWait (left : list Z).

(** [pipe_read] from the test of its loop. *)
Definition pipe_read_loop (bufsz : Z) : M psys pres :=
  s ← gets pipe;
  if ((pipe_count s =? 0) && write_open s)%bool
  then on_kern (condition_wait (not_empty s));; mret (CondWait [])
  else
    let '(out, s) := take_bytes (Z.to_nat bufsz) s in
    put_pipe s;;
    let n := Z.of_nat (length out) in
    (if 0 <? n then on_kern (condition_broadcast (not_full s)) else mret tt);;
    on_kern (lock_release (plock s));;
    mret (Done n out).

Definition pipe_read (is_writer : bool) (bufsz : Z) : M psys pres :=
  s ← gets pipe;
  if is_writer then mret (Done (- EBADFD) [])
  else if bufsz <=? 0 then mret (Done 0 [])
  else
    got ← on_kern (lock_acquire (plock s));
    if (got : bool) then pipe_read_loop bufsz else mret LockWait.

(** [pipe_write] from the test of its outer loop: [inp] is left of the [len]
    bytes.  Two passes are enough: the second finds the buffer full or nothing
    left. *)
Fixpoint pipe_write_loop (fuel : nat) (len : Z) (inp : list Z) : M psys pres :=
  match fuel with
  | O => λ s, (NoFuel, s)
  | S fuel =>
      s ← gets pipe;
      let written := len - Z.of_nat (length inp) in
      match inp with
      | [] => on_kern (lock_release (plock s));; mret (Done written [])
      | _ =>
          if ((pipe_count s =? PIPE_BUF_SIZE) && read_open s)%bool
          then on_kern (condition_wait (not_full s));; mret (CondWait inp)
          else if negb (read_open s) then
            on_kern (lock_release (plock s));;
            mret (Done (if 0 <? written then written else - EPIPE) [])
          else
            let '(rest, s) := put_bytes inp s in
            put_pipe s;;
            on_kern (condition_broadcast (not_empty s));;
            pipe_write_loop fuel len rest
      end
  end.

Definition pipe_write (is_writer : bool) (inp : list Z) (len : Z) : M psys pres :=
  s ← gets pipe;
  if negb is_writer then mret (Done (- EBADFD) [])
  else if len <=? 0 then mret (Done 0 [])
  else
    got ← on_kern (lock_acquire (plock s));
    if (got : bool) then pipe_write_loop 3 len (take (Z.to_nat len) inp) else mret LockWait.

(** [Some b]: closed, and [b] says whether the shared state is freed. *)
Definition pipe_close (is_writer : bool) : M psys (option bool) :=
  s ← gets pipe;
  got ← on_kern (lock_acquire (plock s));
  if (got : bool) then
    (if is_writer
     then put_pipe (with_open s false (read_open s));; on_kern (condition_broadcast (not_empty s))
     else put_pipe (with_open s (write_open s) false);; on_kern (condition_broadcast (not_full s)));;
    s ← gets pipe;
    let both_closed := (negb (write_open s) && negb (read_open s))%bool in
    on_kern (lock_release (plock s));;
    mret (Some both_closed)
  else mret None.

(** The allocations of [create_pipe], with its handling of failed ones. *)
Definition create_pipe_alloc `{PageSource St} (ra : Z) : M (Heap.heap (St := St)) (option (Z * Z * Z)) :=
  s ← Heap.kcalloc 1 SIZEOF_PIPE_STATE ra;
  w ← Heap.kcalloc 1 SIZEOF_PIPE_END ra;
  r ← Heap.kcalloc 1 SIZEOF_PIPE_END ra;
  if ((s =? 0) || (w =? 0) || (r =? 0))%bool
  then Heap.kfree s ra;; Heap.kfree w ra;; Heap.kfree r ra;; mret None
  else mret (Some (s, w, r)).

(** The initialisation of the shared state in zeroed memory: [l] is its lock
    with condition [c]. *)
Definition create_pipe_init (l c ne nf : nat) : M ks pipe_state :=
  lock_init l c;;
  condition_init ne;;
  condition_init nf;;
  mret (PipeState l ne nf true true 0 0 (replicate (Z.to_nat PIPE_BUF_SIZE) 0)).

(** ** The ring buffer as a queue of bytes *)

Record ring_ok (p : pipe_state) : Prop := {
  rg_len : length (buf p) = Z.to_nat PIPE_BUF_SIZE;
  rg_head : 0 ≤ head p < 2 ^ 16;
  rg_tail : 0 ≤ tail p < 2 ^ 16;
  rg_count : pipe_count p ≤ PIPE_BUF_SIZE
}.

Definition contents (p : pipe_state) : list Z := Ring.rcontents (2 ^ 16) PIPE_BUF_SIZE (buf p) (head p) (tail p).

Lemma pipe_sizes : 0 < PIPE_BUF_SIZE ∧ PIPE_BUF_SIZE < 2 ^ 16 ∧ (PIPE_BUF_SIZE | 2 ^ 16).
Proof. split_and!; [done|done|by exists 16]. Qed.

Lemma pop_ok p :
  ring_ok p → 0 < pipe_count p →
  ring_ok (with_head p (u16 (head p + 1))) ∧ pipe_count (with_head p (u16 (head p + 1))) = pipe_count p - 1 ∧
  contents p = getb 0 (buf p) (head p mod PIPE_BUF_SIZE) :: contents (with_head p (u16 (head p + 1))).
Proof.
  destruct pipe_sizes as (HN & HNW & Hd). intros [Hl Hh Ht Hc] H0.
  assert (pipe_count (with_head p (u16 (head p + 1))) = pipe_count p - 1) as Hcnt by (by apply (Ring.rcount_pop _ PIPE_BUF_SIZE)).
  split_and!; [|done|by apply Ring.rcontents_pop]. split; try done; [by apply Z.mod_pos_bound|lia].
Qed.

Lemma push_ok p b :
  ring_ok p → pipe_count p < PIPE_BUF_SIZE →
  let p' := with_tail_buf p (u16 (tail p + 1)) (setb (tail p mod PIPE_BUF_SIZE) b (buf p)) in
  ring_ok p' ∧ pipe_count p' = pipe_count p + 1 ∧ contents p' = contents p ++ [b].
Proof.
  destruct pipe_sizes as (HN & HNW & Hd). intros [Hl Hh Ht Hc] Hlt p'.
  assert (pipe_count p' = pipe_count p + 1) as Hcnt by (by apply (Ring.rcount_push _ PIPE_BUF_SIZE)).
  split_and!; [|done|by apply Ring.rcontents_push].
  split; simpl; [by rewrite length_setb|done|by apply Z.mod_pos_bound|]. fold p'. lia.
Qed.

Definition same_shape (p p' : pipe_state) : Prop :=
  plock p' = plock p ∧ not_empty p' = not_empty p ∧ not_full p' = not_full p ∧
  write_open p' = write_open p ∧ read_open p' = read_open p.

Lemma length_contents p : ring_ok p → length (contents p) = Z.to_nat (pipe_count p).
Proof. intros _. apply Ring.length_rcontents. Qed.

Lemma take_bytes_ok n : ∀ p, ring_ok p →
  let '(out, p') := take_bytes n p in
  ring_ok p' ∧ same_shape p p' ∧ out = take n (contents p) ∧ contents p' = drop n (contents p).
Proof.
  induction n as [|n IH]; intros p Hp; cbn [take_bytes]; [by rewrite take_0, drop_0|].
  destruct (Z.ltb_spec 0 (pipe_count p)) as [H0|H0].
  - destruct (pop_ok p Hp H0) as (Hp1 & _ & ->). specialize (IH _ Hp1).
    destruct (take_bytes n _) as [out p']. destruct IH as (? & ? & -> & ->). done.
  - assert (contents p = []) as ->; [|by rewrite take_nil, drop_nil].
    apply length_zero_iff_nil. rewrite (length_contents p Hp). lia.
Qed.

Definition room (p : pipe_state) : nat := Z.to_nat (PIPE_BUF_SIZE - pipe_count p).

Lemma put_bytes_ok inp : ∀ p, ring_ok p →
  let '(rest, p') := put_bytes inp p in
  ring_ok p' ∧ same_shape p p' ∧ rest = drop (room p) inp ∧ contents p' = contents p ++ take (room p) inp ∧
  room p' = (room p - length inp)%nat.
Proof.
  induction inp as [|b inp IH]; intros p Hp; cbn [put_bytes].
  - rewrite drop_nil, take_nil, app_nil_r. split_and!; try done. simpl. lia.
  - pose proof (rg_count p Hp) as Hc. destruct (Z.ltb_spec (pipe_count p) PIPE_BUF_SIZE) as [H0|H0].
    + destruct (push_ok p b Hp H0) as (Hp1 & Hc1 & Hcon). specialize (IH _ Hp1).
      set (p1 := with_tail_buf _ _ _) in *.
      assert (room p = S (room p1)) as Hr by (unfold room; rewrite Hc1; lia). rewrite Hr.
      destruct (put_bytes inp p1) as [rest p']. destruct IH as (H1 & H2 & -> & -> & H3). rewrite Hcon, <- app_assoc. simpl.
      split_and!; try done.
    + assert (room p = O) as -> by (unfold room; lia). by rewrite drop_0, take_0, app_nil_r.
Qed.

(** ** Calls that do not block *)

Lemma on_kern_run {A} (m : M ks A) s a k : m (kern s) = (Ret a, k) → on_kern m s = (Ret a, PSys k (pipe s)).
Proof. intros E. unfold on_kern. by rewrite E. Qed.

(** C32. [pipe_read] on a pipe that has data, or whose writer is gone, takes the
    oldest bytes, as many as the buffer holds, in order and without losing
    one, across every wrap of the 16-bit positions; 0 bytes (end of file) only
    when the pipe is empty; the lock is free again. *)
Theorem pipe_read_fifo s bufsz :
  unlocked (kern s) (plock (pipe s)) → ring_ok (pipe s) → 0 < bufsz → contents (pipe s) ≠ [] ∨ write_open (pipe s) = false →
  ∃ s' out, pipe_read false bufsz s = (Ret (Done (Z.of_nat (length out)) out), s') ∧
    out = take (Z.to_nat bufsz) (contents (pipe s)) ∧ contents (pipe s') = drop (Z.to_nat bufsz) (contents (pipe s)) ∧
    ring_ok (pipe s') ∧ same_shape (pipe s) (pipe s') ∧ unlocked (kern s') (plock (pipe s')) ∧ TP (kern s') = TP (kern s).
Proof.
  intros Hun Hring Hsz Hdata. unfold pipe_read. kgets. rewrite (proj2 (Z.leb_gt bufsz 0)) by lia. cbv iota.
  destruct (enter_ok _ _ Hun) as (k1 & Hacq & Hent & Htp1). krun (on_kern_run _ s _ _ Hacq). cbv iota.
  unfold pipe_read_loop. kgets. cbn [pipe].
  assert (((pipe_count (pipe s) =? 0) && write_open (pipe s))%bool = false) as ->.
  { destruct Hdata as [Hd| ->]; [|by rewrite andb_false_r]. rewrite (proj2 (Z.eqb_neq _ _)); [done|]. intros E. apply Hd.
    apply length_zero_iff_nil. rewrite (length_contents _ Hring), E. done. }
  pose proof (take_bytes_ok (Z.to_nat bufsz) (pipe s) Hring) as Htk. destruct (take_bytes _ _) as [out p'].
  destruct Htk as (Hring' & Hsh & Hout & Hcon). pose proof Hsh as (Hlk & _ & Hnf & _). unfold put_pipe. kmodify. cbn [kern].
  rewrite Hlk.
  assert (∃ k2, (if 0 <? Z.of_nat (length out) then on_kern (condition_broadcast (not_full p')) else mret tt) (PSys k1 p') = (Ret tt, PSys k2 p')
     ∧ entered k2 (plock (pipe s)) ∧ TP k2 = TP k1) as (k2 & Hbc & Hent2 & Htp2).
  { destruct (0 <? _); [|by exists k1]. destruct (entered_broadcast k1 _ (not_full p') Hent) as (k2 & Hb & ? & ?).
    exists k2. by rewrite (on_kern_run _ (PSys k1 p') _ _ Hb). }
  krun Hbc. destruct (leave_ok _ _ Hent2) as (k3 & Hrel & Hun3 & Htp3). krun (on_kern_run _ (PSys k2 p') _ _ Hrel).
  exists (PSys k3 p'), out. cbn [pipe kern]. rewrite Hlk. split_and!; try done. congruence.
Qed.

(** C33. [pipe_write] of data that fits, with the reader open, appends exactly
    the [len] bytes of the caller's buffer and returns [len]; the lock is free
    again. *)
Theorem pipe_write_fifo s inp len :
  unlocked (kern s) (plock (pipe s)) → ring_ok (pipe s) → read_open (pipe s) = true →
  0 < len ≤ Z.of_nat (length inp) → Z.of_nat (length (contents (pipe s))) + len ≤ PIPE_BUF_SIZE →
  ∃ s', pipe_write true inp len s = (Ret (Done len []), s') ∧
    contents (pipe s') = contents (pipe s) ++ take (Z.to_nat len) inp ∧
    ring_ok (pipe s') ∧ same_shape (pipe s) (pipe s') ∧ unlocked (kern s') (plock (pipe s')) ∧ TP (kern s') = TP (kern s).
Proof.
  intros Hun Hring Hro Hlen Hfit. rewrite (length_contents _ Hring) in Hfit.
  assert (0 ≤ pipe_count (pipe s)) as Hge by (by apply Z.mod_pos_bound).
  unfold pipe_write. kgets. cbv iota delta [negb]. rewrite (proj2 (Z.leb_gt len 0)) by lia.
  destruct (enter_ok _ _ Hun) as (k1 & Hacq & Hent & Htp1). krun (on_kern_run _ s _ _ Hacq). cbv iota.
  set (data := take (Z.to_nat len) inp). assert (length data = Z.to_nat len) as Hd by (apply length_take_le; lia).
  cbn [pipe_write_loop]. kgets. cbn [pipe]. destruct data as [|b0 data0] eqn:Ed; [simpl in Hd; lia|]. rewrite <- Ed in *.
  rewrite (proj2 (Z.eqb_neq (pipe_count (pipe s)) PIPE_BUF_SIZE)) by lia. rewrite Hro. cbv iota delta [andb negb].
  pose proof (put_bytes_ok data (pipe s) Hring) as Hput. destruct (put_bytes _ _) as [rest p'].
  destruct Hput as (Hring' & Hsh & Hrest & Hcon & _). pose proof Hsh as (Hlk & _).
  assert (length data ≤ room (pipe s))%nat as Hroom by (unfold room; lia).
  rewrite drop_ge in Hrest by lia. rewrite take_ge in Hcon by lia. subst rest. unfold put_pipe. kmodify. cbn [kern].
  destruct (entered_broadcast k1 _ (not_empty p') Hent) as (k2 & Hb & Hent2 & Htp2). krun (on_kern_run _ (PSys k1 p') _ _ Hb).
  kgets. cbn [pipe kern length]. rewrite Hlk. destruct (leave_ok _ _ Hent2) as (k3 & Hrel & Hun3 & Htp3).
  krun (on_kern_run _ (PSys k2 p') _ _ Hrel). exists (PSys k3 p'). cbn [pipe kern]. rewrite Hlk, Z.sub_0_r.
  split_and!; try done. congruence.
Qed.

(** ** A reader that finds the pipe empty *)

(** Thread [r] waits for data and owns the lock. *)
Definition stuck (r : nat) s : Prop :=
  sys (kern s) ∧ (∃ x, locks (kern s) !! plock (pipe s) = Some x ∧ owner x = Some r) ∧
  member (kern s) (Cond (not_empty (pipe s))) r.

(** The operations on the pipe, and giving up the processor. *)
Inductive pstep : psys → psys → Prop :=
  | p_read s bufsz s' r : 0 < bufsz → TP (kern s) ≠ idle_thread → pipe_read false bufsz s = (Ret r, s') → pstep s s'
  | p_write s inp len s' r : 0 < len → TP (kern s) ≠ idle_thread → pipe_write true inp len s = (Ret r, s') → pstep s s'
  | p_close s w s' r : TP (kern s) ≠ idle_thread → pipe_close w s = (Ret r, s') → pstep s s'
  | p_yield s s' : on_kern thread_yield s = (Ret tt, s') → pstep s s'.

Lemma stuck_member q k c r q' k' : inv k q → inv k' q' → (∀ x, x ∈ q (Cond c) → x ∈ q' (Cond c)) → member k (Cond c) r → member k' (Cond c) r.
Proof. intros H1 H2 Hq Hm. apply (inv_agree k' q' H2), Hq, (inv_agree k q H1), Hm. Qed.

(** Whoever else enters the pipe waits for the lock. *)
Lemma stuck_acquire r s :
  stuck r s → TP (kern s) ≠ idle_thread →
  ∃ k', on_kern (lock_acquire (plock (pipe s))) s = (Ret false, PSys k' (pipe s)) ∧ stuck r (PSys k' (pipe s)).
Proof.
  intros (Hsys & (x & Hx & Ho) & Hm) Hni. pose proof Hsys as (q & h & Hinv & Hh & _).
  assert (r ≠ TP (kern s)) as Hne.
  { intros ->. destruct Hm as (t & Ht & Hl). unfold loc in Hl. by rewrite (proj2 (inv_self _ q Hinv _ _ Ht) eq_refl) in Hl. }
  destruct (lock_acquire_blocks (kern s) q h _ x r Hinv Hh Hni Hx Ho Hne) as (k' & y & l & Hrun & _ & _ & Hi & Hids).
  exists k'. split; [by apply on_kern_run|]. split_and!; [by eapply sys_ids|cbn [kern pipe]; rewrite (si_locks _ _ Hids); by exists x|].
  eapply (stuck_member q (kern s)); [done|exact Hi| |exact Hm]. intros z Hz. unfold qset. rewrite decide_False by done.
  case_decide as E; [|done]. rewrite <- E. apply elem_of_app. by left.
Qed.

Lemma stuck_step r s s' : stuck r s → pstep s s' → stuck r s' ∧ pipe s' = pipe s.
Proof.
  intros Hst Hstep. destruct Hstep as [s bufsz s' res Hb Hni Hrun|s inp len s' res Hb Hni Hrun|s w s' res Hni Hrun|s s' Hrun].
  - destruct (stuck_acquire r s Hst Hni) as (k' & Hacq & Hst'). revert Hrun. unfold pipe_read. kgets.
    rewrite (proj2 (Z.leb_gt bufsz 0)) by lia. cbv iota. krun Hacq. by intros [= _ <-].
  - destruct (stuck_acquire r s Hst Hni) as (k' & Hacq & Hst'). revert Hrun. unfold pipe_write. kgets. cbv iota delta [negb].
    rewrite (proj2 (Z.leb_gt len 0)) by lia. krun Hacq. by intros [= _ <-].
  - destruct (stuck_acquire r s Hst Hni) as (k' & Hacq & Hst'). revert Hrun. unfold pipe_close. kgets. krun Hacq. by intros [= _ <-].
  - destruct Hst as (Hsys & Hlk & Hm). pose proof Hsys as (q & h & Hinv & _).
    destruct (thread_yield_ok (kern s) q Hinv) as (k' & x & l & t & Hy & _ & _ & Hi & Hids & _).
    rewrite (on_kern_run _ s _ _ Hy) in Hrun. injection Hrun as <-. split; [|done].
    split_and!; [by eapply sys_ids|cbn [kern pipe]; by rewrite (si_locks _ _ Hids)|].
    eapply (stuck_member q (kern s)); [done|exact Hi| |exact Hm]. intros z Hz. unfold qset. by rewrite decide_False by done.
Qed.

Lemma stuck_rtc r s s' : rtc pstep s s' → stuck r s → pipe s' = pipe s ∧ stuck r s'.
Proof.
  induction 1 as [|s1 s2 s3 Hstep _ IH]; [done|]. intros Hst. destruct (stuck_step _ _ _ Hst Hstep) as [Hst2 E].
  destruct (IH Hst2) as [-> ?]. done.
Qed.

(** A reader that arrives at an empty open pipe blocks for ever and the
    pipe with it: [pipe_read] waits on [not_empty] without giving up the lock,
    so every later read, write or close, by any thread in any order, only waits
    for the lock; no byte is ever written and the reader is never woken. *)
Lemma empty_pipe_deadlock s bufsz :
  unlocked (kern s) (plock (pipe s)) → TP (kern s) ≠ idle_thread → 0 < bufsz → pipe_count (pipe s) = 0 → write_open (pipe s) = true →
  ∃ s1, pipe_read false bufsz s = (Ret (CondWait []), s1) ∧
    ∀ s2, rtc pstep s1 s2 → pipe s2 = pipe s ∧ stuck (TP (kern s)) s2.
Proof.
  intros Hun Hni Hsz Hc Hw. unfold pipe_read. kgets. rewrite (proj2 (Z.leb_gt bufsz 0)) by lia. cbv iota.
  destruct (enter_ok _ _ Hun) as (k1 & Hacq & [Hsys1 (x & Hx & Ho & _)] & Htp1). krun (on_kern_run _ s _ _ Hacq). cbv iota.
  unfold pipe_read_loop. kgets. cbn [pipe kern]. rewrite Hc, Hw. cbv iota beta delta [andb]. rewrite Z.eqb_refl.
  pose proof Hsys1 as (q & h & Hinv & _). rewrite <- Htp1 in *.
  destruct (condition_wait_ok k1 q (not_empty (pipe s)) Hinv Hni) as (k2 & y & l & Hrun & _ & _ & Hi & Hids).
  krun (on_kern_run _ (PSys k1 (pipe s)) _ _ Hrun). eexists. split; [reflexivity|]. intros s2 Hr.
  assert (stuck (TP k1) (PSys k2 (pipe s))) as Hst.
  { split_and!; [by eapply sys_ids|cbn [kern pipe]; rewrite (si_locks _ _ Hids); by exists x|].
    apply (inv_agree _ _ Hi). unfold qset. rewrite decide_False, decide_True by done. apply elem_of_app. right. by left. }
  by apply (stuck_rtc _ (PSys k2 (pipe s)) s2).
Qed.

(** [create_pipe] cannot succeed: [struct pipe_state] holds a buffer of
    4096 bytes and is larger than HEAP_ALLOC_MAX, so the assertion in the
    first [kcalloc] halts the kernel, whatever the state of the heap. *)
Lemma create_pipe_halts `{PageSource St} (h : Heap.heap (St := St)) ra : create_pipe_alloc ra h = (Panic, h).
Proof.
  unfold create_pipe_alloc, mbind, M_bind. rewrite Heap.kcalloc_too_large; [done|]. unfold Heap.HEAP_ALLOC_MAX, SIZEOF_PIPE_STATE. lia.
Qed.

(** ** Concrete runs *)

(** A pipe whose read position is about to wrap, with [n] bytes in it. *)
Definition demo_buf : list Z := 9 :: replicate 4093 0 ++ [7; 8].
Definition demo_sys (n : nat) : psys :=
  PSys (run_ops [OLockInit 0 10] (initial 0 1)) (PipeState 0 20 21 true true 65534 (u16 (65534 + Z.of_nat n)) demo_buf).

Lemma demo_unlocked n : unlocked (kern (demo_sys n)) (plock (pipe (demo_sys n))).
Proof.
  split; [|by exists (Lock 10 None 0 None)].
  apply (reachable_sys 0 1), reach_op; [apply rtc_refl|split; [by vm_compute|by apply unusedb_ok; vm_compute]|by vm_compute].
Qed.

Lemma demo_ring n : (n ≤ 4096)%nat → ring_ok (pipe (demo_sys n)).
Proof.
  intros Hn. split; simpl.
  - by vm_compute.
  - lia.
  - by apply Z.mod_pos_bound.
  - unfold pipe_count. simpl. unfold u16, PIPE_BUF_SIZE. change (2 ^ 16) with 65536. Z.div_mod_to_equations. lia.
Qed.

Lemma demo_contents : contents (pipe (demo_sys 3)) = [7; 8; 9].
Proof. vm_compute. reflexivity. Qed.

Lemma pipe_read_fifo_witness :
  ∃ s' out, pipe_read false 2 (demo_sys 3) = (Ret (Done (Z.of_nat (length out)) out), s') ∧
    out = take 2 (contents (pipe (demo_sys 3))) ∧ contents (pipe s') = drop 2 (contents (pipe (demo_sys 3))) ∧
    ring_ok (pipe s') ∧ same_shape (pipe (demo_sys 3)) (pipe s') ∧ unlocked (kern s') (plock (pipe s')) ∧
    TP (kern s') = TP (kern (demo_sys 3)).
Proof.
  apply (pipe_read_fifo (demo_sys 3) 2 (demo_unlocked 3) (demo_ring 3 ltac:(lia))); [lia|]. left. by rewrite demo_contents.
Defined.

Lemma pipe_write_fifo_witness :
  ∃ s', pipe_write true [1; 2; 3] 2 (demo_sys 3) = (Ret (Done 2 []), s') ∧
    contents (pipe s') = contents (pipe (demo_sys 3)) ++ [1; 2] ∧ ring_ok (pipe s') ∧
    same_shape (pipe (demo_sys 3)) (pipe s') ∧ unlocked (kern s') (plock (pipe s')) ∧ TP (kern s') = TP (kern (demo_sys 3)).
Proof.
  apply (pipe_write_fifo (demo_sys 3) [1; 2; 3] 2 (demo_unlocked 3) (demo_ring 3 ltac:(lia)) eq_refl).
  - simpl. lia.
  - rewrite demo_contents. unfold PIPE_BUF_SIZE. simpl. lia.
Defined.

Lemma empty_pipe_deadlock_witness :
  ∃ s1, pipe_read false 5 (demo_sys 0) = (Ret (CondWait []), s1) ∧
    ∀ s2, rtc pstep s1 s2 → pipe s2 = pipe (demo_sys 0) ∧ stuck (TP (kern (demo_sys 0))) s2.
Proof.
  apply (empty_pipe_deadlock (demo_sys 0) 5 (demo_unlocked 0)); [by vm_compute|lia|by vm_compute|done].
Defined.

End Pipe.
