(* ===== verification/Strings.v ===== *)
(** * String and memory functions, formatted output (kernel/string.c)

    A [char *] is the list of the characters from the one it points to up to
    the terminating NUL, which is not in the list; NULL is [None].  Characters
    are unsigned, as on RISC-V.  A [putcfn] with its [aux] is a function that
    updates a state, so that [vgprintf] is modelled for every such function.  A
    [va_list] is the list of the remaining arguments: 64-bit registers, or
    pointers to strings. *)

From Stdlib Require Ascii String.
From S2P Require Import Prelude Config.

Module Str.

Definition cstr := list Z.
Implicit Types (s p : cstr) (c : Z) (n : nat).

(** The characters of a literal. *)
Definition chars (x : String.string) : cstr :=
  (λ a, Z.of_nat (Ascii.nat_of_ascii a)) <$> String.list_ascii_of_string x.

(** [*s] *)
Definition deref s : Z := match s with [] => 0 | c :: _ => c end.

(** ** Comparing and searching *)

Fixpoint strcmp_loop s1 s2 : Z :=
  match s1, s2 with
  | c1 :: r1, c2 :: r2 => if c1 =? c2 then strcmp_loop r1 r2 else if c1 <? c2 then -1 else 1
  | _, _ => if deref s1 <? deref s2 then -1 else if deref s2 <? deref s1 then 1 else 0
  end.

Definition strcmp (s1 s2 : option cstr) : Z :=
  match s1, s2 with
  | None, None => 0
  | None, Some _ => -1
  | Some _, None => 1
  | Some s1, Some s2 => strcmp_loop s1 s2
  end.

Fixpoint strncmp s1 s2 n : Z :=
  match n with
  | O => 0
  | S n =>
      match s1, s2 with
      | c1 :: r1, c2 :: r2 => if c1 =? c2 then strncmp r1 r2 n else s32 (u32 (c1 - c2))
      | _, _ => s32 (u32 (deref s1 - deref s2))
      end
  end.

Definition strlen (s : option cstr) : Z := match s with None => 0 | Some s => Z.of_nat (length s) end.

(** The bytes at [dst] after [strncpy]; [dst] is the memory from the
    destination on. *)
Fixpoint strncpy (dst : list Z) s n : list Z :=
  match n, dst with
  | O, _ => dst
  | S n, d :: dst' =>
      match s with
      | [] => 0 :: dst'
      | c :: s => c :: strncpy dst' s n
      end
  | S _, [] => []
  end.

(** The position of the character found, as what is left of the string. *)
Fixpoint strchr s c : option cstr :=
  match s with
  | [] => None
  | x :: r => if x =? c then Some s else strchr r c
  end.

Fixpoint strrchr_loop s c (p : option cstr) : option cstr :=
  match s with
  | [] => p
  | x :: r => strrchr_loop r c (if x =? c then Some s else p)
  end.
Definition strrchr s c : option cstr := strrchr_loop s c None.

(** ** Memory: the bytes from the pointer on *)

Fixpoint memset (m : list Z) (c : Z) n : list Z :=
  match n, m with
  | S n, _ :: m => u8 c :: memset m c n
  | _, _ => m
  end.

Fixpoint memcpy (dst src : list Z) n : list Z :=
  match n, dst, src with
  | S n, _ :: dst, b :: src => b :: memcpy dst src n
  | _, _, _ => dst
  end.

Fixpoint memcmp (u v : list Z) n : Z :=
  match n, u, v with
  | S n, a :: u, b :: v => if a =? b then memcmp u v n else a - b
  | _, _, _ => 0
  end.

(** ** Reading numbers *)

Fixpoint strtoul_loop (base : Z) s (val : Z) : Z * cstr :=
  match s with
  | [] => (val, [])
  | c :: r => if ((c <? 48) || (48 + base <=? c))%bool then (val, s)
              else strtoul_loop base r (u64 (u64 (val * base) + (c - 48)))
  end.

(** The result and [*endptr]. *)
Definition strtoul (str : option cstr) (base : Z) : Z * option cstr :=
  match str with
  | None => (2 ^ 64 - 1, None)
  | Some s =>
      if ((base <=? 1) || (10 <? base))%bool then (2 ^ 64 - 1, None)
      else
        let '(neg, s) :=
          if deref s =? 45 then (true, list.tail s)
          else if deref s =? 43 then (false, list.tail s)
          else (false, s) in
        let '(val, e) := strtoul_loop base s 0 in
        ((if (neg : bool) then u64 (- val) else val), Some e)
  end.

(** ** Formatted output *)

Inductive va := VReg (z : Z) | VPtr (s : option cstr).

Section printf.
Context {St : Type} (putcfn : Z → St → St).
Implicit Types (aux : St).

Definition digit_char (d : Z) : Z := if d <? 10 then 48 + d else 97 + d - 10.

(** The [do]-[while] loop: the characters of [val] in front of [acc].  40
    characters hold a 64-bit number in any base from 2^2 on. *)
Fixpoint int_chars (fuel : nat) (val base : Z) (acc : list Z) : list Z :=
  match fuel with
  | O => acc
  | S fuel =>
      let d := val mod base in
      let val := val / base in
      let acc := digit_char d :: acc in
      if negb (val =? 0) then int_chars fuel val base acc else acc
  end.

Fixpoint repeat_putc (n : nat) (c : Z) aux : St :=
  match n with O => aux | S n => repeat_putc n c (putcfn c aux) end.

Fixpoint put_all (cs : list Z) aux : St :=
  match cs with [] => aux | c :: cs => put_all cs (putcfn c aux) end.

(** The number of characters written, and the new state. *)
Definition format_int (val base : Z) (zpad : bool) (len : Z) aux : Z * St :=
  let buf := int_chars 40 val base [] in
  let n := Z.of_nat (length buf) in
  let pad := Z.to_nat (len - n) in
  let aux := repeat_putc pad (if zpad then 48 else 32) aux in
  (Z.of_nat pad + n, put_all buf aux).

Definition null_text : cstr := [40; 110; 117; 108; 108; 41].

Definition format_str (s : option cstr) (len : Z) aux : Z * St :=
  let s := default null_text s in
  let aux := put_all s aux in
  let nout := Z.of_nat (length s) in
  if nout <? len then (nout + (len - nout), repeat_putc (Z.to_nat (len - nout)) 32 aux) else (nout, aux).

Definition format_char (c len : Z) aux : Z * St :=
  let len := if len <=? 0 then 1 else len in
  let aux := repeat_putc (Z.to_nat (len - 1)) 32 aux in
  (len, putcfn (u8 c) aux).

(** The width: digits, read modulo 2^32. *)
Fixpoint width (p : cstr) (len : Z) : Z * cstr :=
  match p with
  | c :: r => if ((48 <=? c) && (c <=? 57))%bool then width r (u32 (10 * len + (c - 48))) else (len, p)
  | [] => (len, [])
  end.

Fixpoint count_l (p : cstr) (lcnt : Z) : Z * cstr :=
  match p with
  | c :: r => if c =? 108 then count_l r (u32 (lcnt + 1)) else (lcnt, p)
  | [] => (lcnt, [])
  end.

(** The length prefix: [l]s, or [z] or [j], which count as two as [size_t] and
    [intmax_t] are as wide as [long long]. *)
Definition prefix (p : cstr) : Z * cstr :=
  let '(lcnt, p) := count_l p 0 in
  match p with
  | c :: r => if (c =? 122) || (c =? 106) then (2, r) else (lcnt, p)
  | [] => (lcnt, p)
  end.

(** [va_arg] for an integer: of type int or unsigned int, or 64 bits wide. *)
Definition arg_reg (ap : list va) : option (Z * list va) :=
  match ap with VReg z :: ap => Some (z, ap) | _ => None end.
Definition arg_ptr (ap : list va) : option (option cstr * list va) :=
  match ap with VPtr s :: ap => Some (s, ap) | _ => None end.

(** The conversion at [p], behind width and prefix: what is left of the
    format behind it, the arguments left, the number of characters and the new
    state.  [None] when the arguments are not those the format asks for. *)
Definition convert (zpad : bool) (len lcnt : Z) (p : cstr) (ap : list va) aux
  : option (cstr * list va * Z * St) :=
  let c := deref p in
  let next := list.tail p in
  if ((c =? 100) || (c =? 105))%bool then (* d, i *)
    '(z, ap) ← arg_reg ap;
    let ival := if 0 <? lcnt then s64 z else s32 z in
    if ival <? 0 then
      let aux := putcfn 45 aux in
      let len := if 0 <? len then len - 1 else len in
      let '(n, aux) := format_int (u64 (- ival)) 10 zpad len aux in
      Some (next, ap, 1 + n, aux)
    else
      let '(n, aux) := format_int (u64 ival) 10 zpad len aux in
      Some (next, ap, n, aux)
  else if ((c =? 117) || (c =? 120))%bool then (* u, x *)
    '(z, ap) ← arg_reg ap;
    let ival := if 0 <? lcnt then u64 z else u32 z in
    let base := if c =? 120 then 16 else 10 in
    let '(n, aux) := format_int ival base zpad len aux in
    Some (next, ap, n, aux)
  else if c =? 115 then (* s *)
    '(s, ap) ← arg_ptr ap;
    let '(n, aux) := format_str s len aux in
    Some (next, ap, n, aux)
  else if c =? 99 then (* c *)
    '(z, ap) ← arg_reg ap;
    let '(n, aux) := format_char z len aux in
    Some (next, ap, n, aux)
  else if c =? 112 then (* p *)
    '(z, ap) ← arg_reg ap;
    let '(n1, aux) := format_str (Some [48; 120]) 2 aux in
    let '(n2, aux) := format_int (u64 z) 16 zpad len aux in
    Some (next, ap, n1 + n2, aux)
  else
    let aux := putcfn 37 aux in
    let aux := putcfn (if ((c <? 32) || (127 <=? c))%bool then 63 else c) aux in
    Some (next, ap, 2, aux).

(** Every pass consumes a character of the format. *)
Fixpoint vgprintf_loop (fuel : nat) (p : cstr) (ap : list va) (nout : Z) aux : option (outcome (Z * St)) :=
  match fuel with
  | O => Some NoFuel
  | S fuel =>
      match p with
      | [] => Some (Ret (nout, aux))
      | c :: r =>
          if c =? 37 then
            let zpad := deref r =? 48 in
            let '(len, p) := width r 0 in
            let '(lcnt, p) := prefix p in
            '(p, ap, n, aux) ← convert zpad len lcnt p ap aux;
            vgprintf_loop fuel p ap (u64 (nout + n)) aux
          else vgprintf_loop fuel r ap (u64 (nout + 1)) (putcfn c aux)
      end
  end.

Definition vgprintf (fmt : cstr) (ap : list va) aux : option (outcome (Z * St)) :=
  vgprintf_loop (S (length fmt)) fmt ap 0 aux.
End printf.

(** ** Output to a buffer *)

(** [struct vsnprintf_state]: [pos] as the offset in the buffer, whose bytes
    are part of the state. *)
Record vsnprintf_state := VState { vbuf : list Z; pos : nat; rem : Z }.

Definition vsnprintf_putc (c : Z) (st : vsnprintf_state) : vsnprintf_state :=
  if rem st <=? 1 then st
  else VState (<[pos st := c]> (vbuf st)) (S (pos st)) (rem st - 1).

(** The number returned and the buffer. *)
Definition vsnprintf (buf : list Z) (bufsz : Z) (fmt : cstr) (ap : list va) : option (outcome (Z * list Z)) :=
  match vgprintf vsnprintf_putc fmt ap (VState buf O bufsz) with
  | Some (Ret (n, st)) =>
      Some (Ret (n, if negb (rem st =? 0) then <[pos st := 0]> (vbuf st) else vbuf st))
  | Some NoFuel => Some NoFuel
  | Some Panic => Some Panic
  | Some (Fail rc) => Some (Fail rc)
  | None => None
  end.

Definition snprintf := vsnprintf.

(** ** What is printed

    The text of a format, without the machinery of [putcfn]; Formats relates it
    to a specification of formats. *)

Definition int_text (val base : Z) (zpad : bool) (len : Z) : list Z :=
  let buf := int_chars 40 val base [] in
  replicate (Z.to_nat (len - Z.of_nat (length buf))) (if zpad then 48 else 32) ++ buf.
Definition str_text (s : option cstr) (len : Z) : list Z :=
  let s := default null_text s in s ++ replicate (Z.to_nat (len - Z.of_nat (length s))) 32.
Definition char_text (c len : Z) : list Z := replicate (Z.to_nat (len - 1)) 32 ++ [u8 c].

Definition convert_text (zpad : bool) (len lcnt : Z) (p : cstr) (ap : list va) : option (list va * list Z) :=
  let c := deref p in
  if ((c =? 100) || (c =? 105))%bool then
    '(z, ap) ← arg_reg ap;
    let ival := if 0 <? lcnt then s64 z else s32 z in
    Some (ap, if ival <? 0 then 45 :: int_text (- ival) 10 zpad (len - 1) else int_text ival 10 zpad len)
  else if ((c =? 117) || (c =? 120))%bool then
    '(z, ap) ← arg_reg ap;
    Some (ap, int_text (if 0 <? lcnt then u64 z else u32 z) (if c =? 120 then 16 else 10) zpad len)
  else if c =? 115 then '(s, ap) ← arg_ptr ap; Some (ap, str_text s len)
  else if c =? 99 then '(z, ap) ← arg_reg ap; Some (ap, char_text z len)
  else if c =? 112 then '(z, ap) ← arg_reg ap; Some (ap, [48; 120] ++ int_text (u64 z) 16 zpad len)
  else Some (ap, [37; if ((32 <=? c) && (c <? 127))%bool then c else 63]).

Fixpoint text (fuel : nat) (p : cstr) (ap : list va) : option (list Z) :=
  match fuel with
  | O => None
  | S fuel =>
      match p with
      | [] => Some []
      | c :: r =>
          if c =? 37 then
            let '(len, p) := width r 0 in
            let '(lcnt, p) := prefix p in
            '(ap, out) ← convert_text (deref r =? 48) len lcnt p ap;
            rest ← text fuel (list.tail p) ap;
            Some (out ++ rest)
          else rest ← text fuel r ap; Some (c :: rest)
      end
  end.

Definition printed (fmt : cstr) (ap : list va) : option (list Z) := text (S (length fmt)) fmt ap.

#[local] Arguments int_chars : simpl never.
#[local] Arguments int_text : simpl never.
#[local] Arguments str_text : simpl never.
#[local] Arguments char_text : simpl never.
#[local] Arguments u64 : simpl never.
#[local] Arguments Z.sub : simpl never.

Section printf_proofs.
Context {St : Type} (putcfn : Z → St → St).
Implicit Types (aux : St).

Lemma put_all_app l1 l2 aux : put_all putcfn (l1 ++ l2) aux = put_all putcfn l2 (put_all putcfn l1 aux).
Proof. revert aux. induction l1 as [|c l1 IH]; intros aux; [done|apply IH]. Qed.

Lemma repeat_putc_all n c aux : repeat_putc putcfn n c aux = put_all putcfn (replicate n c) aux.
Proof. revert aux. induction n as [|n IH]; intros aux; [done|apply IH]. Qed.

Lemma format_int_text val base zpad len aux :
  format_int putcfn val base zpad len aux =
  (Z.of_nat (length (int_text val base zpad len)), put_all putcfn (int_text val base zpad len) aux).
Proof.
  unfold format_int, int_text. rewrite put_all_app, repeat_putc_all, length_app, length_replicate. f_equal. lia.
Qed.

Lemma format_str_text (s : option cstr) len aux :
  format_str putcfn s len aux = (Z.of_nat (length (str_text s len)), put_all putcfn (str_text s len) aux).
Proof.
  unfold format_str, str_text. set (t := default null_text s). rewrite put_all_app, length_app, length_replicate.
  destruct (Z.ltb_spec (Z.of_nat (length t)) len).
  - rewrite repeat_putc_all. f_equal. lia.
  - replace (Z.to_nat (len - Z.of_nat (length t))) with O by lia. simpl. f_equal. lia.
Qed.

Lemma format_char_text c len aux :
  0 ≤ len → format_char putcfn c len aux = (Z.of_nat (length (char_text c len)), put_all putcfn (char_text c len) aux).
Proof.
  intros Hl. unfold format_char, char_text. rewrite put_all_app, repeat_putc_all, length_app, length_replicate. simpl.
  destruct (Z.leb_spec len 0); [assert (len = 0) as -> by lia; done|]. f_equal. lia.
Qed.

Lemma int_text_short val base zpad : int_text val base zpad 0 = int_text val base zpad (0 - 1).
Proof. unfold int_text. f_equal. f_equal. lia. Qed.

(** The conversions print their text. *)
Lemma convert_prints zpad len lcnt p ap aux :
  0 ≤ len →
  convert putcfn zpad len lcnt p ap aux =
  (λ '(ap, out), (list.tail p, ap, Z.of_nat (length out), put_all putcfn out aux)) <$> convert_text zpad len lcnt p ap.
Proof.
  intros Hl. unfold convert, convert_text. set (c := deref p).
  assert (∀ z, -2 ^ 63 ≤ z < 2 ^ 63 → (if z <? 0 then u64 (- z) = - z else u64 z = z)) as Hu.
  { intros z Hz. unfold u64. destruct (Z.ltb_spec z 0); apply Z.mod_small; lia. }
  destruct ((c =? 100) || (c =? 105))%bool; [|destruct ((c =? 117) || (c =? 120))%bool;
    [|destruct (c =? 115); [|destruct (c =? 99); [|destruct (c =? 112)]]]].
  - destruct (arg_reg ap) as [[z ap']|]; cbn [mbind option_bind fmap option_fmap option_map]; [|done]. set (ival := if 0 <? lcnt then s64 z else s32 z).
    assert (-2 ^ 63 ≤ ival < 2 ^ 63) as Hi.
    { pose proof (Z.mod_pos_bound (z + 2 ^ 63) (2 ^ 64) eq_refl). pose proof (Z.mod_pos_bound (z + 2 ^ 31) (2 ^ 32) eq_refl).
      unfold ival, s64, s32. destruct (0 <? lcnt); lia. }
    specialize (Hu ival Hi). destruct (Z.ltb_spec ival 0).
    + rewrite format_int_text, Hu. assert (int_text (- ival) 10 zpad (if 0 <? len then len - 1 else len) = int_text (- ival) 10 zpad (len - 1)) as ->.
      { destruct (Z.ltb_spec 0 len); [done|]. assert (len = 0) as -> by lia. by apply int_text_short. }
      cbn [length put_all]. do 2 f_equal. rewrite Nat2Z.inj_succ. f_equal. lia.
    + by rewrite format_int_text, Hu.
  - destruct (arg_reg ap) as [[z ap']|]; cbn [mbind option_bind fmap option_fmap option_map]; [|done]. by rewrite format_int_text.
  - destruct (arg_ptr ap) as [[s ap']|]; cbn [mbind option_bind fmap option_fmap option_map]; [|done]. by rewrite format_str_text.
  - destruct (arg_reg ap) as [[z ap']|]; cbn [mbind option_bind fmap option_fmap option_map]; [|done]. by rewrite format_char_text.
  - destruct (arg_reg ap) as [[z ap']|]; cbn [mbind option_bind fmap option_fmap option_map]; [|done]. rewrite format_str_text, format_int_text. simpl. do 3 f_equal. lia.
  - simpl. do 3 f_equal. destruct (Z.ltb_spec c 32), (Z.leb_spec 127 c), (Z.leb_spec 32 c), (Z.ltb_spec c 127); simpl; try done; lia.
Qed.

Lemma width_ok p : ∀ len, 0 ≤ len → 0 ≤ (width p len).1 ∧ (length (width p len).2 ≤ length p)%nat.
Proof.
  induction p as [|c p IH]; intros len Hl; cbn [width]; [done|]. destruct (_ && _)%bool; [|simpl; lia].
  destruct (IH (u32 (10 * len + (c - 48)))) as [H1 H2]; [by apply Z.mod_pos_bound|]. simpl. lia.
Qed.

Lemma count_l_ok p : ∀ n : Z, (length (count_l p n).2 ≤ length p)%nat.
Proof.
  induction p as [|c p IH]; intros n; cbn [count_l]; [done|]. destruct (c =? 108); [|done]. specialize (IH (u32 (n + 1))). simpl. lia.
Qed.

Lemma prefix_ok p : (length (prefix p).2 ≤ length p)%nat.
Proof.
  unfold prefix. pose proof (count_l_ok p 0) as H. destruct (count_l p 0) as [n [|c r]]; [done|].
  destruct (_ || _)%bool; simpl in *; lia.
Qed.

Lemma length_tail {A} (l : list A) : (length (list.tail l) ≤ length l)%nat.
Proof. destruct l; simpl; lia. Qed.

(** The loop prints the text of the format and counts it. *)
Lemma vgprintf_loop_text fuel : ∀ p ap nout aux,
  (length p < fuel)%nat → 0 ≤ nout < 2 ^ 64 →
  vgprintf_loop putcfn fuel p ap nout aux =
  (λ out, Ret (u64 (nout + Z.of_nat (length out)), put_all putcfn out aux)) <$> text fuel p ap.
Proof.
  induction fuel as [|fuel IH]; intros p ap nout aux Hf Hn; [lia|]. cbn [vgprintf_loop].
  assert (∀ a b, u64 (u64 a + b) = u64 (a + b)) as Hu by (intros; apply Zplus_mod_idemp_l).
  destruct p as [|c r]; [simpl; rewrite Z.add_0_r; unfold u64; by rewrite Z.mod_small|]. simpl in Hf.
  cbn [text].
  destruct (c =? 37).
  - pose proof (width_ok r 0 ltac:(lia)) as [Hw1 Hw2]. destruct (width r 0) as [len p1]. simpl in Hw1, Hw2.
    pose proof (prefix_ok p1) as Hp. destruct (prefix p1) as [lcnt p2]. simpl in Hp. rewrite convert_prints by done.
    destruct (convert_text _ _ _ _ _) as [[ap' out]|]; [|done]. cbn [fmap option_fmap option_map mbind option_bind].
    rewrite IH; [|pose proof (length_tail p2); lia|by apply Z.mod_pos_bound].
    destruct (text fuel (list.tail p2) ap') as [rest|]; [|done]. cbn [fmap option_fmap option_map mbind option_bind].
    rewrite Hu, put_all_app, length_app, Nat2Z.inj_add. by rewrite Z.add_assoc.
  - rewrite IH; [|lia|by apply Z.mod_pos_bound].
    destruct (text fuel r ap) as [rest|]; [|done]. cbn [fmap option_fmap option_map mbind option_bind put_all length].
    rewrite Hu. by replace (nout + 1 + Z.of_nat (length rest)) with (nout + Z.of_nat (S (length rest))) by lia.
Qed.

End printf_proofs.

(** [vgprintf] always ends, and for every output function it writes the same
    text, character by character in order, and returns its length: what is
    printed does not depend on where it goes.  What the text is for a format is
    in Formats. *)
Lemma vgprintf_text {St} (putcfn : Z → St → St) fmt ap aux :
  vgprintf putcfn fmt ap aux =
  (λ out, Ret (u64 (Z.of_nat (length out)), put_all putcfn out aux)) <$> printed fmt ap.
Proof. unfold vgprintf, printed. rewrite vgprintf_loop_text by lia. done. Qed.

(** ** Output to a bounded buffer *)

Lemma put_all_buf out : ∀ st,
  1 ≤ rem st → rem st = Z.of_nat (length (vbuf st)) - Z.of_nat (pos st) →
  let k := Nat.min (length out) (Z.to_nat (rem st - 1)) in
  put_all vsnprintf_putc out st =
  VState (take (pos st) (vbuf st) ++ take k out ++ drop (pos st + k) (vbuf st)) (pos st + k) (rem st - Z.of_nat k).
Proof.
  induction out as [|c out IH]; intros [b i r] Hr He; cbn [put_all length Nat.min vbuf pos rem] in *.
  - rewrite Nat.add_0_r, Z.sub_0_r, take_0. simpl. by rewrite take_drop.
  - unfold vsnprintf_putc at 2. cbn [rem vbuf pos]. destruct (Z.leb_spec r 1) as [Hr1|Hr1].
    + assert (r = 1) as -> by lia. rewrite IH by (simpl; lia). simpl. rewrite Nat.min_0_r, take_0. done.
    + rewrite IH; [|simpl; lia|cbn [vbuf pos rem]; rewrite length_insert; lia]. cbn [vbuf pos rem].
      replace (Z.to_nat (r - 1)) with (S (Z.to_nat (r - 1 - 1))) by lia.
      set (k := Nat.min (length out) (Z.to_nat (r - 1 - 1))). f_equal; [|lia|lia].
      rewrite firstn_cons. rewrite (take_S_r _ i c) by (apply list_lookup_insert_eq; lia).
      rewrite take_insert_ge, drop_insert_lt by lia. rewrite <- app_assoc. simpl. do 4 f_equal. lia.
Qed.

(** The buffer when all characters of the text were put and the NUL was stored. *)
Lemma put_all_terminated buf out :
  let st := put_all vsnprintf_putc out (VState buf O (Z.of_nat (length buf))) in
  (if negb (rem st =? 0) then <[pos st := 0]> (vbuf st) else vbuf st) =
  let k := Nat.min (length out) (length buf - 1) in take (length buf) (take k out ++ [0]) ++ drop (S k) buf.
Proof.
  destruct buf as [|b0 buf'] eqn:Eb.
  - assert (put_all vsnprintf_putc out (VState [] 0 (Z.of_nat (length (A:=Z) []))) = VState [] 0 0) as ->; [|done].
    clear. induction out as [|c out IH]; [done|apply IH].
  - rewrite <- Eb in *. assert (1 ≤ Z.of_nat (length buf)) as H1 by (rewrite Eb; simpl; lia).
    rewrite put_all_buf by (simpl; lia). cbn [rem vbuf pos]. rewrite Nat.add_0_l, take_0. cbn [app].
    replace (Z.to_nat (Z.of_nat (length buf) - 1)) with (length buf - 1)%nat by lia.
    set (k := Nat.min (length out) (length buf - 1)).
    cbv zeta. cbn [rem vbuf pos]. rewrite (proj2 (Z.eqb_neq _ _)) by lia. cbn [negb].
    assert (length (take k out) = k) as Hk by (rewrite length_take; lia).
    rewrite (take_ge (take k out ++ [0])) by (rewrite length_app, Hk; simpl; lia).
    rewrite insert_app_r_alt by lia. rewrite Hk, Nat.sub_diag, <- app_assoc. f_equal.
    destruct (drop k buf) as [|x d] eqn:Ed; [apply (f_equal length) in Ed; rewrite length_drop in Ed; simpl in Ed; lia|].
    simpl. f_equal. change d with (drop 1 (x :: d)). rewrite <- Ed, drop_drop. f_equal. lia.
Qed.

Lemma vsnprintf_run buf fmt ap out :
  printed fmt ap = Some out → Z.of_nat (length buf) < 2 ^ 64 →
  vsnprintf buf (Z.of_nat (length buf)) fmt ap =
  Some (Ret (u64 (Z.of_nat (length out)),
    let k := Nat.min (length out) (length buf - 1) in take (length buf) (take k out ++ [0]) ++ drop (S k) buf)).
Proof.
  intros Hp Hlen. unfold vsnprintf. unfold vgprintf, printed in *. rewrite vgprintf_loop_text by lia. rewrite Hp. cbn [fmap option_fmap option_map].
  rewrite Z.add_0_l. by rewrite put_all_terminated.
Qed.

(** [snprintf] into a buffer of [bufsz] bytes: the text, cut to [bufsz - 1]
    characters, and a NUL; the bytes behind the NUL keep their values, nothing
    outside the buffer is written, and the result is the length of the whole
    text.  A buffer of size 0 is not touched. *)
Lemma vsnprintf_truncates buf fmt ap out :
  printed fmt ap = Some out → Z.of_nat (length buf) < 2 ^ 64 →
  vsnprintf buf (Z.of_nat (length buf)) fmt ap =
  Some (Ret (u64 (Z.of_nat (length out)),
    let k := Nat.min (length out) (length buf - 1) in take (length buf) (take k out ++ [0]) ++ drop (S k) buf)).
Proof. apply vsnprintf_run. Qed.

(** ** Printing and reading numbers *)

Lemma int_chars_read fuel : ∀ val acc,
  0 ≤ val < 10 ^ Z.of_nat fuel → val < 2 ^ 64 → (0 < fuel)%nat →
  strtoul_loop 10 (int_chars fuel val 10 acc) 0 = strtoul_loop 10 acc val.
Proof.
  induction fuel as [|fuel IH]; intros val acc Hv H64 Hf; [lia|]. unfold int_chars; fold int_chars.
  assert (0 ≤ val mod 10 < 10) as Hd by (by apply Z.mod_pos_bound).
  assert (∀ q, q * 10 + val mod 10 = val → 0 ≤ q →
    strtoul_loop 10 (digit_char (val mod 10) :: acc) q = strtoul_loop 10 acc val) as Hstep.
  { intros q Hq Hq0. cbn [strtoul_loop]. unfold digit_char. rewrite (proj2 (Z.ltb_lt (val mod 10) 10)) by lia.
    rewrite (proj2 (Z.ltb_ge (48 + val mod 10) 48)), (proj2 (Z.leb_gt (48 + 10) (48 + val mod 10))) by lia. cbn [orb].
    f_equal. unfold u64. rewrite (Z.mod_small (q * 10)), Z.mod_small by lia. lia. }
  destruct (Z.eqb_spec (val / 10) 0) as [H0|H0]; cbn [negb].
  - apply Hstep; [|lia]. pose proof (Z.div_mod val 10). lia.
  - rewrite Nat2Z.inj_succ, Z.pow_succ_r in Hv by lia.
    assert (0 ≤ val / 10 < 10 ^ Z.of_nat fuel) as Hq by (split; [apply Z.div_pos; lia|apply Z.div_lt_upper_bound; lia]).
    rewrite IH; [|done| |].
    + apply Hstep; [|lia]. pose proof (Z.div_mod val 10). lia.
    + apply Z.div_lt_upper_bound; lia.
    + destruct fuel; [|lia]. simpl in Hq. lia.
Qed.

Lemma int_chars_head fuel : ∀ val acc,
  (0 < fuel)%nat → ∃ d r, int_chars fuel val 10 acc = d :: r ∧ 48 ≤ d < 58.
Proof.
  induction fuel as [|fuel IH]; intros val acc Hf; [lia|]. unfold int_chars; fold int_chars.
  assert (48 ≤ digit_char (val mod 10) < 58) as Hd.
  { unfold digit_char. pose proof (Z.mod_pos_bound val 10 ltac:(lia)). rewrite (proj2 (Z.ltb_lt (val mod 10) 10)) by lia. lia. }
  destruct (negb (val / 10 =? 0)); [|by eexists _, _].
  destruct fuel as [|fuel]; [by eexists _, _|]. apply IH. lia.
Qed.

Lemma strtoul_zeros n s : strtoul_loop 10 (replicate n 48 ++ s) 0 = strtoul_loop 10 s 0.
Proof. induction n as [|n IH]; [done|]. exact IH. Qed.

Lemma strtoul_int_text val len rest :
  0 ≤ val < 2 ^ 64 → deref rest < 48 ∨ 58 ≤ deref rest →
  strtoul (Some (int_text val 10 true len ++ rest)) 10 = (val, Some rest).
Proof.
  intros Hv Hr. unfold strtoul. cbn [Z.leb Z.ltb orb].
  assert (∃ d r, int_text val 10 true len ++ rest = d :: r ∧ 48 ≤ d < 58) as (d & r & E & Hd).
  { unfold int_text. destruct (int_chars_head 40 val [] ltac:(lia)) as (d & r & Eq & Hd). rewrite Eq.
    destruct (Z.to_nat _) as [|n]; [by eexists d, _|]. eexists 48, _. split; [done|lia]. }
  rewrite E. cbn [deref]. rewrite (proj2 (Z.eqb_neq d 45)), (proj2 (Z.eqb_neq d 43)) by lia. rewrite <- E.
  assert (strtoul_loop 10 (int_text val 10 true len ++ rest) 0 = (val, rest)) as ->; [|done].
  unfold int_text. rewrite <- app_assoc, strtoul_zeros.
  assert (int_chars 40 val 10 [] ++ rest = int_chars 40 val 10 rest) as ->.
  { generalize 40%nat val. intros fuel. change rest with ([] ++ rest) at 2. generalize (@nil Z).
    induction fuel as [|fuel IH]; intros acc v; [done|]. unfold int_chars; fold int_chars.
    destruct (negb _); [|done]. by rewrite IH. }
  rewrite int_chars_read by lia. destruct rest as [|c rest]; [done|]. cbn [strtoul_loop deref] in *.
  destruct (Z.ltb_spec c 48), (Z.leb_spec (48 + 10) c); try done. lia.
Qed.

(** ** Comparison *)

Definition is_cstr s : Prop := Forall (λ c, 0 < c < 256) s.

Lemma strcmp_loop_sym s1 : ∀ s2, strcmp_loop s2 s1 = - strcmp_loop s1 s2.
Proof.
  induction s1 as [|c1 s1 IH]; intros [|c2 s2]; cbn [strcmp_loop deref]; try done.
  - destruct (Z.ltb_spec c2 0), (Z.ltb_spec 0 c2); try done; lia.
  - destruct (Z.ltb_spec c1 0), (Z.ltb_spec 0 c1); try done; lia.
  - rewrite (Z.eqb_sym c2). destruct (Z.eqb_spec c1 c2); [apply IH|].
    destruct (Z.ltb_spec c1 c2), (Z.ltb_spec c2 c1); try done; lia.
Qed.

Lemma strcmp_loop_zero s1 : ∀ s2, is_cstr s1 → is_cstr s2 → strcmp_loop s1 s2 = 0 ↔ s1 = s2.
Proof.
  induction s1 as [|c1 s1 IH]; intros [|c2 s2] H1 H2; cbn [strcmp_loop deref]; try done.
  - apply Forall_cons in H2 as [? _]. rewrite (proj2 (Z.ltb_lt 0 c2)) by lia. done.
  - apply Forall_cons in H1 as [? _]. rewrite (proj2 (Z.ltb_lt 0 c1)), (proj2 (Z.ltb_ge c1 0)) by lia. done.
  - apply Forall_cons in H1 as [? H1]. apply Forall_cons in H2 as [? H2]. destruct (Z.eqb_spec c1 c2) as [->|Hne].
    + rewrite IH by done. split; congruence.
    + destruct (c1 <? c2); split; congruence.
Qed.

Lemma strcmp_loop_trans s1 : ∀ s2 s3, is_cstr s1 → is_cstr s2 → is_cstr s3 →
  strcmp_loop s1 s2 = -1 → strcmp_loop s2 s3 = -1 → strcmp_loop s1 s3 = -1.
Proof.
  induction s1 as [|c1 s1 IH]; intros [|c2 s2] [|c3 s3] H1 H2 H3; cbn [strcmp_loop deref]; try done;
    repeat match goal with H : is_cstr (_ :: _) |- _ => apply Forall_cons in H as [? ?] end.
  all: try (repeat match goal with |- context [?a <? ?b] => destruct (Z.ltb_spec a b) end; intros; congruence || lia).
  - destruct (Z.eqb_spec c1 c2), (Z.eqb_spec c2 c3), (Z.eqb_spec c1 c3); try lia; [by apply IH|..];
      destruct (Z.ltb_spec c1 c2), (Z.ltb_spec c2 c3), (Z.ltb_spec c1 c3); intros; congruence || lia.
Qed.

(** [strcmp] is a total order on strings with NULL below every string: it is
    0 exactly for equal strings, changes sign when its arguments are swapped,
    takes the values -1, 0, 1 and is transitive. *)
Lemma strcmp_total_order (a b c : option cstr) :
  from_option is_cstr True a → from_option is_cstr True b → from_option is_cstr True c →
  (strcmp a b = 0 ↔ a = b) ∧ strcmp b a = - strcmp a b ∧ strcmp a b ∈ [-1; 0; 1] ∧
  (strcmp a b = -1 → strcmp b c = -1 → strcmp a c = -1).
Proof.
  intros Ha Hb Hc. split_and!.
  - destruct a as [a|], b as [b|]; simpl in *; try done. rewrite strcmp_loop_zero by done. split; congruence.
  - destruct a as [a|], b as [b|]; simpl; try done. apply strcmp_loop_sym.
  - destruct a as [a|], b as [b|]; simpl; [|set_solver..]. clear.
    revert b. induction a as [|x a IH]; intros [|y b]; cbn [strcmp_loop deref]; repeat case_match; set_solver.
  - destruct a as [a|], b as [b|], c as [c|]; simpl in *; try done. by apply strcmp_loop_trans.
Qed.

(** The memory functions on ranges that lie inside their buffers: [memset]
    fills exactly [n] bytes, [memcpy] copies exactly [n] bytes, [memcmp] is 0
    exactly when the [n] bytes agree and otherwise the difference at the first
    byte that differs. *)
Lemma mem_functions_correct (m src : list Z) (v : Z) n :
  (n ≤ length m)%nat → (n ≤ length src)%nat →
  memset m v n = replicate n (u8 v) ++ drop n m ∧
  memcpy m src n = take n src ++ drop n m ∧
  (memcmp m src n = 0 ↔ take n m = take n src) ∧
  (∀ i a b, (i < n)%nat → m !! i = Some a → src !! i = Some b → a ≠ b → take i m = take i src → memcmp m src n = a - b).
Proof.
  intros Hm Hs. split_and!.
  - clear Hs. revert m Hm. induction n as [|n IH]; intros [|x m] Hm; simpl in *; try done; [lia|]. by rewrite IH by lia.
  - revert m src Hm Hs. induction n as [|n IH]; intros [|x m] [|y src] Hm Hs; simpl in *; try done; try lia. by rewrite IH by lia.
  - revert m src Hm Hs. induction n as [|n IH]; intros [|x m] [|y src] Hm Hs; simpl in *; try done; try lia.
    destruct (Z.eqb_spec x y) as [->|]; [rewrite IH by lia; split; congruence|]. split; [lia|congruence].
  - intros i a b. revert m src n Hm Hs. induction i as [|i IH]; intros [|x m] [|y src] [|n] Hm Hs Hi; simpl in *; try lia; try done.
    + intros [= ->] [= ->] Hne _. by rewrite (proj2 (Z.eqb_neq a b)).
    + intros Ha Hb Hne [= -> E]. rewrite Z.eqb_refl. apply (IH m src n); try done; lia.
Qed.

(** ** Concrete runs *)

(** "%04d%s" with -7 and "ab" *)
Definition demo_fmt : cstr := [37; 48; 52; 100; 37; 115].
Definition demo_args : list va := [VReg (2 ^ 64 - 7); VPtr (Some [97; 98])].

Lemma demo_printed : printed demo_fmt demo_args = Some [45; 48; 48; 55; 97; 98].
Proof. vm_compute. reflexivity. Qed.

Lemma vsnprintf_truncates_witness :
  vsnprintf [1; 2; 3; 4; 5] 5 demo_fmt demo_args = Some (Ret (6, [45; 48; 48; 55; 0])).
Proof. apply (vsnprintf_truncates [1; 2; 3; 4; 5] demo_fmt demo_args _ demo_printed). simpl. lia. Defined.

Lemma strcmp_total_order_witness :
  (strcmp None (Some [97]) = 0 ↔ None = Some [97]) ∧ strcmp (Some [97]) None = - strcmp None (Some [97]) ∧
  strcmp None (Some [97]) ∈ [-1; 0; 1] ∧
  (strcmp None (Some [97]) = -1 → strcmp (Some [97]) (Some [97; 98]) = -1 → strcmp None (Some [97; 98]) = -1).
Proof.
  apply (strcmp_total_order None (Some [97]) (Some [97; 98])); simpl; unfold is_cstr; repeat constructor; lia.
Defined.

End Str.
