(* ===== verification/Formats.v ===== *)
(** * What formatted printing means (kernel/string.c)

    The language of format strings and the text that a format denotes, stated
    without the code: numbers by the value of their digits, the width and the
    length of an argument by what is written in the format.  The theorem says
    that [vgprintf] of Strings prints that text. *)

From Stdlib Require Import Ascii String.
From S2P Require Import Prelude Config Strings.

Module Fmt.
Import Str.

(** ** Numerals *)

Definition digit_names : cstr := chars "0123456789abcdef".

Definition value (base : Z) (ds : list Z) : Z := foldl (λ a d, base * a + d) 0 ds.

(** The digits of [v], the most significant first, without leading zeros. *)
Record numeral (base v : Z) (ds : list Z) : Prop := {
  nu_digits : Forall (λ d, 0 ≤ d < base) ds;
  nu_value : value base ds = v;
  nu_lead : ds = [0] ∨ ∃ d r, ds = d :: r ∧ d ≠ 0
}.

(** [cs] is the number [v] written in [base]. *)
Definition written (base v : Z) (cs : cstr) : Prop :=
  ∃ ds, numeral base v ds ∧ Forall2 (λ d c, digit_names !! Z.to_nat d = Some c) ds cs.

(** ** Formats *)

Inductive length_prefix := LNone | LLong | LLongLong | LSize | LMax.
Inductive conversion := Cd | Ci | Cu | Cx | Cs | Cc | Cp.

(** A character, a conversion with the digits of its width, or a percent sign
    before a character that is no conversion. *)
Inductive item := Lit (c : Z) | Conv (width : list Z) (len : length_prefix) (cv : conversion) | Other (c : Z).
Implicit Types (it : item) (ds : list Z) (len : length_prefix) (cv : conversion).

Definition length_text len : cstr :=
  match len with LNone => [] | LLong => chars "l" | LLongLong => chars "ll" | LSize => chars "z" | LMax => chars "j" end.
Definition conv_char cv : Z := match cv with Cd => 100 | Ci => 105 | Cu => 117 | Cx => 120 | Cs => 115 | Cc => 99 | Cp => 112 end.

Definition render it : cstr :=
  match it with
  | Lit c => [c]
  | Conv ds len cv => 37 :: ((λ d, 48 + d) <$> ds) ++ length_text len ++ [conv_char cv]
  | Other c => [37; c]
  end.

(** The characters that mean something behind a percent sign: digits, l, z, j
    and the conversions. *)
Definition special (c : Z) : bool :=
  (((48 <=? c) && (c <=? 57)) || bool_decide (c ∈ chars "lzjdiuxscp"))%bool.

Definition item_ok it : Prop :=
  match it with
  | Lit c => 0 < c < 256 ∧ c ≠ 37
  | Conv ds _ _ => Forall (λ d, 0 ≤ d < 10) ds ∧ value 10 ds < 2 ^ 32
  | Other c => 0 < c < 256 ∧ special c = false
  end.

(** ** The text of an item

    [bits] is the width of an argument in the register. *)
Definition bits len : Z := match len with LNone => 32 | _ => 64 end.
Definition unsigned (n z v : Z) : Prop := 0 ≤ v < 2 ^ n ∧ ∃ q, z = v + q * 2 ^ n.
Definition signed (n z v : Z) : Prop := - 2 ^ (n - 1) ≤ v < 2 ^ (n - 1) ∧ ∃ q, z = v + q * 2 ^ n.

(** A width that begins with 0 asks for zeros. *)
Definition zero_flag ds : bool := match ds with 0 :: _ => true | _ => false end.
Definition fill (zero : bool) (w : Z) (cs : cstr) : cstr :=
  replicate (Z.to_nat (w - Z.of_nat (List.length cs))) (if zero then 48 else 32).

(** The arguments before and after, and the text. *)
Inductive denotes : item → list va → list va → cstr → Prop :=
  | den_lit c ap : denotes (Lit c) ap ap [c]
  | den_other c ap : denotes (Other c) ap ap [37; if decide (32 ≤ c < 127) then c else 63]
  | den_signed ds len cv z v cs ap : cv = Cd ∨ cv = Ci → signed (bits len) z v → 0 ≤ v → written 10 v cs →
      denotes (Conv ds len cv) (VReg z :: ap) ap (fill (zero_flag ds) (value 10 ds) cs ++ cs)
  | den_negative ds len cv z v cs ap : cv = Cd ∨ cv = Ci → signed (bits len) z v → v < 0 → written 10 (- v) cs →
      denotes (Conv ds len cv) (VReg z :: ap) ap (chars "-" ++ fill (zero_flag ds) (value 10 ds - 1) cs ++ cs)
  | den_unsigned ds len z v cs ap : unsigned (bits len) z v → written 10 v cs →
      denotes (Conv ds len Cu) (VReg z :: ap) ap (fill (zero_flag ds) (value 10 ds) cs ++ cs)
  | den_hex ds len z v cs ap : unsigned (bits len) z v → written 16 v cs →
      denotes (Conv ds len Cx) (VReg z :: ap) ap (fill (zero_flag ds) (value 10 ds) cs ++ cs)
  | den_string ds len s ap : let cs := default (chars "(null)") s in
      denotes (Conv ds len Cs) (VPtr s :: ap) ap (cs ++ fill false (value 10 ds) cs)
  | den_char ds len z c ap : unsigned 8 z c →
      denotes (Conv ds len Cc) (VReg z :: ap) ap (fill false (value 10 ds) [c] ++ [c])
  | den_pointer ds len z v cs ap : unsigned 64 z v → written 16 v cs →
      denotes (Conv ds len Cp) (VReg z :: ap) ap (chars "0x" ++ fill (zero_flag ds) (value 10 ds) cs ++ cs).

Inductive denotes_all : list item → list va → cstr → Prop :=
  | den_nil ap : denotes_all [] ap []
  | den_cons it its ap ap' out rest : denotes it ap ap' out → denotes_all its ap' rest → denotes_all (it :: its) ap (out ++ rest).

(** The arguments are those the format asks for. *)
Fixpoint accepts (its : list item) (ap : list va) : bool :=
  match its with
  | [] => true
  | Conv _ _ Cs :: its => match ap with VPtr _ :: ap => accepts its ap | _ => false end
  | Conv _ _ _ :: its => match ap with VReg _ :: ap => accepts its ap | _ => false end
  | _ :: its => accepts its ap
  end.

(** ** Numerals are unique *)

Lemma Forall_one {A} (P : A → Prop) x : Forall P [x] → P x.
Proof. by intros [? _]%Forall_cons. Qed.

Lemma value_snoc base ds d : value base (ds ++ [d]) = base * value base ds + d.
Proof. unfold value. by rewrite foldl_app. Qed.

Lemma value_nonneg base ds : 0 ≤ base → Forall (λ d, 0 ≤ d < base) ds → 0 ≤ value base ds.
Proof.
  intros Hb. induction ds as [|d ds IH] using rev_ind; [done|]. intros [H1 H2]%Forall_app. apply Forall_one in H2.
  rewrite value_snoc. specialize (IH H1). nia.
Qed.

(** A number with a leading digit other than 0 is not 0. *)
Lemma value_pos base d r : 0 < base → Forall (λ d, 0 ≤ d < base) (d :: r) → d ≠ 0 → 0 < value base (d :: r).
Proof.
  intros Hb. induction r as [|e r IH] using rev_ind; intros Hf Hd.
  - apply Forall_one in Hf. unfold value. cbn [foldl]. rewrite Z.mul_0_r. lia.
  - rewrite app_comm_cons in *. apply Forall_app in Hf as [H1 H2%Forall_one]. rewrite value_snoc. specialize (IH H1 Hd). nia.
Qed.

Lemma numeral_unique base v : 1 < base → ∀ ds ds', numeral base v ds → numeral base v ds' → ds = ds'.
Proof.
  intros Hb ds. revert v. induction ds as [|d ds IH] using rev_ind; intros v ds' [F V L] [F' V' L'].
  { destruct L as [|(? & ? & ? & _)]; done. }
  destruct ds' as [|d' ds' _] using rev_ind; [destruct L' as [|(? & ? & ? & _)]; done|].
  rewrite value_snoc in V, V'. apply Forall_app in F as [F Fd%Forall_one], F' as [F' Fd'%Forall_one].
  assert (value base ds = value base ds' ∧ d = d') as [Ev ->].
  { pose proof (Z.div_mod_unique base (value base ds) (value base ds') d d' ltac:(lia) ltac:(lia) ltac:(lia)). lia. }
  f_equal. assert (∀ l, Forall (λ d, 0 ≤ d < base) l → (l ++ [d'] = [0] ∨ ∃ e r, l ++ [d'] = e :: r ∧ e ≠ 0) →
    l = [] ∨ (∃ e r, l = e :: r ∧ e ≠ 0) ∧ 0 < value base l) as Hlead.
  { intros [|e l] Hl Hc; [by left|]. right. destruct Hc as [E|(e' & r & E & He)].
    - cbn [app] in E. injection E as _ E. by destruct l.
    - cbn [app] in E. injection E as -> _. split; [by exists e', l|]. apply value_pos; [lia|done|done]. }
  destruct (Hlead ds F L) as [->|[Ha Hp]], (Hlead ds' F' L') as [->|[Ha' Hp']]; [done|unfold value in *; simpl in *; lia..|].
  apply (IH (value base ds)); [split; [done|done|by right]|split; [done|done|by right]].
Qed.

Lemma written_unique base v cs cs' : 1 < base → written base v cs → written base v cs' → cs = cs'.
Proof.
  intros Hb (ds & N & F) (ds' & N' & F'). rewrite (numeral_unique base v Hb ds ds' N N') in F. clear N N'.
  revert cs' F'. induction F as [|d c ds' cs Hd _ IH]; intros cs' F'; inversion F'; simplify_eq; try done. f_equal. by apply IH.
Qed.

Lemma unsigned_mod n z v : 0 ≤ n → unsigned n z v ↔ v = z mod 2 ^ n.
Proof.
  intros Hn. assert (0 < 2 ^ n) by (by apply Z.pow_pos_nonneg). split.
  - intros [H1 [q ->]]. rewrite Z_mod_plus_full. by rewrite Z.mod_small.
  - intros ->. split; [by apply Z.mod_pos_bound|]. exists (z / 2 ^ n). pose proof (Z.div_mod z (2 ^ n)). lia.
Qed.

Lemma signed_mod n z v : 1 ≤ n → signed n z v ↔ v = (z + 2 ^ (n - 1)) mod 2 ^ n - 2 ^ (n - 1).
Proof.
  intros Hn. assert (2 ^ n = 2 * 2 ^ (n - 1)) as E2 by (rewrite <- Z.pow_succ_r by lia; f_equal; lia).
  assert (0 < 2 ^ (n - 1)) by (apply Z.pow_pos_nonneg; lia). assert (0 < 2 ^ n) by lia. split.
  - intros [H1 [q ->]]. replace (v + q * 2 ^ n + 2 ^ (n - 1)) with (v + 2 ^ (n - 1) + q * 2 ^ n) by lia.
    rewrite Z_mod_plus_full, Z.mod_small; lia.
  - intros ->. pose proof (Z.mod_pos_bound (z + 2 ^ (n - 1)) (2 ^ n) ltac:(done)). split; [lia|].
    exists ((z + 2 ^ (n - 1)) / 2 ^ n). pose proof (Z.div_mod (z + 2 ^ (n - 1)) (2 ^ n)). lia.
Qed.

Lemma unsigned_unique n z v v' : 0 ≤ n → unsigned n z v → unsigned n z v' → v = v'.
Proof. intros Hn ->%unsigned_mod ->%unsigned_mod; done. Qed.
Lemma signed_unique n z v v' : 1 ≤ n → signed n z v → signed n z v' → v = v'.
Proof. intros Hn ->%signed_mod ->%signed_mod; done. Qed.

(** Drops the copies of the same number and the same numeral. *)
Ltac same_number :=
  repeat match goal with
  | H1 : unsigned ?n ?z ?v, H2 : unsigned ?n ?z ?v' |- _ =>
      pose proof (unsigned_unique n z v v' ltac:(first [done|unfold bits; case_match; done]) H1 H2); subst v'; clear H2
  | H1 : signed ?n ?z ?v, H2 : signed ?n ?z ?v' |- _ =>
      pose proof (signed_unique n z v v' ltac:(unfold bits; case_match; done) H1 H2); subst v'; clear H2
  | H1 : written ?b ?v ?cs, H2 : written ?b ?v ?cs' |- _ =>
      pose proof (written_unique b v cs cs' ltac:(done) H1 H2); subst cs'; clear H2
  end.

Lemma denotes_unique it ap ap1 ap2 out1 out2 : denotes it ap ap1 out1 → denotes it ap ap2 out2 → ap1 = ap2 ∧ out1 = out2.
Proof.
  intros D1 D2. destruct D1; inversion D2; simplify_eq; try (by intuition congruence); same_number; done || lia.
Qed.

Lemma denotes_all_unique its : ∀ ap out1 out2, denotes_all its ap out1 → denotes_all its ap out2 → out1 = out2.
Proof.
  induction its as [|it its IH]; intros ap out1 out2 D1 D2; inversion D1; inversion D2; simplify_eq; [done|].
  match goal with H1 : denotes it ap ?a _, H2 : denotes it ap ?b _ |- _ => destruct (denotes_unique it ap a b _ _ H1 H2) as [-> ->] end.
  f_equal. by eapply IH.
Qed.

(** ** The code prints the text *)

#[local] Arguments int_chars : simpl never.

Lemma digit_name d : 0 ≤ d < 16 → digit_names !! Z.to_nat d = Some (digit_char d).
Proof.
  intros Hd. assert (∀ k : nat, (k < 16)%nat → digit_names !! k = Some (digit_char (Z.of_nat k))) as H.
  { intros k Hk. do 16 (destruct k as [|k]; [done|]). lia. }
  rewrite (H (Z.to_nat d)) by lia. by rewrite Z2Nat.id by lia.
Qed.

Lemma int_chars_written base fuel : 1 < base ≤ 16 → ∀ val acc, 0 ≤ val < base ^ Z.of_nat fuel → (0 < fuel)%nat →
  ∃ cs, int_chars fuel val base acc = cs ++ acc ∧ written base val cs.
Proof.
  intros Hb. induction fuel as [|fuel IH]; intros val acc Hv Hf; [lia|]. unfold int_chars; fold int_chars.
  pose proof (Z.mod_pos_bound val base ltac:(lia)) as Hd. pose proof (Z.div_mod val base ltac:(lia)) as Hdm.
  destruct (Z.eqb_spec (val / base) 0) as [Hq|Hq]; cbn [negb].
  - exists [digit_char (val mod base)]. split; [done|]. exists [val mod base]. split; [|constructor; [|constructor]; apply digit_name; lia].
    split; [constructor; [done|constructor]|unfold value; cbn [foldl]; nia|].
    destruct (decide (val mod base = 0)) as [->|]; [by left|right; by eexists _, _].
  - rewrite Nat2Z.inj_succ, Z.pow_succ_r in Hv by lia.
    assert (0 ≤ val / base < base ^ Z.of_nat fuel) as Hqr by (split; [apply Z.div_pos; lia|apply Z.div_lt_upper_bound; lia]).
    destruct (IH (val / base) (digit_char (val mod base) :: acc) Hqr) as (cs & -> & ds & [F V L] & W); [destruct fuel; [simpl in Hqr; lia|lia]|].
    exists (cs ++ [digit_char (val mod base)]). split; [by rewrite <- app_assoc|]. exists (ds ++ [val mod base]). split.
    + split; [apply Forall_app; split; [done|constructor; [done|constructor]]|rewrite value_snoc; lia|].
      destruct L as [->|(d & r & -> & Hne)]; [unfold value in V; simpl in V; lia|]. right. by eexists d, _.
    + apply Forall2_app; [done|]. constructor; [|constructor]. apply digit_name. lia.
Qed.

Lemma number_written base v : base = 10 ∨ base = 16 → 0 ≤ v < 2 ^ 64 → written base v (int_chars 40 v base []).
Proof.
  intros Hb Hv. destruct (int_chars_written base 40 ltac:(lia) v []) as (cs & E & W); [|lia|by rewrite E, app_nil_r].
  split; [lia|]. assert (2 ^ 64 < 10 ^ 40) by done. assert (2 ^ 64 < 16 ^ 40) by done. destruct Hb as [-> | ->]; simpl Z.of_nat; lia.
Qed.

Definition is_digit (c : Z) : bool := ((48 <=? c) && (c <=? 57))%bool.

Lemma value_from ds : ∀ a, Forall (λ d, 0 ≤ d < 10) ds → 0 ≤ a → a ≤ foldl (λ a d, 10 * a + d) a ds.
Proof.
  induction ds as [|d ds IH]; intros a F Ha; [done|]. apply Forall_cons in F as [Hd F]. cbn [foldl].
  specialize (IH (10 * a + d) F ltac:(lia)). lia.
Qed.

Lemma width_digits ds p : Forall (λ d, 0 ≤ d < 10) ds → is_digit (Str.deref p) = false → ∀ a, 0 ≤ a → foldl (λ a d, 10 * a + d) a ds < 2 ^ 32 →
  width (((λ d, 48 + d) <$> ds) ++ p) a = (foldl (λ a d, 10 * a + d) a ds, p).
Proof.
  intros F Hp. induction F as [|d ds Hd F IH]; intros a Ha Hv; cbn [fmap list_fmap app foldl width] in *.
  - destruct p as [|c p]; [done|]. cbn [width]. unfold is_digit in Hp. cbn [Str.deref] in Hp. by rewrite Hp.
  - rewrite (proj2 (Z.leb_le 48 (48 + d))), (proj2 (Z.leb_le (48 + d) 57)) by lia. cbn [andb].
    pose proof (value_from ds (10 * a + d) F ltac:(lia)). rewrite u32_small by lia.
    replace (10 * a + (48 + d - 48)) with (10 * a + d) by lia. apply IH; lia.
Qed.

Lemma prefix_conv len cv p : ∃ lcnt, prefix (length_text len ++ conv_char cv :: p) = (lcnt, conv_char cv :: p) ∧
  (0 <? lcnt) = bool_decide (bits len = 64).
Proof. destruct len, cv; (eexists; split; [vm_compute; reflexivity|done]). Qed.

Lemma conv_parsed ds len cv p : Forall (λ d, 0 ≤ d < 10) ds → value 10 ds < 2 ^ 32 →
  let r := ((λ d, 48 + d) <$> ds) ++ length_text len ++ conv_char cv :: p in
  (Str.deref r =? 48) = zero_flag ds ∧ width r 0 = (value 10 ds, length_text len ++ conv_char cv :: p).
Proof.
  intros F Hv r. split; [|apply width_digits; [done|by destruct len, cv|done|done]].
  unfold r. destruct F as [|d ds Hd F]; [by destruct len, cv|]. cbn [fmap list_fmap app Str.deref zero_flag].
  destruct d; try (apply Z.eqb_neq; lia). done.
Qed.

Lemma int_text_fill v base zero w : int_text v base zero w = fill zero w (int_chars 40 v base []) ++ int_chars 40 v base [].
Proof. done. Qed.

Lemma reg_unsigned len z : unsigned (bits len) z (if bool_decide (bits len = 64) then u64 z else u32 z).
Proof. apply unsigned_mod; by destruct len. Qed.
Lemma reg_signed len z : signed (bits len) z (if bool_decide (bits len = 64) then s64 z else s32 z).
Proof. apply signed_mod; by destruct len. Qed.

(** The text of a conversion. *)
Lemma conv_text ds len cv z ap lcnt p : value 10 ds < 2 ^ 32 → Forall (λ d, 0 ≤ d < 10) ds → cv ≠ Cs →
  (0 <? lcnt) = bool_decide (bits len = 64) →
  ∃ out, convert_text (zero_flag ds) (value 10 ds) lcnt (conv_char cv :: p) (VReg z :: ap) = Some (ap, out) ∧
    denotes (Conv ds len cv) (VReg z :: ap) ap out.
Proof.
  intros Hv F Hcv Hl. unfold convert_text. rewrite Hl. pose proof (reg_signed len z) as Hs. pose proof (reg_unsigned len z) as Hu.
  set (sv := if bool_decide (bits len = 64) then s64 z else s32 z) in *. set (uv := if bool_decide (bits len = 64) then u64 z else u32 z) in *.
  assert (- 2 ^ 63 ≤ sv < 2 ^ 63) as Hsr by (destruct Hs as [? _]; destruct len; simpl in *; lia).
  assert (0 ≤ uv < 2 ^ 64) as Hur by (destruct Hu as [? _]; destruct len; simpl in *; lia).
  pose proof (value_nonneg 10 ds ltac:(lia) F) as H0.
  assert (∀ cv, cv = Cd ∨ cv = Ci → denotes (Conv ds len cv) (VReg z :: ap) ap
    (if sv <? 0 then 45 :: int_text (- sv) 10 (zero_flag ds) (value 10 ds - 1) else int_text sv 10 (zero_flag ds) (value 10 ds))) as Hsigned.
  { intros cv' Hcv'. destruct (Z.ltb_spec sv 0); rewrite int_text_fill.
    - apply (den_negative ds len cv' z sv); [done|done|done|]. apply number_written; [by left|lia].
    - apply (den_signed ds len cv' z sv); [done|done|done|]. apply number_written; [by left|lia]. }
  destruct cv; cbn [Str.deref conv_char Z.eqb Pos.eqb orb arg_reg mbind option_bind]; try done; (eexists; split; [reflexivity|]).
  - apply Hsigned. by left.
  - apply Hsigned. by right.
  - rewrite int_text_fill. apply (den_unsigned ds len z uv); [done|]. apply number_written; [by left|lia].
  - rewrite int_text_fill. apply (den_hex ds len z uv); [done|]. apply number_written; [by right|lia].
  - apply (den_char ds len z (u8 z)). by apply unsigned_mod.
  - rewrite int_text_fill. apply (den_pointer ds len z (u64 z)); [by apply unsigned_mod|]. apply number_written; [by right|].
    apply u64_range.
Qed.

Lemma item_text it its ap : item_ok it → accepts (it :: its) ap = true →
  ∃ ap' out, denotes it ap ap' out ∧ accepts its ap' = true ∧
    ∀ p fuel, text (S fuel) (render it ++ p) ap = (λ rest, out ++ rest) <$> text fuel p ap'.
Proof.
  intros Hok Hac. destruct it as [c|ds len cv|c]; cbn [item_ok render] in *.
  - exists ap, [c]. split_and!; [constructor|done|]. intros p fuel. cbn [app text]. rewrite (proj2 (Z.eqb_neq c 37)) by apply Hok.
    by destruct (text fuel p ap).
  - destruct Hok as [F Hv].
    assert (∃ a ap', ap = a :: ap' ∧ accepts its ap' = true ∧ match a with VPtr _ => cv = Cs | VReg _ => cv ≠ Cs end) as (a & ap' & -> & Hac' & Ha).
    { destruct cv, ap as [|[z|s] ap']; try done; by eexists _, _. }
    assert (∀ p, ∃ lcnt, prefix (length_text len ++ conv_char cv :: p) = (lcnt, conv_char cv :: p) ∧ (0 <? lcnt) = bool_decide (bits len = 64)) as Hpre
      by (intros; apply prefix_conv).
    assert (∃ out, denotes (Conv ds len cv) (a :: ap') ap' out ∧ ∀ lcnt p, (0 <? lcnt) = bool_decide (bits len = 64) →
      convert_text (zero_flag ds) (value 10 ds) lcnt (conv_char cv :: p) (a :: ap') = Some (ap', out)) as (out & Hden & Hconv).
    { destruct a as [z|s].
      - destruct (conv_text ds len cv z ap' (bits len - 32) [] Hv F Ha) as (out & E & Hden); [by destruct len|]. exists out. split; [done|].
        intros lcnt p Hl. destruct (conv_text ds len cv z ap' lcnt p Hv F Ha Hl) as (out' & E' & Hden').
        destruct (denotes_unique _ _ _ _ _ _ Hden Hden') as [_ ->]. done.
      - subst cv. eexists. split; [constructor|]. intros lcnt p _. reflexivity. }
    exists ap', out. split_and!; [done|done|]. intros p fuel. cbn [app text]. rewrite Z.eqb_refl, <- !app_assoc. cbn [app].
    destruct (conv_parsed ds len cv p F Hv) as [Hz ->]. destruct (Hpre p) as (lcnt & -> & Hl). cbv zeta in Hz. rewrite Hz, (Hconv lcnt p Hl).
    cbn [mbind option_bind list.tail]. by destruct (text fuel p ap').
  - destruct Hok as [Hc Hs]. exists ap, [37; if decide (32 ≤ c < 127) then c else 63]. split_and!; [constructor|done|]. intros p fuel.
    unfold special in Hs. apply orb_false_iff in Hs as [Hd Hn]. apply bool_decide_eq_false in Hn.
    assert (∀ x, x ∈ chars "lzjdiuxscp" → (c =? x) = false) as Hx by (intros x Hx; apply Z.eqb_neq; congruence).
    cbn [app text width]. rewrite Z.eqb_refl, Hd. unfold prefix. cbn [count_l].
    rewrite (Hx 108), (Hx 122), (Hx 106) by (vm_compute; set_solver). cbn [orb]. unfold convert_text. cbn [Str.deref].
    rewrite (Hx 100), (Hx 105), (Hx 117), (Hx 120), (Hx 115), (Hx 99), (Hx 112) by (vm_compute; set_solver). cbn [orb mbind option_bind list.tail].
    assert ((if ((32 <=? c) && (c <? 127))%bool then c else 63) = (if decide (32 ≤ c < 127) then c else 63)) as ->.
    { case_decide; destruct (Z.leb_spec 32 c), (Z.ltb_spec c 127); simpl; done || lia. }
    by destruct (text fuel p ap).
Qed.

Lemma items_text its : ∀ fuel ap, Forall item_ok its → accepts its ap = true → (List.length its < fuel)%nat →
  ∃ out, denotes_all its ap out ∧ text fuel (its ≫= render) ap = Some out.
Proof.
  induction its as [|it its IH]; intros [|fuel] ap F Hac Hf; simpl in Hf; try lia.
  { exists []. split; [constructor|done]. }
  apply Forall_cons in F as [Hit F]. destruct (item_text it its ap Hit Hac) as (ap' & out & Hden & Hac' & Htext).
  destruct (IH fuel ap' F Hac' ltac:(lia)) as (rest & Hrest & Et). exists (out ++ rest). split; [by econstructor|].
  rewrite bind_cons, Htext, Et. done.
Qed.

Lemma rendered_length its : (List.length its ≤ List.length (its ≫= render))%nat.
Proof.
  induction its as [|it its IH]; [done|]. rewrite bind_cons, length_app. destruct it; simpl; lia.
Qed.

(** C34. Formatted printing.  For every format made of characters, conversions
    with widths and length prefixes, and percent signs before other characters,
    and for arguments of the kinds it asks for, there is exactly one text that
    the format denotes: a number is its digits in base 10 or 16, most
    significant first and without leading zeros, of the value of the argument
    at its width, filled with spaces or zeros to the width in front, a string is
    filled behind, a null string is (null).  [vgprintf] ends, gives exactly this
    text to the output function, character by character in order, and returns
    its length. *)
Theorem vgprintf_correct {St} (putcfn : Z → St → St) its ap aux :
  Forall item_ok its → accepts its ap = true →
  ∃ out, denotes_all its ap out ∧ (∀ out', denotes_all its ap out' → out' = out) ∧
    vgprintf putcfn (its ≫= render) ap aux =
    Some (Ret (u64 (Z.of_nat (List.length out)), foldl (λ st c, putcfn c st) aux out)).
Proof.
  intros F Hac. pose proof (rendered_length its) as Hlen.
  destruct (items_text its (S (List.length (its ≫= render))) ap F Hac ltac:(lia)) as (out & Hden & Htext).
  exists out. split_and!; [done|intros out' Hden'; by apply (denotes_all_unique its ap)|].
  unfold vgprintf. rewrite vgprintf_loop_text by lia. rewrite Htext. cbn [fmap option_fmap option_map]. rewrite Z.add_0_l. do 3 f_equal.
  clear. revert aux. induction out as [|c out IH]; intros aux; [done|]. apply IH.
Qed.

(** "%05d|%-" of -42 with "%lx" of a 64-bit number and "%4s" *)
Definition demo_items : list item :=
  [Conv [0; 5] LNone Cd; Lit 124; Conv [] LLong Cx; Lit 32; Conv [4] LNone Cs; Conv [3] LNone Cu; Other 37].
Definition demo_vas : list va := [VReg (2 ^ 64 - 42); VReg 48879; VPtr (Some (chars "ab")); VReg 7].

Lemma vgprintf_correct_witness :
  demo_items ≫= render = chars "%05d|%lx %4s%3u%%" ∧
  vgprintf (λ c st, st ++ [c]) (chars "%05d|%lx %4s%3u%%") demo_vas [] = Some (Ret (20, chars "-0042|beef ab    7%%")).
Proof.
  destruct (vgprintf_correct (λ c st, st ++ [c]) demo_items demo_vas []) as (out & Hden & _ & E).
  - repeat constructor; vm_compute; done.
  - vm_compute. reflexivity.
  - split; [vm_compute; reflexivity|]. change (demo_items ≫= render) with (chars "%05d|%lx %4s%3u%%") in E. rewrite E.
    assert (out = chars "-0042|beef ab    7%%") as ->; [|vm_compute; reflexivity].
    assert (foldl (λ st c, st ++ [c]) [] out = out) as Ef.
    { clear. induction out as [|c out IH] using rev_ind; [done|]. rewrite foldl_app. simpl. by rewrite IH. }
    rewrite Ef in E. assert (vgprintf (λ c st, st ++ [c]) (chars "%05d|%lx %4s%3u%%") demo_vas [] = Some (Ret (20, chars "-0042|beef ab    7%%"))) as E'
      by (vm_compute; reflexivity). rewrite E in E'. congruence.
Defined.

End Fmt.
