(* ===== verification/Timer.v ===== *)
(** * Alarms and the timer interrupt (kernel/timer.c)

    The sleep list is linked through the [next] fields of the alarms, in order
    of wake-up time; [stcmp] is the compare register of the timer.  [rdtime()]
    is an argument.  [alarm_sleep] is split where it enables interrupts again
    before it waits: an interrupt may be taken there. *)

From S2P Require Import Prelude Config Threads ThreadProofs LockProofs SchedProofs.
Import Threads ThreadProofs SchedProofs.

Module Timer.

Definition UINT64_MAX : Z := 2 ^ 64 - 1.

Record alarm := Alarm { cond : nat; next : option nat; twake : Z }.

Record tsys := TSys { kern : ks; alarms : gmap nat alarm; sleep_list : option nat; stcmp : Z; timer_initialized : bool }.

Definition with_kern (s : tsys) k := TSys k (alarms s) (sleep_list s) (stcmp s) (timer_initialized s).
Definition with_alarms (s : tsys) a := TSys (kern s) a (sleep_list s) (stcmp s) (timer_initialized s).
Definition with_list (s : tsys) l := TSys (kern s) (alarms s) l (stcmp s) (timer_initialized s).

Definition on_kern {A} (m : M ks A) : M tsys A := λ s, let (r, k) := m (kern s) in (r, with_kern s k).
Definition deref {A} (o : option A) : M tsys A := match o with Some a => mret a | None => panic end.
Definition get_alarm (a : nat) : M tsys alarm := o ← gets (λ s, alarms s !! a); deref o.
Definition put_alarm (a : nat) (x : alarm) : M tsys unit := modify (λ s, with_alarms s (<[a := x]> (alarms s))).
Definition set_stcmp (t : Z) : M tsys unit :=
  modify (λ s, TSys (kern s) (alarms s) (sleep_list s) t (timer_initialized s)).

Definition timer_init : M tsys unit :=
  set_stcmp UINT64_MAX;;
  modify (λ s, TSys (kern s) (alarms s) (sleep_list s) (stcmp s) true).

(** [c] is the condition embedded in the alarm. *)
Definition alarm_init (a c : nat) (now : Z) : M tsys unit :=
  on_kern (condition_init c);;
  put_alarm a (Alarm c None now).

(** A [struct alarm **]: the list head, or the [next] of an alarm. *)
Inductive aref := AHead | ANext (a : nat).
Definition get_aref (r : aref) : M tsys (option nat) :=
  match r with AHead => gets sleep_list | ANext a => x ← get_alarm a; mret (next x) end.
Definition set_aref (r : aref) (v : option nat) : M tsys unit :=
  match r with
  | AHead => modify (λ s, with_list s v)
  | ANext a => x ← get_alarm a; put_alarm a (Alarm (cond x) v (twake x))
  end.

(** The walk to the insertion point; the number of alarms bounds it. *)
Fixpoint find_slot (fuel : nat) (t : Z) (ins : aref) : M tsys aref :=
  match fuel with
  | O => λ s, (NoFuel, s)
  | S fuel =>
      v ← get_aref ins;
      match v with
      | None => mret ins
      | Some a => x ← get_alarm a; if twake x <=? t then find_slot fuel t (ANext a) else mret ins
      end
  end.

(** [alarm_sleep] up to [restore_interrupts]: [false] when it returns at once. *)
Definition alarm_sleep_insert (al : nat) (tcnt now : Z) : M tsys bool :=
  x ← get_alarm al;
  let t := if UINT64_MAX - twake x <? tcnt then UINT64_MAX else twake x + tcnt in
  put_alarm al (Alarm (cond x) (next x) t);;
  if t <? now then mret false
  else
    n ← gets (λ s, base.size (alarms s));
    ins ← find_slot (S n) t AHead;
    v ← get_aref ins;
    x ← get_alarm al;
    put_alarm al (Alarm (cond x) v (twake x));;
    set_aref ins (Some al);;
    h ← gets sleep_list;
    (if decide (h = Some al) then set_stcmp t else mret tt);;
    mret true.

(** The rest of it. *)
Definition alarm_sleep_wait (al : nat) : M tsys unit := x ← get_alarm al; on_kern (condition_wait (cond x)).

Definition alarm_sleep (al : nat) (tcnt now : Z) : M tsys unit :=
  b ← alarm_sleep_insert al tcnt now;
  if (b : bool) then alarm_sleep_wait al else mret tt.

Definition alarm_reset (al : nat) (now : Z) : M tsys unit :=
  x ← get_alarm al; put_alarm al (Alarm (cond x) (next x) now).

Definition alarm_sleep_sec (al : nat) (sec now : Z) : M tsys unit := alarm_sleep al (u64 (sec * TIMER_FREQ)) now.
Definition alarm_sleep_ms (al : nat) (ms now : Z) : M tsys unit := alarm_sleep al (u64 (ms * (TIMER_FREQ / 1000))) now.
Definition alarm_sleep_us (al : nat) (us now : Z) : M tsys unit := alarm_sleep al (u64 (us * (TIMER_FREQ / 1000 / 1000))) now.

(** [al] and [c] are the alarm on the stack and its condition; [now] and
    [now'] the two readings of the clock. *)
Definition sleep_us (al c : nat) (us now now' : Z) : M tsys unit :=
  alarm_init al c now;; alarm_sleep_us al us now'.
Definition sleep_ms (al c : nat) (ms now now' : Z) : M tsys unit := sleep_us al c (u64 (1000 * ms)) now now'.
Definition sleep_sec (al c : nat) (sec now now' : Z) : M tsys unit := sleep_ms al c (u64 (1000 * sec)) now now'.

Fixpoint fire_loop (fuel : nat) (now : Z) : M tsys unit :=
  match fuel with
  | O => λ s, (NoFuel, s)
  | S fuel =>
      h ← gets sleep_list;
      match h with
      | None => mret tt
      | Some a =>
          x ← get_alarm a;
          if twake x <=? now then
            modify (λ s, with_list s (next x));;
            put_alarm a (Alarm (cond x) None (twake x));;
            on_kern (condition_broadcast (cond x));;
            fire_loop fuel now
          else mret tt
      end
  end.

Definition handle_timer_interrupt (now : Z) : M tsys unit :=
  n ← gets (λ s, base.size (alarms s));
  fire_loop (S n) now;;
  h ← gets sleep_list;
  match h with
  | Some a => x ← get_alarm a; set_stcmp (twake x)
  | None => set_stcmp UINT64_MAX
  end.

(** ** The sleep list *)

Implicit Types (s : tsys) (m : gmap nat alarm) (xs : list nat).

Fixpoint achain m (o : option nat) xs : Prop :=
  match xs with
  | [] => o = None
  | a :: xs => o = Some a ∧ ∃ x, m !! a = Some x ∧ achain m (next x) xs
  end.

Definition wake_time m (a : nat) : Z := default 0 (twake <$> m !! a).

(** In order of wake-up time. *)
Fixpoint ordered m xs : Prop :=
  match xs with
  | [] => True
  | a :: xs => Forall (λ b, wake_time m a ≤ wake_time m b) xs ∧ ordered m xs
  end.

(** The compare register for the list [xs]. *)
Definition deadline m xs : Z := match xs with [] => UINT64_MAX | a :: _ => wake_time m a end.

Record sleepers s xs : Prop := {
  sl_chain : achain (alarms s) (sleep_list s) xs;
  sl_nodup : NoDup xs;
  sl_order : ordered (alarms s) xs;
  sl_stcmp : stcmp s = deadline (alarms s) xs
}.

Lemma achain_frame m m' xs : ∀ o,
  achain m o xs → (∀ a, a ∈ xs → next <$> m' !! a = next <$> m !! a) → achain m' o xs.
Proof.
  induction xs as [|a xs IH]; [done|]. intros o (-> & x & Hx & Hc) Hf. split; [done|].
  pose proof (Hf a ltac:(by left)) as E. rewrite Hx in E. destruct (m' !! a) as [x'|]; [|done].
  injection E as E. exists x'. split; [done|]. rewrite E. apply IH; [done|]. intros b Hb. apply Hf. by right.
Qed.

Lemma ordered_frame m m' xs : (∀ a, a ∈ xs → wake_time m' a = wake_time m a) → ordered m xs → ordered m' xs.
Proof.
  induction xs as [|a xs IH]; [done|]. intros Hf [H1 H2]. split; [|apply IH; [intros b Hb; apply Hf; by right|done]].
  apply Forall_forall. intros b Hb. rewrite Forall_forall in H1. rewrite !Hf by (by left || by right). by apply H1.
Qed.

Lemma get_alarm_run s a x : alarms s !! a = Some x → get_alarm a s = (Ret x, s).
Proof. intros H. unfold get_alarm. kgets. by rewrite H. Qed.

Lemma timer_kern_run {A} (f : M ks A) s r k : f (kern s) = (Ret r, k) → on_kern f s = (Ret r, with_kern s k).
Proof. intros E. unfold on_kern. by rewrite E. Qed.

Lemma chain_bound m o xs : achain m o xs → NoDup xs → (length xs ≤ base.size m)%nat.
Proof.
  intros Hc Hnd. rewrite <- size_dom, <- (size_list_to_set (C:=gset nat) xs) by done.
  apply subseteq_size. intros a Ha%elem_of_list_to_set. revert o Hc. clear Hnd.
  induction xs as [|b xs IH]; intros o; [by apply not_elem_of_nil in Ha|]. intros (_ & x & Hx & Hc).
  apply elem_of_cons in Ha as [->|Ha]; [by apply elem_of_dom_2 in Hx|by eapply IH].
Qed.

Lemma sleepers_kern s k xs : sleepers s xs → sleepers (with_kern s k) xs.
Proof. intros []. by split. Qed.

(** ** The timer interrupt *)

Definition expired m (now : Z) (a : nat) : bool := wake_time m a <=? now.

(** The threads that wait for the alarm [a], in the order they came. *)
Definition waiters m (q : tlref → list nat) (a : nat) : list nat :=
  match m !! a with Some x => q (Cond (cond x)) | None => [] end.

Definition cond_of m (a : nat) : option nat := cond <$> m !! a.

(** What a run of broadcasts for the alarms [ys] does to the queues.  Each
    alarm has a condition of its own in the program; then the ready list grows
    by the waiters of the first alarm, then those of the second, and so on. *)
Record wakes m (ys : list nat) (q q' : tlref → list nat) : Prop := {
  wk_order : NoDup (cond_of m <$> ys) → q' Ready = q Ready ++ (ys ≫= waiters m q);
  wk_ready t : t ∈ q Ready → t ∈ q' Ready;
  wk_fired a x : a ∈ ys → m !! a = Some x → q' (Cond (cond x)) = [] ∧ ∀ t, t ∈ q (Cond (cond x)) → t ∈ q' Ready;
  wk_other c : (∀ a x, a ∈ ys → m !! a = Some x → cond x ≠ c) → q' (Cond c) = q (Cond c)
}.

Lemma wakes_nil m q : wakes m [] q q.
Proof. split; try done; [intros _; by rewrite app_nil_r|]. intros b x Hb. by apply not_elem_of_nil in Hb. Qed.

Lemma wakes_cons m m1 a x ys q q1 q' :
  m !! a = Some x → (∀ b, cond <$> m1 !! b = cond <$> m !! b) →
  q1 Ready = q Ready ++ q (Cond (cond x)) → q1 (Cond (cond x)) = [] → (∀ c, c ≠ cond x → q1 (Cond c) = q (Cond c)) →
  wakes m1 ys q1 q' → wakes m (a :: ys) q q'.
Proof.
  intros Ha Hcond Hr He Ho [W0 W1 W2 W3].
  assert (∀ b y, m !! b = Some y → ∃ y1, m1 !! b = Some y1 ∧ cond y1 = cond y) as Hto.
  { intros b y Hb. specialize (Hcond b). rewrite Hb in Hcond. destruct (m1 !! b) as [y1|]; [|done]. injection Hcond as E. by exists y1. }
  assert (∀ b y, m1 !! b = Some y → ∃ y1, m !! b = Some y1 ∧ cond y1 = cond y) as Hfrom.
  { intros b y Hb. specialize (Hcond b). rewrite Hb in Hcond. destruct (m !! b) as [y1|]; [|done]. injection Hcond as E. by exists y1. }
  assert (∀ t, t ∈ q Ready ++ q (Cond (cond x)) → t ∈ q' Ready) as Hall by (intros t Ht; apply W1; by rewrite Hr).
  split.
  - rewrite fmap_cons. intros [Hnc Hnd]%NoDup_cons. assert (cond_of m1 <$> ys = cond_of m <$> ys) as Efm by (apply list_fmap_ext; intros ? b ?; apply Hcond). rewrite W0, Hr, <- app_assoc by (by rewrite Efm).
    rewrite bind_cons. assert (waiters m q a = q (Cond (cond x))) as -> by (unfold waiters; by rewrite Ha). do 2 f_equal. assert (∀ b, b ∈ ys → waiters m1 q1 b = waiters m q b) as Hw.
    { intros b Hb. unfold waiters.
    pose proof (Hcond b) as Hb1. destruct (m1 !! b) as [y1|], (m !! b) as [y|] eqn:Ey; simplify_eq/=; [|done].
    rewrite Hb1. apply Ho. intros E. apply Hnc, list_elem_of_fmap. exists b. split; [|done]. unfold cond_of. rewrite Ha, Ey. simpl. by rewrite E. }
    clear -Hw. induction ys as [|b ys IH]; [done|]. rewrite !bind_cons, Hw by (by left). f_equal. apply IH. intros c Hc. apply Hw. by right.
  - intros t Ht. apply Hall, elem_of_app. by left.
  - intros b y Hb Hy. destruct (decide (cond y = cond x)) as [E|E].
    + rewrite E. split; [|intros t Ht; apply Hall, elem_of_app; by right].
      destruct (decide (Exists (λ b, cond <$> m1 !! b = Some (cond x)) ys)) as [Hex|Hex].
      * apply Exists_exists in Hex as (b' & Hb' & Hc'). destruct (m1 !! b') as [y'|] eqn:Ey; [|done]. injection Hc' as Hc'.
        rewrite <- Hc'. by apply (W2 b' y').
      * rewrite W3; [done|]. intros b' y' Hb' Hy' Hc'. apply Hex, Exists_exists. exists b'. split; [done|]. rewrite Hy'. simpl. by rewrite Hc'.
    + apply elem_of_cons in Hb as [->|Hb]; [congruence|]. destruct (Hto b y Hy) as (y1 & Hy1 & E1). rewrite <- E1 in *.
      destruct (W2 b y1 Hb Hy1) as [W21 W22]. split; [done|]. intros t Ht. apply W22. by rewrite Ho.
  - intros c Hc. rewrite W3; [|intros b y Hb Hy; destruct (Hfrom b y Hy) as (y1 & Hy1 & <-); apply (Hc b); [by right|done]].
    apply Ho. intros ->. by apply (Hc a x ltac:(by left)).
Qed.

Lemma fire_loop_ok now xs : ∀ fuel s q,
  achain (alarms s) (sleep_list s) xs → NoDup xs → inv (kern s) q → (length xs < fuel)%nat →
  ∃ s' q' ys zs, fire_loop fuel now s = (Ret tt, s') ∧ xs = ys ++ zs ∧
    Forall (λ a, expired (alarms s) now a = true) ys ∧ (∀ a, list.head zs = Some a → expired (alarms s) now a = false) ∧
    achain (alarms s') (sleep_list s') zs ∧
    (∀ a, wake_time (alarms s') a = wake_time (alarms s) a) ∧ (∀ a, cond <$> alarms s' !! a = cond <$> alarms s !! a) ∧
    inv (kern s') q' ∧ wakes (alarms s) ys q q' ∧ TP (kern s') = TP (kern s) ∧ same_ids (kern s) (kern s').
Proof.
  induction xs as [|a xs IH]; intros [|fuel] s q Hc Hnd Hinv Hf; try (simpl in Hf; lia); cbn [fire_loop]; kgets.
  - simpl in Hc. rewrite Hc. exists s, q, [], []. split_and!; try done. apply wakes_nil.
  - destruct Hc as (Hhd & x & Hx & Hc). rewrite Hhd. apply NoDup_cons in Hnd as [Ha Hnd]. krun (get_alarm_run s a x Hx).
    assert (wake_time (alarms s) a = twake x) as Hw by (unfold wake_time; by rewrite Hx).
    destruct (Z.leb_spec (twake x) now) as [Hle|Hgt].
    + kmodify. unfold put_alarm. kmodify. cbn [alarms with_list].
      destruct (broadcast_inv (kern s) q (cond x) Hinv) as (k1 & q1 & Hrun & Hi1 & Hr1 & He1 & Ho1 & Htp1 & Hids1).
      set (s1 := with_alarms _ _). krun (timer_kern_run (condition_broadcast (cond x)) s1 tt k1 Hrun).
      set (s2 := with_kern s1 k1).
      assert (∀ b, wake_time (alarms s2) b = wake_time (alarms s) b) as Hw2.
      { intros b. unfold wake_time. simpl. destruct (decide (b = a)) as [->|]; [by rewrite lookup_insert_eq, Hx|by rewrite lookup_insert_ne by auto]. }
      assert (∀ b, cond <$> alarms s2 !! b = cond <$> alarms s !! b) as Hc2.
      { intros b. simpl. destruct (decide (b = a)) as [->|]; [by rewrite lookup_insert_eq, Hx|by rewrite lookup_insert_ne by auto]. }
      destruct (IH fuel s2 q1) as (s' & q' & ys & zs & Hrun' & -> & Hy & Hz & Hc' & Hw' & Hcd' & Hi' & Hwk & Htp' & Hids').
      { simpl. eapply achain_frame; [exact Hc|]. intros b Hb. rewrite lookup_insert_ne; [done|]. by intros ->. }
      { done. } { done. } { simpl in Hf. lia. }
      exists s', q', (a :: ys), zs. split_and!; try done.
      * constructor; [unfold expired; rewrite Hw; by apply Z.leb_le|]. eapply Forall_impl; [exact Hy|].
        intros b. unfold expired. by rewrite Hw2.
      * intros b Hb. specialize (Hz b Hb). unfold expired in *. by rewrite Hw2 in Hz.
      * intros b. by rewrite Hw', Hw2.
      * intros b. by rewrite Hcd', Hc2.
      * by eapply wakes_cons.
      * by rewrite Htp'.
      * by etrans.
    + exists s, q, [], (a :: xs). split_and!; try done; [|split; [done|by exists x]|].
      * intros b [= <-]. unfold expired. rewrite Hw. by apply Z.leb_gt.
      * apply wakes_nil.
Qed.

Lemma list_filter_all {A} (P : A → Prop) `{∀ x, Decision (P x)} l : Forall P l → base.filter P l = l.
Proof. induction 1; [done|]. rewrite filter_cons_True by done. by f_equal. Qed.

Lemma list_filter_none {A} (P : A → Prop) `{∀ x, Decision (P x)} l : Forall (λ x, ¬ P x) l → base.filter P l = [].
Proof. induction 1; [done|]. by rewrite filter_cons_False by done. Qed.

Lemma ordered_app m ys zs : ordered m (ys ++ zs) → ordered m zs.
Proof. induction ys as [|a ys IH]; [done|]. intros [_ H]. by apply IH. Qed.

Lemma timer_interrupt_ok s xs q now :
  sleepers s xs → inv (kern s) q →
  ∃ s' q', handle_timer_interrupt now s = (Ret tt, s') ∧ inv (kern s') q' ∧ TP (kern s') = TP (kern s) ∧
    sleepers s' (base.filter (λ a, ¬ wake_time (alarms s) a ≤ now) xs) ∧
    wakes (alarms s) (base.filter (λ a, wake_time (alarms s) a ≤ now) xs) q q' ∧
    (∀ a, cond <$> alarms s' !! a = cond <$> alarms s !! a).
Proof.
  intros [Hc Hnd Hord Hst] Hinv. unfold handle_timer_interrupt. kgets.
  destruct (fire_loop_ok now xs (S (base.size (alarms s))) s q Hc Hnd Hinv)
    as (s1 & q1 & ys & zs & Hrun & -> & Hy & Hz & Hc1 & Hw1 & Hcd1 & Hi1 & Hwk & Htp & _).
  { pose proof (chain_bound _ _ _ Hc Hnd). lia. }
  krun Hrun. kgets. pose proof (ordered_app _ _ _ Hord) as Hoz. apply NoDup_app in Hnd as (_ & _ & Hndz).
  assert (Forall (λ a, ¬ wake_time (alarms s) a ≤ now) zs) as Hzs.
  { destruct zs as [|z zs]; [done|]. specialize (Hz z eq_refl). unfold expired in Hz. destruct Hoz as [Hoz _].
    constructor; [lia|]. eapply Forall_impl; [exact Hoz|]. simpl. lia. }
  assert (Forall (λ a, wake_time (alarms s) a ≤ now) ys) as Hys.
  { eapply Forall_impl; [exact Hy|]. intros a. unfold expired. apply Z.leb_le. }
  assert (base.filter (λ a, ¬ wake_time (alarms s) a ≤ now) (ys ++ zs) = zs) as ->.
  { rewrite filter_app, (list_filter_all _ zs Hzs). rewrite (list_filter_none _ ys); [done|]. eapply Forall_impl; [exact Hys|]. tauto. }
  assert (base.filter (λ a, wake_time (alarms s) a ≤ now) (ys ++ zs) = ys) as ->.
  { rewrite filter_app, (list_filter_all _ ys Hys), (list_filter_none _ zs Hzs). apply app_nil_r. }
  assert (∀ s2, alarms s2 = alarms s1 → sleep_list s2 = sleep_list s1 → stcmp s2 = deadline (alarms s1) zs → sleepers s2 zs) as Hfin.
  { intros s2 E1 E2 E3. split; rewrite ?E1, ?E2; try done. by apply (ordered_frame (alarms s)). }
  destruct zs as [|z zs]; simpl in Hc1.
  - rewrite Hc1. eexists _, q1. split; [reflexivity|]. split_and!; try done; by apply Hfin.
  - destruct Hc1 as (-> & x & Hx & _). krun (get_alarm_run s1 z x Hx). eexists _, q1. split; [reflexivity|]. split_and!; try done;
    apply Hfin; [done|done|]; simpl; unfold wake_time; by rewrite Hx.
Qed.

(** C35. The timer interrupt at time [now]: exactly the alarms whose time has
    come leave the list, the others stay in order; the threads that wait for
    them are appended to the ready list, those of the earliest alarm first and
    the waiters of one alarm in the order they came, and no other thread is
    woken; the running thread keeps running, and the timer is set to the next
    wake-up time, or to the far future when no alarm is left. *)
Theorem timer_interrupt_correct s xs q now :
  sleepers s xs → inv (kern s) q →
  ∃ s' q', handle_timer_interrupt now s = (Ret tt, s') ∧ inv (kern s') q' ∧ TP (kern s') = TP (kern s) ∧
    sleepers s' (base.filter (λ a, ¬ wake_time (alarms s) a ≤ now) xs) ∧
    wakes (alarms s) (base.filter (λ a, wake_time (alarms s) a ≤ now) xs) q q'.
Proof.
  intros Hsl Hinv. destruct (timer_interrupt_ok s xs q now Hsl Hinv) as (s' & q' & ? & ? & ? & ? & ? & _). by exists s', q'.
Qed.

(** ** Going to sleep *)

Definition slot_ref (r : aref) (pre : list nat) : aref := match last pre with None => r | Some k => ANext k end.

Lemma find_slot_ok t xs : ∀ fuel s r o,
  get_aref r s = (Ret o, s) → achain (alarms s) o xs → (length xs < fuel)%nat →
  ∃ pre post, xs = pre ++ post ∧ Forall (λ a, wake_time (alarms s) a ≤ t) pre ∧
    (∀ a, list.head post = Some a → t < wake_time (alarms s) a) ∧ find_slot fuel t r s = (Ret (slot_ref r pre), s).
Proof.
  induction xs as [|a xs IH]; intros [|fuel] s r o Hr Hc Hf; try (simpl in Hf; lia); cbn [find_slot]; krun Hr.
  - simpl in Hc. subst o. by exists [], [].
  - destruct Hc as (-> & x & Hx & Hc). krun (get_alarm_run s a x Hx).
    assert (wake_time (alarms s) a = twake x) as Hw by (unfold wake_time; by rewrite Hx).
    destruct (Z.leb_spec (twake x) t) as [Hle|Hgt].
    + destruct (IH fuel s (ANext a) (next x)) as (pre & post & -> & Hpre & Hpost & Hrun); [|done|simpl in Hf; lia|].
      { unfold get_aref. by krun (get_alarm_run s a x Hx). }
      exists (a :: pre), post. split_and!; [done|constructor; [lia|done]|done|]. rewrite Hrun. unfold slot_ref.
      rewrite last_cons. by destruct (last pre).
    + exists [], (a :: xs). split_and!; try done. intros b [= <-]. lia.
Qed.

Lemma achain_head m o xs : achain m o xs → o = list.head xs.
Proof. destruct xs; [done|by intros [-> _]]. Qed.

Lemma achain_in m xs : ∀ o a, achain m o xs → a ∈ xs → is_Some (m !! a).
Proof.
  induction xs as [|b xs IH]; intros o a Hc Ha; [by apply not_elem_of_nil in Ha|]. destruct Hc as (_ & x & Hx & Hc).
  apply elem_of_cons in Ha as [->|Ha]; [by rewrite Hx|by eapply IH].
Qed.

(** Splicing [al] in behind [y]. *)
Lemma achain_splice al xal y xy post pre : ∀ m o,
  achain m o (pre ++ y :: post) → NoDup (pre ++ y :: post) → al ∉ pre ++ y :: post →
  m !! y = Some xy → m !! al = Some xal → next xal = list.head post →
  achain (<[y := Alarm (cond xy) (Some al) (twake xy)]> m) o (pre ++ y :: al :: post).
Proof.
  induction pre as [|a pre IH]; intros m o Hc Hnd Hout Hy Hal Hn; cbn [app achain] in *.
  - destruct Hc as (-> & xy' & Hy' & Hc). apply NoDup_cons in Hnd as [Hny _]. split; [done|]. eexists. rewrite lookup_insert_eq.
    split; [done|]. split; [done|]. exists xal. rewrite lookup_insert_ne by (intros ->; set_solver). split; [done|].
    rewrite Hn. assert (xy' = xy) as -> by congruence. rewrite <- (achain_head _ _ _ Hc). eapply achain_frame; [exact Hc|].
    intros b Hb. rewrite lookup_insert_ne by (intros ->; done). done.
  - destruct Hc as (-> & x & Hx & Hc). apply NoDup_cons in Hnd as [Hna Hnd]. split; [done|]. exists x.
    rewrite lookup_insert_ne by (intros ->; set_solver). split; [done|]. apply IH; try done. set_solver.
Qed.

Lemma ordered_insert m al pre post :
  ordered m (pre ++ post) → Forall (λ a, wake_time m a ≤ wake_time m al) pre →
  Forall (λ a, wake_time m al ≤ wake_time m a) post → ordered m (pre ++ al :: post).
Proof.
  induction pre as [|a pre IH]; cbn [app ordered]; intros Ho Hpre Hpost; [done|].
  destruct Ho as [H1 H2]. apply Forall_cons in Hpre as [Ha Hpre]. split; [|by apply IH].
  apply Forall_app in H1 as [H1 H1']. apply Forall_app. split; [done|]. by constructor.
Qed.

(** The wake-up time that [alarm_sleep] computes. *)
Definition wake_at (x : alarm) (tcnt : Z) : Z := if UINT64_MAX - twake x <? tcnt then UINT64_MAX else twake x + tcnt.

(** The second half of the insertion: linking the alarm in behind [pre]. *)
Definition link_in (al : nat) (t : Z) (ins : aref) : M tsys bool :=
  v ← get_aref ins;
  x ← get_alarm al;
  put_alarm al (Alarm (cond x) v (twake x));;
  set_aref ins (Some al);;
  h ← gets sleep_list;
  (if decide (h = Some al) then set_stcmp t else mret tt);;
  mret true.

Definition waits_like s s' (al : nat) : Prop :=
  kern s' = kern s ∧ (∀ a, wake_time (alarms s') a = wake_time (alarms s) a) ∧
  (∀ a, cond <$> alarms s' !! a = cond <$> alarms s !! a).

Lemma put_run s a x : put_alarm a x s = (Ret tt, with_alarms s (<[a := x]> (alarms s))).
Proof. done. Qed.

Lemma wait_upd m a x v b : m !! a = Some x →
  wake_time (<[a := Alarm (cond x) v (twake x)]> m) b = wake_time m b ∧
  cond <$> (<[a := Alarm (cond x) v (twake x)]> m) !! b = cond <$> m !! b.
Proof.
  intros Ha. unfold wake_time. destruct (decide (b = a)) as [->|]; [by rewrite lookup_insert_eq, Ha|by rewrite lookup_insert_ne by auto].
Qed.

Lemma link_in_ok s al x t pre post :
  achain (alarms s) (sleep_list s) (pre ++ post) → NoDup (pre ++ post) → al ∉ pre ++ post → alarms s !! al = Some x →
  ∃ s', link_in al t (slot_ref AHead pre) s = (Ret true, s') ∧ achain (alarms s') (sleep_list s') (pre ++ al :: post) ∧
    waits_like s s' al ∧ stcmp s' = (if decide (pre = []) then t else stcmp s).
Proof.
  intros Hc Hnd Hout Hx. unfold link_in, slot_ref. destruct (last pre) as [y|] eqn:Hlast.
  - apply last_Some in Hlast as [pre' ->]. rewrite <- app_assoc in *. cbn [app] in *.
    destruct (achain_in _ _ _ y Hc) as [xy Hy]; [set_solver|].
    assert (next xy = list.head post) as Hn.
    { clear -Hc Hy. revert Hc. generalize (sleep_list s). induction pre' as [|a pre' IH]; intros o (-> & x1 & H1 & Hc).
      - assert (x1 = xy) as -> by congruence. by apply (achain_head (alarms s)).
      - by apply (IH (next x1)). }
    assert (get_aref (ANext y) s = (Ret (list.head post), s)) as Hget by (unfold get_aref; krun (get_alarm_run s y xy Hy); by rewrite Hn).
    krun Hget. krun (get_alarm_run s al x Hx). krun (put_run s al (Alarm (cond x) (list.head post) (twake x))).
    set (s1 := with_alarms s _). assert (y ≠ al) as Hya by (intros ->; apply Hout; set_solver).
    assert (alarms s1 !! y = Some xy) as Hy1 by (simpl; by rewrite lookup_insert_ne by auto).
    assert (set_aref (ANext y) (Some al) s1 = (Ret tt, with_alarms s1 (<[y := Alarm (cond xy) (Some al) (twake xy)]> (alarms s1)))) as Hset
      by (unfold set_aref; krun (get_alarm_run s1 y xy Hy1); done).
    krun Hset. kgets. cbn [sleep_list with_alarms s1]. rewrite decide_False.
    2:{ rewrite (achain_head _ _ _ Hc). intros E. apply Hout. destruct pre'; simpl in E; simplify_eq; set_solver. }
    kret. eexists. split; [reflexivity|]. split_and!.
    + simpl. apply achain_splice with (xal := Alarm (cond x) (list.head post) (twake x)); try done; [|by rewrite lookup_insert_eq].
      eapply achain_frame; [exact Hc|]. intros a Ha. rewrite lookup_insert_ne; [done|]. by intros ->.
    + split_and!; [done|..]; intros a; simpl;
        destruct (wait_upd (alarms s1) y xy (Some al) a Hy1) as [E1 E2]; destruct (wait_upd (alarms s) al x (list.head post) a Hx) as [E3 E4]; simpl in *; congruence.
    + destruct (decide (pre' ++ [y] = [])); [by destruct pre'|done].
  - apply last_None in Hlast as ->. cbn [app get_aref] in *. kgets. krun (get_alarm_run s al x Hx).
    krun (put_run s al (Alarm (cond x) (sleep_list s) (twake x))). unfold set_aref. kmodify. kgets. cbn [sleep_list with_list].
    rewrite decide_True by done. unfold set_stcmp. kmodify. eexists. split; [reflexivity|]. split_and!.
    + simpl. split; [done|]. eexists. rewrite lookup_insert_eq. split; [done|]. simpl. eapply achain_frame; [exact Hc|].
      intros a Ha. rewrite lookup_insert_ne; [done|]. by intros ->.
    + split_and!; [done|..]; intros a; simpl; by destruct (wait_upd (alarms s) al x (sleep_list s) a Hx).
    + done.
Qed.

Lemma alarm_sleep_insert_ok s xs al x tcnt now :
  sleepers s xs → alarms s !! al = Some x → al ∉ xs → 0 ≤ twake x ≤ UINT64_MAX → 0 ≤ tcnt ≤ UINT64_MAX →
  let t := Z.min UINT64_MAX (twake x + tcnt) in
  if t <? now then alarm_sleep al tcnt now s = (Ret tt, with_alarms s (<[al := Alarm (cond x) (next x) t]> (alarms s)))
  else ∃ s' pre post, alarm_sleep_insert al tcnt now s = (Ret true, s') ∧ xs = pre ++ post ∧ sleepers s' (pre ++ al :: post) ∧
    Forall (λ a, wake_time (alarms s') a ≤ t) pre ∧ Forall (λ a, t < wake_time (alarms s') a) post ∧
    kern s' = kern s ∧ wake_time (alarms s') al = t ∧ (∀ a, a ≠ al → wake_time (alarms s') a = wake_time (alarms s) a) ∧
    (∀ a, cond <$> alarms s' !! a = cond <$> alarms s !! a).
Proof.
  intros [Hc Hnd Hord Hst] Hx Hout Hw Ht t.
  assert ((if UINT64_MAX - twake x <? tcnt then UINT64_MAX else twake x + tcnt) = t) as Et
    by (unfold t; destruct (Z.ltb_spec (UINT64_MAX - twake x) tcnt); lia).
  assert (alarm_sleep_insert al tcnt now s = (if t <? now then mret false else
    n ← gets (λ s, base.size (alarms s)); ins ← find_slot (S n) t AHead; link_in al t ins)
    (with_alarms s (<[al := Alarm (cond x) (next x) t]> (alarms s)))) as Hrun.
  { unfold alarm_sleep_insert. krun (get_alarm_run s al x Hx). cbv zeta. rewrite Et. by krun (put_run s al (Alarm (cond x) (next x) t)). }
  set (s0 := with_alarms s _) in *. destruct (Z.ltb_spec t now) as [Hlt|Hge].
  { unfold alarm_sleep. krun Hrun. done. }
  rewrite Hrun. kgets. assert (∀ a, a ≠ al → alarms s0 !! a = alarms s !! a) as H0 by (intros; simpl; by rewrite lookup_insert_ne by auto).
  assert (∀ a, a ≠ al → wake_time (alarms s0) a = wake_time (alarms s) a) as Hw0 by (intros; unfold wake_time; by rewrite H0).
  assert (achain (alarms s0) (sleep_list s0) xs) as Hc0.
  { eapply achain_frame; [exact Hc|]. intros a Ha. rewrite H0; [done|]. by intros ->. }
  destruct (find_slot_ok t xs (S (base.size (alarms s0))) s0 AHead (sleep_list s0)) as (pre & post & -> & Hpre & Hpost & Hfind);
    [done|done|pose proof (chain_bound _ _ _ Hc0 Hnd); lia|].
  krun Hfind. assert (alarms s0 !! al = Some (Alarm (cond x) (next x) t)) as Hal by apply lookup_insert_eq.
  destruct (link_in_ok s0 al _ t pre post Hc0 Hnd Hout Hal) as (s' & Hlink & Hc' & (Hk & Hw' & Hcd) & Hst').
  assert (wake_time (alarms s0) al = t) as Hwal by (unfold wake_time; by rewrite Hal).
  assert (ordered (alarms s0) (pre ++ post)) as Ho0 by (eapply ordered_frame; [|exact Hord]; intros a Ha; apply Hw0; by intros ->).
  assert (Forall (λ a, t < wake_time (alarms s0) a) post) as Hpost'.
  { pose proof (ordered_app _ _ _ Ho0) as Hop. destruct post as [|b post]; [done|]. specialize (Hpost b eq_refl). destruct Hop as [Hop _].
    constructor; [done|]. eapply Forall_impl; [exact Hop|]. intros c. cbn beta. lia. }
  exists s', pre, post. split_and!; try done.
  - split; [done| | |].
    + rewrite <- Permutation_middle. by apply NoDup_cons.
    + eapply ordered_frame; [intros a _; apply Hw'|]. apply ordered_insert; [done|by rewrite Hwal|]. rewrite Hwal.
      eapply Forall_impl; [exact Hpost'|]. simpl. lia.
    + rewrite Hst'. destruct pre as [|a pre]; simpl; [by rewrite Hw', Hwal|]. rewrite Hst. simpl. rewrite Hw', Hw0; [done|]. set_solver.
  - eapply Forall_impl; [exact Hpre|]. intros a. by rewrite Hw'.
  - eapply Forall_impl; [exact Hpost'|]. intros a. by rewrite Hw'.
  - by rewrite Hw', Hwal.
  - intros a Ha. by rewrite Hw', Hw0.
  - intros a. rewrite Hcd. destruct (decide (a = al)) as [->|]; [by rewrite Hal, Hx|by rewrite H0].
Qed.

(** Going to sleep: unless the wake-up time has passed already, the alarm is
    put into the sleep list so that it stays in order of wake-up time, behind
    alarms with the same time; the wake-up time saturates at UINT64_MAX, and
    the timer is set to the time of the first alarm. *)
Lemma alarm_sleep_ordered s xs al x tcnt now :
  sleepers s xs → alarms s !! al = Some x → al ∉ xs → 0 ≤ twake x ≤ UINT64_MAX → 0 ≤ tcnt ≤ UINT64_MAX →
  let t := Z.min UINT64_MAX (twake x + tcnt) in
  if t <? now then alarm_sleep al tcnt now s = (Ret tt, with_alarms s (<[al := Alarm (cond x) (next x) t]> (alarms s)))
  else ∃ s' pre post, alarm_sleep_insert al tcnt now s = (Ret true, s') ∧ xs = pre ++ post ∧ sleepers s' (pre ++ al :: post) ∧
    Forall (λ a, wake_time (alarms s') a ≤ t) pre ∧ Forall (λ a, t < wake_time (alarms s') a) post ∧
    kern s' = kern s ∧ wake_time (alarms s') al = t ∧ (∀ a, a ≠ al → wake_time (alarms s') a = wake_time (alarms s) a).
Proof.
  intros Hsl Hx Hout Hw Ht t. pose proof (alarm_sleep_insert_ok s xs al x tcnt now Hsl Hx Hout Hw Ht) as H. cbv zeta in H. fold t in H.
  destruct (t <? now); [done|]. destruct H as (s' & pre & post & ? & ? & ? & ? & ? & ? & ? & ? & _). by exists s', pre, post.
Qed.

(** ** The window before the wait *)

(** Timer interrupts at the times [ts]. *)
Fixpoint interrupts (ts : list Z) : M tsys unit :=
  match ts with [] => mret tt | t :: ts => handle_timer_interrupt t;; interrupts ts end.

(** A thread that waits on a condition of no sleeping alarm is not woken. *)
Lemma interrupts_keep ts : ∀ s xs q c,
  sleepers s xs → inv (kern s) q → (∀ a x, a ∈ xs → alarms s !! a = Some x → cond x ≠ c) →
  ∃ s' q', interrupts ts s = (Ret tt, s') ∧ inv (kern s') q' ∧ q' (Cond c) = q (Cond c).
Proof.
  induction ts as [|t ts IH]; intros s xs q c Hsl Hinv Hc; [by exists s, q|]. cbn [interrupts].
  destruct (timer_interrupt_ok s xs q t Hsl Hinv) as (s1 & q1 & Hrun & Hi1 & _ & Hsl1 & Hwk & Hcd). krun Hrun.
  destruct (IH s1 _ q1 c Hsl1 Hi1) as (s2 & q2 & Hrun2 & Hi2 & E).
  { intros a x [_ Ha]%list_elem_of_filter Hx. specialize (Hcd a). rewrite Hx in Hcd. destruct (alarms s !! a) as [y|] eqn:Ey; [|done].
    injection Hcd as Hcd. rewrite Hcd. by apply (Hc a y). }
  exists s2, q2. split_and!; try done. rewrite E. apply (wk_other _ _ _ _ Hwk).
  intros a x [_ Ha]%list_elem_of_filter Hx. by apply (Hc a x).
Qed.

(** An alarm that fires between the insertion into the sleep list and
    [condition_wait] is lost: the interrupt broadcasts to nobody and takes the
    alarm off the list, then the thread waits, and no timer interrupt at any
    later time wakes it. *)
Lemma alarm_race_loses_wakeup s xs q al x tcnt now now1 ts :
  sleepers s xs → inv (kern s) q → TP (kern s) ≠ idle_thread → alarms s !! al = Some x → al ∉ xs →
  (∀ a y, a ∈ xs → alarms s !! a = Some y → cond y ≠ cond x) →
  0 ≤ twake x → 0 ≤ tcnt → twake x + tcnt ≤ UINT64_MAX → now ≤ twake x + tcnt ≤ now1 →
  ∃ s1 s2 s3 s4, alarm_sleep_insert al tcnt now s = (Ret true, s1) ∧ handle_timer_interrupt now1 s1 = (Ret tt, s2) ∧
    alarm_sleep_wait al s2 = (Ret tt, s3) ∧ interrupts ts s3 = (Ret tt, s4) ∧
    member (kern s4) (Cond (cond x)) (TP (kern s)).
Proof.
  intros Hsl Hinv Hni Hx Hout Hcond H0 H1 Hmax Hnow.
  pose proof (alarm_sleep_insert_ok s xs al x tcnt now Hsl Hx Hout ltac:(lia) ltac:(lia)) as Hins. cbv zeta in Hins.
  rewrite Z.min_r in Hins by lia. rewrite (proj2 (Z.ltb_ge _ now)) in Hins by lia.
  destruct Hins as (s1 & pre & post & Hrun1 & -> & Hsl1 & _ & _ & Hk1 & Hwal & _ & Hcd1). rewrite <- Hk1 in Hinv.
  destruct (timer_interrupt_ok s1 _ q now1 Hsl1 Hinv) as (s2 & q2 & Hrun2 & Hi2 & Htp2 & Hsl2 & _ & Hcd2).
  assert (∃ x2, alarms s2 !! al = Some x2 ∧ cond x2 = cond x) as (x2 & Hx2 & Ecx).
  { specialize (Hcd2 al). rewrite Hcd1, Hx in Hcd2. destruct (alarms s2 !! al) as [x2|]; [|done]. injection Hcd2 as E. by exists x2. }
  assert (TP (kern s2) = TP (kern s)) as Htp by (by rewrite Htp2, Hk1).
  destruct (condition_wait_ok (kern s2) q2 (cond x) Hi2) as (k3 & y & l & Hrun3 & _ & _ & Hi3 & _); [by rewrite Htp|].
  assert (alarm_sleep_wait al s2 = (Ret tt, with_kern s2 k3)) as Hwait.
  { unfold alarm_sleep_wait. krun (get_alarm_run s2 al x2 Hx2). rewrite Ecx. by apply timer_kern_run. }
  destruct (interrupts_keep ts (with_kern s2 k3) _ _ (cond x) (sleepers_kern s2 k3 _ Hsl2) Hi3) as (s4 & q4 & Hrun4 & Hi4 & E4).
  { intros a xa [Hna Ha]%list_elem_of_filter Hxa. simpl in Hxa. specialize (Hcd2 a). rewrite Hcd1, Hxa in Hcd2.
    destruct (alarms s !! a) as [ya|] eqn:Ey; [|done]. injection Hcd2 as E. rewrite E.
    assert (a ≠ al) as Hne by (intros ->; rewrite Hwal in Hna; lia).
    apply (Hcond a ya); [|done]. rewrite elem_of_app, elem_of_cons in Ha. apply elem_of_app. naive_solver. }
  exists s1, s2, (with_kern s2 k3), s4. split_and!; try done.
  apply (inv_agree _ _ Hi4). rewrite E4. unfold qset. rewrite decide_False, decide_True by done. rewrite Htp. apply elem_of_app. right. by left.
Qed.

(** ** Concrete runs: alarm 5 sleeps until 100, alarm 6 is idle *)

Definition demo_timer : tsys :=
  TSys (initial 0 1) {[ 5%nat := Alarm 30 None 100; 6%nat := Alarm 31 None 40 ]} (Some 5%nat) 100 true.

Lemma demo_sleepers : sleepers demo_timer [5%nat].
Proof.
  split; [|apply NoDup_singleton|by repeat constructor|done]. split; [done|]. by exists (Alarm 30 None 100).
Qed.

(** The main thread waits for alarm 5 and the new thread 2 for alarm 6, which
    comes first. *)
Definition sleeping : ks := run_ops [OWait 31; OWait 30] demo.
Definition demo_asleep : tsys :=
  TSys sleeping {[ 5%nat := Alarm 30 None 100; 6%nat := Alarm 31 (Some 5%nat) 40 ]} (Some 6%nat) 40 true.

Lemma sleeping_reachable : reachable 0 1 sleeping.
Proof. unfold sleeping, run_ops. cbn [foldl]. apply reach_op; [apply reach_op; [apply demo_reachable|..]|..]; by vm_compute. Qed.

Lemma demo_asleep_sleepers : sleepers demo_asleep [6%nat; 5%nat].
Proof.
  split; [|by apply (bool_decide_unpack _); vm_compute|by repeat constructor|done].
  split; [done|]. exists (Alarm 31 (Some 5%nat) 40). split; [done|]. split; [done|]. by exists (Alarm 30 None 100).
Qed.

Lemma timer_interrupt_correct_witness :
  ∃ s' q q', handle_timer_interrupt 100 demo_asleep = (Ret tt, s') ∧ inv sleeping q ∧ inv (kern s') q' ∧ sleepers s' [] ∧
    q' Ready = q Ready ++ q (Cond 31) ++ q (Cond 30) ∧ 2%nat ∈ q (Cond 31) ∧ main_thread ∈ q (Cond 30).
Proof.
  destruct (reachable_sys 0 1 sleeping sleeping_reachable) as (q & h & Hinv & _).
  destruct (timer_interrupt_correct demo_asleep [6%nat; 5%nat] q 100 demo_asleep_sleepers Hinv) as (s' & q' & Hrun & Hi & _ & Hsl & Hwk).
  exists s', q, q'. split_and!; [done|done|done|exact Hsl| | |].
  - rewrite (wk_order _ _ _ _ Hwk).
    + change (q Ready ++ q (Cond 31) ++ q (Cond 30) ++ [] = q Ready ++ q (Cond 31) ++ q (Cond 30)). by rewrite app_nil_r.
    + apply (bool_decide_unpack _). by vm_compute.
  - apply (inv_agree _ _ Hinv). eexists. split; by vm_compute.
  - apply (inv_agree _ _ Hinv). eexists. split; by vm_compute.
Defined.

Lemma alarm_sleep_ordered_witness :
  ∃ s' pre post, alarm_sleep_insert 6 10 20 demo_timer = (Ret true, s') ∧ [5%nat] = pre ++ post ∧
    sleepers s' (pre ++ 6%nat :: post) ∧
    Forall (λ a, wake_time (alarms s') a ≤ 50) pre ∧ Forall (λ a, 50 < wake_time (alarms s') a) post ∧
    kern s' = kern demo_timer ∧ wake_time (alarms s') 6 = 50 ∧
    (∀ a, a ≠ 6%nat → wake_time (alarms s') a = wake_time (alarms demo_timer) a).
Proof.
  apply (alarm_sleep_ordered demo_timer [5%nat] 6 (Alarm 31 None 40) 10 20 demo_sleepers eq_refl); [set_solver| |];
    unfold UINT64_MAX; simpl; lia.
Defined.

Lemma alarm_race_loses_wakeup_witness :
  ∃ s1 s2 s3 s4, alarm_sleep_insert 6 10 20 demo_timer = (Ret true, s1) ∧ handle_timer_interrupt 60 s1 = (Ret tt, s2) ∧
    alarm_sleep_wait 6 s2 = (Ret tt, s3) ∧ interrupts [100; 200] s3 = (Ret tt, s4) ∧
    member (kern s4) (Cond 31) main_thread.
Proof.
  apply (alarm_race_loses_wakeup demo_timer [5%nat] q0 6 (Alarm 31 None 40) 10 20 60 [100; 200] demo_sleepers (initial_inv 0 1));
    try (unfold UINT64_MAX; simpl; lia); [done|done|set_solver|].
  intros a y ->%list_elem_of_singleton [= <-]. done.
Defined.

End Timer.
