(* ===== verification/Intr.v ===== *)
(** * Interrupt controller and interrupt dispatch (kernel/plic.c, kernel/intr.c)

    The registers of the PLIC are fields of the state.  Reading the claim
    register is an act of the hardware: the source it delivers is an argument,
    and a theorem that depends on it assumes what the PLIC specification says,
    that a source with priority 0 is never delivered.  Service routines work on
    a client state and on the state of the interrupt controller. *)

From S2P Require Import Prelude Config.

Module Intr.

Definition PLIC_SRC_CNT : Z := 96.
Definition PLIC_CTX_CNT : Z := 2.
Definition PLIC_PRIO_MAX : Z := 7.
Definition NIRQ : Z := PLIC_SRC_CNT.
(** CTX(i,s) *)
Definition CTX (i s : Z) : Z := 2 * i + s.
Definition RISCV_SCAUSE_STI : Z := 5.
Definition RISCV_SCAUSE_SEI : Z := 9.

Record plic := Plic { priority : list Z; pending : list Z; enable : list (list Z); threshold : list Z; completed : list Z }.

(** An entry of [isrtab]: the routine and its argument. *)
Notation isr_entry := (option (nat * Z)).

Record isys := ISys { PLIC : plic; isrtab : list isr_entry; sie : Z; intrmgr_initialized : bool }.

Implicit Types (s : isys) (srcno level ctxno prio : Z).

Definition with_plic s p : isys := ISys p (isrtab s) (sie s) (intrmgr_initialized s).
Definition with_isrtab s t : isys := ISys (PLIC s) t (sie s) (intrmgr_initialized s).
Definition assert (b : bool) : M isys unit := if b then mret tt else panic.

(** ** Registers *)

Definition plic_set_source_priority srcno level : M isys unit :=
  assert ((0 <=? srcno) && (srcno <? PLIC_SRC_CNT));;
  assert ((0 <=? level) && (level <=? PLIC_PRIO_MAX));;
  modify (λ s, let p := PLIC s in
    with_plic s (Plic (setb srcno level (priority p)) (pending p) (enable p) (threshold p) (completed p))).

Definition plic_source_pending srcno : M isys Z :=
  assert ((0 <=? srcno) && (srcno <? PLIC_SRC_CNT));;
  gets (λ s, Z.land (Z.shiftr (getb 0 (pending (PLIC s)) (srcno / 32)) (srcno mod 32)) 1).

Definition upd_enable ctxno (i : Z) (f : Z → Z) : M isys unit :=
  modify (λ s, let p := PLIC s in
    let row := getb [] (enable p) ctxno in
    with_plic s (Plic (priority p) (pending p) (setb ctxno (setb i (f (getb 0 row i)) row) (enable p)) (threshold p) (completed p))).

Definition plic_enable_source_for_context ctxno srcno : M isys unit :=
  assert ((0 <=? ctxno) && (ctxno <? PLIC_CTX_CNT));;
  assert ((0 <=? srcno) && (srcno <? PLIC_SRC_CNT));;
  upd_enable ctxno (srcno / 32) (λ w, Z.lor w (Z.shiftl 1 (srcno mod 32))).

Definition plic_disable_source_for_context ctxno srcid : M isys unit :=
  assert ((0 <=? ctxno) && (ctxno <? PLIC_CTX_CNT));;
  assert ((0 <=? srcid) && (srcid <? PLIC_SRC_CNT));;
  upd_enable ctxno (srcid / 32) (λ w, Z.land w (2 ^ 32 - 1 - Z.shiftl 1 (srcid mod 32))).

Definition plic_set_context_threshold ctxno level : M isys unit :=
  assert ((0 <=? ctxno) && (ctxno <? PLIC_CTX_CNT));;
  assert ((0 <=? level) && (level <=? PLIC_PRIO_MAX));;
  modify (λ s, let p := PLIC s in
    with_plic s (Plic (priority p) (pending p) (enable p) (setb ctxno level (threshold p)) (completed p))).

(** [claimed] is what the hardware delivers. *)
Definition plic_claim_context_interrupt ctxno (claimed : Z) : M isys Z :=
  assert ((0 <=? ctxno) && (ctxno <? PLIC_CTX_CNT));; mret claimed.

Definition plic_complete_context_interrupt ctxno srcno : M isys unit :=
  assert ((0 <=? ctxno) && (ctxno <? PLIC_CTX_CNT));;
  modify (λ s, let p := PLIC s in
    with_plic s (Plic (priority p) (pending p) (enable p) (threshold p) (completed p ++ [srcno]))).

(** A [for] loop from [i] over [n] values. *)
Fixpoint for_loop (n : nat) (i : Z) (f : Z → M isys unit) : M isys unit :=
  match n with O => mret tt | S n => f i;; for_loop n (i + 1) f end.

Definition plic_enable_all_sources_for_context ctxno : M isys unit :=
  assert ((0 <=? ctxno) && (ctxno <? PLIC_CTX_CNT));;
  for_loop (Z.to_nat (PLIC_SRC_CNT / 32)) 0 (λ i, upd_enable ctxno i (λ _, 0xFFFFFFFF)).

Definition plic_disable_all_sources_for_context ctxno : M isys unit :=
  assert ((0 <=? ctxno) && (ctxno <? PLIC_CTX_CNT));;
  for_loop (Z.to_nat (PLIC_SRC_CNT / 32)) 0 (λ i, upd_enable ctxno i (λ _, 0)).

(** ** The exported functions of plic.c *)

Definition plic_init : M isys unit :=
  for_loop (Z.to_nat PLIC_SRC_CNT) 0 (λ i, plic_set_source_priority i 0);;
  for_loop (Z.to_nat PLIC_CTX_CNT) 0 plic_disable_all_sources_for_context;;
  plic_enable_all_sources_for_context (CTX 0 1).

Definition plic_enable_source srcno prio : M isys unit :=
  assert ((0 <? srcno) && (srcno <=? PLIC_SRC_CNT));;
  assert (0 <? prio);;
  plic_set_source_priority srcno prio.

Definition plic_disable_source irqno : M isys unit :=
  if 0 <? irqno then plic_set_source_priority irqno 0 else mret tt.

Definition plic_claim_interrupt (claimed : Z) : M isys Z := plic_claim_context_interrupt (CTX 0 1) claimed.
Definition plic_finish_interrupt irqno : M isys unit := plic_complete_context_interrupt (CTX 0 1) irqno.

(** ** intr.c *)

(** Callers of [disable_intr_source] pass a source they enabled. *)

Definition intrmgr_init : M isys unit :=
  plic_init;;
  modify (λ s, ISys (PLIC s) (isrtab s) (Z.lor (Z.shiftl 1 RISCV_SCAUSE_SEI) (Z.shiftl 1 RISCV_SCAUSE_STI)) true).

Definition enable_intr_source srcno prio (isr : nat) (isr_aux : Z) : M isys unit :=
  assert ((0 <? srcno) && (srcno <? NIRQ));;
  assert (0 <? prio);;
  modify (λ s, with_isrtab s (setb srcno (Some (isr, isr_aux)) (isrtab s)));;
  plic_enable_source srcno prio.

Definition disable_intr_source srcno : M isys unit :=
  plic_disable_source srcno;;
  modify (λ s, with_isrtab s (setb srcno None (isrtab s))).

Section dispatch.
(** The state the service routines work on, next to the controller's. *)
Context {C : Type} (run_isr : nat → Z → Z → M (isys * C) unit) (timer : M C unit) (yield : M C unit).

Definition on_intr {A} (m : M isys A) : M (isys * C) A := λ x, let (r, i) := m x.1 in (r, (i, x.2)).
Definition on_client {A} (m : M C A) : M (isys * C) A := λ x, let (r, c) := m x.2 in (r, (x.1, c)).

Definition handle_extern_interrupt (claimed : Z) : M (isys * C) unit :=
  srcno ← on_intr (plic_claim_interrupt claimed);
  on_intr (assert ((0 <=? srcno) && (srcno <? NIRQ)));;
  if srcno =? 0 then mret tt
  else
    tab ← gets (λ x : isys * C, isrtab x.1);
    match getb None tab srcno with
    | None => panic
    | Some (isr, aux) =>
        run_isr isr srcno aux;;
        on_intr (plic_finish_interrupt srcno)
    end.

Definition handle_interrupt (cause claimed : Z) : M (isys * C) unit :=
  if cause =? RISCV_SCAUSE_STI then on_client timer
  else if cause =? RISCV_SCAUSE_SEI then handle_extern_interrupt claimed
  else panic.

Definition handle_smode_interrupt (cause claimed : Z) : M (isys * C) unit := handle_interrupt cause claimed.
Definition handle_umode_interrupt (cause claimed : Z) : M (isys * C) unit :=
  handle_interrupt cause claimed;; on_client yield.
End dispatch.

(** ** Sources and handlers *)

Definition in_src (i : Z) : Prop := 0 ≤ i < PLIC_SRC_CNT.
(** The state with the interrupt [srcno] completed, after all others. *)
Definition complete s srcno : isys :=
  let p := PLIC s in with_plic s (Plic (priority p) (pending p) (enable p) (threshold p) (completed p ++ [srcno])).

Definition prio_of s (i : Z) : Z := getb 0 (priority (PLIC s)) i.
Definition handler_of s (i : Z) : isr_entry := getb None (isrtab s) i.

(** A source that can interrupt has a handler. *)
Record served s : Prop := {
  sv_prio : length (priority (PLIC s)) = Z.to_nat PLIC_SRC_CNT;
  sv_tab : length (isrtab s) = Z.to_nat NIRQ;
  sv_isr i : in_src i → 0 < prio_of s i → is_Some (handler_of s i)
}.

Lemma assert_true (b : bool) s : b = true → assert b s = (Ret tt, s).
Proof. by intros ->. Qed.

Lemma getb_setb {A} (d v : A) l i j :
  0 ≤ i → 0 ≤ j → (Z.to_nat i < length l)%nat → getb d (setb i v l) j = if decide (j = i) then v else getb d l j.
Proof. intros. case_decide; [subst; by apply getb_setb_same|by apply getb_setb_ne]. Qed.

Definition set_prio s srcno level : isys :=
  let p := PLIC s in with_plic s (Plic (setb srcno level (priority p)) (pending p) (enable p) (threshold p) (completed p)).

Lemma set_priority_run s srcno level :
  in_src srcno → 0 ≤ level ≤ PLIC_PRIO_MAX → plic_set_source_priority srcno level s = (Ret tt, set_prio s srcno level).
Proof.
  unfold in_src. intros Hs Hl. unfold plic_set_source_priority.
  krun (assert_true ((0 <=? srcno) && (srcno <? PLIC_SRC_CNT)) s ltac:(lia)).
  by krun (assert_true ((0 <=? level) && (level <=? PLIC_PRIO_MAX)) s ltac:(lia)).
Qed.

Lemma prio_set s srcno level i :
  served s → in_src srcno → in_src i → prio_of (set_prio s srcno level) i = if decide (i = srcno) then level else prio_of s i.
Proof.
  unfold in_src. intros Hsv Hs Hi. apply getb_setb; [lia|lia|]. rewrite (sv_prio s Hsv). lia.
Qed.

(** What enabling and disabling do, and that a source that can interrupt has a
    handler also between their two writes. *)
Lemma enable_ok s srcno prio isr aux :
  served s → 0 < srcno < NIRQ → 0 < prio ≤ PLIC_PRIO_MAX →
  let s1 := with_isrtab s (setb srcno (Some (isr, aux)) (isrtab s)) in
  enable_intr_source srcno prio isr aux s = (Ret tt, set_prio s1 srcno prio) ∧ served s1 ∧ served (set_prio s1 srcno prio).
Proof.
  intros Hsv Hs Hp s1. assert (NIRQ = PLIC_SRC_CNT) as HN by done.
  assert (∀ i, in_src i → handler_of s1 i = if decide (i = srcno) then Some (isr, aux) else handler_of s i) as Hh.
  { unfold in_src. intros i Hi. apply getb_setb; [lia|lia|]. rewrite (sv_tab s Hsv). lia. }
  assert (served s1) as Hs1.
  { split; [apply Hsv|simpl; rewrite length_setb; apply Hsv|]. intros i Hi H0. rewrite Hh by done.
    case_decide; [by eexists|]. by apply (sv_isr s Hsv). }
  split_and!; [|done|].
  - unfold enable_intr_source. krun (assert_true ((0 <? srcno) && (srcno <? NIRQ)) s ltac:(lia)).
    krun (assert_true (0 <? prio) s ltac:(lia)). kmodify. fold s1. unfold plic_enable_source.
    krun (assert_true ((0 <? srcno) && (srcno <=? PLIC_SRC_CNT)) s1 ltac:(lia)).
    krun (assert_true (0 <? prio) s1 ltac:(lia)). apply set_priority_run; [split; lia|lia].
  - assert (in_src srcno) as Hin by (split; lia).
    split; [simpl; rewrite length_setb; apply Hsv|apply Hs1|]. intros i Hi H0.
    rewrite prio_set in H0 by done. change (is_Some (handler_of s1 i)). rewrite Hh by done.
    case_decide; [by eexists|]. by apply (sv_isr s Hsv).
Qed.

Lemma disable_ok s srcno :
  served s → 0 < srcno < NIRQ →
  let s1 := set_prio s srcno 0 in
  disable_intr_source srcno s = (Ret tt, with_isrtab s1 (setb srcno None (isrtab s))) ∧ served s1 ∧
  served (with_isrtab s1 (setb srcno None (isrtab s))).
Proof.
  intros Hsv Hs s1. assert (NIRQ = PLIC_SRC_CNT) as HN by done. assert (in_src srcno) as Hin by (split; lia).
  assert (∀ i, in_src i → prio_of s1 i = if decide (i = srcno) then 0 else prio_of s i) as Hp by (intros; by apply prio_set).
  split_and!.
  - unfold disable_intr_source, plic_disable_source. rewrite (proj2 (Z.ltb_lt 0 srcno)) by lia.
    krun (set_priority_run s srcno 0 Hin ltac:(unfold PLIC_PRIO_MAX; lia)). done.
  - split; [simpl; rewrite length_setb; apply Hsv|apply Hsv|]. intros i Hi. rewrite Hp by done.
    case_decide; [lia|]. by apply (sv_isr s Hsv).
  - split; [simpl; rewrite length_setb; apply Hsv|simpl; rewrite length_setb; apply Hsv|]. intros i Hi H0.
    change (prio_of (with_isrtab s1 _) i) with (prio_of s1 i) in H0. rewrite Hp in H0 by done. case_decide; [lia|].
    change (is_Some (getb None (setb srcno None (isrtab s)) i)). unfold in_src in *.
    rewrite getb_setb_ne by lia. by apply (sv_isr s Hsv).
Qed.

(** ** Initialisation *)

Lemma for_loop_inv (P : isys → Prop) f n : ∀ i s,
  (∀ j s, i ≤ j < i + Z.of_nat n → P s → ∃ s', f j s = (Ret tt, s') ∧ P s') → P s →
  ∃ s', for_loop n i f s = (Ret tt, s') ∧ P s'.
Proof.
  induction n as [|n IH]; intros i s Hf Hs; [by exists s|]. cbn [for_loop].
  destruct (Hf i s ltac:(lia) Hs) as (s1 & Hrun & H1). krun Hrun. apply IH; [|done]. intros j s2 Hj. apply Hf. lia.
Qed.

Definition clear_below (n : Z) s : Prop :=
  length (priority (PLIC s)) = Z.to_nat PLIC_SRC_CNT ∧ length (isrtab s) = Z.to_nat NIRQ ∧ ∀ i, 0 ≤ i < n → prio_of s i = 0.

Lemma clear_loop n : ∀ i s,
  0 ≤ i → i + Z.of_nat n ≤ PLIC_SRC_CNT → clear_below i s →
  ∃ s', for_loop n i (λ i, plic_set_source_priority i 0) s = (Ret tt, s') ∧ clear_below (i + Z.of_nat n) s'.
Proof.
  induction n as [|n IH]; intros i s Hi Hn (Hl & Ht & Hp); [exists s; split; [done|]; by rewrite Z.add_0_r|]. cbn [for_loop].
  krun (set_priority_run s i 0 ltac:(unfold in_src; lia) ltac:(unfold PLIC_PRIO_MAX; lia)).
  destruct (IH (i + 1) (set_prio s i 0)) as (s' & Hrun & Hs'); [lia|lia| |].
  - split_and!; [simpl; by rewrite length_setb|done|]. intros j Hj. unfold prio_of, set_prio. simpl.
    rewrite getb_setb by lia. case_decide; [done|]. apply Hp. lia.
  - exists s'. split; [done|]. by replace (i + Z.of_nat (S n)) with (i + 1 + Z.of_nat n) by lia.
Qed.

Lemma enable_row_keeps ctxno i f s : clear_below PLIC_SRC_CNT s → ∃ s', upd_enable ctxno i f s = (Ret tt, s') ∧ clear_below PLIC_SRC_CNT s'.
Proof. intros Hs. by eexists. Qed.

Lemma all_sources_keep ctxno s (v : Z) :
  0 ≤ ctxno < PLIC_CTX_CNT → clear_below PLIC_SRC_CNT s →
  ∃ s', (assert ((0 <=? ctxno) && (ctxno <? PLIC_CTX_CNT));;
         for_loop (Z.to_nat (PLIC_SRC_CNT / 32)) 0 (λ i, upd_enable ctxno i (λ _, v))) s = (Ret tt, s') ∧ clear_below PLIC_SRC_CNT s'.
Proof.
  intros Hc Hs. krun (assert_true ((0 <=? ctxno) && (ctxno <? PLIC_CTX_CNT)) s ltac:(lia)).
  apply (for_loop_inv (clear_below PLIC_SRC_CNT)); [|done]. intros j s1 _. apply enable_row_keeps.
Qed.

(** After initialisation no source can interrupt. *)
Lemma intrmgr_init_served s :
  length (priority (PLIC s)) = Z.to_nat PLIC_SRC_CNT → length (isrtab s) = Z.to_nat NIRQ →
  ∃ s', intrmgr_init s = (Ret tt, s') ∧ served s'.
Proof.
  intros Hl Ht. unfold intrmgr_init, plic_init. rewrite bind_bind.
  destruct (clear_loop (Z.to_nat PLIC_SRC_CNT) 0 s) as (s1 & Hrun1 & Hs1); [lia|done|split_and!; [done|done|lia]|].
  krun Hrun1. rewrite bind_bind.
  destruct (for_loop_inv (clear_below PLIC_SRC_CNT) plic_disable_all_sources_for_context (Z.to_nat PLIC_CTX_CNT) 0 s1) as (s2 & Hrun2 & Hs2);
    [|exact Hs1|].
  { intros j s2 Hj Hs2. unfold plic_disable_all_sources_for_context. apply (all_sources_keep j s2 0); [unfold PLIC_CTX_CNT in *; lia|done]. }
  krun Hrun2. destruct (all_sources_keep (CTX 0 1) s2 0xFFFFFFFF ltac:(unfold CTX, PLIC_CTX_CNT; lia) Hs2) as (s3 & Hrun3 & Hl3 & Ht3 & Hp3).
  rewrite (bind_ret (plic_enable_all_sources_for_context (CTX 0 1)) _ s2 s3 tt Hrun3). eexists. split; [reflexivity|].
  split; [done|done|]. intros i Hi H0. pose proof (Hp3 i Hi) as E. change (0 < prio_of s3 i) in H0. lia.
Qed.

(** Operations on interrupt sources. *)
Inductive istep : isys → isys → Prop :=
  | i_enable s srcno prio isr aux s' : 0 < srcno < NIRQ → 0 < prio ≤ PLIC_PRIO_MAX →
      enable_intr_source srcno prio isr aux s = (Ret tt, s') → istep s s'
  | i_disable s srcno s' : 0 < srcno < NIRQ → disable_intr_source srcno s = (Ret tt, s') → istep s s'.

Lemma istep_served s s' : istep s s' → served s → served s'.
Proof.
  intros Hst Hsv. destruct Hst as [s srcno prio isr aux s' H1 H2 Hrun|s srcno s' H1 Hrun].
  - destruct (enable_ok s srcno prio isr aux Hsv H1 H2) as (E & _ & ?). congruence.
  - destruct (disable_ok s srcno Hsv H1) as (E & _ & ?). congruence.
Qed.

(** C36. However drivers have enabled and disabled their sources since
    [intrmgr_init], an external interrupt never reaches the panic for a missing
    handler: for a source the PLIC may deliver, whose priority is not 0, the
    routine that was registered for it runs with its argument, once and in the
    state the interrupt found, so before it is completed; the only change after
    the routine is that the interrupt is completed.  Source 0, no interrupt,
    does nothing. *)
Theorem extern_interrupt_dispatch {C} (run_isr : nat → Z → Z → M (isys * C) unit) s00 s0 s (c : C) claimed :
  length (priority (PLIC s00)) = Z.to_nat PLIC_SRC_CNT → length (isrtab s00) = Z.to_nat NIRQ →
  intrmgr_init s00 = (Ret tt, s0) → rtc istep s0 s → in_src claimed → claimed = 0 ∨ 0 < prio_of s claimed →
  if claimed =? 0 then handle_extern_interrupt run_isr claimed (s, c) = (Ret tt, (s, c))
  else ∃ isr aux, handler_of s claimed = Some (isr, aux) ∧
    ∀ s1 c1, run_isr isr claimed aux (s, c) = (Ret tt, (s1, c1)) →
      handle_extern_interrupt run_isr claimed (s, c) = (Ret tt, (complete s1 claimed, c1)).
Proof.
  intros Hl Ht Hinit Hr Hin Hcl. assert (served s) as Hs.
  { destruct (intrmgr_init_served s00 Hl Ht) as (s0' & E & Hsv). assert (s0' = s0) as -> by congruence. clear E Hinit.
    revert Hsv. clear Hin Hcl. induction Hr as [|s0 s1 s2 Hst _ IH]; [done|]. intros H. by apply IH, (istep_served s0). }
  unfold in_src in Hin. assert (NIRQ = PLIC_SRC_CNT) as HN by done.
  assert (on_intr (plic_claim_interrupt claimed) (s, c) = (Ret claimed, (s, c))) as Hclaim by done.
  assert (on_intr (C := C) (assert ((0 <=? claimed) && (claimed <? NIRQ))) (s, c) = (Ret tt, (s, c))) as Has.
  { unfold on_intr. by rewrite assert_true by lia. }
  destruct (Z.eqb_spec claimed 0) as [->|Hne].
  - done.
  - destruct Hcl as [?|Hp]; [done|]. destruct (sv_isr s Hs claimed Hin Hp) as [[isr aux] Hh]. exists isr, aux. split; [done|].
    intros s1 c1 Hrun. unfold handle_extern_interrupt. krun Hclaim. krun Has. rewrite (proj2 (Z.eqb_neq claimed 0)) by done.
    kgets. cbn [fst]. unfold handler_of in Hh. rewrite Hh. by krun Hrun.
Qed.

Definition demo_isys : isys :=
  ISys (Plic (replicate 96 0) (replicate 3 0) [replicate 32 0; replicate 32 0] [0; 0] []) (replicate 96 None) 0 false.

(** A routine that notes its arguments and the interrupts completed so far. *)
Definition note_isr (i : nat) (n a : Z) : M (isys * list Z) unit :=
  λ x, (Ret tt, (x.1, [Z.of_nat i; n; a] ++ completed (PLIC x.1))).

Lemma extern_interrupt_dispatch_witness :
  let s := (enable_intr_source 10 1 3 7 (intrmgr_init demo_isys).2).2 in
  handler_of s 10 = Some (3%nat, 7) ∧
  handle_extern_interrupt note_isr 10 (s, []) = (Ret tt, (complete s 10, [3; 10; 7])).
Proof.
  intros s. destruct (extern_interrupt_dispatch note_isr demo_isys (intrmgr_init demo_isys).2 s [] 10 eq_refl eq_refl) as (isr & aux & Hh & H).
  - by vm_compute.
  - apply rtc_once. apply (i_enable _ 10 1 3 7); [unfold NIRQ, PLIC_SRC_CNT; lia|unfold PLIC_PRIO_MAX; lia|by vm_compute].
  - unfold in_src, PLIC_SRC_CNT. lia.
  - right. by vm_compute.
  - assert (handler_of s 10 = Some (3%nat, 7)) as E by (by vm_compute). rewrite E in Hh. injection Hh as <- <-.
    split; [done|]. apply H. by vm_compute.
Defined.

End Intr.
