(* ===== verification/Uart.v ===== *)
(** * Serial port driver (kernel/dev/uart.c)

    The state has the device structure, the interrupt manager and the thread
    manager, and the three things the driver sees of the hardware: the bytes
    that were received and not yet read from RBR, whether THR is empty, and the
    bytes that were written to THR.  LSR is computed from the first two.

    [uart_read] and [uart_write] run with interrupts enabled, so they are
    machines that make one access to a shared variable at a time ([uart_step]),
    and the service routine may run between any two of their steps unless they
    have disabled interrupts; it runs itself with interrupts disabled and is one
    step.  A kernel thread is not preempted: other threads run when it yields. *)

From S2P Require Import Prelude Config Ring Threads ThreadProofs LockProofs SchedProofs Intr.
Import Threads ThreadProofs SchedProofs.

Module Uart.

Definition UART_RBUFSZ : Z := 64.
Definition UART_INTR_PRIO : Z := 3.
Definition LSR_DR : Z := Z.shiftl 1 0.
Definition LSR_THRE : Z := Z.shiftl 1 5.
Definition IER_DRIE : Z := Z.shiftl 1 0.
Definition IER_THREIE : Z := Z.shiftl 1 1.
Definition LCR_DLAB : Z := Z.shiftl 1 7.

Record ringbuf := RingBuf { hpos : Z; tpos : Z; data : list Z }.

(** ** Ring buffers *)

Implicit Types (r : ringbuf) (c : Z).

Definition rbuf_init r : ringbuf := RingBuf 0 0 (data r).
Definition rbuf_empty r : bool := hpos r =? tpos r.
Definition rbuf_full r : bool := u16 (u32 (tpos r - hpos r)) =? UART_RBUFSZ.

(** The two halves of [rbuf_putc] and of [rbuf_getc], on either side of the
    barrier, with the position that was read before. *)
Definition rbuf_store r (tpos_ c : Z) : ringbuf := RingBuf (hpos r) (tpos r) (setb (tpos_ mod UART_RBUFSZ) c (data r)).
Definition rbuf_publish r (tpos_ : Z) : ringbuf := RingBuf (hpos r) (u32 (tpos_ + 1)) (data r).
Definition rbuf_fetch r (hpos_ : Z) : Z := getb 0 (data r) (hpos_ mod UART_RBUFSZ).
Definition rbuf_advance r (hpos_ : Z) : ringbuf := RingBuf (u32 (hpos_ + 1)) (tpos r) (data r).

Definition rbuf_putc r c : ringbuf := let tpos_ := tpos r in rbuf_publish (rbuf_store r tpos_ c) tpos_.
Definition rbuf_getc r : Z * ringbuf := let hpos_ := hpos r in (rbuf_fetch r hpos_, rbuf_advance r hpos_).

(** ** The device *)

Record uart_device := UartDevice {
  ier : Z; irqno : Z; refcnt : Z; rxbuf : ringbuf; txbuf : ringbuf; rx_cond : nat; tx_cond : nat }.

Record usys := USys { kern : ks; intr : Intr.isys; dev : uart_device; rx_line : list Z; thre : bool; sent : list Z }.
Implicit Types (s : usys) (d : uart_device).

Definition with_dev s d : usys := USys (kern s) (intr s) d (rx_line s) (thre s) (sent s).
Definition with_ier d x : uart_device := UartDevice x (irqno d) (refcnt d) (rxbuf d) (txbuf d) (rx_cond d) (tx_cond d).
Definition with_rx d r : uart_device := UartDevice (ier d) (irqno d) (refcnt d) r (txbuf d) (rx_cond d) (tx_cond d).
Definition with_tx d r : uart_device := UartDevice (ier d) (irqno d) (refcnt d) (rxbuf d) r (rx_cond d) (tx_cond d).
Definition with_ref d n : uart_device := UartDevice (ier d) (irqno d) n (rxbuf d) (txbuf d) (rx_cond d) (tx_cond d).

Definition on_kern {A} (m : M ks A) : M usys A := λ s,
  let (x, k) := m (kern s) in (x, USys k (intr s) (dev s) (rx_line s) (thre s) (sent s)).
Definition on_intr {A} (m : M Intr.isys A) : M usys A := λ s,
  let (x, i) := m (intr s) in (x, USys (kern s) i (dev s) (rx_line s) (thre s) (sent s)).
Definition upd_dev (f : uart_device → uart_device) : M usys unit := modify (λ s, with_dev s (f (dev s))).
Definition set_bits (b : Z) (x : Z) : Z := Z.lor x b.
Definition clear_bits (b : Z) (x : Z) : Z := Z.land x (255 - b).

(** The line status register. *)
Definition lsr s : Z :=
  Z.lor (if bool_decide (rx_line s = []) then 0 else LSR_DR) (if thre s then LSR_THRE else 0).

(** Reading RBR takes the oldest received byte. *)
Definition read_rbr : M usys Z := λ s,
  (Ret (default 0 (list.head (rx_line s))), USys (kern s) (intr s) (dev s) (list.tail (rx_line s)) (thre s) (sent s)).
(** Writing THR fills it. *)
Definition write_thr c : M usys unit := modify (λ s, USys (kern s) (intr s) (dev s) (rx_line s) false (sent s ++ [c])).

Definition isr_id : nat := 1.

Definition uart_open (aux : Z) : M usys Z :=
  d ← gets dev;
  if negb (refcnt d =? 0) then mret (- EBUSY)
  else
    upd_dev (λ d, with_rx d (rbuf_init (rxbuf d)));;
    upd_dev (λ d, with_tx d (rbuf_init (txbuf d)));;
    on_kern (condition_init (rx_cond d));;
    on_kern (condition_init (tx_cond d));;
    _ ← read_rbr;
    upd_dev (λ d, with_ier d IER_DRIE);;
    on_intr (Intr.enable_intr_source (irqno d) UART_INTR_PRIO isr_id aux);;
    upd_dev (λ d, with_ref d (refcnt d + 1));;
    mret 0.

Definition uart_close : M usys unit :=
  d ← gets dev;
  if negb (refcnt d =? 0) then panic
  else
    upd_dev (λ d, with_ier d 0);;
    on_intr (Intr.disable_intr_source (irqno d)).

(** ** Reading and writing, step by step *)

(** The driver's state and whether interrupts are enabled. *)
Record csys := CSys { us : usys; ie : bool }.
Definition on_us {A} (m : M usys A) : M csys A := λ x, let (y, u) := m (us x) in (y, CSys u (ie x)).

(** [pie = disable_interrupts(); regs->ier |= bit; restore_interrupts(pie)] *)
Inductive arming := ADisable | ALoad (pie : bool) | AStore (pie : bool) (v : Z) | ARestore (pie : bool).
Definition arm (bit : Z) (a : arming) : M csys (option arming) :=
  match a with
  | ADisable => pie ← gets ie; modify (λ x, CSys (us x) false);; mret (Some (ALoad pie))
  | ALoad pie => v ← gets (λ x, ier (dev (us x))); mret (Some (AStore pie (set_bits bit v)))
  | AStore pie v => on_us (upd_dev (λ d, with_ier d v));; mret (Some (ARestore pie))
  | ARestore pie => modify (λ x, CSys (us x) pie);; mret None
  end.

(** Where a call is: [out] are the bytes in the buffer of the reader, [todo]
    those that are still to be written. *)
Inductive rpc := RWait | RLoop | RFetch | RAdvance (hpos_ c : Z) | RArm (a : arming).
Inductive wpc := WOuter | WWait | WLoop | WStore | WPublish (tpos_ c : Z) | WArm (a : arming).
Inductive ucall := CRead (bufsz : Z) (out : list Z) (pc : rpc) | CWrite (len : Z) (todo : list Z) (pc : wpc).
Inductive status := Go (c : ucall) | Yielded (c : ucall) | Return (n : Z).

(** The entry of the two functions. *)
Definition uart_read (bufsz : Z) : status := if bufsz <=? 0 then Return 0 else Go (CRead bufsz [] RWait).
Definition uart_write (buf : list Z) (len : Z) : status :=
  if len <=? 0 then Return 0 else Go (CWrite len (take (Z.to_nat len) buf) WOuter).

Definition read_step (bufsz : Z) (out : list Z) (pc : rpc) : M csys status :=
  let at_ pc := CRead bufsz out pc in
  match pc with
  | RWait =>
      r ← gets (λ x, rxbuf (dev (us x)));
      if rbuf_empty r then on_us (on_kern thread_yield);; mret (Yielded (at_ RWait)) else mret (Go (at_ RLoop))
  | RLoop =>
      r ← gets (λ x, rxbuf (dev (us x)));
      mret (Go (at_ (if ((Z.of_nat (length out) <? bufsz) && negb (rbuf_empty r))%bool then RFetch else RArm ADisable)))
  | RFetch => r ← gets (λ x, rxbuf (dev (us x))); mret (Go (at_ (RAdvance (hpos r) (rbuf_fetch r (hpos r)))))
  | RAdvance h c =>
      on_us (upd_dev (λ d, with_rx d (rbuf_advance (rxbuf d) h)));; mret (Go (CRead bufsz (out ++ [c]) RLoop))
  | RArm a =>
      o ← arm IER_DRIE a;
      match o with Some a => mret (Go (at_ (RArm a))) | None => mret (Return (Z.of_nat (length out))) end
  end.

Definition write_step (len : Z) (todo : list Z) (pc : wpc) : M csys status :=
  let at_ pc := CWrite len todo pc in
  match pc with
  | WOuter => mret (match todo with [] => Return len | _ => Go (at_ WWait) end)
  | WWait =>
      r ← gets (λ x, txbuf (dev (us x)));
      if rbuf_full r then on_us (on_kern thread_yield);; mret (Yielded (at_ WWait)) else mret (Go (at_ WLoop))
  | WLoop =>
      r ← gets (λ x, txbuf (dev (us x)));
      mret (Go (at_ (if (negb (bool_decide (todo = [])) && negb (rbuf_full r))%bool then WStore else WArm ADisable)))
  | WStore =>
      match todo with
      | [] => panic
      | c :: todo =>
          r ← gets (λ x, txbuf (dev (us x)));
          on_us (upd_dev (λ d, with_tx d (rbuf_store (txbuf d) (tpos r) c)));;
          mret (Go (CWrite len todo (WPublish (tpos r) c)))
      end
  | WPublish t c => on_us (upd_dev (λ d, with_tx d (rbuf_publish (txbuf d) t)));; mret (Go (at_ WLoop))
  | WArm a =>
      o ← arm IER_THREIE a;
      mret (Go (at_ (match o with Some a => WArm a | None => WOuter end)))
  end.

Definition uart_step (c : ucall) : M csys status :=
  match c with CRead n out pc => read_step n out pc | CWrite n todo pc => write_step n todo pc end.

(** ** The service routine and the console *)

(** The receive loop of the service routine: [true] when a byte was stored. *)
Fixpoint rx_loop (fuel : nat) (pushed : bool) : M usys bool :=
  match fuel with
  | O => λ s, (NoFuel, s)
  | S fuel =>
      s ← gets (λ s, s);
      if (negb (Z.land (lsr s) LSR_DR =? 0) && negb (rbuf_full (rxbuf (dev s))))%bool then
        c ← read_rbr;
        upd_dev (λ d, with_rx d (rbuf_putc (rxbuf d) c));;
        rx_loop fuel true
      else mret pushed
  end.

Definition uart_isr : M usys unit :=
  n ← gets (λ s, length (rx_line s));
  rx_pushed ← rx_loop (S n) false;
  d ← gets dev;
  (if rbuf_full (rxbuf d) then upd_dev (λ d, with_ier d (clear_bits IER_DRIE (ier d))) else mret tt);;
  s ← gets (λ s, s);
  tx_drained ← (if negb (Z.land (lsr s) LSR_THRE =? 0) then
    if negb (rbuf_empty (txbuf (dev s))) then
      let '(c, r) := rbuf_getc (txbuf (dev s)) in
      upd_dev (λ d, with_tx d r);;
      write_thr c;;
      mret true
    else upd_dev (λ d, with_ier d (clear_bits IER_THREIE (ier d)));; mret false
  else mret false);
  (if (rx_pushed : bool) then on_kern (condition_broadcast (rx_cond d)) else mret tt);;
  (if (tx_drained : bool) then on_kern (condition_broadcast (tx_cond d)) else mret tt).

(** Polled output and input of the console: [None] while it spins. *)
Definition console_device_putc c : M usys (option unit) :=
  s ← gets (λ s, s);
  if Z.land (lsr s) LSR_THRE =? 0 then mret None else write_thr c;; mret (Some tt).
Definition console_device_getc : M usys (option Z) :=
  s ← gets (λ s, s);
  if Z.land (lsr s) LSR_DR =? 0 then mret None else c ← read_rbr; mret (Some c).

(** ** The ring buffer as a queue *)

Record rok r : Prop := {
  ro_len : length (data r) = Z.to_nat UART_RBUFSZ;
  ro_h : 0 ≤ hpos r < 2 ^ 32;
  ro_t : 0 ≤ tpos r < 2 ^ 32;
  ro_count : Ring.rcount (2 ^ 32) (hpos r) (tpos r) ≤ UART_RBUFSZ
}.

Definition queue r : list Z := Ring.rcontents (2 ^ 32) UART_RBUFSZ (data r) (hpos r) (tpos r).

Lemma uart_sizes : 0 < UART_RBUFSZ ∧ UART_RBUFSZ < 2 ^ 32 ∧ (UART_RBUFSZ | 2 ^ 32).
Proof. split_and!; [done|done|by exists 67108864]. Qed.

Lemma length_queue r : length (queue r) = Z.to_nat (Ring.rcount (2 ^ 32) (hpos r) (tpos r)).
Proof. apply Ring.length_rcontents. Qed.

Lemma rcount_nonneg r : 0 ≤ Ring.rcount (2 ^ 32) (hpos r) (tpos r).
Proof. by apply Z.mod_pos_bound. Qed.

Lemma queue_le r : rok r → (length (queue r) ≤ 64)%nat.
Proof. intros Hr. rewrite length_queue. pose proof (ro_count r Hr). unfold UART_RBUFSZ in *. lia. Qed.

(** The tests on the positions are tests on the queue. *)
Lemma rbuf_empty_spec r : rok r → rbuf_empty r = bool_decide (queue r = []).
Proof.
  intros Hr. pose proof (ro_h r Hr). pose proof (ro_t r Hr). unfold rbuf_empty.
  assert (queue r = [] ↔ hpos r = tpos r) as Hq.
  { rewrite <- length_zero_iff_nil, length_queue. unfold Ring.rcount. change (2 ^ 32) with 4294967296 in *.
    split; intros E; Z.div_mod_to_equations; lia. }
  destruct (Z.eqb_spec (hpos r) (tpos r)) as [E|E]; symmetry; [apply bool_decide_eq_true|apply bool_decide_eq_false]; by rewrite Hq.
Qed.

Lemma rbuf_full_spec r : rok r → rbuf_full r = bool_decide (length (queue r) = 64%nat).
Proof.
  intros Hr. pose proof (ro_count r Hr) as Hc. pose proof (rcount_nonneg r). unfold rbuf_full.
  assert (u16 (u32 (tpos r - hpos r)) = Ring.rcount (2 ^ 32) (hpos r) (tpos r)) as ->.
  { unfold u16, u32. fold (Ring.rcount (2 ^ 32) (hpos r) (tpos r)). apply Z.mod_small. unfold UART_RBUFSZ in *. lia. }
  rewrite length_queue. unfold UART_RBUFSZ in *.
  destruct (Z.eqb_spec (Ring.rcount (2 ^ 32) (hpos r) (tpos r)) 64); symmetry; [apply bool_decide_eq_true|apply bool_decide_eq_false]; lia.
Qed.

Lemma putc_ok r c : rok r → (length (queue r) < 64)%nat → rok (rbuf_putc r c) ∧ queue (rbuf_putc r c) = queue r ++ [c].
Proof.
  destruct uart_sizes as (HN & HW & Hd). intros [Hl Hh Ht Hc] Hlt. rewrite length_queue in Hlt. pose proof (rcount_nonneg r).
  assert (Ring.rcount (2 ^ 32) (hpos r) (tpos r) < UART_RBUFSZ) as Hlt' by (unfold UART_RBUFSZ; lia).
  split; [|by apply Ring.rcontents_push]. split; simpl; [by rewrite length_setb|done|by apply Z.mod_pos_bound|].
  pose proof (Ring.rcount_push _ _ HN HW _ _ Hlt') as E. unfold u32. lia.
Qed.

Lemma getc_ok r c q : rok r → queue r = c :: q →
  ∃ r', rbuf_getc r = (c, r') ∧ rok r' ∧ queue r' = q ∧ tpos r' = tpos r ∧ data r' = data r.
Proof.
  destruct uart_sizes as (HN & HW & Hd). intros [Hl Hh Ht Hc] Hq.
  assert (0 < Ring.rcount (2 ^ 32) (hpos r) (tpos r)) as H0.
  { pose proof (length_queue r) as E. rewrite Hq in E. simpl in E. lia. }
  unfold queue in Hq. rewrite (Ring.rcontents_pop _ _ HN HW Hd) in Hq by done. injection Hq as <- <-.
  eexists. split; [reflexivity|]. split; [|by split_and!]. split; simpl; [done|by apply Z.mod_pos_bound|done|].
  pose proof (Ring.rcount_pop _ _ HN HW _ _ H0) as E. unfold u32. lia.
Qed.

(** ** Loops *)

Lemma lsr_dr s : negb (Z.land (lsr s) LSR_DR =? 0) = negb (bool_decide (rx_line s = [])).
Proof. unfold lsr. by case_bool_decide; destruct (thre s). Qed.
Lemma lsr_thre s : negb (Z.land (lsr s) LSR_THRE =? 0) = thre s.
Proof. unfold lsr. by case_bool_decide; destruct (thre s). Qed.

Lemma rx_loop_ok fuel : ∀ s b, (length (rx_line s) < fuel)%nat → rok (rxbuf (dev s)) →
  let k := ((64 - length (queue (rxbuf (dev s)))) `min` length (rx_line s))%nat in
  ∃ r', rx_loop fuel b s = (Ret (b || negb (k =? 0)%nat), USys (kern s) (intr s) (with_rx (dev s) r') (drop k (rx_line s)) (thre s) (sent s)) ∧
    rok r' ∧ queue r' = queue (rxbuf (dev s)) ++ take k (rx_line s) ∧ hpos r' = hpos (rxbuf (dev s)).
Proof.
  induction fuel as [|fuel IH]; intros s b Hf Hr k; [lia|]. cbn [rx_loop]. kgets. cbn beta.
  pose proof (queue_le _ Hr). rewrite lsr_dr, rbuf_full_spec by done.
  assert (k = O → ∃ r', (Ret b, s) = (Ret (b || negb (k =? 0)%nat), USys (kern s) (intr s) (with_rx (dev s) r') (drop k (rx_line s)) (thre s) (sent s)) ∧
    rok r' ∧ queue r' = queue (rxbuf (dev s)) ++ take k (rx_line s) ∧ hpos r' = hpos (rxbuf (dev s))) as Hstop.
  { intros ->. exists (rxbuf (dev s)). rewrite take_0, drop_0, app_nil_r, orb_false_r. split_and!; [|done|done|done]. by destruct s as [? ? [] ? ? ?]. }
  case_bool_decide as He; [apply Hstop; unfold k; rewrite He; apply Nat.min_0_r|].
  case_bool_decide as Hfull; [apply Hstop; unfold k; rewrite Hfull; done|]. clear Hstop. cbv iota zeta beta delta [negb andb].
  destruct (rx_line s) as [|c line] eqn:Hline; [done|]. clear He.
  set (s1 := USys (kern s) (intr s) (with_rx (dev s) (rbuf_putc (rxbuf (dev s)) c)) line (thre s) (sent s)).
  assert (((read_rbr : M usys Z) ≫= λ c, upd_dev (λ d, with_rx d (rbuf_putc (rxbuf d) c));; rx_loop fuel true) s = rx_loop fuel true s1) as ->.
  { unfold read_rbr, upd_dev, modify, mbind, M_bind. cbn [rx_line]. rewrite Hline. done. }
  destruct (putc_ok (rxbuf (dev s)) c Hr) as [Hr1 Hq1]; [lia|].
  destruct (IH s1 true) as (r' & E & Hr' & Hq' & Hh'); [simpl in *; lia|done|].
  assert (k = S ((64 - length (queue (rxbuf (dev s1)))) `min` length (rx_line s1))) as ->.
  { unfold k, s1. cbn [dev rxbuf with_rx rx_line length]. rewrite Hq1, length_app. simpl length. lia. }
  exists r'. split_and!; [rewrite E; by destruct b|done| |done]. rewrite Hq'. unfold s1 at 1 3. cbn [dev rxbuf with_rx rx_line]. by rewrite Hq1, <- app_assoc.
Qed.

(** ** The service routine *)

Definition can_take s : nat := ((64 - length (queue (rxbuf (dev s)))) `min` length (rx_line s))%nat.

(** Both buffers are well formed. *)
Record bufs_ok s : Prop := { bo_rx : rok (rxbuf (dev s)); bo_tx : rok (txbuf (dev s)) }.

(** An unarmed receive interrupt means that there is no room, an unarmed
    transmit interrupt that there is nothing to send. *)
Definition rx_armed s : Prop := Z.testbit (ier (dev s)) 0 = true ∨ length (queue (rxbuf (dev s))) = 64%nat.
Definition tx_armed s : Prop := Z.testbit (ier (dev s)) 1 = true ∨ queue (txbuf (dev s)) = [].

Lemma set_bits_0 x : Z.testbit (set_bits IER_DRIE x) 0 = true.
Proof. unfold set_bits. by rewrite Z.lor_spec, orb_true_r. Qed.
Lemma set_bits_1 x : Z.testbit (set_bits IER_THREIE x) 1 = true.
Proof. unfold set_bits. by rewrite Z.lor_spec, orb_true_r. Qed.
Lemma set_bits_keep b x i : Z.testbit x i = true → Z.testbit (set_bits b x) i = true.
Proof. intros H. unfold set_bits. by rewrite Z.lor_spec, H. Qed.
Lemma clear_drie x : Z.testbit (clear_bits IER_DRIE x) 1 = Z.testbit x 1.
Proof. unfold clear_bits. by rewrite Z.land_spec, andb_true_r. Qed.
Lemma clear_threie x : Z.testbit (clear_bits IER_THREIE x) 0 = Z.testbit x 0.
Proof. unfold clear_bits. by rewrite Z.land_spec, andb_true_r. Qed.

(** What the routine does to the device and the line, whatever the thread
    manager does. *)
Definition isr_device s : usys → Prop := λ s',
  rx_line s' = drop (can_take s) (rx_line s) ∧
  queue (rxbuf (dev s')) = queue (rxbuf (dev s)) ++ take (can_take s) (rx_line s) ∧
  sent s' ++ queue (txbuf (dev s')) = sent s ++ queue (txbuf (dev s)) ∧
  length (sent s') = (length (sent s) + if thre s then length (queue (txbuf (dev s))) `min` 1 else 0)%nat ∧
  bufs_ok s' ∧ (rx_armed s → rx_armed s') ∧ (tx_armed s → tx_armed s') ∧
  hpos (rxbuf (dev s')) = hpos (rxbuf (dev s)) ∧ tpos (txbuf (dev s')) = tpos (txbuf (dev s)) ∧ data (txbuf (dev s')) = data (txbuf (dev s)).

Definition wake (b : bool) (c : nat) : M usys unit := if b then on_kern (condition_broadcast c) else mret tt.
Definition tx_ready s : bool := (thre s && negb (bool_decide (queue (txbuf (dev s)) = [])))%bool.

(** The transmit half, [t] in the proof below. *)
Definition isr_tx s : M usys bool :=
  if negb (Z.land (lsr s) LSR_THRE =? 0) then
    if negb (rbuf_empty (txbuf (dev s))) then
      let '(c, r) := rbuf_getc (txbuf (dev s)) in
      upd_dev (λ d, with_tx d r);;
      write_thr c;;
      mret true
    else upd_dev (λ d, with_ier d (clear_bits IER_THREIE (ier d)));; mret false
  else mret false.

Lemma isr_tx_ok s : rok (txbuf (dev s)) →
  ∃ s', isr_tx s s = (Ret (tx_ready s), s') ∧ kern s' = kern s ∧ rx_line s' = rx_line s ∧ rxbuf (dev s') = rxbuf (dev s) ∧
    rx_cond (dev s') = rx_cond (dev s) ∧ tx_cond (dev s') = tx_cond (dev s) ∧
    Z.testbit (ier (dev s')) 0 = Z.testbit (ier (dev s)) 0 ∧
    sent s' ++ queue (txbuf (dev s')) = sent s ++ queue (txbuf (dev s)) ∧
    length (sent s') = (length (sent s) + if thre s then length (queue (txbuf (dev s))) `min` 1 else 0)%nat ∧ rok (txbuf (dev s')) ∧
    (tx_armed s → tx_armed s') ∧ tpos (txbuf (dev s')) = tpos (txbuf (dev s)) ∧ data (txbuf (dev s')) = data (txbuf (dev s)).
Proof.
  intros Hr. unfold isr_tx, tx_ready. rewrite lsr_thre, rbuf_empty_spec by done. destruct (thre s).
  2: { exists s. rewrite Nat.add_0_r. done. }
  case_bool_decide as He; cbn [negb andb].
  - eexists. split; [reflexivity|]. unfold tx_armed. cbn -[Z.testbit]. rewrite He. cbn -[Z.testbit]. rewrite Nat.add_0_r.
    split_and!; [done..|by rewrite clear_threie|done|done|done|by right|done|done].
  - destruct (queue (txbuf (dev s))) as [|c q] eqn:Hq; [done|]. destruct (getc_ok _ c q Hr Hq) as (r' & -> & Hr' & Hq' & Ht' & Hd').
    eexists. split; [reflexivity|]. unfold tx_armed. cbn -[Z.testbit]. rewrite Hq, Hq', length_app, <- app_assoc.
    split_and!; try done; [simpl length; lia|]. by intros [?|?]; [left|].
Qed.

Lemma isr_device_ok s : bufs_ok s →
  ∃ s1, uart_isr s = (wake (negb (can_take s =? 0)%nat) (rx_cond (dev s));; wake (tx_ready s) (tx_cond (dev s))) s1 ∧
    kern s1 = kern s ∧ isr_device s s1.
Proof.
  intros [Hrx Htx]. unfold uart_isr. kgets.
  destruct (rx_loop_ok (S (length (rx_line s))) s false) as (r' & E & Hr' & Hq' & Hh'); [lia|done|].
  fold (can_take s) in *. rewrite orb_false_l in E. krun E. clear E. kgets. cbn [dev with_rx rxbuf].
  pose proof (queue_le _ Hr') as Hle. rewrite rbuf_full_spec by done.
  set (s1 := USys (kern s) (intr s) (with_rx (dev s) r') _ _ _).
  set (s2 := if bool_decide (length (queue r') = 64%nat) then with_dev s1 (with_ier (dev s1) (clear_bits IER_DRIE (ier (dev s1)))) else s1).
  assert ((if bool_decide (length (queue r') = 64%nat) then upd_dev (λ d, with_ier d (clear_bits IER_DRIE (ier d))) else mret tt) s1 = (Ret tt, s2)) as E.
  { unfold s2. by case_bool_decide. }
  assert (txbuf (dev s2) = txbuf (dev s) ∧ rxbuf (dev s2) = r' ∧ thre s2 = thre s ∧ sent s2 = sent s ∧ kern s2 = kern s ∧
    rx_line s2 = drop (can_take s) (rx_line s) ∧ Z.testbit (ier (dev s2)) 1 = Z.testbit (ier (dev s)) 1 ∧
    (Z.testbit (ier (dev s2)) 0 = Z.testbit (ier (dev s)) 0 ∨ length (queue r') = 64%nat)) as (E1 & E2 & E3 & E4 & E5 & E6 & E7 & E8).
  { unfold s2. case_bool_decide; cbn -[Z.testbit]; rewrite ?clear_drie; split_and!; auto. }
  krun E. kgets. destruct (isr_tx_ok s2) as (s3 & Hrun & Hk & Hl & Hrxb & _ & _ & Hd3 & Hsent & Hlen & Hrt & Ht3 & Htp & Htd); [by rewrite E1|].
  change (if negb (Z.land (lsr s2) LSR_THRE =? 0) then _ else _) with (isr_tx s2). krun Hrun. exists s3.
  assert (tx_ready s2 = tx_ready s) as -> by (unfold tx_ready; by rewrite E1, E3).
  split; [done|]. split; [congruence|]. rewrite E1, ?E3, ?E4 in *.
  split_and!; [congruence|by rewrite Hrxb, E2|done|done|split; [by rewrite Hrxb, E2|done]| | |by rewrite Hrxb, E2|done|done].
  - unfold rx_armed. rewrite Hrxb, E2, Hd3. intros Hd. destruct E8 as [->|?]; [|by right]. destruct Hd as [?|Hf]; [by left|right].
    rewrite Hq', length_app in *. lia.
  - intros Ht. apply Ht3. unfold tx_armed in *. by rewrite E1, E7.
Qed.

Lemma wake_device b (c : nat) s s' : wake b c s = (Ret tt, s') → ∃ k, s' = USys k (intr s) (dev s) (rx_line s) (thre s) (sent s).
Proof.
  unfold wake, on_kern. destruct b.
  - destruct (condition_broadcast c (kern s)) as [x k]. intros E. apply (f_equal snd) in E. simpl in E. by exists k.
  - intros E. apply (f_equal snd) in E. simpl in E. subst s'. exists (kern s). by destruct s.
Qed.

Lemma wake_inv b (c : nat) s q : inv (kern s) q →
  ∃ k q', wake b c s = (Ret tt, USys k (intr s) (dev s) (rx_line s) (thre s) (sent s)) ∧ inv k q' ∧
    q' Ready = q Ready ++ (if b then q (Cond c) else []) ∧ ∀ c' : nat, q' (Cond c') = if (b && bool_decide (c' = c))%bool then [] else q (Cond c').
Proof.
  intros Hinv. destruct b; cbn [wake andb].
  - destruct (broadcast_inv (kern s) q c Hinv) as (k & q' & Hrun & Hinv' & Hq1 & Hq2 & Hq3 & _). exists k, q'.
    unfold on_kern. rewrite Hrun. split_and!; [done|done|done|]. intros c'. case_bool_decide as E; [by subst|by apply Hq3].
  - exists (kern s), q. rewrite app_nil_r. split_and!; [by destruct s|done..].
Qed.

Lemma isr_device_kern s s1 k : isr_device s s1 → isr_device s (USys k (intr s1) (dev s1) (rx_line s1) (thre s1) (sent s1)).
Proof. intros (H1 & H2 & H3 & H4 & [] & H5 & H6 & H7 & H8 & H9). split; [done|]. split; [done|]. split; [done|]. split; [done|]. split; [by split|]. done. Qed.

(** The service routine always returns, in a state in which the device and
    thread manager are consistent.  It moves exactly as many received bytes as
    there is room for, in order; hands THR at most one byte, the oldest, and
    only when THR is empty and there is one; wakes every thread that waits for
    received bytes when it stored one and every thread that waits for room when
    it sent one, and nobody else; and masks a source of interrupts only when
    the buffer is full, or has nothing to send. *)
Lemma uart_isr_correct s q :
  inv (kern s) q → bufs_ok s → rx_cond (dev s) ≠ tx_cond (dev s) →
  ∃ s' q', uart_isr s = (Ret tt, s') ∧ isr_device s s' ∧ inv (kern s') q' ∧
    q' Ready = q Ready ++ (if (can_take s =? 0)%nat then [] else q (Cond (rx_cond (dev s)))) ++
                          (if tx_ready s then q (Cond (tx_cond (dev s))) else []).
Proof.
  intros Hinv Hok Hne. destruct (isr_device_ok s Hok) as (s1 & -> & Hk & Hdev).
  destruct (wake_inv (negb (can_take s =? 0)%nat) (rx_cond (dev s)) s1 q) as (k1 & q1 & E1 & Hinv1 & Hr1 & Hc1); [by rewrite Hk|].
  krun E1. destruct (wake_inv (tx_ready s) (tx_cond (dev s)) (USys k1 (intr s1) (dev s1) (rx_line s1) (thre s1) (sent s1)) q1 Hinv1) as (k2 & q2 & E2 & Hinv2 & Hr2 & _).
  rewrite E2. eexists _, q2. split; [reflexivity|]. split; [apply (isr_device_kern s s1 k2 Hdev)|]. split; [done|].
  rewrite Hr2, Hr1, (Hc1 (tx_cond (dev s))), bool_decide_false, andb_false_r, <- app_assoc by done. by destruct (can_take s =? 0)%nat.
Qed.

(** ** Calls, interrupts and other threads *)

(** What arrived on the line, what readers stored in their buffers and what
    writers put into the transmit buffer. *)
Record streams := Streams { arrived : list Z; got : list Z; accepted : list Z }.

(** The driver, the call that the processor is executing, the calls whose
    threads yielded, and the history. *)
Record cstate := CState { sys : csys; cur : option ucall; parked : list ucall; hist : streams }.

Definition note (c : ucall) (h : streams) : streams :=
  match c with
  | CRead _ _ (RAdvance _ b) => Streams (arrived h) (got h ++ [b]) (accepted h)
  | CWrite _ _ (WPublish _ b) => Streams (arrived h) (got h) (accepted h ++ [b])
  | _ => h
  end.

(** A call goes on, gives up the processor or returns. *)
Definition after (st : status) (p : list ucall) : option ucall * list ucall :=
  match st with Go c => (Some c, p) | Yielded c => (None, c :: p) | Return _ => (None, p) end.

(** A byte arrives and THR empties at any moment; the service routine runs
    whenever interrupts are enabled; a call starts or goes on when no other one
    executes; threads that do not use the port change the thread manager, the
    interrupt manager and whether interrupts are enabled. *)
Inductive cstep : cstate → cstate → Prop :=
  | cs_arrive x o p h b :
      let s := us x in
      cstep (CState x o p h)
            (CState (CSys (USys (kern s) (intr s) (dev s) (rx_line s ++ [b]) (thre s) (sent s)) (ie x)) o p (Streams (arrived h ++ [b]) (got h) (accepted h)))
  | cs_shifted x o p h :
      let s := us x in
      cstep (CState x o p h) (CState (CSys (USys (kern s) (intr s) (dev s) (rx_line s) true (sent s)) (ie x)) o p h)
  | cs_isr x o p h s' : ie x = true → uart_isr (us x) = (Ret tt, s') → cstep (CState x o p h) (CState (CSys s' true) o p h)
  | cs_call x p h st (c : ucall) : (∃ n, st = uart_read n) ∨ (∃ buf n, st = uart_write buf n) → st = Go c → cstep (CState x None p h) (CState x (Some c) p h)
  | cs_step x (c : ucall) p h st x' : uart_step c x = (Ret st, x') → cstep (CState x (Some c) p h) (CState x' (after st p).1 (after st p).2 (note c h))
  | cs_resume x (c : ucall) p1 p2 h : cstep (CState x None (p1 ++ c :: p2) h) (CState x (Some c) (p1 ++ p2) h)
  | cs_other x p h k i b :
      let s := us x in cstep (CState x None p h) (CState (CSys (USys k i (dev s) (rx_line s) (thre s) (sent s)) b) None p h).

(** ** What holds between any two steps *)

Definition arming_ok (bit : Z) (x : csys) (a : arming) : Prop :=
  match a with
  | ALoad _ => ie x = false
  | AStore _ v => ie x = false ∧ v = set_bits bit (ier (dev (us x)))
  | _ => True
  end.

Definition read_ok (x : csys) (bufsz : Z) (out : list Z) (pc : rpc) : Prop :=
  let r := rxbuf (dev (us x)) in let n := Z.of_nat (length out) in
  match pc with
  | RWait => out = []
  | RLoop => n ≤ bufsz ∧ (out = [] → queue r ≠ [])
  | RFetch => n < bufsz ∧ queue r ≠ []
  | RAdvance h c => n < bufsz ∧ h = hpos r ∧ list.head (queue r) = Some c
  | RArm a => 0 < n ≤ bufsz ∧ arming_ok IER_DRIE x a
  end.

Definition write_ok (x : csys) (todo : list Z) (pc : wpc) : Prop :=
  let r := txbuf (dev (us x)) in
  match pc with
  | WStore => todo ≠ [] ∧ (length (queue r) < 64)%nat
  | WPublish t c => t = tpos r ∧ getb 0 (data r) (t mod UART_RBUFSZ) = c ∧ (length (queue r) < 64)%nat
  | WArm a => arming_ok IER_THREIE x a
  | _ => True
  end.

Definition call_ok (x : csys) (c : ucall) : Prop :=
  match c with CRead n out pc => 0 < n ∧ read_ok x n out pc | CWrite _ todo pc => write_ok x todo pc end.

(** A call between its loop and the store to IER owes the interrupt. *)
Definition owes_arming (a : arming) : bool := match a with ARestore _ => false | _ => true end.
Definition owes_rx (o : option ucall) : bool :=
  match o with Some (CRead _ _ pc) => match pc with RWait => false | RArm a => owes_arming a | _ => true end | _ => false end.
Definition owes_tx (o : option ucall) : bool :=
  match o with Some (CWrite _ _ pc) => match pc with WOuter | WWait => false | WArm a => owes_arming a | _ => true end | _ => false end.

(** What [s0] had received and sent when the port was opened, and the streams
    since. *)
Definition conserved (s0 s : usys) (h : streams) : Prop :=
  got h ++ queue (rxbuf (dev s)) ++ rx_line s = rx_line s0 ++ arrived h ∧
  sent s ++ queue (txbuf (dev s)) = sent s0 ++ accepted h.

Definition at_rest (c : ucall) : Prop := match c with CRead n out pc => 0 < n ∧ out = [] ∧ pc = RWait | CWrite _ _ pc => pc = WWait end.

Record driver_ok (s0 : usys) (C : cstate) : Prop := {
  do_streams : conserved s0 (us (sys C)) (hist C);
  do_bufs : bufs_ok (us (sys C));
  do_call : ∀ c : ucall, cur C = Some c → call_ok (sys C) c;
  do_parked : ∀ c : ucall, c ∈ parked C → at_rest c;
  do_rx : owes_rx (cur C) = false → rx_armed (us (sys C));
  do_tx : owes_tx (cur C) = false → tx_armed (us (sys C))
}.

Lemma at_rest_ok x (c : ucall) : at_rest c → call_ok x c ∧ owes_rx (Some c) = false ∧ owes_tx (Some c) = false.
Proof. by destruct c; simpl; [intros (? & -> & ->)|intros ->]. Qed.

Lemma entry_ok x st (c : ucall) : (∃ n, st = uart_read n) ∨ (∃ buf n, st = uart_write buf n) → st = Go c →
  call_ok x c ∧ owes_rx (Some c) = false ∧ owes_tx (Some c) = false.
Proof.
  intros [(n & ->)|(buf & n & ->)]; unfold uart_read, uart_write; destruct (Z.leb_spec n 0); intros E; simplify_eq; simpl; split_and!; done || lia.
Qed.

(** The second half of [rbuf_putc] makes the byte that was stored the last one
    of the queue. *)
Lemma publish_ok r : rok r → (length (queue r) < 64)%nat →
  rok (rbuf_publish r (tpos r)) ∧ queue (rbuf_publish r (tpos r)) = queue r ++ [getb 0 (data r) (tpos r mod UART_RBUFSZ)].
Proof.
  intros Hr Hlt. set (c := getb 0 _ _). pose proof (putc_ok r c Hr Hlt) as [Hr' Hq].
  assert (rbuf_putc r c = rbuf_publish r (tpos r)) as <-; [|done].
  unfold rbuf_putc, rbuf_publish, rbuf_store. simpl. f_equal. apply list_insert_id. unfold c, getb.
  destruct (lookup_lt_is_Some_2 (data r) (Z.to_nat (tpos r mod UART_RBUFSZ))) as [v E]; [|by rewrite E].
  rewrite (ro_len r Hr). apply Z2Nat.inj_lt; [by apply Z.mod_pos_bound|done|by apply Z.mod_pos_bound].
Qed.

(** The first half stores it where the queue does not reach. *)
Lemma rbuf_store_ok r c : rok r → (length (queue r) < 64)%nat →
  let r' := rbuf_store r (tpos r) c in rok r' ∧ queue r' = queue r ∧ getb 0 (data r') (tpos r mod UART_RBUFSZ) = c.
Proof.
  intros Hr Hlt r'. assert (rok r') as Hr' by (destruct Hr; split; simpl; by rewrite ?length_setb).
  split; [done|]. split.
  - pose proof (putc_ok r c Hr Hlt) as [_ E]. assert (length (queue r') < 64)%nat as Hlt' by (rewrite length_queue in *; done).
    pose proof (putc_ok r' c Hr' Hlt') as [_ E']. assert (rbuf_putc r' c = rbuf_putc r c) as E2.
    { unfold rbuf_putc, rbuf_publish, rbuf_store. simpl. f_equal. apply list_insert_insert_eq. }
    rewrite E2, E in E'. by apply app_inv_tail in E'.
  - simpl. apply getb_setb_same; [by apply Z.mod_pos_bound|]. rewrite (ro_len r Hr). apply Z2Nat.inj_lt; [by apply Z.mod_pos_bound|done|by apply Z.mod_pos_bound].
Qed.

(** The service routine only appends to what the reader looks at and only
    takes from what the writer looks at. *)
Lemma isr_call_ok x s' (c : ucall) : ie x = true → isr_device (us x) s' → call_ok x c → call_ok (CSys s' true) c.
Proof.
  intros Hie (_ & Hrx & Htx & Hlen & _ & _ & _ & Hh & Ht & Hd).
  assert (∀ b a, arming_ok b x a → arming_ok b (CSys s' true) a) as Ha. { intros ? [] Ha; simpl in *; first [done | congruence | destruct Ha; congruence]. }
  assert (queue (rxbuf (dev (us x))) ≠ [] → queue (rxbuf (dev s')) ≠ []) as Hne by (rewrite Hrx; by destruct (queue (rxbuf (dev (us x))))).
  assert ((length (queue (txbuf (dev s'))) ≤ length (queue (txbuf (dev (us x)))))%nat) as Hle.
  { apply (f_equal length) in Htx. rewrite !length_app in Htx. lia. }
  destruct c as [n out pc|n todo pc]; simpl.
  - intros [Hn Hok]. split; [done|]. destruct pc as [| | |h c|a]; simpl in *; [done| | | |].
    + destruct Hok. split; auto.
    + destruct Hok. split; auto.
    + destruct Hok as (? & -> & Hc). split_and!; [done|done|]. rewrite Hrx. by destruct (queue (rxbuf (dev (us x)))).
    + destruct Hok. split; auto.
  - destruct pc as [| | | |t c|a]; simpl; [done|done|done| | |apply Ha].
    + intros []. split; [done|lia].
    + rewrite Ht, Hd. intros (-> & ? & ?). split_and!; [done|done|lia].
Qed.

Lemma mbind_inv {S A B} (m : M S A) (f : A → M S B) (s : S) b (s' : S) :
  (m ≫= f) s = (Ret b, s') → ∃ a (s1 : S), m s = (Ret a, s1) ∧ f a s1 = (Ret b, s').
Proof. unfold mbind, M_bind. destruct (m s) as [[a|?| |] s1]; intros E; [eauto|done..]. Qed.

Lemma yield_frame x (y st : status) x' : (on_us (on_kern thread_yield);; mret y) x = (Ret st, x') →
  st = y ∧ ∃ k, let s := us x in x' = CSys (USys k (intr s) (dev s) (rx_line s) (thre s) (sent s)) (ie x).
Proof.
  intros (a & x1 & E & E')%mbind_inv. cbv in E'. injection E' as -> ->. split; [done|]. unfold on_us, on_kern in E.
  destruct (thread_yield (kern (us x))) as [r k]. injection E as _ <-. by exists k.
Qed.

(** ** Every step keeps it *)

(** Arming an interrupt changes nothing but its bit, which is set when it is
    done. *)
Definition armed_by (bit : Z) s : usys := with_dev s (with_ier (dev s) (set_bits bit (ier (dev s)))).

Lemma arm_ok bit a x o x' : arming_ok bit x a → arm bit a x = (Ret o, x') →
  (us x' = us x ∨ us x' = armed_by bit (us x)) ∧
  match o with
  | Some a' => arming_ok bit x' a' ∧ (owes_arming a' = false → us x' = armed_by bit (us x))
  | None => owes_arming a = false ∧ us x' = us x
  end.
Proof.
  intros Ha E. destruct a as [|pie|pie v|pie]; simpl in Ha; cbn -[set_bits] in E; injection E as <- <-; simpl.
  - by split_and!; [left| |].
  - by split_and!; [left| | |].
  - destruct Ha as [_ ->]. by split_and!; [right| |].
  - by split_and!; [left| |].
Qed.

Lemma armed_by_frame bit s s0 h : conserved s0 s h → bufs_ok s → conserved s0 (armed_by bit s) h ∧ bufs_ok (armed_by bit s).
Proof. intros ? []. by split. Qed.
Lemma armed_by_keeps bit s : (rx_armed s → rx_armed (armed_by bit s)) ∧ (tx_armed s → tx_armed (armed_by bit s)).
Proof. split; (intros [?|?]; [left; by apply set_bits_keep|by right]). Qed.

Section steps.
Context (s0 : usys).

Lemma read_step_ok x n out pc p h st x' :
  driver_ok s0 (CState x (Some (CRead n out pc)) p h) → read_step n out pc x = (Ret st, x') →
  driver_ok s0 (CState x' (after st p).1 (after st p).2 (note (CRead n out pc) h)).
Proof.
  intros [Hs [Hrx Htx] Hc Hp Hr Ht] E. specialize (Hc _ eq_refl) as [Hn Hc]. specialize (Ht eq_refl). simpl in *.
  destruct pc as [| | |hp c|a]; simpl in *.
  - unfold read_step in E. rewrite (bind_ret (gets _) _ x x _ eq_refl) in E. rewrite rbuf_empty_spec in E by done.
    case_bool_decide as He.
    + apply yield_frame in E as (-> & k & ->). subst out. split; simpl; [done|by split|done| |auto|auto].
      intros c [->|Hin]%elem_of_cons; [done|auto].
    + cbv in E. injection E as <- <-. split; simpl; [done|by split| |done|done|auto]. intros c [= <-]. simpl.
      subst out. simpl. split_and!; [done|lia|done].
  - rewrite (bind_ret (gets _) _ x x _ eq_refl) in E. rewrite rbuf_empty_spec in E by done. injection E as <- <-.
    destruct Hc as [Hc1 Hc2]. split; simpl; [done|by split| |done| |auto].
    + assert (queue (rxbuf (dev (us x))) = [] → 0 < Z.of_nat (length out)) as H0 by (intros Hq; destruct out; [by destruct Hc2|simpl; lia]).
      intros c [= <-]. split; [done|]. destruct (Z.ltb_spec (Z.of_nat (length out)) n); case_bool_decide; simpl; split_and!; auto; lia.
    + by destruct (_ && _)%bool.
  - injection E as <- <-. destruct Hc as [Hc1 Hc2]. split; simpl; [done|by split| |done|done|auto]. intros c [= <-].
    destruct (queue (rxbuf (dev (us x)))) as [|c q] eqn:Hq; [done|]. destruct (getc_ok _ c q Hrx Hq) as (r' & E & _). injection E as E _.
    simpl. rewrite Hq. split_and!; [done|done|done|]. simpl. by rewrite E.
  - injection E as <- <-. destruct Hc as (Hc1 & -> & Hc2). destruct (queue (rxbuf (dev (us x)))) as [|c' q] eqn:Hq; [done|]. simpl in Hc2. injection Hc2 as ->.
    destruct (getc_ok _ c q Hrx Hq) as (r' & E & Hr' & Hq' & _). injection E as _ <-.
    split; simpl; [|by split| |done|done|auto].
    + destruct Hs as [Hs1 Hs2]. split; [|done]. simpl in *. rewrite Hq', <- Hs1, Hq. by rewrite <- app_assoc.
    + intros c' [= <-]. simpl. rewrite length_app. simpl. split_and!; [done|lia|]. by destruct out.
  - apply mbind_inv in E as (o & x1 & Ea & E). destruct Hc as [Hc1 Hc2]. apply arm_ok in Ea as [Hu Ho]; [|done].
    assert (conserved s0 (us x1) h ∧ bufs_ok (us x1)) as [Hs1 Hb1] by (destruct Hu as [->| ->]; [by split|by apply armed_by_frame; [|split]]).
    assert (tx_armed (us x1)) as Ht1 by (destruct Hu as [->| ->]; [auto|by apply armed_by_keeps]).
    destruct o as [a'|]; injection E as <- <-; split; simpl; try done.
    + intros c [= <-]. by destruct Ho.
    + destruct Ho as [_ Ho]. intros ->%Ho. left. apply set_bits_0.
    + destruct Ho as [Ho ->]. auto.
Qed.

Lemma write_step_ok x n todo pc p h st x' :
  driver_ok s0 (CState x (Some (CWrite n todo pc)) p h) → write_step n todo pc x = (Ret st, x') →
  driver_ok s0 (CState x' (after st p).1 (after st p).2 (note (CWrite n todo pc) h)).
Proof.
  intros [Hs [Hrx Htx] Hc Hp Hr Ht] E. specialize (Hc _ eq_refl). specialize (Hr eq_refl). simpl in *.
  destruct pc as [| | | |tp c|a]; simpl in *.
  - destruct todo; injection E as <- <-; (split; simpl; [done|by split|by intros c [= <-]|done|auto|auto]).
  - rewrite (bind_ret (gets _) _ x x _ eq_refl) in E. rewrite rbuf_full_spec in E by done. case_bool_decide as Hf.
    + apply yield_frame in E as (-> & k & ->). split; simpl; [done|by split|done| |auto|auto].
      intros c [->|Hin]%elem_of_cons; [done|auto].
    + injection E as <- <-. split; simpl; [done|by split| |done|auto|done]. by intros c [= <-].
  - rewrite (bind_ret (gets _) _ x x _ eq_refl) in E. rewrite rbuf_full_spec in E by done. injection E as <- <-.
    pose proof (queue_le _ Htx). split; simpl; [done|by split| |done|auto|by destruct (_ && _)%bool].
    intros c [= <-]. case_bool_decide; case_bool_decide; simpl; try done. split; [done|lia].
  - destruct todo as [|c todo]; [done|]. injection E as <- <-. destruct Hc as [_ Hlt].
    destruct (rbuf_store_ok (txbuf (dev (us x))) c Htx Hlt) as (Hr' & Hq & Hg).
    split; simpl; [|by split| |done|auto|done].
    + destruct Hs as [Hs1 Hs2]. split; [done|]. simpl. by rewrite Hq.
    + intros c' [= <-]. simpl. by rewrite Hq.
  - injection E as <- <-. destruct Hc as (-> & Hg & Hlt). destruct (publish_ok (txbuf (dev (us x))) Htx Hlt) as [Hr' Hq].
    split; simpl; [|by split|by intros c' [= <-]|done|auto|done].
    destruct Hs as [Hs1 Hs2]. split; [done|]. simpl. by rewrite Hq, Hg, !app_assoc, Hs2.
  - apply mbind_inv in E as (o & x1 & Ea & E). apply arm_ok in Ea as [Hu Ho]; [|done].
    assert (conserved s0 (us x1) h ∧ bufs_ok (us x1)) as [Hs1 Hb1] by (destruct Hu as [->| ->]; [by split|by apply armed_by_frame; [|split]]).
    assert (rx_armed (us x1)) as Hr1 by (destruct Hu as [->| ->]; [auto|by apply armed_by_keeps]).
    destruct o as [a'|]; injection E as <- <-; split; simpl; try done.
    + intros c [= <-]. by destruct Ho.
    + destruct Ho as [_ Ho]. intros ->%Ho. left. apply set_bits_1.
    + by intros c [= <-].
    + destruct Ho as [Ho ->]. auto.
Qed.

Lemma cstep_ok C C' : driver_ok s0 C → cstep C C' → driver_ok s0 C'.
Proof.
  intros HC Hst. destruct Hst as [x o p h b s|x o p h s|x o p h s' Hie Hrun|x p h st c He Hgo|x c p h st x' Hrun|x c p1 p2 h|x p h k i b s].
  - destruct HC as [[Hs1 Hs2] Hb Hc Hp Hr Ht]. split; simpl in *; [|by destruct Hb; split|exact Hc|exact Hp|exact Hr|exact Ht]. split; [|done]. simpl. by rewrite !app_assoc, <- Hs1, <- !app_assoc.
  - destruct HC as [Hs Hb Hc Hp Hr Ht]. split; [exact Hs|by destruct Hb; split|exact Hc|exact Hp|exact Hr|exact Ht].
  - destruct HC as [Hs Hb Hc Hp Hr Ht]. simpl in *. assert (isr_device (us x) s') as Hd.
    { destruct (isr_device_ok (us x) Hb) as (s1 & E & Hk & Hd). rewrite E in Hrun. apply mbind_inv in Hrun as ([] & s2 & E1 & E2).
      apply wake_device in E1 as [k ->]. apply wake_device in E2 as [k2 ->]. apply (isr_device_kern _ s1 k2 Hd). }
    pose proof Hd as (Hl & Hq1 & Hq2 & _ & Hb' & Hr' & Ht' & _). destruct Hs as [Hs1 Hs2].
    split; simpl; [|done| |done|auto|auto].
    + split; [|by rewrite Hq2]. rewrite Hl, Hq1, <- Hs1, <- (app_assoc _ (take _ _)). by rewrite take_drop.
    + intros c E. by apply (isr_call_ok x); auto.
  - destruct HC as [Hs Hb Hc Hp Hr Ht]. simpl in *. destruct (entry_ok x st c He Hgo) as (? & ? & ?).
    split; simpl; [done|done|by intros c' [= <-]|done|auto|auto].
  - destruct c; [by apply read_step_ok with x|by apply write_step_ok with x].
  - destruct HC as [Hs Hb Hc Hp Hr Ht]. simpl in *. destruct (at_rest_ok x c) as (? & ? & ?); [apply Hp; set_solver|].
    split; simpl; [done|done|by intros c' [= <-]| |auto|auto]. intros c' Hin. apply Hp. set_solver.
  - destruct HC as [Hs Hb Hc Hp Hr Ht]. split; [exact Hs|by destruct Hb; split|done|exact Hp|exact Hr|exact Ht].
Qed.

End steps.

(** When a call returns. *)
Lemma return_ok x (c : ucall) n x' : call_ok x c → uart_step c x = (Ret (Return n), x') →
  match c with CRead bufsz out _ => n = Z.of_nat (length out) ∧ 0 < n ≤ bufsz | CWrite len todo _ => n = len ∧ todo = [] end.
Proof.
  destruct c as [m out pc|m todo pc]; simpl; intros Hc E.
  - destruct Hc as [Hm Hc]. destruct pc as [| | |hp c|[]]; simpl in *; try done; [|injection E as <- <-; by destruct Hc].
    apply mbind_inv in E as (r & x1 & _ & E). destruct (rbuf_empty r); [|done]. by apply yield_frame in E as [? _].
  - destruct pc as [| | | |tp c|[]]; simpl in *; try done.
    + destruct todo; [|done]. by injection E as <- <-.
    + apply mbind_inv in E as (r & x1 & _ & E). destruct (rbuf_full r); [|done]. by apply yield_frame in E as [? _].
    + by destruct todo.
Qed.

Lemma on_kern_frame {A} (m : M ks A) s x s' : on_kern m s = (x, s') → ∃ k, s' = USys k (intr s) (dev s) (rx_line s) (thre s) (sent s).
Proof. unfold on_kern. destruct (m (kern s)) as [y k]. intros E. apply (f_equal snd) in E. by exists k. Qed.
Lemma on_intr_frame {A} (m : M Intr.isys A) s x s' : on_intr m s = (x, s') → ∃ i, s' = USys (kern s) i (dev s) (rx_line s) (thre s) (sent s).
Proof. unfold on_intr. destruct (m (intr s)) as [y i]. intros E. apply (f_equal snd) in E. by exists i. Qed.

Lemma rbuf_init_ok r : length (data r) = 64%nat → rok (rbuf_init r) ∧ queue (rbuf_init r) = [].
Proof. intros Hl. by repeat split. Qed.

Lemma uart_open_ok aux s s' :
  length (data (rxbuf (dev s))) = 64%nat → length (data (txbuf (dev s))) = 64%nat → uart_open aux s = (Ret 0, s') →
  rx_line s' = list.tail (rx_line s) ∧ sent s' = sent s ∧ queue (rxbuf (dev s')) = [] ∧ queue (txbuf (dev s')) = [] ∧ bufs_ok s' ∧ rx_armed s' ∧ tx_armed s'.
Proof.
  intros H1 H2. unfold uart_open. kgets. cbn beta. destruct (refcnt (dev s) =? 0); cbv iota zeta beta delta [negb]; [|done].
  unfold upd_dev. kmodify. kmodify. intros (? & s1 & E1 & E)%mbind_inv. apply on_kern_frame in E1 as [k1 ->].
  apply mbind_inv in E as (? & s2 & E2 & E). apply on_kern_frame in E2 as [k2 ->].
  rewrite (bind_ret read_rbr _ _ _ _ eq_refl) in E. rewrite (bind_ret (modify _) _ _ _ tt eq_refl) in E.
  apply mbind_inv in E as (? & s3 & E3 & E). apply on_intr_frame in E3 as [i ->].
  rewrite (bind_ret (modify _) _ _ _ tt eq_refl) in E. apply (f_equal snd) in E. cbn [snd mret M_ret] in E. subst s'.
  cbn -[Z.testbit rbuf_init queue]. pose proof (rbuf_init_ok _ H1) as [? ?]. pose proof (rbuf_init_ok _ H2) as [? ?].
  split_and!; [done..|by split|by left|by right].
Qed.


(** ** Witnesses *)

Definition demo_rbuf (n : nat) : ringbuf := RingBuf (2 ^ 32 - 1) (u32 (2 ^ 32 - 1 + Z.of_nat n)) (Z.of_nat <$> seq 100 64).
Definition demo_uart : usys :=
  USys (initial 0 1) Intr.demo_isys (UartDevice 3 10 0 (demo_rbuf 63) (demo_rbuf 2) 31 32) [7; 8; 9] true [].

Lemma demo_rbuf_ok n : (n ≤ 64)%nat → rok (demo_rbuf n).
Proof.
  intros Hn. split; simpl; [done|done|by apply Z.mod_pos_bound|].
  unfold Ring.rcount, u32, UART_RBUFSZ. rewrite Zminus_mod_idemp_l, Z.mod_small; lia.
Qed.

Lemma demo_uart_ok : bufs_ok demo_uart.
Proof. split; apply demo_rbuf_ok; lia. Qed.

Lemma uart_isr_correct_witness :
  ∃ s' q', uart_isr demo_uart = (Ret tt, s') ∧ isr_device demo_uart s' ∧ inv (kern s') q' ∧
    q' Ready = q0 Ready ++ (if (can_take demo_uart =? 0)%nat then [] else q0 (Cond 31)) ++ (if tx_ready demo_uart then q0 (Cond 32) else []).
Proof. exact (uart_isr_correct demo_uart q0 (initial_inv 0 1) demo_uart_ok ltac:(done)). Defined.

(** Schedules: a step of the call, an interrupt, and the start of a call. *)
Definition tick (C : cstate) : cstate :=
  match cur C with
  | Some c => match uart_step c (sys C) with (Ret st, x') => CState x' (after st (parked C)).1 (after st (parked C)).2 (note c (hist C)) | _ => C end
  | None => C
  end.
Definition interrupt (C : cstate) : cstate :=
  if ie (sys C) then match uart_isr (us (sys C)) with (Ret tt, s') => CState (CSys s' true) (cur C) (parked C) (hist C) | _ => C end else C.
Definition start (st : status) (C : cstate) : cstate :=
  match cur C, st with None, Go c => CState (sys C) (Some c) (parked C) (hist C) | _, _ => C end.

Lemma ticks_reach k C : rtc cstep C (Nat.iter k tick C).
Proof.
  induction k as [|k IH]; [done|]. etrans; [exact IH|]. simpl. generalize (Nat.iter k tick C) as C1. intros [x o p h].
  unfold tick. simpl. destruct o as [c|]; [|done]. destruct (uart_step c x) as [[st| | |] x'] eqn:E; [|done..]. by apply rtc_once, cs_step.
Qed.
Lemma interrupt_reach C : rtc cstep C (interrupt C).
Proof.
  destruct C as [x o p h]. unfold interrupt. simpl. destruct (ie x) eqn:Hie; [|done].
  destruct (uart_isr (us x)) as [[[]| | |] s'] eqn:E; [|done..]. by apply rtc_once, cs_isr.
Qed.
Lemma start_reach st C : (∃ n, st = uart_read n) ∨ (∃ buf n, st = uart_write buf n) → rtc cstep C (start st C).
Proof. intros H. destruct C as [x [c|] p h]; [done|]. destruct st as [c|c|n] eqn:E; [|done..]. apply rtc_once. eapply cs_call; [exact H|done]. Qed.

(** The port is opened with two bytes on the line; a write is interrupted when
    it has stored its byte and not yet published it, and is interrupted again
    after it has armed the transmitter; a read of nine gets the two bytes. *)
Definition demo_calls (s0 : usys) : cstate :=
  let C0 := CState (CSys s0 true) None [] (Streams [] [] []) in
  let C1 := interrupt (Nat.iter 4 tick (start (uart_write [6] 1) C0)) in
  let C2 := start (uart_read 9) (interrupt (Nat.iter 20 tick C1)) in
  Nat.iter 20 tick C2.

Lemma demo_calls_reach s0 : rtc cstep (CState (CSys s0 true) None [] (Streams [] [] [])) (demo_calls s0).
Proof.
  unfold demo_calls. repeat (etrans; [|first [apply ticks_reach | apply interrupt_reach | apply start_reach; eauto]]). done.
Qed.


End Uart.
