(* ===== verification/Device.v ===== *)
(** * Device manager (kernel/device.c)

    The device table holds names, open functions and their arguments.  What an
    open function does is its driver's business: the functions that call one
    take [run_open], which runs the open function with a given identifier on
    the state of the drivers. *)

From S2P Require Import Prelude Config Strings.

Module Device.
Import Str.

Record dev_entry := DevEntry { name : cstr; openfn : option nat; aux : Z }.
Definition INT_MAX : Z := 2 ^ 31 - 1.
Implicit Types (tab : list (option dev_entry)) (nm : cstr) (instno : Z).

(** ** Registering and opening *)

(** The loop of [register_device] from slot [i] on: the instance number and
    the new table, or [None] for the panic when the table is full. *)
Fixpoint register_loop nm (fn : option nat) (ax : Z) instno tab : option (Z * list (option dev_entry)) :=
  match tab with
  | [] => None
  | None :: rest => Some (instno, Some (DevEntry nm fn ax) :: rest)
  | Some e :: rest =>
      let instno := if strcmp (Some nm) (Some (name e)) =? 0 then instno + 1 else instno in
      '(r, rest) ← register_loop nm fn ax instno rest; Some (r, Some e :: rest)
  end.

Definition register_device (nm : option cstr) (fn : option nat) (ax : Z) : M (list (option dev_entry)) Z := λ tab,
  match nm with
  | None => (Panic, tab)
  | Some nm =>
      match register_loop nm fn ax 0 tab with
      | None => (Panic, tab)
      | Some (instno, tab') => (Ret instno, tab')
      end
  end.

(** The entry [open_device] uses. *)
Fixpoint find_device nm instno (k : Z) tab : option dev_entry :=
  match tab with
  | [] | None :: _ => None
  | Some e :: rest =>
      if strcmp (Some nm) (Some (name e)) =? 0 then
        if k =? instno then Some e else find_device nm instno (k + 1) rest
      else find_device nm instno k rest
  end.

Section open.
Context {C : Type} (run_open : nat → Z → M C (Z * option nat)).

(** The return value and [*ioptr], [None] when it was not set. *)
Definition open_device tab nm instno : M C (Z * option nat) :=
  match find_device nm instno 0 tab with
  | None => mret (- ENODEV, None)
  | Some e => match openfn e with
              | None => mret (- ENOTSUP, None)
              | Some f => run_open f (aux e)
              end
  end.
End open.

(** ** Device specifications *)

(** The scan: where the digits at the end of the string begin, with the number
    of characters before them, or [None] for a character that is not allowed. *)
Fixpoint spec_loop (s : cstr) (i : nat) (p : option (nat * cstr)) : option (option (nat * cstr)) :=
  match s with
  | [] => Some p
  | c :: rest =>
      if ((48 <=? c) && (c <=? 57))%bool then spec_loop rest (S i) (match p with None => Some (i, s) | _ => p end)
      else if ((32 <? c) && (c <? 127))%bool then spec_loop rest (S i) None
      else None
  end.

(** The result and the string left in [spec]. *)
Definition parse_device_spec (spec : cstr) : Z * cstr :=
  match spec_loop spec 0 None with
  | Some (Some (i, p)) =>
      let '(ulval, e) := strtoul (Some p) 10 in
      if ((ulval <=? INT_MAX) && bool_decide (e = Some []))%bool then (ulval, take i spec) else (- EINVAL, spec)
  | _ => (- EINVAL, spec)
  end.

(** ** The table *)

(** Entries are used from the start. *)
Definition table (es : list dev_entry) (n : nat) : list (option dev_entry) := (Some <$> es) ++ replicate n None.
Definition named nm (es : list dev_entry) : nat := length (filter (λ e, name e = nm) es).
Definition good_names (es : list dev_entry) : Prop := Forall (λ e, is_cstr (name e)) es.

Lemma strcmp_eq nm nm' : is_cstr nm → is_cstr nm' → (strcmp (Some nm) (Some nm') =? 0) = bool_decide (nm' = nm).
Proof.
  intros H1 H2. unfold strcmp. pose proof (strcmp_loop_zero nm nm' H1 H2) as Hz.
  case_bool_decide as E; [apply Z.eqb_eq, Hz; by subst|apply Z.eqb_neq; intros ?%Hz; by subst].
Qed.

Lemma register_loop_ok nm fn ax es n : ∀ instno, is_cstr nm → good_names es →
  register_loop nm fn ax instno (table es (S n)) = Some (instno + Z.of_nat (named nm es), table (es ++ [DevEntry nm fn ax]) n).
Proof.
  induction es as [|e es IH]; intros instno Hn Hg; [by unfold named; simpl; rewrite Z.add_0_r|].
  apply Forall_cons in Hg as [He Hg]. unfold table. cbn [fmap list_fmap app register_loop].
  fold (table es (S n)). rewrite IH, strcmp_eq by done. cbv beta iota delta [mbind option_bind]. unfold named. rewrite filter_cons.
  case_bool_decide; [rewrite decide_True by done|rewrite decide_False by done]; do 2 f_equal; simpl length; lia.
Qed.

Lemma register_loop_full nm fn ax es : ∀ instno, register_loop nm fn ax instno (table es 0) = None.
Proof. induction es as [|e es IH]; intros instno; [done|]. unfold table. cbn [fmap list_fmap app register_loop]. fold (table es 0). by rewrite IH. Qed.

(** What [open_device] finds is the entry with that name and number. *)
Lemma find_device_ok nm es n : ∀ instno k, is_cstr nm → good_names es →
  find_device nm instno k (table es n) =
    if bool_decide (k ≤ instno) then filter (λ e, name e = nm) es !! Z.to_nat (instno - k) else None.
Proof.
  induction es as [|e es IH]; intros instno k Hn Hg.
  { case_bool_decide; by destruct n. }
  apply Forall_cons in Hg as [He Hg]. unfold table. cbn [fmap list_fmap app find_device].
  fold (table es n). rewrite strcmp_eq, !IH by done. rewrite filter_cons. case_bool_decide as E.
  - rewrite decide_True by done. destruct (Z.eqb_spec k instno) as [->|Hne].
    + rewrite bool_decide_true, Z.sub_diag by done. done.
    + destruct (decide (k ≤ instno)).
      * rewrite !bool_decide_true by lia. by replace (Z.to_nat (instno - k)) with (S (Z.to_nat (instno - (k + 1)))) by lia.
      * by rewrite !bool_decide_false by lia.
  - by rewrite decide_False by done.
Qed.

(** The table after a registration. *)
Lemma register_finds nm fn ax es n :
  is_cstr nm → good_names es → let tab' := table (es ++ [DevEntry nm fn ax]) n in
  find_device nm (Z.of_nat (named nm es)) 0 tab' = Some (DevEntry nm fn ax) ∧
  (∀ nm' j, is_cstr nm' → nm' ≠ nm ∨ j ≠ Z.of_nat (named nm es) → find_device nm' j 0 tab' = find_device nm' j 0 (table es (S n))).
Proof.
  intros Hn Hg tab'. assert (good_names (es ++ [DevEntry nm fn ax])) as Hg' by (apply Forall_app; split; [done|by constructor]).
  unfold tab'. split.
  - rewrite find_device_ok, bool_decide_true, Z.sub_0_r, Nat2Z.id, filter_app by (done || lia).
    rewrite lookup_app_r by done. fold (named nm es). by rewrite Nat.sub_diag, filter_cons, decide_True.
  - intros nm' j Hn' Hne. rewrite !find_device_ok by done. case_bool_decide as Hj; [|done].
    rewrite filter_app, filter_cons. cbn [name]. case_decide as E; [|by rewrite filter_nil, app_nil_r]. subst nm'.
    destruct Hne as [?|Hne]; [done|]. rewrite filter_nil. destruct (decide (Z.to_nat (j - 0) < named nm es)%nat).
    + by apply lookup_app_l.
    + rewrite lookup_app_r by (unfold named in *; lia). unfold named in *. rewrite !(proj2 (lookup_ge_None _ _)); simpl; lia || done.
Qed.

(** A device that is registered while there is a free slot gets the number
    of devices registered before it under the same name, and it is what opening
    that name and number finds from then on; every other name and number keeps
    finding what it found.  With a full table registration panics. *)
Lemma register_then_open nm fn ax es n :
  is_cstr nm → good_names es →
  match n with
  | O => register_device (Some nm) fn ax (table es n) = (Panic, table es n)
  | S n' =>
      ∃ tab', register_device (Some nm) fn ax (table es n) = (Ret (Z.of_nat (named nm es)), tab') ∧
        find_device nm (Z.of_nat (named nm es)) 0 tab' = Some (DevEntry nm fn ax) ∧
        (∀ nm' j, is_cstr nm' → nm' ≠ nm ∨ j ≠ Z.of_nat (named nm es) → find_device nm' j 0 tab' = find_device nm' j 0 (table es n)) ∧
        good_names (es ++ [DevEntry nm fn ax]) ∧ tab' = table (es ++ [DevEntry nm fn ax]) n'
  end.
Proof.
  intros Hn Hg. unfold register_device. destruct n as [|n]; [by rewrite register_loop_full|].
  assert (good_names (es ++ [DevEntry nm fn ax])) as Hg' by (apply Forall_app; split; [done|by constructor]).
  rewrite register_loop_ok by done. destruct (register_finds nm fn ax es n Hn Hg) as [H1 H2]. eexists. by split_and!.
Qed.

(** ** Parsing a specification *)

Definition is_digit (c : Z) : bool := ((48 <=? c) && (c <=? 57))%bool.
Definition graphic (c : Z) : Prop := 32 < c < 127.
(** A name that does not end in a digit. *)
Definition stem nm : Prop := Forall graphic nm ∧ match last nm with Some c => is_digit c = false | None => True end.

Lemma spec_loop_digits s : ∀ i p, Forall (λ c, is_digit c = true) s →
  spec_loop s i p = Some (match p, s with None, _ :: _ => Some (i, s) | _, _ => p end).
Proof.
  induction s as [|c s IH]; intros i p Hs; [by destruct p|]. apply Forall_cons in Hs as [Hc Hs].
  unfold spec_loop; fold spec_loop. unfold is_digit in Hc. rewrite Hc, IH by done. by destruct p.
Qed.

Lemma spec_loop_graphic nm s : ∀ i p, Forall graphic nm →
  ∃ p', spec_loop (nm ++ s) i p = spec_loop s (i + length nm) p' ∧
        (match last nm with Some c => is_digit c = false → p' = None | None => p' = p end).
Proof.
  induction nm as [|c nm IH]; intros i p Hn; [exists p; by rewrite Nat.add_0_r|].
  apply Forall_cons in Hn as [Hc Hn]. cbn [app spec_loop length]. fold (is_digit c). unfold graphic in Hc.
  set (p1 := if is_digit c then match p with None => Some (i, c :: nm ++ s) | _ => p end else None).
  assert ((if is_digit c then spec_loop (nm ++ s) (S i) match p with None => Some (i, c :: nm ++ s) | _ => p end
           else if (32 <? c) && (c <? 127) then spec_loop (nm ++ s) (S i) None else None)%bool = spec_loop (nm ++ s) (S i) p1) as E.
  { unfold p1. destruct (is_digit c); [done|]. by rewrite (proj2 (Z.ltb_lt 32 c)), (proj2 (Z.ltb_lt c 127)) by lia. }
  destruct (IH (S i) p1 Hn) as (p' & E' & Hp). exists p'. split.
  - replace (i + S (length nm))%nat with (S i + length nm)%nat by lia. by rewrite <- E', <- E.
  - destruct nm as [|c' nm]; [simpl in *; intros H; rewrite Hp; unfold p1; by rewrite H|].
    change (last (c :: c' :: nm)) with (last (c' :: nm)). destruct (last (c' :: nm)) eqn:L; [done|]. by apply last_None in L.
Qed.

Lemma int_chars_digits fuel : ∀ val acc, 0 ≤ val → Forall (λ c, is_digit c = true) acc → Forall (λ c, is_digit c = true) (int_chars fuel val 10 acc).
Proof.
  induction fuel as [|fuel IH]; intros val acc Hv Ha; [done|]. unfold int_chars; fold int_chars.
  assert (is_digit (digit_char (val mod 10)) = true) as Hd.
  { unfold digit_char, is_digit. pose proof (Z.mod_pos_bound val 10 ltac:(lia)). rewrite (proj2 (Z.ltb_lt (val mod 10) 10)) by lia. lia. }
  destruct (negb (val / 10 =? 0)); [|by constructor]. apply IH; [apply Z.div_pos; lia|by constructor].
Qed.

(** A specification made of a device name that does not end in a digit and
    a printed instance number, with or without leading zeros, is split back
    into the two; a string with a character that is not graphic, or that does
    not end in a digit, is refused and left as it was. *)
Lemma parse_device_spec_correct nm val len :
  stem nm → 0 ≤ val ≤ INT_MAX →
  parse_device_spec (nm ++ int_text val 10 true len) = (val, nm) ∧
  parse_device_spec nm = (- EINVAL, nm) ∧
  (∀ c s, ¬ graphic c → c ≠ 0 → parse_device_spec (nm ++ c :: s) = (- EINVAL, nm ++ c :: s)).
Proof.
  intros [Hg Hl] Hv. unfold parse_device_spec.
  assert (∀ s, spec_loop (nm ++ s) 0 None = spec_loop s (length nm) None) as Hnm.
  { intros s. destruct (spec_loop_graphic nm s 0 None Hg) as (p & -> & Hp). simpl. f_equal. destruct (last nm); [by apply Hp|done]. }
  split_and!.
  - rewrite Hnm, spec_loop_digits.
    2: { unfold int_text. apply Forall_app. split; [by apply Forall_replicate|by apply int_chars_digits; [lia|]]. }
    assert (∃ d r, int_text val 10 true len = d :: r) as (d & r & E).
    { unfold int_text. destruct (int_chars_head 40 val [] ltac:(lia)) as (d & r & -> & _). destruct (Z.to_nat _); by eexists _, _. }
    rewrite E at 1. rewrite <- (app_nil_r (int_text val 10 true len)) at 1.
    rewrite strtoul_int_text; [|unfold INT_MAX in *; lia|by left].
    rewrite (proj2 (Z.leb_le _ _)), bool_decide_true by (done || lia). cbn [andb]. by rewrite take_app_length.
  - rewrite <- (app_nil_r nm) at 1. by rewrite Hnm.
  - intros c s Hc Hc0. rewrite Hnm. unfold graphic in Hc. unfold spec_loop; fold spec_loop.
    destruct (Z.leb_spec 48 c), (Z.leb_spec c 57), (Z.ltb_spec 32 c), (Z.ltb_spec c 127); try done; lia.
Qed.

(** ** Witnesses *)

(** "uart", "rtc" and a second "uart". *)
Definition demo_devices : list dev_entry := [DevEntry [117; 97; 114; 116] None 0; DevEntry [114; 116; 99] (Some 1%nat) 7].

Lemma demo_names : good_names demo_devices.
Proof. repeat constructor. Qed.

Lemma register_then_open_witness :
  ∃ tab', register_device (Some [117; 97; 114; 116]) (Some 2%nat) 9 (table demo_devices 14) = (Ret 1, tab') ∧
    find_device [117; 97; 114; 116] 1 0 tab' = Some (DevEntry [117; 97; 114; 116] (Some 2%nat) 9) ∧
    (∀ nm' j, is_cstr nm' → nm' ≠ [117; 97; 114; 116] ∨ j ≠ 1 → find_device nm' j 0 tab' = find_device nm' j 0 (table demo_devices 14)) ∧
    good_names (demo_devices ++ [DevEntry [117; 97; 114; 116] (Some 2%nat) 9]) ∧
    tab' = table (demo_devices ++ [DevEntry [117; 97; 114; 116] (Some 2%nat) 9]) 13.
Proof.
  apply (register_then_open [117; 97; 114; 116] (Some 2%nat) 9 demo_devices 14); [repeat constructor|apply demo_names].
Defined.

Lemma parse_device_spec_correct_witness :
  parse_device_spec ([117; 97; 114; 116] ++ int_text 12 10 true 3) = (12, [117; 97; 114; 116]) ∧
  parse_device_spec [117; 97; 114; 116] = (- EINVAL, [117; 97; 114; 116]) ∧
  (∀ c s, ¬ graphic c → c ≠ 0 → parse_device_spec ([117; 97; 114; 116] ++ c :: s) = (- EINVAL, [117; 97; 114; 116] ++ c :: s)).
Proof.
  apply (parse_device_spec_correct [117; 97; 114; 116] 12 3); [|unfold INT_MAX; lia].
  split; [|done]. unfold graphic. repeat constructor.
Defined.

End Device.
