(* ===== verification/Virtio.v ===== *)
(** * VirtIO over memory-mapped registers (kernel/dev/virtio.c, kernel/dev/virtio.h)

    The registers of one device are the record [mmio].  What the hardware does
    when a register is written or read is written out: feature words and queue
    registers are selected by another register, a write of 0 to the status
    register resets the device, and a device that does not accept the driver's
    features keeps FEATURES_OK clear.  Which features it accepts is the function
    [accepts]. *)

From S2P Require Import Prelude Config.

Module Virtio.

Definition VIRTIO_MAGIC : Z := 0x74726976.
Definition VIRTIO_STAT_ACKNOWLEDGE : Z := Z.shiftl 1 0.
Definition VIRTIO_STAT_DRIVER : Z := Z.shiftl 1 1.
Definition VIRTIO_STAT_FEATURES_OK : Z := Z.shiftl 1 3.
Definition VIRTIO_STAT_DRIVER_OK : Z := Z.shiftl 1 2.
Definition VIRTQ_DESC_F_NEXT : Z := Z.shiftl 1 0.
Definition VIRTQ_DESC_F_WRITE : Z := Z.shiftl 1 1.
Definition VIRTIO_FEATLEN : Z := 4.

Definition VIRTIO_ID_NONE : Z := 0.
Definition VIRTIO_ID_BLOCK : Z := 2.
Definition VIRTIO_ID_CONSOLE : Z := 3.
Definition VIRTIO_ID_RNG : Z := 4.
Definition VIRTIO_ID_GPU : Z := 16.

(** ** Registers *)

(** The registers of one queue. *)
Record vqregs := VqRegs {
  queue_num : Z; queue_ready : Z; queue_reset : Z; queue_desc : Z; queue_driver : Z; queue_device : Z }.
Definition vq_zero : vqregs := VqRegs 0 0 0 0 0 0.

Record mmio := Mmio {
  magic_value : Z; version : Z; device_id : Z;
  offered : list Z; accepts : list Z → bool;
  device_features_sel : Z; driver_features : list Z; driver_features_sel : Z;
  queue_sel : Z; queues : gmap Z vqregs; queue_notify : list Z;
  interrupt_status : Z; status : Z; capacity : Z; blk_size : Z }.
Implicit Types (r : mmio) (k i : Z) (needed wanted enabled : list Z).

Definition with_dfsel r x : mmio :=
  Mmio (magic_value r) (version r) (device_id r) (offered r) (accepts r) x (driver_features r) (driver_features_sel r)
       (queue_sel r) (queues r) (queue_notify r) (interrupt_status r) (status r) (capacity r) (blk_size r).
Definition with_drsel r x : mmio :=
  Mmio (magic_value r) (version r) (device_id r) (offered r) (accepts r) (device_features_sel r) (driver_features r) x
       (queue_sel r) (queues r) (queue_notify r) (interrupt_status r) (status r) (capacity r) (blk_size r).
Definition with_drfeat r x : mmio :=
  Mmio (magic_value r) (version r) (device_id r) (offered r) (accepts r) (device_features_sel r) x (driver_features_sel r)
       (queue_sel r) (queues r) (queue_notify r) (interrupt_status r) (status r) (capacity r) (blk_size r).
Definition with_qsel r x : mmio :=
  Mmio (magic_value r) (version r) (device_id r) (offered r) (accepts r) (device_features_sel r) (driver_features r)
       (driver_features_sel r) x (queues r) (queue_notify r) (interrupt_status r) (status r) (capacity r) (blk_size r).
Definition with_queues r x : mmio :=
  Mmio (magic_value r) (version r) (device_id r) (offered r) (accepts r) (device_features_sel r) (driver_features r)
       (driver_features_sel r) (queue_sel r) x (queue_notify r) (interrupt_status r) (status r) (capacity r) (blk_size r).
Definition with_notify r x : mmio :=
  Mmio (magic_value r) (version r) (device_id r) (offered r) (accepts r) (device_features_sel r) (driver_features r)
       (driver_features_sel r) (queue_sel r) (queues r) x (interrupt_status r) (status r) (capacity r) (blk_size r).
Definition with_istatus r x : mmio :=
  Mmio (magic_value r) (version r) (device_id r) (offered r) (accepts r) (device_features_sel r) (driver_features r)
       (driver_features_sel r) (queue_sel r) (queues r) (queue_notify r) x (status r) (capacity r) (blk_size r).
Definition with_status r x : mmio :=
  Mmio (magic_value r) (version r) (device_id r) (offered r) (accepts r) (device_features_sel r) (driver_features r)
       (driver_features_sel r) (queue_sel r) (queues r) (queue_notify r) (interrupt_status r) x (capacity r) (blk_size r).

(** Reading [device_features] and writing [driver_features]: the word that
    the selection register names. *)
Definition device_features r : Z := getb 0 (offered r) (device_features_sel r).
Definition write_driver_features r v : mmio := with_drfeat r (setb (driver_features_sel r) v (driver_features r)).

Definition write_status r v : mmio :=
  if v =? 0 then
    with_status (with_queues (with_drfeat r (replicate (Z.to_nat VIRTIO_FEATLEN) 0)) ∅) 0
  else if accepts r (driver_features r) then with_status r v
  else with_status r (Z.land v (255 - VIRTIO_STAT_FEATURES_OK)).

(** Registers of the selected queue. *)
Definition upd_queue r (f : vqregs → vqregs) : mmio :=
  with_queues r (<[queue_sel r := f (default vq_zero (queues r !! queue_sel r))]> (queues r)).

(** Writing [interrupt_ack] clears the bits that are set in [v]. *)
Definition write_interrupt_ack r v : mmio := with_istatus r (Z.land (interrupt_status r) (Z.lnot v)).

(** ** The functions of virtio.h *)

Definition virtio_check_feature k : M mmio Z :=
  modify (λ r, with_dfsel r (k / 32));;
  gets (λ r, Z.land (Z.shiftr (device_features r) (k mod 32)) 1).

Definition virtio_notify_avail (qid : Z) : M mmio unit := modify (λ r, with_notify r (queue_notify r ++ [qid])).

Definition virtio_enable_virtq (qid : Z) : M mmio unit :=
  modify (λ r, with_qsel r qid);;
  modify (λ r, upd_queue r (λ q, VqRegs (queue_num q) 1 (queue_reset q) (queue_desc q) (queue_driver q) (queue_device q))).

Definition virtio_reset_virtq (qid : Z) : M mmio unit :=
  modify (λ r, with_qsel r qid);;
  modify (λ r, upd_queue r (λ q, VqRegs (queue_num q) (queue_ready q) 1 (queue_desc q) (queue_driver q) (queue_device q))).

(** A feature set: VIRTIO_FEATLEN words of 32 bits. *)
Definition virtio_featset_init : list Z := replicate (Z.to_nat VIRTIO_FEATLEN) 0.
Definition virtio_featset_add (fts : list Z) k : list Z :=
  setb (k / 32) (Z.lor (getb 0 fts (k / 32)) (u32 (Z.shiftl 1 (k mod 32)))) fts.
Definition virtio_featset_test (fts : list Z) k : Z := Z.land (Z.shiftr (getb 0 fts (k / 32)) (k mod 32)) 1.

(** ** The functions of virtio.c *)

(** Which attach function is called; the ones for the console and the GPU are
    empty unless a driver is linked in. *)
Inductive driver := Viocons | Vioblk | Viorng | Viogpu.

Definition virtio_attach : M mmio (option driver) :=
  r ← gets (λ r, r);
  if negb (magic_value r =? VIRTIO_MAGIC) then mret None
  else if negb (version r =? 2) then mret None
  else if device_id r =? VIRTIO_ID_NONE then mret None
  else
    modify (λ r, write_status r 0);;
    modify (λ r, write_status r VIRTIO_STAT_ACKNOWLEDGE);;
    mret (if device_id r =? VIRTIO_ID_CONSOLE then Some Viocons
          else if device_id r =? VIRTIO_ID_BLOCK then Some Vioblk
          else if device_id r =? VIRTIO_ID_RNG then Some Viorng
          else if device_id r =? VIRTIO_ID_GPU then Some Viogpu
          else None).

(** The first loop of [virtio_negotiate_features], from word [i] on. *)
Fixpoint check_needed (n : nat) i needed : M mmio unit :=
  match n with
  | O => mret tt
  | S n =>
      let w := getb 0 needed i in
      (if w =? 0 then mret tt
       else
         modify (λ r, with_dfsel r i);;
         f ← gets device_features;
         if Z.land f w =? w then mret tt else fail (- ENOTSUP));;
      check_needed n (i + 1) needed
  end.

(** The second loop; [enabled] is the caller's array, of which only the words
    that are wanted are written. *)
Fixpoint enable_wanted (n : nat) i wanted enabled : M mmio (list Z) :=
  match n with
  | O => mret enabled
  | S n =>
      let w := getb 0 wanted i in
      enabled ←
        (if w =? 0 then mret enabled
         else
           modify (λ r, with_dfsel r i);;
           modify (λ r, with_drsel r i);;
           f ← gets device_features;
           modify (λ r, write_driver_features r (Z.land f w));;
           mret (setb i (Z.land f w) enabled));
      enable_wanted n (i + 1) wanted enabled
  end.

Definition virtio_negotiate_features enabled wanted needed : M mmio (list Z) :=
  check_needed (Z.to_nat VIRTIO_FEATLEN) 0 needed;;
  enabled ← enable_wanted (Z.to_nat VIRTIO_FEATLEN) 0 wanted enabled;
  modify (λ r, write_status r (Z.lor (status r) VIRTIO_STAT_FEATURES_OK));;
  s ← gets status;
  if Z.land s VIRTIO_STAT_FEATURES_OK =? 0 then panic else mret enabled.

Definition virtio_attach_virtq (qid len desc_addr used_addr avail_addr : Z) : M mmio unit :=
  modify (λ r, with_qsel r qid);;
  modify (λ r, upd_queue r (λ q, VqRegs (queue_num q) (queue_ready q) (queue_reset q) desc_addr (queue_driver q) (queue_device q)));;
  modify (λ r, upd_queue r (λ q, VqRegs (queue_num q) (queue_ready q) (queue_reset q) (queue_desc q) (queue_driver q) used_addr));;
  modify (λ r, upd_queue r (λ q, VqRegs (queue_num q) (queue_ready q) (queue_reset q) (queue_desc q) avail_addr (queue_device q)));;
  modify (λ r, upd_queue r (λ q, VqRegs len (queue_ready q) (queue_reset q) (queue_desc q) (queue_driver q) (queue_device q))).

(** ** Feature negotiation *)

(** A word that the device offers in full. *)
Definition met r needed i : Prop := Z.land (getb 0 (offered r) i) (getb 0 needed i) = getb 0 needed i.
#[global] Instance met_dec r needed i : Decision (met r needed i) := decide (_ = _).
(** What becomes of word [i] of an array that held [old]. *)
Definition agreed r wanted (old : list Z) i : Z :=
  if getb 0 wanted i =? 0 then getb 0 old i else Z.land (getb 0 (offered r) i) (getb 0 wanted i).

(** The registers that negotiation writes, apart from the status. *)
Definition sel_only r r' : Prop := ∃ a, r' = with_dfsel r a.
Definition feat_only r r' (fs : list Z) : Prop := ∃ a b, r' = with_drfeat (with_drsel (with_dfsel r a) b) fs.

Lemma check_needed_ok n : ∀ i r needed,
  ((∀ j, i ≤ j < i + Z.of_nat n → met r needed j) ∧ ∃ r', check_needed n i needed r = (Ret tt, r') ∧ sel_only r r') ∨
  ((∃ j, i ≤ j < i + Z.of_nat n ∧ ¬ met r needed j) ∧ ∃ r', check_needed n i needed r = (Fail (- ENOTSUP), r') ∧ sel_only r r').
Proof.
  induction n as [|n IH]; intros i r needed; cbn [check_needed].
  { left. split; [lia|]. exists r. split; [done|]. exists (device_features_sel r). by destruct r. }
  assert (∃ b r1, sel_only r r1 ∧ (b = true ↔ met r needed i) ∧
    (if getb 0 needed i =? 0 then mret tt
     else modify (λ r, with_dfsel r i);; f ← gets device_features;
          if Z.land f (getb 0 needed i) =? getb 0 needed i then mret tt else fail (- ENOTSUP)) r =
    (if (b : bool) then Ret tt else Fail (- ENOTSUP), r1)) as (b & r1 & Hsel & Hb & Hrun).
  { unfold met. destruct (Z.eqb_spec (getb 0 needed i) 0) as [E|E].
    - exists true, r. split_and!; [exists (device_features_sel r); by destruct r| |done]. by rewrite E, Z.land_0_r.
    - kmodify. kgets. eexists _, _. split_and!; [by exists i|apply Z.eqb_eq|]. unfold device_features. simpl.
      by destruct (_ =? _). }
  destruct Hsel as [a ->]. destruct b.
  - krun Hrun. destruct (IH (i + 1) (with_dfsel r a) needed) as [[Hm (r' & Hr & [a' ->])]|[(j & Hj & Hm) (r' & Hr & [a' ->])]].
    + left. split; [|eexists; split; [exact Hr|by exists a']]. intros j Hj. destruct (decide (j = i)) as [->|]; [by apply Hb|].
      apply Hm. lia.
    + right. split; [|eexists; split; [exact Hr|by exists a']]. exists j. split; [lia|exact Hm].
  - rewrite (bind_fail _ _ _ _ _ Hrun). right. split; [|by exists (with_dfsel r a); split; [|exists a]].
    exists i. split; [lia|]. intros ?%Hb. done.
Qed.

Lemma enable_wanted_ok n : ∀ i r wanted enabled,
  0 ≤ i → i + Z.of_nat n ≤ Z.of_nat (length enabled) → length (driver_features r) = length enabled →
  ∃ r' enabled' fs, enable_wanted n i wanted enabled r = (Ret enabled', r') ∧ feat_only r r' fs ∧
    length enabled' = length enabled ∧ length fs = length enabled ∧
    ∀ j, 0 ≤ j →
      getb 0 enabled' j = (if decide (i ≤ j < i + Z.of_nat n) then agreed r wanted enabled j else getb 0 enabled j) ∧
      getb 0 fs j = if decide (i ≤ j < i + Z.of_nat n) then agreed r wanted (driver_features r) j else getb 0 (driver_features r) j.
Proof.
  induction n as [|n IH]; intros i r wanted enabled Hi Hn Hl; cbn [enable_wanted].
  { exists r, enabled, (driver_features r). split_and!; try done.
    - exists (device_features_sel r), (driver_features_sel r). by destruct r.
    - intros j Hj. rewrite !decide_False by lia. done. }
  unfold agreed. destruct (Z.eqb_spec (getb 0 wanted i) 0) as [E|E].
  - kret. destruct (IH (i + 1) r wanted enabled ltac:(lia) ltac:(lia) Hl) as (r' & en' & fs & Hr & Hf & H1 & H2 & Hj).
    exists r', en', fs. split_and!; try done. intros j H0. specialize (Hj j H0). unfold agreed in Hj.
    destruct (decide (j = i)) as [->|]; [rewrite !decide_False in Hj by lia; rewrite !decide_True, E by lia; exact Hj|].
    destruct (decide (i + 1 ≤ j < _)); [rewrite !decide_True by lia|rewrite !decide_False by lia]; exact Hj.
  - rewrite bind_bind. kmodify. rewrite bind_bind. kmodify. rewrite bind_bind. kgets. rewrite bind_bind. kmodify. kret.
    unfold device_features. cbn [with_drsel with_dfsel offered device_features_sel].
    set (v := Z.land _ _). set (r1 := write_driver_features _ v).
    destruct (IH (i + 1) r1 wanted (setb i v enabled)) as (r' & en' & fs & Hr & (a & b & ->) & H1 & H2 & Hj);
      [lia|rewrite length_setb; lia|unfold r1; simpl; by rewrite !length_setb|]. rewrite length_setb in H1, H2.
    eexists _, en', fs. split_and!; [exact Hr|by exists a, b|done|done|]. intros j H0. specialize (Hj j H0). unfold agreed in Hj.
    change (offered r1) with (offered r) in Hj. change (driver_features r1) with (setb i v (driver_features r)) in Hj.
    destruct (decide (j = i)) as [->|Hne].
    + rewrite !decide_False in Hj by lia. rewrite !getb_setb_same in Hj by lia.
      rewrite !decide_True by lia. rewrite (proj2 (Z.eqb_neq _ _) E). exact Hj.
    + rewrite !getb_setb_ne in Hj by lia.
      destruct (decide (i + 1 ≤ j < _)); [rewrite !decide_True by lia|rewrite !decide_False by lia]; exact Hj.
Qed.

Lemma getb_ext (l l' : list Z) : length l = length l' → (∀ j, 0 ≤ j → getb 0 l j = getb 0 l' j) → l = l'.
Proof.
  intros Hl Hj. apply list_eq. intros i. specialize (Hj (Z.of_nat i) ltac:(lia)). unfold getb in Hj. rewrite Nat2Z.id in Hj.
  destruct (l !! i) eqn:E, (l' !! i) eqn:E'; simpl in *; try congruence;
    [apply lookup_lt_Some in E; apply lookup_ge_None in E'; lia|apply lookup_lt_Some in E'; apply lookup_ge_None in E; lia].
Qed.

(** [agreed] for all words. *)
Definition agreement r wanted (old : list Z) : list Z := agreed r wanted old <$> seqZ 0 VIRTIO_FEATLEN.

Lemma agreement_ext r wanted old l :
  length l = 4%nat → (∀ j, 0 ≤ j → getb 0 l j = if decide (0 ≤ j < 4) then agreed r wanted old j else getb 0 old j) →
  l = agreement r wanted old.
Proof.
  intros Hl Hj. apply list_eq. intros i. unfold agreement. destruct (decide (i < 4)%nat) as [Hi|Hi].
  - specialize (Hj (Z.of_nat i) ltac:(lia)). rewrite decide_True in Hj by lia. unfold getb in Hj at 1. rewrite Nat2Z.id in Hj.
    destruct (lookup_lt_is_Some_2 l i ltac:(lia)) as [x Hx]. rewrite Hx in *. simpl in Hj. subst x.
    rewrite list_lookup_fmap, lookup_seqZ_lt by (unfold VIRTIO_FEATLEN; lia). done.
  - rewrite !lookup_ge_None_2; [done|rewrite length_fmap, length_seqZ; unfold VIRTIO_FEATLEN; lia|lia].
Qed.

Lemma write_features_ok r :
  let r' := write_status r (Z.lor (status r) VIRTIO_STAT_FEATURES_OK) in
  (Z.land (status r') VIRTIO_STAT_FEATURES_OK =? 0) = negb (accepts r (driver_features r)) ∧
  (accepts r (driver_features r) = true → r' = with_status r (Z.lor (status r) VIRTIO_STAT_FEATURES_OK)).
Proof.
  intros r'. unfold r', write_status.
  assert (Z.land (Z.lor (status r) 8) 8 = 8) as E8.
  { apply Z.bits_inj'. intros n Hn. rewrite Z.land_spec, Z.lor_spec. by destruct (Z.testbit (status r) n), (Z.testbit 8 n). }
  rewrite (proj2 (Z.eqb_neq (Z.lor _ _) 0)).
  2:{ intros E. change VIRTIO_STAT_FEATURES_OK with 8 in E. rewrite E in E8. done. }
  destruct (accepts r (driver_features r)); cbn [with_status status negb]; [|split; [|done]].
  - change VIRTIO_STAT_FEATURES_OK with 8. by rewrite E8.
  - rewrite <- Z.land_assoc. change (Z.land (255 - VIRTIO_STAT_FEATURES_OK) VIRTIO_STAT_FEATURES_OK) with 0. by rewrite Z.land_0_r.
Qed.

(** The registers that negotiation does not write. *)
Definition config r :=
  (magic_value r, version r, device_id r, offered r, accepts r, queue_sel r, queues r, queue_notify r, interrupt_status r,
   capacity r, blk_size r).

(** Feature negotiation: it returns -ENOTSUP exactly when a needed word is
    not offered in full, without telling the device anything; otherwise the
    device is told the wanted features that it offers, the caller's array holds
    them in the words it asked for, FEATURES_OK is set, and the assertion fails
    exactly when the device refuses them.  No other register changes. *)
Lemma negotiate_features_correct r enabled wanted needed :
  length enabled = 4%nat → length (driver_features r) = 4%nat →
  let '(res, r') := virtio_negotiate_features enabled wanted needed r in
  let fs := agreement r wanted (driver_features r) in
  config r' = config r ∧
  if decide (Forall (met r needed) (seqZ 0 VIRTIO_FEATLEN)) then
    driver_features r' = fs ∧
    if accepts r fs then res = Ret (agreement r wanted enabled) ∧ status r' = Z.lor (status r) VIRTIO_STAT_FEATURES_OK
    else res = Panic
  else res = Fail (- ENOTSUP) ∧ driver_features r' = driver_features r ∧ status r' = status r.
Proof.
  intros Hle Hld. unfold virtio_negotiate_features. change (Z.to_nat VIRTIO_FEATLEN) with 4%nat.
  destruct (check_needed_ok 4 0 r needed) as [[Hm (r1 & Hrun & [a ->])]|[(j & Hj & Hm) (r1 & Hrun & [a ->])]].
  2:{ rewrite (bind_fail _ _ _ _ _ Hrun). cbv beta iota zeta. rewrite decide_False; [done|]. rewrite Forall_forall. intros Hall. apply Hm, Hall.
      apply elem_of_seqZ. unfold VIRTIO_FEATLEN. lia. }
  assert (Forall (met r needed) (seqZ 0 VIRTIO_FEATLEN)) as Hall.
  { apply Forall_forall. intros j Hj%elem_of_seqZ. apply Hm. unfold VIRTIO_FEATLEN in Hj. lia. }
  krun Hrun.
  destruct (enable_wanted_ok 4 0 (with_dfsel r a) wanted enabled ltac:(lia) ltac:(lia) ltac:(simpl; lia))
    as (r2 & en & fs & Hrun2 & (a2 & b2 & ->) & Hl1 & Hl2 & Hj).
  krun Hrun2. kmodify. kgets.
  assert (fs = agreement r wanted (driver_features r)) as ->.
  { apply agreement_ext; [lia|]. intros j H0. apply Hj in H0 as [_ ->]. done. }
  assert (en = agreement r wanted enabled) as ->.
  { apply agreement_ext; [lia|]. intros j H0. apply Hj in H0 as [-> _]. done. }
  set (r3 := with_drfeat _ _). destruct (write_features_ok r3) as [-> Hacc].
  change (accepts r3 (driver_features r3)) with (accepts r (agreement r wanted (driver_features r))) in *.
  set (fs := agreement r wanted (driver_features r)) in *.
  assert (driver_features (write_status r3 (Z.lor (status r3) VIRTIO_STAT_FEATURES_OK)) = fs) as Hd.
  { unfold write_status. rewrite (proj2 (Z.eqb_neq (Z.lor _ _) 0)); [by destruct (accepts r3 _)|].
    intros [_ ?]%Z.lor_eq_0_iff. done. }
  assert (config (write_status r3 (Z.lor (status r3) VIRTIO_STAT_FEATURES_OK)) = config r) as Hcf.
  { unfold write_status. rewrite (proj2 (Z.eqb_neq (Z.lor _ _) 0)); [by destruct (accepts r3 _)|].
    intros [_ ?]%Z.lor_eq_0_iff. done. }
  cbv beta zeta. destruct (accepts r fs); cbn [negb]; cbv beta iota delta [mret M_ret panic]; rewrite decide_True by done; [|done].
  split_and!; try done. by rewrite Hacc.
Qed.

(** ** What the drivers use to attach *)

Lemma status_set r b : (∀ fs, accepts r fs = true) → 0 < b → write_status r (Z.lor (status r) b) = with_status r (Z.lor (status r) b).
Proof.
  intros Ha Hb. unfold write_status. rewrite Ha, (proj2 (Z.eqb_neq _ _)); [done|]. intros [_ ?]%Z.lor_eq_0_iff. lia.
Qed.
Lemma negotiate_accepted r junk wanted :
  (∀ fs, accepts r fs = true) → length junk = 4%nat → length (driver_features r) = 4%nat →
  ∃ r', virtio_negotiate_features junk wanted virtio_featset_init r = (Ret (agreement r wanted junk), r') ∧
    config r' = config r ∧ status r' = Z.lor (status r) VIRTIO_STAT_FEATURES_OK.
Proof.
  intros Ha Hj Hl. pose proof (negotiate_features_correct r junk wanted virtio_featset_init Hj Hl) as Hn.
  destruct (virtio_negotiate_features _ _ _ r) as [res r']. cbv zeta in Hn. rewrite Ha in Hn.
  rewrite decide_True in Hn by (repeat constructor; unfold met; apply Z.land_0_r).
  destruct Hn as (Hc & _ & -> & Hs). by exists r'.
Qed.

Lemma attach_virtq_run r len da ua aa :
  ∃ r' x, virtio_attach_virtq 0 len da ua aa r = (Ret tt, r') ∧ queues r' !! 0 = Some (VqRegs len x.1 x.2 da aa ua) ∧
    accepts r' = accepts r ∧ status r' = status r.
Proof.
  unfold virtio_attach_virtq. do 4 kmodify. eexists _, (_, _). split; [reflexivity|]. split_and!; try done.
  cbn. by rewrite !lookup_insert_eq.
Qed.

Lemma enable_virtq_run r len da ua aa y z :
  queues r !! 0 = Some (VqRegs len y z da aa ua) →
  ∃ r', virtio_enable_virtq 0 r = (Ret tt, r') ∧ queues r' !! 0 = Some (VqRegs len 1 z da aa ua) ∧
    accepts r' = accepts r ∧ status r' = status r.
Proof.
  intros Hq. unfold virtio_enable_virtq. kmodify. eexists. split; [reflexivity|]. split_and!; try done.
  cbn. by rewrite lookup_insert_eq, Hq.
Qed.


(** A block device that offers its block size and 40 more features. *)
Definition demo_regs : mmio :=
  Mmio VIRTIO_MAGIC 2 VIRTIO_ID_BLOCK [64 + 1; 1; 0; 0] (λ _, true) 0 [0; 0; 0; 0] 0 0 ∅ [] 0 3 8 512.

Lemma negotiate_features_correct_witness :
  (virtio_negotiate_features [7; 8; 9; 9] (virtio_featset_add virtio_featset_init 6) virtio_featset_init demo_regs).1
  = Ret [64; 8; 9; 9].
Proof.
  pose proof (negotiate_features_correct demo_regs [7; 8; 9; 9] (virtio_featset_add virtio_featset_init 6) virtio_featset_init
    eq_refl eq_refl) as H.
  destruct (virtio_negotiate_features _ _ _ _) as [res r'].
  cbv zeta in H. rewrite decide_True in H by repeat constructor. destruct H as (_ & _ & H & _). exact H.
Defined.

End Virtio.
