(* ===== verification/Vioblk.v ===== *)
(** * VirtIO block device driver: the model (kernel/dev/vioblk.c)

    The memory that driver and device share is the record [dmem]: the virtqueue,
    the request header, the status byte and the buffers of callers.  An address
    in a descriptor names one of these objects.  The device is the interface
    [VirtioBlk]: a function [serve] that handles the next available request, of a
    device without faults.

    A call that has to wait for the lock or for the device gives up the
    processor; [calls] records what the threads that are inside the driver run
    when they are scheduled again (on the machine, their saved contexts). *)

From S2P Require Import Prelude Config Threads Intr Strings Device Virtio.
Import Threads.

Module Vioblk.
Import Virtio.

Definition VIOBLK_INTR_PRIO : Z := 1.
(** "vioblk" *)
Definition VIOBLK_NAME : Str.cstr := [118; 105; 111; 98; 108; 107].
Definition VIRTIO_BLK_F_BLK_SIZE : Z := 6.
Definition VIRTIO_BLK_T_IN : Z := 0.
Definition VIRTIO_BLK_T_OUT : Z := 1.
Definition VIRTIO_BLK_S_OK : Z := 0.

(** ** Memory shared with the device *)

(** What a descriptor's address points to. *)
Inductive paddr := PNull | PHdr | PStatus | PBuf (b : nat).
#[global] Instance paddr_eq_dec : EqDecision paddr.
Proof. solve_decision. Defined.

Record virtq_desc := VirtqDesc { addr : paddr; dlen : Z; dflags : Z; dnext : Z }.
Record virtio_blk_req_hdr := ReqHdr { htype : Z; hreserved : Z; sector : Z }.

Record dmem := DMem {
  desc : list virtq_desc; avail_idx : Z; avail_ring : list Z; used_idx : Z; used_ring : list (Z * Z);
  hdr : virtio_blk_req_hdr; stat : Z; bufs : gmap nat (list Z) }.

Definition with_desc (m : dmem) x := DMem x (avail_idx m) (avail_ring m) (used_idx m) (used_ring m) (hdr m) (stat m) (bufs m).
Definition with_avail (m : dmem) i x := DMem (desc m) i x (used_idx m) (used_ring m) (hdr m) (stat m) (bufs m).
Definition with_hdr (m : dmem) x := DMem (desc m) (avail_idx m) (avail_ring m) (used_idx m) (used_ring m) x (stat m) (bufs m).
Definition with_stat (m : dmem) x := DMem (desc m) (avail_idx m) (avail_ring m) (used_idx m) (used_ring m) (hdr m) x (bufs m).
Definition with_bufs (m : dmem) x := DMem (desc m) (avail_idx m) (avail_ring m) (used_idx m) (used_ring m) (hdr m) (stat m) x.

(** ** Requests *)

(** The arguments of [vioblk_io]; [rbuf] names the caller's buffer. *)
Record req := Req { rtype : Z; rpos : Z; rbuf : nat; rlen : Z }.
Implicit Types (r : req) (m : dmem).

(** The descriptor chain and the header that stand for a request. *)
Definition chain r : list virtq_desc :=
  [VirtqDesc PHdr 16 VIRTQ_DESC_F_NEXT 1;
   VirtqDesc (PBuf (rbuf r)) (u32 (rlen r))
             (Z.lor VIRTQ_DESC_F_NEXT (if rtype r =? VIRTIO_BLK_T_IN then VIRTQ_DESC_F_WRITE else 0)) 2;
   VirtqDesc PStatus 1 VIRTQ_DESC_F_WRITE 0].
Definition header r : virtio_blk_req_hdr := ReqHdr (rtype r) 0 (rpos r / 512).

(** A request that [vioblk_io] accepts, of one of the two kinds it is called
    with, whose length fits the 32 bits of a descriptor. *)
Definition valid r : Prop :=
  (rtype r = VIRTIO_BLK_T_IN ∨ rtype r = VIRTIO_BLK_T_OUT) ∧ 0 ≤ rpos r < 2 ^ 64 ∧ rpos r mod 512 = 0 ∧
  0 < rlen r < 2 ^ 32 ∧ rlen r mod 512 = 0.

(** ** The device *)

(** Request [r] is the one available request: the device has seen the
    entries of the available ring before index [seen]. *)
Definition pending m (seen : Z) r : Prop :=
  avail_idx m = u16 (seen + 1) ∧ avail_ring m !! Z.to_nat (seen mod 3) = Some 0 ∧ desc m = chain r ∧ hdr m = header r ∧
  valid r ∧ ∃ x, bufs m !! rbuf r = Some x ∧ Z.of_nat (length x) = rlen r.

(** What the device wrote apart from the used ring, the status and the
    buffer: nothing. *)
Definition driver_part m := (desc m, avail_idx m, avail_ring m, hdr m).

(** The effect of a request on the disk's bytes and the buffers, with the
    result of the call. *)
Definition performs r (bytes : list Z) (bs : gmap nat (list Z)) (bytes' : list Z) (bs' : gmap nat (list Z)) (n : Z) : Prop :=
  ∃ x, bs !! rbuf r = Some x ∧
  if decide (rpos r + rlen r ≤ Z.of_nat (length bytes)) then
    n = rlen r ∧
    if decide (rtype r = VIRTIO_BLK_T_IN) then bytes' = bytes ∧ bs' = <[rbuf r := slice (rpos r) (rlen r) bytes]> bs
    else bytes' = splice (rpos r) x bytes ∧ bs' = bs
  else
    n = - EIO ∧ bytes' = bytes ∧ ∃ y, length y = length x ∧ (rtype r ≠ VIRTIO_BLK_T_IN → y = x) ∧ bs' = <[rbuf r := y]> bs.

(** The interface of a block device that works: it serves the queue of three
    entries the driver sets up, although the VirtIO specification asks for a
    power of two, and it carries out every request that lies within the disk,
    although the specification allows it to report an error for any.  A request
    beyond the end of the disk gets an error status; what it leaves in a buffer
    for a read is not specified. *)
Class VirtioBlk (D : Type) := {
  serve : dmem → D → dmem * D;
  vb_ok : D → Prop;
  vb_seen : D → Z;
  vb_bytes : D → list Z;
  vb_seen_range d : vb_ok d → 0 ≤ vb_seen d < 2 ^ 16;
  vb_idle m d : vb_ok d → avail_idx m = vb_seen d → serve m d = (m, d);
  vb_serve m d r :
    vb_ok d → pending m (vb_seen d) r →
    let '(m', d') := serve m d in
    vb_ok d' ∧ vb_seen d' = avail_idx m ∧ driver_part m' = driver_part m ∧
    used_idx m' = u16 (used_idx m + 1) ∧
    performs r (vb_bytes d) (bufs m) (vb_bytes d') (bufs m')
             (if stat m' =? VIRTIO_BLK_S_OK then rlen r else - EIO)
}.

(** ** The driver's state *)

Record vioblk_device := VioblkDevice {
  irqno : Z; instno : Z; blksz : Z; capacity_blocks : Z; refcnt : Z; io_lock : nat; last_used_idx : Z }.

(** A thread inside [vioblk_io]: it waits for the lock, or for the device. *)
Inductive call := CLock (r : req) | CPoll (r : req).

Record vsys (D : Type) := VSys {
  kern : ks; intr : Intr.isys; devtab : list (option Device.dev_entry);
  regs : mmio; dev : vioblk_device; mem : dmem; disk : D; calls : gmap nat call }.
Arguments VSys {D}.
Arguments kern {D}.
Arguments intr {D}.
Arguments devtab {D}.
Arguments regs {D}.
Arguments dev {D}.
Arguments mem {D}.
Arguments disk {D}.
Arguments calls {D}.

Section driver.
Context {D : Type} `{VirtioBlk D}.
Implicit Types (s : vsys D).

Definition with_kern s k := VSys k (intr s) (devtab s) (regs s) (dev s) (mem s) (disk s) (calls s).
Definition with_regs s x := VSys (kern s) (intr s) (devtab s) x (dev s) (mem s) (disk s) (calls s).
Definition with_dev s x := VSys (kern s) (intr s) (devtab s) (regs s) x (mem s) (disk s) (calls s).
Definition with_mem s x := VSys (kern s) (intr s) (devtab s) (regs s) (dev s) x (disk s) (calls s).
Definition with_disk s (x : D) := VSys (kern s) (intr s) (devtab s) (regs s) (dev s) (mem s) x (calls s).
Definition with_calls s x := VSys (kern s) (intr s) (devtab s) (regs s) (dev s) (mem s) (disk s) x.

Definition on_kern {A} (c : M ks A) : M (vsys D) A := λ s, let (x, k) := c (kern s) in (x, with_kern s k).
Definition on_regs {A} (c : M mmio A) : M (vsys D) A := λ s, let (x, k) := c (regs s) in (x, with_regs s k).
Definition on_intr {A} (c : M Intr.isys A) : M (vsys D) A := λ s,
  let (x, i) := c (intr s) in (x, VSys (kern s) i (devtab s) (regs s) (dev s) (mem s) (disk s) (calls s)).
Definition on_devtab {A} (c : M (list (option Device.dev_entry)) A) : M (vsys D) A := λ s,
  let (x, t) := c (devtab s) in (x, VSys (kern s) (intr s) t (regs s) (dev s) (mem s) (disk s) (calls s)).
Definition upd_mem (f : dmem → dmem) : M (vsys D) unit := modify (λ s, with_mem s (f (mem s))).
Definition upd_dev (f : vioblk_device → vioblk_device) : M (vsys D) unit := modify (λ s, with_dev s (f (dev s))).
Definition set_last (x : Z) (d : vioblk_device) :=
  VioblkDevice (irqno d) (instno d) (blksz d) (capacity_blocks d) (refcnt d) (io_lock d) x.
Definition set_ref (x : Z) (d : vioblk_device) :=
  VioblkDevice (irqno d) (instno d) (blksz d) (capacity_blocks d) x (io_lock d) (last_used_idx d).
Definition set_instno (x : Z) (d : vioblk_device) :=
  VioblkDevice (irqno d) x (blksz d) (capacity_blocks d) (refcnt d) (io_lock d) (last_used_idx d).

(** ** Attaching *)

Definition isr_id : nat := 2.
Definition open_id : nat := 2.

(** The memory of a new device structure: [kcalloc] clears it. *)
Definition zero_desc : virtq_desc := VirtqDesc PNull 0 0 0.
Definition fresh_mem m : dmem :=
  DMem (replicate 3 zero_desc) 0 (replicate 3 0) 0 (replicate 3 (0, 0)) (ReqHdr 0 0 0) 0 (bufs m).

(** [kcalloc] says whether the allocation succeeds, [p] is the address of the
    structure, [da], [ua] and [aa] those of its rings, and [l] and [c] stand for
    its lock.  The array [enabled_features] is not initialized: [junk]. *)
Definition vioblk_attach (kcalloc : bool) (p da ua aa : Z) (l c : nat) (junk : list Z) (irq : Z) : M (vsys D) unit :=
  on_regs (modify (λ x : mmio, write_status x (Z.lor (status x) VIRTIO_STAT_DRIVER)));;
  en ← attempt (on_regs (virtio_negotiate_features junk
                           (virtio_featset_add virtio_featset_init VIRTIO_BLK_F_BLK_SIZE) virtio_featset_init));
  match en with
  | None => mret tt
  | Some enabled =>
      if negb kcalloc then mret tt
      else
        r ← gets regs;
        let bs := if negb (virtio_featset_test enabled VIRTIO_BLK_F_BLK_SIZE =? 0) then blk_size r else 512 in
        if negb (Z.land (u32 (bs - 1)) bs =? 0) then panic
        else
          upd_dev (λ _, VioblkDevice irq 0 bs (capacity r) 0 l 0);;
          upd_mem fresh_mem;;
          on_kern (lock_init l c);;
          on_regs (virtio_attach_virtq 0 3 da ua aa);;
          on_regs (virtio_enable_virtq 0);;
          on_intr (Intr.enable_intr_source irq VIOBLK_INTR_PRIO isr_id p);;
          on_regs (modify (λ x : mmio, write_status x (Z.lor (status x) VIRTIO_STAT_DRIVER_OK)));;
          n ← on_devtab (Device.register_device (Some VIOBLK_NAME) (Some open_id) p);
          upd_dev (set_instno n)
  end.

(** ** Operations *)

Definition vioblk_open : M (vsys D) Z :=
  d ← gets dev;
  if negb (refcnt d =? 0) then mret (- EBUSY) else upd_dev (λ d, set_ref (refcnt d + 1) d);; mret 0.

Definition vioblk_close : M (vsys D) unit := d ← gets dev; if refcnt d =? 0 then mret tt else panic.

(** A pass through the driver ends with a result or gives up the processor. *)
Inductive vres := VDone (n : Z) | VLock | VPoll.

(** From the header to the notification. *)
Definition vioblk_submit r : M (vsys D) unit :=
  upd_mem (λ m, with_hdr m (ReqHdr (rtype r) 0 (rpos r / 512)));;
  upd_mem (λ m, with_stat m 0xFF);;
  upd_mem (λ m, with_desc m (setb 0 (VirtqDesc PHdr 16 VIRTQ_DESC_F_NEXT 1) (desc m)));;
  upd_mem (λ m, with_desc m (setb 1 (VirtqDesc (PBuf (rbuf r)) (u32 (rlen r))
    (Z.lor VIRTQ_DESC_F_NEXT (if rtype r =? VIRTIO_BLK_T_IN then VIRTQ_DESC_F_WRITE else 0)) 2) (desc m)));;
  upd_mem (λ m, with_desc m (setb 2 (VirtqDesc PStatus 1 VIRTQ_DESC_F_WRITE 0) (desc m)));;
  aidx ← gets (λ s, avail_idx (mem s));
  upd_mem (λ m, with_avail m (avail_idx m) (setb (aidx mod 3) 0 (avail_ring m)));;
  upd_mem (λ m, with_avail m (u16 (aidx + 1)) (avail_ring m));;
  on_regs (virtio_notify_avail 0).

(** The wait loop, entered or continued, and what follows it. *)
Definition vioblk_poll r : M (vsys D) vres :=
  s ← gets (λ s, s);
  if used_idx (mem s) =? last_used_idx (dev s) then on_kern thread_yield;; mret VPoll
  else
    upd_dev (set_last (used_idx (mem s)));;
    st ← gets (λ s, stat (mem s));
    on_kern (lock_release (io_lock (dev s)));;
    mret (VDone (if st =? VIRTIO_BLK_S_OK then rlen r else - EIO)).

(** After [lock_acquire] returned or put the caller to sleep. *)
Definition vioblk_locked r (got : bool) : M (vsys D) vres :=
  if got then vioblk_submit r;; vioblk_poll r else mret VLock.

Definition vioblk_io r : M (vsys D) vres :=
  if (negb (rpos r mod 512 =? 0) || (rlen r <=? 0) || negb (Z.rem (rlen r) 512 =? 0))%bool then mret (VDone (- EINVAL))
  else
    d ← gets dev;
    got ← on_kern (lock_acquire (io_lock d));
    vioblk_locked r got.

(** A caller that waited for the lock tries again. *)
Definition vioblk_retry r : M (vsys D) vres :=
  d ← gets dev; got ← on_kern (lock_acquire_loop (io_lock d)); vioblk_locked r got.

Definition vioblk_readat (pos : Z) (b : nat) (bufsz : Z) : M (vsys D) vres := vioblk_io (Req VIRTIO_BLK_T_IN pos b bufsz).
Definition vioblk_writeat (pos : Z) (b : nat) (len : Z) : M (vsys D) vres := vioblk_io (Req VIRTIO_BLK_T_OUT pos b len).

(** The value of [*arg] is [None] for a NULL pointer. *)
Definition vioblk_cntl (cmd : Z) (arg : option Z) : M (vsys D) (Z * option Z) :=
  d ← gets dev;
  mret (if cmd =? IOCTL_GETBLKSZ then (s32 (blksz d), arg)
        else if cmd =? IOCTL_GETEND then
          match arg with None => (- EINVAL, None) | Some _ => (0, Some (u64 (capacity_blocks d * 512))) end
        else (- ENOTSUP, arg)).

Definition vioblk_isr : M (vsys D) unit :=
  r ← gets regs;
  on_regs (modify (λ x : mmio, write_interrupt_ack x (interrupt_status r))).
End driver.
End Vioblk.
