(* ===== verification/VioblkProofs.v ===== *)
(** * VirtIO block device driver: requests take effect one at a time

    [vinv s ph] relates the virtqueue, the lock and the device in the three
    phases of the driver: no request, a request the device has not yet handled,
    a request it has handled and whose caller has not yet returned.  From it
    follow that concurrent calls are linearizable, and that the driver
    implements the block device interface that the cache is built on. *)

From S2P Require Import Prelude Config Io Cache Threads ThreadProofs LockProofs SchedProofs Intr Strings Device Virtio Vioblk.
Import Threads ThreadProofs LockProofs SchedProofs.

Module VioblkProofs.
Import Virtio Vioblk.

Section driver.
Context {D : Type} `{VirtioBlk D}.
Implicit Types (s : vsys D) (r : req) (t : nat).

(** ** Phases *)

Inductive phase := Idle | Pending (t : nat) (r : req) | Served (t : nat) (r : req) (n : Z).
Definition ph_owner (ph : phase) : option nat :=
  match ph with Idle => None | Pending t _ | Served t _ _ => Some t end.

Record vinv s (ph : phase) : Prop := {
  vi_sys : sys (kern s);
  vi_lock : ∃ x, locks (kern s) !! io_lock (dev s) = Some x ∧ owner x = ph_owner ph ∧ (ph ≠ Idle → count x = 1);
  vi_ok : vb_ok (disk s);
  vi_desc : length (desc (mem s)) = 3%nat;
  vi_ring : length (avail_ring (mem s)) = 3%nat;
  vi_last : 0 ≤ last_used_idx (dev s) < 2 ^ 16;
  vi_used : used_idx (mem s) =
    match ph with Served _ _ _ => u16 (last_used_idx (dev s) + 1) | _ => last_used_idx (dev s) end;
  vi_avail : match ph with
             | Pending _ r => pending (mem s) (vb_seen (disk s)) r
             | _ => avail_idx (mem s) = vb_seen (disk s)
             end;
  vi_stat : match ph with Served _ r n => n = (if stat (mem s) =? VIRTIO_BLK_S_OK then rlen r else - EIO) | _ => True end
}.

(** The caller's buffer has the length it says. *)
Definition has_buf s r : Prop := ∃ x, bufs (mem s) !! rbuf r = Some x ∧ Z.of_nat (length x) = rlen r.

Lemma vio_kern_run {A} (c : M ks A) s a k : c (kern s) = (Ret a, k) → on_kern c s = (Ret a, with_kern s k).
Proof. intros E. unfold on_kern. by rewrite E. Qed.

(** Only the thread manager changed, and no lock. *)
Lemma vinv_kern s ph k : vinv s ph → sys k → locks k = locks (kern s) → vinv (with_kern s k) ph.
Proof. intros [] Hk Hl. split; try done. simpl. by rewrite Hl. Qed.

Lemma u16_succ_ne x : 0 ≤ x < 2 ^ 16 → u16 (x + 1) ≠ x.
Proof. unfold u16. intros Hx E. destruct (decide (x = 2 ^ 16 - 1)) as [->|]; [done|]. rewrite Z.mod_small in E; lia. Qed.

(** ** Submitting *)

Lemma submit_run s r :
  length (desc (mem s)) = 3%nat →
  let m := mem s in
  let m' := DMem (chain r) (u16 (avail_idx m + 1)) (setb (avail_idx m mod 3) 0 (avail_ring m)) (used_idx m) (used_ring m)
                 (header r) 0xFF (bufs m) in
  vioblk_submit r s = (Ret tt, with_mem (with_regs s (with_notify (regs s) (queue_notify (regs s) ++ [0]))) m').
Proof.
  intros Hd. unfold vioblk_submit, upd_mem, virtio_notify_avail. do 5 kmodify. kgets. do 2 kmodify. unfold on_regs. simpl.
  destruct (desc (mem s)) as [|d0 [|d1 [|d2 [|]]]]; [done..| |done]. done.
Qed.

(** Waiting while the device has not answered. *)
Lemma poll_waits s t r :
  vinv s (Pending t r) →
  ∃ k, thread_yield (kern s) = (Ret tt, k) ∧ (∀ r', vioblk_poll r' s = (Ret VPoll, with_kern s k)) ∧
       vinv (with_kern s k) (Pending t r).
Proof.
  intros Hv. destruct (yield_ok _ (vi_sys _ _ Hv)) as (k & Hrun & Hsys & Hl). exists k. split_and!; [done| |by apply vinv_kern].
  intros r'. unfold vioblk_poll. kgets. rewrite (vi_used _ _ Hv), Z.eqb_refl. by krun (vio_kern_run _ s _ _ Hrun).
Qed.

(** The fields that a pass through the driver leaves alone. *)
Definition same_io s s' : Prop :=
  bufs (mem s') = bufs (mem s) ∧ disk s' = disk s ∧ calls s' = calls s ∧ io_lock (dev s') = io_lock (dev s).

(** The caller that got the lock submits its request and waits. *)
Lemma locked_submits s k r :
  vinv s Idle → valid r → has_buf s r → entered k (io_lock (dev s)) →
  ∃ s', vioblk_locked r true (with_kern s k) = (Ret VPoll, s') ∧ vinv s' (Pending (TP k) r) ∧ same_io s s' ∧
    thread_yield k = (Ret tt, kern s').
Proof.
  intros Hv Hr Hb [Hk (x & Hx & Ho & Hc)]. pose proof Hv as [_ _ Hok Hd Hring Hlast Hused Hav _].
  unfold vioblk_locked. krun (submit_run (with_kern s k) r Hd). set (s1 := with_mem _ _).
  assert (vinv s1 (Pending (TP k) r)) as Hv1.
  { split; try done.
    - by exists x.
    - simpl. by rewrite length_setb.
    - pose proof (vb_seen_range _ Hok). simpl. unfold pending. simpl. rewrite Hav. split_and!; try done.
      unfold setb. apply list_lookup_insert_eq. pose proof (Z.mod_pos_bound (vb_seen (disk s)) 3). lia. }
  destruct (poll_waits s1 _ _ Hv1) as (k' & Hy & Hp & Hv2). rewrite Hp. eexists. by split_and!.
Qed.

(** ** The device *)

Lemma performs_length r bytes bs bytes' bs' n x :
  performs r bytes bs bytes' bs' n → bs !! rbuf r = Some x → Z.of_nat (length x) = rlen r → 0 ≤ rpos r → 0 ≤ rlen r →
  (∀ b, length <$> bs' !! b = length <$> bs !! b) ∧ length bytes' = length bytes.
Proof.
  intros (x' & Hx' & Hp) Hx Hl Hpos Hlen. assert (x' = x) as -> by congruence.
  assert (∀ y, length y = length x → ∀ b, length <$> <[rbuf r := y]> bs !! b = length <$> bs !! b) as Hins.
  { intros y Hy b. destruct (decide (b = rbuf r)) as [->|]; [rewrite lookup_insert_eq, Hx; simpl; by rewrite Hy|].
    by rewrite lookup_insert_ne by auto. }
  case_decide as Hin; [|destruct Hp as (_ & -> & y & Hy & _ & ->); split; [by apply Hins|done]]. destruct Hp as [_ Hp].
  case_decide; destruct Hp as [-> ->]; (split; [|try done]).
  - apply Hins. rewrite length_slice. lia.
  - done.
  - apply length_splice. lia.
Qed.

Definition with_served s : vsys D := let '(m, d) := serve (mem s) (disk s) in with_disk (with_mem s m) d.

Lemma serve_idle s ph : vinv s ph → (∀ t r, ph ≠ Pending t r) → with_served s = s.
Proof.
  intros Hv Hph. unfold with_served. rewrite vb_idle; [by destruct s|apply Hv|].
  pose proof (vi_avail _ _ Hv) as Ha. destruct ph; [done|by destruct (Hph t r)|done].
Qed.

Lemma serve_pending s t r :
  vinv s (Pending t r) →
  ∃ n, vinv (with_served s) (Served t r n) ∧
    performs r (vb_bytes (disk s)) (bufs (mem s)) (vb_bytes (disk (with_served s))) (bufs (mem (with_served s))) n ∧
    kern (with_served s) = kern s ∧ calls (with_served s) = calls s ∧ dev (with_served s) = dev s.
Proof.
  intros Hv. pose proof Hv as [Hsys Hlock Hok Hd Hring Hlast Hused Hav _].
  pose proof (vb_serve (mem s) (disk s) r Hok Hav) as Hs. unfold with_served. destruct (serve _ _) as [m d].
  destruct Hs as (Hok' & Hseen & Hdp & Hu & Hperf). unfold driver_part in Hdp.
  injection Hdp as Ed Ea Er Eh. eexists. split_and!; try exact Hperf; try done. split; try done; simpl.
  - destruct Hlock as (x & ? & ? & Hc). exists x. split_and!; try done. intros _. by apply Hc.
  - by rewrite Ed.
  - by rewrite Er.
  - by rewrite Hu, Hused.
  - by rewrite Ea, Hseen.
Qed.

(** ** Completion *)

Lemma poll_done s r n :
  vinv s (Served (TP (kern s)) r n) →
  ∃ s', vioblk_poll r s = (Ret (VDone n), s') ∧ vinv s' Idle ∧ same_io s s' ∧ TP (kern s') = TP (kern s).
Proof.
  intros Hv. pose proof Hv as [Hsys (x & Hx & Ho & Hc) Hok Hd Hring Hlast Hused Hav Hst].
  unfold vioblk_poll. kgets. rewrite (proj2 (Z.eqb_neq _ _)) by (rewrite Hused; by apply u16_succ_ne).
  unfold upd_dev. kmodify. kgets.
  set (s1 := with_dev s _). destruct (leave_ok (kern s) (io_lock (dev s))) as (k & Hrel & [Hsk (y & Hy & Hyo)] & Htp).
  { split; [done|]. exists x. split_and!; try done. by apply Hc. }
  krun (vio_kern_run _ s1 _ _ Hrel). eexists. split_and!; [simpl; by rewrite <- Hst| |done|done].
  split; try done; simpl.
  - by exists y.
  - rewrite Hused. by apply Z.mod_pos_bound.
Qed.

(** ** The lock *)

Lemma acquire_is_loop k l x : locks k !! l = Some x → owner x ≠ Some (TP k) → lock_acquire l k = lock_acquire_loop l k.
Proof.
  intros Hx Ho. unfold lock_acquire. kgets. krun (get_lock_run k l x Hx). by rewrite decide_False by done.
Qed.

(** Both ways to ask for the lock, by a thread that does not own it. *)
Lemma lock_idle s :
  vinv s Idle → ∃ k, lock_acquire (io_lock (dev s)) (kern s) = (Ret true, k) ∧
    lock_acquire_loop (io_lock (dev s)) (kern s) = (Ret true, k) ∧ entered k (io_lock (dev s)) ∧ TP k = TP (kern s).
Proof.
  intros Hv. destruct (vi_lock _ _ Hv) as (x & Hx & Ho & _).
  destruct (enter_ok (kern s) (io_lock (dev s))) as (k & Hrun & He & Htp); [split; [apply Hv|by exists x]|].
  exists k. split_and!; try done. by rewrite <- (acquire_is_loop _ _ x) by (done || by rewrite Ho).
Qed.

Lemma lock_busy s ph t :
  vinv s ph → ph_owner ph = Some t → t ≠ TP (kern s) → TP (kern s) ≠ idle_thread →
  ∃ k, lock_acquire (io_lock (dev s)) (kern s) = (Ret false, k) ∧
    lock_acquire_loop (io_lock (dev s)) (kern s) = (Ret false, k) ∧ vinv (with_kern s k) ph.
Proof.
  intros Hv Hph Ht Hni. destruct (vi_lock _ _ Hv) as (x & Hx & Ho & _). pose proof (vi_sys _ _ Hv) as (q & h & Hinv & Hh & _).
  rewrite Hph in Ho. destruct (lock_acquire_blocks _ q h _ x t Hinv Hh Hni Hx Ho Ht) as (k & y & l & Hrun & _ & _ & Hi & Hids).
  exists k. split_and!; [done|by rewrite <- (acquire_is_loop _ _ x) by (done || congruence)|].
  apply vinv_kern; [done|by eapply sys_ids; [apply Hv| |]|by rewrite (si_locks _ _ Hids)].
Qed.

Lemma valid_guard r :
  valid r → (negb (rpos r mod 512 =? 0) || (rlen r <=? 0) || negb (Z.rem (rlen r) 512 =? 0))%bool = false.
Proof.
  intros (_ & _ & Hp & Hl & Hm). rewrite Hp, Z.rem_mod_nonneg, Hm, (proj2 (Z.leb_gt _ 0)) by lia. done.
Qed.

Lemma io_enters s r :
  vinv s Idle → valid r → has_buf s r →
  ∃ s', (vioblk_io r s = (Ret VPoll, s') ∧ vioblk_retry r s = (Ret VPoll, s')) ∧ vinv s' (Pending (TP (kern s)) r) ∧ same_io s s' ∧
    ∃ k, sys k ∧ TP k = TP (kern s) ∧ thread_yield k = (Ret tt, kern s').
Proof.
  intros Hv Hr Hb. destruct (lock_idle s Hv) as (k & H1 & H2 & He & Htp).
  destruct (locked_submits s k r Hv Hr Hb He) as (s' & Hrun & Hv' & Hsame & Hy). exists s'. rewrite <- Htp. split_and!; try done.
  3:{ exists k. split_and!; try done. apply He. }
  - unfold vioblk_io. rewrite valid_guard by done. kgets. by krun (vio_kern_run _ s _ _ H1).
  - unfold vioblk_retry. kgets. by krun (vio_kern_run _ s _ _ H2).
Qed.

Lemma io_waits s ph t r :
  vinv s ph → ph_owner ph = Some t → t ≠ TP (kern s) → TP (kern s) ≠ idle_thread → valid r →
  ∃ k, (vioblk_io r s = (Ret VLock, with_kern s k) ∧ vioblk_retry r s = (Ret VLock, with_kern s k)) ∧ vinv (with_kern s k) ph.
Proof.
  intros Hv Hph Ht Hni Hr. destruct (lock_busy s ph t Hv Hph Ht Hni) as (k & H1 & H2 & Hv'). exists k. split_and!; try done.
  - unfold vioblk_io. rewrite valid_guard by done. kgets. by krun (vio_kern_run _ s _ _ H1).
  - unfold vioblk_retry. kgets. by krun (vio_kern_run _ s _ _ H2).
Qed.

(** ** All schedules *)

Inductive label := LCall (t : nat) (r : req) | LRet (t : nat) (n : Z).

Definition ret_label t (v : vres) : list label := match v with VDone n => [LRet t n] | _ => [] end.
(** What thread [t] runs when it is scheduled again. *)
Definition note t r (v : vres) s : vsys D :=
  with_calls s (match v with
                | VDone _ => delete t (calls s)
                | VLock => <[t := CLock r]> (calls s)
                | VPoll => <[t := CPoll r]> (calls s)
                end).

Definition call_req (c : call) : req := match c with CLock r | CPoll r => r end.
Definition resume (c : call) : M (vsys D) vres :=
  match c with CLock r => vioblk_retry r | CPoll r => vioblk_poll r end.

(** Arguments that [vioblk_io] refuses. *)
Definition refused r : Prop :=
  (negb (rpos r mod 512 =? 0) || (rlen r <=? 0) || negb (Z.rem (rlen r) 512 =? 0))%bool = true.

(** A step: the running thread calls the driver, or continues inside it; the
    device handles a request; the service routine runs; or the running thread is
    outside the driver and gives up the processor or wakes others. *)
Inductive vstep : vsys D → list label → vsys D → Prop :=
  | v_call s r v s1 : TP (kern s) ≠ idle_thread → calls s !! TP (kern s) = None → (valid r ∧ has_buf s r ∨ refused r) →
      vioblk_io r s = (Ret v, s1) →
      vstep s (LCall (TP (kern s)) r :: ret_label (TP (kern s)) v) (note (TP (kern s)) r v s1)
  | v_resume s c v s1 : calls s !! TP (kern s) = Some c → resume c s = (Ret v, s1) →
      vstep s (ret_label (TP (kern s)) v) (note (TP (kern s)) (call_req c) v s1)
  | v_serve s : vstep s [] (with_served s)
  | v_isr s s' : vioblk_isr s = (Ret tt, s') → vstep s [] s'
  | v_other s o k : calls s !! TP (kern s) = None →
      match o with OYield | OWait _ | OBroadcast _ => True | _ => False end →
      enabled (kern s) o → exec o (kern s) = (Ret tt, k) → vstep s [] (with_kern s k).

(** The specification: a call takes effect at one moment between its start and
    its return, and returns the result of that moment. *)
Record aspec := ASpec { a_bytes : list Z; a_bufs : gmap nat (list Z); a_calls : gmap nat (req * option Z) }.

Inductive astep : aspec → list label → aspec → Prop :=
  | a_call a t r : a_calls a !! t = None →
      astep a [LCall t r] (ASpec (a_bytes a) (a_bufs a) (<[t := (r, None)]> (a_calls a)))
  | a_refuse a t r : a_calls a !! t = None → refused r → astep a [LCall t r; LRet t (- EINVAL)] a
  | a_perform a t r bytes bs n : a_calls a !! t = Some (r, None) → performs r (a_bytes a) (a_bufs a) bytes bs n →
      astep a [] (ASpec bytes bs (<[t := (r, Some n)]> (a_calls a)))
  | a_ret a t r n : a_calls a !! t = Some (r, Some n) →
      astep a [LRet t n] (ASpec (a_bytes a) (a_bufs a) (delete t (a_calls a))).

(** Sequences of steps with what they show. *)
Inductive runs {X : Type} (step : X → list label → X → Prop) : X → list label → X → Prop :=
  | runs_nil x : runs step x [] x
  | runs_snoc x y z tr l : runs step x tr y → step y l z → runs step x (tr ++ l) z.

(** ** The simulation *)

(** How the calls of thread [t] correspond. *)
Definition call_rel s (ph : phase) t (c : option call) (ac : option (req * option Z)) : Prop :=
  match c with
  | None => ac = None ∧ ph_owner ph ≠ Some t
  | Some (CLock r) => ac = Some (r, None) ∧ ph_owner ph ≠ Some t ∧ valid r ∧ has_buf s r
  | Some (CPoll r) => (ph = Pending t r ∧ ac = Some (r, None)) ∨ ∃ n, ph = Served t r n ∧ ac = Some (r, Some n)
  end.

Record sim s (ph : phase) (a : aspec) : Prop := {
  sm_inv : vinv s ph;
  sm_bytes : a_bytes a = vb_bytes (disk s);
  sm_bufs : a_bufs a = bufs (mem s);
  sm_idle : calls s !! idle_thread = None;
  sm_calls t : call_rel s ph t (calls s !! t) (a_calls a !! t)
}.

Lemma has_buf_length s s' r : (∀ b, length <$> bufs (mem s') !! b = length <$> bufs (mem s) !! b) → has_buf s r → has_buf s' r.
Proof.
  intros Hl (x & Hx & Hlen). specialize (Hl (rbuf r)). rewrite Hx in Hl. destruct (bufs (mem s') !! rbuf r) as [y|] eqn:Ey; [|done].
  injection Hl as Hl. exists y. split; [done|]. by rewrite Hl.
Qed.

(** Other threads' calls are not concerned by a change of phase that is
    another thread's. *)
Lemma call_rel_other s s' ph ph' t t0 c ac :
  call_rel s ph t c ac → t ≠ t0 → (ph_owner ph = None ∨ ph_owner ph = Some t0) → (ph_owner ph' = None ∨ ph_owner ph' = Some t0) →
  (∀ b, length <$> bufs (mem s') !! b = length <$> bufs (mem s) !! b) → call_rel s' ph' t c ac.
Proof.
  intros Hc Hne Hph Hph' Hb. assert (ph_owner ph' ≠ Some t) by (destruct Hph' as [->| ->]; congruence).
  destruct c as [[r|r]|]; simpl in *; [|destruct Hc as [[-> _]|(n & -> & _)]; destruct Hph; simpl in *; congruence|naive_solver].
  destruct Hc as (-> & _ & Hr & Hbuf). split_and!; try done. by eapply has_buf_length.
Qed.

(** A thread's own record changes; the others stay. *)
Lemma sim_note s ph a s1 ph' r v ac :
  sim s ph a → let t := TP (kern s) in
  t ≠ idle_thread → same_io s s1 → vinv s1 ph' →
  (ph_owner ph = None ∨ ph_owner ph = Some t) → (ph_owner ph' = None ∨ ph_owner ph' = Some t) →
  call_rel s1 ph' t (calls (note t r v s1) !! t) ac →
  sim (note t r v s1) ph' (ASpec (a_bytes a) (a_bufs a) (partial_alter (λ _, ac) t (a_calls a))).
Proof.
  intros [Hv Hby Hbu Hid Hca] t Hni (Eb & Ed & Ec & El) Hv1 Hph Hph' Hrel. split.
  - destruct Hv1. by split.
  - simpl. by rewrite Ed.
  - simpl. by rewrite Eb.
  - simpl. rewrite Ec. destruct v; [by rewrite lookup_delete_ne|by rewrite lookup_insert_ne..].
  - intros u. simpl a_calls. destruct (decide (u = t)) as [->|Hne].
    + rewrite lookup_partial_alter_eq. destruct (calls (note t r v s1) !! t) as [[]|]; try done.
    + rewrite lookup_partial_alter_ne by done.
      assert (calls (note t r v s1) !! u = calls s !! u) as ->.
      { simpl. rewrite Ec. destruct v; [by rewrite lookup_delete_ne by auto|by rewrite lookup_insert_ne by auto..]. }
      eapply (call_rel_other s _ ph); try done. intros b. simpl. by rewrite Eb.
Qed.

Lemma sim_kern s ph a k : sim s ph a → vinv (with_kern s k) ph → sim (with_kern s k) ph a.
Proof. intros [] Hv. by split. Qed.

(** A thread that waits for the lock while another one owns it. *)
Lemma sim_lock s ph a k r t0 :
  sim s ph a → let t := TP (kern s) in
  t ≠ idle_thread → vinv (with_kern s k) ph → ph_owner ph = Some t0 → t0 ≠ t → valid r → has_buf s r →
  sim (note t r VLock (with_kern s k)) ph (ASpec (a_bytes a) (a_bufs a) (<[t := (r, None)]> (a_calls a))).
Proof.
  intros [Hv Hby Hbu Hid Hca] t Hni Hv1 Ho Hne Hr Hb. split; try done.
  - destruct Hv1. by split.
  - simpl. by rewrite lookup_insert_ne.
  - intros u. simpl. destruct (decide (u = t)) as [->|Hu]; [rewrite !lookup_insert_eq; split_and!; try done; congruence|].
    rewrite !lookup_insert_ne by auto. specialize (Hca u). destruct (calls s !! u) as [[]|]; done.
Qed.

(** The owner of the lock is the thread whose request the phase is about. *)
Lemma sim_owner s ph a t : sim s ph a → ph_owner ph = Some t →
  ∃ r, calls s !! t = Some (CPoll r) ∧
    ((ph = Pending t r ∧ a_calls a !! t = Some (r, None)) ∨ ∃ n, ph = Served t r n ∧ a_calls a !! t = Some (r, Some n)).
Proof.
  intros Hs Ho. pose proof (sm_calls _ _ _ Hs t) as Hc. destruct (calls s !! t) as [[r|r]|] eqn:E; simpl in Hc.
  - by destruct Hc as (_ & ? & _).
  - by exists r.
  - by destruct Hc.
Qed.

Lemma aspec_same a t ac : a_calls a !! t = ac → ASpec (a_bytes a) (a_bufs a) (partial_alter (λ _, ac) t (a_calls a)) = a.
Proof.
  intros E. destruct a as [x y c]. simpl in *. f_equal. apply map_eq. intros u.
  destruct (decide (u = t)) as [->|]; [by rewrite lookup_partial_alter_eq|by rewrite lookup_partial_alter_ne].
Qed.

(** A call, new or woken, that asks for the lock. *)
Lemma sim_ask s ph a r (run : M (vsys D) vres) v s1 :
  sim s ph a → TP (kern s) ≠ idle_thread → ph_owner ph ≠ Some (TP (kern s)) → valid r → has_buf s r →
  (run = vioblk_io r ∨ run = vioblk_retry r) → run s = (Ret v, s1) →
  ∃ ph', (v = VPoll ∨ v = VLock) ∧
    sim (note (TP (kern s)) r v s1) ph' (ASpec (a_bytes a) (a_bufs a) (<[TP (kern s) := (r, None)]> (a_calls a))).
Proof.
  intros Hs Hni Ho Hr Hb Hrun E. pose proof (sm_inv _ _ _ Hs) as Hv. destruct (ph_owner ph) as [t0|] eqn:Eo.
  - destruct (io_waits s ph t0 r Hv Eo ltac:(congruence) Hni Hr) as (k & [H1 H2] & Hv').
    assert ((Ret v, s1) = (Ret VLock, with_kern s k)) as [= -> ->] by (rewrite <- E; by destruct Hrun as [->| ->]).
    exists ph. split; [by right|]. eapply sim_lock; try done. congruence.
  - assert (ph = Idle) as -> by (by destruct ph). destruct (io_enters s r Hv Hr Hb) as (s' & [H1 H2] & Hv' & Hsame & _).
    assert ((Ret v, s1) = (Ret VPoll, s')) as [= -> ->] by (rewrite <- E; by destruct Hrun as [->| ->]).
    eexists. split; [by left|]. apply (sim_note s Idle a s' _ r VPoll (Some (r, None)) Hs Hni Hsame Hv'); [by left|by right|].
    simpl. rewrite lookup_insert_eq. by left.
Qed.

Lemma resume_ok s ph a c :
  sim s ph a → calls s !! TP (kern s) = Some c →
  ∃ v s1 ph' a', resume c s = (Ret v, s1) ∧ sim (note (TP (kern s)) (call_req c) v s1) ph' a' ∧
    match v with
    | VDone n => ∃ r, a_calls a !! TP (kern s) = Some (r, Some n) ∧
                      a' = ASpec (a_bytes a) (a_bufs a) (delete (TP (kern s)) (a_calls a))
    | _ => a' = a ∧ ∃ r, a_calls a !! TP (kern s) = Some (r, None)
    end.
Proof.
  intros Hs Hc. assert (TP (kern s) ≠ idle_thread) as Hni by (intros E; rewrite E, (sm_idle _ _ _ Hs) in Hc; done).
  pose proof (sm_calls _ _ _ Hs (TP (kern s))) as Hrel. rewrite Hc in Hrel. destruct c as [r|r]; simpl in Hrel.
  - destruct Hrel as (Hac & Ho & Hr & Hb). assert (∃ v s1, vioblk_retry r s = (Ret v, s1)) as (v & s1 & Hrun).
    { destruct (ph_owner ph) as [t0|] eqn:Eo.
      - destruct (io_waits s ph t0 r (sm_inv _ _ _ Hs) Eo ltac:(congruence) Hni Hr) as (k & [_ ?] & _). eauto.
      - assert (ph = Idle) as -> by (by destruct ph).
        destruct (io_enters s r (sm_inv _ _ _ Hs) Hr Hb) as (s' & [_ ?] & _). eauto. }
    destruct (sim_ask s ph a r _ v s1 Hs Hni Ho Hr Hb (or_intror eq_refl) Hrun) as (ph' & Hvv & Hsim).
    exists v, s1, ph', a. split; [done|]. split; [by rewrite <- (aspec_same a (TP (kern s)) (Some (r, None)) Hac)|].
    destruct Hvv as [-> | ->]; (split; [done|by exists r]).
  - destruct Hrel as [[-> Hac]|(n & -> & Hac)].
    + destruct (poll_waits s _ _ (sm_inv _ _ _ Hs)) as (k & _ & Hp & Hv). exists VPoll, (with_kern s k), (Pending (TP (kern s)) r), a.
      split; [apply Hp|]. split; [|split; [done|by exists r]]. rewrite <- (aspec_same a (TP (kern s)) _ Hac).
      eapply (sim_note s _ a); try done; [by right|by right|]. simpl. rewrite lookup_insert_eq. by left.
    + destruct (poll_done s r n (sm_inv _ _ _ Hs)) as (s' & Hrun & Hv & Hsame & _). exists (VDone n), s', Idle. eexists.
      split; [done|]. split; [|exists r; split; [done|reflexivity]].
      eapply (sim_note s _ a _ _ r (VDone n) None); try done; [by right|by left|]. simpl. by rewrite lookup_delete_eq.
Qed.

Lemma vstep_sim s ph a l s' :
  sim s ph a → vstep s l s' → ∃ ph' a', sim s' ph' a' ∧ (l = [] ∧ a' = a ∨ astep a l a').
Proof.
  intros Hs Hstep. pose proof (sm_inv _ _ _ Hs) as Hv.
  destruct Hstep as [s r v s1 Hni Hc Hr Hrun|s c v s1 Hc Hrun|s|s s' Hrun|s o k Hc Ho Hen Hrun].
  - pose proof (sm_calls _ _ _ Hs (TP (kern s))) as Hrel. rewrite Hc in Hrel. destruct Hrel as [Hac Ho].
    destruct Hr as [[Hr Hb]|Hr].
    + destruct (sim_ask s ph a r _ v s1 Hs Hni Ho Hr Hb (or_introl eq_refl) Hrun) as (ph' & Hvv & Hsim).
      exists ph'. eexists. split; [exact Hsim|]. right. destruct Hvv as [-> | ->]; by apply a_call.
    + unfold vioblk_io in Hrun. unfold refused in Hr. rewrite Hr in Hrun. injection Hrun as <- <-. exists ph, a.
      split; [|right; by apply a_refuse]. unfold note. rewrite delete_id by done. by destruct s.
  - destruct (resume_ok s ph a c Hs Hc) as (v' & s1' & ph' & a' & Hrun' & Hsim & Hres).
    rewrite Hrun in Hrun'. injection Hrun' as <- <-. exists ph', a'. split; [done|].
    destruct v as [n| |]; simpl; [|left; by destruct Hres as [-> _]..].
    destruct Hres as (r & Hac & ->). right. by eapply a_ret.
  - destruct ph as [|t r|t r n]; [|destruct (sim_owner _ _ _ t Hs eq_refl) as (r' & Hcl & [[[= <-] Hac]|(n & [=] & _)])|];
      [rewrite (serve_idle s _ Hv) by done; by eauto 10| |rewrite (serve_idle s _ Hv) by done; by eauto 10].
    destruct (serve_pending s t r Hv) as (n & Hv' & Hp & Ek & Ec & Ed). exists (Served t r n). eexists.
    split; [|right; eapply (a_perform a t r); [done|]; rewrite (sm_bytes _ _ _ Hs), (sm_bufs _ _ _ Hs); exact Hp].
    pose proof (vi_avail _ _ Hv) as (_ & _ & _ & _ & Hr & x & Hx & Hl).
    destruct (performs_length _ _ _ _ _ _ x Hp Hx Hl) as [Hlen _]; [destruct Hr as (_ & ? & _); lia|lia|].
    destruct Hs as [_ Hby Hbu Hid Hca]. split; try done; [by rewrite Ec|]. intros u. rewrite Ec. simpl a_calls.
    destruct (decide (u = t)) as [->|Hne]; [rewrite Hcl, lookup_insert_eq; right; by exists n|].
    rewrite lookup_insert_ne by auto. eapply (call_rel_other s _ (Pending t r)); try done; by right.
  - unfold vioblk_isr, on_regs in Hrun. revert Hrun. kgets. intros [= <-]. exists ph, a. split; [|by left].
    destruct Hs as [Hv0 ? ? ? ?]. split; try done. destruct Hv0. by split.
  - exists ph, a. split; [|by left]. apply sim_kern; [done|]. destruct (exec_ok (kern s) o (vi_sys _ _ Hv) Hen) as (k' & Hrun' & Hsys).
    rewrite Hrun in Hrun'. injection Hrun' as <-. apply vinv_kern; [done|done|].
    pose proof (vi_sys _ _ Hv) as (q & h & Hinv & _). destruct o as [|c|c| | | | | | |]; try done; cbn [exec enabled] in *.
    + destruct (yield_ok _ (vi_sys _ _ Hv)) as (k' & Hrun' & _ & Hl). congruence.
    + destruct (condition_wait_ok (kern s) q c Hinv Hen) as (k' & x & l & Hrun' & _ & _ & _ & Hids).
      assert (k' = k) as -> by congruence. by rewrite (si_locks _ _ Hids).
    + destruct (broadcast_inv (kern s) q c Hinv) as (k' & q' & Hrun' & _ & _ & _ & _ & _ & Hids).
      assert (k' = k) as -> by congruence. by rewrite (si_locks _ _ Hids).
Qed.

Lemma runs_sim s0 a0 tr s :
  sim s0 Idle a0 → runs vstep s0 tr s → ∃ ph a, runs astep a0 tr a ∧ sim s ph a.
Proof.
  intros H0 Hr. induction Hr as [x|x y z tr l Hr IH Hst]; [exists Idle, a0; split; [apply runs_nil|done]|].
  destruct (IH H0) as (ph & a & Hra & Hs). destruct (vstep_sim _ _ _ _ _ Hs Hst) as (ph' & a' & Hs' & Hst').
  exists ph', a'. split; [|done]. destruct Hst' as [[-> ->]|Hst']; [by rewrite app_nil_r|by eapply runs_snoc].
Qed.

(** The state in which no thread is inside the driver. *)
Definition quiescent s : Prop := vinv s Idle ∧ calls s = ∅.

Lemma quiescent_sim s : quiescent s → sim s Idle (ASpec (vb_bytes (disk s)) (bufs (mem s)) ∅).
Proof. intros [Hv Hc]. split; try done; [by rewrite Hc|]. intros t. rewrite Hc. by split. Qed.

(** C10. Calls of the driver are linearizable: whatever calls threads make and
    however they, the device and the service routine are interleaved, the calls
    and returns seen are those of a disk on which each request takes effect at
    one moment between its call and its return, the disk and the callers'
    buffers hold what that disk holds, no call inside the driver gets stuck, and
    one that has taken effect returns its result as soon as its thread runs. *)
Theorem vioblk_linearizable s0 tr s :
  quiescent s0 → runs vstep s0 tr s →
  ∃ a, runs astep (ASpec (vb_bytes (disk s0)) (bufs (mem s0)) ∅) tr a ∧
    a_bytes a = vb_bytes (disk s) ∧ a_bufs a = bufs (mem s) ∧
    ∀ c, calls s !! TP (kern s) = Some c →
      ∃ r o v s', a_calls a !! TP (kern s) = Some (r, o) ∧ resume c s = (Ret v, s') ∧ ∀ n, v = VDone n ↔ o = Some n.
Proof.
  intros Hq Hr. destruct (runs_sim _ _ tr s (quiescent_sim s0 Hq) Hr) as (ph & a & Hra & Hs). exists a.
  split_and!; [done|apply Hs|apply Hs|]. intros c Hc. destruct (resume_ok s ph a c Hs Hc) as (v & s1 & ph' & a' & Hrun & _ & Hres).
  destruct v as [n| |]; [destruct Hres as (r & Hac & _)|destruct Hres as (_ & r & Hac)..];
    (eexists r, _, _, s1; split_and!; [exact Hac|exact Hrun|intros m; split; congruence]).
Qed.

(** ** One thread uses the driver, the others only yield *)

Definition no_fuel {St A : Type} : M St A := λ x, (NoFuel, x).

Fixpoint until_runs (fuel : nat) t : M ks unit :=
  match fuel with
  | O => no_fuel
  | S fuel => me ← gets TP; if decide (me = t) then mret tt else thread_yield;; until_runs fuel t
  end.

(** The call, the device's answer, the other threads' turns, and the rest of
    the call. *)
Definition vioblk_sync r : M (vsys D) Z :=
  t ← gets (λ s, TP (kern s));
  v ← vioblk_io r;
  match v with
  | VDone n => mret n
  | VLock => no_fuel
  | VPoll =>
      modify with_served;;
      n ← gets (λ s, base.size (thr (kern s)));
      on_kern (until_runs (S n) t);;
      v ← vioblk_poll r;
      match v with VDone n => mret n | _ => no_fuel end
  end.

Lemma until_runs_ok t n : ∀ fuel k q, sys k → inv k q → (TP k :: q Ready) !! n = Some t → (n < fuel)%nat →
  ∃ k', until_runs fuel t k = (Ret tt, k') ∧ sys k' ∧ locks k' = locks k ∧ TP k' = t.
Proof.
  induction n as [|n IH]; intros fuel k q Hsys Hinv Hn Hf.
  - injection Hn as Hn. exists k. split_and!; try done. destruct fuel; [lia|]. cbn [until_runs]. kgets. by rewrite decide_True.
  - destruct fuel as [|fuel]; [lia|]. cbn [until_runs]. kgets. case_decide as E; [by exists k|].
    destruct (thread_yield_ok k q Hinv) as (k1 & x & l & ty & Hrun & Hq & Htp & Hi & Hids & _). krun Hrun.
    destruct (IH fuel k1 (qset q Ready l)) as (k' & Hu & Hs' & Hl & Ht); [by eapply sys_ids|done| |lia|].
    + unfold qset. rewrite decide_True, Htp, <- Hq by done. simpl in Hn. by apply lookup_app_l_Some.
    + exists k'. split_and!; try done. by rewrite Hl, (si_locks _ _ Hids).
Qed.

(** A thread that yields comes back when the others have yielded. *)
Lemma yield_back k k1 : sys k → thread_yield k = (Ret tt, k1) →
  ∃ k2, until_runs (S (base.size (thr k1))) (TP k) k1 = (Ret tt, k2) ∧ sys k2 ∧ locks k2 = locks k1 ∧ TP k2 = TP k.
Proof.
  intros Hsys Hy. pose proof Hsys as (q & h & Hinv & _).
  destruct (thread_yield_ok k q Hinv) as (k' & x & l & ty & Hrun & Hq & Htp & Hi & Hids & _).
  assert (k' = k1) as -> by congruence.
  assert ((TP k1 :: qset q Ready l Ready) !! length (q Ready) = Some (TP k)) as Hat.
  { unfold qset. rewrite decide_True, Htp, <- Hq by done. by rewrite lookup_app_r, Nat.sub_diag. }
  eapply until_runs_ok; [by eapply sys_ids|exact Hi|exact Hat|].
  apply lookup_lt_Some in Hat. simpl in Hat. pose proof (queue_length k1 _ Ready (inv_lists _ _ Hi)). lia.
Qed.

Lemma sync_ok s r :
  vinv s Idle → valid r → has_buf s r →
  ∃ n s', vioblk_sync r s = (Ret n, s') ∧ vinv s' Idle ∧ calls s' = calls s ∧ TP (kern s') = TP (kern s) ∧
    performs r (vb_bytes (disk s)) (bufs (mem s)) (vb_bytes (disk s')) (bufs (mem s')) n.
Proof.
  intros Hv Hr Hb. destruct (io_enters s r Hv Hr Hb) as (s1 & [Hrun _] & Hv1 & (Eb & Ed & Ec & _) & k & Hk & Htp & Hy).
  unfold vioblk_sync. kgets. krun Hrun. cbv iota. kmodify. kgets.
  destruct (serve_pending s1 _ r Hv1) as (n & Hv2 & Hp & Ek & Ec2 & _). rewrite Eb, Ed in Hp.
  set (s2 := with_served s1) in *. rewrite <- Ek in Hy. destruct (yield_back k _ Hk Hy) as (k2 & Hu & Hs2 & Hl & Ht).
  rewrite <- Htp. krun (vio_kern_run _ s2 _ _ Hu).
  assert (vinv (with_kern s2 k2) (Served (TP (kern (with_kern s2 k2))) r n)) as Hv3.
  { simpl. rewrite Ht, Htp. by apply vinv_kern. }
  destruct (poll_done _ r n Hv3) as (s' & Hrun' & Hv' & (Eb' & Ed' & Ec' & _) & Htp'). krun Hrun'.
  exists n, s'. split_and!; try done.
  - rewrite Ec'. simpl. by rewrite Ec2.
  - rewrite Htp'. simpl. congruence.
  - rewrite Ed', Eb'. exact Hp.
Qed.

(** C39. A call returns: refused arguments give -EINVAL at once and change
    nothing; otherwise, when the device has answered and the other threads have
    yielded, at most once each, the call ends with the number of bytes and the
    request's effect on the disk or the caller's buffer, or with -EIO beyond the
    end of the disk, and the driver is free again. *)
Theorem vioblk_call_returns s r :
  vinv s Idle →
  (refused r → vioblk_io r s = (Ret (VDone (- EINVAL)), s)) ∧
  (valid r → has_buf s r →
   ∃ n s', vioblk_sync r s = (Ret n, s') ∧ vinv s' Idle ∧ calls s' = calls s ∧ TP (kern s') = TP (kern s) ∧
     performs r (vb_bytes (disk s)) (bufs (mem s)) (vb_bytes (disk s')) (bufs (mem s')) n).
Proof.
  intros Hv. split; [|by apply sync_ok]. unfold refused, vioblk_io. by intros ->.
Qed.

(** ** The driver as the block device of the cache *)

Definition scratch : nat := 0.
Definition give_buf s (x : list Z) : vsys D := with_mem s (with_bufs (mem s) (<[scratch := x]> (bufs (mem s)))).

Definition sync_readat s (pos bufsz : Z) : Z * list Z * vsys D :=
  let '(res, s') := vioblk_sync (Req VIRTIO_BLK_T_IN pos scratch bufsz) (give_buf s (replicate (Z.to_nat bufsz) 0)) in
  match res with
  | Ret n => (n, if n =? - EINVAL then [] else default [] (bufs (mem s') !! scratch), s')
  | _ => (- EIO, [], s')
  end.
Definition sync_writeat s (pos : Z) (buf : list Z) (len : Z) : Z * vsys D :=
  let '(res, s') := vioblk_sync (Req VIRTIO_BLK_T_OUT pos scratch len) (give_buf s (take (Z.to_nat len) buf)) in
  match res with Ret n => (n, s') | _ => (- EIO, s') end.
Definition sync_cntl s (cmd : Z) (arg : option Z) : Z * option Z * vsys D :=
  match vioblk_cntl cmd arg s with (Ret (n, a), s') => (n, a, s') | (_, s') => (- EIO, arg, s') end.

Definition vioblk_iointf : iointf (vsys D) :=
  IoIntf (Some (λ s, (vioblk_close s).2)) (Some sync_cntl) None None (Some sync_readat) (Some sync_writeat).

(** What is needed of a state: nobody else is in the driver, and addresses of
    bytes of the disk fit 64 bits. *)
Definition disk_ready s : Prop := vinv s Idle ∧ Z.of_nat (length (vb_bytes (disk s))) ≤ 2 ^ 64.

Lemma give_buf_inv s x : vinv s Idle → vinv (give_buf s x) Idle.
Proof. intros []. by split. Qed.
Lemma give_buf_has s x ty pos len : Z.of_nat (length x) = len → has_buf (give_buf s x) (Req ty pos scratch len).
Proof. intros Hl. exists x. split; [apply lookup_insert_eq|done]. Qed.

Lemma sync_read_ok s pos len :
  disk_ready s → valid (Req VIRTIO_BLK_T_IN pos scratch len) → pos + len ≤ Z.of_nat (length (vb_bytes (disk s))) →
  ∃ s', sync_readat s pos len = (len, slice pos len (vb_bytes (disk s)), s') ∧ disk_ready s' ∧
    vb_bytes (disk s') = vb_bytes (disk s).
Proof.
  intros [Hv Hmax] Hr Hin. unfold sync_readat. pose proof Hr as (_ & Hp & _ & Hl & _). simpl in Hp, Hl.
  set (s0 := give_buf _ _). destruct (sync_ok s0 _ (give_buf_inv s _ Hv) Hr) as (n & s' & Hrun & Hv' & _ & _ & Hpf).
  { apply give_buf_has. rewrite length_replicate. lia. }
  rewrite Hrun. destruct Hpf as (x & _ & Hpf). simpl in Hpf. rewrite decide_True in Hpf by done.
  destruct Hpf as (-> & Eb & Ebf). exists s'. rewrite (proj2 (Z.eqb_neq _ _)) by (unfold EINVAL; lia).
  rewrite Ebf, lookup_insert_eq. split_and!; try done. split; [done|]. by rewrite Eb.
Qed.

Lemma sync_write_ok s pos buf len :
  disk_ready s → valid (Req VIRTIO_BLK_T_OUT pos scratch len) → pos + len ≤ Z.of_nat (length (vb_bytes (disk s))) →
  len ≤ Z.of_nat (length buf) →
  ∃ s', sync_writeat s pos buf len = (len, s') ∧ disk_ready s' ∧
    vb_bytes (disk s') = splice pos (take (Z.to_nat len) buf) (vb_bytes (disk s)).
Proof.
  intros [Hv Hmax] Hr Hin Hlb. unfold sync_writeat. pose proof Hr as (_ & Hp & _ & Hl & _). simpl in Hp, Hl.
  set (s0 := give_buf _ _). assert (has_buf s0 (Req VIRTIO_BLK_T_OUT pos scratch len)) as Hb by (apply give_buf_has; klen).
  destruct (sync_ok s0 _ (give_buf_inv s _ Hv) Hr Hb) as (n & s' & Hrun & Hv' & _ & _ & Hpf). rewrite Hrun.
  destruct Hpf as (x & Hx & Hpf). simpl in Hx, Hpf. rewrite lookup_insert_eq in Hx. injection Hx as <-.
  rewrite decide_True in Hpf by done. destruct Hpf as (-> & Eb & _).
  exists s'. split_and!; try done. split; [done|]. rewrite Eb, length_splice; [done|]. klen.
Qed.

Lemma block_valid cap ty p :
  (ty = VIRTIO_BLK_T_IN ∨ ty = VIRTIO_BLK_T_OUT) → blk_in_range cap p → cap ≤ 2 ^ 64 → valid (Req ty p scratch CACHE_BLKSZ).
Proof. intros Hty (H0 & Hm & Hin) Hmax. unfold CACHE_BLKSZ in *. repeat split; simpl; try done; lia. Qed.

#[global] Program Instance vioblk_block_device : BlockDevice vioblk_iointf := {|
  bd_ok := disk_ready;
  bd_cap s := Z.of_nat (length (vb_bytes (disk s)));
  bd_blk s p := slice p CACHE_BLKSZ (vb_bytes (disk s))
|}.
Next Obligation. intros s p _ (H0 & Hm & Hin). unfold CACHE_BLKSZ in *. rewrite length_slice. lia. Qed.
Next Obligation.
  intros s p Hok Hr. pose proof Hr as (H0 & Hm & Hin). destruct (sync_read_ok s p CACHE_BLKSZ Hok) as (s' & Hrun & Hok' & E); [|done|].
  { eapply block_valid; [by left|done|apply Hok]. }
  eexists _, s'. rewrite E. by split_and!.
Qed.
Next Obligation.
  intros s p d Hok Hr Hd. pose proof Hr as (H0 & Hm & Hin).
  destruct (sync_write_ok s p d CACHE_BLKSZ Hok) as (s' & Hrun & Hok' & E); [|done|lia|].
  { eapply block_valid; [by right|done|apply Hok]. }
  rewrite take_ge in E by lia. eexists _, s'. rewrite E.
  assert (Z.to_nat p + length d ≤ length (vb_bytes (disk s)))%nat by (unfold CACHE_BLKSZ in *; lia).
  split_and!; try done; [by rewrite length_splice|]. intros q (Hq0 & Hqm & Hq). case_decide as Eq.
  - subst q. by apply slice_splice_same.
  - apply slice_splice_other; [done|]. destruct (blk_separated q p Hqm Hm Eq); unfold CACHE_BLKSZ in *; lia.
Qed.
End driver.
End VioblkProofs.
