(* ===== verification/VioblkDisk.v ===== *)
(** * VirtIO block device driver: attaching it, and the cache on top of it

    [vioblk_attach] brings registers, lock, interrupt source and device table
    into the state the driver starts from.  The block cache over the attached
    driver over the device is then an array of blocks.  [ramdisk] is a device
    that satisfies the interface. *)

From S2P Require Import Prelude Config Io Cache Threads ThreadProofs LockProofs SchedProofs Intr Strings Device Virtio Vioblk VioblkProofs.
Import Threads ThreadProofs LockProofs SchedProofs.

Module VioblkDisk.
Import Virtio Vioblk VioblkProofs.

(** ** A device in memory *)

Record ramdisk := RamDisk { content : list Z; seen : Z }.
Implicit Types (m : dmem) (d : ramdisk).

(** The chain of descriptors from index [i]. *)
Fixpoint walk (fuel : nat) m (i : Z) : list virtq_desc :=
  match fuel with
  | O => []
  | S fuel => let x := getb zero_desc (desc m) i in
              x :: if Z.land (dflags x) VIRTQ_DESC_F_NEXT =? 0 then [] else walk fuel m (dnext x)
  end.

Definition answer m d (head : Z) (st : Z) bs (c : list Z) : dmem * ramdisk :=
  (DMem (desc m) (avail_idx m) (avail_ring m) (u16 (used_idx m + 1)) (setb (used_idx m mod 3) (head, 1) (used_ring m))
        (hdr m) st bs,
   RamDisk c (u16 (seen d + 1))).

Definition ram_serve m d : dmem * ramdisk :=
  if avail_idx m =? seen d then (m, d)
  else
    let head := getb 0 (avail_ring m) (seen d mod 3) in
    match walk 3 m head with
    | [h; b; st] =>
        match addr h, addr b, addr st with
        | PHdr, PBuf i, PStatus =>
            let pos := sector (hdr m) * 512 in
            if Z.of_nat (length (content d)) <? pos + dlen b then answer m d head 1 (bufs m) (content d)
            else if htype (hdr m) =? VIRTIO_BLK_T_IN then
              if Z.land (dflags b) VIRTQ_DESC_F_WRITE =? 0 then answer m d head 1 (bufs m) (content d)
              else answer m d head 0 (<[i := slice pos (dlen b) (content d)]> (bufs m)) (content d)
            else if htype (hdr m) =? VIRTIO_BLK_T_OUT then
              answer m d head 0 (bufs m) (splice pos (take (Z.to_nat (dlen b)) (default [] (bufs m !! i))) (content d))
            else answer m d head 2 (bufs m) (content d)
        | _, _, _ => (m, d)
        end
    | _ => (m, d)
    end.

Lemma walk_chain m r : desc m = chain r → walk 3 m 0 = chain r.
Proof. intros Hd. unfold walk. rewrite Hd. unfold chain. by destruct (rtype r =? VIRTIO_BLK_T_IN). Qed.

Lemma ram_serve_ok m d r :
  0 ≤ seen d < 2 ^ 16 → pending m (seen d) r →
  let '(m', d') := ram_serve m d in
  0 ≤ seen d' < 2 ^ 16 ∧ seen d' = avail_idx m ∧ driver_part m' = driver_part m ∧
  used_idx m' = u16 (used_idx m + 1) ∧
  performs r (content d) (bufs m) (content d') (bufs m') (if stat m' =? VIRTIO_BLK_S_OK then rlen r else - EIO).
Proof.
  intros Hs (Ha & Hring & Hd & Hh & (Hty & Hpos & Hpm & Hlen & Hlm) & x & Hx & Hxl).
  unfold ram_serve. rewrite Ha, (proj2 (Z.eqb_neq _ _)) by (by apply u16_succ_ne).
  rewrite (getb_lookup 0 _ _ 0 Hring), (walk_chain m r Hd), Hh. cbn [chain addr dlen dflags header sector htype].
  assert (rpos r / 512 * 512 = rpos r) as -> by (pose proof (Z.div_mod (rpos r) 512); lia).
  assert (u32 (rlen r) = rlen r) as -> by (apply Z.mod_small; lia).
  assert (0 ≤ u16 (seen d + 1) < 2 ^ 16) as Hr by (by apply Z.mod_pos_bound).
  destruct (Z.ltb_spec (Z.of_nat (length (content d))) (rpos r + rlen r)) as [Hlt|Hge].
  { split; [exact Hr|]. split_and!; try done. exists x. split; [done|]. rewrite decide_False by lia. split_and!; try done.
    exists x. split_and!; try done. by rewrite insert_id. }
  destruct Hty as [E|E]; rewrite E.
  - change (VIRTIO_BLK_T_IN =? VIRTIO_BLK_T_IN) with true. cbv iota.
    change (Z.land (Z.lor VIRTQ_DESC_F_NEXT VIRTQ_DESC_F_WRITE) VIRTQ_DESC_F_WRITE =? 0) with false. cbv iota beta delta [answer].
    split; [exact Hr|]. split_and!; try done. exists x. split; [done|]. rewrite decide_True by lia. split; [done|]. by rewrite decide_True.
  - change (VIRTIO_BLK_T_OUT =? VIRTIO_BLK_T_IN) with false. change (VIRTIO_BLK_T_OUT =? VIRTIO_BLK_T_OUT) with true.
    cbv iota beta delta [answer]. split; [exact Hr|]. split_and!; try done. exists x. split; [done|]. rewrite decide_True by lia. split; [done|].
    rewrite decide_False by (by rewrite E). split; [|done]. cbn [content]. rewrite Hx. simpl. by rewrite take_ge by lia.
Qed.

#[global] Program Instance ramdisk_virtio : VirtioBlk ramdisk := {|
  serve := ram_serve;
  vb_ok d := 0 ≤ seen d < 2 ^ 16;
  vb_seen := seen;
  vb_bytes := content
|}.
Next Obligation. done. Qed.
Next Obligation. intros m d _ E. unfold ram_serve. by rewrite E, Z.eqb_refl. Qed.
Next Obligation. intros m d r Hok Hp. by apply ram_serve_ok. Qed.

(** ** Attaching *)

Section attach.
Context {D : Type} `{VirtioBlk D}.
Implicit Types (s : vsys D).

Lemma lock_init_free k l c :
  sys k → locks k !! l = None → unused k c →
  ∃ k', lock_init l c k = (Ret tt, k') ∧ sys k' ∧ locks k' !! l = Some (Lock c None 0 None) ∧ TP k' = TP k.
Proof.
  intros Hsys Hl Hu. destruct (lock_init_sys k l c Hsys Hl Hu) as (k' & Hrun & Hs). exists k'. split_and!; try done.
  all: unfold lock_init, condition_init, tlclear in Hrun; revert Hrun; unfold mbind, M_bind, put_tl, put_lock, modify; cbn;
    intros [= <-]; first [apply lookup_insert_eq | done].
Qed.

Definition wanted : list Z := virtio_featset_add virtio_featset_init VIRTIO_BLK_F_BLK_SIZE.

Lemma wanted_test r junk :
  (virtio_featset_test (agreement r wanted junk) VIRTIO_BLK_F_BLK_SIZE =? 0) = negb (Z.testbit (getb 0 (offered r) 0) 6).
Proof.
  unfold virtio_featset_test.
  change (getb 0 (agreement r wanted junk) (VIRTIO_BLK_F_BLK_SIZE / 32)) with (Z.land (getb 0 (offered r) 0) 64).
  change (VIRTIO_BLK_F_BLK_SIZE mod 32) with 6. set (w := getb 0 (offered r) 0).
  assert (Z.land (Z.shiftr (Z.land w 64) 6) 1 = Z.b2z (Z.testbit w 6)) as ->.
  { change 1 with (Z.ones 1) at 1. rewrite Z.land_ones, <- Z.bit0_mod, Z.shiftr_spec, Z.land_spec by lia. by rewrite andb_true_r. }
  by destruct (Z.testbit w 6).
Qed.

(** What [vioblk_attach] starts from: a device that was reset and accepts what
    it is asked for, a lock and a condition that are not in use, a registered
    interrupt manager, and a free slot in the device table. *)
Record attachable s (l c : nat) (junk : list Z) (irq : Z) (es : list Device.dev_entry) (n : nat) : Prop := {
  at_accepts fs : accepts (regs s) fs = true;
  at_feats : length (driver_features (regs s)) = 4%nat;
  at_junk : length junk = 4%nat;
  at_blksz : let bs := if Z.testbit (getb 0 (offered (regs s)) 0) 6 then blk_size (regs s) else 512 in Z.land (u32 (bs - 1)) bs = 0;
  at_sys : sys (kern s);
  at_lock : locks (kern s) !! l = None;
  at_cond : unused (kern s) c;
  at_intr : Intr.served (intr s);
  at_irq : 0 < irq < Intr.NIRQ;
  at_tab : devtab s = Device.table es (S n);
  at_names : Device.good_names es;
  at_disk : vb_ok (disk s);
  at_seen : vb_seen (disk s) = 0
}.

Definition attached s s' (p da ua aa : Z) (l : nat) (irq : Z) (es : list Device.dev_entry) (n : nat) : Prop :=
  status (regs s') = Z.lor (Z.lor (Z.lor (status (regs s)) VIRTIO_STAT_DRIVER) VIRTIO_STAT_FEATURES_OK) VIRTIO_STAT_DRIVER_OK ∧
  (∃ x, queues (regs s') !! 0 = Some (VqRegs 3 1 x da aa ua)) ∧
  Intr.handler_of (intr s') irq = Some (isr_id, p) ∧ Intr.prio_of (intr s') irq = VIOBLK_INTR_PRIO ∧
  devtab s' = Device.table (es ++ [Device.DevEntry VIOBLK_NAME (Some open_id) p]) n ∧
  dev s' = VioblkDevice irq (Z.of_nat (Device.named VIOBLK_NAME es))
    (if Z.testbit (getb 0 (offered (regs s)) 0) 6 then blk_size (regs s) else 512) (capacity (regs s)) 0 l 0.

Lemma on_regs_run {A} (f : M mmio A) s a x : f (regs s) = (Ret a, x) → on_regs f s = (Ret a, with_regs s x).
Proof. intros E. unfold on_regs. by rewrite E. Qed.

Lemma attach_run s l c junk irq es n p da ua aa :
  attachable s l c junk irq es n →
  ∃ s', vioblk_attach true p da ua aa l c junk irq s = (Ret tt, s') ∧ attached s s' p da ua aa l irq es n ∧ vinv s' Idle ∧
    calls s' = calls s ∧ disk s' = disk s ∧ bufs (mem s') = bufs (mem s) ∧ TP (kern s') = TP (kern s) ∧
    lock_init l c (kern s) = (Ret tt, kern s') ∧ Intr.served (intr s').
Proof.
  intros [Hacc Hdf Hj Hbs Hsys Hl Hc Hin Hirq Htab Hnm Hok Hseen]. unfold vioblk_attach.
  rewrite (bind_ret _ _ _ _ _ (on_regs_run (modify _) s tt _ eq_refl)). rewrite status_set by done.
  set (s1 := with_regs s _). destruct (negotiate_accepted (regs s1) junk wanted) as (r2 & Hneg & Hcfg & Hst2); [done|done|done|].
  fold wanted. krun (on_regs_run _ s1 _ _ Hneg). cbn [negb]. kgets. injection Hcfg as _ _ _ Eo Ea _ _ _ _ Ecap Ebs.
  rewrite wanted_test, negb_involutive. set (s2 := with_regs s1 r2).
  change (offered (regs s1)) with (offered (regs s)). change (regs s2) with r2. rewrite Ebs, Ecap.
  change (blk_size (regs s1)) with (blk_size (regs s)). change (capacity (regs s1)) with (capacity (regs s)).
  set (bs := if Z.testbit _ 6 then blk_size (regs s) else 512) in *. cbv zeta in Hbs |- *. rewrite Hbs. cbn [Z.eqb negb].
  unfold upd_dev, upd_mem. do 2 kmodify. set (s4 := with_mem _ _).
  destruct (lock_init_free (kern s) l c Hsys Hl Hc) as (k5 & Hrun5 & Hsys5 & Hl5 & Htp5). krun (vio_kern_run _ s4 _ _ Hrun5).
  set (s5 := with_kern s4 k5). destruct (attach_virtq_run r2 3 da ua aa) as (r6 & [y z] & Hrun6 & Hq6 & Ea6 & Es6).
  krun (on_regs_run _ s5 _ _ Hrun6). destruct (enable_virtq_run r6 3 da ua aa y z Hq6) as (r7 & Hrun7 & Hq7 & Ea7 & Es7).
  krun (on_regs_run _ (with_regs s5 r6) _ _ Hrun7). set (s7 := with_regs _ r7).
  assert (0 < VIOBLK_INTR_PRIO ≤ Intr.PLIC_PRIO_MAX) as Hprio by (by unfold VIOBLK_INTR_PRIO, Intr.PLIC_PRIO_MAX; lia).
  destruct (Intr.enable_ok (intr s) irq VIOBLK_INTR_PRIO isr_id p Hin Hirq Hprio) as (Hrun8 & _ & Hsv8).
  set (i8 := Intr.set_prio _ _ _) in Hrun8, Hsv8.
  assert (on_intr (Intr.enable_intr_source irq VIOBLK_INTR_PRIO isr_id p) s7 =
          (Ret tt, VSys (kern s7) i8 (devtab s7) (regs s7) (dev s7) (mem s7) (disk s7) (calls s7))) as Hrun8'.
  { unfold on_intr. change (intr s7) with (intr s). by rewrite Hrun8. }
  krun Hrun8'. set (s8 := VSys _ i8 _ _ _ _ _ _).
  rewrite (bind_ret _ _ _ _ _ (on_regs_run (modify _) s8 tt _ eq_refl)).
  change (regs s8) with r7. rewrite status_set by (try done; intros fs; by rewrite Ea7, Ea6, Ea).
  set (s9 := with_regs s8 _).
  assert (on_devtab (Device.register_device (Some VIOBLK_NAME) (Some open_id) p) s9 =
    (Ret (Z.of_nat (Device.named VIOBLK_NAME es)),
     VSys (kern s9) (intr s9) (Device.table (es ++ [Device.DevEntry VIOBLK_NAME (Some open_id) p]) n)
          (regs s9) (dev s9) (mem s9) (disk s9) (calls s9))) as Hrun9.
  { unfold on_devtab, Device.register_device. change (devtab s9) with (devtab s). rewrite Htab.
    by rewrite Device.register_loop_ok by first [done | by repeat constructor]. }
  krun Hrun9. eexists. split; [reflexivity|]. split; [|split; [|split_and!; [done..|exact Hsv8]]].
  - unfold attached. cbn [with_dev regs intr devtab dev s9 with_regs status with_status queues s8 i8].
    assert (Intr.in_src irq) as Hsrc by (unfold Intr.in_src, Intr.NIRQ in *; lia).
    assert (Intr.handler_of i8 irq = Some (isr_id, p)) as Hh.
    { unfold Intr.handler_of, i8. simpl. apply getb_setb_same; [lia|]. rewrite (Intr.sv_tab _ Hin). lia. }
    split_and!; try done.
    + rewrite Es7, Es6, Hst2. done.
    + by exists z.
    + unfold Intr.prio_of, i8. simpl. apply getb_setb_same; [lia|]. rewrite (Intr.sv_prio _ Hin).
      unfold Intr.NIRQ in Hirq. lia.
  - split; try done. by exists (Lock c None 0 None).
Qed.
(** Attaching: on a device that accepts what it is asked for,
    [vioblk_attach] ends with the driver's bits in the status register, DRIVER_OK
    last, queue 0 enabled with three entries at the addresses of the new
    structure, the block size and capacity the device reports, the interrupt
    source routed to the service routine, and the device registered under the
    next number, so that opening that number finds it; no request is under way.
    When the allocation fails nothing is registered. *)
Lemma vioblk_attach_correct s l c junk irq es n p da ua aa :
  attachable s l c junk irq es n →
  (∃ s', vioblk_attach true p da ua aa l c junk irq s = (Ret tt, s') ∧ attached s s' p da ua aa l irq es n ∧
     Device.find_device VIOBLK_NAME (instno (dev s')) 0 (devtab s') = Some (Device.DevEntry VIOBLK_NAME (Some open_id) p) ∧
     vinv s' Idle ∧ calls s' = calls s ∧ disk s' = disk s) ∧
  (∃ s', vioblk_attach false p da ua aa l c junk irq s = (Ret tt, s') ∧
     devtab s' = devtab s ∧ dev s' = dev s ∧ mem s' = mem s ∧ kern s' = kern s ∧ intr s' = intr s).
Proof.
  intros Hat. split.
  - destruct (attach_run s l c junk irq es n p da ua aa Hat) as (s' & Hrun & Hatt & Hv & Hc & Hd & _). exists s'.
    split_and!; try done. destruct Hatt as (_ & _ & _ & _ & Etab & Edev). rewrite Etab, Edev. cbn [instno].
    destruct (Device.register_finds VIOBLK_NAME (Some open_id) p es n ltac:(by repeat constructor) (at_names _ _ _ _ _ _ _ Hat)) as [Hf _].
    exact Hf.
  - destruct Hat as [Hacc Hdf Hj _ _ _ _ _ _ _ _ _ _]. unfold vioblk_attach.
    rewrite (bind_ret _ _ _ _ _ (on_regs_run (modify _) s tt _ eq_refl)). rewrite status_set by done.
    set (s1 := with_regs s _). destruct (negotiate_accepted (regs s1) junk wanted) as (r2 & Hneg & _); [done|done|done|].
    fold wanted. krun (on_regs_run _ s1 _ _ Hneg). by eexists.
Qed.

(** C9. From the hardware up: after [vioblk_attach], the block cache over the
    driver over a device of the class [VirtioBlk] is a plain array of blocks for
    every sequence of reads, writes and flushes, and after a final flush the
    bytes of the disk are that array; the driver's waits all end, since the
    other threads give the processor back.  The class asks for more than the
    VirtIO specification does: the device accepts the queue of three entries
    that the driver sets up, and it carries out every request within the disk,
    where the specification lets it report an error. *)
Theorem disk_stack_is_block_store s l c junk irq es n p da ua aa (ops : list Cache.cop) :
  attachable s l c junk irq es n → let size := Z.of_nat (length (vb_bytes (disk s))) in
  size ≤ 2 ^ 64 → Forall (Cache.cop_ok size) ops →
  ∃ s1 c', vioblk_attach true p da ua aa l c junk irq s = (Ret tt, s1) ∧
    let c0 := Cache.Cache (ioinit1 s1 vioblk_iointf) (replicate Cache.CACHE_NENT Cache.zero_entry) in
    let blocks := λ q, slice q CACHE_BLKSZ (vb_bytes (disk s)) in
    (Cache.run_cops c0 ops).1 = (Cache.spec_cops blocks ops).1 ∧
    Cache.flush (Cache.run_cops c0 ops).2 = (0, c') ∧
    ∀ q, blk_in_range size q → slice q CACHE_BLKSZ (vb_bytes (disk (Cache.dev c'))) = (Cache.spec_cops blocks ops).2 q.
Proof.
  intros Hat size Hmax Hl. destruct (attach_run s l c junk irq es n p da ua aa Hat) as (s1 & Hrun & _ & Hv & _ & Hd & _).
  exists s1. set (o := ioinit1 s1 vioblk_iointf).
  assert (disk_ready s1) as Hr by (split; [done|by rewrite Hd]).
  assert (bd_blk (ops := vioblk_iointf) (ist o) = λ q, slice q CACHE_BLKSZ (vb_bytes (disk s))) as Eb.
  { change (bd_blk (ops := vioblk_iointf) (ist o)) with (λ q, slice q CACHE_BLKSZ (vb_bytes (disk s1))). by rewrite Hd. }
  assert (bd_cap (ops := vioblk_iointf) (ist o) = size) as Ec.
  { change (bd_cap (ops := vioblk_iointf) (ist o)) with (Z.of_nat (length (vb_bytes (disk s1)))). by rewrite Hd. }
  pose proof (Cache.fresh_agree (ops := vioblk_iointf) o eq_refl Hr) as Ha. rewrite Eb in Ha. set (c0 := Cache.Cache _ _) in *.
  change (bd_cap (ops := vioblk_iointf) (ist o)) with (bc_cap c0) in Ec. rewrite <- Ec in Hl.
  destruct (Cache.run_cops_refines _ _ ops Ha Hl) as (Hres & (Hok & _ & Hvw) & Hc).
  destruct (Cache.flush_ok _ Hok) as (c' & Hf & _ & _ & Hdev). exists c'. split; [done|]. cbv zeta. split; [exact Hres|]. split; [exact Hf|].
  intros q Hq. rewrite <- Ec, <- Hc in Hq. rewrite <- (Hvw q Hq). exact (Hdev q Hq).
Qed.
End attach.

(** ** A concrete machine *)

Definition demo_disk : ramdisk := RamDisk (replicate 1024 7) 0.
Definition demo_vioblk : vsys ramdisk :=
  VSys (initial 0 1) (Intr.intrmgr_init Intr.demo_isys).2 (Device.table Device.demo_devices 14) demo_regs
       (VioblkDevice 0 0 0 0 0 0 0) (fresh_mem (DMem [] 0 [] 0 [] (ReqHdr 0 0 0) 0 {[5%nat := replicate 512 1]})) demo_disk ∅.

Lemma demo_attachable : attachable demo_vioblk 3 9 [7; 8; 9; 9] 2 Device.demo_devices 13.
Proof.
  split; try done.
  - apply initial_sys.
  - apply unusedb_ok. by vm_compute.
  - destruct (Intr.intrmgr_init_served Intr.demo_isys eq_refl eq_refl) as (s' & E & Hs). cbn [intr demo_vioblk]. by rewrite E.
  - apply Device.demo_names.
Qed.

Lemma vioblk_attach_correct_witness :
  ∃ s', vioblk_attach true 77 1 2 3 3 9 [7; 8; 9; 9] 2 demo_vioblk = (Ret tt, s') ∧ vinv s' Idle.
Proof.
  destruct (vioblk_attach_correct demo_vioblk 3 9 [7; 8; 9; 9] 2 Device.demo_devices 13 77 1 2 3 demo_attachable)
    as [(s' & Hrun & _ & _ & Hv & _) _].
  exists s'. by split.
Defined.

Lemma disk_stack_is_block_store_witness :
  ∃ s1 c', vioblk_attach true 77 1 2 3 3 9 [7; 8; 9; 9] 2 demo_vioblk = (Ret tt, s1) ∧
    let c0 := Cache.Cache (ioinit1 s1 vioblk_iointf) (replicate Cache.CACHE_NENT Cache.zero_entry) in
    Cache.flush (Cache.run_cops c0 [Cache.CWrite 512 (replicate 512 1); Cache.CRead 0]).2 = (0, c').
Proof.
  destruct (disk_stack_is_block_store demo_vioblk 3 9 [7; 8; 9; 9] 2 Device.demo_devices 13 77 1 2 3
              [Cache.CWrite 512 (replicate 512 1); Cache.CRead 0] demo_attachable) as (s1 & c' & Hrun & _ & Hf & _).
  - simpl. lia.
  - repeat constructor; unfold CACHE_BLKSZ; simpl; lia.
  - by exists s1, c'.
Defined.


(** The machine after attaching, and a read of its second sector. *)
Definition demo_ready : vsys ramdisk := (vioblk_attach true 77 1 2 3 3 9 [7; 8; 9; 9] 2 demo_vioblk).2.
Definition demo_req : req := Req VIRTIO_BLK_T_IN 512 5 512.

Lemma demo_quiescent :
  quiescent demo_ready ∧ has_buf demo_ready demo_req ∧ TP (kern demo_ready) = main_thread ∧ disk demo_ready = demo_disk.
Proof.
  destruct (attach_run demo_vioblk 3 9 [7; 8; 9; 9] 2 Device.demo_devices 13 77 1 2 3 demo_attachable)
    as (s' & Hrun & _ & Hv & Hc & Hd & Hb & Ht & _). unfold demo_ready. rewrite Hrun. cbn [snd].
  split_and!; [by split|exists (replicate 512 1); by rewrite Hb|by rewrite Ht|by rewrite Hd].
Qed.

Lemma demo_valid : valid demo_req.
Proof. split; [by left|]. by repeat split. Qed.

Lemma vioblk_linearizable_witness :
  ∃ s a, runs vstep demo_ready [LCall main_thread demo_req] s ∧
    runs astep (ASpec (content (disk demo_ready)) (bufs (mem demo_ready)) ∅) [LCall main_thread demo_req] a ∧
    a_bytes a = content (disk s) ∧ a_bufs a = bufs (mem s).
Proof.
  destruct demo_quiescent as ([Hv Hc] & Hb & Ht & _).
  destruct (io_enters demo_ready demo_req Hv demo_valid Hb) as (s1 & [Hrun _] & _).
  assert (runs vstep demo_ready ([] ++ LCall main_thread demo_req :: ret_label main_thread VPoll)
            (note main_thread demo_req VPoll s1)) as Hr.
  { eapply runs_snoc; [apply runs_nil|]. rewrite <- Ht. apply v_call; [by rewrite Ht|by rewrite Hc|left|done].
    split; [exact demo_valid|done]. }
  destruct (vioblk_linearizable _ _ _ (conj Hv Hc) Hr) as (a & Ha & H1 & H2 & _). eexists _, a. by split_and!.
Defined.

Lemma vioblk_call_returns_witness :
  ∃ n s', vioblk_sync demo_req demo_ready = (Ret n, s') ∧ vinv s' Idle ∧
    performs demo_req (replicate 1024 7) (bufs (mem demo_ready)) (content (disk s')) (bufs (mem s')) n.
Proof.
  destruct demo_quiescent as ([Hv Hc] & Hb & Ht & Hd).
  destruct (proj2 (vioblk_call_returns demo_ready demo_req Hv) demo_valid Hb) as (n & s' & Hrun & Hv' & _ & _ & Hp).
  rewrite Hd in Hp. exists n, s'. by split_and!.
Defined.

End VioblkDisk.
