(* ===== verification/Viorng.v ===== *)
(** * VirtIO entropy device driver (kernel/dev/viorng.c)

    The memory shared with the device is the record [rmem]: one descriptor, the
    rings of length one, and the 256-byte buffer.  The device is the interface
    [EntropySource]: it answers the available request with at least one byte, as
    the VirtIO specification requires.

    [viorng_read] waits for the device by yielding; a pass through it ends with
    the bytes or with [RWait], and [viorng_resume] is what the thread runs when
    it is scheduled again. *)

From S2P Require Import Prelude Config Threads ThreadProofs LockProofs SchedProofs Intr Strings Device Virtio.
Import Threads SchedProofs.

Module Viorng.
Import Virtio.

Definition VIORNG_BUFSZ : Z := 256.
(** "rng" *)
Definition VIORNG_NAME : Str.cstr := [114; 110; 103].
Definition VIORNG_IRQ_PRIO : Z := 1.

(** ** Memory shared with the device *)

Inductive raddr := RNull | RBuf.
Record rng_desc := RngDesc { addr : raddr; dlen : Z; dflags : Z; dnext : Z }.

(** [used_len] is the length in the one entry of the used ring. *)
Record rmem := RMem { desc : rng_desc; avail_idx : Z; avail_ring : Z; used_idx : Z; used_len : Z; buf : list Z }.
Implicit Types (m : rmem).

(** The buffer is offered to a device that has seen [seen] requests. *)
Definition pending m (seen : Z) : Prop :=
  avail_idx m = u16 (seen + 1) ∧ avail_ring m = 0 ∧ desc m = RngDesc RBuf VIORNG_BUFSZ VIRTQ_DESC_F_WRITE 0 ∧
  Z.of_nat (length (buf m)) = VIORNG_BUFSZ.

Definition driver_part m := (desc m, avail_idx m, avail_ring m).

(** [es_log] is every block of bytes the device has delivered. *)
Class EntropySource (E : Type) := {
  give : rmem → E → rmem * E;
  es_ok : E → Prop;
  es_seen : E → Z;
  es_log : E → list (list Z);
  es_seen_range e : es_ok e → 0 ≤ es_seen e < 2 ^ 16;
  es_idle m e : es_ok e → avail_idx m = es_seen e → give m e = (m, e);
  es_give m e :
    es_ok e → pending m (es_seen e) →
    let '(m', e') := give m e in
    es_ok e' ∧ es_seen e' = avail_idx m ∧ driver_part m' = driver_part m ∧ used_idx m' = u16 (used_idx m + 1) ∧
    ∃ b, 0 < Z.of_nat (length b) ≤ VIORNG_BUFSZ ∧ es_log e' = es_log e ++ [b] ∧ used_len m' = Z.of_nat (length b) ∧
         buf m' = b ++ drop (length b) (buf m)
}.

(** ** The driver's state *)

Record viorng_device := ViorngDevice {
  irqno : Z; instno : Z; refcnt : Z; last_used_idx : Z; bufcnt : Z; rx_cond : nat }.

Record rsys (E : Type) := RSys {
  kern : ks; intr : Intr.isys; devtab : list (option Device.dev_entry);
  regs : mmio; dev : viorng_device; mem : rmem; ent : E }.
Arguments RSys {E}.
Arguments kern {E}.
Arguments intr {E}.
Arguments devtab {E}.
Arguments regs {E}.
Arguments dev {E}.
Arguments mem {E}.
Arguments ent {E}.

Section driver.
Context {E : Type} `{EntropySource E}.
Implicit Types (s : rsys E) (out : list Z).

Definition with_kern s k := RSys k (intr s) (devtab s) (regs s) (dev s) (mem s) (ent s).
Definition with_regs s x := RSys (kern s) (intr s) (devtab s) x (dev s) (mem s) (ent s).
Definition with_dev s x := RSys (kern s) (intr s) (devtab s) (regs s) x (mem s) (ent s).
Definition with_mem s x := RSys (kern s) (intr s) (devtab s) (regs s) (dev s) x (ent s).
Definition with_ent s (x : E) := RSys (kern s) (intr s) (devtab s) (regs s) (dev s) (mem s) x.

Definition on_kern {A} (c : M ks A) : M (rsys E) A := λ s, let (x, k) := c (kern s) in (x, with_kern s k).
Definition on_regs {A} (c : M mmio A) : M (rsys E) A := λ s, let (x, k) := c (regs s) in (x, with_regs s k).
Definition on_intr {A} (c : M Intr.isys A) : M (rsys E) A := λ s,
  let (x, i) := c (intr s) in (x, RSys (kern s) i (devtab s) (regs s) (dev s) (mem s) (ent s)).
Definition on_devtab {A} (c : M (list (option Device.dev_entry)) A) : M (rsys E) A := λ s,
  let (x, t) := c (devtab s) in (x, RSys (kern s) (intr s) t (regs s) (dev s) (mem s) (ent s)).
Definition upd_mem (f : rmem → rmem) : M (rsys E) unit := modify (λ s, with_mem s (f (mem s))).
Definition upd_dev (f : viorng_device → viorng_device) : M (rsys E) unit := modify (λ s, with_dev s (f (dev s))).
Definition set_desc (x : rng_desc) m := RMem x (avail_idx m) (avail_ring m) (used_idx m) (used_len m) (buf m).
Definition set_avail (i r : Z) m := RMem (desc m) i r (used_idx m) (used_len m) (buf m).
Definition set_last (x : Z) (d : viorng_device) := ViorngDevice (irqno d) (instno d) (refcnt d) x (bufcnt d) (rx_cond d).
Definition set_bufcnt (x : Z) (d : viorng_device) := ViorngDevice (irqno d) (instno d) (refcnt d) (last_used_idx d) x (rx_cond d).
Definition set_ref (x : Z) (d : viorng_device) := ViorngDevice (irqno d) (instno d) x (last_used_idx d) (bufcnt d) (rx_cond d).
Definition set_instno (x : Z) (d : viorng_device) := ViorngDevice (irqno d) x (refcnt d) (last_used_idx d) (bufcnt d) (rx_cond d).

(** ** Attaching *)

Definition isr_id : nat := 3.
Definition open_id : nat := 4.

Definition fresh_mem : rmem := RMem (RngDesc RNull 0 0 0) 0 0 0 0 (replicate (Z.to_nat VIORNG_BUFSZ) 0).

(** [p] is the address of the new structure, [da], [ua] and [aa] those of its
    rings, and [c] stands for its condition. *)
Definition viorng_attach (p da ua aa : Z) (c : nat) (junk : list Z) (irq : Z) : M (rsys E) unit :=
  r ← gets regs;
  if negb (device_id r =? VIRTIO_ID_RNG) then panic
  else
    on_regs (modify (λ x : mmio, write_status x (Z.lor (status x) VIRTIO_STAT_DRIVER)));;
    en ← attempt (on_regs (virtio_negotiate_features junk virtio_featset_init virtio_featset_init));
    match en with
    | None => mret tt
    | Some _ =>
        upd_dev (λ _, ViorngDevice irq 0 0 0 0 c);;
        upd_mem (λ _, fresh_mem);;
        on_kern (condition_init c);;
        on_regs (virtio_attach_virtq 0 1 da ua aa);;
        on_regs (virtio_enable_virtq 0);;
        on_intr (Intr.enable_intr_source irq VIORNG_IRQ_PRIO isr_id p);;
        on_regs (modify (λ x : mmio, write_status x (Z.lor (status x) VIRTIO_STAT_DRIVER_OK)));;
        n ← on_devtab (Device.register_device (Some VIORNG_NAME) (Some open_id) p);
        upd_dev (set_instno n)
    end.

(** ** Operations *)

Definition viorng_open : M (rsys E) Z :=
  d ← gets dev;
  if negb (refcnt d =? 0) then mret (- EBUSY) else upd_dev (λ d, set_ref (refcnt d + 1) d);; mret 0.

Definition viorng_close : M (rsys E) unit := d ← gets dev; if refcnt d =? 0 then mret tt else panic.

Inductive rres := RDone (out : list Z) | RWait (out : list Z).

Definition viorng_refill : M (rsys E) unit :=
  upd_mem (set_desc (RngDesc RBuf VIORNG_BUFSZ VIRTQ_DESC_F_WRITE 0));;
  upd_mem (λ m, set_avail (avail_idx m) 0 m);;
  upd_mem (λ m, set_avail (u16 (avail_idx m + 1)) (avail_ring m) m);;
  on_regs (virtio_notify_avail 0).

(** A test of the wait loop, with what follows it: [true] when the thread
    gave up the processor. *)
Definition viorng_harvest : M (rsys E) bool :=
  s ← gets (λ s, s);
  if used_idx (mem s) =? last_used_idx (dev s) then on_kern thread_yield;; mret true
  else
    upd_dev (set_bufcnt (used_len (mem s)));;
    upd_dev (set_last (used_idx (mem s)));;
    mret false.

(** [dev->buf[--dev->bufcnt]]; an index outside the buffer is a fault. *)
Definition viorng_byte : M (rsys E) Z :=
  d ← gets dev;
  let n := u32 (bufcnt d - 1) in
  upd_dev (set_bufcnt n);;
  m ← gets mem;
  match buf m !! Z.to_nat n with Some x => mret x | None => panic end.

Definition no_fuel {A} : M (rsys E) A := λ s, (NoFuel, s).

(** The loop of [viorng_read]: [out] is what was copied so far; [polling] when
    the thread comes back to the wait loop. *)
Fixpoint viorng_loop (fuel : nat) (bufsz : Z) (polling : bool) out : M (rsys E) rres :=
  match fuel with
  | O => no_fuel
  | S fuel =>
      if (negb polling && negb (Z.of_nat (length out) <? bufsz))%bool then mret (RDone out)
      else
        d ← gets dev;
        wait ← (if polling then viorng_harvest
                else if bufcnt d =? 0 then viorng_refill;; viorng_harvest
                else mret false);
        if (wait : bool) then mret (RWait out)
        else x ← viorng_byte; viorng_loop fuel bufsz false (out ++ [x])
  end.

(** A pass copies a byte. *)
Definition loop_fuel (bufsz : Z) out : nat := S (Z.to_nat bufsz - length out).

Definition viorng_read (bufsz : Z) : M (rsys E) rres :=
  if bufsz <=? 0 then mret (RDone []) else viorng_loop (loop_fuel bufsz []) bufsz false [].
Definition viorng_resume (bufsz : Z) out : M (rsys E) rres := viorng_loop (loop_fuel bufsz out) bufsz true out.

Definition viorng_isr : M (rsys E) unit :=
  r ← gets regs;
  on_regs (modify (λ x : mmio, write_interrupt_ack x (interrupt_status r)));;
  d ← gets dev;
  on_kern (condition_broadcast (rx_cond d)).

(** ** Every byte is delivered once *)

Inductive phase := Idle | Pending | Served (b : list Z).
Implicit Types (ph : phase) (given : list Z).

Record rinv s ph : Prop := {
  ri_sys : sys (kern s);
  ri_ok : es_ok (ent s);
  ri_buf : Z.of_nat (length (buf (mem s))) = VIORNG_BUFSZ;
  ri_last : 0 ≤ last_used_idx (dev s) < 2 ^ 16;
  ri_used : used_idx (mem s) = match ph with Served _ => u16 (last_used_idx (dev s) + 1) | _ => last_used_idx (dev s) end;
  ri_avail : match ph with Pending => pending (mem s) (es_seen (ent s)) | _ => avail_idx (mem s) = es_seen (ent s) end;
  ri_cnt : 0 ≤ bufcnt (dev s) ≤ VIORNG_BUFSZ;
  ri_served : match ph with
              | Served b => 0 < Z.of_nat (length b) ≤ VIORNG_BUFSZ ∧ used_len (mem s) = Z.of_nat (length b) ∧
                            take (length b) (buf (mem s)) = b
              | _ => True
              end
}.

(** All that the device supplied, in the order in which a buffer is emptied,
    and what of it is still in the buffer. *)
Definition supply s : list Z := concat (reverse <$> es_log (ent s)).
Definition stock s ph : list Z :=
  match ph with Idle => reverse (take (Z.to_nat (bufcnt (dev s))) (buf (mem s))) | Pending => [] | Served b => reverse b end.

(** A call for [n] bytes, before which [given] was delivered. *)
Definition call_ok given (n : Z) s (v : rres) : Prop :=
  match v with
  | RDone out => Z.of_nat (length out) = n ∧ rinv s Idle ∧ supply s = given ++ out ++ stock s Idle
  | RWait out => Z.of_nat (length out) < n ∧
                 ∃ ph, ph ≠ Idle ∧ rinv s ph ∧ supply s = given ++ out ++ stock s ph
  end.

Lemma rng_kern_run {A} (c : M ks A) s a k : c (kern s) = (Ret a, k) → on_kern c s = (Ret a, with_kern s k).
Proof. intros R. unfold on_kern. by rewrite R. Qed.

Lemma rinv_kern s ph k : rinv s ph → sys k → rinv (with_kern s k) ph.
Proof. intros [] Hk. by split. Qed.

(** The device has not answered. *)
Lemma harvest_waits s :
  rinv s Pending → ∃ k, viorng_harvest s = (Ret true, with_kern s k) ∧ rinv (with_kern s k) Pending.
Proof.
  intros Hv. destruct (yield_ok _ (ri_sys _ _ Hv)) as (k & Hrun & Hsys & _). exists k. split; [|by apply rinv_kern].
  unfold viorng_harvest. kgets. rewrite (ri_used _ _ Hv), Z.eqb_refl. by krun (rng_kern_run _ s _ _ Hrun).
Qed.

Lemma u16_next x : 0 ≤ x < 2 ^ 16 → u16 (x + 1) ≠ x ∧ 0 ≤ u16 (x + 1) < 2 ^ 16.
Proof.
  unfold u16. intros Hx. split; [|apply Z.mod_pos_bound; lia].
  intros R. destruct (decide (x = 2 ^ 16 - 1)) as [->|]; [done|]. rewrite Z.mod_small in R; lia.
Qed.

(** It has. *)
Lemma harvest_gets s b :
  rinv s (Served b) →
  ∃ s', viorng_harvest s = (Ret false, s') ∧ rinv s' Idle ∧ 0 < bufcnt (dev s') ∧ stock s' Idle = reverse b ∧ ent s' = ent s.
Proof.
  intros Hv. pose proof (ri_served _ _ Hv) as (Hb & Hl & Ht). destruct (u16_next _ (ri_last _ _ Hv)) as [Hne Hr].
  unfold viorng_harvest, upd_dev. kgets. rewrite (proj2 (Z.eqb_neq _ _)) by (by rewrite (ri_used _ _ Hv)). do 2 kmodify.
  eexists. split; [reflexivity|]. destruct Hv as [H1 H2 H3 H4 H5 H6 H7 _]. split_and!.
  - split; cbn [with_dev dev set_last set_bufcnt last_used_idx bufcnt mem ent kern]; rewrite ?H5, ?Hl; first [done | lia].
  - cbn. lia.
  - cbn. rewrite Hl, Nat2Z.id. by rewrite Ht.
  - done.
Qed.

Lemma refill_run s : rinv s Idle → bufcnt (dev s) = 0 →
  ∃ s', viorng_refill s = (Ret tt, s') ∧ rinv s' Pending ∧ ent s' = ent s.
Proof.
  intros Hv Hc. unfold viorng_refill, upd_mem, virtio_notify_avail. do 3 kmodify. eexists. split; [reflexivity|].
  split; [|done]. destruct Hv as [H1 H2 H3 H4 H5 H6 H7 _]. split; try done. simpl. unfold pending. cbn. by rewrite H6.
Qed.

(** A byte is taken from the end of the buffer. *)
Lemma byte_run s :
  rinv s Idle → 0 < bufcnt (dev s) →
  ∃ x s', viorng_byte s = (Ret x, s') ∧ rinv s' Idle ∧ stock s Idle = x :: stock s' Idle ∧ ent s' = ent s.
Proof.
  intros Hv Hc. pose proof (ri_cnt _ _ Hv) as Hr. pose proof (ri_buf _ _ Hv) as Hb. unfold VIORNG_BUFSZ in *.
  set (n := Z.to_nat (bufcnt (dev s) - 1)).
  destruct (lookup_lt_is_Some_2 (buf (mem s)) n ltac:(unfold n; lia)) as [x Hx].
  unfold viorng_byte, upd_dev. kgets. assert (u32 (bufcnt (dev s) - 1) = bufcnt (dev s) - 1) as -> by (unfold u32; apply Z.mod_small; lia).
  kmodify. kgets. cbn [with_dev mem]. fold n. rewrite Hx. eexists x, _. split; [reflexivity|]. split_and!; [| |done].
  - destruct Hv as [H1 H2 H3 H4 H5 H6 H7 H8]. split; try done. cbn. unfold VIORNG_BUFSZ. lia.
  - unfold stock. cbn [with_dev dev set_bufcnt bufcnt mem]. fold n. replace (Z.to_nat (bufcnt (dev s))) with (S n) by (unfold n; lia).
    by rewrite (take_S_r _ _ _ Hx), reverse_app.
Qed.

(** The loop from its test on. *)
Lemma loop_run given n fuel : ∀ s out,
  rinv s Idle → supply s = given ++ out ++ stock s Idle → Z.of_nat (length out) ≤ n → (Z.to_nat n - length out < fuel)%nat →
  ∃ v s', viorng_loop fuel n false out s = (Ret v, s') ∧ call_ok given n s' v ∧
    match v with RDone o | RWait o => (length out ≤ length o)%nat end.
Proof.
  induction fuel as [|fuel IH]; intros s out Hv Hs Hl Hf; [lia|]. cbn [viorng_loop negb andb].
  destruct (Z.ltb_spec (Z.of_nat (length out)) n) as [Hlt|Hge]; cbn [negb]; cbv iota.
  2:{ eexists _, s. split; [reflexivity|]. split; [|done]. split_and!; [lia|done|done]. }
  kgets. destruct (Z.eqb_spec (bufcnt (dev s)) 0) as [Hc|Hc].
  - destruct (refill_run s Hv Hc) as (s1 & R1 & Hv1 & He1). destruct (harvest_waits s1 Hv1) as (k & R2 & Hv2).
    assert ((viorng_refill;; viorng_harvest) s = (Ret true, with_kern s1 k)) as R by (by krun R1).
    krun R. eexists _, _. split; [reflexivity|]. split; [|done]. split; [done|]. exists Pending. split_and!; [done|done|].
    unfold supply, stock in *. cbn [with_kern ent]. rewrite He1, Hs, Hc. done.
  - kret. destruct (byte_run s Hv ltac:(pose proof (ri_cnt _ _ Hv); lia)) as (x & s1 & R1 & Hv1 & Hst & He1). krun R1.
    destruct (IH s1 (out ++ [x]) Hv1) as (v & s2 & R2 & Hok & Hlen).
    + unfold supply in *. rewrite He1, Hs, Hst. by rewrite <- !app_assoc.
    + rewrite length_app. simpl. lia.
    + rewrite length_app. simpl. lia.
    + exists v, s2. split; [done|]. split; [done|]. rewrite length_app in Hlen. simpl in Hlen. destruct v; lia.
Qed.

(** A thread that waits resumes: it goes on waiting, or it makes progress. *)
Lemma resume_run given n s out :
  call_ok given n s (RWait out) →
  ∃ v s', viorng_resume n out s = (Ret v, s') ∧ call_ok given n s' v ∧
    ((∃ b, rinv s (Served b)) → match v with RDone o => True | RWait o => (length out < length o)%nat end).
Proof.
  intros (Hl & ph & Hph & Hv & Hs). unfold viorng_resume, loop_fuel. cbn [viorng_loop negb andb]. cbv iota. kgets.
  destruct ph as [| |b]; [done| |].
  - destruct (harvest_waits s Hv) as (k & R & Hv2). krun R. eexists _, _. split; [reflexivity|]. split.
    + split; [done|]. by exists Pending.
    + intros [b Hb]. exfalso. destruct (u16_next _ (ri_last _ _ Hv)) as [Hne _]. apply Hne.
      pose proof (ri_used _ _ Hb) as E1. pose proof (ri_used _ _ Hv) as E2. simpl in *. congruence.
  - destruct (harvest_gets s b Hv) as (s1 & R1 & Hv1 & Hc1 & Hst1 & He1). krun R1. cbv iota.
    destruct (byte_run s1 Hv1 Hc1) as (x & s2 & R2 & Hv2 & Hst2 & He2). krun R2.
    destruct (loop_run given n (Z.to_nat n - length out) s2 (out ++ [x]) Hv2) as (v & s3 & R3 & Hok & Hlen).
    + unfold supply in *. rewrite He2, He1, Hs. cbn [stock]. rewrite <- Hst1, Hst2. by rewrite <- !app_assoc.
    + rewrite length_app. simpl. lia.
    + rewrite length_app. simpl. lia.
    + exists v, s3. split; [done|]. split; [done|]. intros _. destruct v; [done|]. rewrite length_app in Hlen. simpl in Hlen. lia.
Qed.

(** ** The device *)

Definition with_given s : rsys E := let '(m, e) := give (mem s) (ent s) in with_ent (with_mem s m) e.

Lemma give_pending s : rinv s Pending →
  ∃ b, rinv (with_given s) (Served b) ∧ supply (with_given s) = supply s ++ reverse b.
Proof.
  intros Hv. pose proof (es_give _ _ (ri_ok _ _ Hv) (ri_avail _ _ Hv)) as Hg. unfold with_given, supply.
  destruct (give (mem s) (ent s)) as [m' e'] eqn:Eg. destruct Hg as (Hok & Hseen & Hd & Hu & b & Hb & Hlog & Hul & Hbuf).
  injection Hd as _ Ha _. exists b. destruct Hv as [H1 H2 H3 H4 H5 H6 H7 _]. split.
  - split; try done; cbn [with_ent with_mem mem ent dev kern].
    + rewrite Hbuf, length_app, length_drop. unfold VIORNG_BUFSZ in *. lia.
    + by rewrite Hu, H5.
    + by rewrite Ha, Hseen.
    + split_and!; [lia|lia|done|]. by rewrite Hbuf, take_app_length.
  - cbn [with_ent ent]. rewrite Hlog, fmap_app, concat_app. cbn [fmap list_fmap concat]. by rewrite app_nil_r.
Qed.

Lemma give_other s ph : rinv s ph → ph ≠ Pending → with_given s = s.
Proof.
  intros Hv Hph. unfold with_given. rewrite es_idle; [by destruct s|apply Hv|]. pose proof (ri_avail _ _ Hv). by destruct ph.
Qed.

Lemma give_call given n s v : call_ok given n s v → call_ok given n (with_given s) v.
Proof.
  destruct v as [out|out]; [intros (Hl & Hv & Hs)|intros (Hl & ph & Hph & Hv & Hs)].
  - by rewrite (give_other s Idle).
  - split; [done|]. destruct ph as [| |b]; [done| |].
    + destruct (give_pending s Hv) as (b & Hv' & Hs'). exists (Served b). split_and!; [done|done|].
      rewrite Hs', Hs. cbn [stock]. by rewrite app_nil_r, <- app_assoc.
    + exists (Served b). by rewrite (give_other s (Served b)).
Qed.

(** ** Calls *)

(** What happens while a thread is inside [viorng_read]: the device answers,
    the service routine runs, other threads run without using the driver, the
    thread itself is scheduled again. *)
Inductive rstep (n : Z) : rsys E * rres → rsys E * rres → Prop :=
  | r_give s v : rstep n (s, v) (with_given s, v)
  | r_isr s v s' : viorng_isr s = (Ret tt, s') → rstep n (s, v) (s', v)
  | r_others s v k : sys k → rstep n (s, v) (with_kern s k, v)
  | r_resume s out v s' : viorng_resume n out s = (Ret v, s') → rstep n (s, RWait out) (s', v).

Lemma isr_run s : sys (kern s) → ∃ k r, viorng_isr s = (Ret tt, with_kern (with_regs s r) k) ∧ sys k.
Proof.
  intros Hs. destruct (broadcast_sys (kern s) (rx_cond (dev s)) Hs) as (k & R & Hk). unfold viorng_isr. kgets.
  set (r := write_interrupt_ack (regs s) (interrupt_status (regs s))). exists k, r. split; [|done].
  assert (on_regs (modify (λ x : mmio, write_interrupt_ack x (interrupt_status (regs s)))) s = (Ret tt, with_regs s r)) as R1 by done.
  krun R1. kgets. exact (rng_kern_run _ (with_regs s r) _ _ R).
Qed.

Lemma call_sys given n s v : call_ok given n s v → sys (kern s).
Proof. destruct v; [intros (_ & [] & _)|intros (_ & ph & _ & [] & _)]; done. Qed.

Lemma call_outer given n s v k r : sys k → call_ok given n s v → call_ok given n (with_kern (with_regs s r) k) v.
Proof.
  intros Hk. destruct v as [out|out]; [intros (Hl & [] & Hs)|intros (Hl & ph & Hph & [] & Hs)].
  - split_and!; [done|by split|done].
  - split; [done|]. exists ph. split_and!; [done|by split|by destruct ph].
Qed.

Lemma rstep_call given n s v s' v' : rstep n (s, v) (s', v') → call_ok given n s v → call_ok given n s' v'.
Proof.
  intros Hstep Hok. inversion Hstep; subst.
  - by apply give_call.
  - destruct (isr_run s (call_sys _ _ _ _ Hok)) as (k & r & R & Hk).
    match goal with H1 : viorng_isr _ = _ |- _ => rewrite R in H1; injection H1 as <- end. by apply call_outer.
  - pose proof (call_outer _ _ _ _ k (regs s) ltac:(done) Hok) as Hc. by destruct s.
  - destruct (resume_run _ _ _ _ Hok) as (v1 & s1 & R & Hok' & _).
    match goal with H1 : viorng_resume _ _ _ = _ |- _ => rewrite R in H1; by injection H1 as <- <- end.
Qed.

Lemma rtc_call given n c c' : rtc (rstep n) c c' → call_ok given n c.1 c.2 → call_ok given n c'.1 c'.2.
Proof. induction 1 as [|[s1 v1] [s2 v2] c3 Hstep _ IH]; [done|]. intros Hok. apply IH. by eapply rstep_call. Qed.

(** An answer of the device and a resumption bring a byte. *)
Lemma call_finishes given n : ∀ k s v,
  call_ok given n s v → (match v with RDone _ => 0 | RWait out => Z.to_nat n - length out end ≤ k)%nat →
  ∃ s' out, rtc (rstep n) (s, v) (s', RDone out).
Proof.
  induction k as [|k IH]; intros s [out|out] Hok Hk; try (by exists s, out).
  { destruct Hok as [Hl _]. lia. }
  pose proof (give_call _ _ _ _ Hok) as Hok1. destruct Hok as (Hl & ph & Hph & Hv & Hs).
  assert (∃ b, rinv (with_given s) (Served b)) as Hserved.
  { destruct ph as [| |b]; [done| |].
    - destruct (give_pending s Hv) as (b & Hb & _). by exists b.
    - exists b. by rewrite (give_other s (Served b)). }
  destruct (resume_run _ _ _ _ Hok1) as (v & s2 & R & Hok2 & Hprog). specialize (Hprog Hserved).
  destruct (IH s2 v Hok2) as (s3 & o & Hrtc); [destruct v; lia|].
  exists s3, o. eapply rtc_l; [apply r_give|]. eapply rtc_l; [by apply r_resume|]. exact Hrtc.
Qed.

(** A read of [n] bytes by one thread returns a first result; whatever happens
    then, the call can end, and when it does it returns [n] bytes, which follow
    in the stream of what the device supplied those that were delivered before:
    no byte of entropy is handed out twice, lost or left out, and what is not
    handed out is in the buffer. *)
Lemma viorng_read_stream given s n :
  rinv s Idle → 0 < n → supply s = given ++ stock s Idle →
  ∃ v s1, viorng_read n s = (Ret v, s1) ∧
    ∀ c, rtc (rstep n) (s1, v) c →
      (∀ s' out, c = (s', RDone out) → Z.of_nat (length out) = n ∧ rinv s' Idle ∧ supply s' = given ++ out ++ stock s' Idle) ∧
      ∃ s' out, rtc (rstep n) c (s', RDone out).
Proof.
  intros Hv Hn Hs. unfold viorng_read. rewrite (proj2 (Z.leb_gt _ _)) by lia.
  destruct (loop_run given n (loop_fuel n []) s [] Hv Hs) as (v & s1 & R & Hok & _); [simpl; lia|unfold loop_fuel; simpl; lia|].
  exists v, s1. split; [done|]. intros [s2 v2] Hrtc. apply (rtc_call given) in Hrtc; [|done]. simpl in Hrtc. split.
  - intros s' out [= -> ->]. exact Hrtc.
  - eapply call_finishes; [exact Hrtc|reflexivity].
Qed.

(** ** Attaching *)

(** What [viorng_attach] starts from: an entropy device that was reset and
    accepts what it is asked for, a condition that is not in use, an
    initialized interrupt manager, and a free slot in the device table. *)
Record attachable s (c : nat) (junk : list Z) (irq : Z) (es : list Device.dev_entry) (n : nat) : Prop := {
  at_id : device_id (regs s) = VIRTIO_ID_RNG;
  at_accepts fs : accepts (regs s) fs = true;
  at_feats : length (driver_features (regs s)) = 4%nat;
  at_junk : length junk = 4%nat;
  at_sys : sys (kern s);
  at_cond : unused (kern s) c;
  at_intr : Intr.served (intr s);
  at_irq : 0 < irq < Intr.NIRQ;
  at_tab : devtab s = Device.table es (S n);
  at_names : Device.good_names es;
  at_ent : es_ok (ent s);
  at_seen : es_seen (ent s) = 0
}.

Lemma rng_regs_run {A} (f : M mmio A) s a x : f (regs s) = (Ret a, x) → on_regs f s = (Ret a, with_regs s x).
Proof. intros R. unfold on_regs. by rewrite R. Qed.
Lemma rng_intr_run {A} (f : M Intr.isys A) s a x :
  f (intr s) = (Ret a, x) → on_intr f s = (Ret a, RSys (kern s) x (devtab s) (regs s) (dev s) (mem s) (ent s)).
Proof. intros R. unfold on_intr. by rewrite R. Qed.
Lemma rng_devtab_run {A} (f : M _ A) s a x :
  f (devtab s) = (Ret a, x) → on_devtab f s = (Ret a, RSys (kern s) (intr s) x (regs s) (dev s) (mem s) (ent s)).
Proof. intros R. unfold on_devtab. by rewrite R. Qed.

(** Attaching ends with DRIVER_OK set last, the one-entry queue enabled at the
    addresses of the new structure, the service routine installed, and the device
    registered under the next number; the buffer is empty and no request is
    under way. *)
Lemma viorng_attach_correct s c junk irq es n p da ua aa :
  attachable s c junk irq es n →
  ∃ s', viorng_attach p da ua aa c junk irq s = (Ret tt, s') ∧ rinv s' Idle ∧ stock s' Idle = [] ∧ ent s' = ent s ∧
    status (regs s') = Z.lor (Z.lor (Z.lor (status (regs s)) VIRTIO_STAT_DRIVER) VIRTIO_STAT_FEATURES_OK) VIRTIO_STAT_DRIVER_OK ∧
    (∃ x, queues (regs s') !! 0 = Some (VqRegs 1 1 x da aa ua)) ∧
    Intr.handler_of (intr s') irq = Some (isr_id, p) ∧
    Device.find_device VIORNG_NAME (instno (dev s')) 0 (devtab s') = Some (Device.DevEntry VIORNG_NAME (Some open_id) p) ∧
    devtab s' = Device.table (es ++ [Device.DevEntry VIORNG_NAME (Some open_id) p]) n ∧
    condition_init c (kern s) = (Ret tt, kern s') ∧ Intr.served (intr s').
Proof.
  intros [Hid Hacc Hdf Hj Hsys Hc Hin Hirq Htab Hnm Hok Hseen]. unfold viorng_attach. kgets. rewrite Hid, Z.eqb_refl. cbn [negb].
  rewrite (bind_ret _ _ _ _ _ (rng_regs_run (modify _) s tt _ eq_refl)). rewrite status_set by done.
  set (s1 := with_regs s _). destruct (negotiate_accepted (regs s1) junk virtio_featset_init) as (r2 & Hneg & Hcfg & Hst2); [done..|].
  krun (rng_regs_run _ s1 _ _ Hneg). injection Hcfg as _ _ _ _ Ea _ _ _ _ _ _. unfold upd_dev, upd_mem. do 2 kmodify.
  set (s4 := with_mem _ _). destruct (cond_init_sys (kern s) c Hsys Hc) as (k5 & Hrun5 & Hsys5 & _).
  krun (rng_kern_run _ s4 _ _ Hrun5). set (s5 := with_kern s4 k5).
  destruct (attach_virtq_run r2 1 da ua aa) as (r6 & [y z] & Hrun6 & Hq6 & Ea6 & Es6). krun (rng_regs_run _ s5 _ _ Hrun6).
  destruct (enable_virtq_run r6 1 da ua aa y z Hq6) as (r7 & Hrun7 & Hq7 & Ea7 & Es7).
  krun (rng_regs_run _ (with_regs s5 r6) _ _ Hrun7). set (s7 := with_regs _ r7).
  assert (0 < VIORNG_IRQ_PRIO ≤ Intr.PLIC_PRIO_MAX) as Hprio by (unfold VIORNG_IRQ_PRIO, Intr.PLIC_PRIO_MAX; lia).
  destruct (Intr.enable_ok (intr s) irq VIORNG_IRQ_PRIO isr_id p Hin Hirq Hprio) as (Hrun8 & _ & Hsv8).
  set (i8 := Intr.set_prio _ _ _) in Hrun8, Hsv8. krun (rng_intr_run _ s7 _ _ Hrun8). set (s8 := RSys _ i8 _ _ _ _ _).
  rewrite (bind_ret _ _ _ _ _ (rng_regs_run (modify _) s8 tt _ eq_refl)).
  change (regs s8) with r7. rewrite status_set by (try done; intros fs; by rewrite Ea7, Ea6, Ea). set (s9 := with_regs s8 _).
  assert (Device.register_device (Some VIORNG_NAME) (Some open_id) p (devtab s9) =
    (Ret (Z.of_nat (Device.named VIORNG_NAME es)), Device.table (es ++ [Device.DevEntry VIORNG_NAME (Some open_id) p]) n)) as Hrun9.
  { unfold Device.register_device. change (devtab s9) with (devtab s). rewrite Htab.
    by rewrite Device.register_loop_ok by first [done | by repeat constructor]. }
  krun (rng_devtab_run _ s9 _ _ Hrun9). eexists. split; [reflexivity|]. split_and!; try done.
  - cbn. by rewrite Es7, Es6, Hst2.
  - by exists z.
  - cbn. unfold Intr.handler_of, i8. simpl. apply getb_setb_same; [lia|]. rewrite (Intr.sv_tab _ Hin). lia.
  - destruct (Device.register_finds VIORNG_NAME (Some open_id) p es n ltac:(by repeat constructor) Hnm) as [Hf _]. exact Hf.
Qed.

(** ** Two readers

    The driver has no lock.  A reader that finds the answer to its request
    harvested by another one waits on: no request is under way, so the device has
    nothing to answer. *)
Definition stuck s : Prop :=
  sys (kern s) ∧ es_ok (ent s) ∧ used_idx (mem s) = last_used_idx (dev s) ∧ avail_idx (mem s) = es_seen (ent s).

Lemma rng_stuck_step n s out c : rstep n (s, RWait out) c → stuck s → stuck c.1 ∧ c.2 = RWait out.
Proof.
  intros Hstep Hst. pose proof Hst as (Hsys & Hok & Hu & Ha). inversion Hstep as [|? ? s' Hr|? ? k Hk|? ? v s' Hr]; subst; simpl.
  - unfold with_given. rewrite es_idle by done. by destruct s.
  - destruct (isr_run s Hsys) as (k & r & R & Hk). rewrite R in Hr. by injection Hr as <-.
  - done.
  - destruct (yield_ok _ Hsys) as (k & R & Hk & _). revert Hr. unfold viorng_resume, loop_fuel. cbn [viorng_loop negb andb]. cbv iota.
    kgets. assert (viorng_harvest s = (Ret true, with_kern s k)) as R1.
    { unfold viorng_harvest. kgets. rewrite Hu, Z.eqb_refl. by krun (rng_kern_run _ s _ _ R). }
    krun R1. by intros [= <- <-].
Qed.

Lemma rng_stuck_forever n s out c : rtc (rstep n) (s, RWait out) c → stuck s → c.2 = RWait out.
Proof.
  intros Hrtc. remember (s, RWait out) as c0 eqn:E0. revert s E0.
  induction Hrtc as [|c0 [s1 v1] c2 Hstep _ IH]; intros s -> Hst; [done|].
  apply rng_stuck_step in Hstep as [Hst1 E1]; [|done]. simpl in E1. subst v1. by apply (IH s1).
Qed.
End driver.

(** ** A device that delivers 1, 2, 3 *)

(** It answers every request between the index it has seen and the one in
    memory; with one ring entry each is the request at index 0. *)
Record counter := Counter { seen : Z; log : list (list Z) }.

Definition answers (k : nat) : list (list Z) := replicate k [1; 2; 3].
Definition counter_give m (e : counter) : rmem * counter :=
  let k := Z.to_nat (u16 (avail_idx m - seen e)) in
  if avail_idx m =? seen e then (m, e)
  else (RMem (desc m) (avail_idx m) (avail_ring m) (u16 (used_idx m + Z.of_nat k)) 3 ([1; 2; 3] ++ drop 3 (buf m)),
        Counter (avail_idx m) (log e ++ answers k)).

#[global] Program Instance counter_source : EntropySource counter := {|
  give := counter_give;
  es_ok e := 0 ≤ seen e < 2 ^ 16;
  es_seen := seen;
  es_log := log
|}.
Next Obligation. done. Qed.
Next Obligation. intros m e _ R. unfold counter_give. by rewrite R, Z.eqb_refl. Qed.
Next Obligation.
  intros m e Hok (Ha & _). unfold counter_give. destruct (u16_next _ Hok) as [Hne Hr].
  assert (u16 (u16 (seen e + 1) - seen e) = 1) as Hk.
  { unfold u16. rewrite Zminus_mod_idemp_l. by replace (seen e + 1 - seen e) with 1 by lia. }
  rewrite Ha, (proj2 (Z.eqb_neq _ _)) by done. rewrite Hk. split; [exact Hr|]. split_and!; [done|unfold driver_part; cbn; by rewrite Ha|done|].
  exists [1; 2; 3]. by split_and!.
Qed.

Definition rng_regs : mmio :=
  Mmio VIRTIO_MAGIC 2 VIRTIO_ID_RNG [1; 1; 0; 0] (λ _, true) 0 [0; 0; 0; 0] 0 0 ∅ [] 0 3 0 0.
Definition demo_rng : rsys counter :=
  RSys (initial 0 1) (Intr.intrmgr_init Intr.demo_isys).2 (Device.table Device.demo_devices 14) rng_regs
       (ViorngDevice 0 0 0 0 0 0) fresh_mem (Counter 0 []).

Lemma demo_rng_attachable : attachable demo_rng 9 [7; 8; 9; 9] 2 Device.demo_devices 13.
Proof.
  split; try done.
  - apply initial_sys.
  - apply unusedb_ok. by vm_compute.
  - destruct (Intr.intrmgr_init_served Intr.demo_isys eq_refl eq_refl) as (s' & R & Hs). cbn [intr demo_rng]. by rewrite R.
  - apply Device.demo_names.
Qed.

Definition demo_ready : rsys counter := (viorng_attach 77 1 2 3 9 [7; 8; 9; 9] 2 demo_rng).2.

Lemma viorng_read_stream_witness :
  ∃ v s1, viorng_read 5 demo_ready = (Ret v, s1) ∧
    ∃ s' out, rtc (rstep 5) (s1, v) (s', RDone out) ∧ Z.of_nat (length out) = 5 ∧ supply s' = out ++ stock s' Idle.
Proof.
  destruct (viorng_attach_correct demo_rng 9 [7; 8; 9; 9] 2 Device.demo_devices 13 77 1 2 3 demo_rng_attachable)
    as (s0 & Hrun & Hv & Hst & He & _).
  unfold demo_ready. rewrite Hrun. cbn [snd].
  destruct (viorng_read_stream [] s0 5 Hv ltac:(lia)) as (v & s1 & R & Hall).
  { unfold supply. by rewrite He, Hst. }
  exists v, s1. split; [exact R|]. destruct (Hall (s1, v) (rtc_refl _ _)) as [_ (s' & out & Hrtc)].
  destruct (Hall _ Hrtc) as [Hd _]. destruct (Hd s' out eq_refl) as (Hl & _ & Hs). exists s', out. by split_and!.
Defined.

(** Two threads ask for a byte before the device answers; the first gets its
    byte, and the second waits for ever although the buffer holds two more. *)
Lemma second_reader_hangs :
  ∃ s1 s2 s3, viorng_read 1 demo_ready = (Ret (RWait []), s1) ∧ viorng_read 1 s1 = (Ret (RWait []), s2) ∧
    viorng_resume 1 [] (with_given s2) = (Ret (RDone [3]), s3) ∧ bufcnt (dev s3) = 2 ∧
    ∀ c, rtc (rstep 1) (s3, RWait []) c → c.2 = RWait [].
Proof.
  assert (sys (kern demo_ready)) as Hsys.
  { destruct (viorng_attach_correct demo_rng 9 [7; 8; 9; 9] 2 Device.demo_devices 13 77 1 2 3 demo_rng_attachable)
      as (s0 & Hrun & Hv & _). unfold demo_ready. rewrite Hrun. apply Hv. }
  destruct (yield_ok _ Hsys) as (k1 & R1 & Hs1 & _). destruct (yield_ok _ Hs1) as (k2 & R2 & Hs2 & _).
  set (s1 := (viorng_read 1 demo_ready).2). set (s2 := (viorng_read 1 s1).2).
  set (s3 := (viorng_resume 1 [] (with_given s2)).2). exists s1, s2, s3. split; [vm_compute; reflexivity|].
  split; [vm_compute; reflexivity|]. split; [vm_compute; reflexivity|]. split; [vm_compute; reflexivity|].
  intros c Hc. eapply rng_stuck_forever; [exact Hc|].
  assert (seen (ent s3) = 2) as He by (vm_compute; reflexivity).
  split; [|split; [cbn [es_ok counter_source]; rewrite He; lia|split; vm_compute; reflexivity]].
  assert (kern s3 = (thread_yield (thread_yield (kern demo_ready)).2).2) as -> by (vm_compute; reflexivity).
  rewrite R1. cbn [snd]. by rewrite R2.
Qed.
End Viorng.
