(* ===== verification/Attach.v ===== *)
(** * Clock driver and attachment of the fixed devices
    (kernel/dev/rtc.c, kernel/dev/uart.c, kernel/main.c)

    The clock is an I/O object whose state is the hardware clock.  Time goes on
    between two accesses to it; how much is a function of the state.  A serial
    port is its registers, the first two of which are reached through LCR's
    divisor-latch bit.  [attach_fixed] is the part of [main] that attaches the
    serial ports and the clock. *)

From S2P Require Import Prelude Config Io Strings Device.

Module Rtc.

(** ** The Goldfish clock *)

(** Reading the low word latches the high word. *)
Record clock := Clock { now : Z; latch : Z; elapse : Z → Z }.
Implicit Types (c : clock).

Definition read_time_low : M clock Z := λ c, (Ret (now c mod 2 ^ 32), Clock (now c) (now c / 2 ^ 32) (elapse c)).
Definition read_time_high : M clock Z := gets latch.
(** Time passes. *)
Definition tick : M clock unit := modify (λ c, Clock (u64 (now c + elapse c (now c))) (latch c) (elapse c)).

Definition read_real_time : M clock Z :=
  lo ← read_time_low;
  tick;;
  hi ← read_time_high;
  mret (Z.lor (u64 (Z.shiftl hi 32)) lo).

(** The comparison with the size of the time is unsigned. *)
Definition rtc_read (bufsz : Z) : M clock (Z * list Z) :=
  if bufsz =? 0 then mret (0, [])
  else if u64 bufsz <? 8 then mret (- EINVAL, [])
  else t ← read_real_time; mret (8, le_bytes 8 t).

Definition rtc_cntl (cmd : Z) : Z := if cmd =? IOCTL_GETBLKSZ then 8 else - ENOTSUP.

(** ** The I/O object *)

Definition run_read c (bufsz : Z) : Z * list Z * clock :=
  match rtc_read bufsz c with (Ret (n, out), c) => (n, out, c) | (_, c) => (0, [], c) end.

Definition rtc_iointf : iointf clock :=
  IoIntf (Some (λ c, c)) (Some (λ c cmd arg, (rtc_cntl cmd, arg, c))) (Some run_read) None None None.

(** The object inside [struct rtc_device], as [rtc_attach] leaves it. *)
Definition rtc_io c : io clock := ioinit0 c rtc_iointf.

(** "rtc" *)
Definition RTC_NAME : Str.cstr := [114; 116; 99].
Definition open_id : nat := 5.

(** [p] is the address of the new structure; the result is its [instno]. *)
Definition rtc_attach (p : Z) : M (list (option Device.dev_entry)) Z :=
  Device.register_device (Some RTC_NAME) (Some open_id) p.

Definition rtc_open : M (io clock) Z := modify ioaddref;; mret 0.
Definition rtc_close : M (io clock) unit := o ← gets (λ o, o); if iorefcnt o =? 0 then mret tt else panic.

(** ** A time is never torn *)

Lemma lor_words hi lo : 0 ≤ lo < 2 ^ 32 → 0 ≤ hi < 2 ^ 32 → Z.lor (u64 (Z.shiftl hi 32)) lo = lo + 2 ^ 32 * hi.
Proof.
  intros Hl Hh. rewrite Z.shiftl_mul_pow2 by lia. rewrite u64_small by lia.
  assert (Z.land (hi * 2 ^ 32) lo = 0) as Hd.
  { apply Z.bits_inj'. intros n Hn. rewrite Z.land_spec, Z.bits_0. destruct (decide (n < 32)).
    - by rewrite Z.mul_pow2_bits_low.
    - rewrite (Z.bits_above_log2 lo n); [apply andb_false_r|lia|]. destruct (decide (lo = 0)) as [->|]; [simpl; lia|].
      apply Z.log2_lt_pow2; [lia|]. apply Z.lt_le_trans with (2 ^ 32); [lia|]. apply Z.pow_le_mono_r; lia. }
  rewrite <- Z.lxor_lor, <- Z.add_nocarry_lxor by done. lia.
Qed.

Lemma real_time_ok c : 0 ≤ now c < 2 ^ 64 → ∃ c', read_real_time c = (Ret (now c), c') ∧ 0 ≤ now c' < 2 ^ 64.
Proof.
  intros Hn. pose proof (Z.div_mod (now c) (2 ^ 32) ltac:(lia)). pose proof (Z.mod_pos_bound (now c) (2 ^ 32) ltac:(lia)).
  assert (Z.lor (u64 (Z.shiftl (now c / 2 ^ 32) 32)) (now c mod 2 ^ 32) = now c) as E by (rewrite lor_words; lia).
  exists (Clock (u64 (now c + elapse c (now c))) (now c / 2 ^ 32) (elapse c)). split.
  - transitivity (Ret (Z.lor (u64 (Z.shiftl (now c / 2 ^ 32) 32)) (now c mod 2 ^ 32)), Clock (u64 (now c + elapse c (now c))) (now c / 2 ^ 32) (elapse c)); [reflexivity|by rewrite E].
  - cbn [now]. unfold u64. apply Z.mod_pos_bound. lia.
Qed.

(** A read of the clock through its I/O object gives the eight bytes of the
    time at which the read began, whatever time passes between the accesses to
    its two registers; a buffer of one to seven bytes is refused, an empty one
    gets nothing, a negative size is refused. *)
Lemma rtc_read_untorn c bufsz :
  0 ≤ now c < 2 ^ 64 → bufsz < 2 ^ 63 →
  let '(n, out, o) := ioread (rtc_io c) bufsz in
  if decide (8 ≤ bufsz) then n = 8 ∧ le_val out = now c ∧ length out = 8%nat
  else n = (if decide (bufsz = 0) then 0 else - EINVAL) ∧ out = [] ∧ o = rtc_io c.
Proof.
  intros Hn Hb. unfold ioread, rtc_io, ioinit0, rtc_iointf. cbn [i_read intf].
  destruct (Z.ltb_spec bufsz 0); [cbv beta iota; rewrite !decide_False by lia; done|].
  unfold run_read, rtc_read. cbn [ist]. destruct (Z.eqb_spec bufsz 0) as [->|Hne]; [done|].
  rewrite u64_small by lia. destruct (Z.ltb_spec bufsz 8).
  - cbv beta iota delta [mret M_ret]. rewrite !decide_False by lia. done.
  - destruct (real_time_ok c Hn) as (c' & R & _). krun R. cbv beta iota delta [mret M_ret]. rewrite decide_True by lia.
    split_and!; [done| |apply length_le_bytes]. rewrite le_val_bytes. apply Z.mod_small. simpl. lia.
Qed.
End Rtc.

Module Attach.

(** ** Serial port registers *)

Definition LCR_DLAB : Z := Z.shiftl 1 7.
Record uregs := URegs { ier : Z; lcr : Z; dll : Z; dlm : Z }.
Implicit Types (u : uregs).

Definition dlab u : bool := negb (Z.land (lcr u) LCR_DLAB =? 0).
(** Writes to the first two registers; with the latch bit clear the first one
    is THR and transmits, which is not used here. *)
Definition write_dll u v : uregs := if dlab u then URegs (ier u) (lcr u) v (dlm u) else u.
Definition write_dlm_ier u v : uregs := if dlab u then URegs (ier u) (lcr u) (dll u) v else URegs v (lcr u) (dll u) (dlm u).
Definition write_lcr u v : uregs := URegs (ier u) v (dll u) (dlm u).

Definition UART0_MMIO_BASE : Z := 0x10000000.
Definition UART1_MMIO_BASE : Z := 0x10000100.
Definition UART_MMIO_BASE (i : Z) : Z := UART0_MMIO_BASE + i * (UART1_MMIO_BASE - UART0_MMIO_BASE).
Definition UART0_INTR_SRCNO : Z := 10.
Definition NUM_UARTS : nat := 3.
(** "uart" *)
Definition UART_NAME : Str.cstr := [117; 97; 114; 116].
Definition open_id : nat := 1.

(** The members of [struct uart_device] that attaching sets. *)
Record uart := Uart { regs : Z; irqno : Z; instno : Z; refcnt : Z }.

(** The device table, the registers of each port, and the structures by
    address. *)
Record asys := ASys { devtab : list (option Device.dev_entry); ports : gmap Z uregs; uarts : gmap Z uart }.
Implicit Types (s : asys).

Definition on_devtab {A} (f : M (list (option Device.dev_entry)) A) : M asys A := λ s,
  let (r, t) := f (devtab s) in (r, ASys t (ports s) (uarts s)).
Definition port s base : uregs := default (URegs 0 0 0 0) (ports s !! base).
Definition upd_port (base : Z) (f : uregs → uregs) : M asys unit :=
  modify (λ s, ASys (devtab s) (<[base := f (port s base)]> (ports s)) (uarts s)).
Definition put_uart (p : Z) (x : uart) : M asys unit := modify (λ s, ASys (devtab s) (ports s) (<[p := x]> (uarts s))).

Definition uart_attach (p mmio_base irq : Z) : M asys unit :=
  put_uart p (Uart mmio_base irq 0 0);;
  if negb (mmio_base =? UART0_MMIO_BASE) then
    upd_port mmio_base (λ u, write_dlm_ier u 0);;
    upd_port mmio_base (λ u, write_lcr u LCR_DLAB);;
    upd_port mmio_base (λ u, write_dll u 1);;
    upd_port mmio_base (λ u, write_dlm_ier u 0);;
    upd_port mmio_base (λ u, write_lcr u 0);;
    n ← on_devtab (Device.register_device (Some UART_NAME) (Some open_id) p);
    put_uart p (Uart mmio_base irq n 0)
  else
    n ← on_devtab (Device.register_device (Some UART_NAME) None 0);
    put_uart p (Uart mmio_base irq n 0).

Definition console_device_init : M asys unit :=
  upd_port UART0_MMIO_BASE (λ u, write_dlm_ier u 0);;
  upd_port UART0_MMIO_BASE (λ u, write_lcr u LCR_DLAB);;
  upd_port UART0_MMIO_BASE (λ u, write_dll u 1);;
  upd_port UART0_MMIO_BASE (λ u, write_dlm_ier u 0);;
  upd_port UART0_MMIO_BASE (λ u, write_lcr u 0).

(** The loop of [main] over the ports from number [i] on; [ps] are the
    addresses [kcalloc] returns. *)
Fixpoint attach_uarts (n : nat) (i : Z) (ps : list Z) : M asys unit :=
  match n with
  | O => mret tt
  | S n => uart_attach (default 0 (list.head ps)) (UART_MMIO_BASE i) (UART0_INTR_SRCNO + i);; attach_uarts n (i + 1) (list.tail ps)
  end.

Definition attach_fixed (ps : list Z) (p : Z) : M asys unit :=
  attach_uarts NUM_UARTS 0 ps;; _ ← on_devtab (Rtc.rtc_attach p); mret tt.

(** ** What opening a device finds after start-up *)

(** A port with the latch bit clear ends with the divisor 1, interrupts off and
    the latch bit clear. *)
Definition ready_port : uregs := URegs 0 0 1 0.

Lemma attach_uart_run s p base irq es n :
  devtab s = Device.table es (S n) → Device.good_names es → (base ≠ UART0_MMIO_BASE → lcr (port s base) = 0) →
  let fn := if base =? UART0_MMIO_BASE then None else Some open_id in
  let aux := if base =? UART0_MMIO_BASE then 0 else p in
  uart_attach p base irq s =
    (Ret tt, ASys (Device.table (es ++ [Device.DevEntry UART_NAME fn aux]) n)
                  (if base =? UART0_MMIO_BASE then ports s else <[base := ready_port]> (ports s))
                  (<[p := Uart base irq (Z.of_nat (Device.named UART_NAME es)) 0]> (uarts s))).
Proof.
  intros Ht Hg Hl. unfold uart_attach.
  assert (∀ fn ax tab, tab = Device.table es (S n) → Device.register_device (Some UART_NAME) fn ax tab =
    (Ret (Z.of_nat (Device.named UART_NAME es)), Device.table (es ++ [Device.DevEntry UART_NAME fn ax]) n)) as Hreg.
  { intros fn ax tab ->. unfold Device.register_device. by rewrite Device.register_loop_ok by first [done | by repeat constructor]. }
  destruct (Z.eqb_spec base UART0_MMIO_BASE) as [Hb|Hb]; cbn [negb]; cbv zeta.
  - unfold put_uart. kmodify. unfold on_devtab, mbind at 1, M_bind at 1. cbn [devtab]. rewrite Hreg by done. unfold modify. cbn [uarts ports devtab].
    by rewrite insert_insert_eq.
  - unfold put_uart, upd_port. do 6 kmodify. unfold on_devtab, mbind at 1, M_bind at 1. cbn [devtab]. rewrite Hreg by done.
    unfold port. cbn [ports uarts devtab]. rewrite !lookup_insert_eq, !insert_insert_eq. cbn [default modify]. unfold modify. cbn [uarts ports devtab].
    rewrite insert_insert_eq. repeat f_equal. fold (port s base). unfold write_dlm_ier at 2, dlab. rewrite Hl by done. done.
Qed.
(** The entries that [attach_fixed] leaves. *)
Definition fixed_devices (p1 p2 p : Z) : list Device.dev_entry :=
  [Device.DevEntry UART_NAME None 0; Device.DevEntry UART_NAME (Some open_id) p1;
   Device.DevEntry UART_NAME (Some open_id) p2; Device.DevEntry Rtc.RTC_NAME (Some Rtc.open_id) p].

(** After start-up the console's port cannot be opened, the two other ports and
    the clock are opened by their drivers with their own structure, whose port
    is programmed with divisor 1 and interrupts off, and no other serial port or
    clock exists. *)
Lemma fixed_devices_open s p0 p1 p2 p {C} (run_open : nat → Z → M C (Z * option nat)) :
  devtab s = Device.table [] 16 → NoDup [p0; p1; p2] →
  lcr (port s (UART_MMIO_BASE 1)) = 0 → lcr (port s (UART_MMIO_BASE 2)) = 0 →
  ∃ s', attach_fixed [p0; p1; p2] p s = (Ret tt, s') ∧
    devtab s' = Device.table (fixed_devices p1 p2 p) 12 ∧
    Device.open_device run_open (devtab s') UART_NAME 0 = mret (- ENOTSUP, None) ∧
    Device.open_device run_open (devtab s') UART_NAME 1 = run_open open_id p1 ∧
    Device.open_device run_open (devtab s') UART_NAME 2 = run_open open_id p2 ∧
    Device.open_device run_open (devtab s') Rtc.RTC_NAME 0 = run_open Rtc.open_id p ∧
    (∀ j, 3 ≤ j → Device.open_device run_open (devtab s') UART_NAME j = mret (- ENODEV, None)) ∧
    uarts s' !! p1 = Some (Uart (UART_MMIO_BASE 1) 11 1 0) ∧ uarts s' !! p2 = Some (Uart (UART_MMIO_BASE 2) 12 2 0) ∧
    port s' (UART_MMIO_BASE 1) = ready_port ∧ port s' (UART_MMIO_BASE 2) = ready_port ∧
    port s' UART0_MMIO_BASE = port s UART0_MMIO_BASE.
Proof.
  intros Ht Hnd Hl1 Hl2. unfold attach_fixed, NUM_UARTS. cbn [attach_uarts list.head list.tail default].
  rewrite bind_bind.
  rewrite (bind_ret _ _ _ _ _ (attach_uart_run s p0 (UART_MMIO_BASE 0) (UART0_INTR_SRCNO + 0) [] 15 Ht ltac:(constructor) ltac:(done))).
  change (UART_MMIO_BASE 0 =? UART0_MMIO_BASE) with true. cbv iota. set (s1 := ASys _ _ _). rewrite bind_bind.
  rewrite (bind_ret _ _ _ _ _ (attach_uart_run s1 p1 (UART_MMIO_BASE 1) (UART0_INTR_SRCNO + 1) _ 14 eq_refl ltac:(by repeat constructor) ltac:(done))).
  change (UART_MMIO_BASE 1 =? UART0_MMIO_BASE) with false. cbv iota. set (s2 := ASys _ _ _). rewrite bind_bind.
  assert (lcr (port s2 (UART_MMIO_BASE 2)) = 0) as Hl2'.
  { unfold port, s2. cbn [ports]. rewrite lookup_insert_ne by done. exact Hl2. }
  rewrite (bind_ret _ _ _ _ _ (attach_uart_run s2 p2 (UART_MMIO_BASE 2) (UART0_INTR_SRCNO + 2) _ 13 eq_refl ltac:(by repeat constructor) ltac:(done))).
  change (UART_MMIO_BASE 2 =? UART0_MMIO_BASE) with false. cbv iota. set (s3 := ASys _ _ _). kret.
  assert (on_devtab (Rtc.rtc_attach p) s3 = (Ret 0, ASys (Device.table (fixed_devices p1 p2 p) 12) (ports s3) (uarts s3))) as R.
  { unfold on_devtab, Rtc.rtc_attach, Device.register_device. cbn [devtab s3]. by rewrite Device.register_loop_ok by (by repeat constructor). }
  krun R. eexists. split; [reflexivity|]. cbn [devtab ports uarts].
  apply NoDup_cons in Hnd as [_ Hnd]. apply NoDup_cons in Hnd as [H12 _].
  split_and!; try done.
  - intros j Hj. unfold Device.open_device. rewrite Device.find_device_ok by (by repeat constructor).
    rewrite bool_decide_true by lia. rewrite (proj2 (lookup_ge_None _ _)); [done|]. simpl. lia.
  - unfold s3, s2. cbn [uarts]. rewrite lookup_insert_ne by set_solver. by rewrite lookup_insert_eq.
  - unfold s3. cbn [uarts]. by rewrite lookup_insert_eq.
  - unfold port, s3, s2. cbn [ports]. rewrite lookup_insert_ne by done. by rewrite lookup_insert_eq.
  - unfold port, s3. cbn [ports]. by rewrite lookup_insert_eq.
  - unfold port, s3, s2. cbn [ports]. by rewrite !lookup_insert_ne by done.
Qed.

(** The console's port, before. *)
Lemma console_init_run s : lcr (port s UART0_MMIO_BASE) = 0 →
  ∃ s', console_device_init s = (Ret tt, s') ∧ port s' UART0_MMIO_BASE = ready_port ∧ devtab s' = devtab s ∧
    ∀ b, b ≠ UART0_MMIO_BASE → port s' b = port s b.
Proof.
  intros Hl. unfold console_device_init, upd_port. do 4 kmodify. eexists. split; [reflexivity|]. split_and!; [|done|].
  - unfold port at 1. cbn [ports]. rewrite lookup_insert_eq. cbn [default]. unfold port. cbn [ports devtab uarts]. rewrite !lookup_insert_eq.
    cbn [default]. fold (port s UART0_MMIO_BASE). unfold write_dlm_ier at 2, dlab. rewrite Hl. done.
  - intros b Hb. unfold port at 1. cbn [ports]. by rewrite !lookup_insert_ne by auto.
Qed.
End Attach.
