(* ===== verification/Console.v ===== *)
(** * Console (kernel/console.c)

    The console device is seen through [console_device_putc] and
    [console_device_getc]: the characters written to it so far, and those it will
    deliver.  A read with no character to come spins for ever, which is the
    outcome [NoFuel].  A store through a pointer that has left its buffer is a
    [Panic]; the theorems show that there is none. *)

From S2P Require Import Prelude Config Io Strings Device.

Module Console.
Import Str.

Definition CR : Z := 13.
Definition LF : Z := 10.
Definition BS : Z := 8.
Definition DEL : Z := 127.
Definition BEL : Z := 7.

(** The two streams and the static [cprev] of [kputc] and of [kgetc]. *)
Record tty := Tty { out : list Z; inp : list Z; put_prev : Z; get_prev : Z }.
Implicit Types (s : tty) (c : Z).

Definition console_device_putc c : M tty unit := modify (λ s, Tty (out s ++ [c]) (inp s) (put_prev s) (get_prev s)).
Definition console_device_getc : M tty Z := λ s,
  match inp s with
  | [] => (NoFuel, s)
  | c :: r => (Ret c, Tty (out s) r (put_prev s) (get_prev s))
  end.

(** ** Characters *)

Definition kputc c : M tty unit :=
  (if c =? CR then console_device_putc c;; console_device_putc LF
   else if c =? LF then
     p ← gets put_prev;
     (if negb (p =? CR) then console_device_putc CR else mret tt);;
     console_device_putc c
   else console_device_putc c);;
  modify (λ s, Tty (out s) (inp s) c (get_prev s)).

(** Every pass takes a character. *)
Fixpoint kgetc_loop (fuel : nat) : M tty Z :=
  match fuel with
  | O => λ s, (NoFuel, s)
  | S fuel =>
      c ← console_device_getc;
      p ← gets get_prev;
      if ((c =? LF) && (p =? CR))%bool then kgetc_loop fuel else mret c
  end.

Definition kgetc : M tty Z :=
  n ← gets (λ s, length (inp s));
  c ← kgetc_loop (S n);
  modify (λ s, Tty (out s) (inp s) (put_prev s) c);;
  mret (if c =? CR then LF else c).

(** ** Strings and lines *)

Fixpoint kputs_loop (str : cstr) : M tty unit :=
  match str with [] => mret tt | c :: r => kputc c;; kputs_loop r end.
Definition kputs (str : cstr) : M tty unit := kputs_loop str;; kputc LF.

(** [*p = v], [p] as an offset in the buffer. *)
Definition store (buf : list Z) (p v : Z) : M tty (list Z) :=
  if ((0 <=? p) && (p <? Z.of_nat (length buf)))%bool then mret (setb p v buf) else panic.

(** The buffer when [kgetsn] returns. *)
Fixpoint kgetsn_loop (fuel : nat) (buf : list Z) (p n : Z) : M tty (list Z) :=
  match fuel with
  | O => λ s, (NoFuel, s)
  | S fuel =>
      c ← kgetc;
      if c =? CR then kgetsn_loop fuel buf p n
      else if c =? LF then kputc LF;; store buf p 0
      else if ((c =? BS) || (c =? DEL))%bool then
        if negb (p =? 0) then
          kputc BS;; kputc 32;; kputc BS;;
          kgetsn_loop fuel buf (p - 1) (u64 (n + 1))
        else kgetsn_loop fuel buf p n
      else if 1 <? n then
        kputc c;;
        buf ← store buf p c;
        kgetsn_loop fuel buf (p + 1) (n - 1)
      else kputc BEL;; kgetsn_loop fuel buf p n
  end.

Definition kgetsn (buf : list Z) (n : Z) : M tty (list Z) :=
  k ← gets (λ s, length (inp s)); kgetsn_loop (S k) buf 0 n.

(** ** Formatted output *)

Definition vprintf_putc c s : tty := (kputc c s).2.

(** [None] when the arguments are not those the format asks for. *)
Definition kvprintf (fmt : cstr) (ap : list va) s : option (outcome unit * tty) :=
  r ← vgprintf vprintf_putc fmt ap s;
  Some (match r with Ret (_, s') => (Ret tt, s') | Fail rc => (Fail rc, s) | Panic => (Panic, s) | NoFuel => (NoFuel, s) end).
Definition kprintf (fmt : cstr) (ap : list va) s : option (outcome unit * tty) := kvprintf fmt ap s.

(** "%s %s:%d: " *)
Definition label_fmt : cstr := [37; 115; 32; 37; 115; 58; 37; 100; 58; 32].

Definition klprintf (label flname : option cstr) (lineno : Z) (fmt : cstr) (ap : list va) s : option (outcome unit * tty) :=
  match kprintf label_fmt [VPtr label; VPtr flname; VReg lineno] s with
  | Some (Ret _, s) => match kvprintf fmt ap s with
                       | Some (Ret _, s) => Some (kputc LF s)
                       | r => r
                       end
  | r => r
  end.

(** ** The console as an I/O object *)

(** The bytes stored so far are in [got]. *)
Fixpoint cio_read_loop (n : nat) (got : list Z) : M tty (Z * list Z) :=
  match n with
  | O => mret (Z.of_nat (length got), got)
  | S n =>
      c ← kgetc;
      let c := if c =? CR then LF else c in
      if c =? LF then mret (Z.of_nat (length got) + 1, got ++ [c]) else cio_read_loop n (got ++ [c])
  end.
(** A negative size makes no pass and is returned. *)
Definition cio_read (bufsz : Z) : M tty (Z * list Z) :=
  if bufsz <=? 0 then mret (bufsz, []) else cio_read_loop (Z.to_nat bufsz) [].

Definition cio_write (buf : list Z) (len : Z) : M tty Z := kputs_loop (take (Z.to_nat len) buf);; mret len.
Definition cio_cntl (cmd : Z) (arg : option Z) : Z := - ENOTSUP.

(** [kmalloc] says whether the allocation succeeds; [p] is the new object. *)
Definition make_console_io (kmalloc : bool) (p : nat) : option nat := if kmalloc then Some p else None.
Definition console_open (kmalloc : bool) (p : nat) : Z * option nat :=
  match make_console_io kmalloc p with Some io => (0, Some io) | None => (- ENOMEM, None) end.

(** "console" *)
Definition console_name : cstr := [99; 111; 110; 115; 111; 108; 101].
Definition console_open_id : nat := 3.
Definition console_register_device : M (list (option Device.dev_entry)) unit :=
  _ ← Device.register_device (Some console_name) (Some console_open_id) 0; mret tt.

(** ** Input: line ends *)

(** What [kgetc] delivers of the raw characters: a carriage return, with the
    line feeds behind it, is one line feed. *)
Fixpoint cooked (prev : Z) (l : list Z) : list Z :=
  match l with
  | [] => []
  | c :: r => if ((c =? LF) && (prev =? CR))%bool then cooked prev r else (if c =? CR then LF else c) :: cooked c r
  end.
Definition coming s : list Z := cooked (get_prev s) (inp s).

Lemma kgetc_loop_ok fuel : ∀ s c cs, coming s = c :: cs → (length (inp s) < fuel)%nat →
  ∃ c0 r, kgetc_loop fuel s = (Ret c0, Tty (out s) r (put_prev s) (get_prev s)) ∧
    c = (if c0 =? CR then LF else c0) ∧ cooked c0 r = cs ∧ (length r < length (inp s))%nat.
Proof.
  induction fuel as [|fuel IH]; [lia|]. intros [o [|c0 r] pp gp] c cs Hc Hf; unfold coming in *; cbn [inp get_prev cooked] in Hc; [done|].
  cbn [kgetc_loop]. erewrite (bind_ret console_device_getc) by done. kgets. cbn [get_prev].
  destruct ((c0 =? LF) && (gp =? CR))%bool.
  - destruct (IH (Tty o r pp gp) c cs Hc) as (c1 & r1 & Hrun & ? & ? & ?); [simpl in *; lia|].
    exists c1, r1. split_and!; [exact Hrun|done|done|]. simpl in *. lia.
  - injection Hc as <- <-. exists c0, r. split_and!; try done. simpl. lia.
Qed.

Lemma kgetc_ok s c cs : coming s = c :: cs →
  ∃ s', kgetc s = (Ret c, s') ∧ coming s' = cs ∧ out s' = out s ∧ put_prev s' = put_prev s ∧ (length (inp s') < length (inp s))%nat.
Proof.
  intros Hc. unfold kgetc. kgets. destruct (kgetc_loop_ok (S (length (inp s))) s c cs Hc) as (c0 & r & Hrun & -> & Hr & Hl); [lia|].
  krun Hrun. kmodify. eexists. split; [reflexivity|]. split_and!; try done.
Qed.

Lemma cooked_no_cr l : ∀ prev, CR ∉ cooked prev l.
Proof.
  induction l as [|c l IH]; intros prev; cbn [cooked]; [apply not_elem_of_nil|]. destruct (_ && _)%bool; [apply IH|].
  rewrite not_elem_of_cons. split; [|apply IH]. destruct (Z.eqb_spec c CR) as [->|]; done.
Qed.

(** ** Output: line ends *)

(** Text without carriage returns reaches the device with every line feed as
    the pair CR LF. *)
Definition crlf c : list Z := if c =? LF then [CR; LF] else [c].

Lemma kputc_crlf s c : c ≠ CR → put_prev s ≠ CR → kputc c s = (Ret tt, Tty (out s ++ crlf c) (inp s) c (get_prev s)).
Proof.
  intros Hc Hp. unfold kputc, crlf. rewrite (proj2 (Z.eqb_neq c CR)) by done. destruct (Z.eqb_spec c LF) as [->|].
  - unfold mbind, M_bind, gets, console_device_putc, modify. rewrite (proj2 (Z.eqb_neq _ CR)) by done. cbn.
    by rewrite <- app_assoc.
  - done.
Qed.

(** Whatever is written, [kputc] returns and touches only the output. *)
Lemma kputc_any s c : ∃ o, kputc c s = (Ret tt, Tty o (inp s) c (get_prev s)).
Proof.
  unfold kputc, mbind, M_bind, gets, console_device_putc, modify. destruct (c =? CR); [by eexists|].
  destruct (c =? LF); [|by eexists]. cbn. destruct (negb _); by eexists.
Qed.

Lemma put_all_crlf text : ∀ s, CR ∉ text → put_prev s ≠ CR →
  ∃ p, put_all vprintf_putc text s = Tty (out s ++ (text ≫= crlf)) (inp s) p (get_prev s) ∧ p ≠ CR.
Proof.
  induction text as [|c text IH]; intros s Hcr Hp; cbn [put_all].
  { exists (put_prev s). rewrite app_nil_r. by destruct s. }
  apply not_elem_of_cons in Hcr as [Hc Hcr]. unfold vprintf_putc at 2. rewrite kputc_crlf by congruence. cbn [snd].
  destruct (IH (Tty (out s ++ crlf c) (inp s) c (get_prev s)) Hcr) as (p & -> & ?); [simpl; congruence|]. exists p. split; [|done].
  simpl. by rewrite <- app_assoc.
Qed.

Lemma kputs_loop_put_all str : ∀ s, kputs_loop str s = (Ret tt, put_all vprintf_putc str s).
Proof.
  induction str as [|c r IH]; intros s; [done|]. cbn [kputs_loop put_all].
  destruct (kputc_any s c) as [o Ho]. krun Ho. rewrite IH. unfold vprintf_putc at 3. by rewrite Ho.
Qed.

(** [kprintf] prints: when the arguments fit the format, the characters
    that reach the device are the text the format denotes with every line feed
    sent as CR LF, in order and nothing else; [kputs] and a write to the
    console object send theirs the same way. *)
Lemma kprintf_prints fmt ap text s :
  printed fmt ap = Some text → CR ∉ text → put_prev s ≠ CR →
  (∃ s', kprintf fmt ap s = Some (Ret tt, s') ∧ out s' = out s ++ (text ≫= crlf) ∧ inp s' = inp s) ∧
  (∃ s', kputs text s = (Ret tt, s') ∧ out s' = out s ++ (text ≫= crlf) ++ [CR; LF] ∧ inp s' = inp s) ∧
  (∃ s', cio_write text (Z.of_nat (length text)) s = (Ret (Z.of_nat (length text)), s') ∧ out s' = out s ++ (text ≫= crlf)).
Proof.
  intros Hpr Hcr Hp. destruct (put_all_crlf text s Hcr Hp) as (p & Hall & Hpp). split_and!.
  - unfold kprintf, kvprintf. unfold vgprintf, printed in *. rewrite vgprintf_loop_text, Hpr by lia.
    cbn [fmap option_fmap option_map mbind option_bind]. rewrite Hall. by eexists.
  - unfold kputs. krun (kputs_loop_put_all text s). rewrite Hall, kputc_crlf by (done || simpl; congruence).
    eexists. split; [reflexivity|]. simpl. by rewrite <- app_assoc.
  - unfold cio_write. rewrite Nat2Z.id, take_ge by done. krun (kputs_loop_put_all text s). rewrite Hall. by eexists.
Qed.

(** A line end that is already CR LF is sent with a second line feed. *)
Lemma crlf_doubles_line_feed : out (kputs_loop [CR; LF] (Tty [] [] 0 0)).2 = [CR; LF; LF].
Proof. done. Qed.

(** ** Reading a line *)

(** The line editor: the line after one more character. *)
Definition edit (n : nat) (line : list Z) c : list Z :=
  if ((c =? BS) || (c =? DEL))%bool then take (length line - 1) line
  else if decide (S (length line) < n)%nat then line ++ [c] else line.

Lemma edit_length n line c : (0 < n)%nat → (length line < n)%nat → (length (edit n line c) < n)%nat.
Proof.
  intros. unfold edit. destruct (_ || _)%bool; [rewrite length_take; lia|]. case_decide; [rewrite length_app; simpl; lia|done].
Qed.

Definition same_coming s s' : Prop := coming s' = coming s ∧ length (inp s') = length (inp s).
Lemma kputc_coming s c : ∃ s', kputc c s = (Ret tt, s') ∧ same_coming s s'.
Proof. destruct (kputc_any s c) as [o ->]. by eexists. Qed.

Ltac kput H := match goal with
  |- context [(kputc ?c ≫= _) ?s] =>
    let s' := fresh "s" in let E := fresh "E" in destruct (kputc_coming s c) as (s' & E & H); krun E end.

Lemma kstore_ok buf p v s : 0 ≤ p < Z.of_nat (length buf) → store buf p v s = (Ret (setb p v buf), s).
Proof. intros. unfold store. rewrite (proj2 (Z.leb_le 0 p)), (proj2 (Z.ltb_lt p _)) by lia. done. Qed.

Lemma kgetsn_loop_ok fuel : ∀ s buf line cs rest,
  (length line < length buf)%nat → Z.of_nat (length buf) < 2 ^ 64 → take (length line) buf = line →
  coming s = cs ++ LF :: rest → LF ∉ cs → (length (inp s) < fuel)%nat →
  let line' := foldl (edit (length buf)) line cs in
  ∃ buf' s', kgetsn_loop fuel buf (Z.of_nat (length line)) (Z.of_nat (length buf - length line)) s = (Ret buf', s') ∧
    length buf' = length buf ∧ (length line' < length buf)%nat ∧ take (S (length line')) buf' = line' ++ [0] ∧ coming s' = rest.
Proof.
  induction fuel as [|fuel IH]; [lia|]. intros s buf line cs rest Hl Hmax Hline Hc Hlf Hf. cbn [kgetsn_loop].
  destruct cs as [|c cs]; cbn [app foldl] in *.
  - destruct (kgetc_ok s LF rest Hc) as (s1 & Hrun & Hc1 & _). krun Hrun.
    change (LF =? CR) with false. change (LF =? LF) with true. cbv iota zeta. kput Hs2. rewrite kstore_ok by lia.
    exists (setb (Z.of_nat (length line)) 0 buf). eexists. split; [reflexivity|]. rewrite length_setb. split_and!; [done|done| |].
    + unfold setb. rewrite Nat2Z.id, (take_S_r _ _ 0) by (apply list_lookup_insert_eq; lia). by rewrite take_insert_ge, Hline by lia.
    + by destruct Hs2 as [-> _].
  - apply not_elem_of_cons in Hlf as [Hne Hlf]. destruct (kgetc_ok s c (cs ++ LF :: rest) Hc) as (s1 & Hrun & Hc1 & _ & _ & Hl1).
    krun Hrun. assert (c ≠ CR) as Hcr.
    { intros ->. apply (cooked_no_cr (inp s) (get_prev s)). unfold coming in Hc. rewrite Hc. by left. }
    rewrite (proj2 (Z.eqb_neq c CR)), (proj2 (Z.eqb_neq c LF)) by congruence.
    pose proof (edit_length (length buf) line c ltac:(lia) Hl) as Hed.
    destruct ((c =? BS) || (c =? DEL))%bool eqn:Eb.
    + assert (edit (length buf) line c = take (length line - 1) line) as -> by (unfold edit; by rewrite Eb).
      destruct (decide (length line = 0%nat)) as [E0|E0].
      * rewrite E0. change (Z.of_nat 0) with 0. cbn [Z.eqb negb].
        assert (take (0 - 1) line = line) as -> by (by rewrite (nil_length_inv _ E0)).
        destruct (IH s1 buf line cs rest Hl Hmax Hline Hc1 Hlf ltac:(lia)) as (b' & s' & Hr & ?).
        rewrite E0 in Hr. by exists b', s'.
      * rewrite (proj2 (Z.eqb_neq (Z.of_nat (length line)) 0)) by lia. cbn [negb]. kput Hs2. kput Hs3. kput Hs4.
        assert (coming s3 = cs ++ LF :: rest ∧ length (inp s3) = length (inp s1)) as [Hc4 Hl4]
          by (destruct Hs2, Hs3, Hs4; split; congruence).
        assert (length (take (length line - 1) line) = length line - 1)%nat as Etl by (rewrite length_take; lia).
        destruct (IH s3 buf (take (length line - 1) line) cs rest) as (b' & s' & Hr & ?);
          [lia|done|rewrite Etl; transitivity (take (length line - 1) (take (length line) buf)); [rewrite take_take; f_equal; lia|by rewrite Hline]|done|done|lia|].
        exists b', s'. rewrite Etl in Hr. rewrite <- Hr. split; [|done]. f_equal; [lia|]. unfold u64. rewrite Z.mod_small; lia.
    + destruct (decide (S (length line) < length buf)%nat) as [Hfit|Hfit].
      * assert (edit (length buf) line c = line ++ [c]) as -> by (unfold edit; by rewrite Eb, decide_True).
        rewrite (proj2 (Z.ltb_lt 1 _)) by lia. kput Hs2. krun (kstore_ok buf (Z.of_nat (length line)) c s0 ltac:(lia)).
        destruct Hs2 as [Hc2 Hl2].
        destruct (IH s0 (setb (Z.of_nat (length line)) c buf) (line ++ [c]) cs rest) as (b' & s' & Hr & Hlen & Hrest).
        -- rewrite length_setb, length_app. simpl. lia.
        -- by rewrite length_setb.
        -- rewrite length_app, Nat.add_1_r. unfold setb. rewrite Nat2Z.id, (take_S_r _ _ c) by (apply list_lookup_insert_eq; lia).
           by rewrite take_insert_ge, Hline by lia.
        -- congruence.
        -- done.
        -- lia.
        -- rewrite length_setb in *. exists b', s'. split; [|done]. rewrite <- Hr, length_app. simpl. f_equal; lia.
      * assert (edit (length buf) line c = line) as -> by (unfold edit; by rewrite Eb, decide_False).
        rewrite (proj2 (Z.ltb_ge 1 _)) by lia. kput Hs2. destruct Hs2 as [Hc2 Hl2].
        destruct (IH s0 buf line cs rest Hl Hmax Hline) as (b' & s' & Hr & ?); [congruence|done|lia|]. by exists b', s'.
Qed.

(** [kgetsn] reads one edited line and never writes outside the caller's
    buffer: given a buffer of [n] bytes, 0 < n, it returns when a line end
    arrives, with the characters typed, less those erased by backspace and
    those beyond [n - 1], followed by a zero byte, and what comes behind the
    line end is left for the next read. *)
Lemma kgetsn_line s buf cs rest :
  (0 < length buf)%nat → Z.of_nat (length buf) < 2 ^ 64 → coming s = cs ++ LF :: rest → LF ∉ cs →
  let line := foldl (edit (length buf)) [] cs in
  ∃ buf' s', kgetsn buf (Z.of_nat (length buf)) s = (Ret buf', s') ∧ length buf' = length buf ∧
    (length line < length buf)%nat ∧ take (S (length line)) buf' = line ++ [0] ∧ coming s' = rest.
Proof.
  intros Hb Hmax Hc Hlf. unfold kgetsn. kgets.
  destruct (kgetsn_loop_ok (S (length (inp s))) s buf [] cs rest) as (b' & s' & Hr & ?); try done; [lia|].
  exists b', s'. rewrite Nat.sub_0_r in Hr. by split.
Qed.

(** ** Reading through the I/O object *)

Lemma coming_not_cr s c cs : coming s = c :: cs → (if c =? CR then LF else c) = c.
Proof.
  intros Hc. destruct (Z.eqb_spec c CR) as [->|]; [|done]. exfalso. apply (cooked_no_cr (inp s) (get_prev s)).
  unfold coming in Hc. rewrite Hc. by left.
Qed.

(** A read ends at a line end or when the buffer is full. *)
Lemma cio_read_loop_ok n : ∀ s got cs rest,
  coming s = cs ++ rest → LF ∉ cs → (length cs = n ∨ (length cs < n)%nat ∧ list.head rest = Some LF) →
  let extra := if decide (length cs = n) then [] else [LF] in
  ∃ s', cio_read_loop n got s = (Ret (Z.of_nat (length (got ++ cs ++ extra)), got ++ cs ++ extra), s') ∧
        coming s' = drop (length extra) rest.
Proof.
  induction n as [|n IH]; intros s got cs rest Hc Hlf Hn; cbn [cio_read_loop].
  - assert (cs = []) as -> by (apply nil_length_inv; lia). cbn. rewrite app_nil_r. by exists s.
  - destruct cs as [|c cs]; cbn [app length] in *.
    + destruct Hn as [|[_ Hh]]; [lia|]. destruct rest as [|c rest]; [done|]. injection Hh as ->.
      destruct (kgetc_ok s LF rest Hc) as (s1 & Hrun & Hc1 & _). krun Hrun. change (LF =? CR) with false. cbv iota zeta.
      rewrite Z.eqb_refl, decide_False by lia. exists s1. split; [|done]. rewrite length_app. simpl. by rewrite Nat2Z.inj_add.
    + apply not_elem_of_cons in Hlf as [Hne Hlf]. destruct (kgetc_ok s c _ Hc) as (s1 & Hrun & Hc1 & _). krun Hrun.
      rewrite (coming_not_cr s c _ Hc), (proj2 (Z.eqb_neq c LF)) by congruence. cbv zeta.
      destruct (IH s1 (got ++ [c]) cs rest Hc1 Hlf ltac:(destruct Hn as [?|[? ?]]; [left; lia|right; split; [lia|done]])) as (s' & Hr & Hc').
      assert ((if decide (S (length cs) = S n) then [] else [LF]) = if decide (length cs = n) then [] else [LF]) as ->
        by (do 2 case_decide; lia || done).
      rewrite <- !app_assoc in Hr. by exists s'.
Qed.

(** ** Witnesses *)

Definition demo_tty : tty := Tty [] [97; 98; 8; 99; 13; 10; 100] 0 0.

(** "ab", backspace, "c", return: the line is "ac". *)
Lemma kgetsn_line_witness :
  ∃ buf' s', kgetsn [1; 1; 1; 1] 4 demo_tty = (Ret buf', s') ∧ take 3 buf' = [97; 99; 0] ∧ coming s' = [100].
Proof.
  destruct (kgetsn_line demo_tty [1; 1; 1; 1] [97; 98; 8; 99] [100]) as (b & s' & Hrun & _ & _ & Ht & Hc);
    [simpl; lia|simpl; lia|done|set_solver|]. by exists b, s'.
Defined.

Lemma kprintf_prints_witness :
  ∃ s', kprintf [37; 100; 10] [VReg 12] demo_tty = Some (Ret tt, s') ∧ out s' = [49; 50; 13; 10].
Proof.
  destruct (kprintf_prints [37; 100; 10] [VReg 12] [49; 50; 10] demo_tty) as [(s' & Hrun & Ho & _) _];
    [by vm_compute|set_solver|done|]. by exists s'.
Defined.

End Console.
