(* ===== verification/Elf.v ===== *)
(** * Program loader (kernel/elf.c)

    The executable is any I/O object and user memory anything that can be stored
    to ([UserMemory]); in the theorems about the loader alone it is a function
    from addresses to bytes, and addresses wrap at 2^64 as pointer arithmetic does.  A read
    stores what it returned even when it is short.  The pointer arguments are not
    NULL: the only caller has checked one and passes the address of the other. *)

From S2P Require Import Prelude Config Io.

Module Elf.

Definition EI_CLASS : Z := 4.
Definition EI_DATA : Z := 5.
Definition EI_VERSION : Z := 6.
Definition ELFCLASS64 : Z := 2.
Definition ELFDATA2LSB : Z := 1.
Definition EV_CURRENT : Z := 1.
Definition ET_EXEC : Z := 2.
Definition PT_LOAD : Z := 1.
Definition EM_RISCV : Z := 243.

Record elf64_ehdr := Ehdr {
  e_ident : list Z; e_type : Z; e_machine : Z; e_version : Z; e_entry : Z; e_phoff : Z; e_shoff : Z;
  e_flags : Z; e_ehsize : Z; e_phentsize : Z; e_phnum : Z; e_shentsize : Z; e_shnum : Z; e_shstrndx : Z }.

Record elf64_phdr := Phdr {
  p_type : Z; p_flags : Z; p_offset : Z; p_vaddr : Z; p_paddr : Z; p_filesz : Z; p_memsz : Z; p_align : Z }.

Definition EHSZ : Z := 64.
Definition PHSZ : Z := 56.

Definition field (off n : Z) (d : list Z) : Z := le_val (slice off n d).

Definition ehdr_of_bytes (d : list Z) : elf64_ehdr :=
  Ehdr (slice 0 16 d) (field 16 2 d) (field 18 2 d) (field 20 4 d) (field 24 8 d) (field 32 8 d) (field 40 8 d)
       (field 48 4 d) (field 52 2 d) (field 54 2 d) (field 56 2 d) (field 58 2 d) (field 60 2 d) (field 62 2 d).

Definition phdr_of_bytes (d : list Z) : elf64_phdr :=
  Phdr (field 0 4 d) (field 4 4 d) (field 8 8 d) (field 16 8 d) (field 24 8 d) (field 32 8 d) (field 40 8 d) (field 48 8 d).

(** ** User memory *)

Definition memory := Z → Z.
Implicit Types (m : memory) (ph : elf64_phdr) (eh : elf64_ehdr).

Definition copy_in m (a : Z) (bs : list Z) : memory := λ x,
  if u64 (x - a) <? Z.of_nat (length bs) then getb 0 bs (u64 (x - a)) else m x.
Definition memset m (a c n : Z) : memory := λ x, if u64 (x - a) <? n then c else m x.

(** What the loader does to user memory: it stores bytes at an address and fills
    a range.  Here user memory is the function above; UserMem.v has one behind
    the page tables, where a store may fault. *)
Class UserMemory (U : Type) := {
  ustore : Z → list Z → M U unit;
  ufill : Z → Z → Z → M U unit
}.
#[global] Instance flat_memory : UserMemory memory :=
  {| ustore a bs := modify (λ m, copy_in m a bs); ufill a c n := modify (λ m, memset m a c n) |}.

Section elf.
Context {St U : Type} `{!UserMemory U}.

Record esys := ESys { elfio : io St; umem : U }.
Implicit Types (s : esys).

Definition on_user {A} (f : M U A) : M esys A := λ s, let (r, u) := f (umem s) in (r, ESys (elfio s) u).

(** [ioreadat] into a kernel structure, and into user memory. *)
Definition read_struct (pos n : Z) : M esys (Z * list Z) := λ s,
  let '(r, got, o) := ioreadat (elfio s) pos n in (Ret (r, got), ESys o (umem s)).
Definition read_user (pos a n : Z) : M esys Z :=
  '(r, got) ← read_struct pos n;
  on_user (ustore a got);;
  mret r.

Definition valid_ehdr eh : bool :=
  ((getb 0 (e_ident eh) 0 =? 0x7F) && (getb 0 (e_ident eh) 1 =? 69) && (getb 0 (e_ident eh) 2 =? 76) && (getb 0 (e_ident eh) 3 =? 70)
   && (getb 0 (e_ident eh) EI_CLASS =? ELFCLASS64) && (getb 0 (e_ident eh) EI_DATA =? ELFDATA2LSB)
   && (getb 0 (e_ident eh) EI_VERSION =? EV_CURRENT) && (e_type eh =? ET_EXEC) && (e_machine eh =? EM_RISCV)
   && (e_version eh =? EV_CURRENT) && (e_phentsize eh =? PHSZ))%bool.

(** The body of the loop for a header of a loadable segment. *)
Definition load_segment ph : M esys unit :=
  if p_vaddr ph <? UMEM_START_VMA then fail (- EINVAL)
  else if UMEM_END_VMA <? u64 (p_vaddr ph + p_memsz ph) then fail (- EINVAL)
  else if p_memsz ph <? p_filesz ph then fail (- EINVAL)
  else
    (if 0 <? p_filesz ph then
       n ← read_user (p_offset ph) (p_vaddr ph) (s64 (p_filesz ph));
       if negb (n =? s64 (p_filesz ph)) then fail (- EIO) else mret tt
     else mret tt);;
    if p_filesz ph <? p_memsz ph then on_user (ufill (u64 (p_vaddr ph + p_filesz ph)) 0 (u64 (p_memsz ph - p_filesz ph)))
    else mret tt.

(** The program headers from number [i] on; [n] are left. *)
Fixpoint load_segments eh (i : Z) (n : nat) : M esys unit :=
  match n with
  | O => mret tt
  | S n =>
      let phpos := u64 (e_phoff eh + i * PHSZ) in
      '(r, got) ← read_struct phpos PHSZ;
      if negb (r =? PHSZ) then fail (- EIO)
      else
        let ph := phdr_of_bytes got in
        (if negb (p_type ph =? PT_LOAD) then mret tt else load_segment ph);;
        load_segments eh (i + 1) n
  end.

(** The value is the entry point; a failure is the error number returned. *)
Definition elf_load : M esys Z :=
  '(n, got) ← read_struct 0 EHSZ;
  if negb (n =? EHSZ) then fail (- EIO)
  else
    let eh := ehdr_of_bytes got in
    if negb (valid_ehdr eh) then fail (- EINVAL)
    else load_segments eh 0 (Z.to_nat (e_phnum eh));; mret (e_entry eh).

End elf.
Arguments esys : clear implicits.
Arguments ESys {St U}.

(** ** Memory up to equality of the bytes at 64-bit addresses *)

Definition meq m m' : Prop := ∀ x, 0 ≤ x < 2 ^ 64 → m x = m' x.
#[global] Instance meq_equiv : Equivalence meq.
Proof. split; [by intros m x|by intros m m' H x Hx; rewrite H|by intros m1 m2 m3 H1 H2 x Hx; rewrite H1, H2]. Qed.

(** The window test of [copy_in] and [memset] when the window does not wrap. *)
Lemma window x a n : 0 ≤ x < 2 ^ 64 → 0 ≤ a → a + n ≤ 2 ^ 64 → 0 ≤ n →
  (u64 (x - a) <? n) = ((a <=? x) && (x <? a + n))%bool ∧ (a ≤ x → u64 (x - a) = x - a).
Proof.
  intros Hx Ha Hn Hn0. assert (a ≤ x → u64 (x - a) = x - a) as Hge by (intros; apply u64_small; lia).
  split; [|done]. destruct (Z.leb_spec a x) as [Hle|Hlt].
  - rewrite Hge by done. destruct (Z.ltb_spec (x - a) n), (Z.ltb_spec x (a + n)); simpl; lia || done.
  - simpl. apply Z.ltb_ge. destruct (decide (n = 0)) as [->|]; [apply u64_range|].
    assert (u64 (x - a) = x - a + 2 ^ 64) as ->; [|lia].
    unfold u64. rewrite <- (Z_mod_plus_full (x - a) 1 (2 ^ 64)), Z.mul_1_l. apply Z.mod_small. lia.
Qed.

Lemma getb_slice (d off n i : Z) (l : list Z) : 0 ≤ off → 0 ≤ i < n → getb d (slice off n l) i = getb d l (off + i).
Proof.
  intros Ho Hi. unfold getb, slice. rewrite lookup_take_lt, lookup_drop by lia. do 2 f_equal. lia.
Qed.

(** ** What loading means *)

(** User memory after the segment of [ph] was loaded from the file [img]. *)
Definition seg_image (img : list Z) m ph : memory := λ x,
  if ((p_vaddr ph <=? x) && (x <? p_vaddr ph + p_filesz ph))%bool then getb 0 img (p_offset ph + (x - p_vaddr ph))
  else if ((p_vaddr ph <=? x) && (x <? p_vaddr ph + p_memsz ph))%bool then 0 else m x.

Definition is_load ph : bool := p_type ph =? PT_LOAD.

Record loadable (img : list Z) ph : Prop := {
  lo_start : UMEM_START_VMA ≤ p_vaddr ph;
  lo_end : p_vaddr ph + p_memsz ph ≤ UMEM_END_VMA;
  lo_size : 0 ≤ p_filesz ph ≤ p_memsz ph;
  lo_file : 0 ≤ p_offset ph ∧ p_offset ph + p_filesz ph ≤ Z.of_nat (length img)
}.

(** An object that holds a file: reads inside it return its bytes. *)
Class FileImage {St} (o : io St) (img : list Z) : Prop := {
  fi_len : Z.of_nat (length img) < 2 ^ 63;
  fi_read pos n : 0 ≤ pos → 0 < n → pos + n ≤ Z.of_nat (length img) → ioreadat o pos n = (n, slice pos n img, o)
}.

#[global] Instance seg_image_proper img ph : Proper (meq ==> meq) (λ m, seg_image img m ph).
Proof. intros m m' Hm x Hx. unfold seg_image. by rewrite Hm. Qed.

Definition header_table (img : list Z) eh : list elf64_phdr :=
  (λ i : nat, phdr_of_bytes (slice (e_phoff eh + Z.of_nat i * PHSZ) PHSZ img)) <$> seq 0 (Z.to_nat (e_phnum eh)).

(** What loading a file relies on: a user memory that shows bytes, after the
    ranges [done] were written.  Ranges inside user memory can be written as
    long as they [fit] with those before. *)
Class ShownMemory (U : Type) `{UserMemory U} := {
  shows : list (Z * Z) → U → memory → Prop;
  fits : list (Z * Z) → Prop;
  shows_proper d u m m' : meq m m' → shows d u m → shows d u m';
  fits_app d d' : fits (d ++ d') → fits d;
  shows_store d u m a bs : UMEM_START_VMA ≤ a → bs ≠ [] → a + Z.of_nat (length bs) ≤ UMEM_END_VMA →
    shows d u m → fits (d ++ [(a, Z.of_nat (length bs))]) →
    ∃ u', ustore a bs u = (Ret tt, u') ∧ shows (d ++ [(a, Z.of_nat (length bs))]) u' (copy_in m a bs);
  shows_fill d u m a c n : UMEM_START_VMA ≤ a → 0 < n → a + n ≤ UMEM_END_VMA →
    shows d u m → fits (d ++ [(a, n)]) → ∃ u', ufill a c n u = (Ret tt, u') ∧ shows (d ++ [(a, n)]) u' (memset m a c n)
}.

(** The ranges that the loader writes for a segment. *)
Definition written ph : list (Z * Z) :=
  (if 0 <? p_filesz ph then [(p_vaddr ph, p_filesz ph)] else []) ++
  (if p_filesz ph <? p_memsz ph then [(p_vaddr ph + p_filesz ph, p_memsz ph - p_filesz ph)] else []).

Section seg.
Context (img : list Z).

Lemma seg_fill m m1 ph : loadable img ph →
  meq m1 (copy_in m (p_vaddr ph) (slice (p_offset ph) (p_filesz ph) img)) →
  meq (if p_filesz ph <? p_memsz ph then memset m1 (u64 (p_vaddr ph + p_filesz ph)) 0 (u64 (p_memsz ph - p_filesz ph)) else m1)
      (seg_image img m ph).
Proof.
  intros [H1 H2 H3 H4] Hm x Hx. unfold UMEM_START_VMA, UMEM_END_VMA in *.
  assert (Z.of_nat (length (slice (p_offset ph) (p_filesz ph) img)) = p_filesz ph) as Hlen by (rewrite length_slice; lia).
  destruct (window x (p_vaddr ph) (p_filesz ph)) as [W1 W1']; [lia..|].
  destruct (window x (p_vaddr ph + p_filesz ph) (p_memsz ph - p_filesz ph)) as [W2 _]; [lia..|].
  unfold seg_image. specialize (Hm x Hx). unfold copy_in in Hm. rewrite Hlen, W1 in Hm.
  assert (p_filesz ph <? p_memsz ph = false → p_filesz ph = p_memsz ph) as Heq by (intros ?%Z.ltb_ge; lia).
  rewrite !u64_small by lia. replace (p_vaddr ph + p_filesz ph + (p_memsz ph - p_filesz ph)) with (p_vaddr ph + p_memsz ph) in W2 by lia.
  destruct (Z.ltb_spec (p_filesz ph) (p_memsz ph)); unfold memset; rewrite ?W2, Hm; clear Hm W1 W2;
  destruct (Z.leb_spec (p_vaddr ph) x), (Z.ltb_spec x (p_vaddr ph + p_filesz ph)), (Z.leb_spec (p_vaddr ph + p_filesz ph) x),
    (Z.ltb_spec x (p_vaddr ph + p_memsz ph)); cbn [andb]; try lia; try done; rewrite W1', getb_slice by lia; done.
Qed.

Lemma copy_in_nil m a : meq m (copy_in m a []).
Proof. intros x Hx. unfold copy_in. by rewrite (proj2 (Z.ltb_ge _ _)) by (simpl; apply u64_range). Qed.

End seg.

Section correct.
Context {St : Type} (o : io St) (img : list Z) `{!FileImage o img}.

Section shown.
Context {U : Type} `{UM : !UserMemory U} `{SM : !ShownMemory U}.

Lemma load_segment_ok d (u : U) m ph : loadable img ph → shows d u m → fits (d ++ written ph) →
  ∃ u', load_segment ph (ESys o u) = (Ret tt, ESys o u') ∧ shows (d ++ written ph) u' (seg_image img m ph).
Proof.
  intros Hl Hu Hfit. pose proof Hl as [H1 H2 H3 H4]. pose proof fi_len as Hf. unfold UMEM_START_VMA, UMEM_END_VMA in *.
  assert (s64 (p_filesz ph) = p_filesz ph) as Es by (unfold s64; rewrite Z.mod_small; lia).
  unfold load_segment. rewrite u64_small by lia. rewrite (proj2 (Z.ltb_ge _ UMEM_START_VMA)), (proj2 (Z.ltb_ge UMEM_END_VMA _)) by done.
  rewrite (proj2 (Z.ltb_ge (p_memsz ph) _)), Es by lia. cbv iota. set (bs := slice (p_offset ph) (p_filesz ph) img).
  assert (Z.of_nat (length bs) = p_filesz ph) as Hlen by (unfold bs; rewrite length_slice; lia).
  unfold written in *. rewrite app_assoc in Hfit |- *. pose proof (fits_app _ _ Hfit) as Hfit1.
  set (d1 := d ++ _) in *.
  assert (∃ u1, (if 0 <? p_filesz ph then n ← read_user (p_offset ph) (p_vaddr ph) (p_filesz ph);
     if negb (n =? p_filesz ph) then fail (- EIO) else mret tt else mret tt) (ESys o u) = (Ret tt, ESys o u1) ∧
     shows d1 u1 (copy_in m (p_vaddr ph) bs)) as (u1 & E & Hu1).
  { unfold d1 in *. destruct (Z.ltb_spec 0 (p_filesz ph)) as [H0|H0].
    - destruct (shows_store d u m (p_vaddr ph) bs) as (u1 & Es1 & Hs1);
        [done|intros E; by rewrite E in Hlen; simpl in Hlen; lia|rewrite Hlen; unfold UMEM_END_VMA; lia|done|by rewrite Hlen|].
      rewrite Hlen in Hs1. exists u1. split; [|done]. unfold read_user, read_struct, on_user, mbind, M_bind. cbn [elfio umem].
      rewrite fi_read by lia. fold bs. cbn [elfio umem]. rewrite Es1. cbv delta [mret M_ret]. cbv beta iota. by rewrite Z.eqb_refl.
    - exists u. split; [done|]. rewrite app_nil_r. assert (bs = []) as -> by (apply nil_length_inv; lia).
      apply (shows_proper _ _ m); [apply copy_in_nil|done]. }
  krun E. pose proof (seg_fill img m _ ph Hl (reflexivity _)) as Hs.
  destruct (Z.ltb_spec (p_filesz ph) (p_memsz ph)).
  - destruct (shows_fill d1 u1 (copy_in m (p_vaddr ph) bs) (p_vaddr ph + p_filesz ph) 0 (p_memsz ph - p_filesz ph)) as (u2 & E2 & Hu2);
      [unfold UMEM_START_VMA; lia|lia|unfold UMEM_END_VMA; lia|done|done|].
    rewrite !u64_small in Hs |- * by lia. exists u2. split; [unfold on_user; cbn [umem elfio]; by rewrite E2|]. by apply (shows_proper _ _ _ _ Hs).
  - exists u1. split; [done|]. rewrite app_nil_r. by apply (shows_proper _ _ _ _ Hs).
Qed.

Lemma load_segments_ok eh n : ∀ i d (u : U) m, 0 ≤ i →
  0 ≤ e_phoff eh → e_phoff eh + (i + Z.of_nat n) * PHSZ ≤ Z.of_nat (length img) →
  let phs := (λ k : nat, phdr_of_bytes (slice (e_phoff eh + (i + Z.of_nat k) * PHSZ) PHSZ img)) <$> seq 0 n in
  Forall (loadable img) (filter is_load phs) → shows d u m → fits (d ++ (filter is_load phs ≫= written)) →
  ∃ u', load_segments eh i n (ESys o u) = (Ret tt, ESys o u') ∧
    shows (d ++ (filter is_load phs ≫= written)) u' (foldl (seg_image img) m (filter is_load phs)).
Proof.
  pose proof fi_len as Hf. induction n as [|n IH]; intros i d u m Hi Ho Hb; [intros phs _ Hu _; exists u; split; [done|by rewrite app_nil_r]|].
  cbn [seq fmap list_fmap]. rewrite Z.add_0_r.
  set (ph := phdr_of_bytes (slice (e_phoff eh + i * PHSZ) PHSZ img)).
  rewrite <- fmap_S_seq, <- list_fmap_compose.
  rewrite (list_fmap_ext _ (λ k : nat, phdr_of_bytes (slice (e_phoff eh + (i + 1 + Z.of_nat k) * PHSZ) PHSZ img))).
  2: { intros _ k _. simpl. do 3 f_equal. lia. }
  set (rest := _ <$> seq 0 n). intros Hall Hu Hfit. unfold PHSZ in Hb. pose proof (Nat2Z.is_nonneg n).
  assert (∃ d1 u1 m1, (if negb (p_type ph =? PT_LOAD) then mret tt else load_segment ph) (ESys o u) = (Ret tt, ESys o u1) ∧
    shows d1 u1 m1 ∧ Forall (loadable img) (filter is_load rest) ∧
    d ++ (filter is_load (ph :: rest) ≫= written) = d1 ++ (filter is_load rest ≫= written) ∧
    foldl (seg_image img) m (filter is_load (ph :: rest)) = foldl (seg_image img) m1 (filter is_load rest)) as (d1 & u1 & m1 & E1 & Hu1 & Hr & Ed & Em).
  { rewrite filter_cons in Hall, Hfit |- *. unfold is_load in *. destruct (p_type ph =? PT_LOAD); simpl in Hall, Hfit |- *; [|by exists d, u, m].
    apply Forall_cons in Hall as [Hph Hall]. rewrite app_assoc in Hfit. destruct (load_segment_ok d u m ph Hph Hu (fits_app _ _ Hfit)) as (u1 & ? & ?).
    exists (d ++ written ph), u1, (seg_image img m ph). by rewrite app_assoc. }
  rewrite Ed in Hfit |- *. rewrite Em.
  destruct (IH (i + 1) d1 u1 m1) as (u' & E & Hu'); [lia|done|unfold PHSZ; rewrite Nat2Z.inj_succ in Hb; lia|done|done|done|]. fold rest in Hu'.
  exists u'. split; [|done]. cbn [load_segments]. rewrite u64_small by (unfold PHSZ in *; lia). unfold read_struct at 1, mbind at 1, M_bind at 1. cbn [elfio umem].
  rewrite fi_read by (unfold PHSZ; lia). rewrite Z.eqb_refl. cbv iota zeta beta delta [negb]. fold ph. cbv delta [negb] in E1. krun E1. done.
Qed.

(** Loading, whatever user memory is. *)
Lemma elf_load_shows d (u : U) m :
  EHSZ ≤ Z.of_nat (length img) →
  let eh := ehdr_of_bytes (slice 0 EHSZ img) in let phs := filter is_load (header_table img eh) in
  valid_ehdr eh = true → 0 ≤ e_phoff eh → 0 ≤ e_phnum eh → e_phoff eh + e_phnum eh * PHSZ ≤ Z.of_nat (length img) →
  Forall (loadable img) phs → shows d u m → fits (d ++ (phs ≫= written)) →
  ∃ u', elf_load (ESys o u) = (Ret (e_entry eh), ESys o u') ∧ shows (d ++ (phs ≫= written)) u' (foldl (seg_image img) m phs).
Proof.
  intros Hlen eh phs Hv Ho Hn Hb Hall Hu Hfit.
  destruct (load_segments_ok eh (Z.to_nat (e_phnum eh)) 0 d u m) as (u' & E & Hu'); [done|done|by rewrite Z2Nat.id, Z.add_0_l|done|done|done|].
  exists u'. split; [|done]. unfold elf_load. unfold read_struct, mbind at 1, M_bind at 1. cbn [elfio umem].
  rewrite fi_read by (unfold EHSZ in *; lia). rewrite Z.eqb_refl. cbv iota zeta beta delta [negb]. fold eh. rewrite Hv. by krun E.
Qed.
End shown.

#[global] Program Instance flat_shown : ShownMemory memory := {| shows _ u m := meq u m; fits _ := True |}.
Next Obligation. intros ? u m m' E Hu. by transitivity m. Qed.
Next Obligation. done. Qed.
Next Obligation. intros ? u m a bs _ _ _ Hu _. eexists. split; [reflexivity|]. intros x Hx. unfold copy_in. by rewrite Hu. Qed.
Next Obligation. intros ? u m a c n _ _ _ Hu _. eexists. split; [reflexivity|]. intros x Hx. unfold memset. by rewrite Hu. Qed.

(** C11. A valid executable is loaded: the loader returns the entry point, and
    user memory is what loading the file's loadable segments one after the
    other gives, bytes of the file followed by zeros; nothing else changes. *)
Theorem elf_load_correct m :
  EHSZ ≤ Z.of_nat (length img) →
  let eh := ehdr_of_bytes (slice 0 EHSZ img) in
  valid_ehdr eh = true → 0 ≤ e_phoff eh → 0 ≤ e_phnum eh → e_phoff eh + e_phnum eh * PHSZ ≤ Z.of_nat (length img) →
  Forall (loadable img) (filter is_load (header_table img eh)) →
  ∃ m', elf_load (ESys o m) = (Ret (e_entry eh), ESys o m') ∧
    meq m' (foldl (seg_image img) m (filter is_load (header_table img eh))).
Proof. intros H1 eh H2 H3 H4 H5 H6. destruct (elf_load_shows [] m m) as (m' & E & Hm); [done..|]. exists m'. split; [exact E|exact Hm]. Qed.

End correct.

(** ** What loading may touch *)

Definition user_addr (x : Z) : Prop := UMEM_START_VMA ≤ x < UMEM_END_VMA.
Definition kept m m' : Prop := ∀ x, 0 ≤ x < 2 ^ 64 → ¬ user_addr x → m' x = m x.

Definition rejected {A} (r : outcome A) : Prop := r = Fail (- EINVAL) ∨ r = Fail (- EIO).

(** The call ended in state [s] without writing more. *)
Ltac kept_stop s := eexists _, s; split; [done|]; split_and!; [first [by left|by right; left|by right; right]|done|done].

(** The program header number [i] of the file, where the loader reads it. *)
Definition header_at (img : list Z) (i : Z) : elf64_phdr :=
  phdr_of_bytes (slice (u64 (e_phoff (ehdr_of_bytes (slice 0 EHSZ img)) + i * PHSZ)) PHSZ img).

(** No loadable segment of the file wraps around the address space. *)
Definition no_wrap (img : list Z) : Prop :=
  ∀ i, 0 ≤ i < e_phnum (ehdr_of_bytes (slice 0 EHSZ img)) → is_load (header_at img i) = true →
    p_vaddr (header_at img i) + p_memsz (header_at img i) < 2 ^ 64.

(** An endpoint that reads the file [img], in a state that [ok] describes: a
    read never returns more than was asked for, and one that reports all the
    bytes asked for returns those of the file; any read may be short or fail. *)
Class FileReader {St} (img : list Z) (ok : io St → Prop) : Prop := {
  fr_bytes : Forall is_byte img;
  fr_read o pos n : ok o → ∃ r got o', ioreadat o pos n = (r, got, o') ∧ ok o' ∧
    (0 ≤ n → Z.of_nat (length got) ≤ n) ∧ (0 < n → r = n → got = slice pos n img)
}.

Lemma field_nonneg off n d : Forall is_byte d → 0 ≤ field off n d.
Proof. intros Hd. apply le_val_bound. unfold slice. by apply Forall_take, Forall_drop. Qed.

Section confined.
Context {St : Type} (img : list Z) (ok : io St → Prop) `{!FileReader img ok} (Hwrap : no_wrap img).
Implicit Types (s : esys St memory).

Lemma user_window m a bs x : UMEM_START_VMA ≤ a → a + Z.of_nat (length bs) ≤ UMEM_END_VMA → 0 ≤ x < 2 ^ 64 → ¬ user_addr x →
  copy_in m a bs x = m x.
Proof.
  unfold user_addr, UMEM_START_VMA, UMEM_END_VMA. intros H1 H2 Hx Hu. unfold copy_in.
  destruct (window x a (Z.of_nat (length bs))) as [-> _]; [lia..|]. destruct (Z.leb_spec a x), (Z.ltb_spec x (a + Z.of_nat (length bs))); simpl; lia || done.
Qed.

Lemma user_memset m a c n x : UMEM_START_VMA ≤ a → 0 ≤ n → a + n ≤ UMEM_END_VMA → 0 ≤ x < 2 ^ 64 → ¬ user_addr x →
  memset m a c n x = m x.
Proof.
  unfold user_addr, UMEM_START_VMA, UMEM_END_VMA. intros H1 Hn H2 Hx Hu. unfold memset.
  destruct (window x a n) as [-> _]; [lia..|]. destruct (Z.leb_spec a x), (Z.ltb_spec x (a + n)); simpl; lia || done.
Qed.

Lemma load_segment_confined s ph :
  ok (elfio s) → 0 ≤ p_vaddr ph → 0 ≤ p_filesz ph → p_vaddr ph + p_memsz ph < 2 ^ 64 →
  ∃ r s', load_segment ph s = (r, s') ∧ (r = Ret tt ∨ rejected r) ∧ kept (umem s) (umem s') ∧ ok (elfio s').
Proof.
  intros Ho Hv Hf Hw. unfold load_segment.
  destruct (Z.ltb_spec (p_vaddr ph) UMEM_START_VMA) as [H1|H1]; [kept_stop s|].
  destruct (Z.ltb_spec UMEM_END_VMA (u64 (p_vaddr ph + p_memsz ph))) as [H2|H2]; [kept_stop s|].
  destruct (Z.ltb_spec (p_memsz ph) (p_filesz ph)) as [H3|H3]; [kept_stop s|].
  rewrite u64_small in H2 by lia.
  assert (s64 (p_filesz ph) = p_filesz ph) as Es by (unfold s64, UMEM_START_VMA, UMEM_END_VMA in *; rewrite Z.mod_small; lia).
  rewrite Es. set (rd := (if 0 <? p_filesz ph then _ else _)).
  assert (∃ r s1, rd s = (r, s1) ∧ (r = Ret tt ∨ rejected r) ∧ kept (umem s) (umem s1) ∧ ok (elfio s1)) as (r & s1 & E & Hr & Hk & Ho1).
  { unfold rd. destruct (Z.ltb_spec 0 (p_filesz ph)) as [H0|H0]; [|kept_stop s].
    destruct (fr_read (elfio s) (p_offset ph) (p_filesz ph) Ho) as (n & got & o' & Er & Ho' & Hlen & _).
    unfold read_user, read_struct, mbind, M_bind. rewrite Er. cbn [on_user umem elfio ustore flat_memory modify]. cbv delta [mret M_ret]. cbv beta iota.
    assert (kept (umem s) (copy_in (umem s) (p_vaddr ph) got)) as Hk by (intros x Hx Hu; apply user_window; [lia|lia|done|done]).
    destruct (negb (n =? p_filesz ph)); (eexists _, _; split; [reflexivity|]; split_and!; [|exact Hk|done]); [by right; right|by left]. }
  destruct Hr as [->|Hr].
  2: { eexists _, s1. split; [unfold mbind, M_bind; rewrite E; destruct Hr as [->| ->]; reflexivity|].
       split_and!; [right; destruct Hr as [->| ->]; [by left|by right]|done|done]. }
  krun E. destruct (Z.ltb_spec (p_filesz ph) (p_memsz ph)) as [H4|H4]; [|kept_stop s1].
  eexists _, _. split; [reflexivity|]. split_and!; [by left| |done]. intros x Hx Hu. cbn [umem]. unfold UMEM_START_VMA, UMEM_END_VMA in *.
  rewrite !u64_small by lia. rewrite user_memset; [by apply Hk|unfold UMEM_START_VMA; lia|lia|unfold UMEM_END_VMA; lia|done|done].
Qed.

Lemma load_segments_confined n : ∀ i s, ok (elfio s) → let eh := ehdr_of_bytes (slice 0 EHSZ img) in
  0 ≤ i → i + Z.of_nat n ≤ e_phnum eh →
  ∃ r s', load_segments eh i n s = (r, s') ∧ (r = Ret tt ∨ rejected r) ∧ kept (umem s) (umem s') ∧ ok (elfio s').
Proof.
  induction n as [|n IH]; intros i s Ho eh Hi Hn; [kept_stop s|]. cbn [load_segments]. unfold read_struct at 1, mbind at 1, M_bind at 1.
  set (pos := u64 (e_phoff eh + i * PHSZ)). destruct (fr_read (elfio s) pos PHSZ Ho) as (n0 & got & o' & Er & Ho' & _ & Hgot).
  rewrite Er. set (s1 := ESys o' (umem s)).
  destruct (Z.eqb_spec n0 PHSZ) as [->|Hne]; cbn [negb]; [|kept_stop s1].
  rewrite (Hgot ltac:(unfold PHSZ; lia) eq_refl). change (phdr_of_bytes (slice pos PHSZ img)) with (header_at img i). set (ph := header_at img i).
  assert (∃ r s2, (if negb (p_type ph =? PT_LOAD) then mret tt else load_segment ph) s1 = (r, s2) ∧ (r = Ret tt ∨ rejected r) ∧
    kept (umem s) (umem s2) ∧ ok (elfio s2)) as (r & s2 & E & Hr & Hk & Ho2).
  { destruct (p_type ph =? PT_LOAD) eqn:Et; cbn [negb]; [|kept_stop s1].
    assert (Forall is_byte (slice pos PHSZ img)) as Hb by (unfold slice; apply Forall_take, Forall_drop, (fr_bytes (ok := ok))).
    apply (load_segment_confined s1 ph Ho'); [by apply field_nonneg|by apply field_nonneg|]. apply Hwrap; [fold eh; lia|done]. }
  destruct Hr as [->|Hr].
  - krun E. destruct (IH (i + 1) s2 Ho2) as (r & s3 & E3 & Hr & Hk' & Ho3); [lia|fold eh; lia|]. fold eh in E3. exists r, s3. split_and!; try done.
    intros x Hx Hu. by rewrite Hk', Hk.
  - exists (match r with Fail c => Fail c | _ => Panic end), s2. destruct Hr as [->| ->]; (split; [unfold mbind, M_bind; by rewrite E|]); split_and!;
      [by right; left|done|done|by right; right|done|done].
Qed.


End confined.

(** ** Files in memory *)

Definition mem_file (img : list Z) : io memio := ioinit1 (MemIo img (Z.of_nat (length img))) memio_iointf.

Lemma mem_file_image img : Z.of_nat (length img) < 2 ^ 63 → FileImage (mem_file img) img.
Proof.
  intros Hl. split; [done|]. intros pos n Hp Hn Hb. unfold ioreadat, mem_file. cbn [intf ioinit1 memio_iointf i_readat ist].
  rewrite (proj2 (Z.ltb_ge n 0)) by lia. rewrite memio_readat_in; [done| |lia|lia|simpl; lia|lia]. split; simpl; lia.
Qed.

Lemma mem_file_reader img : Z.of_nat (length img) < 2 ^ 63 → Forall is_byte img → FileReader img (λ o, o = mem_file img).
Proof.
  intros Hl Hb. split; [done|]. intros o pos n ->. unfold ioreadat, mem_file. cbn [intf ioinit1 memio_iointf i_readat ist]. unfold memio_readat. cbn [m_size m_buf].
  destruct (Z.ltb_spec n 0) as [H0|H0]; [eexists _, _, _; split; [reflexivity|]; split; [done|]; split; intros; exfalso; lia|].
  destruct (Z.leb_spec (Z.of_nat (length img)) pos) as [H1|H1]; [eexists _, _, _; split; [reflexivity|]; split; [done|]; split; [done|]; intros; exfalso; lia|].
  cbv zeta. set (k := if u64 _ <? n then _ else n). eexists k, (slice pos k img), _. split; [done|]. split; [done|].
  pose proof (u64_range (Z.of_nat (length img) - pos)). assert (0 ≤ k ≤ n) as Hk by (unfold k; destruct (Z.ltb_spec (u64 (Z.of_nat (length img) - pos)) n); lia).
  split; [intros _; unfold slice; rewrite length_take; lia|]. by intros _ ->.
Qed.

(** An executable with one segment of the bytes [body]. *)
Definition demo_elf (vaddr memsz entry : Z) (body : list Z) : list Z :=
  [127; 69; 76; 70; 2; 1; 1] ++ replicate 9 0 ++ le_bytes 2 2 ++ le_bytes 2 243 ++ le_bytes 4 1 ++ le_bytes 8 entry ++
  le_bytes 8 64 ++ le_bytes 8 0 ++ le_bytes 4 0 ++ le_bytes 2 64 ++ le_bytes 2 56 ++ le_bytes 2 1 ++ replicate 6 0 ++
  le_bytes 4 1 ++ le_bytes 4 5 ++ le_bytes 8 120 ++ le_bytes 8 vaddr ++ le_bytes 8 vaddr ++
  le_bytes 8 (Z.of_nat (length body)) ++ le_bytes 8 memsz ++ le_bytes 8 4096 ++ body.

(** Such a file is loaded by loading its segment. *)
Lemma demo_elf_load vaddr memsz entry body m ph :
  let img := demo_elf vaddr memsz entry body in
  Z.of_nat (length img) < 2 ^ 63 → phdr_of_bytes (slice 64 PHSZ img) = ph → p_type ph = PT_LOAD →
  valid_ehdr (ehdr_of_bytes (slice 0 EHSZ img)) = true → e_phnum (ehdr_of_bytes (slice 0 EHSZ img)) = 1 →
  e_phoff (ehdr_of_bytes (slice 0 EHSZ img)) = 64 → 120 ≤ Z.of_nat (length img) →
  elf_load (ESys (mem_file img) m) = (load_segment ph;; mret (e_entry (ehdr_of_bytes (slice 0 EHSZ img)))) (ESys (mem_file img) m).
Proof.
  intros img Hl Hph Ht Hv Hn Ho Hlen. pose proof (mem_file_image img Hl) as Hfile. unfold EHSZ, PHSZ in *. unfold elf_load.
  unfold read_struct, mbind at 1, M_bind at 1. cbn [elfio umem]. rewrite fi_read by (unfold EHSZ; lia). unfold EHSZ. rewrite Z.eqb_refl, Hv, Hn.
  change (Z.to_nat 1) with 1%nat. cbn [negb load_segments]. rewrite Ho. unfold read_struct, mbind, M_bind. cbn [elfio umem].
  rewrite u64_small by (unfold PHSZ; lia). rewrite fi_read by (unfold PHSZ; lia).
  unfold PHSZ. rewrite Z.mul_0_l, Z.add_0_r, Hph, Ht. cbn [negb Z.eqb Pos.eqb PT_LOAD]. by destruct (load_segment ph _) as [[]].
Qed.

(** The range check can be passed by a segment that is not in user memory:
    its end wraps around to 0, and loading clears every byte up to the top of
    the address space. *)
Lemma elf_wrap_escapes m :
  let img := demo_elf UMEM_START_VMA (2 ^ 64 - UMEM_START_VMA) 0 [1; 2; 3; 4] in
  ∃ m', elf_load (ESys (mem_file img) m) = (Ret 0, ESys (mem_file img) m') ∧ ∀ x, UMEM_END_VMA ≤ x < 2 ^ 64 → m' x = 0.
Proof.
  intros img.
  exists (memset (copy_in m UMEM_START_VMA [1; 2; 3; 4]) (UMEM_START_VMA + 4) 0 (2 ^ 64 - UMEM_START_VMA - 4)).
  split.
  { unfold img. rewrite (demo_elf_load _ _ _ _ m (Phdr 1 5 120 UMEM_START_VMA UMEM_START_VMA 4 (2 ^ 64 - UMEM_START_VMA) 4096)) by (by vm_compute).
    done. }
  intros x Hx. unfold memset. unfold UMEM_START_VMA, UMEM_END_VMA in *.
  by rewrite u64_small, (proj2 (Z.ltb_lt _ _)) by lia.
Qed.

Definition demo_img : list Z := demo_elf 0xC0001000 16 0xC0001000 [1; 2; 3; 4].

Definition demo_mem : memory := λ _, 255.

(** Four bytes and twelve zeros at 0xC0001000. *)
Lemma elf_load_correct_witness :
  ∃ m', elf_load (ESys (mem_file demo_img) demo_mem) = (Ret 0xC0001000, ESys (mem_file demo_img) m') ∧
    meq m' (foldl (seg_image demo_img) demo_mem (filter is_load (header_table demo_img (ehdr_of_bytes (slice 0 EHSZ demo_img))))).
Proof.
  pose proof (mem_file_image demo_img eq_refl).
  apply (elf_load_correct (mem_file demo_img) demo_img demo_mem); [by vm_compute..|].
  assert (filter is_load (header_table demo_img (ehdr_of_bytes (slice 0 EHSZ demo_img))) = [Phdr 1 5 120 0xC0001000 0xC0001000 4 16 4096]) as ->
    by (by vm_compute).
  repeat constructor; by vm_compute.
Defined.

Lemma demo_img_bytes : Forall is_byte demo_img.
Proof. apply (bool_decide_unpack _). by vm_compute. Qed.


End Elf.
