(* ===== verification/UserMem.v ===== *)
(** * User memory behind the page tables

    The kernel reads and writes user memory through the active page tables.  An
    access to a page that is not mapped is a page fault in the kernel, which
    kernel/excp.c resolves with a zero-filled page (or else panics, Excp.v).
    The state has the memory manager and the bytes that loads at mapped
    addresses return. *)

From S2P Require Import Prelude Config PhysPages PageTable PageTableProofs Elf.
Import PhysPages PageTable PageTableProofs Elf.

Module UserMem.

Record paged := Paged { pmm : mm; view : memory }.
Implicit Types (p : paged) (s : mm) (m : memory) (va : Z).

Definition tr s va : option (Z * Z) := translate (words s) (active_space_ptab s) va.
Definition mapped s va : bool := bool_decide (is_Some (tr s va)).
Definition on_pmm {A} (f : M mm A) : M paged A := λ p, let (r, x) := f (pmm p) in (r, Paged x (view p)).

Definition page_base va : Z := va - va mod PAGE_SIZE.

(** An access at [va]. *)
Definition touch va : M paged unit :=
  ok ← gets (λ p, mapped (pmm p) va);
  if (ok : bool) then mret tt
  else
    r ← on_pmm (handle_umode_page_fault va);
    if r =? 0 then panic else modify (λ p, Paged (pmm p) (memset (view p) (page_base va) 0 PAGE_SIZE)).

(** The accesses to [n] bytes from [a] on touch their pages in order. *)
Fixpoint touch_pages (n : nat) va : M paged unit :=
  match n with O => mret tt | S n => touch va;; touch_pages n (page_base va + PAGE_SIZE) end.
Definition page_count (a n : Z) : nat := if n <=? 0 then O else Z.to_nat ((a + n - 1) / PAGE_SIZE - a / PAGE_SIZE + 1).
Definition access (a n : Z) : M paged unit := touch_pages (page_count a n) a.

Definition load (a n : Z) : M paged (list Z) :=
  access a n;; gets (λ p, (λ i : nat, view p (u64 (a + Z.of_nat i))) <$> seq 0 (Z.to_nat n)).
Definition store (a : Z) (bs : list Z) : M paged unit :=
  access a (Z.of_nat (length bs));; modify (λ p, Paged (pmm p) (copy_in (view p) a bs)).
Definition fill (a c n : Z) : M paged unit := access a n;; modify (λ p, Paged (pmm p) (memset (view p) a c n)).

#[global] Instance paged_memory : UserMemory paged := {| ustore := store; ufill := fill |}.

(** What an access at [va] finds. *)
Definition seen p va : Z := if mapped (pmm p) va then view p va else 0.

(** ** Pages *)

Lemma user_vpage va : user_addr va → vpage va = va / PAGE_SIZE.
Proof.
  unfold user_addr, UMEM_START_VMA, UMEM_END_VMA, vpage. change PAGE_SIZE with 4096. intros Hva. apply Z.mod_small.
  split; [apply Z.div_pos; lia|apply Z.div_lt_upper_bound; lia].
Qed.

Lemma user_wellformed va : user_addr va → wellformed va = true.
Proof.
  unfold user_addr, UMEM_START_VMA, UMEM_END_VMA, wellformed. intros Hva.
  assert (s64 va = va) as -> by (unfold s64; rewrite Z.mod_small by lia; lia). by rewrite Z.shiftr_div_pow2, Z.div_small by lia.
Qed.

Lemma tr_page s va vb : vpage va = vpage vb → is_Some (tr s va) ↔ is_Some (tr s vb).
Proof.
  intros E. unfold tr, translate. rewrite (proj2 (vpns_page va vb) E). destruct (xlate _ _ _) as [[e b]|]; [|done].
  destruct (_ =? 0); split; (intros [? ?]; done || by eexists).
Qed.

Lemma mapped_page s va vb : vpage va = vpage vb → mapped s va = mapped s vb.
Proof. intros E. unfold mapped. apply bool_decide_ext. by apply tr_page. Qed.

Lemma mapped_iff s va : mapped s va = true ↔ tr s va ≠ None.
Proof. unfold mapped. rewrite bool_decide_eq_true. by rewrite <- not_eq_None_Some. Qed.
Lemma unmapped_iff s va : mapped s va = false ↔ tr s va = None.
Proof. unfold mapped. rewrite bool_decide_eq_false, eq_None_not_Some. done. Qed.

(** The bytes of a page. *)
Lemma page_window va x : user_addr va → user_addr x →
  (u64 (x - page_base va) <? PAGE_SIZE) = bool_decide (vpage x = vpage va).
Proof.
  intros Hva Hx. rewrite !user_vpage by done. unfold user_addr, UMEM_START_VMA, UMEM_END_VMA, page_base in *. change PAGE_SIZE with 4096.
  pose proof (Z.mod_pos_bound va 4096 ltac:(lia)).
  destruct (window x (va - va mod 4096) 4096) as [-> _]; [lia..|].
  case_bool_decide as E; [apply andb_true_iff; split; kbool; Z.div_mod_to_equations; lia|].
  apply andb_false_iff. destruct (decide (va - va mod 4096 ≤ x)); [right|left]; kbool; Z.div_mod_to_equations; lia.
Qed.

(** ** Growing a space by faults *)

Section grow.
Context (s0 : mm) (l0 : list (Z * Z)).
Context (Hns : ∀ va, user_addr va → ¬ superpage (words s0) (active_space_ptab s0) va).

(** [k] pages were touched since [s0], those in [T] among them; [m] is what
    user memory shows. *)
Record grown (k : nat) (T : Z → Prop) p m : Prop := {
  gw_space : ∃ l, space_ok (pmm p) l ∧ (length (pages l0) ≤ 3 * k + length (pages l))%nat ∧ (∀ x, x ∈ pages l → x ∈ pages l0);
  gw_satp : satp (pmm p) = satp s0;
  gw_super va : superpage (words (pmm p)) (active_space_ptab (pmm p)) va → superpage (words s0) (active_space_ptab s0) va;
  gw_old va e : tr s0 va = Some e → tr (pmm p) va = Some e;
  gw_new va : tr s0 va = None →
    (¬ T (vpage va) ∧ tr (pmm p) va = None) ∨ (T (vpage va) ∧ ∃ pp, pp ∈ pages l0 ∧ tr (pmm p) va = Some (pp + va mod PAGE_SIZE, 0xDF));
  gw_seen x : user_addr x → seen p x = m x
}.

Lemma grown_mapped k T p m va : grown k T p m → T (vpage va) → mapped (pmm p) va = true.
Proof.
  intros Hg HT. apply mapped_iff. destruct (tr s0 va) as [e|] eqn:E; [by rewrite (gw_old _ _ _ _ Hg va e E)|].
  destruct (gw_new _ _ _ _ Hg va E) as [[? _]|(_ & pp & _ & ->)]; done.
Qed.

Lemma grown_ext k T T' p m : (∀ x, T x ↔ T' x) → grown k T p m → grown k T' p m.
Proof. intros HT [H1 H2 H3 H4 H5 H6]. split; [exact H1|exact H2|exact H3|exact H4| |exact H6]. intros va E. destruct (H5 va E) as [[? ?]|[? ?]]; [left|right]; (split; [by rewrite <- HT|done]). Qed.

Lemma grown_meq k T p m m' : meq m m' → grown k T p m → grown k T p m'.
Proof.
  intros Em [H1 H2 H3 H4 H5 H6]. split; [exact H1|exact H2|exact H3|exact H4|exact H5|]. intros x Hx. rewrite H6 by done. apply Em.
  unfold user_addr, UMEM_START_VMA, UMEM_END_VMA in Hx. lia.
Qed.

Lemma grown_init v : space_ok s0 l0 → grown 0 (λ _, False) (Paged s0 v) (seen (Paged s0 v)).
Proof. intros Hs. split; try done; [exists l0; split_and!; [done|lia|done]|]. intros va E. left. split; [tauto|exact E]. Qed.

(** A fault. *)
Lemma fault_ok k T p m va :
  grown k T p m → user_addr va → mapped (pmm p) va = false → (3 * S k ≤ length (pages l0))%nat →
  ∃ p', touch va p = (Ret tt, p') ∧ grown (S k) (λ x, T x ∨ x = vpage va) p' m.
Proof.
  intros [(l & Hsp & Hlen & Hsub) Hsatp Hsup Hold Hnew Hseen] Hva Hun Hk.
  destruct (user_fault_page (pmm p) l va Hsp Hva) as (s' & l' & pp & Hrun & Hsp' & Hsatp' & Hlen' & Hsub' & Hpp & Hsup' & Htr');
    [by intros ?%Hsup%Hns|lia|].
  eexists. split.
  { unfold touch. kgets. rewrite Hun. assert (on_pmm (handle_umode_page_fault va) p = (Ret 1, Paged s' (view p))) as E by (unfold on_pmm; by rewrite Hrun).
    krun E. reflexivity. }
  apply unmapped_iff in Hun. cbn [pmm view]. fold (tr (pmm p)) in Htr'.
  assert (∀ x, tr s' x = if decide (vpage x = vpage va) then Some (pp + x mod PAGE_SIZE, 0xDF) else tr (pmm p) x) as Htr by exact Htr'.
  assert (∀ x, vpage x = vpage va → tr (pmm p) x = None) as Hpage.
  { intros x E. apply unmapped_iff. by rewrite (mapped_page _ _ _ E), unmapped_iff. }
  split; cbn [pmm view].
  - exists l'. split_and!; [done|lia|auto].
  - congruence.
  - auto.
  - intros x e E. rewrite Htr. case_decide as Ev; [|auto]. apply Hold in E. by rewrite Hpage in E.
  - intros x E. rewrite Htr. case_decide as Ev; [right; split; [by right|eauto]|].
    destruct (Hnew x E) as [[? ?]|[? ?]]; [left|right]; split; [by intros [?|?]|done|by left|done].
  - intros x Hx. rewrite <- Hseen by done. unfold seen. cbn [pmm view]. unfold memset. rewrite page_window by done.
    case_bool_decide as Ev.
    + assert (mapped s' x = true) as -> by (apply mapped_iff; by rewrite Htr, decide_True).
      assert (mapped (pmm p) x = false) as -> by (apply unmapped_iff; auto). done.
    + assert (mapped s' x = mapped (pmm p) x) as ->; [|done]. unfold mapped. by rewrite Htr, decide_False.
Qed.

Lemma user_touch_ok k T p m va :
  grown k T p m → user_addr va → (3 * S k ≤ length (pages l0))%nat →
  ∃ p', touch va p = (Ret tt, p') ∧ grown (S k) (λ x, T x ∨ x = vpage va) p' m.
Proof.
  intros Hg Hva Hk. destruct (mapped (pmm p) va) eqn:Hm; [|by apply fault_ok].
  exists p. split; [unfold touch; kgets; by rewrite Hm|]. destruct Hg as [(l & ? & ? & ?) H2 H3 H4 H5 H6].
  split; [exists l; split_and!; [done|lia|done]|exact H2|exact H3|exact H4| |exact H6].
  intros x E. destruct (H5 x E) as [[HnT Hn]|[HT ?]]; [|right; split; [by left|done]].
  left. split; [|done]. intros [?|Ex]; [done|]. rewrite <- (mapped_page _ _ _ Ex) in Hm. apply mapped_iff in Hm. done.
Qed.

Definition in_pages (a n x : Z) : Prop := a / PAGE_SIZE ≤ x ≤ (a + n - 1) / PAGE_SIZE.

Lemma touch_pages_ok n : ∀ k T p m va,
  grown k T p m → user_addr va → va / PAGE_SIZE + Z.of_nat n ≤ UMEM_END_VMA / PAGE_SIZE → (3 * (k + n) ≤ length (pages l0))%nat →
  ∃ p', touch_pages n va p = (Ret tt, p') ∧ grown (k + n) (λ x, T x ∨ va / PAGE_SIZE ≤ x < va / PAGE_SIZE + Z.of_nat n) p' m.
Proof.
  induction n as [|n IH]; intros k T p m va Hg Hva Hend Hk.
  { exists p. split; [done|]. rewrite Nat.add_0_r. apply (grown_ext _ T); [intros x; split; [by left|intros [?|?]; [done|lia]]|done]. }
  cbn [touch_pages]. destruct (user_touch_ok k T p m va Hg Hva ltac:(lia)) as (p1 & R1 & Hg1). krun R1.
  rewrite (user_vpage va Hva) in Hg1. set (vb := page_base va + PAGE_SIZE).
  assert (vb / PAGE_SIZE = va / PAGE_SIZE + 1) as Eb.
  { unfold vb, page_base. change PAGE_SIZE with 4096. Z.div_mod_to_equations. lia. }
  destruct n as [|n].
  - exists p1. split; [done|]. replace (k + 1)%nat with (S k) by lia. apply (grown_ext _ _ _ _ _ ) with (2 := Hg1). intros x. split; intros [?|?]; [by left|right; lia|by left|right; lia].
  - destruct (IH (S k) _ p1 m vb Hg1) as (p2 & R2 & Hg2).
    + unfold user_addr, vb, page_base, UMEM_START_VMA, UMEM_END_VMA in *. change PAGE_SIZE with 4096 in *.
      Z.div_mod_to_equations. lia.
    + rewrite Eb. lia.
    + lia.
    + exists p2. split; [done|]. replace (k + S (S n))%nat with (S k + S n)%nat by lia. apply (grown_ext _ _ _ _ _) with (2 := Hg2).
      intros x. rewrite Eb. split; [intros [ [?|?]|?]|intros [?|?]]; [by left|right; lia|right; lia|by left; left|].
      destruct (decide (x = va / PAGE_SIZE)); [left; by right|right; lia].
Qed.

Lemma access_ok k T p m a n :
  grown k T p m → UMEM_START_VMA ≤ a → 0 < n → a + n ≤ UMEM_END_VMA → (3 * (k + page_count a n) ≤ length (pages l0))%nat →
  ∃ p', access a n p = (Ret tt, p') ∧ grown (k + page_count a n) (λ x, T x ∨ in_pages a n x) p' m.
Proof.
  intros Hg Ha Hn Hend Hk. assert (user_addr a) as Hu by (unfold user_addr; lia).
  assert (Z.of_nat (page_count a n) = (a + n - 1) / PAGE_SIZE - a / PAGE_SIZE + 1) as Ec.
  { unfold page_count. rewrite (proj2 (Z.leb_gt _ _)) by lia. change PAGE_SIZE with 4096. pose proof (Z.div_le_mono a (a + n - 1) 4096). lia. }
  destruct (touch_pages_ok (page_count a n) k T p m a Hg Hu) as (p' & R & Hg'); [|done|].
  { rewrite Ec. unfold UMEM_END_VMA in *. change PAGE_SIZE with 4096. Z.div_mod_to_equations. lia. }
  exists p'. split; [done|]. apply (grown_ext _ _ _ _ _) with (2 := Hg'). intros x. unfold in_pages. rewrite Ec. split; (intros [?|?]; [by left|right; lia]).
Qed.

(** Writing to a range whose pages were touched. *)
Lemma grown_write k T p m a n (f : memory → memory) :
  (∀ x v, user_addr x → (u64 (x - a) <? n) = false → f v x = v x) → (∀ x v v', user_addr x → (u64 (x - a) <? n) = true → f v x = f v' x) →
  UMEM_START_VMA ≤ a → 0 < n → a + n ≤ UMEM_END_VMA → (∀ x, in_pages a n x → T x) →
  grown k T p m → grown k T (Paged (pmm p) (f (view p))) (f m).
Proof.
  intros Hout Hin Ha Hn Hend HT Hg. pose proof Hg as [H1 H2 H3 H4 H5 H6]. split; [exact H1|exact H2|exact H3|exact H4|exact H5|].
  intros x Hx. unfold seen in *. cbn [pmm view]. destruct (u64 (x - a) <? n) eqn:E.
  - rewrite (grown_mapped _ _ _ _ x Hg); [by apply Hin|]. apply HT. rewrite user_vpage by done. unfold in_pages.
    unfold user_addr, UMEM_START_VMA, UMEM_END_VMA in *. destruct (window x a n) as [W _]; [lia..|]. rewrite W in E. kbool.
    change PAGE_SIZE with 4096. split; apply Z.div_le_mono; lia.
  - rewrite !Hout by done. by apply H6.
Qed.

Lemma user_store_ok k T p m a bs :
  grown k T p m → UMEM_START_VMA ≤ a → bs ≠ [] → a + Z.of_nat (length bs) ≤ UMEM_END_VMA →
  (3 * (k + page_count a (Z.of_nat (length bs))) ≤ length (pages l0))%nat →
  ∃ p', store a bs p = (Ret tt, p') ∧
    grown (k + page_count a (Z.of_nat (length bs))) (λ x, T x ∨ in_pages a (Z.of_nat (length bs)) x) p' (copy_in m a bs).
Proof.
  intros Hg Ha Hne Hend Hk. assert (0 < Z.of_nat (length bs)) as H0 by (destruct bs; [done|simpl; lia]).
  destruct (access_ok k T p m a (Z.of_nat (length bs)) Hg Ha H0 Hend Hk) as (p1 & R & Hg1).
  eexists. split; [unfold store; krun R; reflexivity|].
  apply (grown_write _ _ p1 m a (Z.of_nat (length bs)) (λ v, copy_in v a bs)); [| |done|done|done|by right|done].
  - intros x v _ E. unfold copy_in. by rewrite E.
  - intros x v v' _ E. unfold copy_in. by rewrite E.
Qed.

Lemma user_fill_ok k T p m a c n :
  grown k T p m → UMEM_START_VMA ≤ a → 0 < n → a + n ≤ UMEM_END_VMA → (3 * (k + page_count a n) ≤ length (pages l0))%nat →
  ∃ p', fill a c n p = (Ret tt, p') ∧ grown (k + page_count a n) (λ x, T x ∨ in_pages a n x) p' (memset m a c n).
Proof.
  intros Hg Ha Hn Hend Hk. destruct (access_ok k T p m a n Hg Ha Hn Hend Hk) as (p1 & R & Hg1).
  eexists. split; [unfold fill; krun R; reflexivity|].
  apply (grown_write _ _ p1 m a n (λ v, memset v a c n)); [| |done|done|done|by right|done].
  - intros x v _ E. unfold memset. by rewrite E.
  - intros x v v' _ E. unfold memset. by rewrite E.
Qed.

(** ** Loading a program into paged memory *)

Definition page_total (d : list (Z * Z)) : nat := foldr (λ r k, (page_count r.1 r.2 + k)%nat) 0%nat d.
Definition range_pages (d : list (Z * Z)) (x : Z) : Prop := ∃ r, r ∈ d ∧ in_pages r.1 r.2 x.

Lemma page_total_app d d' : page_total (d ++ d') = (page_total d + page_total d')%nat.
Proof. induction d as [|r d IH]; [done|]. cbn [app page_total foldr]. fold (page_total (d ++ d')) (page_total d). lia. Qed.
Lemma range_pages_snoc d r x : range_pages (d ++ [r]) x ↔ range_pages d x ∨ in_pages r.1 r.2 x.
Proof. unfold range_pages. set_solver. Qed.

(** [k0] and [T0] are the pages that were touched before. *)
Definition paged_shown (k0 : nat) (T0 : Z → Prop) : ShownMemory paged.
Proof.
  refine {| shows d p m := grown (k0 + page_total d) (λ x, T0 x ∨ range_pages d x) p m;
            fits d := (3 * (k0 + page_total d) ≤ length (pages l0))%nat |}.
  - intros d p m m'. apply grown_meq.
  - intros d d'. rewrite page_total_app. lia.
  - intros d p m a bs Ha Hne Hend Hg Hf. rewrite page_total_app in Hf |- *. unfold page_total at 2 in Hf. cbn [foldr fst snd] in Hf. rewrite Nat.add_0_r in Hf.
    destruct (user_store_ok _ _ p m a bs Hg Ha Hne Hend) as (p' & R & Hg'); [lia|]. exists p'. split; [done|].
    unfold page_total at 2. cbn [foldr fst snd]. rewrite Nat.add_0_r, Nat.add_assoc.
    apply (grown_ext _ _ _ _ _) with (2 := Hg'). intros x. rewrite range_pages_snoc. cbn [fst snd]. tauto.
  - intros d p m a c n Ha Hn Hend Hg Hf. rewrite page_total_app in Hf |- *. unfold page_total at 2 in Hf. cbn [foldr fst snd] in Hf. rewrite Nat.add_0_r in Hf.
    destruct (user_fill_ok _ _ p m a c n Hg Ha Hn Hend) as (p' & R & Hg'); [lia|]. exists p'. split; [done|].
    unfold page_total at 2. cbn [foldr fst snd]. rewrite Nat.add_0_r, Nat.add_assoc.
    apply (grown_ext _ _ _ _ _) with (2 := Hg'). intros x. rewrite range_pages_snoc. cbn [fst snd]. tauto.
Defined.
End grow.

(** ** Accesses to mapped pages *)

Lemma touch_mapped p va : mapped (pmm p) va = true → touch va p = (Ret tt, p).
Proof. intros Hm. unfold touch. kgets. by rewrite Hm. Qed.

Lemma touch_pages_mapped n : ∀ p va, (∀ x, va ≤ x → x / PAGE_SIZE < va / PAGE_SIZE + Z.of_nat n → x = va ∨ x mod PAGE_SIZE = 0 → mapped (pmm p) x = true) →
  touch_pages n va p = (Ret tt, p).
Proof.
  induction n as [|n IH]; intros p va Hm; [done|]. cbn [touch_pages]. krun (touch_mapped p va (Hm va ltac:(lia) ltac:(lia) ltac:(by left))).
  apply IH. unfold page_base. change PAGE_SIZE with 4096 in *. intros x Hx Hd Ha. apply Hm; [|Z.div_mod_to_equations; lia|].
  - Z.div_mod_to_equations. lia.
  - right. destruct Ha as [->|?]; [|done]. Z.div_mod_to_equations. lia.
Qed.

Lemma access_mapped p a n : (∀ x, a ≤ x < a + n → mapped (pmm p) x = true) → access a n p = (Ret tt, p).
Proof.
  intros Hm. unfold access, page_count. destruct (Z.leb_spec n 0); [done|]. apply touch_pages_mapped. change PAGE_SIZE with 4096.
  intros x Hx Hd Ha. apply Hm. split; [done|]. destruct Ha as [->|Ha]; [lia|].
  rewrite Z2Nat.id in Hd by (Z.div_mod_to_equations; lia). Z.div_mod_to_equations. lia.
Qed.

(** Bytes that lie in mapped user memory below [limit], at addresses of which
    [ok] holds. *)
Definition holds_at (limit : Z) (ok : Z → Prop) p (a : Z) (bs : list Z) : Prop :=
  UMEM_START_VMA ≤ a ∧ a + Z.of_nat (length bs) ≤ limit ∧
  ∀ i b, bs !! i = Some b → let x := a + Z.of_nat i in ok x ∧ mapped (pmm p) x = true ∧ view p x = b.

Lemma user_load_ok limit ok p a bs : limit ≤ UMEM_END_VMA → holds_at limit ok p a bs → load a (Z.of_nat (length bs)) p = (Ret bs, p).
Proof.
  intros Hlim (Ha & Hend & Hb). unfold load.
  assert (access a (Z.of_nat (length bs)) p = (Ret tt, p)) as R.
  { apply access_mapped. intros x Hx. destruct (lookup_lt_is_Some_2 bs (Z.to_nat (x - a)) ltac:(lia)) as [b Hi].
    destruct (Hb _ _ Hi) as (_ & Hm & _). replace (a + Z.of_nat (Z.to_nat (x - a))) with x in Hm by lia. done. }
  krun R. unfold gets. do 2 f_equal. rewrite Nat2Z.id. apply list_eq. intros i. rewrite list_lookup_fmap.
  destruct (bs !! i) as [b|] eqn:Hi.
  - pose proof (lookup_lt_Some _ _ _ Hi). rewrite lookup_seq_lt by done. cbn [fmap option_fmap option_map]. f_equal.
    destruct (Hb _ _ Hi) as (_ & _ & <-). rewrite Nat.add_0_l, u64_small; [done|]. unfold UMEM_START_VMA, UMEM_END_VMA in *. lia.
  - apply lookup_ge_None in Hi. by rewrite (proj2 (lookup_ge_None _ _)) by (by rewrite length_seq).
Qed.

Lemma store_mapped p a bs : (∀ x, a ≤ x < a + Z.of_nat (length bs) → mapped (pmm p) x = true) →
  store a bs p = (Ret tt, Paged (pmm p) (copy_in (view p) a bs)).
Proof. intros Hm. unfold store. by krun (access_mapped p a _ Hm). Qed.

Lemma holds_at_app limit ok p a bs bs' : holds_at limit ok p a (bs ++ bs') → holds_at limit ok p (a + Z.of_nat (length bs)) bs'.
Proof.
  intros (Ha & Hend & Hb). rewrite length_app in Hend. split_and!; [lia|lia|]. intros i b Hi.
  destruct (Hb (length bs + i)%nat b) as (H1 & H2 & H3); [by rewrite lookup_app_r, Nat.add_comm, Nat.add_sub by lia|].
  replace (a + Z.of_nat (length bs) + Z.of_nat i) with (a + Z.of_nat (length bs + i)) by lia. done.
Qed.

Lemma holds_at_same limit ok p p' a bs :
  (∀ x, UMEM_START_VMA ≤ x < limit → ok x → mapped (pmm p) x = true → mapped (pmm p') x = true ∧ view p' x = view p x) →
  holds_at limit ok p a bs → holds_at limit ok p' a bs.
Proof.
  intros Hs (Ha & Hend & Hb). split_and!; [done|done|]. intros i b Hi. destruct (Hb i b Hi) as (H1 & H2 & <-).
  pose proof (lookup_lt_Some _ _ _ Hi). destruct (Hs (a + Z.of_nat i)) as [? ?]; [lia|done|done|]. by split_and!.
Qed.

End UserMem.
