(* ===== verification/Exec.v ===== *)
(** * Starting a program ([build_stack] and [process_exec] of kernel/process.c)

    The initial stack is one page, the highest of user memory.  [build_stack] is
    translated twice: with the arguments as strings and the page as a list of
    bytes, and, as [process_exec] runs it, with its accesses to the arguments
    and to the page in user memory (UserMem.v), which is the old program's
    memory with a zero page in the place of its stack page and the new program
    loaded over it.  [process_exec] combines the page allocator, the page tables,
    the loader and [build_stack]; its result is the trap frame it jumps to user
    mode with. *)

From S2P Require Import Prelude Config Io PhysPages PageTable PageTableProofs Strings Elf UserMem.
Import PhysPages PageTable PageTableProofs Str Elf UserMem.

Module Exec.

(** ** The initial stack *)

Implicit Types (page : list Z) (argv : list cstr).

Definition PTRSZ : Z := 8.
Definition STACK_BASE : Z := UMEM_END_VMA - PAGE_SIZE.

(** The sizes of the strings, added to [stksz] while they fit. *)
Fixpoint stack_size argv (stksz : Z) : option Z :=
  match argv with
  | [] => Some stksz
  | a :: rest =>
      let argsz := strlen (Some a) + 1 in
      if u64 (PAGE_SIZE - stksz) <? argsz then None else stack_size rest (stksz + argsz)
  end.

(** [newargv] and [p] are offsets in the page. *)
Fixpoint write_args (newargv i p : Z) argv page : list Z :=
  match argv with
  | [] => page
  | a :: rest =>
      let page := splice (newargv + PTRSZ * i) (le_bytes 8 (STACK_BASE + p)) page in
      let page := splice p (a ++ [0]) page in
      write_args newargv (i + 1) (p + (strlen (Some a) + 1)) rest page
  end.

Definition build_stack (argc : Z) argv page : Z * list Z :=
  if PAGE_SIZE / PTRSZ - 1 <? u64 argc then (- ENOMEM, page)
  else
    match stack_size (take (Z.to_nat argc) argv) ((argc + 1) * PTRSZ) with
    | None => (- ENOMEM, page)
    | Some stksz =>
        let stksz := ROUND_UP stksz 16 in
        let newargv := PAGE_SIZE - stksz in
        let page := write_args newargv 0 (newargv + PTRSZ * (argc + 1)) (take (Z.to_nat argc) argv) page in
        (stksz, splice (newargv + PTRSZ * argc) (le_bytes 8 0) page)
    end.

(** ** [process_exec] *)

Definition RISCV_SSTATUS_SPIE : Z := Z.shiftl 1 3.
Definition RISCV_SSTATUS_SPP : Z := Z.shiftl 1 8.

Record user_frame := UserFrame { u_sepc : Z; u_sp : Z; u_a0 : Z; u_a1 : Z; u_sstatus : Z }.

(** [build_stack] on user memory.  [argv] is the address of the vector; [fuel]
    bounds the length of a string. *)
Definition load_ptr (a : Z) : M paged Z := bs ← load a 8; mret (le_val bs).

Fixpoint strlen_loop (fuel : nat) (a : Z) : M paged Z :=
  match fuel with
  | O => λ p, (NoFuel, p)
  | S fuel => c ← load a 1; if getb 0 c 0 =? 0 then mret 0 else n ← strlen_loop fuel (u64 (a + 1)); mret (n + 1)
  end.
Definition strlen_at (fuel : nat) (a : Z) : M paged Z := if a =? 0 then mret 0 else strlen_loop fuel a.

Fixpoint arg_sizes (fuel n : nat) (argv i stksz : Z) : M paged (option Z) :=
  match n with
  | O => mret (Some stksz)
  | S n =>
      a ← load_ptr (u64 (argv + PTRSZ * i));
      len ← strlen_at fuel a;
      let argsz := len + 1 in
      if u64 (PAGE_SIZE - stksz) <? argsz then mret None else arg_sizes fuel n argv (i + 1) (stksz + argsz)
  end.

Fixpoint copy_args (fuel n : nat) (argv newargv i p : Z) : M paged unit :=
  match n with
  | O => mret tt
  | S n =>
      store (newargv + PTRSZ * i) (le_bytes 8 (STACK_BASE + (p - STACK_BASE)));;
      a ← load_ptr (u64 (argv + PTRSZ * i));
      len ← strlen_at fuel a;
      let argsz := len + 1 in
      a ← load_ptr (u64 (argv + PTRSZ * i));
      bs ← load a argsz;
      store p bs;;
      copy_args fuel n argv newargv (i + 1) (p + argsz)
  end.

Definition build_stack_at (fuel : nat) (argc argv : Z) : M paged Z :=
  if PAGE_SIZE / PTRSZ - 1 <? u64 argc then mret (- ENOMEM)
  else
    o ← arg_sizes fuel (Z.to_nat argc) argv 0 ((argc + 1) * PTRSZ);
    match o with
    | None => mret (- ENOMEM)
    | Some stksz =>
        let stksz := ROUND_UP stksz 16 in
        let newargv := STACK_BASE + PAGE_SIZE - stksz in
        copy_args fuel (Z.to_nat argc) argv newargv 0 (newargv + PTRSZ * (argc + 1));;
        store (newargv + PTRSZ * argc) (le_bytes 8 0);;
        mret stksz
    end.

Section exec.
Context {St : Type}.
#[local] Notation xsys := (esys St paged).

Definition on_mm {A} (f : M mm A) : M xsys A := on_user (on_pmm f).

Definition drop_stack {A} (rc : Z) : M xsys A := on_mm (unmap_and_free_range STACK_BASE PAGE_SIZE);; fail rc.

(** The part after the stack page is mapped. *)
Definition finish_exec (fuel : nat) (argc argv sstatus : Z) : M xsys user_frame := λ s,
  match elf_load s with
  | (Fail rc, s) => drop_stack rc s
  | (Ret entry, s) =>
      (stksz ← on_user (build_stack_at fuel argc argv);
       if stksz <? 0 then drop_stack stksz
       else
         let sp := UMEM_END_VMA - stksz in
         mret (UserFrame entry sp argc sp (Z.lor (Z.land sstatus (u64 (Z.lnot RISCV_SSTATUS_SPP))) RISCV_SSTATUS_SPIE))) s
  | (Panic, s) => (Panic, s)
  | (NoFuel, s) => (NoFuel, s)
  end.

(** [proc] is the current process, if there is one; [sstatus] is the status
    register.  Once the new page is mapped, it is what user memory shows. *)
Definition process_exec (fuel : nat) (proc : option nat) (argc argv sstatus : Z) : M xsys user_frame :=
  match proc with
  | None => fail (- EINVAL)
  | Some _ =>
      spp ← on_mm alloc_phys_page;
      if spp =? NULL then fail (- ENOMEM)
      else
        on_mm (zero_page spp);;
        r ← on_mm (map_page STACK_BASE spp (Z.lor PTE_R (Z.lor PTE_W PTE_U)));
        if r =? NULL then on_mm (free_phys_page spp);; fail (- ENOMEM)
        else
          on_user (modify (λ p, Paged (pmm p) (memset (view p) STACK_BASE 0 PAGE_SIZE)));;
          finish_exec fuel argc argv sstatus
  end.
End exec.

(** ** What the program finds on its stack *)

Definition total argv : Z := foldr (λ a n, Z.of_nat (length a) + 1 + n) 0 argv.

Lemma total_nonneg argv : 0 ≤ total argv.
Proof. induction argv; simpl; lia. Qed.

Definition word64 (off : Z) page : Z := le_val (slice off 8 page).

(** The string at an offset, and the argument vector at an offset. *)
Fixpoint string_in (l : list Z) : cstr :=
  match l with [] => [] | c :: r => if c =? 0 then [] else c :: string_in r end.
Definition read_args (off : Z) (n : nat) page : list cstr :=
  (λ i : nat, string_in (drop (Z.to_nat (word64 (off + PTRSZ * Z.of_nat i) page - STACK_BASE)) page)) <$> seq 0 n.

Lemma string_in_app a r : Forall (λ c, 0 < c < 256) a → string_in (a ++ 0 :: r) = a.
Proof. induction 1 as [|c a Hc _ IH]; [done|]. simpl. by rewrite (proj2 (Z.eqb_neq c 0)), IH by lia. Qed.

Lemma stack_size_ok argv : ∀ n, 0 ≤ n ≤ PAGE_SIZE →
  stack_size argv n = if n + total argv <=? PAGE_SIZE then Some (n + total argv) else None.
Proof.
  change PAGE_SIZE with 4096. induction argv as [|a argv IH]; intros n Hn.
  - simpl. rewrite Z.add_0_r, (proj2 (Z.leb_le _ _)) by lia. done.
  - cbn [stack_size strlen]. change PAGE_SIZE with 4096. rewrite u64_small by lia. cbn [total foldr]. fold (total argv).
    pose proof (total_nonneg argv). destruct (Z.ltb_spec (4096 - n) (Z.of_nat (length a) + 1)).
    + by rewrite (proj2 (Z.leb_gt _ _)) by lia.
    + rewrite IH by lia. by rewrite <- !Z.add_assoc.
Qed.

(** Where [write_args] writes. *)
Definition untouched (A i p off n : Z) argv : Prop :=
  off + n ≤ A + PTRSZ * i ∨ A + PTRSZ * (i + Z.of_nat (length argv)) ≤ off ∧ off + n ≤ p ∨ p + total argv ≤ off.

Lemma write_args_ok A argv : ∀ i p page, length page = Z.to_nat PAGE_SIZE → 0 ≤ A → 0 ≤ i →
  A + PTRSZ * (i + Z.of_nat (length argv)) ≤ p → p + total argv ≤ PAGE_SIZE →
  let page' := write_args A i p argv page in
  length page' = Z.to_nat PAGE_SIZE ∧
  (∀ off n, 0 ≤ off → 0 ≤ n → untouched A i p off n argv → slice off n page' = slice off n page) ∧
  ∀ j a, argv !! j = Some a →
    let q := p + total (take j argv) in
    word64 (A + PTRSZ * (i + Z.of_nat j)) page' = STACK_BASE + q ∧ slice q (Z.of_nat (length a) + 1) page' = a ++ [0] ∧
    p ≤ q ∧ q + Z.of_nat (length a) + 1 ≤ p + total argv.
Proof.
  unfold untouched, PTRSZ. change PAGE_SIZE with 4096. induction argv as [|a argv IH]; intros i p page Hl HA Hi Hp Hb; [done|].
  cbn [write_args strlen]. cbn [length] in Hp. cbn [total foldr] in Hb. fold (total argv) in Hb. pose proof (total_nonneg argv) as Ht.
  unfold PTRSZ. set (page1 := splice (A + 8 * i) _ page). set (page2 := splice p (a ++ [0]) page1).
  assert (length page1 = Z.to_nat 4096) as Hl1 by (unfold page1; rewrite length_splice; [done|]; rewrite length_le_bytes; lia).
  assert (length (a ++ [0]) = S (length a)) as Hla by (rewrite length_app; simpl; lia).
  assert (length page2 = Z.to_nat 4096) as Hl2 by (unfold page2; rewrite length_splice; [done|]; rewrite Hla; lia).
  destruct (IH (i + 1) (p + (Z.of_nat (length a) + 1)) page2 Hl2 HA) as (Hl' & Hfr & Hargs); [lia|lia|lia|]. split_and!; [done| |].
  - intros off n Ho Hn Hu. cbn [length total foldr] in Hu. fold (total argv) in Hu. rewrite Hfr by lia.
    unfold page2. rewrite slice_splice_other by (rewrite ?Hla; lia). unfold page1. apply slice_splice_other; rewrite length_le_bytes; lia.
  - intros [|j] b Hj; cbn [take total foldr] in *; fold (total argv) in *.
    + injection Hj as <-. cbn [take total foldr]. rewrite !Z.add_0_r. split_and!; [| |lia|lia].
      * unfold word64. rewrite Hfr by lia. unfold page2. rewrite slice_splice_other by (rewrite ?Hla; lia).
        unfold page1. rewrite slice_splice_same; [|done|rewrite length_le_bytes; lia].
        apply le_val_bytes_small. unfold STACK_BASE, UMEM_END_VMA. change PAGE_SIZE with 4096. lia.
      * rewrite Hfr by lia. unfold page2. apply slice_splice_same; rewrite Hla; lia.
    + destruct (Hargs j b Hj) as (H1 & H2 & H3 & H4). fold (total (take j argv)).
      replace (p + (Z.of_nat (length a) + 1 + total (take j argv))) with (p + (Z.of_nat (length a) + 1) + total (take j argv)) by lia.
      split_and!; [|done|lia|lia]. rewrite <- H1. f_equal. lia.
Qed.

Definition need argv : Z := PTRSZ * (Z.of_nat (length argv) + 1) + total argv.

Lemma need_nonneg argv : 0 ≤ need argv.
Proof. unfold need, PTRSZ. pose proof (total_nonneg argv). lia. Qed.

(** What [build_stack] leaves in the page and returns. *)
Record stack_built argv page (sz : Z) page' : Prop := {
  sb_size : sz = ROUND_UP (need argv) 16;
  sb_fits : 0 < sz ≤ PAGE_SIZE;
  sb_len : length page' = Z.to_nat PAGE_SIZE;
  sb_low : slice 0 (PAGE_SIZE - sz) page' = slice 0 (PAGE_SIZE - sz) page;
  sb_args : read_args (PAGE_SIZE - sz) (length argv) page' = argv;
  sb_null : word64 (PAGE_SIZE - sz + PTRSZ * Z.of_nat (length argv)) page' = 0
}.

Lemma read_args_ok A argv page p :
  length page = Z.to_nat PAGE_SIZE → Forall is_cstr argv → 0 ≤ p →
  (∀ j a, argv !! j = Some a → let q := p + total (take j argv) in
     word64 (A + PTRSZ * Z.of_nat j) page = STACK_BASE + q ∧ slice q (Z.of_nat (length a) + 1) page = a ++ [0] ∧ p ≤ q) →
  read_args A (length argv) page = argv.
Proof.
  intros Hl Hs Hp Hargs. apply list_eq. intros j. unfold read_args. rewrite list_lookup_fmap.
  destruct (argv !! j) as [a|] eqn:Hj.
  - pose proof (lookup_lt_Some _ _ _ Hj). rewrite lookup_seq_lt by done. cbn [fmap option_fmap option_map]. f_equal.
    destruct (Hargs j a Hj) as (Hw & Hsl & Hq). rewrite Nat.add_0_l, Hw.
    replace (STACK_BASE + (p + total (take j argv)) - STACK_BASE) with (p + total (take j argv)) by lia.
    unfold slice in Hsl. rewrite <- (take_drop (Z.to_nat (Z.of_nat (length a) + 1)) (drop _ page)), Hsl, <- app_assoc.
    apply string_in_app. by apply (Forall_lookup_1 _ _ _ _ Hs Hj).
  - apply lookup_ge_None in Hj. by rewrite (proj2 (lookup_ge_None _ _)) by (by rewrite length_seq).
Qed.

Lemma build_stack_ok argv page :
  length page = Z.to_nat PAGE_SIZE → Forall is_cstr argv → Z.of_nat (length argv) < 2 ^ 31 →
  if PAGE_SIZE <? need argv then build_stack (Z.of_nat (length argv)) argv page = (- ENOMEM, page)
  else ∃ sz page', build_stack (Z.of_nat (length argv)) argv page = (sz, page') ∧ stack_built argv page sz page'.
Proof.
  intros Hl Hs Hn. pose proof (total_nonneg argv) as Ht. unfold build_stack. rewrite u64_small, Nat2Z.id, firstn_all by lia.
  change (PAGE_SIZE / PTRSZ - 1) with 511. unfold need, PTRSZ in *. change PAGE_SIZE with 4096 in *.
  destruct (Z.ltb_spec 511 (Z.of_nat (length argv))) as [Hbig|Hsmall].
  { rewrite (proj2 (Z.ltb_lt _ _)) by lia. done. }
  rewrite stack_size_ok by (change PAGE_SIZE with 4096; lia). change PAGE_SIZE with 4096.
  replace ((Z.of_nat (length argv) + 1) * 8) with (8 * (Z.of_nat (length argv) + 1)) by lia. fold PTRSZ. change 8 with PTRSZ. fold (need argv).
  destruct (Z.ltb_spec 4096 (need argv)) as [Hno|Hfit]; [by rewrite (proj2 (Z.leb_gt _ _))|]. rewrite (proj2 (Z.leb_le _ _)) by done.
  pose proof (ROUND_UP_spec (need argv) 16 ltac:(lia)) as [[Hr1 Hr2] Hr3]. remember (ROUND_UP (need argv) 16) as sz eqn:Esz.
  assert (0 < need argv) as H0 by (unfold need, PTRSZ; lia). assert (sz ≤ 4096) as Hsz by (Z.div_mod_to_equations; lia). cbv zeta.
  remember (4096 - sz) as A eqn:EA. set (page1 := write_args A 0 (A + PTRSZ * (Z.of_nat (length argv) + 1)) argv page).
  destruct (write_args_ok A argv 0 (A + PTRSZ * (Z.of_nat (length argv) + 1)) page) as (Hl1 & Hfr & Hargs);
    [done|lia|done|unfold PTRSZ; lia|change PAGE_SIZE with 4096; unfold need, PTRSZ in *; lia|]. fold page1 in Hl1, Hfr, Hargs.
  change PAGE_SIZE with 4096 in Hl1. unfold need, PTRSZ in H0, Hfit, Hr1, Hr2 |- *.
  eexists _, _. split; [reflexivity|]. split; [done|change PAGE_SIZE with 4096; lia| | | |]; change PAGE_SIZE with 4096; rewrite <- ?EA.
  - rewrite length_splice; [done|]. rewrite length_le_bytes. lia.
  - rewrite slice_splice_other; [|rewrite length_le_bytes; lia|left; lia]. apply Hfr; [done|lia|]. left. unfold PTRSZ. lia.
  - apply (read_args_ok _ _ _ (A + 8 * (Z.of_nat (length argv) + 1))); [rewrite length_splice; [done|]; rewrite length_le_bytes; lia|done|lia|].
    intros j a Hj. assert (j < length argv)%nat as Hjl by (by eapply lookup_lt_Some). destruct (Hargs j a Hj) as (Hw & Hsl & Hq & Hq'). unfold PTRSZ in *. rewrite Z.add_0_l in Hw.
    split_and!; [|rewrite slice_splice_other; [done|rewrite length_le_bytes; lia|right; rewrite length_le_bytes; lia]|done].
    rewrite <- Hw. unfold word64. rewrite slice_splice_other; [done|rewrite length_le_bytes; lia|left; lia].
  - unfold word64, PTRSZ. rewrite slice_splice_same; [done|done|rewrite length_le_bytes; lia].
Qed.

(** C14. The initial stack: arguments that do not fit on the stack page with
    their vector are refused and nothing is written; otherwise the page holds,
    at the returned size below the end of user memory, which is a multiple of
    16, an argument vector that ends in NULL and through which the program
    reads back exactly its arguments; the rest of the page is unchanged. *)
Theorem build_stack_correct argv page :
  length page = Z.to_nat PAGE_SIZE → Forall is_cstr argv → Z.of_nat (length argv) < 2 ^ 31 →
  if PAGE_SIZE <? need argv then build_stack (Z.of_nat (length argv)) argv page = (- ENOMEM, page)
  else ∃ sz page', build_stack (Z.of_nat (length argv)) argv page = (sz, page') ∧ stack_built argv page sz page' ∧ sz mod 16 = 0.
Proof.
  intros Hl Hs Hn. pose proof (build_stack_ok argv page Hl Hs Hn) as H. destruct (PAGE_SIZE <? need argv); [done|].
  destruct H as (sz & page' & E & Hb). exists sz, page'. split_and!; [done|done|]. rewrite (sb_size _ _ _ _ Hb). by apply ROUND_UP_spec.
Qed.

(** ** [build_stack] in user memory *)

(** The stack page as user memory shows it. *)
Definition stack_page (m : memory) : list Z := (λ i : nat, m (STACK_BASE + Z.of_nat i)) <$> seq 0 (Z.to_nat PAGE_SIZE).

Lemma length_stack_page m : length (stack_page m) = Z.to_nat PAGE_SIZE.
Proof. unfold stack_page. by rewrite length_fmap, length_seq. Qed.

Lemma stack_page_lookup m i : (i < Z.to_nat PAGE_SIZE)%nat → stack_page m !! i = Some (m (STACK_BASE + Z.of_nat i)).
Proof. intros Hi. unfold stack_page. rewrite list_lookup_fmap, lookup_seq_lt by done. done. Qed.

Lemma stack_window x a n : 0 ≤ x < 2 ^ 64 → STACK_BASE ≤ a → 0 ≤ n → a + n ≤ UMEM_END_VMA → (u64 (x - a) <? n) = ((a <=? x) && (x <? a + n))%bool.
Proof. intros Hx Ha Hn Hend. apply window; [done|..]; unfold STACK_BASE, UMEM_END_VMA in *; change PAGE_SIZE with 4096 in *; lia. Qed.

(** A store into the page. *)
Lemma stack_page_store m off bs : 0 ≤ off → off + Z.of_nat (length bs) ≤ PAGE_SIZE →
  stack_page (copy_in m (STACK_BASE + off) bs) = splice off bs (stack_page m).
Proof.
  intros Ho Hend. pose proof (length_stack_page m) as Hl. apply list_eq. intros i.
  rewrite lookup_splice by (rewrite Hl; change PAGE_SIZE with 4096 in *; lia).
  destruct (decide (i < Z.to_nat PAGE_SIZE)%nat) as [Hi|Hi].
  - rewrite !stack_page_lookup by done. unfold copy_in. change PAGE_SIZE with 4096 in *.
    rewrite stack_window by (unfold STACK_BASE, UMEM_END_VMA; change PAGE_SIZE with 4096; lia).
    case_decide as Hd.
    + rewrite (proj2 (Z.leb_le _ _)), (proj2 (Z.ltb_lt _ _)) by lia. cbn [andb]. rewrite u64_small by lia.
      destruct (lookup_lt_is_Some_2 bs (i - Z.to_nat off) ltac:(lia)) as [b Hb]. rewrite Hb. f_equal. apply getb_lookup. rewrite <- Hb. f_equal. lia.
    + destruct (Z.leb_spec (STACK_BASE + off) (STACK_BASE + Z.of_nat i)), (Z.ltb_spec (STACK_BASE + Z.of_nat i) (STACK_BASE + off + Z.of_nat (length bs)));
        cbn [andb]; done || lia.
  - rewrite (proj2 (lookup_ge_None _ _)) by (rewrite length_stack_page; lia). case_decide; [change PAGE_SIZE with 4096 in *; lia|].
    symmetry. apply lookup_ge_None. rewrite length_stack_page. lia.
Qed.

(** The vector of the arguments at [argvp]. *)
Definition args_at (ok : Z → Prop) p (argvp : Z) argv : Prop :=
  ∀ i a, argv !! i = Some a → ∃ q, 0 ≤ q < 2 ^ 64 ∧
    holds_at STACK_BASE ok p (argvp + PTRSZ * Z.of_nat i) (le_bytes 8 q) ∧ holds_at STACK_BASE ok p q (a ++ [0]).

Section args.
Context (ok : Z → Prop) (fuel : nat).

Lemma stack_limit : STACK_BASE ≤ UMEM_END_VMA.
Proof. done. Qed.

Lemma load_ptr_ok p a q : 0 ≤ q < 2 ^ 64 → holds_at STACK_BASE ok p a (le_bytes 8 q) → load_ptr (u64 a) p = (Ret q, p).
Proof.
  intros Hq Hh. pose proof (user_load_ok _ _ _ _ _ stack_limit Hh) as R. rewrite length_le_bytes in R. destruct Hh as (Ha & Hend & _). rewrite length_le_bytes in Hend.
  unfold load_ptr. rewrite u64_small by (unfold UMEM_START_VMA, STACK_BASE, UMEM_END_VMA in *; change PAGE_SIZE with 4096 in *; lia).
  krun R. by rewrite le_val_bytes_small.
Qed.

Lemma user_strlen_ok n : ∀ p q (a : cstr), is_cstr a → holds_at STACK_BASE ok p q (a ++ [0]) → (length a < n)%nat →
  strlen_loop n q p = (Ret (Z.of_nat (length a)), p).
Proof.
  induction n as [|n IH]; intros p q a Hs Hh Hn; [lia|]. cbn [strlen_loop].
  assert (∃ c r, a ++ [0] = c :: r) as (c & r & E) by (destruct a; simpl; eauto).
  assert (holds_at STACK_BASE ok p q [c]) as Hc.
  { destruct Hh as (Ha & Hend & Hb). rewrite E in Hend, Hb. cbn [length] in Hend |- *. split_and!; [done|simpl; lia|]. intros [|i] b Hi; [|done]. by apply Hb. }
  pose proof (user_load_ok _ _ _ _ _ stack_limit Hc) as R. change (Z.of_nat (length [c])) with 1 in R. krun R. change (getb 0 [c] 0) with c.
  destruct a as [|c' a]; cbn [app] in E; injection E as <- <-; [done|].
  apply Forall_cons in Hs as [Hc' Hs]. rewrite (proj2 (Z.eqb_neq _ _)) by lia.
  pose proof (holds_at_app _ _ _ _ [c'] (a ++ [0]) Hh) as Hh'. change (Z.of_nat (length [c'])) with 1 in Hh'.
  pose proof Hh' as (Ha & Hend & _).
  rewrite u64_small by (unfold UMEM_START_VMA, STACK_BASE, UMEM_END_VMA in *; change PAGE_SIZE with 4096 in *; lia).
  krun (IH p (q + 1) a Hs Hh' ltac:(simpl in Hn; lia)). cbv delta [mret M_ret]. cbv beta. do 2 f_equal. simpl. lia.
Qed.

Lemma strlen_at_ok p q (a : cstr) : is_cstr a → holds_at STACK_BASE ok p q (a ++ [0]) → (length a < fuel)%nat →
  strlen_at fuel q p = (Ret (Z.of_nat (length a)), p).
Proof.
  intros Hs Hh Hn. unfold strlen_at. pose proof Hh as (Ha & _). rewrite (proj2 (Z.eqb_neq _ _)) by (unfold UMEM_START_VMA in Ha; lia).
  by apply user_strlen_ok.
Qed.

(** Arguments that fit in [fuel]. *)
Definition short (a : cstr) : Prop := is_cstr a ∧ (length a < fuel)%nat.

Lemma arg_sizes_ok p argvp argv : ∀ as_ i stksz, Forall short as_ →
  (∀ j a, as_ !! j = Some a → argv !! (i + j)%nat = Some a) → args_at ok p argvp argv →
  arg_sizes fuel (length as_) argvp (Z.of_nat i) stksz p = (Ret (stack_size as_ stksz), p).
Proof.
  induction as_ as [|a as_ IH]; intros i stksz Hs Hr Hargs; [done|]. apply Forall_cons in Hs as [[Ha Hf] Hs]. cbn [length arg_sizes stack_size strlen].
  destruct (Hargs i a) as (q & Hq & Hv & Hstr); [rewrite <- (Nat.add_0_r i); by apply Hr|].
  krun (load_ptr_ok p _ q Hq Hv). krun (strlen_at_ok p q a Ha Hstr Hf). destruct (_ <? _); [done|].
  replace (Z.of_nat i + 1) with (Z.of_nat (S i)) by lia. apply IH; [done| |done]. intros j b Hj. rewrite Nat.add_succ_l, <- Nat.add_succ_r. by apply Hr.
Qed.

(** The page is mapped. *)
Definition stack_mapped p : Prop := ∀ x, STACK_BASE ≤ x < UMEM_END_VMA → mapped (pmm p) x = true.

Lemma copy_below m off bs x : 0 ≤ off → off + Z.of_nat (length bs) ≤ PAGE_SIZE → UMEM_START_VMA ≤ x < STACK_BASE →
  copy_in m (STACK_BASE + off) bs x = m x.
Proof.
  intros Ho Hend Hx. unfold copy_in. rewrite stack_window; [by rewrite (proj2 (Z.leb_gt _ _)) by lia|..];
    unfold UMEM_START_VMA, STACK_BASE, UMEM_END_VMA in *; change PAGE_SIZE with 4096 in *; lia.
Qed.

(** A store into the page, and the arguments after it. *)
Lemma store_stack p off bs : stack_mapped p → 0 ≤ off → off + Z.of_nat (length bs) ≤ PAGE_SIZE →
  store (STACK_BASE + off) bs p = (Ret tt, Paged (pmm p) (copy_in (view p) (STACK_BASE + off) bs)).
Proof. intros Hm Ho Hend. apply store_mapped. intros x Hx. apply Hm. unfold STACK_BASE in *. lia. Qed.

Lemma args_at_below p v argvp argv : (∀ x, UMEM_START_VMA ≤ x < STACK_BASE → v x = view p x) →
  args_at ok p argvp argv → args_at ok (Paged (pmm p) v) argvp argv.
Proof.
  intros Hv Hargs i a Hi. destruct (Hargs i a Hi) as (q & Hq & H1 & H2). exists q. split; [done|].
  split; (eapply holds_at_same; [|done]); (intros x Hx _ Hm; split; [done|by apply Hv]).
Qed.

Lemma copy_args_ok argvp argv A : ∀ as_ i off p, Forall short as_ →
  (∀ j a, as_ !! j = Some a → argv !! (i + j)%nat = Some a) → args_at ok p argvp argv → stack_mapped p →
  0 ≤ A → A + PTRSZ * (Z.of_nat i + Z.of_nat (length as_)) ≤ off → off + total as_ ≤ PAGE_SIZE →
  ∃ v', copy_args fuel (length as_) argvp (STACK_BASE + A) (Z.of_nat i) (STACK_BASE + off) p = (Ret tt, Paged (pmm p) v') ∧
    stack_page v' = write_args A (Z.of_nat i) off as_ (stack_page (view p)) ∧
    ∀ x, UMEM_START_VMA ≤ x < STACK_BASE → v' x = view p x.
Proof.
  induction as_ as [|a as_ IH]; intros i off p Hs Hr Hargs Hm HA Hoff Hend.
  { exists (view p). split; [by destruct p|done]. }
  apply Forall_cons in Hs as [[Ha Hf] Hs]. cbn [length] in Hoff. cbn [total foldr] in Hend. fold (total as_) in Hend.
  pose proof (total_nonneg as_) as Ht. unfold PTRSZ in Hoff.
  assert (argv !! i = Some a) as Hi by (rewrite <- (Nat.add_0_r i); by apply Hr).
  cbn [length copy_args write_args strlen]. replace (STACK_BASE + (STACK_BASE + off - STACK_BASE)) with (STACK_BASE + off) by lia.
  replace (STACK_BASE + A + PTRSZ * Z.of_nat i) with (STACK_BASE + (A + PTRSZ * Z.of_nat i)) by lia.
  assert (Z.of_nat (length (le_bytes 8 (STACK_BASE + off))) = 8) as Hl8 by (by rewrite length_le_bytes).
  krun (store_stack p (A + PTRSZ * Z.of_nat i) (le_bytes 8 (STACK_BASE + off)) Hm ltac:(unfold PTRSZ; lia) ltac:(unfold PTRSZ; lia)).
  set (p1 := Paged (pmm p) _). assert (∀ x, UMEM_START_VMA ≤ x < STACK_BASE → view p1 x = view p x) as Hv1.
  { intros x Hx. apply copy_below; [unfold PTRSZ; lia|unfold PTRSZ; lia|done]. }
  assert (args_at ok p1 argvp argv) as Hargs1 by (by apply args_at_below).
  destruct (Hargs1 i a Hi) as (q & Hq & H1 & H2). krun (load_ptr_ok p1 _ q Hq H1). krun (strlen_at_ok p1 q a Ha H2 Hf). krun (load_ptr_ok p1 _ q Hq H1).
  pose proof (user_load_ok _ _ _ _ _ stack_limit H2) as R. assert (Z.of_nat (length (a ++ [0])) = Z.of_nat (length a) + 1) as Hla by (rewrite length_app; simpl; lia).
  rewrite Hla in R. krun R. krun (store_stack p1 off (a ++ [0]) Hm ltac:(lia) ltac:(lia)). set (p2 := Paged (pmm p1) _).
  assert (∀ x, UMEM_START_VMA ≤ x < STACK_BASE → view p2 x = view p1 x) as Hv2 by (intros x Hx; apply copy_below; [lia|lia|done]).
  destruct (IH (S i) (off + (Z.of_nat (length a) + 1)) p2) as (v' & Rr & Hpage & Hv'); [done| |by apply args_at_below|exact Hm|done|unfold PTRSZ; lia|lia|].
  { intros j b Hj. rewrite Nat.add_succ_l, <- Nat.add_succ_r. by apply Hr. }
  exists v'. replace (Z.of_nat i + 1) with (Z.of_nat (S i)) by lia. replace (STACK_BASE + off + (Z.of_nat (length a) + 1)) with (STACK_BASE + (off + (Z.of_nat (length a) + 1))) by lia.
  split; [exact Rr|]. split.
  - rewrite Hpage. unfold p2, p1. cbn [view]. rewrite !stack_page_store by (rewrite ?length_app, ?length_le_bytes; unfold PTRSZ; simpl; lia). done.
  - intros x Hx. by rewrite Hv', Hv2, Hv1.
Qed.

(** On arguments outside the stack page, the two translations agree. *)
Lemma build_stack_at_ok p argvp argv :
  Forall short argv → args_at ok p argvp argv → stack_mapped p → Z.of_nat (length argv) < 2 ^ 31 →
  ∃ p', build_stack_at fuel (Z.of_nat (length argv)) argvp p = (Ret (build_stack (Z.of_nat (length argv)) argv (stack_page (view p))).1, p') ∧
    pmm p' = pmm p ∧ stack_page (view p') = (build_stack (Z.of_nat (length argv)) argv (stack_page (view p))).2 ∧
    ∀ x, UMEM_START_VMA ≤ x < STACK_BASE → view p' x = view p x.
Proof.
  intros Hs Hargs Hm Hn. unfold build_stack_at, build_stack. rewrite u64_small by lia. change (PAGE_SIZE / PTRSZ - 1) with 511.
  destruct (Z.ltb_spec 511 (Z.of_nat (length argv))) as [|Hsmall]; [by exists p|]. rewrite !Nat2Z.id, firstn_all.
  krun (arg_sizes_ok p argvp argv argv 0 ((Z.of_nat (length argv) + 1) * PTRSZ) Hs (λ j a H, H) Hargs).
  pose proof (total_nonneg argv) as Ht. rewrite stack_size_ok by (unfold PTRSZ; change PAGE_SIZE with 4096; lia).
  destruct (Z.leb_spec ((Z.of_nat (length argv) + 1) * PTRSZ + total argv) PAGE_SIZE) as [Hfit|]; [|by exists p].
  set (sz := ROUND_UP _ 16). cbv zeta.
  assert ((Z.of_nat (length argv) + 1) * PTRSZ + total argv ≤ sz ≤ PAGE_SIZE) as Hsz.
  { pose proof (ROUND_UP_spec ((Z.of_nat (length argv) + 1) * PTRSZ + total argv) 16 ltac:(lia)) as [[Hr1 Hr2] Hr3]. fold sz in Hr1, Hr2, Hr3.
    change PAGE_SIZE with 4096 in *. Z.div_mod_to_equations. lia. }
  unfold PTRSZ in Hsz. clearbody sz.
  destruct (copy_args_ok argvp argv (PAGE_SIZE - sz) argv 0 (PAGE_SIZE - sz + PTRSZ * (Z.of_nat (length argv) + 1)) p) as (v' & R & Hp & Hv);
    [done|done|done|done|lia|unfold PTRSZ; lia|unfold PTRSZ; lia|].
  replace (STACK_BASE + PAGE_SIZE - sz) with (STACK_BASE + (PAGE_SIZE - sz)) by lia.
  replace (STACK_BASE + (PAGE_SIZE - sz) + PTRSZ * (Z.of_nat (length argv) + 1)) with (STACK_BASE + (PAGE_SIZE - sz + PTRSZ * (Z.of_nat (length argv) + 1))) by lia.
  krun R. replace (STACK_BASE + (PAGE_SIZE - sz) + PTRSZ * Z.of_nat (length argv)) with (STACK_BASE + (PAGE_SIZE - sz + PTRSZ * Z.of_nat (length argv))) by lia.
  set (p1 := Paged (pmm p) v').
  krun (store_stack p1 (PAGE_SIZE - sz + PTRSZ * Z.of_nat (length argv)) (le_bytes 8 0) Hm ltac:(unfold PTRSZ; lia) ltac:(rewrite length_le_bytes; unfold PTRSZ; lia)).
  eexists. split; [reflexivity|]. split; [done|]. cbn [view snd]. split.
  - rewrite stack_page_store by (rewrite ?length_le_bytes; unfold PTRSZ; lia). change (Z.of_nat 0) with 0 in Hp. by rewrite <- Hp.
  - intros x Hx. rewrite copy_below; [by apply Hv|unfold PTRSZ; lia|rewrite length_le_bytes; unfold PTRSZ; lia|done].
Qed.
End args.

(** ** Starting a program *)

Definition STACK_FLAGS : Z := Z.lor PTE_R (Z.lor PTE_W PTE_U).

(** There are free pages for the stack and for [n] more pages, and no
    super-page is in their way. *)
Definition room_for (n : nat) (s : mm) (l : list (Z * Z)) : Prop :=
  space_ok s l ∧ (∀ va, user_addr va → ¬ superpage (words s) (active_space_ptab s) va) ∧ (3 + 3 * n ≤ length (pages l))%nat.

Lemma stack_ready n s l : room_for n s l →
  ∃ spp s1 s2 s3 l3, alloc_phys_page s = (Ret spp, s1) ∧ spp ≠ NULL ∧ zero_page spp s1 = (Ret tt, s2) ∧
    map_page STACK_BASE spp STACK_FLAGS s2 = (Ret STACK_BASE, s3) ∧ space_ok s3 l3 ∧ satp s3 = satp s ∧ spp ∈ pages l ∧
    (∀ x, x ∈ pages l3 → x ∈ pages l) ∧ (3 * n ≤ length (pages l3))%nat ∧
    (∀ va, user_addr va → ¬ superpage (words s3) (active_space_ptab s3) va) ∧
    ∀ va, tr s3 va = if decide (vpage va = vpage STACK_BASE) then Some (spp + va mod PAGE_SIZE, 0xD7) else tr s va.
Proof.
  intros (Hsp & Hns & Hlen).
  destruct (take_zero_page s l Hsp) as [(pp & l1 & s1 & s2 & Ha & Hz & Hpp & Hram & Hperm & Hsp2 & Htr2 & _)|[_ Hnil]];
    [|rewrite Hnil in Hlen; simpl in Hlen; lia].
  rewrite Hperm in Hlen. simpl in Hlen.
  assert (∀ va, superpage (words s2) (active_space_ptab s2) va → superpage (words s) (active_space_ptab s) va) as Hsup.
  { intros va (e & b & Hx & Hb). exists e, b. split; [|done]. rewrite <- Hx. destruct Htr2 as [_ Hx']. symmetry. apply Hx'; [apply VPN_index|done]. }
  destruct (map_page_ok s2 l1 STACK_BASE pp STACK_FLAGS Hsp2) as (r & s3 & l3 & Hm & Hsp3 & Hs3 & _ & _ & Hf3 & Hl3 & Hsup3 & Hr); [done|done|done|done|done|done|].
  assert (user_addr STACK_BASE) as Hu by done.
  destruct Hr as [[-> Hx]|(_ & _ & [Hs%Hsup|Hshort])]; [|by destruct (Hns _ Hu)|lia].
  exists pp, s1, s2, s3, l3. split; [done|]. split; [destruct Hpp as [_ ?]; unfold NULL; lia|]. split_and!; [done|done|done|rewrite Hs3; apply Htr2| | |lia| |].
  - rewrite Hperm. by left.
  - intros x Hx3. rewrite Hperm. right. by apply Hf3.
  - intros va Hva H3. by apply (Hns va Hva), Hsup, Hsup3.
  - intros va. unfold tr. rewrite Hx. case_decide; [done|]. by apply same_translate.
Qed.

Section starts.
Context {St : Type} (o : io St) (img : list Z) `{!FileImage o img}.
Implicit Types (s : esys St paged).

(** A file that [elf_load] accepts. *)
Record executable (eh : elf64_ehdr) : Prop := {
  ex_head : EHSZ ≤ Z.of_nat (length img);
  ex_eh : eh = ehdr_of_bytes (slice 0 EHSZ img);
  ex_valid : valid_ehdr eh = true;
  ex_off : 0 ≤ e_phoff eh;
  ex_num : 0 ≤ e_phnum eh;
  ex_table : e_phoff eh + e_phnum eh * PHSZ ≤ Z.of_nat (length img);
  ex_load : Forall (loadable img) (filter is_load (header_table img eh))
}.

Definition segments (eh : elf64_ehdr) : list elf64_phdr := filter is_load (header_table img eh).
Definition not_loaded eh (x : Z) : Prop := ∀ ph, ph ∈ segments eh → ¬ p_vaddr ph ≤ x < p_vaddr ph + p_memsz ph.

Lemma seg_image_out m m' ph x : 0 ≤ p_filesz ph ≤ p_memsz ph → m x = m' x → seg_image img m ph x = seg_image img m' ph x ∧
  (¬ p_vaddr ph ≤ x < p_vaddr ph + p_memsz ph → seg_image img m ph x = m x).
Proof.
  intros Hf E. unfold seg_image.
  destruct (Z.leb_spec (p_vaddr ph) x), (Z.ltb_spec x (p_vaddr ph + p_filesz ph)), (Z.ltb_spec x (p_vaddr ph + p_memsz ph)); cbn [andb]; split; try done; lia.
Qed.

Lemma load_image_at x phs : ∀ m m', Forall (loadable img) phs → m x = m' x → foldl (seg_image img) m phs x = foldl (seg_image img) m' phs x ∧
  ((∀ ph, ph ∈ phs → ¬ p_vaddr ph ≤ x < p_vaddr ph + p_memsz ph) → foldl (seg_image img) m phs x = m x).
Proof.
  induction phs as [|ph phs IH]; intros m m' Hl E; [done|]. apply Forall_cons in Hl as [Hph Hl]. simpl.
  destruct (seg_image_out m m' ph x (lo_size _ _ Hph) E) as [E1 E2]. destruct (IH _ _ Hl E1) as [E3 E4]. split; [done|].
  intros Ho. rewrite E4, E2; [done|apply Ho; by left|]. intros q Hq. apply Ho. by right.
Qed.

(** What the new program finds: [s] and [l] are the state and the free pages
    before, [spp] is the page of the stack. *)
Record started eh argv s l (fr : user_frame) s' (spp : Z) : Prop := {
  sd_entry : u_sepc fr = e_entry eh ∧ Z.testbit (u_sstatus fr) 8 = false;
  sd_regs : u_a0 fr = Z.of_nat (length argv) ∧ u_a1 fr = u_sp fr ∧ u_sp fr mod 16 = 0 ∧ STACK_BASE ≤ u_sp fr < UMEM_END_VMA;
  sd_args : read_args (u_sp fr - STACK_BASE) (length argv) (stack_page (view (umem s'))) = argv;
  sd_memory x : UMEM_START_VMA ≤ x < STACK_BASE → seen (umem s') x = foldl (seg_image img) (seen (umem s)) (segments eh) x;
  sd_space : satp (pmm (umem s')) = satp (pmm (umem s)) ∧ ∃ l', space_ok (pmm (umem s')) l';
  sd_stack : spp ∈ pages l ∧ ∀ va, vpage va = vpage STACK_BASE → tr (pmm (umem s')) va = Some (spp + va mod PAGE_SIZE, 0xD7);
  sd_old va e : vpage va ≠ vpage STACK_BASE → tr (pmm (umem s)) va = Some e → tr (pmm (umem s')) va = Some e;
  sd_new va : vpage va ≠ vpage STACK_BASE → tr (pmm (umem s)) va = None →
    let loaded := range_pages (segments eh ≫= written) (vpage va) in
    (¬ loaded ∧ tr (pmm (umem s')) va = None) ∨ (loaded ∧ ∃ pp, pp ∈ pages l ∧ tr (pmm (umem s')) va = Some (pp + va mod PAGE_SIZE, 0xDF))
}.

(** The stack page is not in the way of what is below it. *)
Lemma below_stack x : UMEM_START_VMA ≤ x < STACK_BASE → user_addr x ∧ vpage x ≠ vpage STACK_BASE ∧ (u64 (x - STACK_BASE) <? PAGE_SIZE) = false.
Proof.
  intros Hx. assert (user_addr x) as Hu by (unfold user_addr, STACK_BASE, UMEM_END_VMA in *; change PAGE_SIZE with 4096 in *; lia).
  split; [done|]. split.
  - rewrite !user_vpage by done. intros E. unfold STACK_BASE, UMEM_START_VMA, UMEM_END_VMA in *. change PAGE_SIZE with 4096 in *. Z.div_mod_to_equations. lia.
  - rewrite stack_window; [by rewrite (proj2 (Z.leb_gt _ _)) by lia|..]; unfold UMEM_START_VMA, STACK_BASE, UMEM_END_VMA in *; change PAGE_SIZE with 4096 in *; lia.
Qed.

Lemma stack_pages va : STACK_BASE ≤ va < UMEM_END_VMA → vpage va = vpage STACK_BASE.
Proof.
  intros Hva. assert (user_addr va) as Hu by (unfold user_addr, STACK_BASE, UMEM_START_VMA, UMEM_END_VMA in *; change PAGE_SIZE with 4096 in *; lia).
  rewrite !user_vpage by done. unfold STACK_BASE, UMEM_END_VMA in *. change PAGE_SIZE with 4096 in *. Z.div_mod_to_equations. lia.
Qed.

(** Loading, from the state in which the stack page is mapped. *)
Lemma exec_load eh p l3 : executable eh → space_ok (pmm p) l3 →
  (∀ va, user_addr va → ¬ superpage (words (pmm p)) (active_space_ptab (pmm p)) va) → (3 * page_total (segments eh ≫= written) ≤ length (pages l3))%nat →
  ∃ p', elf_load (ESys o p) = (Ret (e_entry eh), ESys o p') ∧
    grown (pmm p) l3 (page_total (segments eh ≫= written)) (range_pages (segments eh ≫= written)) p' (foldl (seg_image img) (seen p) (segments eh)).
Proof.
  intros [H1 -> H3 H4 H5 H6 H7] Hsp Hns Hlen.
  destruct (elf_load_shows o img (SM := paged_shown (pmm p) l3 Hns 0 (λ _, False)) [] p (seen p)) as (p' & E & Hg); [done..| |exact Hlen|].
  - pose proof (grown_init (pmm p) l3 (view p) Hsp) as Hg. destruct p. eapply grown_ext; [|exact Hg]. intros x. split; [done|]. intros [[]|(r & Hr & _)]. by apply elem_of_nil in Hr.
  - exists p'. split; [exact E|]. eapply grown_ext; [|exact Hg]. intros x. cbn [app]. split; [by intros [[]|?]|by right].
Qed.

(** The run of [process_exec] when its parts succeed. *)
Lemma process_exec_run fuel pr argc argvp sstatus (s : mm) v spp m1 m2 m3 entry p2 sz p3 :
  alloc_phys_page s = (Ret spp, m1) → spp ≠ NULL → zero_page spp m1 = (Ret tt, m2) → map_page STACK_BASE spp STACK_FLAGS m2 = (Ret STACK_BASE, m3) →
  elf_load (ESys o (Paged m3 (memset v STACK_BASE 0 PAGE_SIZE))) = (Ret entry, ESys o p2) → build_stack_at fuel argc argvp p2 = (Ret sz, p3) → 0 ≤ sz →
  process_exec fuel (Some pr) argc argvp sstatus (ESys o (Paged s v)) =
    (Ret (UserFrame entry (UMEM_END_VMA - sz) argc (UMEM_END_VMA - sz) (Z.lor (Z.land sstatus (u64 (Z.lnot RISCV_SSTATUS_SPP))) RISCV_SSTATUS_SPIE)), ESys o p3).
Proof.
  intros Ha Hspp Hz Hmap El Eb Hsz. unfold process_exec. fold STACK_FLAGS.
  assert (∀ {A} (f : M mm A) x r x', f x = (Ret r, x') → on_mm f (ESys o (Paged x v)) = (Ret r, ESys o (Paged x' v))) as Hon.
  { intros A f x r x' E. unfold on_mm, on_user, on_pmm. cbn [umem pmm elfio view]. by rewrite E. }
  krun (Hon _ _ _ _ _ Ha). rewrite (proj2 (Z.eqb_neq spp NULL)) by done. krun (Hon _ _ _ _ _ Hz). krun (Hon _ _ _ _ _ Hmap).
  rewrite (proj2 (Z.eqb_neq STACK_BASE NULL)) by done.
  set (f := λ p, Paged (pmm p) (memset (view p) STACK_BASE 0 PAGE_SIZE)).
  assert (on_user (modify f) (ESys o (Paged m3 v)) = (Ret tt, ESys o (Paged m3 (memset v STACK_BASE 0 PAGE_SIZE)))) as E by done. krun E.
  unfold finish_exec. rewrite El. assert (on_user (build_stack_at fuel argc argvp) (ESys o p2) = (Ret sz, ESys o p3)) as E2 by (unfold on_user; cbn [umem elfio]; by rewrite Eb).
  krun E2. by rewrite (proj2 (Z.ltb_ge sz 0)) by lia.
Qed.

Lemma process_exec_ok eh fuel pr argvp argv sstatus s l :
  executable eh → Forall (short fuel) argv → need argv ≤ PAGE_SIZE → elfio s = o →
  room_for (page_total (segments eh ≫= written)) (pmm (umem s)) l → args_at (not_loaded eh) (umem s) argvp argv →
  ∃ fr s' spp, process_exec fuel (Some pr) (Z.of_nat (length argv)) argvp sstatus s = (Ret fr, s') ∧ started eh argv s l fr s' spp.
Proof.
  intros Hex Hshort Hneed Ho Hroom Hargs. destruct s as [o' [s v]]. cbn [elfio umem pmm] in *. subst o'.
  destruct (stack_ready _ s l Hroom) as (spp & m1 & m2 & m3 & l3 & Ha & Hspp & Hz & Hmap & Hsp & Hsatp & Hin & Hsub & Hlen & Hns & Htr).
  set (p1 := Paged m3 (memset v STACK_BASE 0 PAGE_SIZE)).
  destruct (exec_load eh p1 l3 Hex Hsp Hns Hlen) as (p2 & El & Hg). set (img' := foldl _ _ _) in Hg.
  assert (∀ x, UMEM_START_VMA ≤ x < STACK_BASE → mapped s x = true → mapped (pmm p2) x = true) as Hkeep.
  { intros x Hx Hm. destruct (below_stack x Hx) as (_ & Hne & _). apply mapped_iff in Hm. destruct (tr s x) as [e|] eqn:E; [|done].
    apply mapped_iff. rewrite (gw_old _ _ _ _ _ _ Hg x e); [done|]. cbn [pmm p1]. by rewrite Htr, decide_False. }
  assert (∀ x, UMEM_START_VMA ≤ x < STACK_BASE → seen p1 x = seen (Paged s v) x) as Hseen1.
  { intros x Hx. destruct (below_stack x Hx) as (_ & Hne & Hw). unfold seen, mapped, p1. cbn [pmm view]. rewrite Htr, decide_False by done. unfold memset. by rewrite Hw. }
  assert (stack_mapped p2) as Hst.
  { intros x Hx. apply mapped_iff. rewrite (gw_old _ _ _ _ _ _ Hg x (spp + x mod PAGE_SIZE, 0xD7)); [done|]. cbn [pmm p1]. rewrite Htr, decide_True by (by apply stack_pages). done. }
  assert (args_at (not_loaded eh) p2 argvp argv) as Hargs2.
  { intros i a Hi. destruct (Hargs i a Hi) as (q & Hq & Hp1 & Hp2). exists q. split; [done|]. split; (eapply holds_at_same; [|done]); clear Hp1 Hp2.
    all: intros x Hx Hnl Hm; pose proof (Hkeep x Hx Hm) as Hm2; split; [done|]; destruct (below_stack x Hx) as (Hu & _).
    all: pose proof (gw_seen _ _ _ _ _ _ Hg x Hu) as E; unfold seen in E; rewrite Hm2 in E; rewrite E; unfold img'.
    all: rewrite (proj2 (load_image_at x (segments eh) (seen p1) (seen p1) (ex_load _ Hex) eq_refl)) by exact Hnl; rewrite Hseen1 by done; unfold seen; cbn [pmm] in *; by rewrite Hm. }
  assert (Forall is_cstr argv) as Hstr by (eapply Forall_impl; [exact Hshort|by intros a []]).
  assert (Z.of_nat (length argv) < 2 ^ 31) as Hsmall.
  { unfold need, PTRSZ in Hneed. change PAGE_SIZE with 4096 in Hneed. pose proof (total_nonneg argv). lia. }
  destruct (build_stack_at_ok (not_loaded eh) fuel p2 argvp argv Hshort Hargs2 Hst Hsmall) as (p3 & Rb & Hmm & Hpage & Hbelow).
  pose proof (build_stack_ok argv (stack_page (view p2)) (length_stack_page _) Hstr Hsmall) as Hb. rewrite (proj2 (Z.ltb_ge _ _)) in Hb by done.
  destruct Hb as (sz & page' & Eb & Hbuilt). rewrite Eb in Rb, Hpage. cbn [fst snd] in Rb, Hpage.
  pose proof (sb_fits _ _ _ _ Hbuilt) as Hfit. change PAGE_SIZE with 4096 in Hfit.
  eexists _, (ESys o p3), spp. split.
  { exact (process_exec_run fuel pr _ argvp sstatus s v spp m1 m2 m3 _ p2 sz p3 Ha Hspp Hz Hmap El Rb ltac:(lia)). }
  assert (sz mod 16 = 0) as Hmod by (rewrite (sb_size _ _ _ _ Hbuilt); by apply ROUND_UP_spec).
  split; cbn [u_sepc u_a0 u_a1 u_sp u_sstatus umem pmm view]; rewrite ?Hmm.
  - split; [done|]. rewrite Z.lor_spec, Z.land_spec. change (Z.testbit (u64 (Z.lnot RISCV_SSTATUS_SPP)) 8) with false. by rewrite andb_false_r.
  - split; [done|]. split; [done|]. split; [unfold UMEM_END_VMA; Z.div_mod_to_equations; lia|unfold STACK_BASE; change PAGE_SIZE with 4096; lia].
  - rewrite Hpage. unfold STACK_BASE. replace (UMEM_END_VMA - sz - (UMEM_END_VMA - PAGE_SIZE)) with (PAGE_SIZE - sz) by lia. apply (sb_args _ _ _ _ Hbuilt).
  - intros x Hx. destruct (below_stack x Hx) as (Hu & _). transitivity (seen p2 x); [unfold seen; rewrite Hmm; by rewrite Hbelow|].
    rewrite (gw_seen _ _ _ _ _ _ Hg x Hu). unfold img'. apply load_image_at; [apply Hex|by apply Hseen1].
  - split; [by rewrite (gw_satp _ _ _ _ _ _ Hg)|]. destruct (gw_space _ _ _ _ _ _ Hg) as (l' & ? & _). by exists l'.
  - split; [done|]. intros va E. apply (gw_old _ _ _ _ _ _ Hg). cbn [pmm p1]. by rewrite Htr, decide_True.
  - intros va e Hne E. apply (gw_old _ _ _ _ _ _ Hg). cbn [pmm p1]. by rewrite Htr, decide_False.
  - intros va Hne E. destruct (gw_new _ _ _ _ _ _ Hg va) as [?|(HT & pp & Hpp & Ep)]; [cbn [pmm p1]; by rewrite Htr, decide_False|by left|].
    right. split; [done|]. exists pp. split; [by apply Hsub|done].
Qed.

(** Arguments on the stack page, where a program that has just been started
    keeps its variables, are lost: whatever the vector holds, the kernel finds
    a NULL pointer in it. *)
Lemma arguments_on_stack_lost eh (s : mm) v l argvp :
  executable eh → room_for (page_total (segments eh ≫= written)) s l → STACK_BASE ≤ argvp → argvp + 8 ≤ UMEM_END_VMA →
  (∀ x, argvp ≤ x < argvp + 8 → not_loaded eh x) →
  ∃ spp m1 m2 m3 p2, alloc_phys_page s = (Ret spp, m1) ∧ zero_page spp m1 = (Ret tt, m2) ∧ map_page STACK_BASE spp STACK_FLAGS m2 = (Ret STACK_BASE, m3) ∧
    elf_load (ESys o (Paged m3 (memset v STACK_BASE 0 PAGE_SIZE))) = (Ret (e_entry eh), ESys o p2) ∧ load_ptr argvp p2 = (Ret 0, p2).
Proof.
  intros Hex Hroom Hlo Hhi Hnl. destruct (stack_ready _ s l Hroom) as (spp & m1 & m2 & m3 & l3 & Ha & _ & Hz & Hmap & Hsp & _ & _ & _ & Hlen & Hns & Htr).
  set (p1 := Paged m3 (memset v STACK_BASE 0 PAGE_SIZE)). destruct (exec_load eh p1 l3 Hex Hsp Hns Hlen) as (p2 & El & Hg).
  exists spp, m1, m2, m3, p2. split_and!; [done..|]. assert (holds_at UMEM_END_VMA (λ _, True) p2 argvp (replicate 8 0)) as Hh.
  { unfold holds_at. rewrite length_replicate. split; [unfold STACK_BASE, UMEM_START_VMA, UMEM_END_VMA in *; change PAGE_SIZE with 4096 in *; lia|]. split; [lia|].
    intros i b [-> Hi]%lookup_replicate. set (x := argvp + Z.of_nat i). assert (STACK_BASE ≤ x < UMEM_END_VMA) as Hx by lia.
    assert (user_addr x) as Hu by (unfold user_addr, STACK_BASE, UMEM_START_VMA, UMEM_END_VMA in *; change PAGE_SIZE with 4096 in *; lia).
    assert (tr m3 x = Some (spp + x mod PAGE_SIZE, 0xD7)) as E by (by rewrite Htr, decide_True by (by apply stack_pages)).
    assert (mapped (pmm p2) x = true) as Hm by (apply mapped_iff; by rewrite (gw_old _ _ _ _ _ _ Hg x _ E)).
    split_and!; [done|done|]. pose proof (gw_seen _ _ _ _ _ _ Hg x Hu) as Es. unfold seen in Es at 1. rewrite Hm in Es. rewrite Es.
    rewrite (proj2 (load_image_at x (segments eh) (seen p1) (seen p1) (ex_load _ Hex) eq_refl)) by (apply Hnl; lia).
    unfold seen, mapped, p1. cbn [pmm view]. rewrite E, bool_decide_true by by eexists. unfold memset.
    rewrite stack_window; [|unfold UMEM_START_VMA, STACK_BASE, UMEM_END_VMA in *; change PAGE_SIZE with 4096 in *; lia..].
    rewrite (proj2 (Z.leb_le _ _)), (proj2 (Z.ltb_lt _ _)) by (unfold STACK_BASE in *; lia). done. }
  pose proof (user_load_ok _ _ _ _ _ (Z.le_refl UMEM_END_VMA) Hh) as R. change (Z.of_nat (length (replicate 8 0))) with 8 in R. unfold load_ptr. by krun R.
Qed.


End starts.

(** The frame does not set the bit that enables interrupts after the jump
    (SPIE, bit 5 of the status register): it keeps whatever was there, and sets
    bit 3 instead, since RISCV_SSTATUS_SPIE is defined as bit 3. *)
Lemma exec_keeps_spie {St} fuel pr argc argvp sstatus (s : esys St paged) fr s' :
  process_exec fuel (Some pr) argc argvp sstatus s = (Ret fr, s') →
  Z.testbit (u_sstatus fr) 5 = Z.testbit sstatus 5 ∧ Z.testbit (u_sstatus fr) 3 = true.
Proof.
  unfold process_exec. intros (spp & s1 & _ & H)%bind_ret_inv. destruct (spp =? NULL); [done|].
  apply bind_ret_inv in H as (? & s2 & _ & H). apply bind_ret_inv in H as (r & s3 & _ & H).
  destruct (r =? NULL); [by apply bind_ret_inv in H as (? & ? & _ & H)|]. apply bind_ret_inv in H as (? & s4 & _ & H).
  unfold finish_exec in H. destruct (elf_load s4) as [[entry|rc| |] s5]; [|by apply bind_ret_inv in H as (? & ? & _ & H)|done|done].
  apply bind_ret_inv in H as (sz & s6 & _ & H). destruct (sz <? 0); [by apply bind_ret_inv in H as (? & ? & _ & H)|].
  apply (f_equal fst) in H. cbn [fst mret M_ret] in H. injection H as <-. cbn [u_sstatus]. rewrite !Z.lor_spec, !Z.land_spec.
  change (Z.testbit (u64 (Z.lnot RISCV_SSTATUS_SPP)) 5) with true. change (Z.testbit RISCV_SSTATUS_SPIE 5) with false.
  change (Z.testbit RISCV_SSTATUS_SPIE 3) with true. by rewrite andb_true_r, orb_false_r, orb_true_r.
Qed.

(** ** Witnesses *)

Definition demo_argv : list cstr := [[97; 98]; []; [99]].

Lemma demo_argv_ok : Forall is_cstr demo_argv.
Proof. unfold demo_argv, is_cstr. repeat constructor. Qed.

Lemma build_stack_correct_witness :
  ∃ sz page', build_stack 3 demo_argv (replicate 4096 7) = (sz, page') ∧ stack_built demo_argv (replicate 4096 7) sz page' ∧ sz mod 16 = 0.
Proof. apply (build_stack_correct demo_argv (replicate 4096 7)); [by rewrite length_replicate|apply demo_argv_ok|done]. Defined.

Lemma demo_executable : executable demo_img (ehdr_of_bytes (slice 0 EHSZ demo_img)).
Proof.
  split; [by vm_compute|done|by vm_compute..|].
  assert (filter is_load (header_table demo_img (ehdr_of_bytes (slice 0 EHSZ demo_img))) = [Phdr 1 5 120 0xC0001000 0xC0001000 4 16 4096]) as ->
    by (by vm_compute).
  repeat constructor; by vm_compute.
Qed.

Lemma demo_need : need demo_argv ≤ PAGE_SIZE.
Proof. by vm_compute. Qed.


(** A process with one page, on which its arguments are: the vector at its
    start and the strings behind it. *)
Definition demo_page : Z := 0xC0002000.
Definition demo_bytes : list Z :=
  le_bytes 8 (demo_page + 32) ++ le_bytes 8 (demo_page + 35) ++ le_bytes 8 (demo_page + 36) ++ replicate 8 0 ++ [97; 98; 0; 0; 99; 0].
Definition demo_view (a : Z) : memory := λ x, if (a <=? x)%bool then getb 0 demo_bytes (x - a) else 0.

Lemma demo_short : Forall (short 8) demo_argv.
Proof. unfold demo_argv, short, is_cstr. repeat constructor; simpl; lia. Qed.

Lemma demo_segments : segments demo_img (ehdr_of_bytes (slice 0 EHSZ demo_img)) = [Phdr 1 5 120 0xC0001000 0xC0001000 4 16 4096].
Proof. by vm_compute. Qed.

Lemma demo_holds p a off bs : a = demo_page + Z.of_nat off → slice (Z.of_nat off) (Z.of_nat (length bs)) demo_bytes = bs →
  (off + length bs ≤ length demo_bytes)%nat → view p = demo_view demo_page →
  (∀ x, vpage x = vpage demo_page → mapped (pmm p) x = true) →
  holds_at STACK_BASE (not_loaded demo_img (ehdr_of_bytes (slice 0 EHSZ demo_img))) p a bs.
Proof.
  intros -> Hbs Hl Hv Hm. assert (length demo_bytes = 38%nat) as H38 by done. rewrite H38 in Hl. unfold holds_at, STACK_BASE, UMEM_START_VMA, UMEM_END_VMA, demo_page in *.
  change PAGE_SIZE with 4096. split; [lia|]. split; [lia|]. intros i b Hi. pose proof (lookup_lt_Some _ _ _ Hi). split_and!.
  - intros ph. rewrite demo_segments. intros ->%list_elem_of_singleton. cbn [p_vaddr p_memsz]. lia.
  - apply Hm. unfold vpage. change PAGE_SIZE with 4096. f_equal. Z.div_mod_to_equations. lia.
  - rewrite Hv. unfold demo_view. rewrite (proj2 (Z.leb_le _ _)) by lia. apply getb_lookup. rewrite <- Hi, <- Hbs, lookup_slice by lia. f_equal. lia.
Qed.


End Exec.
