(* ===== verification/Process.v ===== *)
(** * Processes and system calls (kernel/process.c, kernel/syscall.c)

    The state has the thread manager, the memory manager, the I/O objects and
    the process structures.  The memory-space tag of a process is kept by the
    thread manager, which installs it when it switches threads; the installed
    tag and the page-table register of the memory manager are one register.
    [process_exec] is in Exec.v.

    Calls that leave these files are arguments: an operation that opens a device
    or a file, the one that makes a pipe, and the string at a user address. *)

From S2P Require Import Prelude Config Io PhysPages PageTable Threads.
Import Threads PhysPages PageTable.

Module Process.

Record process := Proc { idx : Z; tid : Z; iotab : list (option nat) }.

Section process.
Context {St : Type}.

Record psys := PSys { kern : ks; mem : mm; ios : gmap nat (io St); proctab : list (option nat); procs : gmap nat process }.
Implicit Types (s : psys) (fd : Z).

Definition with_ios s x : psys := PSys (kern s) (mem s) x (proctab s) (procs s).
Definition with_procs s x : psys := PSys (kern s) (mem s) (ios s) (proctab s) x.
Definition with_proctab s x : psys := PSys (kern s) (mem s) (ios s) x (procs s).

Definition on_kern {A} (m : M ks A) : M psys A := λ s,
  let (r, k) := m (kern s) in (r, PSys k (mem s) (ios s) (proctab s) (procs s)).

(** The memory manager runs with the installed tag in its register. *)
Definition on_mm {A} (m : M mm A) : M psys A := λ s,
  let (r, x) := m (Mm (words (mem s)) (free_chunk_list (mem s)) (active (kern s)) (main_mtag (mem s))) in
  (r, PSys (with_active (kern s) (satp x)) x (ios s) (proctab s) (procs s)).

Definition deref {A} (o : option A) : M psys A := match o with Some a => mret a | None => panic end.

(** ** I/O objects *)

Definition get_io (i : nat) : M psys (io St) := o ← gets (λ s, ios s !! i); deref o.
Definition put_io (i : nat) (o : io St) : M psys unit := modify (λ s, with_ios s (<[i := o]> (ios s))).
Definition addref (i : nat) : M psys unit := o ← get_io i; put_io i (ioaddref o).
Definition close (i : nat) : M psys unit :=
  o ← get_io i;
  match ioclose o with
  | (Ret _, o') => put_io i o'
  | _ => panic
  end.

(** ** Processes *)

Definition current_process : M psys (option nat) := on_kern running_thread_process.
Definition get_proc (p : nat) : M psys process := o ← gets (λ s, procs s !! p); deref o.
Definition put_proc (p : nat) (x : process) : M psys unit := modify (λ s, with_procs s (<[p := x]> (procs s))).
Definition slot (x : process) fd : option nat := getb None (iotab x) fd.
Definition set_slot (p : nat) fd (v : option nat) : M psys unit :=
  x ← get_proc p; put_proc p (Proc (idx x) (tid x) (setb fd v (iotab x))).
Definition set_mtag (p : nat) (t : Z) : M psys unit :=
  modify (λ s, PSys (let k := kern s in Ks (thr k) (thrtab k) (ready_list k) (conds k) (locks k) (TP k) (<[p := t]> (Threads.procs k)) (active k))
                    (mem s) (ios s) (proctab s) (procs s)).
Definition kfree_proc (p : nat) : M psys unit := modify (λ s, with_procs s (delete p (procs s))).

Definition procmgr_init (main : nat) (initialized : bool) : M psys unit :=
  if initialized then panic
  else
    t ← gets (λ s, TP (kern s));
    x ← on_kern (get_thr t);
    m ← on_mm active_mspace;
    put_proc main (Proc 0 (id x) (replicate (Z.to_nat PROCESS_IOMAX) None));;
    set_mtag main m;;
    on_kern (thread_set_process (id x) (Some main)).

(** The loops over [iotab] from descriptor [fd] on. *)
Fixpoint clone_iotab (parent child : nat) fd (n : nat) : M psys unit :=
  match n with
  | O => mret tt
  | S n =>
      x ← get_proc parent;
      (match slot x fd with
       | Some i => addref i;; set_slot child fd (Some i)
       | None => mret tt
       end);;
      clone_iotab parent child (fd + 1) n
  end.

Fixpoint close_iotab (p : nat) fd (n : nat) (clear : bool) : M psys unit :=
  match n with
  | O => mret tt
  | S n =>
      x ← get_proc p;
      (match slot x fd with
       | Some i => close i;; (if clear then set_slot p fd None else mret tt)
       | None => mret tt
       end);;
      close_iotab p (fd + 1) n clear
  end.

Definition IOMAX : nat := Z.to_nat PROCESS_IOMAX.

(** The child is the structure the allocator returned, [forked] the condition
    on the parent's stack, [t] and [c] the new thread and its condition.  The
    result is the number the parent returns when the child has woken it. *)
Definition process_fork (child forked t c : nat) (nm : Z) : M psys Z :=
  parent ← current_process;
  match parent with
  | None => mret (- EINVAL)
  | Some parent =>
      tab ← gets proctab;
      match findi (λ o, match o with None => true | Some _ => false end) (list.tail tab) with
      | None => mret (- EMPROC)
      | Some j =>
          let ix := S j in
          put_proc child (Proc (Z.of_nat ix) 0 (replicate IOMAX None));;
          set_mtag child 0;;
          clone_iotab parent child 0 IOMAX;;
          child_mtag ← on_mm clone_active_mspace;
          if child_mtag =? 0 then
            close_iotab child 0 IOMAX false;;
            kfree_proc child;;
            mret (- ENOMEM)
          else
            set_mtag child child_mtag;;
            modify (λ s, with_proctab s (<[ix := Some child]> (proctab s)));;
            on_kern (condition_init forked);;
            tid' ← on_kern (thread_spawn t c nm);
            if tid' <=? 0 then
              modify (λ s, with_proctab s (<[ix := None]> (proctab s)));;
              close_iotab child 0 IOMAX false;;
              saved ← on_mm (switch_mspace child_mtag);
              on_mm reset_active_mspace;;
              _ ← on_mm (switch_mspace saved);
              kfree_proc child;;
              mret (- EMTHR)
            else
              x ← get_proc child;
              put_proc child (Proc (idx x) tid' (iotab x));;
              on_kern (thread_set_process tid' (Some child));;
              on_kern (condition_wait forked);;
              mret tid'
      end
  end.

(** [fork_func] up to its jump to user mode: the value of [a0] there. *)
Definition fork_func (forked : nat) : M psys Z :=
  on_kern (condition_broadcast forked);;
  me ← current_process;
  (match me with
   | Some p =>
       t ← gets (λ s, default 0 (Threads.procs (kern s) !! p));
       if negb (t =? 0) then _ ← on_mm (switch_mspace t); mret tt else mret tt
   | None => mret tt
   end);;
  mret 0.

(** [true] when the machine halts: the main thread exits. *)
Definition process_exit : M psys bool :=
  p ← current_process;
  (match p with
   | Some p =>
       close_iotab p 0 IOMAX true;;
       x ← get_proc p;
       if 0 <? idx x then
         _ ← on_mm discard_active_mspace;
         modify (λ s, with_proctab s (setb (idx x) None (proctab s)));;
         kfree_proc p
       else on_mm reset_active_mspace
   | None => mret tt
   end);;
  on_kern thread_exit.

(** ** File descriptors *)

Definition valid_fd fd : bool := ((0 <=? fd) && (fd <? PROCESS_IOMAX))%bool.

Definition fd_to_io fd : M psys (option nat) :=
  if negb (valid_fd fd) then mret None
  else
    p ← current_process;
    match p with
    | None => mret None
    | Some p => x ← get_proc p; mret (slot x fd)
    end.

Definition install_io fd (i : option nat) : M psys Z :=
  match i with
  | None => mret (- EINVAL)
  | Some i =>
      if negb (valid_fd fd) then mret (- EINVAL)
      else
        p ← current_process;
        match p with
        | None => mret (- EINVAL)
        | Some p =>
            x ← get_proc p;
            (match slot x fd with
             | Some old => close old;; set_slot p fd None
             | None => mret tt
             end);;
            set_slot p fd (Some i);;
            mret 0
        end
  end.

Definition find_free_fd (x : process) : Z :=
  match findi (λ o, match o with None => true | Some _ => false end) (take IOMAX (iotab x)) with
  | Some i => Z.of_nat i
  | None => - EMFILE
  end.

(** [sysdevopen] and [sysfsopen] after the name check; [op] is the call of
    [open_device] or [fsopen], with what it returns and stores. *)
Definition sysopen fd (op : M psys (Z * option nat)) : M psys Z :=
  '(rc, i) ← op;
  if negb (rc =? 0) then mret rc
  else
    i' ← deref i;
    r ← (if fd <? 0 then
           p ← current_process;
           match p with
           | None => close i';; mret (inr (- EINVAL))
           | Some p =>
               x ← get_proc p;
               let fd := find_free_fd x in
               if fd <? 0 then close i';; mret (inr (- EMFILE)) else mret (inl fd)
           end
         else mret (inl fd));
    match (r : Z + Z) with
    | inr e => mret e
    | inl fd =>
        rc ← install_io fd (Some i');
        (if negb (rc =? 0) then close i' else mret tt);;
        mret (if rc <? 0 then rc else fd)
    end.

Definition sysclose fd : M psys Z :=
  if negb (valid_fd fd) then mret (- EINVAL)
  else
    p ← current_process;
    match p with
    | None => mret (- EINVAL)
    | Some p =>
        x ← get_proc p;
        match slot x fd with
        | None => mret (- EINVAL)
        | Some i => close i;; set_slot p fd None;; mret 0
        end
    end.

(** [sysread], [syswrite] and [sysioctl] up to and after the call of the
    object's operation, which is a function of the object's state here: what an
    operation does that waits (the serial port, the disk, pipes) is in the file
    of its driver.  The bytes read are part of the result and the bytes written
    an argument; that the kernel faults pages of the buffer in is in Excp. *)
Definition sysread fd (bufsz : Z) : M psys (Z * list Z) :=
  i ← fd_to_io fd;
  match i with
  | None => mret (- EINVAL, [])
  | Some i =>
      o ← get_io i;
      let '(n, got, o') := ioread o (s64 bufsz) in
      put_io i o';;
      mret (n, got)
  end.

Definition syswrite fd (buf : list Z) (len : Z) : M psys Z :=
  i ← fd_to_io fd;
  match i with
  | None => mret (- EINVAL)
  | Some i =>
      o ← get_io i;
      match iowrite buf (s64 len) o with
      | (Ret n, o') => put_io i o';; mret n
      | (NoFuel, o') => λ s, (NoFuel, s)
      | _ => panic
      end
  end.

Definition sysioctl fd (cmd : Z) (arg : option Z) : M psys (Z * option Z) :=
  i ← fd_to_io fd;
  match i with
  | None => mret (- EINVAL, arg)
  | Some i =>
      o ← get_io i;
      let '(r, a, o') := ioctl o cmd arg in
      put_io i o';;
      mret (s32 r, a)
  end.

Definition sysiodup (oldfd newfd : Z) : M psys Z :=
  p ← current_process;
  match p with
  | None => mret (- EINVAL)
  | Some p =>
      x ← get_proc p;
      if negb (valid_fd oldfd) then mret (- EBADFD)
      else
        match slot x oldfd with
        | None => mret (- EBADFD)
        | Some i =>
            let fd := if newfd <? 0 then find_free_fd x else newfd in
            if fd <? 0 then mret fd
            else if negb (valid_fd fd) then mret (- EBADFD)
            else if oldfd =? fd then mret fd
            else
              (match slot x fd with
               | Some old => close old;; set_slot p fd None
               | None => mret tt
               end);;
              addref i;;
              set_slot p fd (Some i);;
              mret fd
        end
  end.

(** The descriptors in [*wfdptr] and [*rfdptr], and what is stored there on
    success. *)
Definition syspipe (fds : option (Z * Z)) (create_pipe : M psys (option nat * option nat)) : M psys (Z * option (Z * Z)) :=
  match fds with
  | None => mret (- EINVAL, None)
  | Some (wfd, rfd) =>
      p ← current_process;
      match p with
      | None => mret (- EINVAL, None)
      | Some p =>
          x ← get_proc p;
          let wfd' := if wfd <? 0 then find_free_fd x else wfd in
          if wfd' <? 0 then mret (wfd', None)
          else if (negb (wfd <? 0) && (negb (valid_fd wfd) || bool_decide (is_Some (slot x wfd))))%bool then mret (- EBADFD, None)
          else
            let rfd' := if rfd <? 0 then
                          match findi (λ k, bool_decide (Z.of_nat k ≠ wfd' ∧ slot x (Z.of_nat k) = None)) (seq 0 IOMAX) with
                          | Some k => Z.of_nat k
                          | None => rfd
                          end
                        else rfd in
            if rfd' <? 0 then mret (- EMFILE, None)
            else if (negb (rfd <? 0) && (negb (valid_fd rfd) || bool_decide (is_Some (slot x rfd))))%bool then mret (- EBADFD, None)
            else if wfd' =? rfd' then mret (- EBADFD, None)
            else
              '(w, r) ← create_pipe;
              match w, r with
              | Some wi, Some ri =>
                  set_slot p wfd' (Some wi);; set_slot p rfd' (Some ri);; mret (0, Some (wfd', rfd'))
              | _, _ =>
                  (match w with Some wi => close wi | None => mret tt end);;
                  (match r with Some ri => close ri | None => mret tt end);;
                  mret (- ENOMEM, None)
              end
      end
  end.

End process.
Arguments psys : clear implicits.

(** ** System calls *)

(** The registers of the caller that a system call reads and writes. *)
Record trap_frame := TrapFrame { a0 : Z; a1 : Z; a2 : Z; a7 : Z; sepc : Z }.
Implicit Types (tfr : trap_frame).

Inductive request :=
  | RExit | RExec (fd argc argv : Z) | RFork | RWait (tid : Z) | RPrint (msg : Z) | RUsleep (us : Z)
  | RDevopen (fd name instno : Z) | RFsopen (fd name : Z) | RFscreate (name : Z) | RFsdelete (name : Z)
  | RClose (fd : Z) | RRead (fd buf bufsz : Z) | RWrite (fd buf len : Z) | RIoctl (fd cmd arg : Z)
  | RPipe (wfdptr rfdptr : Z) | RIodup (oldfd newfd : Z).

(** The [switch] of [syscall]: which handler is called and with which
    arguments; [None] is the default case.  Registers are 64 bits wide and
    [int] parameters take their low 32 bits. *)
Definition syscall_request tfr : option request :=
  let scnum := s32 (a7 tfr) in
  let i := s32 in
  if scnum =? SYSCALL_EXIT then Some RExit
  else if scnum =? SYSCALL_EXEC then Some (RExec (i (a0 tfr)) (i (a1 tfr)) (a2 tfr))
  else if scnum =? SYSCALL_WAIT then Some (RWait (i (a0 tfr)))
  else if scnum =? SYSCALL_PRINT then Some (RPrint (a0 tfr))
  else if scnum =? SYSCALL_USLEEP then Some (RUsleep (a0 tfr))
  else if scnum =? SYSCALL_DEVOPEN then Some (RDevopen (i (a0 tfr)) (a1 tfr) (i (a2 tfr)))
  else if scnum =? SYSCALL_FSOPEN then Some (RFsopen (i (a0 tfr)) (a1 tfr))
  else if scnum =? SYSCALL_FSCREATE then Some (RFscreate (a0 tfr))
  else if scnum =? SYSCALL_FSDELETE then Some (RFsdelete (a0 tfr))
  else if scnum =? SYSCALL_CLOSE then Some (RClose (i (a0 tfr)))
  else if scnum =? SYSCALL_READ then Some (RRead (i (a0 tfr)) (a1 tfr) (a2 tfr))
  else if scnum =? SYSCALL_WRITE then Some (RWrite (i (a0 tfr)) (a1 tfr) (a2 tfr))
  else if scnum =? SYSCALL_IOCTL then Some (RIoctl (i (a0 tfr)) (i (a1 tfr)) (a2 tfr))
  else if scnum =? SYSCALL_FORK then Some RFork
  else if scnum =? SYSCALL_PIPE then Some (RPipe (a0 tfr) (a1 tfr))
  else if scnum =? SYSCALL_IODUP then Some (RIodup (i (a0 tfr)) (i (a1 tfr)))
  else None.

(** What a handler returns and stores in user memory, [None] when it does not
    return now: the thread exits, or waits and runs the handler again. *)
Definition reply : Type := option (Z * list (Z * list Z)).

(** [handle_syscall]; [run] executes a request. *)
Definition handle_syscall {S} (run : request → M S reply) tfr : M S (option (trap_frame * list (Z * list Z))) :=
  let tfr := TrapFrame (a0 tfr) (a1 tfr) (a2 tfr) (a7 tfr) (u64 (sepc tfr + 4)) in
  r ← (match syscall_request tfr with
       | None => mret (Some (- ENOTSUP, []))
       | Some r => run r
       end);
  mret ('(rc, st) ← (r : reply); Some (TrapFrame (u64 rc) (a1 tfr) (a2 tfr) (a7 tfr) (sepc tfr), st)).

(** What the handlers reach outside of these files: the device manager, the
    file system, pipes, the console, the timer and the loader, and the user
    memory behind a pointer, [None] for NULL. *)
Record services (S : Type) := Services {
  sv_str : Z → option (list Z);
  sv_bytes : Z → Z → list Z;
  sv_int : Z → option Z;
  sv_open_device : list Z → Z → M S (Z * option nat);
  sv_fsopen : list Z → M S (Z * option nat);
  sv_ktfs_create : list Z → M S Z;
  sv_ktfs_delete : list Z → M S Z;
  sv_create_pipe : M S (option nat * option nat);
  sv_kprintf : list Z → M S unit;
  sv_sleep_us : Z → M S unit;
  sv_process_exec : nat → Z → Z → M S Z;
  sv_fork_args : nat * nat * nat * nat * Z
}.
Arguments sv_str {S}.
Arguments sv_bytes {S}.
Arguments sv_int {S}.
Arguments sv_open_device {S}.
Arguments sv_fsopen {S}.
Arguments sv_ktfs_create {S}.
Arguments sv_ktfs_delete {S}.
Arguments sv_create_pipe {S}.
Arguments sv_kprintf {S}.
Arguments sv_sleep_us {S}.
Arguments sv_process_exec {S}.
Arguments sv_fork_args {S}.

Section syscalls.
Context {St : Type} (sv : services (psys St)).

Definition returns (z : Z) : M (psys St) reply := mret (Some (z, [])).
Definition value (m : M (psys St) Z) : M (psys St) reply := z ← m; returns z.
Definition with_name (ptr : Z) (f : list Z → M (psys St) Z) : M (psys St) reply :=
  match sv_str sv ptr with None => returns (- EINVAL) | Some nm => value (f nm) end.
Definition stored (ptr : Z) (n : nat) (v : option Z) : list (Z * list Z) :=
  match v with Some v => [(ptr, le_bytes n v)] | None => [] end.

Definition sysexit : M (psys St) reply := _ ← process_exit; mret None.
Definition sysexec (fd argc argv : Z) : M (psys St) reply :=
  i ← fd_to_io fd;
  match i with None => returns (- EINVAL) | Some i => value (sv_process_exec sv i argc argv) end.
Definition syswait (t : Z) : M (psys St) reply := r ← on_kern (thread_join t); mret (z ← (r : option Z); Some (z, [])).
Definition sysprint (msg : Z) : M (psys St) reply := with_name msg (λ m, sv_kprintf sv m;; mret 0).
Definition sysusleep (us : Z) : M (psys St) reply := value (sv_sleep_us sv us;; mret 0).
Definition sysdevopen (fd nm instno : Z) : M (psys St) reply := with_name nm (λ nm, sysopen fd (sv_open_device sv nm instno)).
Definition sysfsopen (fd nm : Z) : M (psys St) reply := with_name nm (λ nm, sysopen fd (sv_fsopen sv nm)).
Definition sysfscreate (nm : Z) : M (psys St) reply := with_name nm (sv_ktfs_create sv).
Definition sysfsdelete (nm : Z) : M (psys St) reply := with_name nm (sv_ktfs_delete sv).
Definition sysfork : M (psys St) reply :=
  let '(child, forked, t, c, nm) := sv_fork_args sv in value (process_fork child forked t c nm).

Definition syscall (r : request) : M (psys St) reply :=
  match r with
  | RExit => sysexit
  | RExec fd argc argv => sysexec fd argc argv
  | RFork => sysfork
  | RWait t => syswait t
  | RPrint msg => sysprint msg
  | RUsleep us => sysusleep us
  | RDevopen fd nm instno => sysdevopen fd nm instno
  | RFsopen fd nm => sysfsopen fd nm
  | RFscreate nm => sysfscreate nm
  | RFsdelete nm => sysfsdelete nm
  | RClose fd => value (sysclose fd)
  | RRead fd buf bufsz => '(n, got) ← sysread fd bufsz; mret (Some (n, [(buf, got)]))
  | RWrite fd buf len => value (syswrite fd (sv_bytes sv buf len) len)
  | RIoctl fd cmd arg => '(r, v) ← sysioctl fd cmd (sv_int sv arg); mret (Some (r, stored arg 8 v))
  | RPipe w r =>
      '(rc, v) ← syspipe (match sv_int sv w, sv_int sv r with Some w, Some r => Some (s32 w, s32 r) | _, _ => None end) (sv_create_pipe sv);
      mret (Some (rc, stored w 4 (fst <$> v) ++ stored r 4 (snd <$> v)))
  | RIodup a b => value (sysiodup a b)
  end.
End syscalls.

End Process.
