(* ===== verification/ProcessProofs.v ===== *)
(** * Reference counts of I/O objects

    Every descriptor of every process holds one reference of its object.  The
    count of an object is the number of descriptors that refer to it plus the
    references that drivers and the kernel hold, given by [k].  Within a system
    call the two differ by the references the call has in its hands: [k] then
    says which. *)

From S2P Require Import Prelude Config Io PhysPages PageTable PageTableProofs Threads Process.
Import Threads PhysPages Process.

Module ProcessProofs.

Definition cnt (i : nat) (l : list (option nat)) : Z := Z.of_nat (length (filter (λ o, o = Some i) l)).
Definition held (o : option nat) (i : nat) : Z := if decide (o = Some i) then 1 else 0.

Lemma cnt_nonneg i l : 0 ≤ cnt i l.
Proof. unfold cnt. lia. Qed.

Lemma cnt_le i l : cnt i l ≤ Z.of_nat (length l).
Proof. unfold cnt. pose proof (length_filter (λ o, o = Some i) l). lia. Qed.

Lemma cnt_app i l l' : cnt i (l ++ l') = cnt i l + cnt i l'.
Proof. unfold cnt. rewrite filter_app, length_app. lia. Qed.

Lemma cnt_cons i o l : cnt i (o :: l) = held o i + cnt i l.
Proof. unfold cnt, held. rewrite filter_cons. case_decide; simpl length; lia. Qed.

Lemma cnt_none i l : Forall (λ o, o = None) l → cnt i l = 0.
Proof. induction 1 as [|o l -> _ IH]; [done|]. by rewrite cnt_cons, IH. Qed.

Lemma cnt_setb i fd v l : 0 ≤ fd → (Z.to_nat fd < length l)%nat → cnt i (setb fd v l) = cnt i l + held v i - held (getb None l fd) i.
Proof.
  intros Hfd Hl. unfold setb, getb. generalize dependent (Z.to_nat fd). clear. intros n. revert n.
  induction l as [|o l IH]; intros [|n] Hn; simpl in Hn; [lia..| |]; simpl; rewrite !cnt_cons; [simpl; lia|]. rewrite IH; simpl; lia.
Qed.

(** Descriptors of all processes that refer to [i]. *)
Definition refs (m : gmap nat process) (i : nat) : Z := map_fold (λ _ x acc, cnt i (iotab x) + acc) 0 m.

Lemma refs_new m p x i : m !! p = None → refs (<[p := x]> m) i = cnt i (iotab x) + refs m i.
Proof. intros Hp. unfold refs. rewrite map_fold_insert_L; [done|intros; lia|done]. Qed.

Lemma refs_delete m p x i : m !! p = Some x → refs m i = cnt i (iotab x) + refs (delete p m) i.
Proof. intros Hp. rewrite <- (refs_new (delete p m) p x i) by apply lookup_delete_eq. by rewrite insert_delete_id. Qed.

Lemma refs_update m p x y i : m !! p = Some x → refs (<[p := y]> m) i = refs m i + cnt i (iotab y) - cnt i (iotab x).
Proof.
  intros Hp. rewrite (refs_delete m p x) by done. rewrite <- (insert_delete_eq m), refs_new by apply lookup_delete_eq. lia.
Qed.

Lemma refs_bounds m i : (∀ p x, m !! p = Some x → length (iotab x) = IOMAX) → 0 ≤ refs m i ≤ 16 * Z.of_nat (base.size m).
Proof.
  induction m as [|p x m Hp IH] using map_ind; intros Hl; [done|]. rewrite refs_new, map_size_insert_None by done.
  pose proof (cnt_nonneg i (iotab x)). pose proof (cnt_le i (iotab x)) as Hc. rewrite (Hl p x) in Hc by apply lookup_insert_eq.
  change (Z.of_nat IOMAX) with 16 in Hc.
  destruct IH; [|lia]. intros q y Hq. apply (Hl q). rewrite lookup_insert_ne; [done|]. intros ->. congruence.
Qed.

Lemma refs_pos m i p x fd : m !! p = Some x → slot x fd = Some i → 0 ≤ refs (delete p m) i → 0 < refs m i.
Proof.
  intros Hp Hs H0. rewrite (refs_delete m p x i Hp). assert (0 < cnt i (iotab x)); [|lia].
  unfold slot, getb in Hs. destruct (iotab x !! Z.to_nat fd) as [o|] eqn:E; [|done]. simpl in Hs. subst o.
  apply list_elem_of_lookup_2 in E. apply list_elem_of_split in E as (l1 & l2 & ->). rewrite cnt_app, cnt_cons.
  unfold held. rewrite decide_True by done. pose proof (cnt_nonneg i l1). pose proof (cnt_nonneg i l2). lia.
Qed.

Section refs.
Context {St : Type}.
Implicit Types (s : psys St) (k : nat → Z).

Definition bump k (i : nat) (d : Z) : nat → Z := λ j, if decide (j = i) then k j + d else k j.

Record counted k s : Prop := {
  co_ref i o : ios s !! i = Some o → refcnt o = refs (procs s) i + k i;
  co_live i : 0 < refs (procs s) i ∨ 0 < k i → is_Some (ios s !! i);
  co_len p x : procs s !! p = Some x → length (iotab x) = IOMAX;
  co_few : (base.size (procs s) ≤ 17)%nat
}.

Lemma counted_ext k k' s : (∀ i, k i = k' i) → counted k s → counted k' s.
Proof. intros Hk [H1 H2 H3 H4]. split; [|intros i; rewrite <- Hk; apply H2|done|done]. intros i o Ho. rewrite <- Hk. by apply H1. Qed.

Lemma counted_refs k s i : counted k s → 0 ≤ refs (procs s) i ≤ 272.
Proof. intros [_ _ H3 H4]. pose proof (refs_bounds (procs s) i H3). lia. Qed.

(** A change of the thread and memory managers does not matter. *)
Definition same_objects s s' : Prop := ios s' = ios s ∧ proctab s' = proctab s ∧ procs s' = procs s.

Lemma counted_same k s s' : same_objects s s' → counted k s → counted k s'.
Proof. intros (E1 & E2 & E3) [H1 H2 H3 H4]. split; rewrite ?E3; [|intros i; rewrite E1; apply H2|done|done]. intros i o. rewrite E1. apply H1. Qed.

Lemma on_kern_same {A} (m : M ks A) s r s' : on_kern m s = (r, s') → same_objects s s'.
Proof. unfold on_kern. destruct (m (kern s)) as [x y]. intros E. apply (f_equal snd) in E. simpl in E. by subst s'. Qed.

Lemma on_mm_same {A} (m : M mm A) s r s' : on_mm m s = (r, s') → same_objects s s'.
Proof. unfold on_mm. destruct (m _) as [x y]. intros E. apply (f_equal snd) in E. simpl in E. by subst s'. Qed.

(** ** Frames *)

Definition ids (x : process) : Z * Z := (idx x, tid x).

(** What a call on descriptors leaves alone; objects do not disappear. *)
Record framed s s' : Prop := {
  fr_kern : kern s' = kern s;
  fr_tab : proctab s' = proctab s;
  fr_ids p : ids <$> procs s' !! p = ids <$> procs s !! p;
  fr_ios i : is_Some (ios s !! i) → is_Some (ios s' !! i)
}.

#[global] Instance framed_refl : Reflexive framed.
Proof. by split. Qed.
#[global] Instance framed_trans : Transitive framed.
Proof. intros s1 s2 s3 [] []; split; [congruence..|]. auto. Qed.

Lemma framed_io s i o : framed s (with_ios s (<[i := o]> (ios s))).
Proof.
  split; [done..|]. intros j Hj. cbn [ios with_ios].
  destruct (decide (j = i)) as [->|]; [rewrite lookup_insert_eq; eauto|by rewrite lookup_insert_ne].
Qed.

Lemma framed_proc s p x y : procs s !! p = Some x → ids y = ids x → framed s (with_procs s (<[p := y]> (procs s))).
Proof.
  intros Hp Hi. split; [done..| |done]. intros q. cbn [procs with_procs].
  destruct (decide (q = p)) as [->|]; [by rewrite lookup_insert_eq, Hp; simpl; rewrite Hi|by rewrite lookup_insert_ne].
Qed.

Lemma framed_live s s' p : framed s s' → is_Some (procs s !! p) → is_Some (procs s' !! p).
Proof. intros [_ _ H _] [x Hx]. specialize (H p). rewrite Hx in H. destruct (procs s' !! p); [eauto|done]. Qed.

(** ** The primitive operations *)

Lemma put_io_counted k s i o o' d : counted k s → ios s !! i = Some o → refcnt o' = refcnt o + d →
  counted (bump k i d) (with_ios s (<[i := o']> (ios s))).
Proof.
  intros [H1 H2 H3 H4] Ho Hd. split; [| |done|done]; cbn [ios with_ios procs].
  - intros j y. unfold bump. case_decide as E; [subst j; rewrite lookup_insert_eq; intros [= <-]; rewrite Hd, (H1 i o Ho); lia|].
    rewrite lookup_insert_ne by done. apply H1.
  - intros j Hj. destruct (decide (j = i)) as [->|Hne]; [rewrite lookup_insert_eq; eauto|]. rewrite lookup_insert_ne by done.
    apply H2. unfold bump in Hj. by rewrite decide_False in Hj by done.
Qed.

Lemma addref_ok k s i : counted k s → is_Some (ios s !! i) → 0 ≤ refs (procs s) i + k i < 2 ^ 63 →
  ∃ m, addref i s = (Ret tt, with_ios s m) ∧ counted (bump k i 1) (with_ios s m) ∧ framed s (with_ios s m).
Proof.
  intros Hc [o Ho] Hk. exists (<[i := ioaddref o]> (ios s)). split_and!; [| |apply framed_io].
  - unfold addref, get_io. rewrite bind_bind. kgets. by rewrite Ho.
  - apply (put_io_counted k s i o); [done|done|]. simpl. rewrite (co_ref k s Hc i o Ho). apply u64_small. lia.
Qed.

Lemma close_ok k s i : counted k s → is_Some (ios s !! i) → 0 < refs (procs s) i + k i →
  ∃ m, close i s = (Ret tt, with_ios s m) ∧ counted (bump k i (-1)) (with_ios s m) ∧ framed s (with_ios s m).
Proof.
  intros Hc [o Ho] Hk. pose proof (co_ref k s Hc i o Ho) as Hr.
  assert (∃ o', ioclose o = (Ret tt, o') ∧ refcnt o' = refcnt o + -1) as (o' & E & Ho').
  { unfold ioclose. rewrite (proj2 (Z.eqb_neq _ 0)) by lia. cbn [with_refcnt refcnt intf ist].
    destruct (refcnt o - 1 =? 0); [destruct (i_close (intf o))|]; by eexists. }
  exists (<[i := o']> (ios s)). split_and!; [| |apply framed_io].
  - unfold close, get_io. rewrite bind_bind. kgets. rewrite Ho. cbn [deref]. kret. by rewrite E.
  - by apply (put_io_counted k s i o).
Qed.

Definition set_tab (x : process) fd (v : option nat) : process := Proc (idx x) (tid x) (setb fd v (iotab x)).

Lemma set_slot_ok k s p x fd v : counted k s → procs s !! p = Some x → valid_fd fd = true →
  (∀ i, v = Some i → is_Some (ios s !! i)) →
  set_slot p fd v s = (Ret tt, with_procs s (<[p := set_tab x fd v]> (procs s))) ∧
  counted (λ i, k i + held (slot x fd) i - held v i) (with_procs s (<[p := set_tab x fd v]> (procs s))).
Proof.
  intros Hc Hp Hfd Hv. unfold valid_fd, PROCESS_IOMAX in Hfd. kbool. split.
  { unfold set_slot, get_proc. rewrite bind_bind. kgets. by rewrite Hp. }
  pose proof (co_len k s Hc p x Hp) as Hl.
  assert (∀ i, refs (<[p := set_tab x fd v]> (procs s)) i = refs (procs s) i + held v i - held (slot x fd) i) as Hrefs.
  { intros i. rewrite (refs_update _ _ x) by done. cbn [iotab set_tab]. rewrite cnt_setb; [unfold slot; lia|lia|].
    rewrite Hl. change IOMAX with 16%nat. lia. }
  destruct Hc as [H1 H2 H3 H4]. split; cbn [ios with_procs procs].
  - intros i o Ho. rewrite Hrefs, (H1 i o Ho). lia.
  - intros i Hi. rewrite Hrefs in Hi. destruct (decide (v = Some i)) as [E|E]; [by apply Hv|].
    apply H2. unfold held in Hi. rewrite (decide_False (P := v = Some i)) in Hi by done. destruct (decide (slot x fd = Some i)) as [E'|]; [|lia].
    left. apply (refs_pos _ _ p x fd Hp E'). pose proof (refs_bounds (delete p (procs s)) i) as Hb. apply Hb.
    intros q y [_ Hq]%lookup_delete_Some. by apply (H3 q).
  - intros q y. destruct (decide (q = p)) as [->|]; [rewrite lookup_insert_eq; intros [= <-]; cbn [iotab set_tab]; by rewrite length_setb|].
    rewrite lookup_insert_ne by done. apply H3.
  - rewrite map_size_insert_Some by done. done.
Qed.

(** ** Descriptors *)

Definition other_slots fd (x y : process) : Prop := ∀ fd', 0 ≤ fd' → fd' ≠ fd → slot y fd' = slot x fd'.

Lemma slot_set x fd v : valid_fd fd = true → length (iotab x) = IOMAX →
  slot (set_tab x fd v) fd = v ∧ other_slots fd x (set_tab x fd v).
Proof.
  intros Hfd Hl. unfold valid_fd, PROCESS_IOMAX in Hfd. kbool. unfold slot. cbn [iotab set_tab]. split.
  - apply getb_setb_same; [lia|]. rewrite Hl. change IOMAX with 16%nat. lia.
  - intros fd' Hfd' Hne. apply getb_setb_ne; lia.
Qed.

Lemma lookup_of_insert {m m' : gmap nat process} {p y} : m' = <[p := y]> m → m' !! p = Some y.
Proof. intros ->. apply lookup_insert_eq. Qed.

Definition vacate (p : nat) (x : process) fd : M (psys St) unit :=
  match slot x fd with Some old => close old;; set_slot p fd None | None => mret tt end.

Lemma slot_live k s p x fd i : counted k s → procs s !! p = Some x → slot x fd = Some i → 0 < refs (procs s) i ∧ is_Some (ios s !! i).
Proof.
  intros Hc Hp Hs. assert (0 < refs (procs s) i) as H; [|split; [done|apply (co_live k s Hc); by left]].
  apply (refs_pos _ _ p x fd Hp Hs). apply refs_bounds. intros q y [_ Hq]%lookup_delete_Some. by apply (co_len k s Hc q).
Qed.

Lemma vacate_ok k s p x fd : counted k s → (∀ i, 0 ≤ k i) → procs s !! p = Some x → valid_fd fd = true →
  ∃ s' y, vacate p x fd s = (Ret tt, s') ∧ counted k s' ∧ framed s s' ∧ procs s' = <[p := y]> (procs s) ∧ slot y fd = None ∧ other_slots fd x y ∧ ids y = ids x.
Proof.
  intros Hc Hk Hp Hfd. unfold vacate. destruct (slot x fd) as [old|] eqn:Hs; [|by exists s, x; rewrite insert_id].
  destruct (slot_live k s p x fd old Hc Hp Hs) as [Hr Hio]. pose proof (Hk old).
  destruct (close_ok k s old Hc Hio) as (m & E1 & Hc1 & F1); [lia|].
  destruct (set_slot_ok _ (with_ios s m) p x fd None Hc1 Hp Hfd) as [E2 Hc2]; [done|]. krun E1. eexists _, (set_tab x fd None).
  split; [exact E2|]. split_and!.
  - revert Hc2. apply counted_ext. intros i. rewrite Hs. unfold bump, held. rewrite (decide_False (P := None = Some i)) by done.
    destruct (decide (i = old)) as [->|]; [rewrite decide_True by done; lia|rewrite decide_False by congruence; lia].
  - etransitivity; [exact F1|]. by apply (framed_proc _ p x).
  - done.
  - apply slot_set; [done|by apply (co_len k s Hc p)].
  - apply slot_set; [done|by apply (co_len k s Hc p)].
  - done.
Qed.

(** Storing a reference that the call holds. *)
Lemma store_ok k s p x fd i : counted (bump k i 1) s → procs s !! p = Some x → valid_fd fd = true → slot x fd = None →
  is_Some (ios s !! i) →
  ∃ s' y, set_slot p fd (Some i) s = (Ret tt, s') ∧ counted k s' ∧ framed s s' ∧ procs s' = <[p := y]> (procs s) ∧ slot y fd = Some i ∧ other_slots fd x y ∧ ids y = ids x.
Proof.
  intros Hc Hp Hfd Hs Hio. destruct (set_slot_ok _ s p x fd (Some i) Hc Hp Hfd) as [E Hc']; [by intros ? [= <-]|].
  eexists _, (set_tab x fd (Some i)). split; [exact E|]. split_and!.
  - revert Hc'. apply counted_ext. intros j. rewrite Hs. unfold bump, held. rewrite (decide_False (P := None = Some j)) by done.
    destruct (decide (j = i)) as [->|]; [rewrite decide_True by done; lia|rewrite decide_False by congruence; lia].
  - by apply (framed_proc _ p x).
  - done.
  - apply slot_set; [done|by apply (co_len _ s Hc p)].
  - apply slot_set; [done|by apply (co_len _ s Hc p)].
  - done.
Qed.

(** The process of the running thread, if it has one, exists. *)
Definition cur_ok s (o : option nat) : Prop :=
  running_thread_process (kern s) = (Ret o, kern s) ∧ ∀ p, o = Some p → is_Some (procs s !! p).

Lemma current_run s o : cur_ok s o → current_process s = (Ret o, s).
Proof. intros [E _]. unfold current_process, on_kern. rewrite E. by destruct s. Qed.

Lemma cur_framed s s' o : framed s s' → cur_ok s o → cur_ok s' o.
Proof. intros F [E H]. split; [by rewrite (fr_kern _ _ F)|]. intros p Hp. apply (framed_live s); auto. Qed.

Lemma get_proc_run s p x : procs s !! p = Some x → get_proc p s = (Ret x, s).
Proof. intros Hp. unfold get_proc. kgets. by rewrite Hp. Qed.

(** ** System calls on descriptors *)

(** Outside of system calls: nobody holds less than nothing, there are not
    too many references, and the process table lists the processes. *)
Record pinv k s : Prop := {
  pi_counted : counted k s;
  pi_k i : 0 ≤ k i ≤ 2 ^ 32;
  pi_len : length (proctab s) = Z.to_nat NPROC;
  pi_tab p x : procs s !! p = Some x → 0 ≤ idx x < NPROC ∧ getb None (proctab s) (idx x) = Some p
}.

Lemma pinv_framed k s s' : pinv k s → counted k s' → framed s s' → pinv k s'.
Proof.
  intros [H1 H2 H3 H4] Hc F. split; [done|done|by rewrite (fr_tab _ _ F)|]. intros p x Hp. rewrite (fr_tab _ _ F).
  pose proof (fr_ids _ _ F p) as Hi. rewrite Hp in Hi. destruct (procs s !! p) as [y|] eqn:Hy; [|done].
  simpl in Hi. injection Hi as Ei _. rewrite Ei. by apply H4.
Qed.

(** What every call on descriptors does. *)
Definition fine {A} k s (m : M (psys St) A) (P : A → psys St → Prop) : Prop :=
  ∃ a s', m s = (Ret a, s') ∧ pinv k s' ∧ framed s s' ∧ P a s'.

Lemma fine_ret {A} k s (a : A) (P : A → psys St → Prop) : pinv k s → P a s → fine k s (mret a) P.
Proof. intros Hs HP. by exists a, s. Qed.

(** The object behind a descriptor of the running process. *)
Definition fd_object s fd : option nat :=
  match running_thread_process (kern s) with
  | (Ret (Some p), _) => if valid_fd fd then x ← procs s !! p; slot x fd else None
  | _ => None
  end.

Lemma fd_object_proc s p x fd : cur_ok s (Some p) → procs s !! p = Some x → valid_fd fd = true → fd_object s fd = slot x fd.
Proof. intros [E _] Hp Hfd. unfold fd_object. rewrite E, Hfd. by rewrite Hp. Qed.

Lemma fd_to_io_run s o fd : cur_ok s o → fd_to_io fd s = (Ret (fd_object s fd), s).
Proof.
  intros Hcur. unfold fd_to_io, fd_object. destruct Hcur as [E H] eqn:Hc. clear Hc. rewrite E.
  destruct (valid_fd fd); cbn [negb]; [|by destruct o]. krun (current_run s o (conj E H)). destruct o as [p|]; [|done].
  destruct (H p eq_refl) as [x Hx]. krun (get_proc_run s p x Hx). by rewrite Hx.
Qed.

Lemma sysclose_ok k s o fd : pinv k s → cur_ok s o →
  fine k s (sysclose fd) (λ r s', match fd_object s fd with
    | None => r = - EINVAL ∧ s' = s
    | Some _ => r = 0 ∧ fd_object s' fd = None ∧ ∀ fd', fd' ≠ fd → fd_object s' fd' = fd_object s fd'
    end).
Proof.
  intros Hs Hcur. unfold sysclose. destruct (valid_fd fd) eqn:Hfd; cbn [negb].
  2: { apply fine_ret; [done|]. unfold fd_object. rewrite (proj1 Hcur), Hfd. by destruct o. }
  destruct o as [p|].
  2: { exists (- EINVAL), s. krun (current_run s _ Hcur). split_and!; [done|done|done|]. unfold fd_object. by rewrite (proj1 Hcur). }
  destruct (proj2 Hcur p eq_refl) as [x Hx]. rewrite (fd_object_proc s p x fd Hcur Hx Hfd).
  destruct (vacate_ok k s p x fd (pi_counted k s Hs) (λ i, proj1 (pi_k k s Hs i)) Hx Hfd) as (s' & y & E & Hc' & F & Hps & Hn & Ho & _).
  pose proof (lookup_of_insert Hps) as Hy.
  unfold fine. krun (current_run s _ Hcur). krun (get_proc_run s p x Hx). unfold vacate in E. destruct (slot x fd) as [i|] eqn:Hsl.
  - exists 0, s'. split; [rewrite <- (bind_bind (close i)); by krun E|].
    split_and!; [by apply (pinv_framed k s)|done|done| |].
    + rewrite (fd_object_proc s' p y fd); [done|by apply (cur_framed s)|done|done].
    + intros fd' Hne. pose proof (cur_framed s s' _ F Hcur) as [E' _]. unfold fd_object. rewrite E', (proj1 Hcur).
      destruct (valid_fd fd') eqn:Hv; [|done]. rewrite Hy, Hx. simpl. apply Ho; [|done]. unfold valid_fd in Hv. kbool. lia.
  - by exists (- EINVAL), s.
Qed.

Lemma bump_back k i d j : bump (bump k i d) i (- d) j = k j.
Proof. unfold bump. case_decide; lia. Qed.

Lemma bump_nonneg k i : (∀ j, 0 ≤ k j) → ∀ j, 0 ≤ bump k i 1 j.
Proof. intros H j. unfold bump. pose proof (H j). case_decide; lia. Qed.

Lemma held_live k s i : counted (bump k i 1) s → 0 ≤ k i → is_Some (ios s !! i) ∧ 0 < refs (procs s) i + bump k i 1 i.
Proof.
  intros Hc Hk. pose proof (counted_refs _ _ i Hc). assert (bump k i 1 i = k i + 1) as Hb by (unfold bump; by rewrite decide_True).
  split; [|lia]. apply (co_live _ _ Hc). right. lia.
Qed.

(** Giving up the reference in hand. *)
Lemma drop_ok k s i : counted (bump k i 1) s → 0 ≤ k i → ∃ s', close i s = (Ret tt, s') ∧ counted k s' ∧ framed s s'.
Proof.
  intros Hc Hk. destruct (held_live k s i Hc Hk) as [Hio Hr]. destruct (close_ok _ s i Hc Hio Hr) as (m & E & Hc' & F).
  exists (with_ios s m). split_and!; [done| |done]. revert Hc'. apply counted_ext. apply bump_back.
Qed.

Lemma slot_lookup x fd : length (iotab x) = IOMAX → valid_fd fd = true → iotab x !! Z.to_nat fd = Some (slot x fd).
Proof.
  intros Hl Hfd. unfold valid_fd, PROCESS_IOMAX in Hfd. kbool. unfold slot, getb.
  destruct (iotab x !! Z.to_nat fd) as [o|] eqn:Hlk; [done|]. apply lookup_ge_None in Hlk. rewrite Hl in Hlk. change IOMAX with 16%nat in Hlk. lia.
Qed.

Lemma find_free_fd_ok x : length (iotab x) = IOMAX →
  (find_free_fd x = - EMFILE ∧ ∀ fd, valid_fd fd = true → slot x fd ≠ None) ∨
  (valid_fd (find_free_fd x) = true ∧ slot x (find_free_fd x) = None ∧ 0 ≤ find_free_fd x ∧
   ∀ fd, 0 ≤ fd < find_free_fd x → slot x fd ≠ None).
Proof.
  intros Hl. unfold find_free_fd. rewrite take_ge by lia. destruct (findi _ (iotab x)) as [j|] eqn:E.
  - right. pose proof (findi_lt _ _ _ E) as Hj. rewrite Hl in Hj. change IOMAX with 16%nat in Hj.
    apply findi_Some in E as [(o & Ho & Hn) Hbefore]. destruct o; [done|].
    split_and!; [unfold valid_fd, PROCESS_IOMAX; lia|unfold slot, getb; by rewrite Nat2Z.id, Ho|lia|].
    intros fd Hfd. pose proof (slot_lookup x fd Hl ltac:(unfold valid_fd, PROCESS_IOMAX; lia)) as Hlk.
    specialize (Hbefore (Z.to_nat fd) _ ltac:(lia) Hlk). by destruct (slot x fd).
  - left. split; [done|]. intros fd Hfd. rewrite findi_None in E. specialize (E _ _ (slot_lookup x fd Hl Hfd)). by destruct (slot x fd).
Qed.

Lemma install_io_ok k s o fd i : counted (bump k i 1) s → (∀ j, 0 ≤ k j) → cur_ok s o →
  ∃ rc s', install_io fd (Some i) s = (Ret rc, s') ∧ framed s s' ∧
    (rc = 0 ∧ counted k s' ∧ fd_object s' fd = Some i ∨ rc = - EINVAL ∧ s' = s ∧ (valid_fd fd = false ∨ o = None)).
Proof.
  intros Hc Hk Hcur. unfold install_io. destruct (valid_fd fd) eqn:Hfd; cbn [negb]; [|exists (- EINVAL), s; split_and!; [done|done|right; auto]].
  krun (current_run s o Hcur). destruct o as [p|]; [|exists (- EINVAL), s; split_and!; [done|done|right; auto]].
  destruct (proj2 Hcur p eq_refl) as [x Hx]. krun (get_proc_run s p x Hx). fold (vacate p x fd).
  destruct (vacate_ok _ s p x fd Hc (bump_nonneg k i Hk) Hx Hfd) as (s1 & y & E1 & Hc1 & F1 & Hps & Hn & _). krun E1.
  pose proof (lookup_of_insert Hps) as Hy.
  destruct (held_live k s1 i Hc1 (Hk i)) as [Hio _].
  destruct (store_ok k s1 p y fd i Hc1 Hy Hfd Hn Hio) as (s2 & z & E2 & Hc2 & F2 & Hps2 & Hsz & _). krun E2.
  pose proof (lookup_of_insert Hps2) as Hz.
  exists 0, s2. split_and!; [done|by etransitivity|]. left. split_and!; [done|done|].
  rewrite (fd_object_proc s2 p z); [done| |done|done]. apply (cur_framed s); [by etransitivity|done].
Qed.

(** What opening a device or a file promises when it returns: a reference to
    give away. *)
Class Opener (op : M (psys St) (Z * option nat)) : Prop := {
  op_law k s rc i s' : pinv k s → op s = (Ret (rc, i), s') → framed s s' ∧
    if rc =? 0 then ∃ j, i = Some j ∧ counted (bump k j 1) s' else counted k s'
}.

Lemma sysopen_ok k s o fd op rc i s1 : Opener op → pinv k s → cur_ok s o → op s = (Ret (rc, i), s1) →
  fine k s (sysopen fd op) (λ r s', r < 0 ∨ 0 ≤ r ∧ is_Some (fd_object s' r) ∨ ∃ i s1, op s = (Ret (r, i), s1) ∧ r ≠ 0).
Proof.
  intros Hop Hs Hcur E. assert (∀ j, 0 ≤ k j) as Hk by (intros j; apply (pi_k k s Hs)).
  destruct (op_law k s rc i s1 Hs E) as (F & Hrc). unfold fine, sysopen. krun E. cbv beta iota.
  destruct (Z.eqb_spec rc 0) as [->|Hne]; cbn [negb].
  2: { exists rc, s1. split_and!; [done|by apply (pinv_framed k s)|done|]. right; right. eauto. }
  destruct Hrc as (j & -> & Hc). cbn [deref]. kret. pose proof (cur_framed s s1 o F Hcur) as Hcur1.
  destruct (drop_ok k s1 j Hc (Hk j)) as (sd & Ed & Hcd & Fd).
  assert (∀ fd', ∃ r s', (rc ← install_io fd' (Some j); (if negb (rc =? 0) then close j else mret tt);; mret (if rc <? 0 then rc else fd')) s1 = (Ret r, s') ∧
    counted k s' ∧ framed s s' ∧ (r < 0 ∨ r = fd' ∧ is_Some (fd_object s' fd'))) as Hinst.
  { intros fd'. destruct (install_io_ok k s1 o fd' j Hc Hk Hcur1) as (rc & s2 & E2 & F2 & [(-> & Hc2 & Hobj)|(-> & -> & _)]); krun E2.
    - cbn [Z.eqb negb Z.ltb]. kret. exists fd', s2. split_and!; [done|done|by etransitivity|]. right. by rewrite Hobj.
    - change (- EINVAL =? 0) with false. cbn [negb]. krun Ed. exists (- EINVAL), sd. split_and!; [done|done|by etransitivity|by left]. }
  assert (∀ e, e < 0 → ∃ r s', ((close j;; mret (inr e)) ≫= λ r : Z + Z, match r with inr e => mret e | inl fd =>
     rc ← install_io fd (Some j); (if negb (rc =? 0) then close j else mret tt);; mret (if rc <? 0 then rc else fd) end) s1 = (Ret r, s') ∧
    counted k s' ∧ framed s s' ∧ r < 0) as Hdrop.
  { intros e He. rewrite bind_bind. krun Ed. kret. exists e, sd. split_and!; [done|done|by etransitivity|done]. }
  destruct (Z.ltb_spec fd 0) as [Hneg|Hpos].
  - destruct o as [p|].
    2: { rewrite bind_bind. krun (current_run s1 _ Hcur1). destruct (Hdrop (- EINVAL) ltac:(done)) as (r & s' & -> & Hc' & F' & Hr).
         exists r, s'. split_and!; [done|by apply (pinv_framed k s)|done|by left]. }
    destruct (proj2 Hcur1 p eq_refl) as [x Hx]. rewrite bind_bind. krun (current_run s1 _ Hcur1). rewrite bind_bind. krun (get_proc_run s1 p x Hx).
    destruct (find_free_fd_ok x (co_len _ s1 Hc p x Hx)) as [[-> _]|(Hv & _ & H0 & _)].
    + change (- EMFILE <? 0) with true. cbv iota zeta. destruct (Hdrop (- EMFILE) ltac:(done)) as (r & s' & -> & Hc' & F' & Hr).
      exists r, s'. split_and!; [done|by apply (pinv_framed k s)|done|by left].
    + cbv zeta. rewrite (proj2 (Z.ltb_ge _ 0)) by done. kret. destruct (Hinst (find_free_fd x)) as (r & s' & -> & Hc' & F' & Hr).
      exists r, s'. split_and!; [done|by apply (pinv_framed k s)|done|]. destruct Hr as [?|[-> ?]]; [by left|right; left; done].
  - kret. destruct (Hinst fd) as (r & s' & -> & Hc' & F' & Hr).
    exists r, s'. split_and!; [done|by apply (pinv_framed k s)|done|]. destruct Hr as [?|[-> ?]]; [by left|right; left; done].
Qed.

Lemma sysopen_inv k s o fd op r s' : Opener op → pinv k s → cur_ok s o → sysopen fd op s = (Ret r, s') → pinv k s'.
Proof.
  intros Hop Hs Hcur Hrun. pose proof Hrun as ([rc i] & s1 & E & _)%bind_ret_inv.
  destruct (sysopen_ok k s o fd op rc i s1 Hop Hs Hcur E) as (a & s2 & E2 & Hs2 & _). rewrite E2 in Hrun. apply (f_equal snd) in Hrun. simpl in Hrun. by subst s2.
Qed.

(** What duplicating the descriptor of the object [i] gives: the requested
    descriptor, or the lowest free one when none is requested. *)
Definition duplicated s (i : nat) (newfd r : Z) s' : Prop :=
  PROCESS_IOMAX ≤ newfd ∧ r = - EBADFD ∧ s' = s ∨
  newfd < 0 ∧ (∀ fd, valid_fd fd = true → fd_object s fd ≠ None) ∧ r = - EMFILE ∧ s' = s ∨
  valid_fd r = true ∧ (0 ≤ newfd → r = newfd) ∧ (newfd < 0 → fd_object s r = None ∧ ∀ fd, 0 ≤ fd < r → fd_object s fd ≠ None) ∧
    fd_object s' r = Some i ∧ ∀ fd, fd ≠ r → fd_object s' fd = fd_object s fd.

Lemma sysiodup_ok k s o oldfd newfd : pinv k s → cur_ok s o →
  fine k s (sysiodup oldfd newfd) (λ r s', match fd_object s oldfd with
    | None => r = (match o with None => - EINVAL | Some _ => - EBADFD end) ∧ s' = s
    | Some i => duplicated s i newfd r s'
    end).
Proof.
  intros Hs Hcur. assert (∀ j, 0 ≤ k j) as Hk by (intros j; apply (pi_k k s Hs)). pose proof (pi_counted k s Hs) as Hc.
  unfold sysiodup, fine. krun (current_run s o Hcur). destruct o as [p|].
  2: { exists (- EINVAL), s. split_and!; [done..|]. unfold fd_object. by rewrite (proj1 Hcur). }
  destruct (proj2 Hcur p eq_refl) as [x Hx]. krun (get_proc_run s p x Hx). destruct (valid_fd oldfd) eqn:Hold; cbn [negb].
  2: { exists (- EBADFD), s. split_and!; [done..|]. unfold fd_object. by rewrite (proj1 Hcur), Hold. }
  rewrite (fd_object_proc s p x oldfd Hcur Hx Hold). destruct (slot x oldfd) as [i|] eqn:Hsl; [|by exists (- EBADFD), s].
  set (fd := if newfd <? 0 then find_free_fd x else newfd). cbv zeta.
  pose proof (co_len k s Hc p x Hx) as Hl.
  assert (fd < 0 → newfd < 0 ∧ (∀ fd, valid_fd fd = true → fd_object s fd ≠ None) ∧ fd = - EMFILE) as Hfull.
  { unfold fd. destruct (Z.ltb_spec newfd 0) as [H0|H0]; [|lia]. intros Hneg. split; [done|].
    destruct (find_free_fd_ok x Hl) as [[Ef Hno]|(_ & _ & ? & _)]; [|lia]. split; [|done].
    intros fd' Hv. rewrite (fd_object_proc s p x fd' Hcur Hx Hv). by apply Hno. }
  destruct (Z.ltb_spec fd 0) as [Hneg|Hpos].
  { exists fd, s. split_and!; [done|done|done|]. right; left. destruct (Hfull Hneg) as (? & ? & ?). by split_and!. }
  assert (valid_fd fd = false → PROCESS_IOMAX ≤ newfd) as Hbig.
  { unfold fd in *. destruct (Z.ltb_spec newfd 0) as [H0|H0]; [|unfold valid_fd; intros Hv; kbool; lia].
    destruct (find_free_fd_ok x Hl) as [[Ef _]|(-> & _)]; [|done]. rewrite Ef in Hpos. unfold EMFILE in Hpos. lia. }
  assert (newfd < 0 → fd_object s fd = None ∧ ∀ fd', 0 ≤ fd' < fd → fd_object s fd' ≠ None) as Hlow.
  { intros H0. unfold fd in *. rewrite (proj2 (Z.ltb_lt _ _)) in * by done.
    destruct (find_free_fd_ok x Hl) as [[Ef _]|(Hv & Hn & _ & Hb)]; [rewrite Ef in Hpos; unfold EMFILE in Hpos; lia|].
    split; [by rewrite (fd_object_proc s p x)|]. intros fd' Hfd'. rewrite (fd_object_proc s p x); [by apply Hb|done|done|].
    unfold valid_fd in *. kbool. lia. }
  destruct (valid_fd fd) eqn:Hfd; cbn [negb]; [|exists (- EBADFD), s; split_and!; [done|done|done|left; by auto]].
  assert (0 ≤ newfd → fd = newfd) as Hnew by (unfold fd; destruct (Z.ltb_spec newfd 0); lia).
  destruct (Z.eqb_spec oldfd fd) as [<-|Hne].
  { exists oldfd, s. split_and!; [done..|]. right; right. split_and!; [done|done|done|by rewrite (fd_object_proc s p x oldfd Hcur Hx Hold)|done]. }
  fold (vacate p x fd). destruct (vacate_ok k s p x fd Hc Hk Hx Hfd) as (s1 & y & E1 & Hc1 & F1 & Hps & Hn & Ho1 & _). krun E1.
  pose proof (lookup_of_insert Hps) as Hy.
  assert (slot y oldfd = Some i) as Hy' by (rewrite Ho1; [done|unfold valid_fd in Hold; kbool; lia|done]).
  destruct (slot_live k s1 p y oldfd i Hc1 Hy Hy') as [Hr Hio]. pose proof (counted_refs k s1 i Hc1). pose proof (pi_k k s Hs i).
  destruct (addref_ok k s1 i Hc1 Hio) as (m & E2 & Hc2 & F2); [lia|]. krun E2.
  destruct (store_ok k (with_ios s1 m) p y fd i Hc2 Hy Hfd Hn) as (s3 & z & E3 & Hc3 & F3 & Hps3 & Hsz & Ho3 & _); [by apply (fr_ios _ _ F2)|]. krun E3.
  pose proof (lookup_of_insert Hps3) as Hz.
  assert (framed s s3) as F by (etransitivity; [exact F1|]; by etransitivity). pose proof (cur_framed s s3 _ F Hcur) as Hcur3.
  exists fd, s3. split_and!; [done|by apply (pinv_framed k s)|done|]. right; right. split_and!; [done|done|done|by rewrite (fd_object_proc s3 p z)|].
  intros fd' Hne'. unfold fd_object. rewrite (proj1 Hcur3), (proj1 Hcur). destruct (valid_fd fd') eqn:Hv; [|done]. rewrite Hz, Hx. simpl.
  unfold valid_fd in Hv. kbool. rewrite Ho3, Ho1; done || lia.
Qed.

(** ** Reading, writing and control *)

Lemma iowrite_loop_returns (f : St → list Z → Z → Z * St) buf len fuel : ∀ pos st,
  0 ≤ pos → (Z.to_nat (len - pos) < fuel)%nat → ∃ r st', iowrite_loop fuel f buf len pos st = (Ret r, st').
Proof.
  induction fuel as [|fuel IH]; intros pos st Hp Hf; [lia|]. cbn [iowrite_loop].
  destruct (f st (drop (Z.to_nat pos) buf) (len - pos)) as [n st1]. destruct (Z.leb_spec n 0); [by eexists _, _|]. cbv zeta.
  destruct (Z.ltb_spec (pos + n) len); [|by eexists _, _]. apply IH; lia.
Qed.

Lemma iowrite_returns buf len (x : io St) : ∃ r x', iowrite buf len x = (Ret r, x') ∧ refcnt x' = refcnt x.
Proof.
  unfold iowrite. destruct (i_write (intf x)) as [f|]; [|by eexists _, x]. destruct (Z.ltb_spec len 0); [by eexists _, x|].
  destruct (iowrite_loop_returns f buf len (S (Z.to_nat len)) 0 (ist x)) as (r & st & ->); [done|lia|]. by eexists _, _.
Qed.

(** Using the object of a descriptor keeps its count. *)
Lemma use_fd_ok {A} k s o fd (none : A) (f : io St → outcome A * io St) :
  pinv k s → cur_ok s o → (∀ x, ∃ a x', f x = (Ret a, x') ∧ refcnt x' = refcnt x) →
  fine k s (i ← fd_to_io fd; match i with
    | None => mret none
    | Some i => x ← get_io i; match f x with (Ret a, x') => put_io i x';; mret a | _ => panic end
    end) (λ r s', match fd_object s fd with
    | None => r = none ∧ s' = s
    | Some i => ∃ x x', ios s !! i = Some x ∧ f x = (Ret r, x') ∧ s' = with_ios s (<[i := x']> (ios s))
    end).
Proof.
  intros Hs Hcur Hf. unfold fine. krun (fd_to_io_run s o fd Hcur). destruct (fd_object s fd) as [i|] eqn:Hobj; [|by exists none, s].
  assert (is_Some (ios s !! i)) as [x Hx].
  { unfold fd_object in Hobj. rewrite (proj1 Hcur) in Hobj. destruct o as [p|]; [|done]. destruct (valid_fd fd); [|done].
    destruct (proj2 Hcur p eq_refl) as [y Hy]. rewrite Hy in Hobj. by apply (slot_live k s p y fd i (pi_counted k s Hs)). }
  assert (get_io i s = (Ret x, s)) as Eg by (unfold get_io; kgets; by rewrite Hx). krun Eg.
  destruct (Hf x) as (a & x' & Ef & Hr). rewrite Ef. exists a, (with_ios s (<[i := x']> (ios s))).
  split_and!; [done| |apply framed_io|by exists x, x']. apply (pinv_framed k s); [done| |apply framed_io].
  apply (counted_ext (bump k i 0)); [intros j; unfold bump; case_decide; lia|]. apply (put_io_counted k s i x); [apply Hs|done|lia].
Qed.

Lemma sysread_ok k s o fd n : pinv k s → cur_ok s o →
  fine k s (sysread fd n) (λ r s', match fd_object s fd with
    | None => r = (- EINVAL, []) ∧ s' = s
    | Some i => ∃ x x', ios s !! i = Some x ∧ ioread x (s64 n) = (r, x') ∧ s' = with_ios s (<[i := x']> (ios s))
    end).
Proof.
  intros Hs Hcur. destruct (use_fd_ok k s o fd (- EINVAL, []) (λ x, let '(n, got, x') := ioread x (s64 n) in (Ret (n, got), x')) Hs Hcur)
    as (a & s' & E & ? & ? & HP).
  { intros x. unfold ioread. destruct (i_read (intf x)) as [f|]; [|by eexists _, x]. destruct (s64 n <? 0); [by eexists _, x|].
    destruct (f (ist x) (s64 n)) as [[n' got] st]. by eexists _, _. }
  exists a, s'. split_and!; [|done|done|].
  - rewrite <- E. unfold sysread, mbind, M_bind. destruct (fd_to_io fd s) as [[[i|]| | |] s1]; try done.
    destruct (get_io i s1) as [[x| | |] s2]; try done. by destruct (ioread x (s64 n)) as [[? ?] ?].
  - destruct (fd_object s fd); [|done]. destruct HP as (x & x' & ? & Ef & ->). exists x, x'. split_and!; [done| |done].
    destruct (ioread x (s64 n)) as [[? ?] ?]. by injection Ef as -> ->.
Qed.

Lemma syswrite_ok k s o fd buf n : pinv k s → cur_ok s o →
  fine k s (syswrite fd buf n) (λ r s', match fd_object s fd with
    | None => r = - EINVAL ∧ s' = s
    | Some i => ∃ x x', ios s !! i = Some x ∧ iowrite buf (s64 n) x = (Ret r, x') ∧ s' = with_ios s (<[i := x']> (ios s))
    end).
Proof.
  intros Hs Hcur. destruct (use_fd_ok k s o fd (- EINVAL) (iowrite buf (s64 n)) Hs Hcur (iowrite_returns buf (s64 n))) as (a & s' & E & ? & ? & HP).
  exists a, s'. split_and!; [|done|done|done].
  rewrite <- E. unfold syswrite, mbind, M_bind. destruct (fd_to_io fd s) as [[[i|]| | |] s1]; try done.
  destruct (get_io i s1) as [[x| | |] s2]; try done. destruct (iowrite_returns buf (s64 n) x) as (r & x' & -> & _). done.
Qed.

Lemma sysioctl_ok k s o fd cmd arg : pinv k s → cur_ok s o →
  fine k s (sysioctl fd cmd arg) (λ r s', match fd_object s fd with
    | None => r = (- EINVAL, arg) ∧ s' = s
    | Some i => ∃ x x' rc, ios s !! i = Some x ∧ ioctl x cmd arg = (rc, r.2, x') ∧ r.1 = s32 rc ∧ s' = with_ios s (<[i := x']> (ios s))
    end).
Proof.
  intros Hs Hcur. destruct (use_fd_ok k s o fd (- EINVAL, arg) (λ x, let '(r, v, x') := ioctl x cmd arg in (Ret (s32 r, v), x')) Hs Hcur)
    as (a & s' & E & ? & ? & HP).
  { intros x. unfold ioctl. destruct (i_cntl (intf x)) as [f|]; [|by eexists _, x]. destruct (f (ist x) cmd arg) as [[r v] st]. by eexists _, _. }
  exists a, s'. split_and!; [|done|done|].
  - rewrite <- E. unfold sysioctl, mbind, M_bind. destruct (fd_to_io fd s) as [[[i|]| | |] s1]; try done.
    destruct (get_io i s1) as [[x| | |] s2]; try done. by destruct (ioctl x cmd arg) as [[? ?] ?].
  - destruct (fd_object s fd); [|done]. destruct HP as (x & x' & ? & Ef & ->). destruct (ioctl x cmd arg) as [[rc v] x1] eqn:Ei.
    injection Ef as <- ->. by exists x, x', rc.
Qed.

(** ** Pipes *)

Definition obump k (o : option nat) : nat → Z := match o with Some i => bump k i 1 | None => k end.

(** What making a pipe promises if it returns: a reference for each end that
    was made.  [create_pipe] of kernel/io.c never does ([Pipe.create_pipe_halts]),
    so the promise is kept; see [no_pipe]. *)
Class PipeMaker (op : M (psys St) (option nat * option nat)) : Prop := {
  pm_law k s w r s' : pinv k s → op s = (Ret (w, r), s') → framed s s' ∧ procs s' = procs s ∧ counted (obump (obump k w) r) s'
}.

Lemma odrop_ok k s o : counted (obump k o) s → (∀ j, 0 ≤ k j) →
  ∃ s', (match o with Some i => close i | None => mret tt end) s = (Ret tt, s') ∧ counted k s' ∧ framed s s'.
Proof. intros Hc Hk. destruct o as [i|]; [by apply drop_ok|by exists s]. Qed.

Lemma obump_swap k o o' : ∀ i, obump (obump k o) o' i = obump (obump k o') o i.
Proof. intros i. destruct o, o'; simpl; unfold bump; repeat case_decide; lia. Qed.

Lemma obump_nonneg k o : (∀ j, 0 ≤ k j) → ∀ j, 0 ≤ obump k o j.
Proof. intros Hk. destruct o; [by apply bump_nonneg|done]. Qed.

(** The guards of [syspipe] leave two different free descriptors. *)
Definition pipe_fds (x : process) (wfd rfd w r : Z) : Prop :=
  valid_fd w = true ∧ valid_fd r = true ∧ w ≠ r ∧ slot x w = None ∧ slot x r = None ∧ (0 ≤ wfd → w = wfd) ∧ (0 ≤ rfd → r = rfd).

Lemma syspipe_store k s p x w r wi ri : counted (obump (obump k (Some wi)) (Some ri)) s → (∀ j, 0 ≤ k j) →
  procs s !! p = Some x → valid_fd w = true → valid_fd r = true → w ≠ r → slot x w = None → slot x r = None →
  ∃ s' y, (set_slot p w (Some wi);; set_slot p r (Some ri)) s = (Ret tt, s') ∧ counted k s' ∧ framed s s' ∧
    procs s' !! p = Some y ∧ slot y w = Some wi ∧ slot y r = Some ri.
Proof.
  intros Hc Hk Hp Hw Hr Hne Hsw Hsr.
  assert (counted (bump (bump k ri 1) wi 1) s) as Hc' by (revert Hc; apply counted_ext; intros i; apply (obump_swap k (Some wi) (Some ri))).
  destruct (held_live _ s wi Hc' (bump_nonneg k ri Hk wi)) as [Hio _].
  destruct (store_ok _ s p x w wi Hc' Hp Hw Hsw Hio) as (s1 & y & E1 & Hc1 & F1 & Hps & Hy & Ho & _). krun E1. pose proof (lookup_of_insert Hps) as Hy1.
  destruct (held_live k s1 ri Hc1 (Hk ri)) as [Hio' _].
  assert (0 ≤ w ∧ 0 ≤ r) as [Hw0 Hr0] by (unfold valid_fd in *; kbool; lia).
  destruct (store_ok k s1 p y r ri Hc1 Hy1 Hr) as (s2 & z & E2 & Hc2 & F2 & Hps2 & Hz & Ho2 & _); [by rewrite Ho by congruence|done|].
  exists s2, z. split_and!; [done|done|by etransitivity|apply (lookup_of_insert Hps2)|by rewrite Ho2|done].
Qed.

Lemma free_pair x (w : Z) : length (iotab x) = IOMAX →
  match findi (λ j : nat, bool_decide (Z.of_nat j ≠ w ∧ slot x (Z.of_nat j) = None)) (seq 0 IOMAX) with
  | Some j => valid_fd (Z.of_nat j) = true ∧ Z.of_nat j ≠ w ∧ slot x (Z.of_nat j) = None
  | None => True
  end.
Proof.
  intros Hl. destruct (findi _ _) as [j|] eqn:E; [|done]. apply findi_Some in E as [(y & Hy & Hb) _].
  apply lookup_seq in Hy as [-> Hj]. change IOMAX with 16%nat in Hj. apply bool_decide_eq_true in Hb as [? ?].
  split_and!; [unfold valid_fd, PROCESS_IOMAX; lia|done..].
Qed.

Lemma syspipe_ok k s o fds op wo ro s1 : PipeMaker op → pinv k s → cur_ok s o → op s = (Ret (wo, ro), s1) →
  fine k s (syspipe fds op) (λ r s', r.1 < 0 ∨ r.1 = 0 ∧ ∃ wfd rfd w rd, fds = Some (wfd, rfd) ∧ r.2 = Some (w, rd) ∧ w ≠ rd ∧
    (0 ≤ wfd → w = wfd) ∧ (0 ≤ rfd → rd = rfd) ∧ fd_object s w = None ∧ fd_object s rd = None ∧
    is_Some (fd_object s' w) ∧ is_Some (fd_object s' rd)).
Proof.
  intros Hop Hs Hcur Eop. assert (∀ j, 0 ≤ k j) as Hk by (intros j; apply (pi_k k s Hs)). pose proof (pi_counted k s Hs) as Hc.
  assert (∀ e v, e < 0 → fine k s (mret (e, v)) (λ r s', r.1 < 0 ∨ r.1 = 0 ∧ ∃ wfd rfd w rd, fds = Some (wfd, rfd) ∧ r.2 = Some (w, rd) ∧ w ≠ rd ∧
    (0 ≤ wfd → w = wfd) ∧ (0 ≤ rfd → rd = rfd) ∧ fd_object s w = None ∧ fd_object s rd = None ∧
    is_Some (fd_object s' w) ∧ is_Some (fd_object s' rd))) as Herr.
  { intros e v He. apply fine_ret; [done|by left]. }
  unfold syspipe. destruct fds as [[wfd rfd]|]; [|by apply Herr]. unfold fine at 1. krun (current_run s o Hcur).
  destruct o as [p|]; [|by apply Herr]. destruct (proj2 Hcur p eq_refl) as [x Hx]. krun (get_proc_run s p x Hx).
  pose proof (co_len k s Hc p x Hx) as Hl. set (w := if wfd <? 0 then find_free_fd x else wfd). cbv zeta.
  destruct (Z.ltb_spec w 0) as [Hw|Hw]; [by apply Herr|].
  destruct (negb (wfd <? 0) && _)%bool eqn:Gw; [by apply Herr|].
  assert (valid_fd w = true ∧ slot x w = None ∧ (0 ≤ wfd → w = wfd)) as (Hwv & Hws & Hwn).
  { unfold w in *. destruct (Z.ltb_spec wfd 0) as [Hneg|Hpos]; cbn [negb andb] in Gw.
    - destruct (find_free_fd_ok x Hl) as [[E _]|(? & ? & _)]; [rewrite E in Hw; unfold EMFILE in Hw; lia|]. split_and!; [done..|lia].
    - apply orb_false_iff in Gw as [G1 G2]. apply negb_false_iff in G1. apply bool_decide_eq_false in G2.
      split_and!; [done|by destruct (slot x wfd); [destruct G2|]|done]. }
  set (rd := if rfd <? 0 then _ else rfd). destruct (Z.ltb_spec rd 0) as [Hrd|Hrd]; [by apply Herr|].
  destruct (negb (rfd <? 0) && _)%bool eqn:Gr; [by apply Herr|]. destruct (Z.eqb_spec w rd) as [|Hne]; [by apply Herr|].
  assert (valid_fd rd = true ∧ slot x rd = None ∧ (0 ≤ rfd → rd = rfd)) as (Hrv & Hrs & Hrn).
  { unfold rd in *. destruct (Z.ltb_spec rfd 0) as [Hneg|Hpos]; cbn [negb andb] in Gr.
    - pose proof (free_pair x w Hl) as Hfp. destruct (findi _ _); [|lia]. split_and!; [apply Hfp|apply Hfp|lia].
    - apply orb_false_iff in Gr as [G1 G2]. apply negb_false_iff in G1. apply bool_decide_eq_false in G2.
      split_and!; [done|by destruct (slot x rfd); [destruct G2|]|done]. }
  destruct (pm_law k s wo ro s1 Hs Eop) as (F & Hps & Hc1). krun Eop. cbv beta iota.
  assert (procs s1 !! p = Some x) as Hx1 by (by rewrite Hps).
  assert (∃ s', ((match wo with Some wi => close wi | None => mret tt end);; (match ro with Some ri => close ri | None => mret tt end)) s1 = (Ret tt, s') ∧
    counted k s' ∧ framed s s') as (sd & Ed & Hcd & Fd).
  { destruct (odrop_ok (obump k ro) s1 wo) as (s2 & E2 & Hc2 & F2); [|by apply obump_nonneg|].
    { revert Hc1. apply counted_ext, obump_swap. }
    krun E2. destruct (odrop_ok k s2 ro Hc2 Hk) as (s3 & E3 & Hc3 & F3). exists s3. split_and!; [done|done|].
    etransitivity; [exact F|]. by etransitivity. }
  assert (∀ e, e = (Ret (- ENOMEM, None), sd) → ∃ (a : Z * option (Z * Z)) s', e = (Ret a, s') ∧ pinv k s' ∧ framed s s' ∧ (a.1 < 0 ∨ a.1 = 0 ∧
    ∃ wfd' rfd' w rd, Some (wfd, rfd) = Some (wfd', rfd') ∧ a.2 = Some (w, rd) ∧ w ≠ rd ∧ (0 ≤ wfd' → w = wfd') ∧ (0 ≤ rfd' → rd = rfd') ∧
    fd_object s w = None ∧ fd_object s rd = None ∧ is_Some (fd_object s' w) ∧ is_Some (fd_object s' rd))) as Hmem.
  { intros e ->. exists (- ENOMEM, None), sd. split_and!; [done|by apply (pinv_framed k s)|done|by left]. }
  destruct wo as [wi|], ro as [ri|]; try (apply Hmem; rewrite <- bind_bind; by krun Ed).
  destruct (syspipe_store k s1 p x w rd wi ri Hc1 Hk Hx1 Hwv Hrv Hne Hws Hrs) as (s2 & y & E2 & Hc2 & F2 & Hy & Hyw & Hyr).
  rewrite <- bind_bind. krun E2. assert (framed s s2) as F' by (by apply (framed_trans s s1)). pose proof (cur_framed s s2 _ F' Hcur) as Hcur2.
  exists (0, Some (w, rd)), s2. split_and!; [done|by apply (pinv_framed k s)|done|]. right. split; [done|]. exists wfd, rfd, w, rd.
  rewrite !(fd_object_proc s p x), !(fd_object_proc s2 p y), Hyw, Hyr by done. split_and!; eauto.
Qed.

(** When making a pipe does not return, no call returns but those that are
    refused before. *)
Lemma syspipe_inv k s o fds op r s' : PipeMaker op → pinv k s → cur_ok s o → syspipe fds op s = (Ret r, s') → pinv k s'.
Proof.
  intros Hop Hs Hcur. destruct (op s) as [[[wo ro]| | |] s1] eqn:E.
  1: { destruct (syspipe_ok k s o fds op wo ro s1 Hop Hs Hcur E) as (a & s2 & E2 & Hs2 & _). rewrite E2. intros Eq. apply (f_equal snd) in Eq.
       simpl in Eq. by subst s2. }
  all: unfold syspipe; destruct fds as [[wfd rfd]|]; [|intros Eq; by injection Eq as _ <-]; krun (current_run s o Hcur);
    destruct o as [p|]; [|intros Eq; by injection Eq as _ <-]; destruct (proj2 Hcur p eq_refl) as [x Hx]; krun (get_proc_run s p x Hx); cbv zeta;
    repeat (match goal with |- context [if ?b then _ else _] => lazymatch b with context [if _ then _ else _] => fail | _ => destruct b end end; try (intros Eq; by injection Eq as _ <-));
    unfold mbind, M_bind; rewrite E; done.
Qed.

(** ** Descriptor tables as a whole *)

Definition taken (x : process) (fd : Z) : list (option nat) := take (Z.to_nat fd) (iotab x).

Lemma taken_next x fd i : length (iotab x) = IOMAX → valid_fd fd = true → cnt i (taken x (fd + 1)) = cnt i (taken x fd) + held (slot x fd) i.
Proof.
  intros Hl Hfd. pose proof (slot_lookup x fd Hl Hfd) as Hs. unfold valid_fd in Hfd. kbool. unfold taken.
  replace (Z.to_nat (fd + 1)) with (S (Z.to_nat fd)) by lia. rewrite (take_S_r _ _ _ Hs), cnt_app, cnt_cons. change (cnt i []) with 0. lia.
Qed.

Lemma taken_le x fd i : length (iotab x) = IOMAX → valid_fd fd = true → slot x fd = Some i → cnt i (taken x fd) < cnt i (iotab x).
Proof.
  intros Hl Hfd Hs. pose proof (taken_next x fd i Hl Hfd) as E. unfold held in E. rewrite Hs, decide_True in E by done.
  rewrite <- (take_drop (Z.to_nat (fd + 1)) (iotab x)), cnt_app. fold (taken x (fd + 1)).
  pose proof (cnt_nonneg i (drop (Z.to_nat (fd + 1)) (iotab x))). lia.
Qed.

(** Closing the descriptors of a process without clearing them. *)
Lemma close_all_ok k p x n : ∀ fd s, counted (λ i, k i - cnt i (taken x fd)) s → (∀ i, 0 ≤ k i) → procs s !! p = Some x →
  0 ≤ fd → fd + Z.of_nat n = PROCESS_IOMAX →
  ∃ s', close_iotab p fd n false s = (Ret tt, s') ∧ counted (λ i, k i - cnt i (iotab x)) s' ∧ framed s s' ∧ procs s' = procs s.
Proof.
  induction n as [|n IH]; intros fd s Hc Hk Hp H0 Hn; pose proof (co_len _ s Hc p x Hp) as Hl.
  { exists s. split_and!; [done| |done|done]. revert Hc. apply counted_ext. intros i. unfold taken. rewrite take_ge; [done|].
    rewrite Hl. unfold PROCESS_IOMAX in Hn. change IOMAX with 16%nat. lia. }
  assert (valid_fd fd = true) as Hfd by (unfold valid_fd, PROCESS_IOMAX in *; lia).
  cbn [close_iotab]. krun (get_proc_run s p x Hp).
  assert (∃ s1, (match slot x fd with Some i => close i;; mret tt | None => mret tt end) s = (Ret tt, s1) ∧
    counted (λ i, k i - cnt i (taken x (fd + 1))) s1 ∧ framed s s1 ∧ procs s1 = procs s) as (s1 & E1 & Hc1 & F1 & Hps).
  { destruct (slot x fd) as [i|] eqn:Hs.
    - destruct (slot_live _ s p x fd i Hc Hp Hs) as [Hr Hio]. pose proof (taken_le x fd i Hl Hfd Hs). pose proof (Hk i).
      pose proof (refs_delete (procs s) p x i Hp) as Hd.
      assert (0 ≤ refs (delete p (procs s)) i) by (apply refs_bounds; intros q y [_ Hq]%lookup_delete_Some; by apply (co_len _ s Hc q)).
      destruct (close_ok _ s i Hc Hio) as (m & E & Hc1 & F); [cbv beta; lia|].
      exists (with_ios s m). split_and!; [by krun E| |done|done]. revert Hc1. apply counted_ext. intros j. rewrite taken_next, Hs by done.
      unfold bump, held. destruct (decide (j = i)) as [->|]; [rewrite decide_True by done; lia|rewrite decide_False by congruence; lia].
    - exists s. split_and!; [done| |done|done]. revert Hc. apply counted_ext. intros j. rewrite taken_next, Hs by done. unfold held. rewrite decide_False by done. lia. }
  krun E1. destruct (IH (fd + 1) s1 Hc1 Hk) as (s2 & E2 & Hc2 & F2 & Hps2); [by rewrite Hps|lia|lia|].
  exists s2. split_and!; [done|done|by apply (framed_trans s s1)|congruence].
Qed.

(** The structure is freed with its references gone. *)
Lemma kfree_ok k s p x : counted (λ i, k i - cnt i (iotab x)) s → procs s !! p = Some x → counted k (with_procs s (delete p (procs s))).
Proof.
  intros [H1 H2 H3 H4] Hp. assert (∀ i, refs (procs s) i = cnt i (iotab x) + refs (delete p (procs s)) i) as Hr by (intros; by apply refs_delete).
  split; cbn [ios with_procs procs].
  - intros i o Ho. rewrite (H1 i o Ho), Hr. lia.
  - intros i Hi. apply H2. rewrite Hr. pose proof (cnt_nonneg i (iotab x)). assert (0 ≤ refs (delete p (procs s)) i); [|lia].
    apply refs_bounds. intros q y [_ Hq]%lookup_delete_Some. by apply (H3 q).
  - intros q y [_ Hq]%lookup_delete_Some. by apply (H3 q).
  - rewrite map_size_delete_Some by done. lia.
Qed.

(** Closing and clearing every descriptor. *)
Lemma clear_all_ok k p n : ∀ fd s x, counted k s → (∀ i, 0 ≤ k i) → procs s !! p = Some x → 0 ≤ fd → fd + Z.of_nat n = PROCESS_IOMAX →
  (∀ fd', 0 ≤ fd' < fd → slot x fd' = None) →
  ∃ s' y, close_iotab p fd n true s = (Ret tt, s') ∧ counted k s' ∧ framed s s' ∧ procs s' = <[p := y]> (procs s) ∧ ids y = ids x ∧
    ∀ i, cnt i (iotab y) = 0.
Proof.
  induction n as [|n IH]; intros fd s x Hc Hk Hp H0 Hn Hnone.
  { exists s, x. rewrite insert_id by done. split_and!; [done..|]. intros i. apply cnt_none, Forall_lookup. intros j o Ho. pose proof (lookup_lt_Some _ _ _ Ho) as Hj. rewrite (co_len k s Hc p x Hp) in Hj.
    specialize (Hnone (Z.of_nat j)). unfold slot, getb in Hnone. rewrite Nat2Z.id, Ho in Hnone. apply Hnone.
    unfold PROCESS_IOMAX in Hn. change IOMAX with 16%nat in Hj. lia. }
  assert (valid_fd fd = true) as Hfd by (unfold valid_fd, PROCESS_IOMAX in *; lia).
  cbn [close_iotab]. krun (get_proc_run s p x Hp). destruct (vacate_ok k s p x fd Hc Hk Hp Hfd) as (s1 & y & E1 & Hc1 & F1 & Hps & Hy & Ho & Hid).
  unfold vacate in E1. krun E1.
  destruct (IH (fd + 1) s1 y Hc1 Hk (lookup_of_insert Hps)) as (s2 & z & E2 & Hc2 & F2 & Hps2 & Hid2 & Hz); [lia|lia| |].
  { intros fd' Hfd'. destruct (decide (fd' = fd)) as [->|]; [done|]. rewrite Ho; [|lia|done]. apply Hnone. lia. }
  exists s2, z. split_and!; [done|done|by apply (framed_trans s s1)|by rewrite Hps2, Hps, insert_insert_eq|congruence|done].
Qed.

(** Copying a descriptor table. *)
Lemma clone_ok k pa ch n : ∀ fd s x y, counted k s → (∀ i, 0 ≤ k i ≤ 2 ^ 32) → pa ≠ ch →
  procs s !! pa = Some x → procs s !! ch = Some y → 0 ≤ fd → fd + Z.of_nat n = PROCESS_IOMAX →
  (∀ fd', fd ≤ fd' → slot y fd' = None) →
  ∃ s' z, clone_iotab pa ch fd n s = (Ret tt, s') ∧ counted k s' ∧ framed s s' ∧ procs s' = <[ch := z]> (procs s) ∧ ids z = ids y ∧
    (∀ fd', 0 ≤ fd' < fd → slot z fd' = slot y fd') ∧ ∀ fd', fd ≤ fd' < PROCESS_IOMAX → slot z fd' = slot x fd'.
Proof.
  induction n as [|n IH]; intros fd s x y Hc Hk Hne Hx Hy H0 Hn Hnone.
  { exists s, y. rewrite insert_id by done. split_and!; [done..|]. intros fd' Hfd'. lia. }
  assert (valid_fd fd = true) as Hfd by (unfold valid_fd, PROCESS_IOMAX in *; lia).
  cbn [clone_iotab]. krun (get_proc_run s pa x Hx).
  assert (∃ s1 y1, (match slot x fd with Some i => addref i;; set_slot ch fd (Some i) | None => mret tt end) s = (Ret tt, s1) ∧ counted k s1 ∧
    framed s s1 ∧ procs s1 = <[ch := y1]> (procs s) ∧ ids y1 = ids y ∧ slot y1 fd = slot x fd ∧ other_slots fd y y1)
    as (s1 & y1 & E1 & Hc1 & F1 & Hps & Hid & Hs1 & Ho1).
  { destruct (slot x fd) as [i|] eqn:Hs.
    - destruct (slot_live k s pa x fd i Hc Hx Hs) as [Hr Hio]. pose proof (counted_refs k s i Hc). pose proof (Hk i).
      destruct (addref_ok k s i Hc Hio) as (m & E & Hc1 & F); [lia|]. krun E.
      destruct (store_ok k (with_ios s m) ch y fd i Hc1 Hy Hfd) as (s2 & z & E2 & Hc2 & F2 & Hps & Hz & Ho & Hid);
        [by apply Hnone|by apply (fr_ios _ _ F)|]. exists s2, z. split_and!; [done|done|by apply (framed_trans s (with_ios s m))|done..].
    - exists s, y. rewrite insert_id by done. split_and!; try done. by apply Hnone. }
  krun E1. destruct (IH (fd + 1) s1 x y1 Hc1 Hk Hne) as (s2 & z & E2 & Hc2 & F2 & Hps2 & Hid2 & Hlow & Hhigh);
    [by rewrite Hps, lookup_insert_ne|apply (lookup_of_insert Hps)|lia|lia|intros fd' Hfd'; rewrite Ho1; [apply Hnone|..]; lia|].
  exists s2, z. split_and!; [done|done|by apply (framed_trans s s1)|by rewrite Hps2, Hps, insert_insert_eq|congruence| |].
  - intros fd' Hfd'. rewrite Hlow by lia. apply Ho1; lia.
  - intros fd' Hfd'. destruct (decide (fd' = fd)) as [->|]; [by rewrite Hlow, Hs1 by lia|apply Hhigh; lia].
Qed.

(** ** Fork and exit *)

Lemma pinv_same k s s' : same_objects s s' → pinv k s → pinv k s'.
Proof. intros Hsame [H1 H2 H3 H4]. pose proof Hsame as (E1 & E2 & E3). split; [by apply (counted_same k s)|done|by rewrite E2|]. intros p x. rewrite E3, E2. apply H4. Qed.

Lemma objects_trans s1 s2 s3 : same_objects s1 s2 → same_objects s2 s3 → same_objects s1 s3.
Proof. intros (? & ? & ?) (? & ? & ?). split_and!; congruence. Qed.

Lemma size_of_list (l : list nat) : (base.size (list_to_set (C := gset nat) l) ≤ length l)%nat.
Proof.
  induction l as [|a l IH]; [done|]. cbn [list_to_set length]. pose proof (size_union_alt {[a]} (list_to_set (C := gset nat) l)) as E.
  rewrite size_singleton in E. pose proof (subseteq_size (list_to_set (C := gset nat) l ∖ {[a]}) (list_to_set l) ltac:(set_solver)). lia.
Qed.

(** Each process has its own entry of the table. *)
Lemma pinv_size k s : pinv k s → (base.size (procs s) ≤ 16)%nat.
Proof.
  intros [_ _ Hl Ht]. rewrite <- size_dom. etransitivity; [|etransitivity; [apply (size_of_list (omap (λ o, o) (proctab s)))|]].
  - apply subseteq_size. intros p [x Hx]%elem_of_dom. destruct (Ht p x Hx) as [Hi Hp]. apply elem_of_list_to_set, list_elem_of_omap.
    exists (Some p). split; [|done]. unfold getb in Hp. destruct (proctab s !! Z.to_nat (idx x)) as [o|] eqn:E; [|done]. simpl in Hp. subst o.
    by apply list_elem_of_lookup_2 in E.
  - assert (∀ l : list (option nat), (length (omap (λ o, o) l) ≤ length l)%nat) as Hle by (induction l as [|[a|] l IH]; [done|..]; cbn; cbn in IH; lia).
    specialize (Hle (proctab s)). rewrite Hl in Hle. done.
Qed.

Lemma counted_zero k s x : counted k s ↔ counted (λ i, k i - cnt i (taken x 0)) s.
Proof.
  assert (∀ i, cnt i (taken x 0) = 0) as H0 by done.
  split; apply counted_ext; intros i; cbv beta; rewrite H0; lia.
Qed.

(** A new structure with an empty table. *)
Lemma new_proc_counted k s p x : pinv k s → procs s !! p = None → iotab x = replicate IOMAX None →
  counted k (with_procs s (<[p := x]> (procs s))).
Proof.
  intros Hs Hp Hx. pose proof (pinv_size k s Hs). destruct (pi_counted k s Hs) as [H1 H2 H3 H4].
  assert (∀ i, refs (<[p := x]> (procs s)) i = refs (procs s) i) as Hr.
  { intros i. rewrite refs_new, Hx, cnt_none; [lia|by apply Forall_replicate|done]. }
  split; cbn [ios with_procs procs].
  - intros i o. rewrite Hr. apply H1.
  - intros i. rewrite Hr. apply H2.
  - intros q y. destruct (decide (q = p)) as [->|]; [rewrite lookup_insert_eq; intros [= <-]; by rewrite Hx|rewrite lookup_insert_ne by done; apply H3].
  - rewrite map_size_insert_None by done. lia.
Qed.

(** Undoing a fork: the child's references are closed and it is freed. *)
Lemma undo_child k s p z : counted k s → (∀ i, 0 ≤ k i) → procs s !! p = Some z →
  ∃ s', close_iotab p 0 IOMAX false s = (Ret tt, s') ∧ framed s s' ∧ procs s' = procs s ∧ counted (λ i, k i - cnt i (iotab z)) s'.
Proof.
  intros Hc Hk Hp. destruct (close_all_ok k p z IOMAX 0 s) as (s' & E & Hc' & F & Hps); [by apply counted_zero|done..|]. eauto.
Qed.

Lemma pinv_tables k s s' : pinv k s → counted k s' → proctab s' = proctab s → procs s' = procs s → pinv k s'.
Proof. intros [_ H2 H3 H4] Hc E1 E2. split; [done|done|by rewrite E1|]. intros p x. rewrite E1, E2. apply H4. Qed.

Lemma getb_insert_tab (tab : list (option nat)) (ix : nat) v (j : Z) : (ix < length tab)%nat → 0 ≤ j →
  getb None (<[ix := v]> tab) j = if decide (j = Z.of_nat ix) then v else getb None tab j.
Proof.
  intros Hl Hj. unfold getb. case_decide as E.
  - subst j. rewrite Nat2Z.id, list_lookup_insert_eq by done. done.
  - rewrite list_lookup_insert_ne by lia. done.
Qed.

(** Changing what is not a descriptor. *)
Lemma retitle_counted k s p z z' : counted k s → procs s !! p = Some z → iotab z' = iotab z →
  counted k (with_procs s (<[p := z']> (procs s))).
Proof.
  intros [H1 H2 H3 H4] Hp Hz. assert (∀ i, refs (<[p := z']> (procs s)) i = refs (procs s) i) as Hr.
  { intros i. rewrite (refs_update _ _ z) by done. rewrite Hz. lia. }
  split; cbn [ios procs with_procs].
  - intros i v. rewrite Hr. apply H1.
  - intros i. rewrite Hr. apply H2.
  - intros q w. destruct (decide (q = p)) as [->|]; [|rewrite lookup_insert_ne by done; apply H3].
    rewrite lookup_insert_eq. intros [= <-]. rewrite Hz. exact (H3 p z Hp).
  - by rewrite map_size_insert_Some.
Qed.

(** A new process in a free entry of the table. *)
Lemma pinv_add k s s' child z (ix : nat) :
  pinv k s → counted k s' → proctab s !! ix = Some None → procs s' = <[child := z]> (procs s) →
  proctab s' = <[ix := Some child]> (proctab s) → idx z = Z.of_nat ix → pinv k s'.
Proof.
  intros Hs Hc Hfree Hps Htab Hix. pose proof (lookup_lt_Some _ _ _ Hfree) as Hlen.
  split; [done|apply Hs|by rewrite Htab, length_insert, (pi_len k s Hs)|]. intros q w. rewrite Hps, Htab.
  destruct (decide (q = child)) as [->|].
  - rewrite lookup_insert_eq. intros [= <-]. rewrite Hix, getb_insert_tab by (done || lia). rewrite decide_True by done.
    rewrite (pi_len k s Hs) in Hlen. unfold NPROC in *. split; [lia|done].
  - rewrite lookup_insert_ne by done. intros Hw. destruct (pi_tab k s Hs q w Hw) as [Hi Hq]. split; [done|].
    rewrite getb_insert_tab by (done || lia). rewrite decide_False; [done|]. intros E. rewrite E in Hq. unfold getb in Hq.
    by rewrite Nat2Z.id, Hfree in Hq.
Qed.

Lemma process_fork_ok k s o child forked t c nm r s' :
  pinv k s → cur_ok s o → procs s !! child = None → process_fork child forked t c nm s = (Ret r, s') →
  pinv k s' ∧ if 0 <? r then ∃ pa x y, o = Some pa ∧ procs s !! pa = Some x ∧ procs s' = <[child := y]> (procs s) ∧
                                 ∀ fd, valid_fd fd = true → slot y fd = slot x fd
              else procs s' = procs s.
Proof.
  intros Hs Hcur Hch. assert (∀ i, 0 ≤ k i) as Hk by (intros i; apply (pi_k k s Hs)).
  unfold process_fork. krun (current_run s o Hcur). destruct o as [pa|]; [|by intros [= <- <-]].
  kgets. destruct (findi _ (list.tail (proctab s))) as [j|] eqn:Hj; [|by intros [= <- <-]].
  destruct (proj2 Hcur pa eq_refl) as [x Hx]. assert (pa ≠ child) as Hne by congruence. cbv zeta.
  set (y := Proc (Z.of_nat (S j)) 0 (replicate IOMAX None)). set (s1 := with_procs s (<[child := y]> (procs s))).
  rewrite (bind_ret (put_proc child y) _ s s1 tt eq_refl), (bind_ret (set_mtag child 0) _ s1 _ tt eq_refl). cbv beta. set (s2 := PSys _ _ _ _ _).
  assert (counted k s2) as Hc2 by (apply (counted_same k s1); [done|by apply new_proc_counted]).
  destruct (clone_ok k pa child IOMAX 0 s2 x y Hc2 (pi_k k s Hs) Hne) as (s3 & z & E3 & Hc3 & F3 & Hps3 & Hid & _ & Hz);
    [by cbn; rewrite lookup_insert_ne|apply lookup_insert_eq|done|done| |].
  { intros fd' Hfd'. unfold slot, y. cbn [iotab]. unfold getb. destruct (replicate IOMAX None !! Z.to_nat fd') as [v|] eqn:E; [|done].
    by apply lookup_replicate in E as [-> _]. }
  krun E3. clear E3. intros (mt & s4 & E4 & H)%bind_ret_inv. apply on_mm_same in E4 as Sm4.
  assert (procs s4 = <[child := z]> (procs s)) as Hps4.
  { destruct Sm4 as (_ & _ & ->). rewrite Hps3. cbn. by rewrite insert_insert_eq. }
  assert (proctab s4 = proctab s) as Ht4 by (destruct Sm4 as (_ & -> & _); by rewrite (fr_tab _ _ F3)).
  assert (counted k s4) as Hc4 by (by apply (counted_same k s3)). clear Sm4 Hc2 Hc3 F3 E4 Hps3.
  assert (procs s4 !! child = Some z) as Hz4 by (by apply (lookup_of_insert Hps4)).
  assert (delete child (procs s4) = procs s) as Hdel by (rewrite Hps4; by apply delete_insert_id).
  destruct (mt =? 0).
  { destruct (undo_child k s4 child z Hc4 Hk Hz4) as (s5 & E5 & F5 & Hps5 & Hc5). rewrite (bind_ret _ _ _ _ _ E5) in H.
    rewrite (bind_ret (kfree_proc child) _ _ _ tt eq_refl) in H. injection H as <- <-. split.
    - apply (pinv_tables k s); [done|apply (kfree_ok k s5 child z); [done|by rewrite Hps5]|cbn; by rewrite (fr_tab _ _ F5)|cbn; by rewrite Hps5].
    - cbn. by rewrite Hps5. }
  rewrite (bind_ret (set_mtag child mt) _ _ _ tt eq_refl), (bind_ret (modify _) _ _ _ tt eq_refl) in H. cbn [with_proctab proctab] in H.
  rewrite Ht4 in H. set (s5 := with_proctab _ _) in H.
  apply bind_ret_inv in H as (? & s6 & E6 & H). apply on_kern_same in E6.
  apply bind_ret_inv in H as (tid' & s7 & E7 & H). apply on_kern_same in E7.
  pose proof (objects_trans _ _ _ E6 E7) as (Eio & Etab & Eps). cbn in Eio, Etab, Eps. clear E6 E7.
  assert (counted k s7) as Hc7 by (apply (counted_same k s5); [done|]; by destruct Hc4; split).
  assert (S j < length (proctab s))%nat as Hlen.
  { apply findi_lt in Hj. pose proof (pi_len k s Hs) as Hl. destruct (proctab s); [done|]. simpl in *. lia. }
  assert (proctab s !! S j = Some None) as Hfree.
  { apply findi_Some in Hj as [(v & Hv & Hn) _]. destruct v; [done|]. by destruct (proctab s). }
  destruct (tid' <=? 0) eqn:Htid.
  - rewrite (bind_ret (modify _) _ _ _ tt eq_refl) in H. set (s8 := with_proctab s7 _) in H.
    destruct (undo_child k s8 child z) as (s9 & E9 & F9 & Hps9 & Hc9); [by destruct Hc7; split|done|cbn; by rewrite Eps|].
    rewrite (bind_ret _ _ _ _ _ E9) in H. apply bind_ret_inv in H as (sv & sa & Ea & H). apply on_mm_same in Ea.
    apply bind_ret_inv in H as (? & sb & Eb & H). apply on_mm_same in Eb.
    apply bind_ret_inv in H as (? & sc & Ec & H). apply on_mm_same in Ec.
    pose proof (objects_trans _ _ _ Ea (objects_trans _ _ _ Eb Ec)) as Eall. pose proof Eall as (Eio' & Etab' & Eps').
    rewrite (bind_ret (kfree_proc child) _ _ _ tt eq_refl) in H. injection H as <- <-. split; [|cbn; by rewrite Eps', Hps9; cbn; rewrite Eps].
    apply (pinv_tables k s); [done| | |].
    + apply (kfree_ok k sc child z); [by apply (counted_same _ s9)|rewrite Eps', Hps9; cbn; by rewrite Eps].
    + cbn. rewrite Etab', (fr_tab _ _ F9). cbn. rewrite Etab, list_insert_insert_eq. by apply list_insert_id.
    + cbn. by rewrite Eps', Hps9; cbn; rewrite Eps.
  - assert (procs s7 !! child = Some z) as Hz7 by (by rewrite Eps).
    rewrite (bind_ret _ _ _ _ _ (get_proc_run s7 child z Hz7)), (bind_ret (put_proc child _) _ _ _ tt eq_refl) in H.
    set (z' := Proc (idx z) tid' (iotab z)) in H. set (s8 := with_procs s7 _) in H.
    apply bind_ret_inv in H as (? & s9 & E9 & H). apply on_kern_same in E9. apply bind_ret_inv in H as (? & s10 & E10 & H). apply on_kern_same in E10.
    pose proof (objects_trans _ _ _ E9 E10) as Esame. pose proof Esame as (_ & Etab' & Eps'). injection H as <- <-.
    assert (procs s10 = <[child := z']> (procs s)) as Hfin by (rewrite Eps'; cbn; by rewrite Eps, Hps4, insert_insert_eq).
    assert (proctab s10 = <[S j := Some child]> (proctab s)) as Htab by (rewrite Etab'; cbn; exact Etab).
    apply Z.leb_gt in Htid. rewrite (proj2 (Z.ltb_lt 0 tid')) by done. split.
    + injection Hid as Hix _. apply (pinv_add k s s10 child z' (S j)); [done| |done|done|done|done].
      apply (counted_same k s8); [done|]. by apply (retitle_counted k s7 child z).
    + exists pa, x, z'. split_and!; [done|done|done|]. intros fd Hfd. rewrite <- Hz; [done|]. unfold valid_fd in Hfd. kbool. lia.
Qed.

Lemma process_exit_ok k s o r s' : pinv k s → cur_ok s o → process_exit s = (Ret r, s') →
  pinv k s' ∧ ∀ p x, o = Some p → procs s !! p = Some x →
    if 0 <? idx x then procs s' = delete p (procs s) else ∃ y, procs s' = <[p := y]> (procs s) ∧ ∀ i, cnt i (iotab y) = 0.
Proof.
  intros Hs Hcur. assert (∀ i, 0 ≤ k i) as Hk by (intros i; apply (pi_k k s Hs)). unfold process_exit. krun (current_run s o Hcur).
  destruct o as [p|].
  2: { kret. intros Sm%on_kern_same. split; [by apply (pinv_same k s)|done]. }
  destruct (proj2 Hcur p eq_refl) as [x Hx]. rewrite bind_bind.
  destruct (clear_all_ok k p IOMAX 0 s x (pi_counted k s Hs) Hk Hx) as (s1 & y & E1 & Hc1 & F1 & Hps & Hid & Hy); [done|done|intros; lia|].
  krun E1. pose proof (lookup_of_insert Hps) as Hy1. rewrite bind_bind. krun (get_proc_run s1 p y Hy1). injection Hid as Hix _.
  pose proof (pinv_framed k s s1 Hs Hc1 F1) as Hs1. destruct (pi_tab k s1 Hs1 p y Hy1) as [Hi Hip].
  assert (∀ q v, Some p = Some q → procs s !! q = Some v → q = p ∧ v = x) as Huniq by (intros q v [= <-] E; split; congruence).
  rewrite Hix in *. destruct (0 <? idx x) eqn:Hpos.
  - rewrite bind_bind. intros (? & s2 & E2 & H)%bind_ret_inv. apply on_mm_same in E2 as Sm. pose proof Sm as (Eio & Etab & Eps).
    rewrite bind_bind, (bind_ret (modify _) _ _ _ tt eq_refl) in H. set (s3 := with_proctab s2 _) in H.
    rewrite (bind_ret (kfree_proc p) _ _ _ tt eq_refl) in H. apply on_kern_same in H. pose proof H as (_ & Htab' & Hps'). split.
    + apply (pinv_same k _ _ H).
      assert (counted (λ i, k i - cnt i (iotab y)) s3) as Hc3.
      { apply (counted_ext k); [intros i; rewrite Hy; lia|]. by destruct (counted_same k s1 s2 Sm Hc1); split. }
      split; [apply (kfree_ok k s3 p y Hc3); cbn; by rewrite Eps|apply Hs|cbn; by rewrite length_setb, Etab, (pi_len k s1 Hs1)|].
      intros q w. cbn. rewrite Eps, Etab. intros [Hne Hw]%lookup_delete_Some. destruct (pi_tab k s1 Hs1 q w Hw) as [Hwi Hwq]. split; [done|].
      rewrite getb_setb_ne; [done|lia|lia|]. congruence.
    + intros q v Hq Hv. destruct (Huniq q v Hq Hv) as [-> ->]. rewrite Hpos, Hps'. cbn. rewrite Eps, Hps. apply delete_insert_eq.
  - intros (? & s2 & E2 & H)%bind_ret_inv. apply on_mm_same in E2. apply on_kern_same in H.
    pose proof (objects_trans _ _ _ E2 H) as Sm. split; [by apply (pinv_same k s1)|].
    intros q v Hq Hv. destruct (Huniq q v Hq Hv) as [-> ->]. rewrite Hpos. exists y. split; [|done]. destruct Sm as (_ & _ & ->). done.
Qed.

(** ** Runs *)

Definition quiet {A} (m : M (psys St) A) : Prop := ∀ k s r s', pinv k s → m s = (Ret r, s') → pinv k s'.

(** What the handlers rely on: opening hands out a reference, and the rest
    leaves references alone. *)
Class ServicesOk (sv : services (psys St)) : Prop := {
  so_device nm n : Opener (sv_open_device sv nm n);
  so_file nm : Opener (sv_fsopen sv nm);
  so_pipe : PipeMaker (sv_create_pipe sv);
  so_create nm : quiet (sv_ktfs_create sv nm);
  so_delete nm : quiet (sv_ktfs_delete sv nm);
  so_print msg : quiet (sv_kprintf sv msg);
  so_sleep us : quiet (sv_sleep_us sv us);
  so_exec i argc argv : quiet (sv_process_exec sv i argc argv)
}.

Lemma value_quiet (m : M (psys St) Z) : quiet m → quiet (value m).
Proof. intros Hm k s r s' Hs (z & s1 & E & E')%bind_ret_inv. injection E' as _ <-. by apply (Hm k s z). Qed.

Lemma with_name_quiet sv ptr f : (∀ nm, quiet (f nm)) → quiet (with_name sv ptr f).
Proof.
  intros Hf. unfold with_name. destruct (sv_str sv ptr) as [nm|]; [by apply value_quiet|].
  intros k s r s' Hs E. by injection E as _ <-.
Qed.

Lemma fine_inv {A} k s (m : M (psys St) A) P r s' : fine k s m P → m s = (Ret r, s') → pinv k s'.
Proof. intros (a & s1 & E & Hs & _) E'. rewrite E in E'. apply (f_equal snd) in E'. simpl in E'. by subst s1. Qed.

Lemma seq_quiet {A B} (m : M (psys St) A) (b : B) : quiet m → quiet (m ≫= λ _, mret b).
Proof. intros Hm k s r s' Hs (a & s1 & E & E')%bind_ret_inv. injection E' as _ <-. by apply (Hm k s a). Qed.

Definition fork_child (sv : services (psys St)) : nat := (sv_fork_args sv).1.1.1.1.

Lemma syscall_ok sv k s o r rep s' : ServicesOk sv → pinv k s → cur_ok s o → procs s !! fork_child sv = None →
  syscall sv r s = (Ret rep, s') → pinv k s'.
Proof.
  intros Hsv Hs Hcur Hch. destruct r as [|fd argc argv| |t|msg|us|fd nm n|fd nm|nm|nm|fd|fd buf n|fd buf n|fd cmd arg|w rd|a b];
    cbn [syscall]; unfold sysexit, sysexec, sysfork, syswait, sysprint, sysusleep, sysdevopen, sysfsopen, sysfscreate, sysfsdelete.
  - intros (h & s1 & E & E')%bind_ret_inv. injection E' as _ <-. by apply (process_exit_ok k s o h).
  - krun (fd_to_io_run s o fd Hcur). destruct (fd_object s fd); [|intros E; by injection E as _ <-]. apply value_quiet; [apply so_exec|done].
  - unfold fork_child in Hch. destruct (sv_fork_args sv) as [[[[ch fk] t] c] nm].
    intros (z & s1 & E & E')%bind_ret_inv. injection E' as _ <-. by apply (process_fork_ok k s o ch fk t c nm z).
  - intros (z & s1 & E & E')%bind_ret_inv. injection E' as _ <-. apply on_kern_same in E. by apply (pinv_same k s).
  - apply with_name_quiet; [|done]. intros m. apply seq_quiet, so_print.
  - apply value_quiet; [|done]. apply seq_quiet, so_sleep.
  - unfold with_name. destruct (sv_str sv nm) as [x|]; [|intros E; by injection E as _ <-].
    intros (z & s1 & E & E')%bind_ret_inv. injection E' as _ <-. by apply (sysopen_inv k s o fd _ z s1 (so_device x n)).
  - unfold with_name. destruct (sv_str sv nm) as [x|]; [|intros E; by injection E as _ <-].
    intros (z & s1 & E & E')%bind_ret_inv. injection E' as _ <-. by apply (sysopen_inv k s o fd _ z s1 (so_file x)).
  - apply with_name_quiet; [apply so_create|done].
  - apply with_name_quiet; [apply so_delete|done].
  - intros (z & s1 & E & E')%bind_ret_inv. injection E' as _ <-. eapply fine_inv; [by apply (sysclose_ok k s o)|exact E].
  - intros ([z got] & s1 & E & E')%bind_ret_inv. injection E' as _ <-. eapply fine_inv; [by apply (sysread_ok k s o)|exact E].
  - intros (z & s1 & E & E')%bind_ret_inv. injection E' as _ <-. eapply fine_inv; [by apply (syswrite_ok k s o)|exact E].
  - intros ([z v] & s1 & E & E')%bind_ret_inv. injection E' as _ <-. eapply fine_inv; [by apply (sysioctl_ok k s o)|exact E].
  - intros ([z v] & s1 & E & E')%bind_ret_inv. injection E' as _ <-. by apply (syspipe_inv k s o _ _ (z, v) s1 so_pipe Hs Hcur E).
  - intros (z & s1 & E & E')%bind_ret_inv. injection E' as _ <-. eapply fine_inv; [by apply (sysiodup_ok k s o)|exact E].
Qed.

(** The system makes a step when the running process makes a system call, when
    the thread and memory managers do something else, and when the state of an
    object changes in the course of an operation that waits in its driver. *)
Inductive pstep : psys St → psys St → Prop :=
  | ps_call sv s o r rep s' : ServicesOk sv → cur_ok s o → procs s !! fork_child sv = None → syscall sv r s = (Ret rep, s') → pstep s s'
  | ps_object s i o o' : ios s !! i = Some o → refcnt o' = refcnt o → pstep s (with_ios s (<[i := o']> (ios s)))
  | ps_other s ks' mm' : pstep s (PSys ks' mm' (ios s) (proctab s) (procs s)).

Lemma steps_pinv k s s' : rtc pstep s s' → pinv k s → pinv k s'.
Proof.
  induction 1 as [|s1 s2 s3 Hst _ IH]; [done|]. intros Hs. apply IH. destruct Hst as [|s i o o' Ho Hr|]; [by eapply syscall_ok| |by apply (pinv_same k s)].
  apply (pinv_framed k s); [done| |apply framed_io]. apply (counted_ext (bump k i 0)); [intros j; unfold bump; case_decide; lia|].
  apply (put_io_counted k s i o); [apply Hs|done|lia].
Qed.

(** C7. Whatever system calls processes make, in whatever order, with whatever
    arguments, and however threads are scheduled in between: the reference count
    of every I/O object is the number of descriptors of all processes that
    refer to it plus the references held elsewhere, and every descriptor that
    is in use refers to an object that exists and has not been closed. *)
Theorem references_counted k s0 s :
  pinv k s0 → rtc pstep s0 s →
  (∀ i o, ios s !! i = Some o → refcnt o = refs (procs s) i + k i) ∧
  ∀ p x fd i, procs s !! p = Some x → slot x fd = Some i → ∃ o, ios s !! i = Some o ∧ 0 < refcnt o.
Proof.
  intros Hs Hr. pose proof (steps_pinv k s0 s Hr Hs) as [Hc Hk _ _]. split; [apply Hc|].
  intros p x fd i Hp Hi. destruct (slot_live k s p x fd i Hc Hp Hi) as [Href [o Ho]]. exists o. split; [done|].
  rewrite (co_ref k s Hc i o Ho). pose proof (Hk i). lia.
Qed.


(** C38. How a fork shares descriptors: copying the table of the parent into
    that of a new process ends with every descriptor of the child referring to
    the object of the parent's and every object's count equal to the number of
    its references again; and closing the child's table, as a fork does that
    fails afterwards, ends with every count as it was before. *)
Theorem fork_descriptors_roundtrip k s pa ch x y :
  pinv k s → procs s !! pa = Some x → procs s !! ch = None → iotab y = replicate IOMAX None →
  let s0 := with_procs s (<[ch := y]> (procs s)) in
  ∃ s1 z, clone_iotab pa ch 0 IOMAX s0 = (Ret tt, s1) ∧ procs s1 = <[ch := z]> (procs s) ∧ kern s1 = kern s ∧
    (∀ fd, valid_fd fd = true → slot z fd = slot x fd) ∧
    (∀ i o, ios s1 !! i = Some o → refcnt o = refs (procs s1) i + k i) ∧
    ∃ s2, close_iotab ch 0 IOMAX false s1 = (Ret tt, s2) ∧
      ∀ i o, ios s !! i = Some o → ∃ o', ios s2 !! i = Some o' ∧ refcnt o' = refcnt o.
Proof.
  intros Hs Hx Hch Hy s0. assert (∀ i, 0 ≤ k i) as Hk by (intros i; apply (pi_k k s Hs)). assert (pa ≠ ch) as Hne by congruence.
  assert (counted k s0) as Hc0 by (by apply new_proc_counted).
  destruct (clone_ok k pa ch IOMAX 0 s0 x y Hc0 (pi_k k s Hs) Hne) as (s1 & z & E1 & Hc1 & F1 & Hps & _ & _ & Hz);
    [by cbn; rewrite lookup_insert_ne|apply lookup_insert_eq|done|done| |].
  { intros fd _. unfold slot, getb. rewrite Hy. destruct (replicate IOMAX None !! Z.to_nat fd) as [v|] eqn:E; [|done].
    by apply lookup_replicate in E as [-> _]. }
  assert (procs s1 = <[ch := z]> (procs s)) as Hps1 by (rewrite Hps; cbn; by rewrite insert_insert_eq).
  exists s1, z. split_and!; [done|done|by rewrite (fr_kern _ _ F1)| |apply Hc1|].
  { intros fd Hfd. apply Hz. unfold valid_fd in Hfd. kbool. lia. }
  destruct (undo_child k s1 ch z Hc1 Hk (lookup_of_insert Hps1)) as (s2 & E2 & F2 & Hps2 & Hc2). exists s2. split; [done|].
  intros i o Ho. assert (is_Some (ios s2 !! i)) as [o' Ho'] by (apply (fr_ios _ _ F2), (fr_ios _ _ F1); by exists o).
  exists o'. split; [done|]. rewrite (co_ref _ _ Hc2 i o' Ho'), Hps2, Hps1, refs_new by done.
  rewrite (co_ref _ _ (pi_counted k s Hs) i o Ho). lia.
Qed.

End refs.
(** ** A driver that shares one object *)

Section shared.
Context {St : Type}.

(** As serial ports do: opening returns the driver's object with one more
    reference. *)
Definition open_shared (i : nat) : M (psys St) (Z * option nat) :=
  o ← gets (λ s, ios s !! i);
  match o with
  | None => mret (- ENODEV, None)
  | Some _ => addref i;; mret (0, Some i)
  end.

#[global] Instance open_shared_opener i : Opener (open_shared i).
Proof.
  split. intros k s rc j s' Hs. unfold open_shared. kgets. destruct (ios s !! i) as [o|] eqn:Ho.
  - pose proof (pi_counted k s Hs) as Hc. pose proof (counted_refs k s i Hc). pose proof (pi_k k s Hs i).
    destruct (addref_ok k s i Hc) as (m & E & Hc' & F); [eauto|lia|]. krun E. intros [= <- <- <-]. split; [done|]. by exists i.
  - intros [= <- <- <-]. split; [done|]. apply Hs.
Qed.

(** [create_pipe] as it is: the kernel halts. *)
Definition no_pipe : M (psys St) (option nat * option nat) := panic.

#[global] Instance no_pipe_maker : PipeMaker no_pipe.
Proof. by split. Qed.

Definition demo_services (i : nat) : services (psys St) :=
  Services _ (λ p, if p =? 0 then None else Some [120]) (λ _ n, replicate (Z.to_nat n) 0) (λ p, if p =? 0 then None else Some (-1))
    (λ _ _, open_shared i) (λ _, open_shared i) (λ _, mret 0) (λ _, mret 0) no_pipe (λ _, mret tt) (λ _, mret tt) (λ _ _ _, mret (- EINVAL))
    ((20, 21, 22, 23)%nat, 0).

Lemma mret_quiet {A} (a : A) : quiet (mret a : M (psys St) A).
Proof. intros k s r s' Hs E. by injection E as _ <-. Qed.

#[global] Instance demo_services_ok i : ServicesOk (demo_services i).
Proof.
  split; intros; cbn; try apply mret_quiet; try apply open_shared_opener. apply no_pipe_maker.
Qed.

End shared.

(** ** Witnesses *)

Definition demo_k : nat → Z := λ i, if decide (i = 5%nat) then 1 else 0.
Definition demo_io : io unit := ioinit1 tt (IoIntf None None None None None None).
Definition demo_sys : psys unit :=
  (procmgr_init 9 false (PSys (initial 0 1) (Mm {[0x80100000 := 0; 0x80100008 := 4]} 0x80100000 0 0) {[5%nat := demo_io]} (Some 9%nat :: replicate 15 None) ∅)).2.

Lemma demo_sys_cur : cur_ok demo_sys (Some 9%nat).
Proof. split; [by vm_compute|]. intros p [= <-]. vm_compute. eauto. Qed.

Lemma demo_sys_pinv : pinv demo_k demo_sys.
Proof.
  assert (procs demo_sys = {[9%nat := Proc 0 0 (replicate 16 None)]}) as Hp by (by vm_compute).
  assert (ios demo_sys = {[5%nat := demo_io]}) as Hi by (by vm_compute).
  assert (∀ i, refs (procs demo_sys) i = 0) as Hr.
  { intros i. rewrite Hp. unfold refs. rewrite map_fold_singleton, cnt_none; [done|by apply Forall_replicate]. }
  split; [split| |by vm_compute|].
  - intros i o. rewrite Hi, Hr. intros [<- <-]%lookup_singleton_Some. done.
  - intros i. rewrite Hr, Hi. unfold demo_k. case_decide as E; [subst; rewrite lookup_singleton_eq; eauto|lia].
  - intros p x. rewrite Hp. by intros [<- <-]%lookup_singleton_Some.
  - rewrite Hp, map_size_singleton. lia.
  - intros i. unfold demo_k. case_decide; lia.
  - intros p x. rewrite Hp. by intros [<- <-]%lookup_singleton_Some.
Qed.

(** The device is opened and its descriptor duplicated. *)
Definition demo_open : psys unit := (syscall (demo_services 5) (RDevopen (-1) 1 0) demo_sys).2.
Definition demo_dup : psys unit := (syscall (demo_services 5) (RIodup 0 (-1)) demo_open).2.

Lemma demo_open_cur : cur_ok demo_open (Some 9%nat).
Proof. split; [by vm_compute|]. intros p [= <-]. vm_compute. eauto. Qed.

Lemma demo_open_run : syscall (demo_services 5) (RDevopen (-1) 1 0) demo_sys = (Ret (Some (0, [])), demo_open).
Proof. by vm_compute. Qed.

Lemma demo_open_pinv : pinv demo_k demo_open.
Proof.
  apply (syscall_ok (demo_services 5) demo_k demo_sys (Some 9%nat) (RDevopen (-1) 1 0) (Some (0, [])));
    [apply _|apply demo_sys_pinv|apply demo_sys_cur|by vm_compute|apply demo_open_run].
Qed.

Lemma references_counted_witness :
  (∀ i o, ios demo_dup !! i = Some o → refcnt o = refs (procs demo_dup) i + demo_k i) ∧
  ∀ p x fd i, procs demo_dup !! p = Some x → slot x fd = Some i → ∃ o, ios demo_dup !! i = Some o ∧ 0 < refcnt o.
Proof.
  apply (references_counted demo_k demo_sys demo_dup demo_sys_pinv).
  eapply rtc_l; [apply (ps_call (demo_services 5) demo_sys (Some 9%nat) (RDevopen (-1) 1 0) (Some (0, [])) demo_open)|];
    [apply _|apply demo_sys_cur|by vm_compute|apply demo_open_run|].
  eapply rtc_l; [|apply rtc_refl]. apply (ps_call (demo_services 5) demo_open (Some 9%nat) (RIodup 0 (-1)) (Some (1, [])));
    [apply _|apply demo_open_cur|by vm_compute|by vm_compute].
Defined.


(** The table with descriptor 0 open is copied. *)
Lemma fork_descriptors_roundtrip_witness :
  let s0 := with_procs demo_open (<[20%nat := Proc 1 0 (replicate IOMAX None)]> (procs demo_open)) in
  ∃ s1 z, clone_iotab 9 20 0 IOMAX s0 = (Ret tt, s1) ∧ slot z 0 = Some 5%nat ∧
    ∃ s2, close_iotab 20 0 IOMAX false s1 = (Ret tt, s2) ∧
      ∀ i o, ios demo_open !! i = Some o → ∃ o', ios s2 !! i = Some o' ∧ refcnt o' = refcnt o.
Proof.
  intros s0. destruct (fork_descriptors_roundtrip demo_k demo_open 9 20 (Proc 0 0 (Some 5%nat :: replicate 15 None)) (Proc 1 0 (replicate IOMAX None)) demo_open_pinv)
    as (s1 & z & E1 & _ & _ & Hz & _ & s2 & E2 & H2); [by vm_compute..|].
  exists s1, z. split_and!; [done|by rewrite (Hz 0)|by exists s2].
Defined.

End ProcessProofs.
