(* ===== verification/Excp.v ===== *)
(** * Exceptions (kernel/excp.c)

    The two handlers that trap.s calls.  A handler that returns resumes the
    program with the trap frame it leaves; one that does not ends in [panic] with
    the message it printed into its buffer, which is the result [Halted].  The
    value of the register stval is an argument. *)

From Stdlib Require Import Ascii String.
From S2P Require Import Prelude Config PhysPages PageTable PageTableProofs Threads Strings Process.
Import PhysPages PageTable PageTableProofs Threads Process Str.

Module Excp.

Definition RISCV_SCAUSE_INSTR_ADDR_MISALIGNED : Z := 0.
Definition RISCV_SCAUSE_INSTR_ACCESS_FAULT : Z := 1.
Definition RISCV_SCAUSE_ILLEGAL_INSTR : Z := 2.
Definition RISCV_SCAUSE_BREAKPOINT : Z := 3.
Definition RISCV_SCAUSE_LOAD_ADDR_MISALIGNED : Z := 4.
Definition RISCV_SCAUSE_LOAD_ACCESS_FAULT : Z := 5.
Definition RISCV_SCAUSE_STORE_ADDR_MISALIGNED : Z := 6.
Definition RISCV_SCAUSE_STORE_ACCESS_FAULT : Z := 7.
Definition RISCV_SCAUSE_ECALL_FROM_UMODE : Z := 8.
Definition RISCV_SCAUSE_ECALL_FROM_SMODE : Z := 9.
Definition RISCV_SCAUSE_INSTR_PAGE_FAULT : Z := 12.
Definition RISCV_SCAUSE_LOAD_PAGE_FAULT : Z := 13.
Definition RISCV_SCAUSE_STORE_PAGE_FAULT : Z := 15.

(** The table by cause, NULL where no name is given. *)
Definition excp_names : list (option cstr) :=
  [Some (chars "Misaligned instruction address"); Some (chars "Instruction access fault"); Some (chars "Illegal instruction");
   Some (chars "Breakpoint"); Some (chars "Misaligned load address"); Some (chars "Load access fault");
   Some (chars "Misaligned store address"); Some (chars "Store access fault"); Some (chars "Environment call from U mode");
   Some (chars "Environment call from S mode"); None; None; Some (chars "Instruction page fault");
   Some (chars "Load page fault"); None; Some (chars "Store page fault")].

(** A cause is an [unsigned int]. *)
Definition excp_name (cause : Z) : option cstr :=
  if cause <? Z.of_nat (length excp_names) then getb None excp_names cause else None.

Definition is_page_fault (cause : Z) : bool :=
  ((cause =? RISCV_SCAUSE_LOAD_PAGE_FAULT) || (cause =? RISCV_SCAUSE_STORE_PAGE_FAULT) || (cause =? RISCV_SCAUSE_INSTR_PAGE_FAULT))%bool.
(** The causes whose message gives the address too. *)
Definition has_address (cause : Z) : bool :=
  (is_page_fault cause || (cause =? RISCV_SCAUSE_LOAD_ADDR_MISALIGNED) || (cause =? RISCV_SCAUSE_STORE_ADDR_MISALIGNED) ||
   (cause =? RISCV_SCAUSE_INSTR_ADDR_MISALIGNED) || (cause =? RISCV_SCAUSE_LOAD_ACCESS_FAULT) ||
   (cause =? RISCV_SCAUSE_STORE_ACCESS_FAULT) || (cause =? RISCV_SCAUSE_INSTR_ACCESS_FAULT))%bool.

Section handlers.
Context {St : Type}.
Implicit Types (s : psys St) (tfr : trap_frame).

(** [msgbuf] is uninitialized: its contents are [junk]. *)
Definition format (junk : list Z) (fmt : cstr) (ap : list va) : M (psys St) (list Z) := λ s,
  match snprintf junk (Z.of_nat (length junk)) fmt ap with
  | Some (Ret (_, buf)) => (Ret buf, s)
  | _ => (Panic, s)
  end.

(** Back to the program, waiting inside a system call, or [panic(msgbuf)]. *)
Inductive outcome := Resumed (tfr : trap_frame) (stores : list (Z * list Z)) | Waiting | Halted (msgbuf : list Z).

Definition handle_smode_exception (junk : list Z) (cause stval : Z) tfr : M (psys St) outcome :=
  r ← (if is_page_fault cause then on_mm (handle_umode_page_fault stval) else mret 0);
  if negb (r =? 0) then mret (Resumed tfr [])
  else
    msgbuf ←
      match excp_name cause with
      | Some name =>
          if has_address cause
          then format junk (chars "%s at %p for %p in S mode") [VPtr (Some name); VReg (sepc tfr); VReg stval]
          else format junk (chars "%s at %p in S mode") [VPtr (Some name); VReg (sepc tfr)]
      | None => format junk (chars "Exception %d at %p in S mode") [VReg cause; VReg (sepc tfr)]
      end;
    mret (Halted msgbuf).

Definition handle_umode_exception (run : request → M (psys St) reply) (junk : list Z) (cause stval : Z) tfr : M (psys St) outcome :=
  if cause =? RISCV_SCAUSE_ECALL_FROM_UMODE then
    r ← handle_syscall run tfr;
    mret (match r with Some (tfr, st) => Resumed tfr st | None => Waiting end)
  else
    r ← (if is_page_fault cause then on_mm (handle_umode_page_fault stval) else mret 0);
    if negb (r =? 0) then mret (Resumed tfr [])
    else
      msgbuf ← format junk (chars "Unhandled U-mode exception '%s' (cause=%u) at %p stval=%p")
                 [VPtr (Some (default (chars "?") (excp_name cause))); VReg cause; VReg (sepc tfr); VReg stval];
      mret (Halted msgbuf).

(** ** What the handlers do *)

(** The memory manager as [on_mm] sees it. *)
Definition mm_of s : mm := Mm (words (mem s)) (free_chunk_list (mem s)) (active (kern s)) (main_mtag (mem s)).

(** The buffer holds [out], cut to its size, as a string. *)
Definition holds (buf : list Z) (out : list Z) : Prop :=
  let k := Nat.min (length out) (length buf - 1) in take k buf = take k out ∧ buf !! k = Some 0.

Lemma format_run junk fmt ap out s :
  printed fmt ap = Some out → (0 < length junk)%nat → Z.of_nat (length junk) < 2 ^ 64 →
  ∃ buf, format junk fmt ap s = (Ret buf, s) ∧ length buf = length junk ∧ holds buf out.
Proof.
  intros Hp H0 Hlen. unfold format, snprintf. rewrite (vsnprintf_run junk fmt ap out Hp Hlen). cbv zeta.
  set (k := Nat.min (length out) (length junk - 1)).
  assert (length (take k out ++ [0]) = S k) as Hk by (rewrite length_app, length_take; simpl; lia).
  eexists. split; [reflexivity|]. rewrite (take_ge (take k out ++ [0])) by lia.
  assert (length ((take k out ++ [0]) ++ drop (S k) junk) = length junk) as Hl by (rewrite length_app, length_drop; lia).
  split; [done|]. unfold holds. rewrite Hl. fold k. rewrite <- app_assoc. split.
  - rewrite take_app_le by (rewrite length_take; lia). by rewrite take_take, Nat.min_id.
  - rewrite lookup_app_r by (rewrite length_take; lia). rewrite length_take. by replace (k - _)%nat with 0%nat by lia.
Qed.

Lemma excp_on_mm_run {A} (m : M mm A) s a x :
  m (mm_of s) = (Ret a, x) → on_mm m s = (Ret a, PSys (with_active (kern s) (satp x)) x (ios s) (proctab s) (procs s)).
Proof. intros R. unfold on_mm, mm_of in *. by rewrite R. Qed.

Lemma mm_of_on_mm s x : mm_of (PSys (with_active (kern s) (satp x)) x (ios s) (proctab s) (procs s)) = x.
Proof. unfold mm_of. by destruct x. Qed.

(** The messages. *)
Definition umode_text (cause stval : Z) tfr : option (list Z) :=
  printed (chars "Unhandled U-mode exception '%s' (cause=%u) at %p stval=%p")
    [VPtr (Some (default (chars "?") (excp_name cause))); VReg cause; VReg (sepc tfr); VReg stval].

Definition smode_text (cause stval : Z) tfr : option (list Z) :=
  match excp_name cause with
  | Some name =>
      if has_address cause then printed (chars "%s at %p for %p in S mode") [VPtr (Some name); VReg (sepc tfr); VReg stval]
      else printed (chars "%s at %p in S mode") [VPtr (Some name); VReg (sepc tfr)]
  | None => printed (chars "Exception %d at %p in S mode") [VReg cause; VReg (sepc tfr)]
  end.

(** Whether a format finds its arguments depends on their kinds only. *)
Definition same_kind (x y : va) : Prop := match x, y with VReg _, VReg _ | VPtr _, VPtr _ => True | _, _ => False end.

Lemma convert_kinds z len lcnt p ap ap' :
  Forall2 same_kind ap ap' →
  match convert_text z len lcnt p ap, convert_text z len lcnt p ap' with
  | Some (r, _), Some (r', _) => Forall2 same_kind r r'
  | None, None => True
  | _, _ => False
  end.
Proof.
  intros Hk. unfold convert_text, arg_reg, arg_ptr.
  destruct Hk as [|[x|x] [y|y] r r' Hxy Hr]; try done; simpl;
    repeat match goal with |- context [if ?b then _ else _] => destruct b end; simpl; try done; by constructor.
Qed.

Lemma text_kinds fuel : ∀ p ap ap', Forall2 same_kind ap ap' → is_Some (text fuel p ap') → is_Some (text fuel p ap).
Proof.
  induction fuel as [|fuel IH]; intros p ap ap' Hk Hs; [by destruct Hs|]. cbn [text] in *. destruct p as [|c r]; [done|].
  destruct (c =? 37).
  - destruct (width r 0) as [len q]. destruct (prefix q) as [lcnt q']. pose proof (convert_kinds (deref r =? 48) len lcnt q' ap ap' Hk) as Hc.
    destruct (convert_text _ _ _ _ ap) as [[a1 o1]|], (convert_text _ _ _ _ ap') as [[a2 o2]|]; try done.
    simpl in Hs |- *. destruct (text fuel (list.tail q') a2) as [t2|] eqn:E2; [|by destruct Hs].
    destruct (IH (list.tail q') a1 a2 Hc) as [t1 ->]; [by rewrite E2|]. by eexists.
  - destruct (text fuel r ap') as [t2|] eqn:E2; [|by destruct Hs]. destruct (IH r ap ap' Hk) as [t1 ->]; [by rewrite E2|]. by eexists.
Qed.

Lemma umode_text_some cause stval tfr : is_Some (umode_text cause stval tfr).
Proof.
  unfold umode_text, printed. apply (text_kinds _ _ _ [VPtr (Some []); VReg 0; VReg 0; VReg 0]); [by repeat constructor|].
  vm_compute. by eexists.
Qed.

Lemma smode_text_some cause stval tfr : is_Some (smode_text cause stval tfr).
Proof.
  unfold smode_text, printed. destruct (excp_name cause) as [nm|]; [destruct (has_address cause)|].
  - apply (text_kinds _ _ _ [VPtr (Some []); VReg 0; VReg 0]); [by repeat constructor|]. vm_compute. by eexists.
  - apply (text_kinds _ _ _ [VPtr (Some []); VReg 0]); [by repeat constructor|]. vm_compute. by eexists.
  - apply (text_kinds _ _ _ [VReg 0; VReg 0]); [by repeat constructor|]. vm_compute. by eexists.
Qed.

(** The part that the handlers share: [k] is what follows a fault that was
    not resolved. *)
Definition resolve (cause stval : Z) tfr (k : M (psys St) outcome) : M (psys St) outcome :=
  r ← (if is_page_fault cause then on_mm (handle_umode_page_fault stval) else mret 0);
  if negb (r =? 0) then mret (Resumed tfr []) else k.

(** A page fault at a user address. *)
Definition user_fault (cause stval : Z) : Prop := is_page_fault cause = true ∧ UMEM_START_VMA ≤ stval < UMEM_END_VMA.
#[local] Instance user_fault_dec cause stval : Decision (user_fault cause stval) := decide (_ ∧ _).

(** What a handler does to [s], with the message [text]. *)
Definition handled (l : list (Z * Z)) (cause stval : Z) tfr (out : list Z) s (o : outcome) s' : Prop :=
  ios s' = ios s ∧ procs s' = procs s ∧ proctab s' = proctab s ∧
  let tr x va := translate (words (mm_of x)) (active_space_ptab (mm_of x)) va in
  if decide (user_fault cause stval) then
    ∃ l', space_ok (mm_of s') l' ∧
    ((o = Resumed tfr [] ∧ ∃ pp, pp ∈ pages l ∧ (∀ j, is_index j → rd (words (mem s')) (PageTable.slot pp j) = 0) ∧
        ∀ va, tr s' va = if decide (vpage va = vpage stval) then Some (pp + va mod PAGE_SIZE, 0xDF) else tr s va) ∨
     (∃ buf, o = Halted buf ∧ holds buf out ∧ (∀ va, tr s' va = tr s va) ∧
        (superpage (words (mem s)) (active_space_ptab (mm_of s)) stval ∨ (length (pages l) < 3)%nat)))
  else kern s' = kern s ∧ mm_of s' = mm_of s ∧ ∃ buf, o = Halted buf ∧ holds buf out.

Lemma resolve_run l cause stval tfr out junk fmt ap s :
  space_ok (mm_of s) l → (0 < length junk)%nat → Z.of_nat (length junk) < 2 ^ 64 → printed fmt ap = Some out →
  ∃ o s', resolve cause stval tfr (buf ← format junk fmt ap; mret (Halted buf)) s = (Ret o, s') ∧ handled l cause stval tfr out s o s'.
Proof.
  intros Hsp Hj Hjl Hp. unfold resolve, handled.
  assert (∀ t, ∃ buf, (b ← format junk fmt ap; mret (Halted b)) t = (Ret (Halted buf), t) ∧ holds buf out) as Hk.
  { intros t. destruct (format_run junk fmt ap out t Hp Hj Hjl) as (buf & R & _ & Hh). exists buf. split; [by krun R|done]. }
  assert (mm_of (PSys (kern s) (mm_of s) (ios s) (proctab s) (procs s)) = mm_of s) as Hmm by done.
  destruct (is_page_fault cause) eqn:Epf.
  - destruct (umode_page_fault_correct (mm_of s) l stval Hsp) as [Hout Hin].
    destruct (decide (UMEM_START_VMA ≤ stval < UMEM_END_VMA)) as [Hr|Hr].
    + destruct (Hin Hr) as (r & x & l' & R & Hsp' & Hres). krun (excp_on_mm_run _ s _ _ R). set (s1 := PSys _ x _ _ _).
      assert (mm_of s1 = x) as Ex by apply mm_of_on_mm. rewrite <- Ex in Hsp', Hres.
      destruct Hres as [[-> (pp & Hpp & Hz & Htr)]|(-> & Htr & Hwhy)].
      * exists (Resumed tfr []), s1. split; [done|]. rewrite decide_True by done. split_and!; try done. exists l'. split; [done|].
        left. split; [done|]. exists pp. by split_and!.
      * destruct (Hk s1) as (buf & Rk & Hh). exists (Halted buf), s1. split; [exact Rk|]. rewrite decide_True by done.
        split_and!; try done. exists l'. split; [done|]. right. exists buf. by split_and!.
    + specialize (Hout ltac:(lia)). krun (excp_on_mm_run _ s _ _ Hout). change (satp (mm_of s)) with (active (kern s)).
      assert (with_active (kern s) (active (kern s)) = kern s) as -> by (by destruct (kern s)).
      destruct (Hk (PSys (kern s) (mm_of s) (ios s) (proctab s) (procs s))) as (buf & Rk & Hh).
      eexists _, _. split; [exact Rk|]. rewrite decide_False by (intros [_ ?]; done). split_and!; try done. by exists buf.
  - kret. destruct (Hk s) as (buf & Rk & Hh). exists (Halted buf), s. split; [exact Rk|].
    rewrite decide_False by (intros [? _]; congruence). split_and!; try done. by exists buf.
Qed.

(** C24. Exceptions other than system calls, in user mode and in the kernel: a
    page fault at a user address is resolved and the program resumed, with one
    zero-filled page of the free ones mapped there for all accesses and every
    other translation kept, unless a super-page is in the way or fewer than three
    pages are free; every other exception, of a user program as of the kernel,
    changes nothing and halts the system with the message of its cause.  This is
    what kernel/excp.c does; DESIGN.md (a page fault kills the process) and
    docs/memory-map.md (a fault of the kernel outside its own mappings panics)
    say otherwise about faults at user addresses. *)
Theorem exceptions_correct run l junk cause stval tfr s :
  space_ok (mm_of s) l → (0 < length junk)%nat → Z.of_nat (length junk) < 2 ^ 64 →
  (cause ≠ RISCV_SCAUSE_ECALL_FROM_UMODE →
   ∃ o s' out, umode_text cause stval tfr = Some out ∧
     handle_umode_exception run junk cause stval tfr s = (Ret o, s') ∧ handled l cause stval tfr out s o s') ∧
  (∃ o s' out, smode_text cause stval tfr = Some out ∧
     handle_smode_exception junk cause stval tfr s = (Ret o, s') ∧ handled l cause stval tfr out s o s').
Proof.
  intros Hsp Hj Hjl. split.
  - intros Hc. destruct (umode_text_some cause stval tfr) as [out Hp].
    destruct (resolve_run l cause stval tfr out junk _ _ s Hsp Hj Hjl Hp) as (o & s' & R & Hh). exists o, s', out.
    split_and!; [done| |done]. unfold handle_umode_exception. rewrite (proj2 (Z.eqb_neq _ _)) by done. exact R.
  - destruct (smode_text_some cause stval tfr) as [out Hp]. pose proof Hp as Hp'. unfold smode_text in Hp.
    assert (∃ fmt ap, printed fmt ap = Some out ∧
      handle_smode_exception junk cause stval tfr = resolve cause stval tfr (b ← format junk fmt ap; mret (Halted b))) as (fmt & ap & Hpr & E).
    { unfold handle_smode_exception. destruct (excp_name cause) as [nm|]; [destruct (has_address cause)|]; by eexists _, _. }
    destruct (resolve_run l cause stval tfr out junk _ _ s Hsp Hj Hjl Hpr) as (o & s' & R & Hh). exists o, s', out.
    split_and!; [done| |done]. by rewrite E.
Qed.
End handlers.

(** An illegal instruction of a user program. *)
Definition demo_sys : psys unit := PSys (with_active (initial 0 1) (satp demo_space)) demo_space ∅ [] ∅.
Definition demo_frame : trap_frame := TrapFrame 0 0 0 0 0xC0000010.

Lemma exceptions_correct_witness :
  ∃ buf s', handle_umode_exception (λ _, mret None) (replicate 96 7) RISCV_SCAUSE_ILLEGAL_INSTR 0 demo_frame demo_sys = (Ret (Halted buf), s') ∧
    holds buf (chars "Unhandled U-mode exception 'Illegal instruction' (cause=2) at 0xc0000010 stval=0x0").
Proof.
  destruct (exceptions_correct (λ _, mret None) [(0x80300000, 4)] (replicate 96 7) RISCV_SCAUSE_ILLEGAL_INSTR 0 demo_frame demo_sys)
    as [Hu _]; [exact demo_space_ok|rewrite length_replicate; lia|rewrite length_replicate; lia|].
  destruct (Hu ltac:(done)) as (o & s' & out & Ht & R & Hh). destruct Hh as (_ & _ & _ & Hh). cbv zeta in Hh.
  rewrite decide_False in Hh by (intros [? _]; done). destruct Hh as (_ & _ & buf & -> & Hb).
  exists buf, s'. split; [exact R|]. clear -Ht Hb. revert Hb. vm_compute in Ht. injection Ht as <-. exact (λ h, h).
Defined.
End Excp.
