(* ===== verification/UserIo.v ===== *)
(** * User library: I/O objects and the terminal object (user/io.c, user/io.h)

    The records of Io.v serve here too.  The functions that are not those of the
    kernel are translated again: [ioclose], [iowrite], and the terminal object
    [io_term], which wraps a raw object and normalizes line ends. *)

From S2P Require Import Prelude Config Io Strings.

Module UserIo.
Import Str.

Definition CR : Z := 13.
Definition LF : Z := 10.
Definition BEL : Z := 7.
Definition BS : Z := 8.
Definition SP : Z := 32.

(** ** I/O objects *)

Section io.
Context {R : Type}.
Implicit Types (o : io R) (buf : list Z) (len bufsz : Z).

Definition ioclose : M (io R) unit := λ o,
  if refcnt o =? 0 then (Ret tt, o)
  else
    let o := with_refcnt o (refcnt o - 1) in
    match i_close (intf o) with
    | Some f => if refcnt o =? 0 then (Ret tt, with_ist o (f (ist o))) else (Ret tt, o)
    | None => (Ret tt, o)
    end.

(** Every pass hands over the whole buffer. *)
Fixpoint iowrite_loop (fuel : nat) (f : R → list Z → Z → Z * R) buf len (bufpos : Z) (s : R) : outcome Z * R :=
  match fuel with
  | O => (NoFuel, s)
  | S k =>
      let '(n, s) := f s buf len in
      if n <=? 0 then (Ret (if n <? 0 then n else bufpos), s)
      else
        let bufpos := bufpos + n in
        if bufpos <? len then iowrite_loop k f buf len bufpos s else (Ret bufpos, s)
  end.

Definition iowrite buf len : M (io R) Z := λ o,
  match i_write (intf o) with
  | None => (Ret (- ENOTSUP), o)
  | Some f =>
      if len <? 0 then (Ret (- EINVAL), o)
      else let '(r, s) := iowrite_loop (S (Z.to_nat len)) f buf len 0 (ist o) in (r, with_ist o s)
  end.

Definition ioputc (c : Z) : M (io R) Z :=
  wlen ← iowrite [c] 1;
  mret (if wlen <? 0 then s32 wlen else if wlen =? 0 then - EIO else u8 c).

Definition iogetc : M (io R) Z := λ o,
  let '(rlen, got, o) := ioread o 1 in
  (Ret (if rlen <? 0 then s32 rlen else if rlen =? 0 then - EIO else u8 (getb 0 got 0)), o).

Definition ioputs (s : cstr) : M (io R) Z :=
  wlen ← iowrite s (Z.of_nat (length s));
  if wlen <? 0 then mret (s32 wlen)
  else
    wlen ← iowrite [LF] 1;
    mret (if wlen <? 0 then s32 wlen else 0).

(** ** The terminal object *)

Record io_term := Term { trefcnt : Z; rawio : io R; cr_out : bool; cr_in : bool }.
Implicit Types (t : io_term).

Definition ioterm_init (raw : io R) (n : Z) : io_term := Term n raw false false.

Definition on_raw {A} (m : M (io R) A) : M io_term A := λ t,
  let (r, o) := m (rawio t) in (r, Term (trefcnt t) o (cr_out t) (cr_in t)).
Definition set_out (b : bool) : M io_term unit := modify (λ t, Term (trefcnt t) (rawio t) b (cr_in t)).
Definition set_in (b : bool) : M io_term unit := modify (λ t, Term (trefcnt t) (rawio t) (cr_out t) b).

Definition ioterm_close : M io_term unit := on_raw ioclose.

(** The loop over the buffer that was read, in place: the buffer, [wp] and the
    new flag. *)
Fixpoint fix_loop (n : nat) (buf : list Z) (rp wp : Z) (cr : bool) : list Z * Z * bool :=
  match n with
  | O => (buf, wp, cr)
  | S n =>
      let ch := getb 0 buf rp in
      let rp := rp + 1 in
      if cr then
        if ch =? CR then fix_loop n (setb wp LF buf) rp (wp + 1) true
        else if ch =? LF then fix_loop n buf rp wp false
        else fix_loop n (setb wp ch buf) rp (wp + 1) false
      else if ch =? CR then fix_loop n (setb wp LF buf) rp (wp + 1) true
      else fix_loop n (setb wp ch buf) rp (wp + 1) false
  end.

Definition no_fuel {A} : M io_term A := λ t, (NoFuel, t).

(** The result and what the buffer starts with. *)
Fixpoint ioterm_read_loop (fuel : nat) len : M io_term (Z * list Z) :=
  match fuel with
  | O => no_fuel
  | S fuel =>
      '(cnt, got) ← on_raw (λ o, let '(cnt, got, o) := ioread o len in (Ret (cnt, got), o));
      if cnt <? 0 then mret (cnt, got)
      else
        cr ← gets cr_in;
        let '(buf, wp, cr) := fix_loop (Z.to_nat cnt) got 0 0 cr in
        set_in cr;;
        if wp =? 0 then ioterm_read_loop fuel len else mret (wp, take (Z.to_nat wp) buf)
  end.
Definition ioterm_read := ioterm_read_loop.

(** The loop of [ioterm_write] from [rp] on: a result to return at once, or
    [wp] and [acc] behind the loop. *)
Fixpoint write_scan (fuel : nat) buf len (rp wp acc : Z) : M io_term (Z + Z * Z) :=
  match fuel with
  | O => no_fuel
  | S fuel =>
      if rp <? len then
        let ch := getb 0 buf rp in
        let rp := rp + 1 in
        if ch =? CR then
          if ((rp <? len) && (getb 0 buf rp =? LF))%bool then set_out false;; write_scan fuel buf len (rp + 1) wp acc
          else
            cnt ← on_raw (iowrite (drop (Z.to_nat wp) buf) (rp - wp));
            if cnt <? 0 then mret (inl cnt)
            else if cnt =? 0 then mret (inl acc)
            else
              let acc := acc + cnt in
              let wp := wp + cnt in
              cnt ← on_raw (ioputc LF);
              if cnt <? 0 then mret (inl cnt) else set_out true;; write_scan fuel buf len rp wp acc
        else if ch =? LF then
          co ← gets cr_out;
          if (co : bool) then set_out false;; write_scan fuel buf len rp (wp + 1) acc
          else
            r ← (if negb (wp =? rp - 1) then
                   cnt ← on_raw (iowrite (drop (Z.to_nat wp) buf) (rp - 1 - wp));
                   mret (if cnt <? 0 then inl cnt else if cnt =? 0 then inl acc else inr (wp + cnt, acc + cnt))
                 else mret (inr (wp, acc)));
            match (r : Z + Z * Z) with
            | inl e => mret (inl e)
            | inr (wp, acc) =>
                cnt ← on_raw (ioputc CR);
                if cnt <? 0 then mret (inl cnt) else set_out false;; write_scan fuel buf len rp wp acc
            end
        else set_out false;; write_scan fuel buf len rp wp acc
      else mret (inr (wp, acc))
  end.

(** The loop ends with [rp] at the end of the buffer. *)
Definition ioterm_write buf len : M io_term Z :=
  r ← write_scan (S (Z.to_nat len)) buf len 0 0 0;
  match (r : Z + Z * Z) with
  | inl e => mret e
  | inr (wp, acc) =>
      if negb (len =? wp) then
        cnt ← on_raw (iowrite (drop (Z.to_nat wp) buf) (len - wp));
        mret (if cnt <? 0 then cnt else if cnt =? 0 then acc else acc + cnt)
      else mret acc
  end.

Definition ioterm_ioctl (cmd : Z) (arg : option Z) : M io_term (Z * option Z) :=
  if negb (cmd =? IOCTL_SETPOS) then on_raw (λ o, let '(r, a, o) := ioctl o cmd arg in (Ret (r, a), o))
  else mret (- ENOTSUP, arg).

(** [iogetc(&iot->io)], assigned to a [char]; [fuel] is for the read. *)
Definition term_getc (fuel : nat) : M io_term Z :=
  '(rlen, got) ← ioterm_read fuel 1;
  mret (u8 (if rlen <? 0 then s32 rlen else if rlen =? 0 then - EIO else u8 (getb 0 got 0))).

Definition store buf (p c : Z) : M io_term (list Z) :=
  if ((0 <=? p) && (p <? Z.of_nat (length buf)))%bool then mret (setb p c buf) else panic.

(** [None] for a NULL result; otherwise the buffer. *)
Fixpoint getsn_loop (fuel : nat) buf (p n : Z) : M io_term (option (list Z)) :=
  match fuel with
  | O => no_fuel
  | S k =>
      c ← term_getc fuel;
      if c =? 91 then set_in false;; getsn_loop k buf p n
      else if ((c =? CR) || (c =? LF))%bool then
        r ← on_raw (ioputc CR);
        if r <? 0 then mret None
        else
          r ← on_raw (ioputc LF);
          if r <? 0 then mret None else buf ← store buf p 0; mret (Some buf)
      else if ((c =? BS) || (c =? 127))%bool then
        if negb (p =? 0) then
          r ← on_raw (ioputc BS);
          if r <? 0 then mret None
          else
            r ← on_raw (ioputc SP);
            if r <? 0 then mret None
            else r ← on_raw (ioputc BS); if r <? 0 then mret None else getsn_loop k buf (p - 1) (n + 1)
        else r ← on_raw (ioputc BEL); if r <? 0 then mret None else getsn_loop k buf p n
      else if 1 <? n then
        r ← on_raw (ioputc c);
        buf ← store buf p c;
        if r <? 0 then mret None else getsn_loop k buf (p + 1) (n - 1)
      else r ← on_raw (ioputc BEL); if r <? 0 then mret None else getsn_loop k buf p n
  end.
Definition ioterm_getsn (fuel : nat) buf (n : Z) : M io_term (option (list Z)) := getsn_loop fuel buf 0 n.

(** ** Line ends, as io.h describes them

    One bit of state for each direction. *)

Fixpoint normal_out (cr : bool) (l : list Z) : list Z * bool :=
  match l with
  | [] => ([], cr)
  | ch :: l =>
      if ch =? CR then let '(r, f) := normal_out true l in (CR :: LF :: r, f)
      else if ch =? LF then
        if cr then normal_out false l else let '(r, f) := normal_out false l in (CR :: LF :: r, f)
      else let '(r, f) := normal_out false l in (ch :: r, f)
  end.

Fixpoint normal_in (cr : bool) (l : list Z) : list Z * bool :=
  match l with
  | [] => ([], cr)
  | ch :: l =>
      if ch =? CR then let '(r, f) := normal_in true l in (LF :: r, f)
      else if (cr && (ch =? LF))%bool then normal_in false l
      else let '(r, f) := normal_in false l in (ch :: r, f)
  end.

Lemma normal_out_app l1 l2 cr :
  normal_out cr (l1 ++ l2) =
  ((normal_out cr l1).1 ++ (normal_out (normal_out cr l1).2 l2).1, (normal_out (normal_out cr l1).2 l2).2).
Proof.
  revert cr. induction l1 as [|ch l1 IH]; intros cr; cbn [app normal_out fst snd]; [by destruct (normal_out cr l2)|].
  rewrite !IH. repeat case_match; simpl in *; simplify_eq; done.
Qed.

Lemma normal_in_app l1 l2 cr :
  normal_in cr (l1 ++ l2) =
  ((normal_in cr l1).1 ++ (normal_in (normal_in cr l1).2 l2).1, (normal_in (normal_in cr l1).2 l2).2).
Proof.
  revert cr. induction l1 as [|ch l1 IH]; intros cr; cbn [app normal_in fst snd]; [by destruct (normal_in cr l2)|].
  rewrite !IH. repeat case_match; simpl in *; simplify_eq; done.
Qed.

Lemma normal_in_length cr l : (length (normal_in cr l).1 ≤ length l)%nat.
Proof.
  revert cr. induction l as [|x l IH]; intros cr; cbn [normal_in]; [simpl; lia|].
  pose proof (IH true). pose proof (IH false). repeat case_match; simpl in *; lia.
Qed.

(** ** Reading *)

Lemma take_setb_le (l : list Z) p v : 0 ≤ p → take (Z.to_nat p) (setb p v l) = take (Z.to_nat p) l.
Proof. intros. unfold setb. by rewrite take_insert_ge by lia. Qed.

(** The loop in place computes [normal_in]: what was written is in front of
    what is still to be read. *)
Lemma fix_loop_ok n : ∀ buf rp wp cr,
  0 ≤ wp ≤ rp → rp + Z.of_nat n ≤ Z.of_nat (length buf) →
  let '(buf', wp', cr') := fix_loop n buf rp wp cr in
  let '(out, f) := normal_in cr (slice rp (Z.of_nat n) buf) in
  cr' = f ∧ wp' = wp + Z.of_nat (length out) ∧ take (Z.to_nat wp') buf' = take (Z.to_nat wp) buf ++ out ∧ length buf' = length buf.
Proof.
  induction n as [|n IH]; intros buf rp wp cr Hw Hr.
  { unfold slice. simpl. split_and!; try done; [lia|by rewrite app_nil_r]. }
  destruct (lookup_lt_is_Some_2 buf (Z.to_nat rp) ltac:(lia)) as [ch Hch].
  assert (slice rp (Z.of_nat (S n)) buf = ch :: slice (rp + 1) (Z.of_nat n) buf) as ->.
  { unfold slice. rewrite !Nat2Z.id, (drop_S _ _ _ Hch). cbn [take]. do 2 f_equal. f_equal. lia. }
  cbn [fix_loop normal_in]. rewrite (getb_lookup 0 _ _ _ Hch).
  assert (∀ v c2, let '(buf', wp', cr') := fix_loop n (setb wp v buf) (rp + 1) (wp + 1) c2 in
    let '(out, f) := normal_in c2 (slice (rp + 1) (Z.of_nat n) buf) in
    cr' = f ∧ wp' = wp + Z.of_nat (length (v :: out)) ∧ take (Z.to_nat wp') buf' = take (Z.to_nat wp) buf ++ v :: out ∧ length buf' = length buf) as Hstep.
  { intros v c2. specialize (IH (setb wp v buf) (rp + 1) (wp + 1) c2 ltac:(lia) ltac:(rewrite length_setb; lia)).
    destruct (fix_loop n _ _ _ _) as [[buf' wp'] cr'].
    assert (slice (rp + 1) (Z.of_nat n) (setb wp v buf) = slice (rp + 1) (Z.of_nat n) buf) as E.
    { unfold slice, setb. by rewrite drop_insert_lt by lia. }
    rewrite E in IH. destruct (normal_in c2 _) as [out f]. destruct IH as (-> & -> & Ht & Hl). rewrite length_setb in Hl.
    split_and!; [done|simpl; lia| |done]. rewrite Ht. replace (Z.to_nat (wp + 1)) with (S (Z.to_nat wp)) by lia.
    rewrite (take_S_r _ _ v); [|unfold setb; apply list_lookup_insert_eq; lia]. rewrite take_setb_le by lia. by rewrite <- app_assoc. }
  destruct (ch =? CR) eqn:ECR.
  - specialize (Hstep LF true). destruct cr; destruct (fix_loop n _ _ _ true) as [[? ?] ?], (normal_in true _) as [out f]; exact Hstep.
  - destruct cr; [destruct (ch =? LF) eqn:ELF|]; cbn [andb].
    + specialize (IH buf (rp + 1) wp false ltac:(lia) ltac:(lia)). exact IH.
    + specialize (Hstep ch false). destruct (fix_loop n _ _ _ false) as [[? ?] ?], (normal_in false _) as [out f]; exact Hstep.
    + specialize (Hstep ch false). destruct (fix_loop n _ _ _ false) as [[? ?] ?], (normal_in false _) as [out f]; exact Hstep.
Qed.

(** What the rest of the library relies on of a raw object: reading gives at
    least one of the bytes that are there, writing takes all it is given. *)
Class RawIo (rd : R → Z → Z * list Z * R) (wr : R → list Z → Z → Z * R) := {
  avail : R → list Z;
  sent : R → list Z;
  raw_read s len : 0 < len → avail s ≠ [] →
    ∃ n s', rd s len = (Z.of_nat n, take n (avail s), s') ∧ (0 < n ≤ length (avail s))%nat ∧ Z.of_nat n ≤ len ∧
      avail s' = drop n (avail s) ∧ sent s' = sent s;
  raw_write s buf len : 0 < len ≤ Z.of_nat (length buf) →
    ∃ s', wr s buf len = (len, s') ∧ sent s' = sent s ++ take (Z.to_nat len) buf ∧ avail s' = avail s
}.

Context (rd : R → Z → Z * list Z * R) (wr : R → list Z → Z → Z * R) `{!RawIo rd wr}.

(** The terminal object is on top of such an object. *)
Definition on_rawio t : Prop := i_read (intf (rawio t)) = Some rd ∧ i_write (intf (rawio t)) = Some wr.
Definition input t : list Z := avail (ist (rawio t)).
Definition output t : list Z := sent (ist (rawio t)).

Lemma read_loop_ok fuel : ∀ t len,
  on_rawio t → 0 < len → (normal_in (cr_in t) (input t)).1 ≠ [] → (length (input t) ≤ fuel)%nat →
  ∃ out t', ioterm_read_loop fuel len t = (Ret (Z.of_nat (length out), out), t') ∧ 0 < Z.of_nat (length out) ≤ len ∧
    out ++ (normal_in (cr_in t') (input t')).1 = (normal_in (cr_in t) (input t)).1 ∧
    on_rawio t' ∧ output t' = output t ∧ cr_out t' = cr_out t.
Proof.
  induction fuel as [|fuel IH]; intros t len Hraw Hlen Hne Hf.
  { assert (input t = []) as E by (by apply nil_length_inv; lia). by rewrite E in Hne. }
  destruct (raw_read (ist (rawio t)) len Hlen) as (n & s' & Hrd & Hn & Hnl & Hav & Hse).
  { intros E. unfold input in Hne. by rewrite E in Hne. }
  cbn [ioterm_read_loop]. set (got := take n (input t)).
  assert (on_raw (λ o, let '(cnt, got, o) := ioread o len in (Ret (cnt, got), o)) t =
    (Ret (Z.of_nat n, got), Term (trefcnt t) (with_ist (rawio t) s') (cr_out t) (cr_in t))) as R1.
  { unfold on_raw, ioread. rewrite (proj1 Hraw), (proj2 (Z.ltb_ge _ _)) by lia. by rewrite Hrd. }
  krun R1. rewrite (proj2 (Z.ltb_ge (Z.of_nat n) 0)) by lia. kgets. cbn [cr_in]. rewrite Nat2Z.id.
  assert (length got = n) as Hgl by (unfold got, input; rewrite length_take; lia).
  pose proof (fix_loop_ok n got 0 0 (cr_in t) ltac:(lia) ltac:(lia)) as Hfix.
  assert (slice 0 (Z.of_nat n) got = got) as E by (unfold slice; rewrite Nat2Z.id; cbn [drop]; by apply take_ge; lia).
  rewrite E in Hfix. destruct (fix_loop n got 0 0 (cr_in t)) as [[buf' wp'] cr'] eqn:Efix.
  destruct (normal_in (cr_in t) got) as [o f] eqn:Eno. destruct Hfix as (-> & -> & Ht & _). rewrite Z.add_0_l in *. cbn [app take] in Ht.
  unfold set_in. kmodify. set (t1 := Term _ _ _ f).
  assert (on_rawio t1 ∧ input t1 = drop n (input t) ∧ output t1 = output t ∧ cr_out t1 = cr_out t) as (Hraw1 & Hin1 & Hout1 & Hco1) by done.
  assert ((normal_in (cr_in t) (input t)).1 = o ++ (normal_in (cr_in t1) (input t1)).1) as Hsplit.
  { rewrite Hin1. rewrite <- (take_drop n (input t)) at 1. fold got. by rewrite normal_in_app, Eno. }
  destruct o as [|c o].
  - cbn [length]. change (Z.of_nat 0 =? 0) with true. cbv iota. rewrite Hsplit in Hne |- *. cbn [app] in Hne |- *.
    destruct (IH t1 len Hraw1 Hlen Hne) as (out & t' & R2 & Hb & Hs & Hr' & Ho' & Hc'); [rewrite Hin1, length_drop; lia|].
    exists out, t'. split_and!; try done; try lia; congruence.
  - rewrite (proj2 (Z.eqb_neq _ _)) by (simpl; lia). exists (c :: o), t1. rewrite Ht. split_and!; try done.
    pose proof (f_equal length Ht) as Hl. rewrite length_take in Hl. simpl in Hl |- *.
    pose proof (normal_in_length (cr_in t) got) as Hle. rewrite Eno in Hle. simpl in Hle. lia.
Qed.

(** ** Writing *)

(** Only the output and the output flag may differ. *)
Definition writes t t' : Prop := on_rawio t' ∧ input t' = input t ∧ cr_in t' = cr_in t.

Lemma term_write_ok t data n :
  on_rawio t → 0 < n ≤ Z.of_nat (length data) →
  ∃ t', on_raw (iowrite data n) t = (Ret n, t') ∧ writes t t' ∧ cr_out t' = cr_out t ∧
    output t' = output t ++ take (Z.to_nat n) data.
Proof.
  intros Hraw Hn. destruct (raw_write (ist (rawio t)) data n Hn) as (s' & Hw & Hs & Ha).
  exists (Term (trefcnt t) (with_ist (rawio t) s') (cr_out t) (cr_in t)). unfold on_raw, iowrite. rewrite (proj2 Hraw), (proj2 (Z.ltb_ge n 0)) by lia.
  cbn [iowrite_loop]. rewrite Hw, (proj2 (Z.leb_gt n 0)), Z.add_0_l, (proj2 (Z.ltb_ge n n)) by lia.
  by split_and!.
Qed.

Lemma term_putc_ok t c :
  on_rawio t → 0 ≤ c < 256 →
  ∃ t', on_raw (ioputc c) t = (Ret c, t') ∧ writes t t' ∧ cr_out t' = cr_out t ∧ output t' = output t ++ [c].
Proof.
  intros Hraw Hc. destruct (term_write_ok t [c] 1 Hraw ltac:(simpl; lia)) as (t' & R1 & Hw & Hf & Ho). exists t'. split_and!; try done.
  unfold on_raw, ioputc, mbind, M_bind in *. destruct (iowrite [c] 1 (rawio t)) as [r o] eqn:E. injection R1 as -> <-.
  cbv beta iota delta [mret M_ret]. change (1 <? 0) with false. change (1 =? 0) with false. cbv iota.
  unfold u8. rewrite Z.mod_small by lia. done.
Qed.

Lemma writes_trans t t1 t2 : writes t t1 → writes t1 t2 → writes t t2.
Proof. intros (? & ? & ?) (? & ? & ?). split_and!; [done|congruence..]. Qed.

Lemma slice_snoc (l : list Z) a b c : 0 ≤ a ≤ b → l !! Z.to_nat b = Some c → slice a (b + 1 - a) l = slice a (b - a) l ++ [c].
Proof.
  intros Hab Hc. unfold slice. replace (Z.to_nat (b + 1 - a)) with (S (Z.to_nat (b - a))) by lia. apply take_S_r.
  rewrite lookup_drop. by replace (Z.to_nat a + Z.to_nat (b - a))%nat with (Z.to_nat b) by lia.
Qed.

(** A line feed that is left out because of a carriage return before it. *)
Definition skips (cr : bool) (l : list Z) : Z := if (cr && bool_decide (list.head l = Some LF))%bool then 1 else 0.

Definition scan_result buf (rp wp acc : Z) t (wp' acc' : Z) t' : Prop :=
  writes t t' ∧ wp ≤ wp' ≤ Z.of_nat (length buf) ∧
  output t' ++ drop (Z.to_nat wp') buf = output t ++ slice wp (rp - wp) buf ++ (normal_out (cr_out t) (drop (Z.to_nat rp) buf)).1 ∧
  cr_out t' = (normal_out (cr_out t) (drop (Z.to_nat rp) buf)).2 ∧
  acc' = acc + (wp' - wp) - skips (cr_out t) (drop (Z.to_nat rp) buf).

(** One more step: [t1], [rp1], [wp1], [acc1] are where the loop goes on. *)
Lemma scan_step buf rp wp acc t rp1 wp1 acc1 t1 wp' acc' t' :
  scan_result buf rp1 wp1 acc1 t1 wp' acc' t' → writes t t1 → wp ≤ wp1 →
  output t1 ++ slice wp1 (rp1 - wp1) buf ++ (normal_out (cr_out t1) (drop (Z.to_nat rp1) buf)).1 =
    output t ++ slice wp (rp - wp) buf ++ (normal_out (cr_out t) (drop (Z.to_nat rp) buf)).1 →
  (normal_out (cr_out t1) (drop (Z.to_nat rp1) buf)).2 = (normal_out (cr_out t) (drop (Z.to_nat rp) buf)).2 →
  acc1 - wp1 - skips (cr_out t1) (drop (Z.to_nat rp1) buf) = acc - wp - skips (cr_out t) (drop (Z.to_nat rp) buf) →
  scan_result buf rp wp acc t wp' acc' t'.
Proof.
  intros (Hw & Hwp & Ho & Hf & Ha) Hw1 Hle Eo Ef Ea. split_and!; [by eapply writes_trans|lia|lia|congruence|congruence|lia].
Qed.

Lemma set_out_run b t : set_out b t = (Ret tt, Term (trefcnt t) (rawio t) b (cr_in t)).
Proof. done. Qed.

(** The carriage return at [rp] that no line feed follows. *)
Lemma scan_cr buf rp wp t :
  on_rawio t → 0 ≤ wp ≤ rp → buf !! Z.to_nat rp = Some CR →
  ∃ t1 t2, on_raw (iowrite (drop (Z.to_nat wp) buf) (rp + 1 - wp)) t = (Ret (rp + 1 - wp), t1) ∧
    on_raw (ioputc LF) t1 = (Ret LF, t2) ∧ writes t t2 ∧ output t2 = output t ++ slice wp (rp - wp) buf ++ [CR; LF].
Proof.
  intros Hraw Hwp Hch. assert (rp < Z.of_nat (length buf)) by (apply lookup_lt_Some in Hch; lia).
  destruct (term_write_ok t (drop (Z.to_nat wp) buf) (rp + 1 - wp) Hraw) as (t1 & R1 & Hw1 & _ & Ho1); [rewrite length_drop; lia|].
  destruct (term_putc_ok t1 LF (proj1 Hw1)) as (t2 & R2 & Hw2 & _ & Ho2); [unfold LF; lia|].
  exists t1, t2. split_and!; try done; [by eapply writes_trans..|].
  rewrite Ho2, Ho1. fold (slice wp (rp + 1 - wp) buf). rewrite (slice_snoc _ _ _ _ Hwp Hch). by rewrite <- !app_assoc.
Qed.

(** The line feed at [rp] that needs a carriage return: what is pending is
    written, then the carriage return. *)
Lemma scan_lf buf rp wp acc t :
  on_rawio t → 0 ≤ wp ≤ rp → rp < Z.of_nat (length buf) →
  ∃ t1 t2,
    (if negb (wp =? rp + 1 - 1) then
       cnt ← on_raw (iowrite (drop (Z.to_nat wp) buf) (rp + 1 - 1 - wp));
       mret (if cnt <? 0 then inl cnt else if cnt =? 0 then inl acc else inr (wp + cnt, acc + cnt))
     else mret (inr (wp, acc))) t = (Ret (inr (rp, acc + (rp - wp))), t1) ∧
    on_raw (ioputc CR) t1 = (Ret CR, t2) ∧ writes t t2 ∧ output t2 = output t ++ slice wp (rp - wp) buf ++ [CR].
Proof.
  intros Hraw Hwp Hrp. replace (rp + 1 - 1) with rp by lia. destruct (Z.eqb_spec wp rp) as [->|Hne]; cbn [negb].
  - destruct (term_putc_ok t CR Hraw) as (t2 & R2 & Hw2 & _ & Ho2); [unfold CR; lia|]. exists t, t2.
    split_and!; try done; [by rewrite Z.sub_diag, Z.add_0_r|]. rewrite Ho2, Z.sub_diag. done.
  - destruct (term_write_ok t (drop (Z.to_nat wp) buf) (rp - wp) Hraw) as (t1 & R1 & Hw1 & _ & Ho1); [rewrite length_drop; lia|].
    destruct (term_putc_ok t1 CR (proj1 Hw1)) as (t2 & R2 & Hw2 & _ & Ho2); [unfold CR; lia|]. exists t1, t2.
    split_and!; try done; [|by eapply writes_trans..|].
    + krun R1. rewrite (proj2 (Z.ltb_ge _ _)), (proj2 (Z.eqb_neq _ _)) by lia. cbv delta [mret M_ret]. cbv beta. do 4 f_equal. lia.
    + rewrite Ho2, Ho1. by rewrite <- app_assoc.
Qed.

Lemma skips_false l : skips false l = 0.
Proof. done. Qed.
Lemma skips_other cr c l : c ≠ LF → skips cr (c :: l) = 0.
Proof. intros Hc. unfold skips. cbn [list.head]. rewrite bool_decide_false, andb_false_r; [done|]. by intros [= ->]. Qed.

(** [normal_out] by the first character. *)
Lemma normal_out_cr cr l : normal_out cr (CR :: l) = (CR :: LF :: (normal_out true l).1, (normal_out true l).2).
Proof. cbn [normal_out]. change (CR =? CR) with true. cbv iota. by destruct (normal_out true l). Qed.
Lemma normal_out_lf l : normal_out false (LF :: l) = (CR :: LF :: (normal_out false l).1, (normal_out false l).2).
Proof. cbn [normal_out]. change (LF =? CR) with false. change (LF =? LF) with true. cbv iota. by destruct (normal_out false l). Qed.
Lemma normal_out_char cr c l : c ≠ CR → c ≠ LF → normal_out cr (c :: l) = (c :: (normal_out false l).1, (normal_out false l).2).
Proof. intros H1 H2. cbn [normal_out]. rewrite (proj2 (Z.eqb_neq c CR)), (proj2 (Z.eqb_neq c LF)) by done. by destruct (normal_out false l). Qed.

Lemma drop_next (l : list Z) i c : 0 ≤ i → l !! Z.to_nat i = Some c → drop (Z.to_nat i) l = c :: drop (Z.to_nat (i + 1)) l.
Proof. intros Hi Hc. rewrite (drop_S _ _ _ Hc). do 2 f_equal. lia. Qed.

Section scan.
Context (buf : list Z) (fuel : nat).
#[local] Notation len := (Z.of_nat (length buf)).

(** Where the loop can be. *)
Definition scan_at t (rp wp : Z) : Prop := on_rawio t ∧ 0 ≤ wp ≤ rp ∧ rp ≤ len ∧ (cr_out t = true → wp = rp).
Definition scan_ends (n : nat) t (rp wp acc : Z) : Prop :=
  ∃ wp' acc' t', write_scan n buf len rp wp acc t = (Ret (inr (wp', acc')), t') ∧ scan_result buf rp wp acc t wp' acc' t'.

Context (IH : ∀ t rp wp acc, scan_at t rp wp → len - rp < Z.of_nat fuel → scan_ends fuel t rp wp acc).
Context (t : io_term) (rp wp acc ch : Z).
Context (Hat : scan_at t rp wp) (Hf : len - rp < Z.of_nat (S fuel)) (Hch : buf !! Z.to_nat rp = Some ch).

(** The loop goes on at [rp1] with the flag [b]. *)
Lemma scan_goes_on t1 b rp1 wp1 acc1 :
  writes t t1 → let t2 := Term (trefcnt t1) (rawio t1) b (cr_in t1) in
  wp ≤ wp1 ≤ rp1 → rp < rp1 ≤ len → (b = true → wp1 = rp1) →
  output t1 ++ slice wp1 (rp1 - wp1) buf ++ (normal_out b (drop (Z.to_nat rp1) buf)).1 =
    output t ++ slice wp (rp - wp) buf ++ (normal_out (cr_out t) (drop (Z.to_nat rp) buf)).1 →
  (normal_out b (drop (Z.to_nat rp1) buf)).2 = (normal_out (cr_out t) (drop (Z.to_nat rp) buf)).2 →
  acc1 - wp1 - skips b (drop (Z.to_nat rp1) buf) = acc - wp - skips (cr_out t) (drop (Z.to_nat rp) buf) →
  ∃ wp' acc' t', (set_out b;; write_scan fuel buf len rp1 wp1 acc1) t1 = (Ret (inr (wp', acc')), t') ∧ scan_result buf rp wp acc t wp' acc' t'.
Proof.
  clear Hch. intros Hw t2 Hwp Hrp Hb Eo Ef Ea. destruct Hat as (Hraw & H0 & Hl & Hcr). krun (set_out_run b t1). fold t2.
  assert (writes t t2) as Hw2 by (destruct Hw as (? & ? & ?); by split).
  destruct (IH t2 rp1 wp1 acc1) as (wp' & acc' & t' & Rn & Hr); [split_and!; [apply Hw2|lia|lia|lia|done]|lia|].
  exists wp', acc', t'. split; [exact Rn|]. by eapply scan_step; [exact Hr|done|lia|..].
Qed.

Lemma scan_first : 0 ≤ wp ≤ rp ∧ rp < len ∧ drop (Z.to_nat rp) buf = ch :: drop (Z.to_nat (rp + 1)) buf ∧
  slice wp (rp + 1 - wp) buf = slice wp (rp - wp) buf ++ [ch].
Proof.
  destruct Hat as (_ & Hwp & _). pose proof (lookup_lt_Some _ _ _ Hch).
  split_and!; [lia|lia|lia|by apply drop_next; [lia|]|by apply slice_snoc].
Qed.

(** A carriage return and a line feed. *)
Lemma scan_crlf : ch = CR → rp + 1 < len → getb 0 buf (rp + 1) = LF → scan_ends (S fuel) t rp wp acc.
Proof.
  intros E Hlt E2. destruct scan_first as (Hwp & Hrp & Hd & Hsn). subst ch. destruct (lookup_lt_is_Some_2 buf (Z.to_nat (rp + 1)) ltac:(lia)) as [c2 Hc2].
  pose proof E2 as E3. rewrite (getb_lookup 0 _ _ _ Hc2) in E3. subst c2. pose proof (drop_next buf (rp + 1) LF ltac:(lia) Hc2) as Hd2.
  unfold scan_ends. cbn [write_scan]. rewrite (proj2 (Z.ltb_lt rp len)), (getb_lookup 0 _ _ _ Hch), (proj2 (Z.ltb_lt (rp + 1) len)), E2 by lia.
  change (CR =? CR) with true. change (LF =? LF) with true. cbn [andb].
  apply scan_goes_on; [by destruct Hat as (? & _); split|lia|lia|done|..]; rewrite Hd, Hd2, ?normal_out_cr.
  - rewrite (slice_snoc buf wp (rp + 1) LF ltac:(lia) Hc2), Hsn. cbn [fst]. by rewrite <- !app_assoc.
  - done.
  - by rewrite skips_false, skips_other.
Qed.

(** A carriage return without. *)
Lemma scan_lone_cr : ch = CR → ((rp + 1 <? len) && (getb 0 buf (rp + 1) =? LF))%bool = false → scan_ends (S fuel) t rp wp acc.
Proof.
  intros E Enext. destruct scan_first as (Hwp & Hrp & Hd & _). subst ch.
  unfold scan_ends. cbn [write_scan]. rewrite (proj2 (Z.ltb_lt rp len)), (getb_lookup 0 _ _ _ Hch), Enext by lia.
  change (CR =? CR) with true. cbv iota. destruct (scan_cr buf rp wp t (proj1 Hat) Hwp Hch) as (t1 & t2 & R1 & R2 & Hw2 & Ho2). krun R1.
  rewrite (proj2 (Z.ltb_ge (rp + 1 - wp) 0)), (proj2 (Z.eqb_neq (rp + 1 - wp) 0)) by lia. krun R2. change (LF <? 0) with false. cbv iota.
  replace (wp + (rp + 1 - wp)) with (rp + 1) by lia. apply scan_goes_on; [done|lia|lia|done|..]; rewrite Hd, ?normal_out_cr.
  - rewrite Ho2, Z.sub_diag. cbn [fst]. by rewrite <- !app_assoc.
  - done.
  - rewrite skips_other by done. assert (skips true (drop (Z.to_nat (rp + 1)) buf) = 0) as ->; [|lia].
    destruct (drop (Z.to_nat (rp + 1)) buf) as [|c l] eqn:El; [done|]. apply skips_other. intros ->.
    assert (buf !! Z.to_nat (rp + 1) = Some LF) as Hl by (by rewrite <- (Nat.add_0_r (Z.to_nat (rp + 1))), <- lookup_drop, El).
    rewrite (getb_lookup 0 _ _ _ Hl), Z.eqb_refl, andb_true_r in Enext. kbool. apply lookup_lt_Some in Hl. lia.
Qed.

(** A line feed, left out or completed. *)
Lemma scan_line_feed : ch = LF → scan_ends (S fuel) t rp wp acc.
Proof.
  intros E. destruct scan_first as (Hwp & Hrp & Hd & _). subst ch. pose proof Hat as (Hraw & _ & _ & Hcr).
  unfold scan_ends. cbn [write_scan]. rewrite (proj2 (Z.ltb_lt rp len)), (getb_lookup 0 _ _ _ Hch) by lia.
  change (LF =? CR) with false. change (LF =? LF) with true. cbv iota. kgets. destruct (cr_out t) eqn:Eco.
  - specialize (Hcr eq_refl) as Ew. apply scan_goes_on; [by split|lia|lia|done|..]; rewrite Hd, Eco; [|done|].
    + replace wp with rp by lia. by rewrite !Z.sub_diag.
    + rewrite skips_false. unfold skips. cbn [list.head andb]. rewrite bool_decide_true by done. lia.
  - destruct (scan_lf buf rp wp acc t Hraw Hwp Hrp) as (t1 & t2 & R1 & R2 & Hw2 & Ho2). krun R1. krun R2. change (CR <? 0) with false. cbv iota.
    apply scan_goes_on; [done|lia|lia|done|..]; rewrite Hd, Eco, ?normal_out_lf; [|done|].
    + rewrite Ho2, (slice_snoc buf rp rp LF ltac:(lia) Hch), Z.sub_diag. cbn [fst]. by rewrite <- !app_assoc.
    + rewrite !skips_false. lia.
Qed.

Lemma scan_char : ch ≠ CR → ch ≠ LF → scan_ends (S fuel) t rp wp acc.
Proof.
  intros H1 H2. destruct scan_first as (Hwp & Hrp & Hd & Hsn).
  unfold scan_ends. cbn [write_scan]. rewrite (proj2 (Z.ltb_lt rp len)), (getb_lookup 0 _ _ _ Hch) by lia.
  rewrite (proj2 (Z.eqb_neq ch CR)), (proj2 (Z.eqb_neq ch LF)) by done.
  apply scan_goes_on; [by destruct Hat as (? & _); split|lia|lia|done|..]; rewrite Hd, ?normal_out_char by done; [|done|].
  - rewrite Hsn. cbn [fst]. by rewrite <- !app_assoc.
  - by rewrite skips_false, skips_other.
Qed.
End scan.

Lemma write_scan_ok buf fuel : ∀ t rp wp acc,
  scan_at buf t rp wp → Z.of_nat (length buf) - rp < Z.of_nat fuel → scan_ends buf fuel t rp wp acc.
Proof.
  induction fuel as [|fuel IH]; intros t rp wp acc Hat Hf; [destruct Hat as (_ & _ & ? & _); lia|].
  destruct (decide (rp < Z.of_nat (length buf))) as [Hlt|Hge].
  - pose proof Hat as (_ & Hwp & _). destruct (lookup_lt_is_Some_2 buf (Z.to_nat rp) ltac:(lia)) as [ch Hch].
    destruct (decide (ch = CR)); [|destruct (decide (ch = LF)); [by eapply scan_line_feed|by eapply scan_char]].
    destruct ((rp + 1 <? Z.of_nat (length buf)) && (getb 0 buf (rp + 1) =? LF))%bool eqn:En; [|by eapply scan_lone_cr].
    apply andb_true_iff in En as [E1 E2]. kbool. by eapply scan_crlf.
  - destruct Hat as (Hraw & Hwp & Hrp & _). exists wp, acc, t. cbn [write_scan]. rewrite (proj2 (Z.ltb_ge rp _)) by lia. split; [done|].
    assert (rp = Z.of_nat (length buf)) as -> by lia. unfold scan_result. rewrite Nat2Z.id, drop_all. cbn [normal_out fst snd].
    split_and!; try done; [lia| |unfold skips; cbn [list.head]; rewrite bool_decide_false, andb_false_r by done; lia].
    rewrite app_nil_r. f_equal. unfold slice. symmetry. apply take_ge. rewrite length_drop. lia.
Qed.

(** One write. *)
Lemma term_write_normal t buf :
  on_rawio t →
  ∃ t', ioterm_write buf (Z.of_nat (length buf)) t = (Ret (Z.of_nat (length buf) - skips (cr_out t) buf), t') ∧ writes t t' ∧
    output t' = output t ++ (normal_out (cr_out t) buf).1 ∧ cr_out t' = (normal_out (cr_out t) buf).2.
Proof.
  intros Hraw. unfold ioterm_write.
  destruct (write_scan_ok buf (S (Z.to_nat (Z.of_nat (length buf)))) t 0 0 0) as (wp & acc & t1 & R1 & Hw & Hwp & Ho & Hf & Ha);
    [by split_and!; try lia|lia|].
  krun R1. change (slice 0 (0 - 0) buf) with (@nil Z) in Ho. change (drop (Z.to_nat 0) buf) with buf in *. cbn [app] in Ho.
  destruct (Z.eqb_spec (Z.of_nat (length buf)) wp) as [<-|Hne]; cbn [negb].
  - exists t1. rewrite Nat2Z.id, drop_all, app_nil_r in Ho. split_and!; try done; [|apply Hw..]. cbv delta [mret M_ret]. cbv beta. do 2 f_equal. lia.
  - destruct (term_write_ok t1 (drop (Z.to_nat wp) buf) (Z.of_nat (length buf) - wp) (proj1 Hw)) as (t2 & R2 & Hw2 & Hc2 & Ho2); [rewrite length_drop; lia|].
    krun R2. rewrite (proj2 (Z.ltb_ge _ 0)), (proj2 (Z.eqb_neq _ 0)) by lia. exists t2. split_and!.
    + cbv delta [mret M_ret]. cbv beta. do 2 f_equal. lia.
    + by eapply writes_trans.
    + rewrite Ho2, take_ge by (rewrite length_drop; lia). exact Ho.
    + congruence.
Qed.

(** A raw object that is at its end makes the read go round for ever. *)
Lemma term_read_spins_at_end t len fuel :
  on_rawio t → 0 ≤ len → rd (ist (rawio t)) len = (0, [], ist (rawio t)) → (ioterm_read fuel len t).1 = NoFuel.
Proof.
  intros Hraw Hl Hrd. unfold ioterm_read. induction fuel as [|fuel IH]; [done|]. cbn [ioterm_read_loop].
  assert (on_raw (λ o, let '(cnt, got, o) := ioread o len in (Ret (cnt, got), o)) t = (Ret (0, []), t)) as R1.
  { unfold on_raw, ioread. rewrite (proj1 Hraw), (proj2 (Z.ltb_ge _ _)) by lia. rewrite Hrd. by destruct t as [? [] ? ?]. }
  krun R1. change (0 <? 0) with false. cbv iota. kgets. change (fix_loop (Z.to_nat 0) [] 0 0 (cr_in t)) with (@nil Z, 0, cr_in t). cbv beta iota. unfold set_in. kmodify. change (0 =? 0) with true. cbv iota.
  assert (Term (trefcnt t) (rawio t) (cr_out t) (cr_in t) = t) as -> by (by destruct t). exact IH.
Qed.
End io.
Arguments io_term : clear implicits.

(** ** The terminal object as a whole *)

(** The terminal object in the operation table that [iowrite] calls. *)
Definition term_write {R} (t : io_term R) (buf : list Z) (len : Z) : Z * io_term R :=
  match ioterm_write (take (Z.to_nat len) buf) len t with (Ret n, t) => (n, t) | (_, t) => (0, t) end.

(** Successive writes. *)
Fixpoint write_all {R} (bs : list (list Z)) : M (io (io_term R)) unit :=
  match bs with [] => mret tt | b :: bs => _ ← iowrite b (Z.of_nat (length b)); write_all bs end.

(** A line feed that is left out is missing in the count of [ioterm_write], and
    [iowrite] then writes the whole buffer again, unless the line feed was all
    of it. *)
Definition repeats (cr : bool) (b : list Z) : bool := ((skips cr b =? 1) && (1 <? Z.of_nat (length b)))%bool.
Definition passes (cr : bool) (b : list Z) : list Z := if repeats cr b then b ++ b else b.

(** No piece of a text is written twice. *)
Fixpoint clean (cr : bool) (bs : list (list Z)) : bool :=
  match bs with [] => true | b :: bs => (negb (repeats cr b) && clean (normal_out cr b).2 bs)%bool end.

Section terminal.
Context {R : Type} (rd : R → Z → Z * list Z * R) (wr : R → list Z → Z → Z * R) `{!RawIo rd wr}.
Implicit Types (t : io_term R) (o : io (io_term R)) (b : list Z).
#[local] Notation input := (input rd wr).
#[local] Notation output := (output rd wr).
#[local] Notation writes := (writes rd wr).

Lemma skips_cases cr b : skips cr b = 0 ∨ skips cr b = 1 ∧ (1 ≤ length b)%nat.
Proof. unfold skips. destruct cr; [|by left]. case_bool_decide as E; [|by left]. right. split; [done|]. destruct b; [done|simpl; lia]. Qed.

Lemma term_write_run t b : on_rawio rd wr t →
  ∃ t', term_write t b (Z.of_nat (length b)) = (Z.of_nat (length b) - skips (cr_out t) b, t') ∧ writes t t' ∧
    output t' = output t ++ (normal_out (cr_out t) b).1 ∧ cr_out t' = (normal_out (cr_out t) b).2.
Proof.
  intros Hraw. destruct (term_write_normal rd wr t b Hraw) as (t' & R1 & H). exists t'. split; [|exact H].
  unfold term_write. rewrite Nat2Z.id, take_ge by lia. by rewrite R1.
Qed.

(** One [iowrite] makes one pass or two. *)
Lemma iowrite_term_ok t b : on_rawio rd wr t →
  ∃ n t', iowrite_loop (S (length b)) term_write b (Z.of_nat (length b)) 0 t = (Ret n, t') ∧ writes t t' ∧
    output t' = output t ++ (normal_out (cr_out t) (passes (cr_out t) b)).1 ∧ cr_out t' = (normal_out (cr_out t) (passes (cr_out t) b)).2 ∧
    (skips (cr_out t) b = 0 → n = Z.of_nat (length b)).
Proof.
  intros Hraw. destruct (term_write_run t b Hraw) as (t1 & R1 & Hw1 & Ho1 & Hc1). cbn [iowrite_loop]. rewrite R1, !Z.add_0_l.
  assert (repeats (cr_out t) b = false → passes (cr_out t) b = b) as Hpass by (unfold passes; by intros ->).
  destruct (skips_cases (cr_out t) b) as [E|[E Hl]]; unfold repeats in Hpass; rewrite E in Hpass |- *.
  - rewrite Hpass, Z.sub_0_r, (proj2 (Z.ltb_ge (Z.of_nat (length b)) (Z.of_nat (length b)))) by (done || lia).
    destruct (Z.leb_spec (Z.of_nat (length b)) 0); [|by eauto 10].
    rewrite (proj2 (Z.ltb_ge _ _)) by lia. exists 0, t1. split_and!; try done; [apply Hw1..|]. intros. lia.
  - destruct (Z.ltb_spec 1 (Z.of_nat (length b))) as [H1|H1].
    + rewrite (proj2 (Z.leb_gt _ _)), (proj2 (Z.ltb_lt _ _)) by lia.
      assert (∃ k, length b = S k) as [k Hk] by (exists (length b - 1)%nat; lia).
      destruct (term_write_run t1 b (proj1 Hw1)) as (t2 & R2 & Hw2 & Ho2 & Hc2).
      assert (passes (cr_out t) b = b ++ b) as ->. { unfold passes, repeats. by rewrite E, (proj2 (Z.ltb_lt _ _)) by lia. }
      replace (iowrite_loop (length b)) with (iowrite_loop (R := io_term R) (S k)) by (by rewrite Hk). cbn [iowrite_loop]. rewrite R2. rewrite normal_out_app. cbn [fst snd]. rewrite <- Hc1.
      destruct (skips_cases (cr_out t1) b) as [E2|[E2 _]]; rewrite E2; (rewrite (proj2 (Z.leb_gt _ _)) by lia); (rewrite (proj2 (Z.ltb_ge _ _)) by lia);
        eexists _, t2; (split_and!; [done|by eapply writes_trans..|by rewrite Ho2, Ho1, <- app_assoc|done|done]).
    + assert (Z.of_nat (length b) - 1 = 0) as -> by lia. rewrite Hpass by done. exists 0, t1. by split_and!; [|apply Hw1..| | |].
Qed.

Lemma iowrite_term t b o : on_rawio rd wr t → i_write (intf o) = Some term_write → ist o = t →
  ∃ n t', iowrite b (Z.of_nat (length b)) o = (Ret n, with_ist o t') ∧ writes t t' ∧
    output t' = output t ++ (normal_out (cr_out t) (passes (cr_out t) b)).1 ∧ cr_out t' = (normal_out (cr_out t) (passes (cr_out t) b)).2 ∧
    (skips (cr_out t) b = 0 → n = Z.of_nat (length b)).
Proof.
  intros Hraw Hi <-. destruct (iowrite_term_ok (ist o) b Hraw) as (n & t' & R1 & H). exists n, t'. split; [|exact H].
  unfold iowrite. by rewrite Hi, (proj2 (Z.ltb_ge _ _)), Nat2Z.id, R1 by lia.
Qed.

(** C40. The terminal object normalizes line ends as io.h says, on a raw object
    that takes whole writes.  A write through [iowrite] ends; it sends the
    normal form of its text, except that a text of more than one character
    whose first is a line feed left out because of a carriage return before it
    is sent twice; its result is the length of the text when no line feed is
    left out.  A sequence of writes without such a piece sends the normal form
    of all that was written, whatever the pieces.  A read that has something to
    return ends and returns the next characters of the normal form of the
    input, at most as many as asked for, whatever the pieces in which the raw
    object delivers. *)
Theorem ioterm_normalizes o :
  let t := ist o in
  on_rawio rd wr t → i_write (intf o) = Some term_write →
  (∀ b, ∃ n t', iowrite b (Z.of_nat (length b)) o = (Ret n, with_ist o t') ∧ writes t t' ∧
     output t' = output t ++ (normal_out (cr_out t) (passes (cr_out t) b)).1 ∧ (skips (cr_out t) b = 0 → n = Z.of_nat (length b))) ∧
  (∀ bs, clean (cr_out t) bs = true → ∃ t', write_all bs o = (Ret tt, with_ist o t') ∧ writes t t' ∧
     output t' = output t ++ (normal_out (cr_out t) (concat bs)).1 ∧ cr_out t' = (normal_out (cr_out t) (concat bs)).2) ∧
  (∀ len, 0 < len → (normal_in (cr_in t) (input t)).1 ≠ [] →
     ∃ out t', ioterm_read (length (input t)) len t = (Ret (Z.of_nat (length out), out), t') ∧ 0 < Z.of_nat (length out) ≤ len ∧
       out ++ (normal_in (cr_in t') (input t')).1 = (normal_in (cr_in t) (input t)).1 ∧
       on_rawio rd wr t' ∧ output t' = output t ∧ cr_out t' = cr_out t).
Proof.
  intros t Hraw Hi. split; [|split].
  - intros b. destruct (iowrite_term t b o Hraw Hi eq_refl) as (n & t' & H1 & H2 & H3 & _ & H5). eauto 10.
  - intros bs. clear -Hraw Hi. unfold t in *. clear t. revert o Hraw Hi. induction bs as [|b bs IH]; intros o Hraw Hi.
    { intros _. exists (ist o). cbn [write_all concat normal_out fst snd]. rewrite app_nil_r. split_and!; try done. by destruct o. }
    cbn [clean write_all concat]. intros [Hn Hb]%andb_true_iff. destruct (iowrite_term (ist o) b o Hraw Hi eq_refl) as (n & t1 & R1 & Hw1 & Ho1 & Hc1 & _).
    unfold passes in *. destruct (repeats (cr_out (ist o)) b); [done|]. krun R1. rewrite <- Hc1 in Hb.
    destruct (IH (with_ist o t1) (proj1 Hw1) Hi Hb) as (t2 & R2 & Hw2 & Ho2 & Hc2). exists t2. cbn [ist with_ist] in *.
    rewrite normal_out_app. cbn [fst snd]. rewrite <- Hc1.
    split_and!; [done|by eapply writes_trans..|by rewrite Ho2, Ho1, <- app_assoc|done].
  - intros len Hl Hne. by apply read_loop_ok.
Qed.
End terminal.

(** ** A raw object in memory *)

(** What can be read and what was written. *)
Record wire := Wire { pending : list Z; log : list Z }.
Definition wire_read (s : wire) (len : Z) : Z * list Z * wire :=
  let n := Z.to_nat (Z.min len (Z.of_nat (length (pending s)))) in
  (Z.of_nat n, take n (pending s), Wire (drop n (pending s)) (log s)).
Definition wire_write (s : wire) (buf : list Z) (len : Z) : Z * wire := (len, Wire (pending s) (log s ++ take (Z.to_nat len) buf)).

#[global] Program Instance wire_raw : RawIo wire_read wire_write := {| avail := pending; sent := log |}.
Next Obligation.
  intros s len Hl Hne. unfold wire_read. eexists _, _. split; [reflexivity|]. cbn [pending log]. split_and!; try done; try lia.
  destruct (pending s); [done|]. simpl. lia.
Qed.
Next Obligation. intros s buf len Hl. unfold wire_write. eexists. by split_and!. Qed.

Definition wire_term (inp : list Z) : io_term wire :=
  ioterm_init (ioinit1 (Wire inp []) (IoIntf None None (Some wire_read) (Some wire_write) None None)) 1.

Definition wire_tty (inp : list Z) : io (io_term wire) :=
  ioinit1 (wire_term inp) (IoIntf None None None (Some term_write) None None).

(** Two lines, written and read in pieces: "a" LF "b" CR, LF and "c". *)
Lemma ioterm_normalizes_witness :
  (∃ o', write_all [[97; 10; 98; 13]; [10]; [99]] (wire_tty []) = (Ret tt, o') ∧
     log (ist (rawio (ist o'))) = [97; 13; 10; 98; 13; 10; 99]) ∧
  (∃ out t', ioterm_read 4 3 (wire_term [97; 13; 10; 98]) = (Ret (Z.of_nat (length out), out), t') ∧ 0 < Z.of_nat (length out) ≤ 3).
Proof.
  split.
  - destruct (ioterm_normalizes wire_read wire_write (wire_tty []) ltac:(done) eq_refl) as (_ & Hw & _).
    destruct (Hw [[97; 10; 98; 13]; [10]; [99]] eq_refl) as (t' & R1 & _ & Ho & _). exists (with_ist (wire_tty []) t'). by split.
  - destruct (ioterm_normalizes wire_read wire_write (wire_tty [97; 13; 10; 98]) ltac:(done) eq_refl) as (_ & _ & Hr).
    destruct (Hr 3 ltac:(lia) ltac:(done)) as (out & t' & R1 & Hb & _). exists out, t'. by split.
Defined.

(** ** Where the code departs from its description *)

(** LF "ab" after a CR is sent as "ab" CR LF "ab". *)
Lemma skipped_line_feed_repeats :
  let r := write_all [[13]; [10; 97; 98]] (wire_tty []) in
  r.1 = Ret tt ∧ log (ist (rawio (ist r.2))) = [13; 10] ++ [97; 98; 13; 10; 97; 98].
Proof. by vm_compute. Qed.

(** The character that the line editor ignores as an escape is the opening
    bracket: of "[x" and a carriage return, "x" is the line. *)
Lemma getsn_drops_bracket :
  ∃ t, ioterm_getsn 4 [0; 0; 0; 0] 4 (wire_term [91; 120; 13]) = (Ret (Some [120; 0; 0; 0]), t).
Proof. eexists. vm_compute. reflexivity. Qed.
End UserIo.
