(* ===== verification/UserHeap.v ===== *)
(** * User library: the heap (user/heap.c)

    Memory is handed out upwards and never taken back.  A request that does not
    fit ends the process, which is the outcome [Fail] with the code 0.  Memory is
    a function from addresses to bytes. *)

From S2P Require Import Prelude Config.

Module UserHeap.

Record uheap := UHeap { heap_low : Z; heap_end : Z; heap_initialized : bool; umem : Z → Z }.
Implicit Types (h : uheap).

(** [_print(...); _exit();] *)
Definition exits {A} : M uheap A := fail 0.

Definition heap_init (start stop : Z) : M uheap unit :=
  if stop <? start then exits else modify (λ h, UHeap start stop true (umem h)).

Definition malloc (size : Z) : M uheap Z :=
  if size =? 0 then mret 0
  else
    h ← gets (λ h, h);
    if u64 (heap_end h - heap_low h) <? size then exits
    else
      let ptr := heap_low h in
      modify (λ h, UHeap (u64 (heap_low h + size)) (heap_end h) (heap_initialized h) (umem h));;
      mret ptr.

Definition memset (p c n : Z) : M uheap unit :=
  modify (λ h, UHeap (heap_low h) (heap_end h) (heap_initialized h)
                     (λ a, if ((p <=? a) && (a <? p + n))%bool then c else umem h a)).

(** The product is not checked for overflow. *)
Definition calloc (nelts eltsz : Z) : M uheap Z :=
  let size := u64 (nelts * eltsz) in
  ptr ← malloc size;
  if ptr =? 0 then mret 0 else memset ptr 0 size;; mret ptr.

Definition free (ptr : Z) : M uheap unit := mret tt.

(** ** Blocks do not overlap *)

Definition heap_ok h : Prop := 0 < heap_low h ≤ heap_end h ∧ heap_end h < 2 ^ 64.

(** A request: [malloc(size)] or [calloc(nelts, eltsz)]. *)
Inductive request := RMalloc (size : Z) | RCalloc (nelts eltsz : Z) | RFree (ptr : Z).
Definition req_size (r : request) : Z :=
  match r with RMalloc n => n | RCalloc n e => u64 (n * e) | RFree _ => 0 end.
Definition req_ok (r : request) : Prop := match r with RMalloc n => 0 ≤ n < 2 ^ 64 | _ => True end.
Definition serve (r : request) : M uheap Z :=
  match r with RMalloc n => malloc n | RCalloc n e => calloc n e | RFree p => free p;; mret 0 end.

(** The blocks that a sequence of requests returns, with their sizes. *)
Fixpoint serve_all (rs : list request) : M uheap (list (Z * Z)) :=
  match rs with
  | [] => mret []
  | r :: rs => p ← serve r; bs ← serve_all rs; mret ((p, req_size r) :: bs)
  end.

Lemma malloc_run h size :
  heap_ok h → 0 < size < 2 ^ 64 →
  (size ≤ heap_end h - heap_low h ∧
   malloc size h = (Ret (heap_low h), UHeap (heap_low h + size) (heap_end h) (heap_initialized h) (umem h))) ∨
  (heap_end h - heap_low h < size ∧ malloc size h = (Fail 0, h)).
Proof.
  intros [Hl He] Hs. unfold malloc. rewrite (proj2 (Z.eqb_neq _ _)) by lia. kgets. rewrite u64_small by lia.
  destruct (Z.ltb_spec (heap_end h - heap_low h) size); [by right|]. left. split; [lia|]. kmodify.
  rewrite u64_small by lia. done.
Qed.

(** What a request does: it gets the space in front of the pool, or ends the
    process; nothing below it is written. *)
Lemma serve_run h r :
  heap_ok h → req_ok r → 0 ≤ req_size r < 2 ^ 64 →
  (∃ p h', serve r h = (Ret p, h') ∧ heap_ok h' ∧ heap_end h' = heap_end h ∧ heap_low h' = heap_low h + req_size r ∧
     (if decide (req_size r = 0) then p = 0 else p = heap_low h) ∧ (∀ a, a < heap_low h → umem h' a = umem h a) ∧
     match r with RCalloc _ _ => ∀ a, p ≤ a < p + req_size r → umem h' a = 0 | _ => True end) ∨
  (∃ h', serve r h = (Fail 0, h') ∧ heap_end h - heap_low h < req_size r).
Proof.
  intros Hok Hr Hs. pose proof Hok as [Hl He]. destruct (decide (req_size r = 0)) as [E0|E0].
  { left. exists 0, h. split_and!; try done; try lia; destruct r as [n|n e|p]; simpl in *; try done.
    - unfold malloc. by rewrite E0.
    - unfold calloc, malloc. cbv zeta. by rewrite E0.
    - lia. }
  destruct r as [n|n e|p]; simpl in *; [| |done].
  - destruct (malloc_run h n Hok ltac:(lia)) as [[Hfit R1]|[Hno R1]]; [left|right; by exists h].
    eexists _, _. split; [exact R1|]. split; [split; simpl; lia|]. by split_and!.
  - set (size := u64 (n * e)) in *. destruct (malloc_run h size Hok ltac:(lia)) as [[Hfit R1]|[Hno R1]].
    + left. unfold calloc. fold size. krun R1. rewrite (proj2 (Z.eqb_neq _ _)) by lia. unfold memset. kmodify.
      eexists _, _. split; [reflexivity|]. split; [split; simpl; lia|]. split_and!; [done|done|done|..]; cbn [umem]; intros a Ha.
      * by rewrite (proj2 (Z.leb_gt _ _)) by lia.
      * by rewrite (proj2 (Z.leb_le _ _)), (proj2 (Z.ltb_lt _ _)) by lia.
    + right. unfold calloc. fold size. exists h. by rewrite (bind_fail _ _ _ _ _ R1).
Qed.

(** The blocks of a program lie one behind the other in the heap, so that no
    two overlap, whatever is freed in between; a request of size 0 gets NULL. *)
Lemma user_heap_disjoint rs : ∀ h bs h',
  heap_ok h → Forall req_ok rs → serve_all rs h = (Ret bs, h') →
  heap_ok h' ∧ heap_low h ≤ heap_low h' ∧
  (∀ i p n, bs !! i = Some (p, n) → n ≠ 0 → heap_low h ≤ p ∧ p + n ≤ heap_low h' ∧
     ∀ j q k, bs !! j = Some (q, k) → (i < j)%nat → k ≠ 0 → p + n ≤ q).
Proof.
  induction rs as [|r rs IH]; intros h bs h' Hok Hr Hrun; cbn [serve_all] in Hrun.
  { injection Hrun as <- <-. split_and!; try done; try apply Hok; lia. }
  apply Forall_cons in Hr as [Hr Hrs].
  assert (0 ≤ req_size r < 2 ^ 64) as Hs.
  { destruct r; simpl in *; [lia|apply u64_range|lia]. }
  destruct (serve_run h r Hok Hr Hs) as [(p & h1 & R1 & Hok1 & He1 & Hl1 & Hp & _)|(h1 & R1 & _)].
  2:{ rewrite (bind_fail _ _ _ _ _ R1) in Hrun. done. }
  rewrite (bind_ret _ _ _ _ _ R1) in Hrun. destruct (serve_all rs h1) as [[bs1| | |] h2] eqn:R2; unfold mbind, M_bind in Hrun; rewrite R2 in Hrun; try done.
  injection Hrun as <- <-. destruct (IH h1 bs1 h2 Hok1 Hrs R2) as (Hok2 & Hle & Hblk). split; [done|]. split; [lia|].
  intros [|i] q n Hi Hn; simpl in Hi.
  - injection Hi as -> <-. rewrite decide_False in Hp by done. subst q. split_and!; [lia|lia|].
    intros [|j] q k Hj Hij Hk; [lia|]. simpl in Hj. destruct (Hblk j q k Hj Hk) as (? & _). lia.
  - destruct (Hblk i q n Hi Hn) as (? & ? & Hj'). split_and!; [lia|lia|].
    intros [|j] q' k Hj Hij Hk; [lia|]. simpl in Hj. apply (Hj' j q' k Hj ltac:(lia) Hk).
Qed.

(** An array of 2^61 + 1 elements of 8 bytes is given 8 bytes. *)
Lemma calloc_overflow :
  ∃ h', calloc (2 ^ 61 + 1) 8 (UHeap 0xC0100000 0xC0200000 true (λ _, 7)) = (Ret 0xC0100000, h') ∧ heap_low h' = 0xC0100008.
Proof. eexists. split; reflexivity. Qed.
End UserHeap.
