(* ===== verification/UserStrings.v ===== *)
(** * User library: strings in memory (user/string.c)

    The string and memory functions of user/string.c, translated at the level of
    the pointers they walk: memory is a map from the mapped addresses to bytes, a
    [char *] is an address, NULL is 0, and a load or store outside the mapped
    addresses is a [Panic].  The kernel's functions of the same names are
    translated in Strings over lists; the theorems show that the pointer walks
    compute those on the strings the memory holds.  UserPrint has the rest of
    user/string.c. *)

From S2P Require Import Prelude Config Strings.

Module UStr.

Notation mem := (gmap Z Z).
Implicit Types (m : mem) (a p s b c : Z) (cs bs : list Z) (n : nat).

(** [*p] and [*p = v] *)
Definition load p : M mem Z := λ m,
  match m !! p with Some b => (Ret b, m) | None => (Panic, m) end.
Definition store p v : M mem unit := λ m,
  match m !! p with Some _ => (Ret tt, <[p := v]> m) | None => (Panic, m) end.
Definition no_fuel {A} : M mem A := λ m, (NoFuel, m).

(** A walk reads a different mapped byte in every pass. *)
Definition fuel_of m : nat := S (size m).

(** ** Comparing and searching *)

Fixpoint strcmp_loop (fuel : nat) (s1 s2 : Z) : M mem Z :=
  match fuel with
  | O => no_fuel
  | S fuel =>
      a ← load s1;
      b ← load s2;
      if ((a =? b) && negb (a =? 0))%bool then strcmp_loop fuel (s1 + 1) (s2 + 1)
      else mret (if a <? b then -1 else if b <? a then 1 else 0)
  end.

Definition strcmp (s1 s2 : Z) : M mem Z :=
  if ((s1 =? 0) || (s2 =? 0))%bool then
    mret (if s1 =? 0 then (if s2 =? 0 then 0 else -1) else 1)
  else fuel ← gets fuel_of; strcmp_loop fuel s1 s2.

Fixpoint strncmp (s1 s2 : Z) n : M mem Z :=
  match n with
  | O => mret 0
  | S n =>
      a ← load s1;
      b ← load s2;
      if (negb (a =? 0) && (a =? b))%bool then strncmp (s1 + 1) (s2 + 1) n
      else mret (s32 (u32 (a - b)))
  end.

Fixpoint strlen_loop (fuel : nat) p : M mem Z :=
  match fuel with
  | O => no_fuel
  | S fuel => c ← load p; if negb (c =? 0) then strlen_loop fuel (p + 1) else mret p
  end.
Definition strlen s : M mem Z :=
  if s =? 0 then mret 0 else fuel ← gets fuel_of; p ← strlen_loop fuel s; mret (p - s).

Fixpoint strchr_loop (fuel : nat) s c : M mem Z :=
  match fuel with
  | O => no_fuel
  | S fuel =>
      x ← load s;
      if negb (x =? 0) then (if x =? c then mret s else strchr_loop fuel (s + 1) c) else mret 0
  end.
Definition strchr s c : M mem Z := fuel ← gets fuel_of; strchr_loop fuel s c.

Fixpoint strrchr_loop (fuel : nat) s c p : M mem Z :=
  match fuel with
  | O => no_fuel
  | S fuel =>
      x ← load s;
      if negb (x =? 0) then strrchr_loop fuel (s + 1) c (if x =? c then s else p) else mret p
  end.
Definition strrchr s c : M mem Z := fuel ← gets fuel_of; strrchr_loop fuel s c 0.

(** ** Copying *)

Fixpoint strncpy_loop n (dst src : Z) : M mem unit :=
  match n with
  | O => mret tt
  | S n =>
      c ← load src;
      if negb (c =? 0) then store dst c;; strncpy_loop n (dst + 1) (src + 1)
      else store dst 0
  end.
Definition strncpy (dst src : Z) n : M mem Z := strncpy_loop n dst src;; mret dst.

Fixpoint memset_loop n p c : M mem unit :=
  match n with O => mret tt | S n => store p (u8 c);; memset_loop n (p + 1) c end.
Definition memset s c n : M mem Z := memset_loop n s c;; mret s.

Fixpoint memcpy_loop n (p q : Z) : M mem unit :=
  match n with O => mret tt | S n => b ← load q; store p b;; memcpy_loop n (p + 1) (q + 1) end.
Definition memcpy (dst src : Z) n : M mem Z := memcpy_loop n dst src;; mret dst.

Fixpoint memcmp (u v : Z) n : M mem Z :=
  match n with
  | O => mret 0
  | S n => a ← load u; b ← load v; if negb (a =? b) then mret (a - b) else memcmp (u + 1) (v + 1) n
  end.

(** ** Reading numbers *)

Fixpoint strtoul_loop (fuel : nat) (base str val : Z) : M mem (Z * Z) :=
  match fuel with
  | O => no_fuel
  | S fuel =>
      c ← load str;
      if ((c <? 48) || (48 + base <=? c))%bool then mret (val, str)
      else strtoul_loop fuel base (str + 1) (u64 (u64 (val * base) + (c - 48)))
  end.

(** The result and [*endptr]. *)
Definition strtoul (str base : Z) : M mem (Z * Z) :=
  if ((str =? 0) || (base <=? 1) || (10 <? base))%bool then mret (2 ^ 64 - 1, 0)
  else
    c ← load str;
    let neg := c =? 45 in
    let str := if neg then str + 1 else if c =? 43 then str + 1 else str in
    fuel ← gets fuel_of;
    '(val, e) ← strtoul_loop fuel base str 0;
    mret (if neg then u64 (- val) else val, e).

(** ** What memory holds *)

(** The bytes [bs] at [a]; the string [cs] and its NUL at [a]. *)
Fixpoint bytes_at m a bs : Prop :=
  match bs with [] => True | b :: bs => m !! a = Some b ∧ bytes_at m (a + 1) bs end.
Definition str_at m a cs : Prop := Str.is_cstr cs ∧ bytes_at m a (cs ++ [0]).

(** Memory with [bs] written at [a]. *)
Fixpoint write m a bs : mem :=
  match bs with [] => m | b :: bs => write (<[a := b]> m) (a + 1) bs end.

(** The address of what is left of the string [cs] at [s]. *)
Definition rest_addr s cs (e : option Str.cstr) : Z :=
  match e with None => 0 | Some e => s + Z.of_nat (length cs - length e) end.

Lemma bytes_at_lookup m a bs (i : nat) b : bytes_at m a bs → bs !! i = Some b → m !! (a + Z.of_nat i) = Some b.
Proof.
  revert a i. induction bs as [|x bs IH]; intros a [|i] Hb Hi; simpl in *; try done; destruct Hb as [Ha Hr].
  - rewrite Z.add_0_r. congruence.
  - rewrite <- (IH (a + 1) i Hr Hi). f_equal. lia.
Qed.

Lemma bytes_at_size m a bs : bytes_at m a bs → (length bs ≤ size m)%nat.
Proof.
  revert m a. induction bs as [|b bs IH]; intros m a Hb; simpl; [lia|]. destruct Hb as [Ha Hr].
  assert (bytes_at (delete a m) (a + 1) bs) as Hd.
  { assert (∀ k, a < k → bytes_at m k bs → bytes_at (delete a m) k bs) as Hk; [|apply Hk; [lia|done]].
    clear. induction bs as [|b bs IH]; intros k Hk; simpl; [done|]. intros [Hb Hr].
    split; [rewrite lookup_delete_ne; [done|lia]|]. apply IH; [lia|done]. }
  apply IH in Hd. rewrite map_size_delete_Some in Hd by done.
  assert (size m ≠ 0%nat) by (intros E%map_size_empty_iff; subst; done). lia.
Qed.

Lemma bytes_at_store m a bs p v :
  bytes_at m a bs → p < a ∨ a + Z.of_nat (length bs) ≤ p → bytes_at (<[p := v]> m) a bs.
Proof.
  revert a. induction bs as [|b bs IH]; intros a; simpl; [done|]. intros [Hb Hr] Hp.
  split; [rewrite lookup_insert_ne; [done|lia]|]. apply IH; [done|lia].
Qed.

Lemma bytes_at_prefix m a bs1 bs2 : bytes_at m a (bs1 ++ bs2) → bytes_at m a bs1.
Proof.
  revert a. induction bs1 as [|b bs1 IH]; intros a; cbn [app bytes_at]; [done|]. intros [? ?]. split; [done|by apply IH].
Qed.
Lemma bytes_at_take n m a bs : bytes_at m a bs → bytes_at m a (take n bs).
Proof. intros Hb. apply (bytes_at_prefix m a _ (drop n bs)). by rewrite take_drop. Qed.

Lemma uload_ok m p b : m !! p = Some b → load p m = (Ret b, m).
Proof. unfold load. by intros ->. Qed.
Lemma ustore_ok m p b v : m !! p = Some b → store p v m = (Ret tt, <[p := v]> m).
Proof. unfold store. by intros ->. Qed.

(** One character of a string: it is not NUL, the rest is a string; or NUL. *)
Lemma str_at_cons m a c cs : str_at m a (c :: cs) → m !! a = Some c ∧ 0 < c < 256 ∧ str_at m (a + 1) cs.
Proof. intros [Hc [Ha Hr]]. apply Forall_cons in Hc as [? ?]. repeat split; done || lia. Qed.
Lemma str_at_nil m a : str_at m a [] → m !! a = Some 0.
Proof. by intros [_ [? _]]. Qed.

Lemma str_at_fuel m a cs : str_at m a cs → (length cs < fuel_of m)%nat.
Proof. intros [_ Hb%bytes_at_size]. rewrite length_app in Hb. unfold fuel_of. simpl in *. lia. Qed.

#[local] Ltac walk := match goal with
  | H : ?m !! ?p = Some _ |- context [(load ?p ≫= _) ?m] => krun (uload_ok _ _ _ H)
  | H : ?m !! ?p = Some _ |- context [(store ?p ?v ≫= _) ?m] => krun (ustore_ok _ _ _ v H)
  end.

(** ** The walks compute the functions on strings *)

Lemma strlen_loop_ok fuel : ∀ m s cs,
  str_at m s cs → (length cs < fuel)%nat → strlen_loop fuel s m = (Ret (s + Z.of_nat (length cs)), m).
Proof.
  induction fuel as [|fuel IH]; intros m s [|c cs] Hs Hf; simpl in Hf; try lia; cbn [strlen_loop length].
  - apply str_at_nil in Hs. walk. cbn. by rewrite Z.add_0_r.
  - apply str_at_cons in Hs as (Hc & Hpos & Hr). walk. rewrite (proj2 (Z.eqb_neq c 0)) by lia. cbn [negb].
    rewrite (IH m (s + 1) cs) by (done || lia). do 2 f_equal. lia.
Qed.

Lemma strlen_ok m s cs : str_at m s cs → s ≠ 0 → strlen s m = (Ret (Str.strlen (Some cs)), m).
Proof.
  intros Hs H0. unfold strlen. rewrite (proj2 (Z.eqb_neq s 0)) by done. kgets.
  krun (strlen_loop_ok _ _ _ _ Hs (str_at_fuel _ _ _ Hs)). unfold Str.strlen.
  by replace (s + Z.of_nat (length cs) - s) with (Z.of_nat (length cs)) by lia.
Qed.

Lemma strcmp_loop_ok fuel : ∀ m s1 s2 cs1 cs2,
  str_at m s1 cs1 → str_at m s2 cs2 → (length cs1 < fuel)%nat →
  strcmp_loop fuel s1 s2 m = (Ret (Str.strcmp_loop cs1 cs2), m).
Proof.
  induction fuel as [|fuel IH]; intros m s1 s2 [|c1 cs1] [|c2 cs2] H1 H2 Hf; simpl in Hf; try lia; cbn [strcmp_loop Str.strcmp_loop Str.deref].
  - apply str_at_nil in H1, H2. do 2 walk. done.
  - apply str_at_nil in H1. apply str_at_cons in H2 as (H2 & ? & _). do 2 walk.
    by rewrite (proj2 (Z.eqb_neq 0 c2)) by lia.
  - apply str_at_nil in H2. apply str_at_cons in H1 as (H1 & ? & _). do 2 walk.
    by rewrite (proj2 (Z.eqb_neq c1 0)) by lia.
  - apply str_at_cons in H1 as (H1 & ? & Hr1), H2 as (H2 & ? & Hr2). do 2 walk.
    rewrite (proj2 (Z.eqb_neq c1 0)) by lia. destruct (Z.eqb_spec c1 c2) as [->|Hne]; cbn [andb negb]; [apply IH; done || lia|].
    cbv delta [mret M_ret]. cbv beta. do 2 f_equal. destruct (Z.ltb_spec c1 c2), (Z.ltb_spec c2 c1); done || lia.
Qed.

Lemma strncmp_ok n : ∀ m s1 s2 cs1 cs2,
  str_at m s1 cs1 → str_at m s2 cs2 → strncmp s1 s2 n m = (Ret (Str.strncmp cs1 cs2 n), m).
Proof.
  induction n as [|n IH]; intros m s1 s2 [|c1 cs1] [|c2 cs2] H1 H2; try done; cbn [strncmp Str.strncmp Str.deref].
  - apply str_at_nil in H1, H2. do 2 walk. done.
  - apply str_at_nil in H1. apply str_at_cons in H2 as (H2 & ? & _). do 2 walk. done.
  - apply str_at_nil in H2. apply str_at_cons in H1 as (H1 & ? & _). do 2 walk.
    by rewrite (proj2 (Z.eqb_neq c1 0)) by lia.
  - apply str_at_cons in H1 as (H1 & ? & Hr1), H2 as (H2 & ? & Hr2). do 2 walk.
    rewrite (proj2 (Z.eqb_neq c1 0)) by lia. destruct (Z.eqb_spec c1 c2) as [->|Hne]; cbn [andb negb]; [by apply IH|done].
Qed.

(** What is left of a string is no longer than the string. *)
Lemma strchr_short cs c e : Str.strchr cs c = Some e → (length e ≤ length cs)%nat.
Proof.
  induction cs as [|x cs IH]; cbn [Str.strchr]; [done|]. destruct (x =? c); [by intros [= <-]|].
  intros He%IH. simpl. lia.
Qed.

Lemma rest_addr_cons s x cs (e : option Str.cstr) :
  (∀ l, e = Some l → (length l ≤ length cs)%nat) → rest_addr (s + 1) cs e = rest_addr s (x :: cs) e.
Proof. destruct e as [l|]; intros He; [|done]. specialize (He l eq_refl). unfold rest_addr. cbn [length]. lia. Qed.

Lemma strchr_loop_ok fuel : ∀ m s cs c,
  str_at m s cs → (length cs < fuel)%nat → strchr_loop fuel s c m = (Ret (rest_addr s cs (Str.strchr cs c)), m).
Proof.
  induction fuel as [|fuel IH]; intros m s [|x cs] c Hs Hf; simpl in Hf; try lia; cbn [strchr_loop Str.strchr].
  - apply str_at_nil in Hs. walk. done.
  - apply str_at_cons in Hs as (Hx & Hpos & Hr). walk. rewrite (proj2 (Z.eqb_neq x 0)) by lia. cbn [negb].
    destruct (x =? c); [unfold rest_addr; by rewrite Nat.sub_diag, Z.add_0_r|].
    rewrite (IH m (s + 1) cs c) by (done || lia). do 2 f_equal. apply rest_addr_cons. intros l. apply strchr_short.
Qed.

Lemma strrchr_loop_ok fuel : ∀ m s cs c (e : option Str.cstr) p,
  str_at m s cs → (length cs < fuel)%nat →
  (match e with None => p = 0 | Some l => p = s + Z.of_nat (length cs) - Z.of_nat (length l) end) →
  strrchr_loop fuel s c p m =
  (Ret (match Str.strrchr_loop cs c e with None => 0 | Some l => s + Z.of_nat (length cs) - Z.of_nat (length l) end), m).
Proof.
  induction fuel as [|fuel IH]; intros m s [|x cs] c e p Hs Hf Hp; simpl in Hf; try lia; cbn [strrchr_loop Str.strrchr_loop].
  - apply str_at_nil in Hs. walk. cbn [negb Z.eqb]. destruct e as [l|]; by subst.
  - apply str_at_cons in Hs as (Hx & Hpos & Hr). walk. rewrite (proj2 (Z.eqb_neq x 0)) by lia. cbn [negb].
    rewrite (IH m (s + 1) cs c (if x =? c then Some (x :: cs) else e)) by
      (done || lia || (destruct (x =? c); [|destruct e]; simpl in *; lia)).
    cbn [length]. rewrite Nat2Z.inj_succ. destruct (Str.strrchr_loop _ _ _) as [l|]; [|done]. do 2 f_equal. lia.
Qed.

Lemma strrchr_short cs c : ∀ (e : option Str.cstr) (k : nat),
  (∀ l, e = Some l → (length l ≤ k)%nat) → (length cs ≤ k)%nat →
  ∀ l, Str.strrchr_loop cs c e = Some l → (length l ≤ k)%nat.
Proof.
  induction cs as [|x cs IH]; intros e k He Hk l; cbn [Str.strrchr_loop]; [apply He|]. simpl in Hk.
  apply IH; [|lia]. intros l'. destruct (x =? c); [|apply He]. intros [= <-]. simpl. lia.
Qed.

Lemma strrchr_ok m s cs c : str_at m s cs → strrchr s c m = (Ret (rest_addr s cs (Str.strrchr cs c)), m).
Proof.
  intros Hs. unfold strrchr, Str.strrchr. kgets. rewrite (strrchr_loop_ok _ m s cs c None 0 Hs (str_at_fuel _ _ _ Hs) eq_refl).
  pose proof (strrchr_short cs c None (length cs) ltac:(done) ltac:(lia)) as Hl.
  destruct (Str.strrchr_loop cs c None) as [l|]; [|done]. specialize (Hl l eq_refl). unfold rest_addr. do 2 f_equal. lia.
Qed.

Lemma strtoul_short base cs : ∀ val, (length (Str.strtoul_loop base cs val).2 ≤ length cs)%nat.
Proof.
  induction cs as [|c cs IH]; intros val; cbn [Str.strtoul_loop]; [done|]. destruct (_ || _)%bool; [done|].
  etrans; [apply IH|]. simpl. lia.
Qed.

Lemma strtoul_loop_ok fuel : ∀ m base s cs val,
  str_at m s cs → (length cs < fuel)%nat →
  strtoul_loop fuel base s val m =
  (Ret ((Str.strtoul_loop base cs val).1, rest_addr s cs (Some (Str.strtoul_loop base cs val).2)), m).
Proof.
  induction fuel as [|fuel IH]; intros m base s [|c cs] val Hs Hf; simpl in Hf; try lia; cbn [strtoul_loop Str.strtoul_loop].
  - apply str_at_nil in Hs. walk. change (0 <? 48) with true. cbn. by rewrite Z.add_0_r.
  - apply str_at_cons in Hs as (Hx & Hpos & Hr). walk.
    destruct (_ || _)%bool; [unfold rest_addr; cbn [fst snd]; by rewrite Nat.sub_diag, Z.add_0_r|].
    rewrite (IH m base (s + 1) cs) by (done || lia). do 3 f_equal. apply rest_addr_cons. intros l [= <-]. apply strtoul_short.
Qed.

Lemma strtoul_ok m s cs base : str_at m s cs → s ≠ 0 →
  strtoul s base m =
  (Ret ((Str.strtoul (Some cs) base).1, rest_addr s cs (Str.strtoul (Some cs) base).2), m).
Proof.
  intros Hs H0. unfold strtoul, Str.strtoul. rewrite (proj2 (Z.eqb_neq s 0)) by done. cbn [orb].
  destruct (_ || _)%bool; [done|].
  assert (m !! s = Some (Str.deref cs)) as Hd.
  { destruct cs as [|c cs]; [by apply str_at_nil|]. by apply str_at_cons in Hs as (? & _). }
  walk. kgets. pose proof (str_at_fuel _ _ _ Hs) as Hf.
  assert (Str.deref cs ≠ 0 →
    strtoul_loop (fuel_of m) base (s + 1) 0 m =
      (Ret ((Str.strtoul_loop base (list.tail cs) 0).1, rest_addr s cs (Some (Str.strtoul_loop base (list.tail cs) 0).2)), m)) as Hsign.
  { intros Hnz. destruct cs as [|c cs]; [done|]. apply str_at_cons in Hs as (_ & _ & Hr). simpl in Hf.
    cbn [list.tail]. rewrite (strtoul_loop_ok _ m base (s + 1) cs 0 Hr) by lia. do 3 f_equal. apply rest_addr_cons.
    intros l [= <-]. apply strtoul_short. }
  destruct (Z.eqb_spec (Str.deref cs) 45) as [E|_]; [|destruct (Z.eqb_spec (Str.deref cs) 43) as [E|_]]; cbv zeta.
  - krun (Hsign ltac:(lia)). by destruct (Str.strtoul_loop base (list.tail cs) 0).
  - krun (Hsign ltac:(lia)). by destruct (Str.strtoul_loop base (list.tail cs) 0).
  - krun (strtoul_loop_ok _ m base s cs 0 Hs Hf). by destruct (Str.strtoul_loop base cs 0).
Qed.

Lemma memcmp_ok n : ∀ m u v bs1 bs2,
  bytes_at m u bs1 → bytes_at m v bs2 → length bs1 = n → length bs2 = n →
  memcmp u v n m = (Ret (Str.memcmp bs1 bs2 n), m).
Proof.
  induction n as [|n IH]; intros m u v [|x bs1] [|y bs2] H1 H2 L1 L2; simpl in L1, L2; try lia; [done|].
  cbn [memcmp Str.memcmp]. destruct H1 as [H1 R1], H2 as [H2 R2]. do 2 walk.
  destruct (x =? y); [|done]. apply IH; done || lia.
Qed.

(** ** Writing *)

Lemma write_lookup_other bs : ∀ m a k, k < a ∨ a + Z.of_nat (length bs) ≤ k → write m a bs !! k = m !! k.
Proof.
  induction bs as [|b bs IH]; intros m a k Hk; cbn [write length] in *; [done|].
  rewrite IH by lia. apply lookup_insert_ne. lia.
Qed.

Lemma write_bytes_at bs : ∀ m a, bytes_at (write m a bs) a bs.
Proof.
  induction bs as [|b bs IH]; intros m a; cbn [write bytes_at]; [done|]. split; [|apply IH].
  rewrite write_lookup_other by lia. apply lookup_insert_eq.
Qed.

Lemma memset_loop_ok n : ∀ m p c old,
  bytes_at m p old → length old = n → memset_loop n p c m = (Ret tt, write m p (replicate n (u8 c))).
Proof.
  induction n as [|n IH]; intros m p c [|b old] Ho Hl; simpl in Hl; try lia; [done|].
  destruct Ho as [Hb Ho]. cbn [memset_loop replicate write]. walk. apply (IH _ _ _ old); [|lia].
  apply bytes_at_store; [done|lia].
Qed.

Lemma memcpy_loop_ok n : ∀ m p q old bs,
  bytes_at m p old → bytes_at m q bs → length old = n → length bs = n →
  p ≤ q ∨ q + Z.of_nat n ≤ p → memcpy_loop n p q m = (Ret tt, write m p bs).
Proof.
  induction n as [|n IH]; intros m p q [|b old] [|x bs] Ho Hb Lo Lb Hpq; simpl in Lo, Lb; try lia; [done|].
  destruct Ho as [Hp Ho], Hb as [Hq Hb]. cbn [memcpy_loop write]. do 2 walk.
  apply (IH _ _ _ old bs); [apply bytes_at_store; [done|lia]|apply bytes_at_store; [done|lia]|lia..].
Qed.

Lemma strncpy_loop_ok n : ∀ m dst src old cs,
  str_at m src cs → bytes_at m dst old → length old = Nat.min n (S (length cs)) →
  dst + Z.of_nat (length old) ≤ src ∨ src + Z.of_nat (length cs) < dst →
  strncpy_loop n dst src m = (Ret tt, write m dst (take n (cs ++ [0]))).
Proof.
  induction n as [|n IH]; intros m dst src old cs Hs Ho Hl Hd; [done|].
  destruct old as [|b old]; [simpl in Hl; lia|]. destruct Ho as [Hb Ho]. cbn [strncpy_loop].
  destruct cs as [|c cs]; cbn [app firstn write length Nat.min] in *.
  - apply str_at_nil in Hs. walk. cbn [negb Z.eqb]. rewrite (ustore_ok _ _ _ _ Hb). by destruct n.
  - pose proof Hs as [_ Hstr]. apply str_at_cons in Hs as (Hc & Hpos & Hr). walk. rewrite (proj2 (Z.eqb_neq c 0)) by lia. cbn [negb]. walk.
    apply (IH _ _ _ old cs); [split; [apply Hr|]|apply bytes_at_store; [done|lia]|lia|lia].
    apply bytes_at_store; [apply Hstr|]. rewrite length_app. simpl. lia.
Qed.

(** ** Correctness *)

(** C19. The searching, comparing and number reading functions of the user
    library, which walk pointers, compute on the strings that memory holds what
    the kernel's functions are defined to compute: lengths, the order of two
    strings (also of a prefix), the first and the last occurrence of a
    character, the number in a base up to 10 and where it ends, the comparison
    of two byte ranges.  They return, read only mapped bytes and change no
    memory. *)
Theorem user_strings_read m s1 s2 cs1 cs2 c base n :
  str_at m s1 cs1 → str_at m s2 cs2 → s1 ≠ 0 → s2 ≠ 0 →
  strlen s1 m = (Ret (Str.strlen (Some cs1)), m) ∧
  strcmp s1 s2 m = (Ret (Str.strcmp (Some cs1) (Some cs2)), m) ∧
  strncmp s1 s2 n m = (Ret (Str.strncmp cs1 cs2 n), m) ∧
  strchr s1 c m = (Ret (rest_addr s1 cs1 (Str.strchr cs1 c)), m) ∧
  strrchr s1 c m = (Ret (rest_addr s1 cs1 (Str.strrchr cs1 c)), m) ∧
  strtoul s1 base m = (Ret ((Str.strtoul (Some cs1) base).1, rest_addr s1 cs1 (Str.strtoul (Some cs1) base).2), m) ∧
  (length cs1 = n → length cs2 = n → memcmp s1 s2 n m = (Ret (Str.memcmp cs1 cs2 n), m)).
Proof.
  intros H1 H2 N1 N2. split_and!.
  - by apply strlen_ok.
  - unfold strcmp. rewrite (proj2 (Z.eqb_neq s1 0)), (proj2 (Z.eqb_neq s2 0)) by done. cbn [orb]. kgets.
    apply strcmp_loop_ok; [done..|]. by apply (str_at_fuel m s1).
  - by apply strncmp_ok.
  - unfold strchr. kgets. apply strchr_loop_ok; [done|]. by apply (str_at_fuel m s1).
  - by apply strrchr_ok.
  - by apply strtoul_ok.
  - intros L1 L2. apply memcmp_ok; try done; [apply (bytes_at_prefix _ _ _ [0]), H1|apply (bytes_at_prefix _ _ _ [0]), H2].
Qed.

(** C20. The copying functions write exactly their range: [memset] fills [n]
    bytes, [memcpy] copies [n] bytes, also between ranges that overlap when the
    destination is the lower one, [strncpy] copies a string with its NUL, cut at
    [n] characters and then without NUL; the destination is returned, holds the
    bytes, and every address outside of it keeps its byte. *)
Theorem user_strings_write m dst src old bs c n :
  bytes_at m dst old → length old = n →
  memset dst c n m = (Ret dst, write m dst (replicate n (u8 c))) ∧
  (bytes_at m src bs → length bs = n → dst ≤ src ∨ src + Z.of_nat n ≤ dst →
     memcpy dst src n m = (Ret dst, write m dst bs)) ∧
  (∀ cs, str_at m src cs → dst + Z.of_nat n ≤ src ∨ src + Z.of_nat (length cs) < dst →
     strncpy dst src n m = (Ret dst, write m dst (take n (cs ++ [0])))) ∧
  (∀ l k, bytes_at (write m dst l) dst l ∧
     (k < dst ∨ dst + Z.of_nat (length l) ≤ k → write m dst l !! k = m !! k)).
Proof.
  intros Ho Hl. split_and!.
  - unfold memset. by krun (memset_loop_ok n m dst c old Ho Hl).
  - intros Hb Lb Hd. unfold memcpy. by krun (memcpy_loop_ok n m dst src old bs Ho Hb Hl Lb Hd).
  - intros cs Hs Hd. unfold strncpy. set (k := Nat.min n (S (length cs))).
    assert (length (take k old) = k) as Lk by (rewrite length_take; lia).
    krun (strncpy_loop_ok n m dst src (take k old) cs Hs (bytes_at_take k _ _ _ Ho) Lk ltac:(lia)). done.
  - intros l k. split; [apply write_bytes_at|apply write_lookup_other].
Qed.

(** ** Witnesses *)

(** "ab" at 16 and "abc" at 32, eight spare bytes at 64. *)
Definition demo_mem : mem := write (write (write ∅ 16 [97; 98; 0]) 32 [97; 98; 99; 0]) 64 (replicate 8 1).

Lemma demo_str1 : str_at demo_mem 16 [97; 98].
Proof. split; [unfold Str.is_cstr; repeat constructor; lia|vm_compute; tauto]. Qed.
Lemma demo_str2 : str_at demo_mem 32 [97; 98; 99].
Proof. split; [unfold Str.is_cstr; repeat constructor; lia|vm_compute; tauto]. Qed.

Lemma user_strings_read_witness :
  strlen 16 demo_mem = (Ret 2, demo_mem) ∧ strcmp 16 32 demo_mem = (Ret (-1), demo_mem) ∧
  strchr 32 98 demo_mem = (Ret 33, demo_mem).
Proof.
  destruct (user_strings_read demo_mem 16 32 [97; 98] [97; 98; 99] 98 10 2 demo_str1 demo_str2) as (H1 & H2 & _); [lia..|].
  destruct (user_strings_read demo_mem 32 16 [97; 98; 99] [97; 98] 98 10 2 demo_str2 demo_str1) as (_ & _ & _ & H4 & _); [lia..|].
  by split_and!.
Defined.

Lemma user_strings_write_witness :
  memcpy 64 32 4 demo_mem = (Ret 64, write demo_mem 64 [97; 98; 99; 0]) ∧
  strncpy 64 16 4 demo_mem = (Ret 64, write demo_mem 64 [97; 98; 0]).
Proof.
  destruct (user_strings_write demo_mem 64 32 [1; 1; 1; 1] [97; 98; 99; 0] 0 4) as (_ & Hcpy & _); [vm_compute; tauto|done|].
  destruct (user_strings_write demo_mem 64 16 [1; 1; 1; 1] [] 0 4) as (_ & _ & Hstr & _); [vm_compute; tauto|done|].
  split; [apply Hcpy; [vm_compute; tauto|done|right; lia]|]. apply (Hstr [97; 98] demo_str1). right. simpl. lia.
Defined.

End UStr.
