(* ===== verification/UserPrint.v ===== *)
(** * User library: formatted output and the terminal (user/string.c)

    The second half of user/string.c.  [vgprintf] is translated for an output
    function that is itself a computation, with the digit buffer of [format_int]
    as the array it is; strings and formats are lists, as in Strings.  The
    character functions work on descriptors through the system calls read and
    write, which are parameters; [TermSys] says what a terminal behind a
    descriptor does.  An access outside an array and an argument that is not of
    the kind the format asks for are a [Panic]. *)

From S2P Require Import Prelude Config Io Strings Console.

Module UPrint.
Import Str.

(** ** Formatted output *)

Section printf.
Context {St : Type} (putcfn : Z → M St unit).
Implicit Types (p : cstr) (c val base len nout : Z) (buf : list Z).

Definition no_fuel {A} : M St A := λ s, (NoFuel, s).

(** [buf[p] = v] for an array *)
Definition put_at buf (i v : Z) : M St (list Z) :=
  if ((0 <=? i) && (i <? Z.of_nat (length buf)))%bool then mret (setb i v buf) else panic.

(** The digits of [val], written to [buf] from its end; [i] is the offset of [p]. *)
Fixpoint int_digits (fuel : nat) val base buf (i : Z) : M St (list Z * Z) :=
  match fuel with
  | O => no_fuel
  | S fuel =>
      let d := val mod base in
      let val := val / base in
      let i := i - 1 in
      buf ← put_at buf i (if d <? 10 then 48 + d else 97 + d - 10);
      if negb (val =? 0) then int_digits fuel val base buf i else mret (buf, i)
  end.

(** [while (w < len) { putcfn(c); nout += 1; len -= 1; }] *)
Fixpoint pad_loop (fuel : nat) c (w : Z) len nout : M St Z :=
  if w <? len then
    match fuel with
    | O => no_fuel
    | S fuel => putcfn c;; pad_loop fuel c w (len - 1) (nout + 1)
    end
  else mret nout.

Fixpoint digits_out (fuel : nat) buf (i : Z) nout : M St Z :=
  if i <? Z.of_nat (length buf) then
    match fuel with
    | O => no_fuel
    | S fuel => putcfn (getb 0 buf i);; digits_out fuel buf (i + 1) (nout + 1)
    end
  else mret nout.

(** [char buf[40]]; a pass beyond its start is a [Panic], so that 41 passes are
    enough. *)
Definition format_int val base (zpad : bool) len : M St Z :=
  '(buf, i) ← int_digits 41 val base (replicate 40 0) 40;
  nout ← pad_loop (Z.to_nat len) (if zpad then 48 else 32) (40 - i) len 0;
  digits_out 40 buf i nout.

Fixpoint str_out p nout : M St Z :=
  match p with [] => mret nout | c :: p => putcfn c;; str_out p (nout + 1) end.

Definition format_str (s : option cstr) len : M St Z :=
  nout ← str_out (default null_text s) 0;
  if nout <? len then
    let len := len - nout in
    _ ← pad_loop (Z.to_nat len) 32 0 len 0;
    mret (nout + len)
  else mret nout.

(** [va_arg] for an integer and for a string. *)
Definition va_int (ap : list va) : M St (Z * list va) := match arg_reg ap with Some r => mret r | None => panic end.
Definition va_str (ap : list va) : M St (option cstr * list va) := match arg_ptr ap with Some r => mret r | None => panic end.

(** The conversion at [p]: the arguments left and the number of characters. *)
Definition convert (zpad : bool) len lcnt p (ap : list va) : M St (list va * Z) :=
  let c := deref p in
  if c =? 100 then (* d *)
    '(z, ap) ← va_int ap;
    let ival := if 0 <? lcnt then s64 z else s32 z in
    if ival <? 0 then
      putcfn 45;;
      let len := if 0 <? len then len - 1 else len in
      n ← format_int (u64 (- ival)) 10 zpad len;
      mret (ap, 1 + n)
    else
      n ← format_int (u64 ival) 10 zpad len;
      mret (ap, n)
  else if ((c =? 117) || (c =? 120))%bool then (* u, x *)
    '(z, ap) ← va_int ap;
    let ival := if 0 <? lcnt then u64 z else u32 z in
    n ← format_int ival (if c =? 120 then 16 else 10) zpad len;
    mret (ap, n)
  else if c =? 115 then (* s *)
    '(s, ap) ← va_str ap;
    n ← format_str s len;
    mret (ap, n)
  else if c =? 99 then (* c *)
    '(z, ap) ← va_int ap;
    putcfn (u8 z);;
    mret (ap, 1)
  else if c =? 112 then (* p *)
    '(z, ap) ← va_int ap;
    n1 ← format_str (Some [48; 120]) 2;
    n2 ← format_int (u64 z) 16 zpad len;
    mret (ap, n1 + n2)
  else
    putcfn 37;;
    putcfn (if ((c <? 32) || (127 <=? c))%bool then 63 else c);;
    mret (ap, 2).

(** Every pass consumes a character of the format. *)
Fixpoint vgprintf_loop (fuel : nat) p (ap : list va) nout : M St Z :=
  match fuel with
  | O => no_fuel
  | S fuel =>
      match p with
      | [] => mret nout
      | c :: r =>
          if c =? 37 then
            let zpad := deref r =? 48 in
            let '(len, p) := width r 0 in
            let '(lcnt, p) := prefix p in
            '(ap, n) ← convert zpad len lcnt p ap;
            vgprintf_loop fuel (list.tail p) ap (u64 (nout + n))
          else putcfn c;; vgprintf_loop fuel r ap (u64 (nout + 1))
      end
  end.

Definition vgprintf (fmt : cstr) (ap : list va) : M St Z := vgprintf_loop (S (length fmt)) fmt ap 0.
End printf.

(** ** Output to a buffer *)

Definition vsnprintf_putc c : M vsnprintf_state unit := λ st,
  if rem st <=? 1 then (Ret tt, st)
  else if decide (pos st < length (vbuf st))%nat
       then (Ret tt, VState (<[pos st := c]> (vbuf st)) (S (pos st)) (rem st - 1))
       else (Panic, st).

(** The number returned; the final state has the buffer. *)
Definition vsnprintf (fmt : cstr) (ap : list va) (buf : list Z) (bufsz : Z) : outcome Z * list Z :=
  let '(r, st) := vgprintf vsnprintf_putc fmt ap (VState buf O bufsz) in
  match r with
  | Ret n => if negb (rem st =? 0)
             then if decide (pos st < length (vbuf st))%nat then (Ret n, <[pos st := 0]> (vbuf st)) else (Panic, vbuf st)
             else (Ret n, vbuf st)
  | r => (r, vbuf st)
  end.

Definition snprintf (buf : list Z) (bufsz : Z) (fmt : cstr) (ap : list va) : outcome Z * list Z := vsnprintf fmt ap buf bufsz.

(** ** Characters and lines on descriptors *)

Definition UART_DESC : Z := 2.
Definition NDEV : nat := 16.
Definition CR : Z := 13.
Definition LF : Z := 10.
Definition BS : Z := 8.
Definition DEL : Z := 127.
Definition BEL : Z := 7.

(** The static arrays of [dputc] and [dgetc], and what is behind the system calls. *)
Record ustate (K : Type) := UState { pcprev : list Z; gcprev : list Z; kst : K }.
Arguments UState {K} _ _ _.
Arguments pcprev {K} _.
Arguments gcprev {K} _.
Arguments kst {K} _.

Section descriptors.
Context {K : Type} (_read : Z → Z → M K (Z * list Z)) (_write : Z → list Z → M K Z).
Implicit Types (st : ustate K) (fd c : Z).

Definition on_kernel {A} (f : M K A) : M (ustate K) A := λ st,
  let '(r, k) := f (kst st) in (r, UState (pcprev st) (gcprev st) k).

(** [a[fd]] and [a[fd] = c] for an array of [NDEV] characters. *)
Definition prev_at (a : ustate K → list Z) fd : M (ustate K) Z := λ st,
  if 0 <=? fd then match a st !! Z.to_nat fd with Some c => (Ret c, st) | None => (Panic, st) end else (Panic, st).
Definition set_pcprev fd c : M (ustate K) unit :=
  _ ← prev_at pcprev fd; modify (λ st, UState (setb fd c (pcprev st)) (gcprev st) (kst st)).
Definition set_gcprev fd c : M (ustate K) unit :=
  _ ← prev_at gcprev fd; modify (λ st, UState (pcprev st) (setb fd c (gcprev st)) (kst st)).

Definition write1 fd c : M (ustate K) unit := _ ← on_kernel (_write fd [c]); mret tt.

Definition dputc fd c : M (ustate K) unit :=
  (if c =? CR then write1 fd c;; write1 fd LF
   else if c =? LF then
     p ← prev_at pcprev fd;
     (if negb (p =? CR) then write1 fd CR else mret tt);;
     write1 fd c
   else write1 fd c);;
  set_pcprev fd c.

(** The result of [_read] is not looked at: when it stores nothing, [c] keeps
    its value, at first what its place on the stack holds. *)
Fixpoint dgetc_loop (fuel : nat) fd c : M (ustate K) Z :=
  match fuel with
  | O => no_fuel
  | S fuel =>
      '(_, got) ← on_kernel (_read fd 1);
      let c := default c (list.head got) in
      if c =? LF then
        p ← prev_at gcprev fd;
        if p =? CR then dgetc_loop fuel fd c else mret c
      else mret c
  end.

Definition dgetc (fuel : nat) (stack : Z) fd : M (ustate K) Z :=
  c ← dgetc_loop fuel fd stack;
  set_gcprev fd c;;
  mret (if c =? CR then LF else c).

Fixpoint dputs_loop fd (str : cstr) : M (ustate K) unit :=
  match str with [] => mret tt | c :: r => dputc fd c;; dputs_loop fd r end.
Definition dputs fd (str : cstr) : M (ustate K) unit := dputs_loop fd str;; dputc fd LF.

Definition putc c : M (ustate K) unit := dputc UART_DESC c.
Definition getc (fuel : nat) (stack : Z) : M (ustate K) Z := dgetc fuel stack UART_DESC.
Definition puts (str : cstr) : M (ustate K) unit := dputs UART_DESC str.

(** The buffer when [dgetsn] returns; [i] is the offset of [p].  [chars] bounds
    the raw characters read for one character, [fuel] the passes. *)
Fixpoint dgetsn_loop (chars : nat) (stack : Z) (fuel : nat) fd (buf : list Z) (i n : Z) : M (ustate K) (list Z) :=
  match fuel with
  | O => no_fuel
  | S fuel =>
      c ← dgetc chars stack fd;
      if ((c =? 0) || (c =? LF))%bool then put_at buf i 0
      else if 1 <? n then
        buf ← put_at buf i c;
        dgetsn_loop chars stack fuel fd buf (i + 1) (n - 1)
      else dgetsn_loop chars stack fuel fd buf i n
  end.
Definition dgetsn (fuel : nat) (stack : Z) fd (buf : list Z) (n : Z) : M (ustate K) (list Z) :=
  dgetsn_loop fuel stack fuel fd buf 0 n.

Fixpoint getsn_loop (chars : nat) (stack : Z) (fuel : nat) (buf : list Z) (i n : Z) : M (ustate K) (list Z) :=
  match fuel with
  | O => no_fuel
  | S fuel =>
      c ← getc chars stack;
      if c =? CR then getsn_loop chars stack fuel buf i n
      else if c =? LF then putc LF;; put_at buf i 0
      else if ((c =? BS) || (c =? DEL))%bool then
        if negb (i =? 0) then
          putc BS;; putc 32;; putc BS;;
          getsn_loop chars stack fuel buf (i - 1) (u64 (n + 1))
        else getsn_loop chars stack fuel buf i n
      else if 1 <? n then
        putc c;;
        buf ← put_at buf i c;
        getsn_loop chars stack fuel buf (i + 1) (n - 1)
      else putc BEL;; getsn_loop chars stack fuel buf i n
  end.
Definition getsn (fuel : nat) (stack : Z) (buf : list Z) (n : Z) : M (ustate K) (list Z) :=
  getsn_loop fuel stack fuel buf 0 n.

(** *** Formatted output to descriptors *)

Definition vprintf_putc c : M (ustate K) unit := putc c.
Definition dvprintf_putc fd c : M (ustate K) unit := dputc fd c.
Definition dprintf fd (fmt : cstr) (ap : list va) : M (ustate K) unit := _ ← vgprintf (dvprintf_putc fd) fmt ap; mret tt.
Definition printf (fmt : cstr) (ap : list va) : M (ustate K) unit := _ ← vgprintf vprintf_putc fmt ap; mret tt.
End descriptors.

(** ** What is printed

    The text of a format as the user library prints it. *)

Definition convert_text (zpad : bool) (len lcnt : Z) (p : cstr) (ap : list va) : option (list va * list Z) :=
  let c := deref p in
  if c =? 100 then
    '(z, ap) ← arg_reg ap;
    let ival := if 0 <? lcnt then s64 z else s32 z in
    Some (ap, if ival <? 0 then 45 :: int_text (- ival) 10 zpad (len - 1) else int_text ival 10 zpad len)
  else if ((c =? 117) || (c =? 120))%bool then
    '(z, ap) ← arg_reg ap;
    Some (ap, int_text (if 0 <? lcnt then u64 z else u32 z) (if c =? 120 then 16 else 10) zpad len)
  else if c =? 115 then '(s, ap) ← arg_ptr ap; Some (ap, str_text s len)
  else if c =? 99 then '(z, ap) ← arg_reg ap; Some (ap, [u8 z])
  else if c =? 112 then '(z, ap) ← arg_reg ap; Some (ap, [48; 120] ++ int_text (u64 z) 16 zpad len)
  else Some (ap, [37; if ((32 <=? c) && (c <? 127))%bool then c else 63]).

Fixpoint text (fuel : nat) (p : cstr) (ap : list va) : option (list Z) :=
  match fuel with
  | O => None
  | S fuel =>
      match p with
      | [] => Some []
      | c :: r =>
          if c =? 37 then
            let '(len, p) := width r 0 in
            let '(lcnt, p) := prefix p in
            '(ap, out) ← convert_text (deref r =? 48) len lcnt p ap;
            rest ← text fuel (list.tail p) ap;
            Some (out ++ rest)
          else rest ← text fuel r ap; Some (c :: rest)
      end
  end.

Definition printed (fmt : cstr) (ap : list va) : option (list Z) := text (S (length fmt)) fmt ap.

#[local] Arguments int_chars : simpl never.
#[local] Arguments int_text : simpl never.
#[local] Arguments str_text : simpl never.
#[local] Arguments u64 : simpl never.
#[local] Arguments Z.sub : simpl never.

(** An output function that always returns, in the states [I], and acts as [f]. *)
Section printf_proofs.
Context {St : Type} (putcfn : Z → M St unit) (I : St → Prop) (f : Z → St → St).
Hypothesis putc_ok : ∀ c s, I s → putcfn c s = (Ret tt, f c s) ∧ I (f c s).

Lemma put_all_I l : ∀ s, I s → I (put_all f l s).
Proof. induction l as [|c l IH]; intros s Hs; cbn [put_all]; [done|]. apply IH. by apply putc_ok. Qed.

#[local] Ltac kputc := match goal with
  | H : I ?s |- context [(putcfn ?c ≫= _) ?s] =>
      let E := fresh "E" in let H' := fresh "HI" in destruct (putc_ok c s H) as [E H']; krun E
  end.

Lemma str_out_ok p : ∀ nout s, I s → str_out putcfn p nout s = (Ret (nout + Z.of_nat (length p)), put_all f p s).
Proof.
  induction p as [|c p IH]; intros nout s Hs; cbn [str_out length put_all]; [by rewrite Z.add_0_r|].
  kputc. rewrite IH by done. do 2 f_equal. lia.
Qed.

Lemma pad_loop_ok fuel c w : ∀ len nout s, I s → (Z.to_nat (len - w) ≤ fuel)%nat →
  pad_loop putcfn fuel c w len nout s =
  (Ret (nout + Z.of_nat (Z.to_nat (len - w))), put_all f (replicate (Z.to_nat (len - w)) c) s).
Proof.
  induction fuel as [|fuel IH]; intros len nout s Hs Hf; cbn [pad_loop]; destruct (Z.ltb_spec w len); try lia;
    try (replace (Z.to_nat (len - w)) with O by lia; cbn [replicate put_all]; by rewrite Z.add_0_r).
  kputc. rewrite IH by (done || lia). replace (Z.to_nat (len - w)) with (S (Z.to_nat (len - 1 - w))) by lia.
  cbn [replicate put_all]. do 2 f_equal. lia.
Qed.

Lemma digits_out_ok fuel buf : ∀ (i : Z) nout s, I s → 0 ≤ i → (length buf - Z.to_nat i ≤ fuel)%nat →
  digits_out putcfn fuel buf i nout s =
  (Ret (nout + Z.of_nat (length (drop (Z.to_nat i) buf))), put_all f (drop (Z.to_nat i) buf) s).
Proof.
  induction fuel as [|fuel IH]; intros i nout s Hs Hi Hf; cbn [digits_out]; destruct (Z.ltb_spec i (Z.of_nat (length buf))); try lia;
    try (rewrite drop_ge by lia; cbn; by rewrite Z.add_0_r).
  kputc. rewrite IH by (done || lia).
  destruct (lookup_lt_is_Some_2 buf (Z.to_nat i)) as [x Hx]; [lia|].
  rewrite (drop_S _ x (Z.to_nat i)) by done. replace (S (Z.to_nat i)) with (Z.to_nat (i + 1)) by lia.
  cbn [length put_all]. rewrite (getb_lookup _ _ _ x) in E, HI |- * by done. do 2 f_equal. lia.
Qed.

(** The buffer is written from its end, and never before its start. *)
Lemma int_digits_ok base (k : nat) : ∀ val buf (i : Z) (fuel fuel' : nat) (s : St),
  1 < base → 0 ≤ val < base ^ Z.of_nat k → (0 < k)%nat → (k ≤ Z.to_nat i)%nat → (Z.to_nat i ≤ length buf)%nat →
  (k ≤ fuel)%nat → (k ≤ fuel')%nat →
  ∃ buf' i', int_digits fuel val base buf i s = (Ret (buf', i'), s) ∧ length buf' = length buf ∧ 0 ≤ i' ≤ i ∧
    drop (Z.to_nat i') buf' = int_chars fuel' val base (drop (Z.to_nat i) buf).
Proof.
  induction k as [|k IH]; intros val buf i fuel fuel' s Hb Hv Hk Hi Hlen Hf Hf'; [lia|].
  destruct fuel as [|fuel], fuel' as [|fuel']; try lia. cbn [int_digits]. unfold int_chars; fold int_chars.
  unfold put_at at 1. rewrite (proj2 (Z.leb_le 0 (i - 1))), (proj2 (Z.ltb_lt (i - 1) _)) by lia. cbn [andb]. kret.
  set (dc := if val mod base <? 10 then _ else _). change (digit_char (val mod base)) with dc.
  assert (drop (Z.to_nat (i - 1)) (setb (i - 1) dc buf) = dc :: drop (Z.to_nat i) buf) as Hd.
  { rewrite (drop_S _ dc) by (apply list_lookup_insert_eq; lia). unfold setb. rewrite drop_insert_lt by lia. do 2 f_equal. lia. }
  destruct (Z.eqb_spec (val / base) 0) as [Hz|Hz]; cbn [negb].
  - exists (setb (i - 1) dc buf), (i - 1). rewrite length_setb, Hd. split_and!; try done; lia.
  - rewrite Nat2Z.inj_succ, Z.pow_succ_r in Hv by lia.
    assert (0 ≤ val / base < base ^ Z.of_nat k) as Hq by (split; [apply Z.div_pos; lia|apply Z.div_lt_upper_bound; lia]).
    destruct k as [|k]; [simpl in Hq; lia|].
    destruct (IH (val / base) (setb (i - 1) dc buf) (i - 1) fuel fuel' s) as (buf' & i' & Hrun & Hl & Hi' & Hdr); try done; try lia.
    { rewrite length_setb. lia. }
    rewrite length_setb in Hl. rewrite Hd in Hdr. exists buf', i'. split_and!; try done; lia.
Qed.

Lemma format_int_ok val base zpad len s : I s → 4 ≤ base → 0 ≤ val < 2 ^ 64 →
  format_int putcfn val base zpad len s =
  (Ret (Z.of_nat (length (int_text val base zpad len))), put_all f (int_text val base zpad len) s).
Proof.
  intros Hs Hb Hv. unfold format_int.
  assert (val < base ^ Z.of_nat 40) as Hvb.
  { apply Z.lt_le_trans with (4 ^ 40); [lia|]. apply Z.pow_le_mono_l. lia. }
  destruct (int_digits_ok base 40 val (replicate 40 0) 40 41 40 s) as (buf & i & Hrun & Hl & Hi & Hd);
    [lia|lia|lia|lia|rewrite length_replicate; lia|lia|lia|].
  krun Hrun. rewrite (drop_ge (replicate 40 0)) in Hd by (rewrite length_replicate; lia). rewrite length_replicate in Hl.
  assert (Z.of_nat (length (drop (Z.to_nat i) buf)) = 40 - i) as Hlen by (rewrite length_drop; lia).
  krun (pad_loop_ok (Z.to_nat len) (if zpad then 48 else 32) (40 - i) len 0 s Hs ltac:(lia)).
  rewrite digits_out_ok by (lia || by apply put_all_I). rewrite Hd in *. unfold int_text.
  rewrite put_all_app, length_app, length_replicate, Hlen. do 2 f_equal. lia.
Qed.

Lemma format_str_ok (str : option cstr) len s : I s →
  format_str putcfn str len s = (Ret (Z.of_nat (length (str_text str len))), put_all f (str_text str len) s).
Proof.
  intros Hs. unfold format_str, str_text. set (t := default null_text str). krun (str_out_ok t 0 s Hs).
  rewrite put_all_app, length_app, length_replicate, Z.add_0_l. destruct (Z.ltb_spec (Z.of_nat (length t)) len).
  - cbv zeta. krun (pad_loop_ok (Z.to_nat (len - Z.of_nat (length t))) 32 0 (len - Z.of_nat (length t)) 0 _
      (put_all_I t s Hs) ltac:(lia)). rewrite Z.sub_0_r. cbv delta [mret M_ret]; cbv beta. do 2 f_equal. lia.
  - replace (Z.to_nat (len - Z.of_nat (length t))) with O by lia. simpl. cbv delta [mret M_ret]; cbv beta. do 2 f_equal. lia.
Qed.

(** The conversions print their text. *)
Lemma convert_ok zpad len lcnt p ap s ap' out : I s → 0 ≤ len →
  convert_text zpad len lcnt p ap = Some (ap', out) →
  convert putcfn zpad len lcnt p ap s = (Ret (ap', Z.of_nat (length out)), put_all f out s).
Proof.
  intros Hs Hl. unfold convert, convert_text, va_int, va_str. set (c := deref p).
  assert (∀ z, 0 ≤ u64 z < 2 ^ 64) as Hu64 by (intros; by apply Z.mod_pos_bound).
  destruct (c =? 100); [|destruct ((c =? 117) || (c =? 120))%bool;
    [|destruct (c =? 115); [|destruct (c =? 99); [|destruct (c =? 112)]]]].
  - destruct (arg_reg ap) as [[z ap1]|]; cbn [mbind option_bind]; [|done]. set (ival := if 0 <? lcnt then s64 z else s32 z).
    assert (-2 ^ 63 ≤ ival < 2 ^ 63) as Hi.
    { pose proof (Z.mod_pos_bound (z + 2 ^ 63) (2 ^ 64) eq_refl). pose proof (Z.mod_pos_bound (z + 2 ^ 31) (2 ^ 32) eq_refl).
      unfold ival, s64, s32. destruct (0 <? lcnt); lia. }
    intros [= <- <-]. kret. fold ival. destruct (Z.ltb_spec ival 0).
    + kputc. assert (u64 (- ival) = - ival) as -> by (apply Z.mod_small; lia).
      krun (format_int_ok (- ival) 10 zpad (if 0 <? len then len - 1 else len) _ HI ltac:(lia) ltac:(lia)).
      assert (int_text (- ival) 10 zpad (if 0 <? len then len - 1 else len) = int_text (- ival) 10 zpad (len - 1)) as ->.
      { destruct (Z.ltb_spec 0 len); [done|]. assert (len = 0) as -> by lia. apply int_text_short. }
      cbn [length put_all]. cbv delta [mret M_ret]; cbv beta. do 3 f_equal. lia.
    + assert (u64 ival = ival) as -> by (apply Z.mod_small; lia). by krun (format_int_ok ival 10 zpad len _ Hs ltac:(lia) ltac:(lia)).
  - destruct (arg_reg ap) as [[z ap1]|]; cbn [mbind option_bind]; [|done]. intros [= <- <-]. kret.
    assert (0 ≤ (if 0 <? lcnt then u64 z else u32 z) < 2 ^ 64) as Hi.
    { destruct (0 <? lcnt); [done|]. pose proof (Z.mod_pos_bound z (2 ^ 32) eq_refl). unfold u32. lia. }
    by krun (format_int_ok _ (if c =? 120 then 16 else 10) zpad len _ Hs ltac:(destruct (c =? 120); lia) Hi).
  - destruct (arg_ptr ap) as [[z ap1]|]; cbn [mbind option_bind]; [|done]. intros [= <- <-]. kret.
    by krun (format_str_ok z len _ Hs).
  - destruct (arg_reg ap) as [[z ap1]|]; cbn [mbind option_bind]; [|done]. intros [= <- <-]. kret. by kputc.
  - destruct (arg_reg ap) as [[z ap1]|]; cbn [mbind option_bind]; [|done]. intros [= <- <-]. kret.
    krun (format_str_ok (Some [48; 120]) 2 _ Hs).
    krun (format_int_ok (u64 z) 16 zpad len _ (put_all_I [48; 120] s Hs) ltac:(lia) (Hu64 z)).
    change (str_text (Some [48; 120]) 2) with [48; 120]. cbn [app length put_all].
    rewrite !Nat2Z.inj_succ. cbv delta [mret M_ret]; cbv beta. do 3 f_equal. lia.
  - intros [= <- <-]. kputc. kputc. cbn [length put_all].
    assert ((if ((32 <=? c) && (c <? 127))%bool then c else 63) = if ((c <? 32) || (127 <=? c))%bool then 63 else c) as ->; [|done].
    destruct (Z.ltb_spec c 32), (Z.leb_spec 127 c), (Z.leb_spec 32 c), (Z.ltb_spec c 127); simpl; try done; lia.
Qed.

(** The loop prints the text of the format and counts it. *)
Lemma vgprintf_loop_ok fuel : ∀ p ap nout s out, I s → 0 ≤ nout < 2 ^ 64 →
  text fuel p ap = Some out →
  vgprintf_loop putcfn fuel p ap nout s = (Ret (u64 (nout + Z.of_nat (length out))), put_all f out s).
Proof.
  assert (∀ a b, u64 (u64 a + b) = u64 (a + b)) as Hu by (intros; apply Zplus_mod_idemp_l).
  assert (∀ a, 0 ≤ u64 a < 2 ^ 64) as Hr by (intros; by apply Z.mod_pos_bound).
  induction fuel as [|fuel IH]; intros p ap nout s out Hs Hn; cbn [text vgprintf_loop]; [done|].
  destruct p as [|c r]; [intros [= <-]; cbn [length put_all]; rewrite Z.add_0_r; unfold u64; by rewrite Z.mod_small|].
  destruct (c =? 37).
  - pose proof (width_ok r 0 ltac:(lia)) as [Hw _]. destruct (width r 0) as [len p1]. destruct (prefix p1) as [lcnt p2].
    destruct (convert_text _ _ _ _ _) as [[ap1 o1]|] eqn:Ec; cbn [mbind option_bind]; [|done].
    destruct (text fuel (list.tail p2) ap1) as [rest|] eqn:Et; cbn [mbind option_bind]; [|done]. intros [= <-].
    krun (convert_ok _ _ _ _ _ s _ _ Hs Hw Ec). rewrite (IH _ _ _ _ rest) by (done || by apply put_all_I).
    by rewrite Hu, put_all_app, length_app, Nat2Z.inj_add, Z.add_assoc.
  - destruct (text fuel r ap) as [rest|] eqn:Et; cbn [mbind option_bind]; [|done]. intros [= <-]. kputc.
    rewrite (IH _ _ _ _ rest) by done. cbn [put_all length]. rewrite Hu. do 3 f_equal. lia.
Qed.

Lemma vgprintf_ok fmt ap s out : I s → printed fmt ap = Some out →
  vgprintf putcfn fmt ap s = (Ret (u64 (Z.of_nat (length out))), put_all f out s).
Proof. intros Hs Hp. unfold vgprintf. by rewrite (vgprintf_loop_ok _ fmt ap 0 s out Hs ltac:(lia) Hp), Z.add_0_l. Qed.

End printf_proofs.

(** The kernel's formatter also knows [%i] and a width for [%c]; on formats that
    use neither, the two print the same text. *)
Fixpoint portable_loop (fuel : nat) (p : cstr) : bool :=
  match fuel with
  | O => true
  | S fuel =>
      match p with
      | [] => true
      | c :: r =>
          if c =? 37 then
            let '(len, p) := width r 0 in
            let '(lcnt, p) := prefix p in
            (negb (deref p =? 105) && (negb (deref p =? 99) || (len <=? 1)) && portable_loop fuel (list.tail p))%bool
          else portable_loop fuel r
      end
  end.
Definition portable (fmt : cstr) : bool := portable_loop (S (length fmt)) fmt.

Lemma convert_text_kernel zpad len lcnt p ap :
  (negb (deref p =? 105) && (negb (deref p =? 99) || (len <=? 1)))%bool = true →
  convert_text zpad len lcnt p ap = Str.convert_text zpad len lcnt p ap.
Proof.
  intros [Hi Hc]%andb_true_iff. apply negb_true_iff in Hi. unfold convert_text, Str.convert_text. rewrite Hi, orb_false_r.
  destruct (Z.eqb_spec (deref p) 99) as [->|]; [|done]. cbn [negb orb] in Hc. apply Z.leb_le in Hc. cbn [Z.eqb Pos.eqb orb].
  destruct (arg_reg ap) as [[z ap']|]; [|done]. cbn [mbind option_bind]. unfold char_text.
  by replace (Z.to_nat (len - 1)) with O by lia.
Qed.

Lemma printed_kernel fmt ap : portable fmt = true → printed fmt ap = Str.printed fmt ap.
Proof.
  unfold portable, printed, Str.printed. generalize (S (length fmt)). intros fuel. revert fmt ap.
  induction fuel as [|fuel IH]; intros p ap; cbn [portable_loop text Str.text]; [done|]. destruct p as [|c r]; [done|].
  destruct (c =? 37).
  - destruct (width r 0) as [len p1], (prefix p1) as [lcnt p2]. intros [Hc Hp]%andb_true_iff. rewrite convert_text_kernel by done.
    destruct (Str.convert_text _ _ _ _ _) as [[ap' o]|]; [|done]. cbn [mbind option_bind]. by rewrite IH.
  - intros Hp. by rewrite IH.
Qed.

(** ** Output to a bounded buffer *)

Definition vok (st : vsnprintf_state) : Prop := 0 ≤ rem st ∧ rem st = Z.of_nat (length (vbuf st)) - Z.of_nat (pos st).

Lemma vsnprintf_putc_ok c st : vok st → vsnprintf_putc c st = (Ret tt, Str.vsnprintf_putc c st) ∧ vok (Str.vsnprintf_putc c st).
Proof.
  unfold vok, vsnprintf_putc, Str.vsnprintf_putc. intros E. destruct (Z.leb_spec (rem st) 1); [done|].
  rewrite decide_True by lia. split; [done|]. cbn [rem vbuf pos]. rewrite length_insert. lia.
Qed.

Lemma put_all_vok out st : vok st → vok (put_all Str.vsnprintf_putc out st).
Proof.
  revert st. induction out as [|c out IH]; intros st Hst; cbn [put_all]; [done|].
  apply IH. by apply (vsnprintf_putc_ok c).
Qed.

Lemma vsnprintf_ok buf fmt ap out : printed fmt ap = Some out →
  vsnprintf fmt ap buf (Z.of_nat (length buf)) =
  (Ret (u64 (Z.of_nat (length out))),
   let k := Nat.min (length out) (length buf - 1) in take (length buf) (take k out ++ [0]) ++ drop (S k) buf).
Proof.
  intros Hp. unfold vsnprintf. assert (vok (VState buf 0 (Z.of_nat (length buf)))) as Hv by (unfold vok; simpl; lia).
  rewrite (vgprintf_ok vsnprintf_putc vok Str.vsnprintf_putc vsnprintf_putc_ok fmt ap _ out Hv Hp).
  rewrite <- put_all_terminated. pose proof (put_all_vok out _ Hv) as Hv'. cbv zeta. unfold vok in Hv'.
  destruct (Z.eqb_spec (rem (put_all Str.vsnprintf_putc out (VState buf 0 (Z.of_nat (length buf))))) 0) as [E|E]; cbn [negb]; [done|].
  rewrite decide_True; [done|lia].
Qed.

(** C21. [snprintf] of the user library into a buffer of [bufsz] bytes: whatever
    the format, when the arguments fit it, the text cut to [bufsz - 1]
    characters and a NUL are stored and the length of the whole text is
    returned; the digit buffer of [format_int] and the caller's buffer are never
    left.  On formats without [%i] and without a width for [%c] the text is the
    one the kernel's library prints. *)
Theorem user_snprintf_correct buf fmt ap out : printed fmt ap = Some out →
  snprintf buf (Z.of_nat (length buf)) fmt ap =
    (Ret (u64 (Z.of_nat (length out))),
     let k := Nat.min (length out) (length buf - 1) in take (length buf) (take k out ++ [0]) ++ drop (S k) buf) ∧
  (portable fmt = true → Str.printed fmt ap = Some out).
Proof. intros Hp. split; [by apply vsnprintf_ok|]. intros Hport. by rewrite <- printed_kernel. Qed.

(** ** Terminals behind descriptors *)

(** What a terminal behind the descriptor [fd] does: a character written is
    appended to its output, and a read of one character delivers the next one. *)
Class TermSys {K : Type} (_read : Z → Z → M K (Z * list Z)) (_write : Z → list Z → M K Z) (fd : Z) := {
  t_out : K → list Z;
  t_in : K → list Z;
  t_write : ∀ k c, ∃ k', _write fd [c] k = (Ret 1, k') ∧ t_out k' = t_out k ++ [c] ∧ t_in k' = t_in k;
  t_read : ∀ k c r, t_in k = c :: r →
    ∃ k', _read fd 1 k = (Ret (1, [c]), k') ∧ t_out k' = t_out k ∧ t_in k' = r;
}.

Section terminal.
Context {K : Type} (_read : Z → Z → M K (Z * list Z)) (_write : Z → list Z → M K Z) (fd : Z).
Context `{!TermSys _read _write fd}.
Implicit Types (st : ustate K) (t : Console.tty).

(** The state of the descriptor is that of a console. *)
Definition is_tty st t : Prop :=
  t_out (kst st) = Console.out t ∧ t_in (kst st) = Console.inp t ∧
  pcprev st !! Z.to_nat fd = Some (Console.put_prev t) ∧ gcprev st !! Z.to_nat fd = Some (Console.get_prev t).

Hypothesis fd_ok : 0 ≤ fd.

Lemma write1_ok st t c : is_tty st t →
  ∃ st', write1 _write fd c st = (Ret tt, st') ∧
    is_tty st' (Console.Tty (Console.out t ++ [c]) (Console.inp t) (Console.put_prev t) (Console.get_prev t)).
Proof.
  intros (Ho & Hi & Hp & Hg). destruct (t_write (kst st) c) as (k' & Hw & Ho' & Hi').
  eexists. split; [unfold write1, on_kernel, mbind, M_bind; by rewrite Hw|]. unfold is_tty. cbn. split_and!; congruence.
Qed.

Lemma prev_at_ok (a : ustate K → list Z) st c : a st !! Z.to_nat fd = Some c → prev_at a fd st = (Ret c, st).
Proof. intros Ha. unfold prev_at. rewrite (proj2 (Z.leb_le 0 fd)) by done. by rewrite Ha. Qed.

Lemma set_pcprev_ok st t c : is_tty st t →
  ∃ st', set_pcprev fd c st = (Ret tt, st') ∧ is_tty st' (Console.Tty (Console.out t) (Console.inp t) c (Console.get_prev t)).
Proof.
  intros (Ho & Hi & Hp & Hg). unfold set_pcprev. krun (prev_at_ok pcprev st _ Hp). eexists. split; [reflexivity|].
  unfold is_tty. cbn. split_and!; try done. apply list_lookup_insert_eq. by eapply lookup_lt_Some.
Qed.

Lemma set_gcprev_ok st t c : is_tty st t →
  ∃ st', set_gcprev fd c st = (Ret tt, st') ∧ is_tty st' (Console.Tty (Console.out t) (Console.inp t) (Console.put_prev t) c).
Proof.
  intros (Ho & Hi & Hp & Hg). unfold set_gcprev. krun (prev_at_ok gcprev st _ Hg). eexists. split; [reflexivity|].
  unfold is_tty. cbn. split_and!; try done. apply list_lookup_insert_eq. by eapply lookup_lt_Some.
Qed.

(** The characters sent for [c] behind [p]. *)
Definition sent (p c : Z) : list Z :=
  if c =? CR then [c; LF] else if c =? LF then (if negb (p =? CR) then [CR; c] else [c]) else [c].

Lemma kputc_sent c t :
  Console.kputc c t =
  (Ret tt, Console.Tty (Console.out t ++ sent (Console.put_prev t) c) (Console.inp t) c (Console.get_prev t)).
Proof.
  unfold Console.kputc, sent. change Console.CR with CR. change Console.LF with LF.
  unfold mbind, M_bind, gets, Console.console_device_putc, modify.
  destruct (c =? CR); [cbn; by rewrite <- app_assoc|]. destruct (c =? LF); [|done].
  destruct (negb _); [|done]. cbn. by rewrite <- app_assoc.
Qed.

(** [dputc] does to the terminal what [kputc] does to the console. *)
Lemma dputc_sim st t c : is_tty st t →
  ∃ st', dputc _write fd c st = (Ret tt, st') ∧ is_tty st' (Console.kputc c t).2.
Proof.
  intros Hst. rewrite kputc_sent. unfold dputc, sent. pose proof (prev_at_ok pcprev st _ (proj1 (proj2 (proj2 Hst)))) as Hprev.
  destruct (c =? CR); [|destruct (c =? LF); [destruct (negb (Console.put_prev t =? CR)) eqn:Ep|]].
  - destruct (write1_ok st t c Hst) as (s1 & E1 & H1). destruct (write1_ok s1 _ LF H1) as (s2 & E2 & H2).
    destruct (set_pcprev_ok s2 _ c H2) as (s3 & E3 & H3). exists s3. rewrite bind_bind. krun E1. krun E2.
    cbn in H3. by rewrite <- app_assoc in H3.
  - destruct (write1_ok st t CR Hst) as (s1 & E1 & H1). destruct (write1_ok s1 _ c H1) as (s2 & E2 & H2).
    destruct (set_pcprev_ok s2 _ c H2) as (s3 & E3 & H3). exists s3. rewrite !bind_bind. krun Hprev. rewrite Ep, bind_bind. krun E1. krun E2.
    cbn in H3. by rewrite <- app_assoc in H3.
  - destruct (write1_ok st t c Hst) as (s2 & E2 & H2). destruct (set_pcprev_ok s2 _ c H2) as (s3 & E3 & H3). exists s3.
    rewrite !bind_bind. krun Hprev. rewrite Ep, bind_bind. kret. by krun E2.
  - destruct (write1_ok st t c Hst) as (s2 & E2 & H2). destruct (set_pcprev_ok s2 _ c H2) as (s3 & E3 & H3). exists s3.
    by krun E2.
Qed.

(** The same for a whole text. *)
Lemma dputs_loop_sim str : ∀ st t, is_tty st t →
  ∃ st', dputs_loop _write fd str st = (Ret tt, st') ∧ is_tty st' (put_all Console.vprintf_putc str t).
Proof.
  induction str as [|c str IH]; intros st t Hst; cbn [dputs_loop put_all]; [by exists st|].
  destruct (dputc_sim st t c Hst) as (s1 & E1 & H1). krun E1. by apply IH.
Qed.

(** [dgetc] delivers what [kgetc] delivers. *)
Lemma dgetc_loop_sim fuel : ∀ stack st t c t', is_tty st t →
  Console.kgetc_loop fuel t = (Ret c, t') →
  ∃ st', dgetc_loop _read fuel fd stack st = (Ret c, st') ∧ is_tty st' t'.
Proof.
  induction fuel as [|fuel IH]; intros stack st t c t' Hst; cbn [Console.kgetc_loop dgetc_loop]; [done|].
  unfold Console.console_device_getc at 1, mbind at 1, M_bind at 1. destruct (Console.inp t) as [|x r] eqn:Ei; [done|]. kgets.
  cbn [Console.get_prev]. destruct Hst as (Ho & Hi & Hp & Hg).
  assert (t_in (kst st) = x :: r) as Hi1 by congruence. destruct (t_read (kst st) x r Hi1) as (k' & Hr & Ho' & Hi').
  set (t1 := Console.Tty _ _ _ _).
  assert (on_kernel (_read fd 1) st = (Ret (1, [x]), UState (pcprev st) (gcprev st) k')) as Hk by (unfold on_kernel; by rewrite Hr).
  assert (is_tty (UState (pcprev st) (gcprev st) k') t1) as H1 by (unfold is_tty; cbn; split_and!; congruence).
  krun Hk. cbv beta iota zeta. change (default stack (list.head [x])) with x. change Console.CR with CR. change Console.LF with LF.
  destruct (x =? LF); cbn [andb]; [|intros [= <- <-]; by eexists].
  krun (prev_at_ok gcprev (UState (pcprev st) (gcprev st) k') _ Hg).
  destruct (Console.get_prev t =? CR); [by apply IH|]. intros [= <- <-]. by eexists.
Qed.

(** More passes than the input is long change nothing. *)
Lemma kgetc_loop_mono (fuel fuel' : nat) : ∀ t c t', (fuel ≤ fuel')%nat →
  Console.kgetc_loop fuel t = (Ret c, t') → Console.kgetc_loop fuel' t = (Ret c, t').
Proof.
  revert fuel'. induction fuel as [|fuel IH]; intros [|fuel'] t c t' Hf; try lia; [done|done|]. cbn [Console.kgetc_loop].
  unfold Console.console_device_getc at 1 2, mbind at 1 3, M_bind at 1 3. destruct (Console.inp t) as [|x r]; [done|]. kgets. kgets.
  destruct (_ && _)%bool; [|done]. apply IH. lia.
Qed.

Lemma dgetc_sim (fuel : nat) stack st t c t' : is_tty st t → (length (Console.inp t) < fuel)%nat →
  Console.kgetc t = (Ret c, t') →
  ∃ st', dgetc _read fuel stack fd st = (Ret c, st') ∧ is_tty st' t'.
Proof.
  intros Hst Hf. unfold Console.kgetc, dgetc. kgets. unfold mbind at 1, M_bind at 1.
  destruct (Console.kgetc_loop _ t) as [[x|rc| |] t1] eqn:El; try done.
  apply (kgetc_loop_mono _ fuel) in El; [|lia]. destruct (dgetc_loop_sim fuel stack st t x t1 Hst El) as (s1 & E1 & H1).
  kmodify. intros [= <- <-]. krun E1. destruct (set_gcprev_ok s1 t1 x H1) as (s2 & E2 & H2). krun E2. by eexists.
Qed.

(** Formatted output does to the terminal what the kernel's does to the console. *)
Lemma dputc_fun st t c : is_tty st t →
  dputc _write fd c st = (Ret tt, (dputc _write fd c st).2) ∧ is_tty (dputc _write fd c st).2 (Console.kputc c t).2.
Proof. intros Hst. by destruct (dputc_sim st t c Hst) as (st' & -> & ?). Qed.

Lemma put_all_sim text : ∀ st t, is_tty st t →
  is_tty (put_all (λ c st, (dputc _write fd c st).2) text st) (put_all Console.vprintf_putc text t).
Proof. induction text as [|c text IH]; intros st t Hst; cbn [put_all]; [done|]. apply IH. by apply dputc_fun. Qed.

Lemma vgprintf_tty fmt ap text st t : is_tty st t → printed fmt ap = Some text →
  ∃ st', vgprintf (dvprintf_putc _write fd) fmt ap st = (Ret (u64 (Z.of_nat (length text))), st') ∧
    is_tty st' (put_all Console.vprintf_putc text t).
Proof.
  intros Hst Hp. eexists. split; [|by apply put_all_sim].
  apply (vgprintf_ok _ (λ st, ∃ t, is_tty st t)); [|by exists t|done].
  intros c s [t1 H1]. destruct (dputc_fun s t1 c H1) as [E H2]. split; [exact E|by eexists].
Qed.

(** What the terminal shows and what it will deliver. *)
Lemma is_tty_text text st t st' : CR ∉ text → is_tty st t → Console.put_prev t ≠ CR →
  is_tty st' (put_all Console.vprintf_putc text t) →
  t_out (kst st') = t_out (kst st) ++ (text ≫= Console.crlf) ∧ t_in (kst st') = t_in (kst st).
Proof.
  intros Hcr (Ho & Hi & _) Hp (Ho' & Hi' & _). destruct (Console.put_all_crlf text t Hcr Hp) as (p & E & _).
  rewrite E in Ho', Hi'. cbn in Ho', Hi'. split; congruence.
Qed.

(** *** Lines *)

Lemma kgetc_loop_short fuel : ∀ t c t', Console.kgetc_loop fuel t = (Ret c, t') → (length (Console.inp t') < length (Console.inp t))%nat.
Proof.
  induction fuel as [|fuel IH]; intros t c t'; cbn [Console.kgetc_loop]; [done|].
  unfold Console.console_device_getc at 1, mbind at 1, M_bind at 1. destruct (Console.inp t) as [|x r]; [done|]. kgets.
  destruct (_ && _)%bool; [|intros [= <- <-]; simpl; lia]. intros H%IH. simpl in *. lia.
Qed.

Lemma kgetc_short t c t' : Console.kgetc t = (Ret c, t') → (length (Console.inp t') < length (Console.inp t))%nat.
Proof.
  unfold Console.kgetc. kgets. unfold mbind at 1, M_bind at 1.
  destruct (Console.kgetc_loop _ t) as [[x|rc| |] t1] eqn:El; try done. apply kgetc_loop_short in El. kmodify. by intros [= <- <-].
Qed.

Lemma put_at_store buf (i v : Z) (st : ustate K) b t t' :
  Console.store buf i v t = (Ret b, t') → put_at buf i v st = (Ret b, st) ∧ t' = t.
Proof. unfold Console.store, put_at. destruct (_ && _)%bool; [|done]. by intros [= <- <-]. Qed.
End terminal.

(** The line editor on the console descriptor is the kernel's. *)
Section getsn.
Context {K : Type} (_read : Z → Z → M K (Z * list Z)) (_write : Z → list Z → M K Z).
Context `{!TermSys _read _write UART_DESC}.
Implicit Types (st : ustate K) (t : Console.tty).

Lemma putc_sim st t c : is_tty _read _write UART_DESC st t →
  ∃ st' t', putc _write c st = (Ret tt, st') ∧ Console.kputc c t = (Ret tt, t') ∧
    Console.inp t' = Console.inp t ∧ is_tty _read _write UART_DESC st' t'.
Proof.
  intros Hst. destruct (dputc_sim _ _ UART_DESC ltac:(done) st t c Hst) as (st' & E & H').
  exists st', (Console.kputc c t).2. split_and!; [exact E|by rewrite (kputc_sent c t)|by rewrite (kputc_sent c t)|done].
Qed.

#[local] Ltac uputc := match goal with
  | H : is_tty _ _ _ ?st ?t |- context [(putc _ ?c ≫= _) ?st] =>
      let s' := fresh "st" in let t' := fresh "t" in let E := fresh "E" in let E' := fresh "E" in
      let Hi := fresh "Hi" in let H' := fresh "H" in
      destruct (putc_sim st t c H) as (s' & t' & E & E' & Hi & H'); krun E; krun E'
  end.

#[local] Ltac uinp := repeat match goal with H : Console.inp _ = Console.inp _ |- _ => rewrite H; clear H end; lia.

Lemma getsn_loop_sim chars stack fuel : ∀ buf i n st t buf' t', is_tty _read _write UART_DESC st t →
  (length (Console.inp t) < chars)%nat → Console.kgetsn_loop fuel buf i n t = (Ret buf', t') →
  ∃ st', getsn_loop _read _write chars stack fuel buf i n st = (Ret buf', st') ∧ is_tty _read _write UART_DESC st' t'.
Proof.
  induction fuel as [|fuel IH]; intros buf i n st t buf' t' Hst Hch; cbn [Console.kgetsn_loop getsn_loop]; [done|].
  unfold mbind at 1, M_bind at 1. destruct (Console.kgetc t) as [[c|rc| |] t1] eqn:Eg; try done.
  pose proof (kgetc_short t c t1 Eg) as Hl. destruct (dgetc_sim _ _ UART_DESC ltac:(done) chars stack st t c t1 Hst Hch Eg) as (s1 & E1 & H1).
  unfold getc. krun E1. change Console.CR with CR. change Console.LF with LF. change Console.BS with BS. change Console.DEL with DEL.
  change Console.BEL with BEL.
  destruct (c =? CR); [apply IH; done || lia|]. destruct (c =? LF).
  { uputc. intros Hstore. destruct (put_at_store buf i 0 st0 _ _ _ Hstore) as [-> ->]. by eexists. }
  destruct (_ || _)%bool; [destruct (negb (i =? 0)); [|apply IH; done || lia]|destruct (1 <? n)].
  - uputc. uputc. uputc. apply IH; [done|uinp].
  - uputc. unfold mbind at 1, M_bind at 1. destruct (Console.store buf i c t0) as [[b|rc| |] t2] eqn:Es; try done.
    destruct (put_at_store buf i c st0 _ _ _ Es) as [E2 ->]. krun E2. apply IH; [done|uinp].
  - uputc. apply IH; [done|uinp].
Qed.

(** [getsn] on the console descriptor is the line editor of the kernel, and
    never writes outside the caller's buffer: given a buffer of [n] bytes,
    0 < n, it returns when a line end arrives, with the characters typed, less
    those erased and those beyond [n - 1], followed by a NUL; what comes behind
    the line end is left for the next call. *)
Lemma user_getsn_line st buf cs rest g p (fuel : nat) (stack : Z) :
  (0 < length buf)%nat → Z.of_nat (length buf) < 2 ^ 64 →
  gcprev st !! Z.to_nat UART_DESC = Some g → pcprev st !! Z.to_nat UART_DESC = Some p →
  Console.cooked g (t_in (kst st)) = cs ++ LF :: rest → LF ∉ cs → (length (t_in (kst st)) < fuel)%nat →
  let line := foldl (Console.edit (length buf)) [] cs in
  ∃ buf' st' g', getsn _read _write fuel stack buf (Z.of_nat (length buf)) st = (Ret buf', st') ∧
    length buf' = length buf ∧ (length line < length buf)%nat ∧ take (S (length line)) buf' = line ++ [0] ∧
    gcprev st' !! Z.to_nat UART_DESC = Some g' ∧ Console.cooked g' (t_in (kst st')) = rest.
Proof.
  intros Hb Hmax Hg Hp Hc Hlf Hf. set (t := Console.Tty (t_out (kst st)) (t_in (kst st)) p g).
  assert (is_tty _read _write UART_DESC st t) as Hst by done.
  destruct (Console.kgetsn_loop_ok fuel t buf [] cs rest) as (b' & t' & Hr & H1 & H2 & H3 & H4); try done.
  rewrite Nat.sub_0_r in Hr. destruct (getsn_loop_sim fuel stack fuel _ _ _ st t b' t' Hst Hf Hr) as (st' & Hrun & _ & Hi & _ & Hg').
  exists b', st', (Console.get_prev t'). split_and!; try done. by rewrite Hi.
Qed.
End getsn.

(** ** Formatted output and lines on any descriptor *)

Section lines.
Context {K : Type} (_read : Z → Z → M K (Z * list Z)) (_write : Z → list Z → M K Z) (fd : Z).
Context `{!TermSys _read _write fd}.
Implicit Types (st : ustate K).

(** Formatted output to a descriptor: when the arguments fit the format,
    the terminal behind it receives the text the format denotes with every line
    feed sent as CR LF, in order and nothing else, and its input is not touched;
    [dputs] sends a string and a line end the same way. *)
Lemma user_dprintf_prints fmt ap text st g p :
  0 ≤ fd → printed fmt ap = Some text → CR ∉ text →
  pcprev st !! Z.to_nat fd = Some p → gcprev st !! Z.to_nat fd = Some g → p ≠ CR →
  (∃ st', dprintf _write fd fmt ap st = (Ret tt, st') ∧
     t_out (kst st') = t_out (kst st) ++ (text ≫= Console.crlf) ∧ t_in (kst st') = t_in (kst st)) ∧
  (∃ st', dputs _write fd text st = (Ret tt, st') ∧
     t_out (kst st') = t_out (kst st) ++ (text ≫= Console.crlf) ++ [CR; LF] ∧ t_in (kst st') = t_in (kst st)).
Proof.
  intros Hfd Hpr Hcr Hp Hg Hne. set (t := Console.Tty (t_out (kst st)) (t_in (kst st)) p g).
  assert (is_tty _read _write fd st t) as Hst by done. split.
  - destruct (vgprintf_tty _read _write fd Hfd fmt ap text st t Hst Hpr) as (st' & Hrun & H').
    exists st'. split; [unfold dprintf; by krun Hrun|]. by apply (is_tty_text _read _write fd text st t).
  - destruct (dputs_loop_sim _read _write fd Hfd text st t Hst) as (s1 & E1 & H1).
    destruct (dputc_sim _read _write fd Hfd s1 _ LF H1) as (s2 & E2 & H2). exists s2. split; [unfold dputs; by krun E1|].
    destruct (is_tty_text _read _write fd (text ++ [LF]) st t s2) as [Ho Hi]; try done.
    + rewrite elem_of_app, list_elem_of_singleton. intros [?|?]; done.
    + rewrite put_all_app. done.
    + rewrite Ho, bind_app. split; [done|exact Hi].
Qed.

(** [dgetsn] reads up to a NUL or a line end and keeps what fits. *)
Lemma dgetsn_loop_ok stack chars fuel : ∀ st t buf line cs e rest,
  0 ≤ fd → is_tty _read _write fd st t → (length (Console.inp t) < chars)%nat → (length (Console.inp t) < fuel)%nat →
  (length line < length buf)%nat → take (length line) buf = line →
  Console.coming t = cs ++ e :: rest → 0 ∉ cs → LF ∉ cs → e = 0 ∨ e = LF →
  let line' := take (length buf - 1) (line ++ cs) in
  ∃ buf' st' t', dgetsn_loop _read chars stack fuel fd buf (Z.of_nat (length line)) (Z.of_nat (length buf - length line)) st = (Ret buf', st') ∧
    length buf' = length buf ∧ take (S (length line')) buf' = line' ++ [0] ∧ is_tty _read _write fd st' t' ∧ Console.coming t' = rest.
Proof.
  induction fuel as [|fuel IH]; intros st t buf line cs e rest Hfd Hst Hch Hf Hl Hline Hc H0 HLF He; [lia|]. cbn [dgetsn_loop].
  destruct cs as [|c cs]; cbn [app] in Hc.
  - destruct (Console.kgetc_ok t e rest Hc) as (t1 & Eg & Hc1 & _).
    destruct (dgetc_sim _read _write fd Hfd chars stack st t e t1 Hst Hch Eg) as (s1 & E1 & H1). krun E1.
    assert (((e =? 0) || (e =? LF))%bool = true) as -> by (destruct He as [-> | ->]; done).
    unfold put_at. rewrite (proj2 (Z.leb_le 0 _)), (proj2 (Z.ltb_lt (Z.of_nat (length line)) _)) by lia. cbn [andb].
    do 3 eexists. split; [reflexivity|]. rewrite app_nil_r, (take_ge line) by lia.
    split_and!; [apply length_setb| |done|done].
    unfold setb. rewrite Nat2Z.id, (take_S_r _ _ 0) by (apply list_lookup_insert_eq; lia). by rewrite take_insert_ge, Hline by lia.
  - apply not_elem_of_cons in H0 as [Hc0 H0], HLF as [HcL HLF].
    destruct (Console.kgetc_ok t c (cs ++ e :: rest) Hc) as (t1 & Eg & Hc1 & _ & _ & Hl1).
    destruct (dgetc_sim _read _write fd Hfd chars stack st t c t1 Hst Hch Eg) as (s1 & E1 & H1). krun E1.
    rewrite (proj2 (Z.eqb_neq c 0)), (proj2 (Z.eqb_neq c LF)) by done. cbn [orb].
    destruct (Z.ltb_spec 1 (Z.of_nat (length buf - length line))).
    + unfold put_at. rewrite (proj2 (Z.leb_le 0 _)), (proj2 (Z.ltb_lt (Z.of_nat (length line)) _)) by lia. cbn [andb]. kret.
      destruct (IH s1 t1 (setb (Z.of_nat (length line)) c buf) (line ++ [c]) cs e rest) as (b' & s' & t' & Hr & Hlen & Ht & ?);
        try done; try (rewrite ?length_setb, ?length_app; simpl; lia).
      { rewrite length_app, Nat.add_1_r. unfold setb. rewrite Nat2Z.id, (take_S_r _ _ c) by (apply list_lookup_insert_eq; lia).
        by rewrite take_insert_ge, Hline by lia. }
      rewrite length_setb, <- app_assoc in *. exists b', s', t'. split; [|done]. rewrite <- Hr, length_app. simpl. f_equal; lia.
    + destruct (IH s1 t1 buf line cs e rest) as (b' & s' & t' & Hr & Hlen & Ht & ?); try done; try lia.
      assert (take (length buf - 1) (line ++ c :: cs) = take (length buf - 1) (line ++ cs)) as -> by (by rewrite !take_app_le by lia).
      by exists b', s', t'.
Qed.
End lines.

(** ** Witnesses *)

(** A terminal that keeps its two streams, behind every descriptor. *)
Definition demo_read (fd n : Z) : M (list Z * list Z) (Z * list Z) := λ k,
  match k.2 with
  | [] => (Ret (0, []), k)
  | c :: r => (Ret (1, [c]), (k.1, r))
  end.
Definition demo_write (fd : Z) (bs : list Z) : M (list Z * list Z) Z := λ k,
  (Ret (Z.of_nat (length bs)), (k.1 ++ bs, k.2)).

#[export] Instance demo_term fd : TermSys demo_read demo_write fd.
Proof.
  refine {| t_out := fst; t_in := snd |}.
  - intros [o i] c. by eexists.
  - intros [o i] c r E. simpl in E. subst. by eexists.
Defined.

(** "ab", backspace, "c", return, "d" will be typed. *)
Definition demo_state : ustate (list Z * list Z) := UState (replicate NDEV 0) (replicate NDEV 0) ([], [97; 98; 8; 99; 13; 10; 100]).

Lemma user_getsn_line_witness :
  ∃ buf' st', getsn demo_read demo_write 8 0 [1; 1; 1; 1] 4 demo_state = (Ret buf', st') ∧ take 3 buf' = [97; 99; 0].
Proof.
  destruct (user_getsn_line demo_read demo_write demo_state [1; 1; 1; 1] [97; 98; 8; 99] [100] 0 0 8 0)
    as (b & s' & g' & Hrun & _ & _ & Ht & _); [simpl; lia|simpl; lia|done|done|done|set_solver|simpl; lia|].
  exists b, s'. split; [exact Hrun|exact Ht].
Defined.

(** "%d%c" and a line feed with 12 and "!" *)
Lemma user_dprintf_prints_witness :
  ∃ st', dprintf demo_write 1 [37; 100; 37; 99; 10] [VReg 12; VReg 33] demo_state = (Ret tt, st') ∧ (kst st').1 = [49; 50; 33; 13; 10].
Proof.
  destruct (user_dprintf_prints demo_read demo_write 1 [37; 100; 37; 99; 10] [VReg 12; VReg 33] [49; 50; 33; 10] demo_state 0 0)
    as [(s' & Hrun & Ho & _) _]; [lia|vm_compute; reflexivity|set_solver|reflexivity|reflexivity|by intros [=]|].
  exists s'. split; [exact Hrun|exact Ho].
Defined.

Lemma user_snprintf_correct_witness :
  snprintf [1; 2; 3; 4; 5] 5 demo_fmt demo_args = (Ret 6, [45; 48; 48; 55; 0]).
Proof.
  destruct (user_snprintf_correct [1; 2; 3; 4; 5] demo_fmt demo_args [45; 48; 48; 55; 97; 98]) as [H _]; [vm_compute; reflexivity|exact H].
Defined.

(** A failed read is not seen by [dgetc]: it delivers what the stack held, here a
    bell, and goes on doing so: a line is never ended by the end of the input. *)
Lemma dgetc_ignores_end :
  (dgetc demo_read 8 7 1 (UState (replicate NDEV 0) (replicate NDEV 0) ([], []))).1 = Ret 7 ∧
  (dgetsn demo_read 100 7 1 [1; 1; 1] 3 (UState (replicate NDEV 0) (replicate NDEV 0) ([], []))).1 = NoFuel.
Proof. split; vm_compute; reflexivity. Qed.

(** [%i] prints itself and takes no argument, a width has no effect on [%c]. *)
Lemma user_formats_differ :
  printed [37; 105] [VReg 5] = Some [37; 105] ∧ Str.printed [37; 105] [VReg 5] = Some [53] ∧
  printed [37; 51; 99] [VReg 65] = Some [65] ∧ Str.printed [37; 51; 99] [VReg 65] = Some [32; 32; 65].
Proof. split_and!; vm_compute; reflexivity. Qed.

End UPrint.
