(* ===== verification/Shell.v ===== *)
(** * The shell (user/shell.c)

    The shell makes system calls, which are the operations of a class; what the
    kernel does for them is stated in a second class, [ShellKernel], as what the
    terminal shows and delivers, the files by name, and the descriptors open for
    reading.  The line buffer and the argument vector are arrays; an access
    outside of them is a [Panic].  [_exit] has no result, so that nothing runs
    behind it. *)

From Stdlib Require Import Ascii String.
From S2P Require Import Prelude Config Strings.

Module Shell.
Import Str.

Definition LINE_MAX : Z := 128.
Definition ARGV_MAX : Z := 8.
Definition UART_FD : Z := 0.
Definition CR : Z := 13.
Definition LF : Z := 10.
Definition BS : Z := 8.
Definition DEL : Z := 127.
Definition crlf : cstr := [CR; LF].

Definition KNOWN_FILES : list cstr := [chars "fib"; chars "hello"; chars "init"; chars "trekfib"; chars "shell"].

(** ** System calls *)

Class SysCalls (K : Type) := {
  _read : Z → Z → M K (Z * list Z);      (* the result and the bytes stored *)
  _write : Z → list Z → M K Z;
  _devopen : Z → cstr → Z → M K Z;
  _fsopen : Z → cstr → M K Z;
  _close : Z → M K Z;
  _fork : M K Z;
  _exec : Z → list cstr → M K Z;
  _wait : Z → M K Z;
  _print : cstr → M K unit;
  _exit : M K Empty_set;
}.

Section shell.
Context `{SysCalls K}.
Implicit Types (fd n p : Z) (buf : list Z) (argv : list (option Z)).

Definition no_fuel {A} : M K A := λ k, (NoFuel, k).
Definition exit {A} : M K A := e ← _exit; match e : Empty_set with end.

(** [a[i]] and [a[i] = v] *)
Definition at_ {A} (a : list A) (i : Z) : M K A := λ k,
  if 0 <=? i then match a !! Z.to_nat i with Some v => (Ret v, k) | None => (Panic, k) end else (Panic, k).
Definition put {A} (a : list A) (i : Z) (v : A) : M K (list A) := _ ← at_ a i; mret (setb i v a).

(** The characters of a string in an array, from [p] on. *)
Fixpoint cstring (fuel : nat) buf p : M K cstr :=
  match fuel with
  | O => no_fuel
  | S fuel => c ← at_ buf p; if c =? 0 then mret [] else s ← cstring fuel buf (p + 1); mret (c :: s)
  end.

Definition say fd (s : cstr) : M K unit := _ ← _write fd s; mret tt.

(** The buffer and the result; [c] is the variable the character is read to. *)
Fixpoint read_line_loop (fuel : nat) fd buf (max n c : Z) : M K (list Z * Z) :=
  match fuel with
  | O => no_fuel
  | S fuel =>
      '(r, got) ← _read fd 1;
      let c := default c (list.head got) in
      if r <=? 0 then
        buf ← put buf n 0;
        mret (buf, if 0 <? n then n else -1)
      else if ((c =? CR) || (c =? LF))%bool then
        say fd crlf;;
        buf ← put buf n 0;
        mret (buf, n)
      else if ((c =? DEL) || (c =? BS))%bool then
        if 0 <? n then say fd [BS; 32; BS];; read_line_loop fuel fd buf max (n - 1) c
        else read_line_loop fuel fd buf max n c
      else if n <? max - 1 then
        buf ← put buf n c;
        _ ← _write fd [c];
        read_line_loop fuel fd buf max (n + 1) c
      else read_line_loop fuel fd buf max n c
  end.
Definition read_line (fuel : nat) fd buf (max stack : Z) : M K (list Z * Z) := read_line_loop fuel fd buf max 0 stack.

(** *** Words *)

Definition blank (c : Z) : bool := (c =? 32) || (c =? 9).

Fixpoint skip_blanks (fuel : nat) buf p : M K Z :=
  match fuel with
  | O => no_fuel
  | S fuel => c ← at_ buf p; if blank c then skip_blanks fuel buf (p + 1) else mret p
  end.
Fixpoint skip_word (fuel : nat) buf p : M K Z :=
  match fuel with
  | O => no_fuel
  | S fuel => c ← at_ buf p; if (negb (c =? 0) && negb (blank c))%bool then skip_word fuel buf (p + 1) else mret p
  end.

(** [room] is [max_argv - 1 - argc].  A walk inside [buf] ends at its end at the
    latest. *)
Fixpoint tokenize_loop (room : nat) buf argv (argc p : Z) : M K (list Z * list (option Z) * Z) :=
  match room with
  | O => mret (buf, argv, argc)
  | S room =>
      p ← skip_blanks (S (length buf)) buf p;
      c ← at_ buf p;
      if c =? 0 then mret (buf, argv, argc)
      else
        argv ← put argv argc (Some p);
        p ← skip_word (S (length buf)) buf p;
        c ← at_ buf p;
        if negb (c =? 0) then
          buf ← put buf p 0;
          tokenize_loop room buf argv (argc + 1) (p + 1)
        else tokenize_loop room buf argv (argc + 1) p
  end.

(** The buffer, the argument vector and the number of arguments; a pointer into
    the buffer is its offset. *)
Definition tokenize buf argv (max_argv : Z) : M K (list Z * list (option Z) * Z) :=
  '(buf, argv, argc) ← tokenize_loop (Z.to_nat (max_argv - 1)) buf argv 0 0;
  argv ← put argv argc None;
  mret (buf, argv, argc).

(** *** Commands *)

Fixpoint ls_loop fd (names : list cstr) : M K unit :=
  match names with
  | [] => mret tt
  | n :: names =>
      probe ← _fsopen (-1) n;
      (if 0 <=? probe then say fd n;; say fd crlf;; _ ← _close probe; mret tt else mret tt);;
      ls_loop fd names
  end.
Definition cmd_ls fd : M K unit := ls_loop fd KNOWN_FILES.

Fixpoint cat_loop (fuel : nat) fd (ffd : Z) : M K unit :=
  match fuel with
  | O => no_fuel
  | S fuel =>
      '(n, got) ← _read ffd 256;
      if 0 <? n then _ ← _write fd (take (Z.to_nat n) got); cat_loop fuel fd ffd else mret tt
  end.

Definition cannot_open fd (cmd name : cstr) : M K unit :=
  say fd (cmd ++ chars ": cannot open '");; say fd name;; say fd (chars "'" ++ crlf).

Definition cmd_cat (fuel : nat) fd (name : cstr) : M K unit :=
  ffd ← _fsopen (-1) name;
  if ffd <? 0 then cannot_open fd (chars "cat") name
  else cat_loop fuel fd ffd;; _ ← _close ffd; mret tt.

Definition cmd_run fd (name : cstr) : M K unit :=
  ffd ← _fsopen (-1) name;
  if ffd <? 0 then cannot_open fd (chars "run") name
  else
    tid ← _fork;
    (if tid =? 0 then _ ← _exec ffd [name]; exit else mret tt);;
    if tid <? 0 then
      say fd (chars "run: fork failed" ++ crlf);;
      _ ← _close ffd; mret tt
    else
      _ ← _close ffd;
      _ ← _wait tid;
      mret tt.

(** *** The loop *)

(** The string an argument points to. *)
Definition arg buf argv (i : Z) : M K cstr :=
  a ← at_ argv i;
  match a with Some p => cstring (S (length buf)) buf p | None => panic end.

Definition is_word (s : cstr) (w : string) : bool := strcmp (Some s) (Some (chars w)) =? 0.

(** The commands: whether the loop goes on. *)
Definition dispatch (fuel : nat) buf argv (argc : Z) : M K bool :=
  w ← arg buf argv 0;
  if is_word w "exit" then mret false
  else if is_word w "help" then
    say UART_FD (chars "commands: ls | cat <file> | run <name> | help | exit" ++ crlf);; mret true
  else if is_word w "ls" then cmd_ls UART_FD;; mret true
  else if is_word w "cat" then
    (if argc <? 2 then say UART_FD (chars "usage: cat <file>" ++ crlf)
     else name ← arg buf argv 1; cmd_cat fuel UART_FD name);;
    mret true
  else if is_word w "run" then
    (if argc <? 2 then say UART_FD (chars "usage: run <name>" ++ crlf)
     else name ← arg buf argv 1; cmd_run UART_FD name);;
    mret true
  else
    say UART_FD (chars "unknown command: ");; say UART_FD w;; say UART_FD crlf;; mret true.

Fixpoint main_loop (chars_ fuel : nat) line argv : M K unit :=
  match fuel with
  | O => no_fuel
  | S fuel =>
      say UART_FD (chars "$ ");;
      '(line, n) ← read_line chars_ UART_FD line LINE_MAX 0;
      if n <? 0 then mret tt
      else if n =? 0 then main_loop chars_ fuel line argv
      else
        '(line, argv, argc) ← tokenize line argv ARGV_MAX;
        if argc =? 0 then main_loop chars_ fuel line argv
        else
          go_on ← dispatch chars_ line argv argc;
          if (go_on : bool) then main_loop chars_ fuel line argv else mret tt
  end.

(** [fuel] bounds the passes of every loop, [line] and [argv] are the arrays on
    the stack. *)
Definition main (fuel : nat) line argv : M K unit :=
  r ← _devopen UART_FD (chars "uart") 1;
  (if r <? 0 then _print (chars "shell: failed to open uart" ++ [LF]);; exit else mret tt);;
  say UART_FD (chars "riscv-mini-os shell" ++ crlf);;
  say UART_FD (chars "type 'help' for commands" ++ crlf);;
  main_loop fuel fuel line argv;;
  exit.
End shell.

(** ** Words of a line *)

(** The maximal runs of characters that are not blank. *)
Fixpoint words (cs : cstr) : list cstr :=
  match cs with
  | [] => []
  | c :: r =>
      if blank c then words r
      else match r with
           | [] => [[c]]
           | d :: _ => if blank d then [c] :: words r
                       else match words r with [] => [[c]] | w :: ws => (c :: w) :: ws end
           end
  end.

Definition is_word_text (w : cstr) : Prop := Forall (λ c, blank c = false) w.

Lemma words_blanks bl cs : Forall (λ c, blank c = true) bl → words (bl ++ cs) = words cs.
Proof. induction 1 as [|c bl Hc _ IH]; [done|]. cbn [app words]. by rewrite Hc. Qed.

(** A word is followed by the end of the line or by a blank. *)
Lemma words_word w cs : is_word_text w → w ≠ [] → (cs = [] ∨ ∃ b r, cs = b :: r ∧ blank b = true) →
  words (w ++ cs) = w :: words cs.
Proof.
  intros Hw Hne Hcs. induction Hw as [|c w Hc Hw IH]; [done|]. cbn [app words]. rewrite Hc.
  destruct w as [|d w].
  - cbn [app]. destruct Hcs as [->|(b & r & -> & Hb)]; [done|]. by rewrite Hb.
  - specialize (IH ltac:(done)). cbn [app] in *. apply Forall_cons in Hw as [Hd _]. by rewrite Hd, IH.
Qed.

(** Every line is blanks, a word and the rest, unless it is blank. *)
Lemma line_split cs : ∃ bl w r, cs = bl ++ w ++ r ∧ Forall (λ c, blank c = true) bl ∧ is_word_text w ∧
  (w = [] → r = []) ∧ (r = [] ∨ ∃ b r', r = b :: r' ∧ blank b = true).
Proof.
  assert (∀ cs, ∃ w r, cs = w ++ r ∧ is_word_text w ∧ (r = [] ∨ ∃ b r', r = b :: r' ∧ blank b = true)) as Hword.
  { clear. intros cs. induction cs as [|c cs (w & r & -> & Hw & Hr)]; [exists [], []; split_and!; [done|constructor|by left]|].
    destruct (blank c) eqn:Hc.
    - exists [], (c :: w ++ r). split_and!; [done|constructor|]. right. by exists c, (w ++ r).
    - exists (c :: w), r. split_and!; [done|by constructor|done]. }
  induction cs as [|c cs (bl & w & r & -> & Hbl & Hw & Hwr & Hr)].
  { exists [], [], []. split_and!; [done|constructor|constructor|done|by left]. }
  destruct (blank c) eqn:Hc.
  - exists (c :: bl), w, r. split_and!; try done. by constructor.
  - destruct (Hword (bl ++ w ++ r)) as (w' & r' & E & Hw' & Hr'). exists [], (c :: w'), r'. rewrite E.
    split_and!; [done|constructor|by constructor|done|done].
Qed.

Section words_proofs.
Context `{SysCalls K}.
Implicit Types (buf : list Z) (argv : list (option Z)) (k : K).

Lemma at_ok {A} (a : list A) (i : Z) v k : 0 ≤ i → a !! Z.to_nat i = Some v → at_ a i k = (Ret v, k).
Proof. intros Hi Ha. unfold at_. rewrite (proj2 (Z.leb_le 0 i)) by done. by rewrite Ha. Qed.

Lemma put_ok {A} (a : list A) (i : Z) v k : 0 ≤ i → (Z.to_nat i < length a)%nat → put a i v k = (Ret (setb i v a), k).
Proof.
  intros Hi [x Hx]%lookup_lt_is_Some_2. unfold put. by krun (at_ok a i x k Hi Hx).
Qed.

(** The bytes from [p] on. *)
Lemma drop_lookup buf (p : nat) c r : drop p buf = c :: r → buf !! p = Some c ∧ drop (S p) buf = r.
Proof.
  intros E. split.
  - rewrite <- (Nat.add_0_r p), <- lookup_drop. by rewrite E.
  - rewrite <- Nat.add_1_r, <- drop_drop, E. done.
Qed.

Lemma skip_blanks_ok fuel : ∀ buf (p : nat) bl c r k, drop p buf = bl ++ c :: r →
  Forall (λ c, blank c = true) bl → blank c = false → (length bl < fuel)%nat →
  skip_blanks fuel buf (Z.of_nat p) k = (Ret (Z.of_nat (p + length bl)), k).
Proof.
  induction fuel as [|fuel IH]; intros buf p [|b bl] c r k E Hbl Hc Hf; simpl in Hf; try lia; cbn [skip_blanks app length] in *;
    apply drop_lookup in E as [Hp E]; krun (at_ok buf (Z.of_nat p) _ k ltac:(lia) ltac:(rewrite Nat2Z.id; exact Hp)).
  - rewrite Hc. by rewrite Nat.add_0_r.
  - apply Forall_cons in Hbl as [-> Hbl]. replace (Z.of_nat p + 1) with (Z.of_nat (S p)) by lia.
    rewrite (IH buf (S p) bl c r) by (done || lia). by rewrite Nat.add_succ_r.
Qed.

Lemma skip_word_ok fuel : ∀ buf (p : nat) w c r k, drop p buf = w ++ c :: r →
  is_word_text w → 0 ∉ w → (c = 0 ∨ blank c = true) → (length w < fuel)%nat →
  skip_word fuel buf (Z.of_nat p) k = (Ret (Z.of_nat (p + length w)), k).
Proof.
  induction fuel as [|fuel IH]; intros buf p [|b w] c r k E Hw H0 Hc Hf; simpl in Hf; try lia; cbn [skip_word app length] in *;
    apply drop_lookup in E as [Hp E]; krun (at_ok buf (Z.of_nat p) _ k ltac:(lia) ltac:(rewrite Nat2Z.id; exact Hp)).
  - assert ((negb (c =? 0) && negb (blank c))%bool = false) as -> by (destruct Hc as [-> | ->]; [done|apply andb_false_r]).
    by rewrite Nat.add_0_r.
  - apply Forall_cons in Hw as [-> Hw]. apply not_elem_of_cons in H0 as [Hb H0].
    rewrite (proj2 (Z.eqb_neq b 0)) by done. cbn [negb andb]. replace (Z.of_nat p + 1) with (Z.of_nat (S p)) by lia.
    rewrite (IH buf (S p) w c r) by (done || lia). by rewrite Nat.add_succ_r.
Qed.

(** The string [w] starts at [p] and ends before [q]. *)
Definition holds buf (p : nat) (w : cstr) (q : nat) : Prop := ∃ r, drop p buf = w ++ 0 :: r ∧ (p + length w < q)%nat ∧ 0 ∉ w.

Lemma cstring_ok fuel : ∀ buf (p q : nat) w k, holds buf p w q → (length w < fuel)%nat →
  cstring fuel buf (Z.of_nat p) k = (Ret w, k).
Proof.
  induction fuel as [|fuel IH]; intros buf p q [|c w] k (r & E & Hq & H0) Hf; simpl in Hf; try lia; cbn [cstring app] in *;
    apply drop_lookup in E as [Hp E]; krun (at_ok buf (Z.of_nat p) _ k ltac:(lia) ltac:(rewrite Nat2Z.id; exact Hp)); [done|].
  apply not_elem_of_cons in H0 as [Hc H0]. rewrite (proj2 (Z.eqb_neq c 0)) by done.
  replace (Z.of_nat p + 1) with (Z.of_nat (S p)) by lia.
  assert (holds buf (S p) w q) as Hh by (exists r; split_and!; [done|simpl in *; lia|done]).
  by krun (IH buf (S p) q w k Hh ltac:(lia)).
Qed.

(** A store behind the string, and a later end, do not matter. *)
Lemma holds_setb buf p w q (j : nat) v : holds buf p w q → (q ≤ j)%nat → holds (setb (Z.of_nat j) v buf) p w q.
Proof.
  intros (r & E & Hq & H0) Hj.
  destruct (decide (j < length buf)%nat) as [Hl|Hl]; [|exists r; split; [|done]; unfold setb; rewrite Nat2Z.id, list_insert_ge by lia; done].
  exists (<[j - p - S (length w) := v]> r)%nat. split; [|done]. unfold setb. rewrite Nat2Z.id.
  rewrite drop_insert_ge by lia. rewrite E, insert_app_r_alt by lia. f_equal.
  replace (j - p - length w)%nat with (S (j - p - S (length w))) by lia. done.
Qed.
Lemma holds_mono buf p w (q q' : nat) : holds buf p w q → (q ≤ q')%nat → holds buf p w q'.
Proof. intros (r & ? & ? & ?) ?. exists r. split_and!; try done. lia. Qed.

Lemma setb_put {A} (a : list A) (i : nat) (v : A) : setb (Z.of_nat i) v a = <[i := v]> a.
Proof. unfold setb. by rewrite Nat2Z.id. Qed.

(** What the loop leaves from [p] on, where [ws] are the words it finds: strings
    that end before [p] and arguments before [argc] stay, and every word is a
    string of the new buffer that an argument points to. *)
Record tokens (ws : list cstr) buf argv (argc p : nat) (fin : Prop) buf' argv' : Prop := {
  tk_buf : length buf' = length buf;
  tk_argv : length argv' = length argv;
  tk_end : fin → buf' = buf;
  tk_old : ∀ i, (i < argc)%nat → argv' !! i = argv !! i;
  tk_str : ∀ p0 w, holds buf p0 w p → holds buf' p0 w p;
  tk_new : ∀ i w, ws !! i = Some w →
    ∃ off : nat, argv' !! (argc + i)%nat = Some (Some (Z.of_nat off)) ∧ holds buf' off w (length buf');
}.

Lemma tokens_nil buf argv (argc p : nat) fin : tokens [] buf argv argc p fin buf argv.
Proof. by split. Qed.

(** One more word in front, at [p1]. *)
Lemma tokens_cons w ws buf buf1 argv (argc p p1 p' : nat) (fin fin' : Prop) buf' argv' :
  tokens ws buf1 (setb (Z.of_nat argc) (Some (Z.of_nat p1)) argv) (S argc) p' fin' buf' argv' →
  length buf1 = length buf → (argc < length argv)%nat → (p ≤ p')%nat →
  (∀ p0 w, holds buf p0 w p → holds buf1 p0 w p) →
  (holds buf1 p1 w p' ∧ (p' ≤ length buf)%nat ∨ fin' ∧ holds buf1 p1 w (length buf)) → ¬ fin →
  tokens (w :: ws) buf argv argc p fin buf' argv'.
Proof.
  intros [Hb Ha He Ho Hs Hn] Hl1 Harg Hp Hkeep Hw Hfin. rewrite length_setb in Ha. split; [congruence|done|done| | |].
  - intros i Hi. rewrite Ho by lia. rewrite setb_put. apply list_lookup_insert_ne. lia.
  - intros p0 w0 H0. pose proof (Hkeep p0 w0 H0) as H1. destruct Hw as [_|[Hf _]]; [|by rewrite (He Hf)].
    destruct (Hs p0 w0 (holds_mono _ _ _ _ _ H1 Hp)) as (r & ? & _ & ?). destruct H0 as (_ & _ & ? & _). by exists r.
  - intros [|i] w0; cbn [lookup]; simpl.
    + intros [= <-]. exists p1. rewrite Nat.add_0_r, Ho by lia. rewrite setb_put, list_lookup_insert_eq by done. split; [done|].
      destruct Hw as [[Hw Hpl]|[Hf Hw]]; [|rewrite (He Hf), Hl1; done].
      apply (holds_mono _ _ _ p'); [by apply Hs|]. congruence || lia.
    + intros Hi. rewrite Nat.add_succ_r. by apply Hn.
Qed.

Lemma tokenize_loop_ok room : ∀ buf argv (argc p : nat) cs rest k,
  drop p buf = cs ++ 0 :: rest → 0 ∉ cs → (argc + room < length argv)%nat →
  let ws := take room (words cs) in
  ∃ buf' argv', tokenize_loop room buf argv (Z.of_nat argc) (Z.of_nat p) k = (Ret (buf', argv', Z.of_nat (argc + length ws)), k) ∧
    tokens ws buf argv argc p (cs = []) buf' argv'.
Proof.
  induction room as [|room IH]; intros buf argv argc p cs rest k E H0 Hroom ws.
  { exists buf, argv. subst ws. rewrite take_0. cbn [length tokenize_loop]. rewrite Nat.add_0_r. split; [done|apply tokens_nil]. }
  assert (length (drop p buf) = length cs + S (length rest))%nat as Hlen by (rewrite E, length_app; done).
  rewrite length_drop in Hlen. destruct (line_split cs) as (bl & w & r & -> & Hbl & Hw & Hwr & Hr). cbn [tokenize_loop].
  rewrite !length_app in Hlen. subst ws. rewrite words_blanks by done.
  rewrite !not_elem_of_app in H0. destruct H0 as (_ & H0w & H0r). rewrite <- !app_assoc in E.
  destruct w as [|c w].
  - rewrite (Hwr eq_refl) in *. cbn [app words] in *. rewrite take_nil. cbn [length].
    krun (skip_blanks_ok (S (length buf)) buf p bl 0 rest k E Hbl eq_refl ltac:(lia)).
    assert (buf !! (p + length bl)%nat = Some 0) as Hz.
    { rewrite <- lookup_drop, E, lookup_app_r by lia. by rewrite Nat.sub_diag. }
    krun (at_ok buf (Z.of_nat (p + length bl)) 0 k ltac:(lia) ltac:(rewrite Nat2Z.id; exact Hz)). cbn [Z.eqb].
    exists buf, argv. rewrite Nat.add_0_r. split; [done|apply tokens_nil].
  - cbn [app length] in E, Hlen.
    assert (blank c = false ∧ c ≠ 0) as [Hc Hc0].
    { split; [by apply Forall_cons in Hw as [? _]|]. intros ->. apply H0w. by left. }
    krun (skip_blanks_ok (S (length buf)) buf p bl c _ k E Hbl Hc ltac:(lia)). set (p1 := (p + length bl)%nat).
    assert (drop p1 buf = (c :: w) ++ r ++ 0 :: rest) as E1 by (unfold p1; rewrite <- drop_drop, E, drop_app_length; done).
    destruct (drop_lookup _ _ _ _ E1) as [Hp1 _].
    krun (at_ok buf (Z.of_nat p1) c k ltac:(lia) ltac:(rewrite Nat2Z.id; exact Hp1)).
    rewrite (proj2 (Z.eqb_neq c 0)) by done. krun (put_ok argv (Z.of_nat argc) (Some (Z.of_nat p1)) k ltac:(lia) ltac:(lia)).
    set (argv1 := setb _ _ argv). assert (length argv1 = length argv) as Hl1 by apply length_setb.
    assert (words ((c :: w) ++ r) = (c :: w) :: words r) as -> by (by apply words_word). cbn [firstn length].
    set (p2 := (p1 + length (c :: w))%nat). replace (Z.of_nat argc + 1) with (Z.of_nat (S argc)) by lia.
    replace (argc + S (length (take room (words r))))%nat with (S argc + length (take room (words r)))%nat by lia.
    assert (drop p2 buf = r ++ 0 :: rest) as E2 by (unfold p2; rewrite <- drop_drop, E1, drop_app_length; done).
    destruct Hr as [->|(b & r' & -> & Hb)]; cbn [app] in E2.
    + krun (skip_word_ok (S (length buf)) buf p1 (c :: w) 0 rest k E1 Hw H0w ltac:(by left) ltac:(simpl; lia)). fold p2.
      destruct (drop_lookup _ _ _ _ E2) as [Hp2 _].
      krun (at_ok buf (Z.of_nat p2) 0 k ltac:(lia) ltac:(rewrite Nat2Z.id; exact Hp2)). cbn [Z.eqb negb].
      destruct (IH buf argv1 (S argc) p2 [] rest k E2 H0r ltac:(lia)) as (buf' & argv' & Hrun & Htk).
      exists buf', argv'. split; [exact Hrun|]. eapply tokens_cons; [exact Htk|done|lia|lia|done| |by destruct bl].
      right. split; [done|]. exists rest. split_and!; [done|simpl in *; lia|done].
    + krun (skip_word_ok (S (length buf)) buf p1 (c :: w) b _ k E1 Hw H0w ltac:(by right) ltac:(simpl; lia)). fold p2.
      destruct (drop_lookup _ _ _ _ E2) as [Hp2 E3]. apply not_elem_of_cons in H0r as [Hb0 H0r].
      krun (at_ok buf (Z.of_nat p2) b k ltac:(lia) ltac:(rewrite Nat2Z.id; exact Hp2)).
      rewrite (proj2 (Z.eqb_neq b 0)) by done. cbn [negb]. simpl in Hlen.
      krun (put_ok buf (Z.of_nat p2) 0 k ltac:(lia) ltac:(unfold p2, p1; simpl; lia)). replace (Z.of_nat p2 + 1) with (Z.of_nat (S p2)) by lia.
      assert (words (b :: r') = words r') as -> by (cbn [words]; by rewrite Hb).
      set (buf1 := setb (Z.of_nat p2) 0 buf). assert (drop (S p2) buf1 = r' ++ 0 :: rest) as E4.
      { unfold buf1. rewrite setb_put, drop_insert_lt by lia. done. }
      destruct (IH buf1 argv1 (S argc) (S p2) r' rest k E4 H0r ltac:(lia)) as (buf' & argv' & Hrun & Htk).
      exists buf', argv'. split; [exact Hrun|]. eapply tokens_cons; [exact Htk|apply length_setb|lia|lia| | |by destruct bl].
      * intros p0 w0 H1. apply holds_setb; [done|lia].
      * left. split; [|unfold p2, p1; simpl; lia]. exists (r' ++ 0 :: rest). split_and!; [|unfold p2; lia|done].
        unfold buf1. rewrite setb_put, drop_insert_ge, E1 by (unfold p2; lia).
        replace (p2 - p1)%nat with (length (c :: w)) by (unfold p2; lia). rewrite insert_app_r_alt by lia. by rewrite Nat.sub_diag.
Qed.

Lemma tokenize_ok buf argv cs rest (max : Z) k :
  buf = cs ++ 0 :: rest → 0 ∉ cs → 1 ≤ max ≤ Z.of_nat (length argv) →
  let ws := take (Z.to_nat (max - 1)) (words cs) in
  ∃ buf' argv', tokenize buf argv max k = (Ret (buf', argv', Z.of_nat (length ws)), k) ∧
    length buf' = length buf ∧ length argv' = length argv ∧ argv' !! length ws = Some None ∧
    ∀ (i : nat) w k, ws !! i = Some w → arg buf' argv' (Z.of_nat i) k = (Ret w, k).
Proof.
  intros E H0 Hmax ws. unfold tokenize.
  destruct (tokenize_loop_ok (Z.to_nat (max - 1)) buf argv 0 0 cs rest k) as (buf' & argv' & Hrun & [Hb Ha _ _ _ Hn]);
    [by rewrite drop_0|done|lia|]. krun Hrun. fold ws in Hn |- *. cbn [Nat.add] in Hn |- *.
  assert (length ws < length argv')%nat as Hlt by (rewrite Ha; unfold ws; rewrite length_take; lia).
  krun (put_ok argv' (Z.of_nat (length ws)) None k ltac:(lia) ltac:(lia)).
  exists buf', (setb (Z.of_nat (length ws)) None argv'). rewrite length_setb, setb_put. split_and!; try done.
  - by apply list_lookup_insert_eq.
  - intros i w k' Hw. destruct (Hn i w Hw) as (off & Hoff & Hh). pose proof (lookup_lt_Some _ _ _ Hw). unfold arg.
    krun (at_ok (<[length ws := None]> argv') (Z.of_nat i) (Some (Z.of_nat off)) k' ltac:(lia)
      ltac:(rewrite Nat2Z.id, list_lookup_insert_ne; [exact Hoff|lia])).
    apply (cstring_ok _ _ _ _ _ _ Hh). destruct Hh as (? & _ & ? & _). lia.
Qed.

(** Words joined by blanks are the words of the line. *)
Fixpoint unwords (ws : list cstr) : cstr :=
  match ws with [] => [] | [w] => w | w :: ws => w ++ 32 :: unwords ws end.

Lemma words_unwords ws : Forall (λ w, is_word_text w ∧ w ≠ []) ws → words (unwords ws) = ws.
Proof.
  induction 1 as [|w ws [Hw Hne] Hws IH]; [done|]. cbn [unwords]. destruct ws as [|w' ws].
  - rewrite <- (app_nil_r w) at 1. rewrite words_word by (done || by left). done.
  - rewrite words_word by (done || (right; by eexists _, _)). f_equal. exact IH.
Qed.

(** C18. [tokenize] splits a line into its words: given a buffer that starts with
    the string [cs], it returns the number of words, at most [max_argv - 1], the
    argument vector points to the words in their order, each ended by a NUL that
    replaced the blank behind it, and the entry behind the last is NULL.  Nothing
    outside the two arrays is touched, whatever the line.  A line of words with
    blanks between them gives back those words. *)
Theorem tokenize_words buf argv cs rest (max : Z) k :
  buf = cs ++ 0 :: rest → 0 ∉ cs → 1 ≤ max ≤ Z.of_nat (length argv) →
  let ws := take (Z.to_nat (max - 1)) (words cs) in
  (∃ buf' argv', tokenize buf argv max k = (Ret (buf', argv', Z.of_nat (length ws)), k) ∧
    length buf' = length buf ∧ length argv' = length argv ∧ argv' !! length ws = Some None ∧
    ∀ (i : nat) w k, ws !! i = Some w → arg buf' argv' (Z.of_nat i) k = (Ret w, k)) ∧
  (∀ l, Forall (λ w, is_word_text w ∧ w ≠ []) l → cs = unwords l → words cs = l).
Proof.
  intros E H0 Hmax. split; [by apply (tokenize_ok buf argv cs rest)|]. intros l Hl ->. by apply words_unwords.
Qed.
End words_proofs.

(** ** What the kernel does for the shell *)

(** The characters the terminal will deliver and those it got, the files by
    name that can be opened, what is left to read of the open files, the child
    that runs with what it will print, whether the forks to come will succeed
    (those behind the end of the list do), whether the terminal can be opened,
    and the text on the console. *)
Record view := View {
  v_in : list Z; v_out : list Z; v_files : cstr → option (list Z);
  v_open : gmap Z (list Z); v_child : option (Z * list Z);
  v_forks : list bool; v_uart : bool; v_console : list Z;
}.
Implicit Types (v : view).
Definition with_in v i : view := View i (v_out v) (v_files v) (v_open v) (v_child v) (v_forks v) (v_uart v) (v_console v).
Definition print v o : view := View (v_in v) (v_out v ++ o) (v_files v) (v_open v) (v_child v) (v_forks v) (v_uart v) (v_console v).
Definition with_open v o : view := View (v_in v) (v_out v) (v_files v) o (v_child v) (v_forks v) (v_uart v) (v_console v).
Definition with_child v c : view := View (v_in v) (v_out v) (v_files v) (v_open v) c (v_forks v) (v_uart v) (v_console v).
Definition with_forks v f : view := View (v_in v) (v_out v) (v_files v) (v_open v) (v_child v) f (v_uart v) (v_console v).
Definition print_console v o : view := View (v_in v) (v_out v) (v_files v) (v_open v) (v_child v) (v_forks v) (v_uart v) (v_console v ++ o).

Definition fork_works (f : list bool) : bool := default true (list.head f).

(** [prog data] is what the program with the image [data] prints; every program
    is taken to end and to leave the terminal's input alone.  The terminal, once
    open, does not fail; at the end of its input it delivers nothing.  Opening
    the terminal, opening a file and forking may fail. *)
Class ShellKernel (K : Type) `{SysCalls K} (prog : list Z → list Z) := {
  look : K → view;
  k_devopen : ∀ k, ∃ r k', _devopen UART_FD (chars "uart") 1 k = (Ret r, k') ∧ (v_uart (look k) = true ↔ 0 ≤ r) ∧ look k' = look k;
  k_print : ∀ k bs, ∃ k', _print bs k = (Ret tt, k') ∧ look k' = print_console (look k) bs;
  k_write : ∀ k bs, ∃ r k', _write UART_FD bs k = (Ret r, k') ∧ look k' = print (look k) bs;
  k_read : ∀ k c r, v_in (look k) = c :: r → ∃ k', _read UART_FD 1 k = (Ret (1, [c]), k') ∧ look k' = with_in (look k) r;
  k_read_end : ∀ k, v_in (look k) = [] → ∃ k', _read UART_FD 1 k = (Ret (0, []), k') ∧ look k' = look k;
  k_fsopen : ∀ k name data, v_files (look k) name = Some data → v_open (look k) = ∅ →
    ∃ fd k', _fsopen (-1) name k = (Ret fd, k') ∧ 0 < fd ∧ look k' = with_open (look k) {[fd := data]};
  k_fsopen_none : ∀ k name, v_files (look k) name = None →
    ∃ rc k', _fsopen (-1) name k = (Ret rc, k') ∧ rc < 0 ∧ look k' = look k;
  k_read_file : ∀ k fd data n, v_open (look k) !! fd = Some data → fd ≠ UART_FD → 0 < n →
    ∃ k', _read fd n k = (Ret (Z.of_nat (length (take (Z.to_nat n) data)), take (Z.to_nat n) data), k') ∧
      look k' = with_open (look k) (<[fd := drop (Z.to_nat n) data]> (v_open (look k)));
  k_close : ∀ k fd data, v_open (look k) !! fd = Some data →
    ∃ r k', _close fd k = (Ret r, k') ∧ look k' = with_open (look k) (delete fd (v_open (look k)));
  k_fork : ∀ k fd data, v_open (look k) = {[fd := data]} → v_child (look k) = None →
    ∃ tid k', _fork k = (Ret tid, k') ∧
      if fork_works (v_forks (look k))
      then 0 < tid ∧ look k' = with_child (with_forks (look k) (list.tail (v_forks (look k)))) (Some (tid, prog data))
      else tid < 0 ∧ look k' = with_forks (look k) (list.tail (v_forks (look k)));
  k_wait : ∀ k tid out, v_child (look k) = Some (tid, out) →
    ∃ r k', _wait tid k = (Ret r, k') ∧ look k' = with_child (print (look k) out) None;
  k_exit : ∀ k, ∃ rc k', _exit k = (Fail rc, k') ∧ look k' = look k;
}.

(** ** The session *)

(** One key in the line editor of a buffer of [max] bytes: the line and the echo. *)
Definition key (max : Z) (s : cstr * list Z) (c : Z) : cstr * list Z :=
  let '(line, echo) := s in
  if ((c =? DEL) || (c =? BS))%bool then
    match line with [] => s | _ => (take (length line - 1) line, echo ++ [BS; 32; BS]) end
  else if Z.of_nat (length line) <? max - 1 then (line ++ [c], echo ++ [c]) else s.
Definition typed (max : Z) (cs : list Z) : cstr * list Z := foldl (key max) ([], []) cs.

(** What a string function sees of a line that may hold NULs. *)
Fixpoint until_nul (l : list Z) : cstr := match l with [] => [] | c :: r => if c =? 0 then [] else c :: until_nul r end.

Section spec.
Context (prog : list Z → list Z) (files : cstr → option (list Z)).

Definition missing (cmd : string) (name : cstr) : list Z := chars cmd ++ chars ": cannot open '" ++ name ++ chars "'" ++ crlf.

Definition listing : list Z := KNOWN_FILES ≫= λ n, match files n with Some _ => n ++ crlf | None => [] end.

(** What is printed for a line of words, whether the session goes on, and the
    forks that are left. *)
Definition respond (forks : list bool) (ws : list cstr) : list Z * bool * list bool :=
  match ws with
  | [] => ([], true, forks)
  | w :: args =>
      if decide (w = chars "exit") then ([], false, forks)
      else if decide (w = chars "run") then
        match args with
        | [] => (chars "usage: run <name>" ++ crlf, true, forks)
        | name :: _ =>
            match files name with
            | Some data => (if fork_works forks then prog data else chars "run: fork failed" ++ crlf, true, list.tail forks)
            | None => (missing "run" name, true, forks)
            end
        end
      else (if decide (w = chars "help") then chars "commands: ls | cat <file> | run <name> | help | exit" ++ crlf
            else if decide (w = chars "ls") then listing
            else if decide (w = chars "cat") then
              match args with
              | [] => chars "usage: cat <file>" ++ crlf
              | name :: _ => match files name with Some data => data | None => missing "cat" name end
              end
            else chars "unknown command: " ++ w ++ crlf, true, forks)
  end.

(** The terminal's output for the lines typed. *)
Fixpoint session (forks : list bool) (lines : list (list Z)) : list Z :=
  chars "$ " ++
  match lines with
  | [] => []
  | cs :: lines =>
      let '(line, echo) := typed LINE_MAX cs in
      let '(out, go_on, forks) := respond forks (take 7 (words (until_nul line))) in
      echo ++ crlf ++ out ++ if go_on then session forks lines else []
  end.
End spec.

(** *** Characters of lines and words *)

Lemma words_Forall (P : Z → Prop) cs : Forall P cs → Forall (Forall P) (words cs).
Proof.
  induction 1 as [|c cs Hc Hcs IH]; cbn [words]; [constructor|]. destruct (blank c); [done|].
  destruct cs as [|d cs]; [by repeat constructor|]. destruct (blank d); [by repeat constructor|].
  destruct (words (d :: cs)) as [|w ws]; [by repeat constructor|]. apply Forall_cons in IH as [? ?]. by repeat constructor.
Qed.

Lemma typed_Forall (P : Z → Prop) max cs : ∀ s, Forall P s.1 → Forall P cs → Forall P (foldl (key max) s cs).1.
Proof.
  induction cs as [|c cs IH]; intros [line echo] Hs Hcs; [done|]. apply Forall_cons in Hcs as [Hc Hcs]. cbn [foldl].
  apply IH; [|done]. unfold key. destruct (_ || _)%bool; [destruct line; [done|by apply Forall_take]|].
  destruct (_ <? _); [|done]. apply Forall_app. by repeat constructor.
Qed.

Lemma until_nul_is_cstr l : Forall is_byte l → is_cstr (until_nul l).
Proof.
  induction 1 as [|c l Hc Hl IH]; cbn [until_nul]; [constructor|]. destruct (Z.eqb_spec c 0); [constructor|].
  constructor; [unfold is_byte in *; lia|done].
Qed.
Lemma until_nul_no_nul l : 0 ∉ until_nul l.
Proof.
  induction l as [|c l IH]; cbn [until_nul]; [apply not_elem_of_nil|]. destruct (Z.eqb_spec c 0); [apply not_elem_of_nil|].
  apply not_elem_of_cons. by split.
Qed.
Lemma until_nul_split l r : ∃ r', l ++ 0 :: r = until_nul l ++ 0 :: r'.
Proof.
  induction l as [|c l [r' IH]]; cbn [until_nul app]; [by exists r|]. destruct (Z.eqb_spec c 0) as [->|]; [by eexists|].
  exists r'. cbn [app]. by rewrite IH.
Qed.

Section session_proofs.
Context `{ShellKernel K prog}.
Implicit Types (buf : list Z) (argv : list (option Z)) (k : K).

Lemma print_print v a b : print (print v a) b = print v (a ++ b).
Proof. unfold print. cbn. by rewrite <- app_assoc. Qed.
Lemma print_with_in v a i b : print (with_in (print v a) i) b = with_in (print v (a ++ b)) i.
Proof. unfold print, with_in. cbn. by rewrite <- app_assoc. Qed.

Lemma forks_print v a i f b i' f' :
  with_forks (with_in (print (with_forks (with_in (print v a) i) f) b) i') f' = with_forks (with_in (print v (a ++ b)) i') f'.
Proof. unfold print, with_in, with_forks. cbn [v_in v_out v_files v_open v_child v_forks v_uart v_console]. by rewrite <- app_assoc. Qed.

Lemma say_ok k s : ∃ k', say UART_FD s k = (Ret tt, k') ∧ look k' = print (look k) s.
Proof. destruct (k_write k s) as (r & k' & Hw & Hl). exists k'. split; [unfold say; by krun Hw|done]. Qed.

(** Printing: the next statement is a [say]. *)
Ltac ksay := match goal with
  |- context [(say UART_FD ?s ≫= _) ?k] =>
    let k' := fresh "k" in let E := fresh "E" in let Hl := fresh "Hl" in
    destruct (say_ok k s) as (k' & E & Hl); krun E
  end.

(** *** Reading a line *)

(** Keys other than line ends. *)
Lemma read_line_keys v0 fuel : ∀ cs buf line echo c k rest,
  take (length line) buf = line → (length line < length buf)%nat →
  look k = with_in (print v0 echo) (cs ++ rest) → CR ∉ cs → LF ∉ cs →
  let '(line', echo') := foldl (key (Z.of_nat (length buf))) (line, echo) cs in
  ∃ buf' c' k', read_line_loop (length cs + fuel) UART_FD buf (Z.of_nat (length buf)) (Z.of_nat (length line)) c k =
      read_line_loop fuel UART_FD buf' (Z.of_nat (length buf)) (Z.of_nat (length line')) c' k' ∧
    length buf' = length buf ∧ take (length line') buf' = line' ∧ (length line' < length buf)%nat ∧
    look k' = with_in (print v0 echo') rest.
Proof.
  induction cs as [|x cs IH]; intros buf line echo c k rest Hline Hl Hk HCR HLF; cbn [foldl length Nat.add app].
  { exists buf, c, k. by split_and!. }
  apply not_elem_of_cons in HCR as [HxC HCR], HLF as [HxL HLF]. cbn [read_line_loop].
  assert (v_in (look k) = x :: cs ++ rest) as Hin by (by rewrite Hk).
  destruct (k_read k x (cs ++ rest) Hin) as (k1 & Hr & Hk1). krun Hr. rewrite Hk in Hk1. cbn [with_in print] in Hk1.
  cbv beta iota zeta. change (default c (list.head [x])) with x. cbn [Z.leb Z.compare].
  rewrite (proj2 (Z.eqb_neq x CR)), (proj2 (Z.eqb_neq x LF)) by done. cbn [orb].
  assert (look k1 = with_in (print v0 echo) (cs ++ rest)) as Hk1' by exact Hk1. clear Hk1.
  unfold key at 2. destruct ((x =? DEL) || (x =? BS))%bool.
  - destruct line as [|y line]; [exact (IH buf [] echo x k1 rest Hline Hl Hk1' HCR HLF)|].
    set (l1 := y :: line) in *. assert (length (take (length l1 - 1) l1) = length l1 - 1)%nat as Hlen by (rewrite length_take; lia).
    rewrite (proj2 (Z.ltb_lt 0 _)) by (subst l1; simpl; lia). ksay. rewrite Hk1', print_with_in in Hl0.
    replace (Z.of_nat (length l1) - 1) with (Z.of_nat (length (take (length l1 - 1) l1))) by (subst l1; simpl in *; lia).
    apply IH; try done; [|lia]. rewrite Hlen.
    transitivity (take (length l1 - 1) (take (length l1) buf)); [rewrite take_take; f_equal; lia|by rewrite Hline].
  - destruct (Z.ltb_spec (Z.of_nat (length line)) (Z.of_nat (length buf) - 1)).
    + krun (put_ok buf (Z.of_nat (length line)) x k1 ltac:(lia) ltac:(lia)).
      destruct (k_write k1 [x]) as (r & k2 & Hw & Hk2). krun Hw. rewrite Hk1', print_with_in in Hk2.
      rewrite setb_put. specialize (IH (<[length line := x]> buf) (line ++ [x]) (echo ++ [x]) x k2 rest).
      rewrite length_insert, length_app, Nat.add_1_r in IH. replace (Z.of_nat (length line) + 1) with (Z.of_nat (S (length line))) by lia.
      apply IH; try done; [|lia]. rewrite (take_S_r _ _ x) by (apply list_lookup_insert_eq; lia). by rewrite take_insert_ge, Hline by lia.
    + exact (IH buf line echo x k1 rest Hline Hl Hk1' HCR HLF).
Qed.

(** A whole line, and the end of the input. *)
Lemma read_line_ok (fuel : nat) buf k cs e rest (stack : Z) :
  (0 < length buf)%nat → v_in (look k) = cs ++ e :: rest → CR ∉ cs → LF ∉ cs → e = CR ∨ e = LF → (length cs < fuel)%nat →
  let '(line, echo) := typed (Z.of_nat (length buf)) cs in
  ∃ buf' k' r, read_line fuel UART_FD buf (Z.of_nat (length buf)) stack k = (Ret (buf', Z.of_nat (length line)), k') ∧
    length buf' = length buf ∧ (length line < length buf)%nat ∧ buf' = line ++ 0 :: r ∧
    look k' = with_in (print (look k) (echo ++ crlf)) rest.
Proof.
  intros Hb Hin HCR HLF He Hf. unfold typed.
  assert (look k = with_in (print (look k) []) (cs ++ e :: rest)) as Hk.
  { rewrite <- Hin. unfold with_in, print. rewrite app_nil_r. by destruct (look k). }
  pose proof (read_line_keys (look k) (fuel - length cs) cs buf [] [] stack k (e :: rest) eq_refl Hb Hk HCR HLF) as Hkeys.
  destruct (foldl _ _ _) as [line echo]. destruct Hkeys as (b1 & c1 & k1 & Hrun & Hl1 & Hline & Hlt & Hk1).
  replace (length cs + (fuel - length cs))%nat with fuel in Hrun by lia. unfold read_line. change 0 with (Z.of_nat 0) at 1.
  cbn [length] in Hrun. rewrite Hrun. destruct (fuel - length cs)%nat as [|f] eqn:Ef; [lia|]. cbn [read_line_loop].
  assert (v_in (look k1) = e :: rest) as Hin1 by (by rewrite Hk1).
  destruct (k_read k1 e rest Hin1) as (k2 & Hr & Hk2). krun Hr. cbv beta iota zeta. change (default c1 (list.head [e])) with e.
  cbn [Z.leb Z.compare]. assert (((e =? CR) || (e =? LF))%bool = true) as -> by (by destruct He as [-> | ->]).
  ksay. krun (put_ok b1 (Z.of_nat (length line)) 0 k0 ltac:(lia) ltac:(lia)).
  eexists _, k0, (drop (S (length line)) b1). split; [reflexivity|]. rewrite length_setb, setb_put. split_and!; try done.
  - rewrite <- (take_drop (length line) (<[length line := 0]> b1)). rewrite take_insert_ge, Hline by lia. f_equal.
    rewrite (drop_S _ 0) by (apply list_lookup_insert_eq; lia). by rewrite drop_insert_lt by lia.
  - rewrite Hl, Hk2, Hk1. exact (print_with_in (look k) echo rest crlf).
Qed.

Lemma read_line_end (fuel : nat) buf k (stack : Z) : (0 < length buf)%nat → v_in (look k) = [] → (0 < fuel)%nat →
  ∃ buf' k', read_line fuel UART_FD buf (Z.of_nat (length buf)) stack k = (Ret (buf', -1), k') ∧ look k' = look k.
Proof.
  intros Hb Hin Hf. destruct fuel as [|fuel]; [lia|]. unfold read_line. cbn [read_line_loop].
  destruct (k_read_end k Hin) as (k1 & Hr & Hk1). krun Hr. cbv beta iota zeta. cbn [Z.leb Z.compare].
  krun (put_ok buf 0 0 k1 ltac:(lia) ltac:(simpl; lia)). by eexists _, k1.
Qed.

(** *** Commands *)

Lemma ls_loop_ok names : ∀ k, v_open (look k) = ∅ →
  ∃ k', ls_loop UART_FD names k = (Ret tt, k') ∧
    look k' = print (look k) (names ≫= λ n, match v_files (look k) n with Some _ => n ++ crlf | None => [] end).
Proof.
  induction names as [|n names IH]; intros k Ho; cbn [ls_loop].
  { exists k. split; [done|]. unfold print. cbn. rewrite app_nil_r. by destruct (look k). }
  rewrite bind_cons. destruct (v_files (look k) n) as [data|] eqn:Ef.
  - destruct (k_fsopen k n data Ef Ho) as (fd & k1 & Hrun & Hfd & Hk1). krun Hrun. rewrite (proj2 (Z.leb_le 0 fd)) by lia.
    rewrite !bind_bind. ksay. rewrite !bind_bind. ksay. rewrite !bind_bind.
    assert (v_open (look k2) !! fd = Some data) as Hop by (rewrite Hl0, Hl, Hk1; apply lookup_insert_eq).
    destruct (k_close k2 fd data Hop) as (r & k3 & Hc & Hk3). krun Hc. kret.
    assert (look k3 = print (look k) (n ++ crlf)) as Hk3'.
    { rewrite Hk3, Hl0, Hl, Hk1, print_print. unfold print, with_open. cbn. rewrite delete_singleton_eq, <- Ho. done. }
    destruct (IH k3) as (k4 & Hr4 & Hk4); [by rewrite Hk3'|]. exists k4. split; [done|]. by rewrite Hk4, Hk3', print_print.
  - destruct (k_fsopen_none k n Ef) as (rc & k1 & Hrun & Hrc & Hk1). krun Hrun. rewrite (proj2 (Z.leb_gt 0 rc)) by lia. kret.
    destruct (IH k1) as (k4 & Hr4 & Hk4); [by rewrite Hk1|]. exists k4. split; [done|]. by rewrite Hk4, Hk1.
Qed.

Lemma cat_loop_ok fuel fd : ∀ k data, fd ≠ UART_FD → v_open (look k) = {[fd := data]} → (length data < fuel)%nat →
  ∃ k', cat_loop fuel UART_FD fd k = (Ret tt, k') ∧ look k' = with_open (print (look k) data) {[fd := []]}.
Proof.
  induction fuel as [|fuel IH]; intros k data Hfd Ho Hf; [lia|]. cbn [cat_loop].
  assert (v_open (look k) !! fd = Some data) as Hop by (rewrite Ho; apply lookup_insert_eq).
  destruct (k_read_file k fd data 256 Hop Hfd ltac:(lia)) as (k1 & Hr & Hk1). krun Hr. cbv beta iota zeta.
  rewrite Ho, insert_singleton_eq in Hk1. destruct data as [|b data].
  - exists k1. split; [done|]. rewrite Hk1. unfold print, with_open. cbn. by rewrite app_nil_r.
  - set (d := b :: data) in *. set (n := Z.to_nat 256) in *. assert (0 < length (take n d))%nat as Hn by (subst d n; rewrite length_take; simpl; lia).
    rewrite (proj2 (Z.ltb_lt 0 _)) by lia. rewrite Nat2Z.id, take_ge by lia.
    destruct (k_write k1 (take n d)) as (r & k2 & Hw & Hk2). krun Hw.
    destruct (IH k2 (drop n d) Hfd) as (k3 & Hr3 & Hk3); [by rewrite Hk2, Hk1|rewrite length_drop; subst d n; simpl in *; lia|].
    exists k3. split; [done|]. rewrite Hk3, Hk2, Hk1. unfold print, with_open. cbn. by rewrite <- app_assoc, take_drop.
Qed.

(** The shell has no file open and no child. *)
Definition idle v : Prop := v_open v = ∅ ∧ v_child v = None.

(** From [k], [m] returns [a] and prints [out]. *)
Definition prints {A} (m : M K A) k a out : Prop := ∃ k', m k = (Ret a, k') ∧ look k' = print (look k) out.

(** The same, and the forks left are [fs]. *)
Definition prints_forking {A} (m : M K A) k a out fs : Prop := ∃ k', m k = (Ret a, k') ∧ look k' = with_forks (print (look k) out) fs.

Lemma prints_keep {A} (m : M K A) k a out : prints m k a out → prints_forking m k a out (v_forks (look k)).
Proof. intros (k' & E & Hk). exists k'. split; [done|]. by rewrite Hk. Qed.

Lemma prints_bind {A B} (m : M K A) (f : A → M K B) k a b o1 o2 :
  prints m k a o1 → (∀ k', look k' = print (look k) o1 → prints (f a) k' b o2) → prints (m ≫= f) k b (o1 ++ o2).
Proof.
  intros (k1 & Hm & Hk1) Hf. destruct (Hf k1 Hk1) as (k2 & Hm2 & Hk2). exists k2. split; [by krun Hm|].
  by rewrite Hk2, Hk1, print_print.
Qed.
Lemma prints_ret {A} (a : A) k : prints (mret a) k a [].
Proof. exists k. split; [done|]. unfold print. rewrite app_nil_r. by destruct (look k). Qed.
Lemma prints_then {A B} (m : M K A) (b : B) k a o : prints m k a o → prints (m ≫= λ _, mret b) k b o.
Proof. intros Hm. rewrite <- (app_nil_r o). eapply prints_bind; [exact Hm|]. intros. apply prints_ret. Qed.
Lemma prints_say k s : prints (say UART_FD s) k tt s.
Proof. apply say_ok. Qed.

Lemma cannot_open_prints k (cmd : string) name : prints (cannot_open UART_FD (chars cmd) name) k tt (missing cmd name).
Proof.
  unfold cannot_open, missing. rewrite (app_assoc (chars cmd)). eapply prints_bind; [apply prints_say|]. intros k1 _.
  eapply prints_bind; [apply prints_say|]. intros k2 _. apply prints_say.
Qed.

(** A failed open, then the message. *)
Lemma open_missing k (cmd : string) name (f : Z → M K unit) : v_files (look k) name = None →
  prints (ffd ← _fsopen (-1) name; if ffd <? 0 then cannot_open UART_FD (chars cmd) name else f ffd) k tt (missing cmd name).
Proof.
  intros Ef. destruct (k_fsopen_none k name Ef) as (rc & k1 & Hrun & Hrc & Hk1).
  destruct (cannot_open_prints k1 cmd name) as (k2 & E2 & Hk2). exists k2.
  split; [|by rewrite Hk2, Hk1]. krun Hrun. by rewrite (proj2 (Z.ltb_lt rc 0)).
Qed.

Lemma cmd_cat_prints (fuel : nat) k name : idle (look k) →
  (∀ data, v_files (look k) name = Some data → (length data < fuel)%nat) →
  prints (cmd_cat fuel UART_FD name) k tt (match v_files (look k) name with Some data => data | None => missing "cat" name end).
Proof.
  intros [Ho Hch] Hf. unfold cmd_cat. destruct (v_files (look k) name) as [data|] eqn:Ef; [|by apply (open_missing k "cat" name)].
  destruct (k_fsopen k name data Ef Ho) as (fd & k1 & Hrun & Hfd & Hk1).
  destruct (cat_loop_ok fuel fd k1 data ltac:(unfold UART_FD; lia) ltac:(by rewrite Hk1) (Hf data eq_refl)) as (k2 & Hr2 & Hk2).
  destruct (k_close k2 fd [] ltac:(rewrite Hk2; apply lookup_insert_eq)) as (r & k3 & Hc & Hk3). exists k3.
  split; [krun Hrun; rewrite (proj2 (Z.ltb_ge fd 0)) by lia; krun Hr2; by krun Hc|].
  rewrite Hk3, Hk2, Hk1. unfold print, with_open. cbn. by rewrite delete_singleton_eq, <- Ho.
Qed.

(** What [run name] prints, and the forks left. *)
Definition run_text v name : list Z :=
  match v_files v name with
  | Some data => if fork_works (v_forks v) then prog data else chars "run: fork failed" ++ crlf
  | None => missing "run" name
  end.
Definition run_forks v name : list bool :=
  match v_files v name with Some _ => list.tail (v_forks v) | None => v_forks v end.

Lemma cmd_run_prints k name : idle (look k) →
  prints_forking (cmd_run UART_FD name) k tt (run_text (look k) name) (run_forks (look k) name).
Proof.
  intros [Ho Hch]. unfold cmd_run, run_text, run_forks. destruct (v_files (look k) name) as [data|] eqn:Ef;
    [|by apply prints_keep, (open_missing k "run" name)].
  destruct (k_fsopen k name data Ef Ho) as (fd & k1 & Hrun & Hfd & Hk1).
  destruct (k_fork k1 fd data ltac:(by rewrite Hk1) ltac:(by rewrite Hk1)) as (tid & k2 & Hr2 & Hfork).
  assert (v_forks (look k1) = v_forks (look k)) as Ek by (by rewrite Hk1). rewrite Ek in Hfork.
  destruct (fork_works (v_forks (look k))); destruct Hfork as [Htid Hk2].
  - destruct (k_close k2 fd data ltac:(rewrite Hk2, Hk1; apply lookup_insert_eq)) as (r & k3 & Hc & Hk3).
    destruct (k_wait k3 tid (prog data) ltac:(by rewrite Hk3, Hk2)) as (r4 & k4 & Hw & Hk4). exists k4. split.
    + krun Hrun. rewrite (proj2 (Z.ltb_ge fd 0)) by lia. krun Hr2. rewrite (proj2 (Z.eqb_neq tid 0)) by lia. kret.
      rewrite (proj2 (Z.ltb_ge tid 0)) by lia. krun Hc. by krun Hw.
    + rewrite Hk4, Hk3, Hk2, Hk1. unfold print, with_open, with_child, with_forks. cbn. by rewrite delete_singleton_eq, <- Ho, <- Hch.
  - destruct (say_ok k2 (chars "run: fork failed" ++ crlf)) as (k3 & Hs & Hk3).
    destruct (k_close k3 fd data ltac:(rewrite Hk3, Hk2, Hk1; apply lookup_insert_eq)) as (r & k4 & Hc & Hk4). exists k4. split.
    + krun Hrun. rewrite (proj2 (Z.ltb_ge fd 0)) by lia. krun Hr2. rewrite (proj2 (Z.eqb_neq tid 0)) by lia. kret.
      rewrite (proj2 (Z.ltb_lt tid 0)) by lia. krun Hs. by krun Hc.
    + rewrite Hk4, Hk3, Hk2, Hk1. unfold print, with_open, with_child, with_forks. cbn. by rewrite delete_singleton_eq, <- Ho.
Qed.

(** *** Dispatch *)

Lemma is_word_spec w (s : string) : is_cstr w → is_cstr (chars s) → is_word w s = bool_decide (w = chars s).
Proof.
  intros Hw Hs. unfold is_word, strcmp. apply eq_true_iff_eq. rewrite Z.eqb_eq, bool_decide_eq_true. by apply strcmp_loop_zero.
Qed.

(** Decides the comparisons of the first word with the commands. *)
Ltac known_word := rewrite !is_word_spec by (done || (unfold is_cstr, chars; cbn; repeat constructor; lia));
  repeat first [rewrite bool_decide_true by assumption|rewrite bool_decide_false by assumption].

Lemma dispatch_prints (fuel : nat) buf argv w args k :
  idle (look k) → is_cstr w → (∀ name data, v_files (look k) name = Some data → (length data < fuel)%nat) →
  (∀ k, arg buf argv 0 k = (Ret w, k)) → (∀ k name, list.head args = Some name → arg buf argv 1 k = (Ret name, k)) →
  let '(out, go_on, fs) := respond prog (v_files (look k)) (v_forks (look k)) (w :: args) in
  prints_forking (dispatch fuel buf argv (Z.of_nat (S (length args)))) k go_on out fs.
Proof.
  intros Hidle Hw Hf Ha0 Ha1.
  assert (∀ A (b : A) f o fs, prints_forking (f w) k b o fs → prints_forking (w ← arg buf argv 0; f w) k b o fs) as Harg.
  { intros A b f o fs (k' & Hr & Hk). exists k'. split; [by krun (Ha0 k)|done]. }
  assert (∀ f g on oc fc, prints f k tt on → (∀ name, prints_forking (g name) k tt (oc name) (fc name)) →
    prints_forking ((if Z.of_nat (S (length args)) <? 2 then f else name ← arg buf argv 1; g name);; mret true) k true
      (match args with [] => on | name :: _ => oc name end) (match args with [] => v_forks (look k) | name :: _ => fc name end)) as Harg1.
  { intros f g on oc fc Hnil Hcons. destruct args as [|name args].
    - apply prints_keep, prints_then with tt, Hnil.
    - rewrite (proj2 (Z.ltb_ge _ 2)) by (simpl; lia).
      destruct (Hcons name) as (k' & Hr & Hk). exists k'. split; [|done]. rewrite bind_bind. krun (Ha1 k name eq_refl). by krun Hr. }
  unfold respond, dispatch.
  repeat case_decide.
  - apply Harg. known_word. apply prints_keep, prints_ret.
  - pose proof (Harg1 (say UART_FD (chars "usage: run <name>" ++ crlf)) (cmd_run UART_FD) (chars "usage: run <name>" ++ crlf) (run_text (look k)) (run_forks (look k))
      (prints_say _ _) (λ name, cmd_run_prints k name Hidle)) as Hrun.
    assert (match args with [] => (chars "usage: run <name>" ++ crlf, true, v_forks (look k)) | name :: _ =>
      match v_files (look k) name with Some data => (if fork_works (v_forks (look k)) then prog data else chars "run: fork failed" ++ crlf, true, list.tail (v_forks (look k)))
      | None => (missing "run" name, true, v_forks (look k)) end end =
      (match args with [] => chars "usage: run <name>" ++ crlf | name :: _ => run_text (look k) name end, true,
       match args with [] => v_forks (look k) | name :: _ => run_forks (look k) name end)) as ->.
    { destruct args as [|name args]; [done|]. unfold run_text, run_forks. by destruct (v_files (look k) name). }
    apply Harg. known_word. subst w.
    change (bool_decide (chars "run" = chars "help")) with false. change (bool_decide (chars "run" = chars "ls")) with false.
    change (bool_decide (chars "run" = chars "cat")) with false. rewrite bool_decide_true by done. exact Hrun.
  - apply Harg. known_word. apply prints_keep, prints_then with tt, prints_say.
  - apply Harg. known_word. apply prints_keep, prints_then with tt, ls_loop_ok, Hidle.
  - apply Harg. known_word.
    pose proof (Harg1 (say UART_FD (chars "usage: cat <file>" ++ crlf)) (cmd_cat fuel UART_FD) _
      (λ name, match v_files (look k) name with Some data => data | None => missing "cat" name end) (λ _, v_forks (look k))
      (prints_say _ _) (λ name, prints_keep _ _ _ _ (cmd_cat_prints fuel k name Hidle (Hf name)))) as Hcat. by destruct args.
  - apply Harg. known_word. apply prints_keep.
    eapply prints_bind; [apply prints_say|]. intros k1 _. eapply prints_bind; [apply prints_say|]. intros k2 _.
    apply prints_then with tt. apply prints_say.
Qed.

(** *** The loop *)

(** The keys of a line, its length and the files fit the bounds on the passes. *)
Definition plain (fuel : nat) (cs : list Z) : Prop := CR ∉ cs ∧ LF ∉ cs ∧ Forall is_byte cs ∧ (length cs < fuel)%nat.
Definition small (fuel : nat) (files : cstr → option (list Z)) : Prop :=
  ∀ name data, files name = Some data → (length data < fuel)%nat.
Definition keys (lines : list (list Z)) : list Z := lines ≫= λ cs, cs ++ [CR].

Lemma main_loop_ok chars_ lines : ∀ fuel line argv k,
  length line = 128%nat → length argv = 8%nat → idle (look k) → v_in (look k) = keys lines →
  Forall (plain chars_) lines → small chars_ (v_files (look k)) → (0 < chars_)%nat → (length lines < fuel)%nat →
  ∃ k' rest fs, main_loop chars_ fuel line argv k = (Ret tt, k') ∧
    look k' = with_forks (with_in (print (look k) (session prog (v_files (look k)) (v_forks (look k)) lines)) rest) fs.
Proof.
  induction lines as [|cs lines IH]; intros fuel line argv k Hline Hargv Hidle Hin Hpl Hsm Hch Hf;
    destruct fuel as [|fuel]; try (simpl in Hf; lia); cbn [main_loop session].
  - ksay. destruct (read_line_end chars_ line k0 0) as (b & k1 & Hr & Hk1); [lia|by rewrite Hl|done|].
    rewrite Hline in Hr. change (Z.of_nat 128) with LINE_MAX in Hr. krun Hr. exists k1, [], (v_forks (look k)). split; [done|].
    rewrite Hk1, Hl, app_nil_r. unfold with_in, print, with_forks. cbn. f_equal. exact Hin.
  - apply Forall_cons in Hpl as [(HCR & HLF & Hby & Hlen) Hpl]. ksay.
    pose proof (read_line_ok chars_ line k0 cs CR (keys lines) 0 ltac:(lia)) as Hr. rewrite Hline in Hr.
    change (Z.of_nat 128) with LINE_MAX in Hr.
    assert (v_in (look k0) = cs ++ CR :: keys lines) as Hin0.
    { rewrite Hl. cbn [print v_in]. rewrite Hin. unfold keys. cbn [mbind list_bind]. by rewrite <- app_assoc. }
    specialize (Hr Hin0 HCR HLF ltac:(by left) Hlen).
    pose proof (typed_Forall is_byte LINE_MAX cs ([], []) ltac:(constructor) Hby) as Htb. fold (typed LINE_MAX cs) in Htb.
    destruct (typed LINE_MAX cs) as [ln echo]. cbn [fst] in Htb. destruct Hr as (buf & k1 & r & Hr & Hbl & Hll & Hbuf & Hk1).
    krun Hr. rewrite (proj2 (Z.ltb_ge _ 0)) by lia. rewrite Hl, print_print in Hk1.
    assert (∀ k2 out fs buf2 argv2, length buf2 = 128%nat → length argv2 = 8%nat →
      look k2 = with_forks (with_in (print (look k) (chars "$ " ++ echo ++ crlf ++ out)) (keys lines)) fs →
      ∃ k' rest fs', main_loop chars_ fuel buf2 argv2 k2 = (Ret tt, k') ∧
        look k' = with_forks (with_in (print (look k) (chars "$ " ++ echo ++ crlf ++ out ++ session prog (v_files (look k)) fs lines)) rest) fs') as Hnext.
    { intros k2 out fs buf2 argv2 Hb2 Ha2 Hk2. destruct (IH fuel buf2 argv2 k2 Hb2 Ha2) as (k' & rest & fs' & Hrun & Hk');
        [by rewrite Hk2|by rewrite Hk2|done|by rewrite Hk2|done|simpl in Hf; lia|].
      assert (v_files (look k2) = v_files (look k) ∧ v_forks (look k2) = fs) as [E1 E2] by (by rewrite Hk2). rewrite E1, E2 in Hk'.
      exists k', rest, fs'. split; [done|]. rewrite Hk', Hk2, forks_print, <- !app_assoc. done. }
    assert (look k1 = with_forks (with_in (print (look k) (chars "$ " ++ echo ++ crlf ++ [])) (keys lines)) (v_forks (look k))) as Hk1'
      by (rewrite Hk1, app_nil_r; done).
    destruct (Z.eqb_spec (Z.of_nat (length ln)) 0) as [E0|E0].
    { destruct ln as [|x ln]; [|simpl in E0; lia]. cbn [until_nul words firstn respond]. by apply (Hnext k1 [] _ buf argv). }
    destruct (until_nul_split ln r) as [r' Hr']. rewrite Hr' in Hbuf.
    destruct (tokenize_ok buf argv _ _ ARGV_MAX k1 Hbuf (until_nul_no_nul ln)) as (b2 & a2 & Htok & Hb2 & Ha2 & _ & Harg);
      [unfold ARGV_MAX; lia|]. krun Htok. change (Z.to_nat (ARGV_MAX - 1)) with 7%nat in *.
    assert (Forall (A:=cstr) is_cstr (take 7 (words (until_nul ln)))) as Hws by (apply Forall_take, words_Forall, until_nul_is_cstr, Htb).
    rewrite Hbl in Hb2. rewrite Hargv in Ha2. destruct (take 7 (words (until_nul ln))) as [|w args].
    { by apply (Hnext k1 [] _ b2 a2 Hb2 Ha2). }
    apply Forall_cons in Hws as [Hw _]. cbn [length]. rewrite (proj2 (Z.eqb_neq _ 0)) by lia.
    assert (∀ k name, list.head args = Some name → arg b2 a2 1 k = (Ret name, k)) as Harg1
      by (intros k' name Hn; apply (Harg 1%nat); destruct args; [done|exact Hn]).
    pose proof (dispatch_prints chars_ b2 a2 w args k1 ltac:(by rewrite Hk1) Hw ltac:(by rewrite Hk1)
      (λ k, Harg 0%nat w k eq_refl) Harg1) as Hd.
    rewrite Hk1 in Hd. cbn [v_files v_forks with_in print] in Hd.
    destruct (respond prog (v_files (look k)) (v_forks (look k)) (w :: args)) as [[out go_on] fs].
    destruct Hd as (k2 & Hrun2 & Hk2). krun Hrun2.
    rewrite Hk1, print_with_in, <- !app_assoc in Hk2.
    destruct go_on; [apply (Hnext k2 out fs b2 a2 Hb2 Ha2 Hk2)|]. exists k2, (keys lines), fs. split; [done|]. by rewrite Hk2, app_nil_r.
Qed.


(** The child that [run] makes never comes back to the prompt. *)
Lemma cmd_run_child fd name ffd k k1 k2 :
  _fsopen (-1) name k = (Ret ffd, k1) → 0 ≤ ffd → _fork k1 = (Ret 0, k2) → ∀ x, (cmd_run fd name k).1 ≠ Ret x.
Proof.
  intros Ho Hp Hfk x. unfold cmd_run. krun Ho. rewrite (proj2 (Z.ltb_ge ffd 0)) by lia. krun Hfk. cbn [Z.eqb].
  unfold exit, mbind, M_bind. repeat case_match; simplify_eq; try done.
Qed.
End session_proofs.

(** ** A kernel for the shell *)

(** The state is the view; programs print their image. *)
Definition demo_prog (data : list Z) : list Z := data.

#[export] Instance demo_calls : SysCalls view := {|
  _read := λ fd n v,
    if fd =? UART_FD then match v_in v with [] => (Ret (0, []), v) | c :: r => (Ret (1, [c]), with_in v r) end
    else match v_open v !! fd with
         | None => (Ret (- EBADFD, []), v)
         | Some data => (Ret (Z.of_nat (length (take (Z.to_nat n) data)), take (Z.to_nat n) data),
                         with_open v (<[fd := drop (Z.to_nat n) data]> (v_open v)))
         end;
  _write := λ _ bs v, (Ret (Z.of_nat (length bs)), print v bs);
  _devopen := λ fd _ _ v, (Ret (if v_uart v then fd else - ENODEV), v);
  _fsopen := λ _ name v, match v_files v name with None => (Ret (- ENOENT), v) | Some data => (Ret 3, with_open v (<[3 := data]> (v_open v))) end;
  _close := λ fd v, (Ret 0, with_open v (delete fd (v_open v)));
  _fork := λ v, let v' := with_forks v (list.tail (v_forks v)) in
    if fork_works (v_forks v)
    then (Ret 1, with_child v' (Some (1, match map_to_list (v_open v) with (_, data) :: _ => demo_prog data | [] => [] end)))
    else (Ret (- EMPROC), v');
  _exec := λ _ _ v, (Ret (- EINVAL), v);
  _wait := λ tid v, (Ret tid, match v_child v with Some (_, out) => with_child (print v out) None | None => v end);
  _print := λ bs v, (Ret tt, print_console v bs);
  _exit := λ v, (Fail 0, v);
|}.

#[export] Instance demo_kernel : ShellKernel view demo_prog.
Proof.
  refine {| look := λ v, v |}.
  - intros v. eexists _, _. split_and!; [done| |done]. by destruct (v_uart v).
  - intros v bs. by eexists.
  - intros v bs. by eexists _, _.
  - intros v c r E. eexists. split; [cbn; by rewrite E|done].
  - intros v E. eexists. split; [cbn; by rewrite E|done].
  - intros v name data Ef Eo. eexists 3, _. split_and!; [cbn; by rewrite Ef|lia|by rewrite Eo].
  - intros v name Ef. eexists _, _. split_and!; [cbn; by rewrite Ef|by vm_compute|done].
  - intros v fd data n E Hfd Hn. eexists. split; [cbn; rewrite (proj2 (Z.eqb_neq fd UART_FD)) by done; by rewrite E|done].
  - intros v fd data E. by eexists _, _.
  - intros v fd data Eo Ec. cbn. destruct (fork_works (v_forks v)); eexists _, _; (split; [done|]); [|by vm_compute].
    split; [lia|]. rewrite Eo, map_to_list_singleton. done.
  - intros v tid out E. eexists _, _. split; [done|]. cbn. by rewrite E.
  - intros v. by eexists _, _.
Defined.

(** The keys "cat  hjj", backspace twice, "i" and return; "run hi" twice, with a
    fork that fails the first time; then "exit". *)
Definition demo_files (name : cstr) : option (list Z) := if decide (name = chars "hi") then Some (chars "Hello!") else None.
Definition demo_lines : list (list Z) := [chars "cat  hjj" ++ [BS; DEL] ++ chars "i"; chars "run hi"; chars "run hi"; chars "exit"].
Definition demo_view : view := View (keys demo_lines) [] demo_files ∅ None [false; true] true [].


(** " ls<tab>-l " *)
Lemma tokenize_words_witness :
  ∃ buf' argv', tokenize (K:=view) (chars " ls" ++ [9] ++ chars "-l " ++ [0; 7]) (replicate 8 None) 8 demo_view = (Ret (buf', argv', 2), demo_view) ∧
    arg (K:=view) buf' argv' 0 demo_view = (Ret (chars "ls"), demo_view) ∧ arg (K:=view) buf' argv' 1 demo_view = (Ret (chars "-l"), demo_view).
Proof.
  destruct (tokenize_words (K:=view) (chars " ls" ++ [9] ++ chars "-l " ++ [0; 7]) (replicate 8 None)
    (chars " ls" ++ [9] ++ chars "-l ") [7] 8 demo_view) as [(b & a & Hrun & _ & _ & _ & Harg) _];
    [reflexivity|vm_compute; set_solver|vm_compute; split; discriminate|].
  exists b, a. split_and!; [exact Hrun|apply (Harg 0%nat)|apply (Harg 1%nat)]; reflexivity.
Defined.

(** Words beyond the seventh are dropped without a message. *)
Lemma tokenize_drops_words :
  (tokenize (K:=view) (chars "a b c d e f g h i" ++ [0]) (replicate 8 None) ARGV_MAX demo_view).1 =
  Ret (chars "a" ++ [0] ++ chars "b" ++ [0] ++ chars "c" ++ [0] ++ chars "d" ++ [0] ++ chars "e" ++ [0] ++ chars "f" ++ [0] ++ chars "g" ++ [0] ++ chars "h i" ++ [0],
       [Some 0; Some 2; Some 4; Some 6; Some 8; Some 10; Some 12; None], 7).
Proof. vm_compute. reflexivity. Qed.

End Shell.
