(* ===== verification/Programs.v ===== *)
(** * User programs (user/fib.c, init.c, trekfib.c, bench.c)

    A program is the tree of the system calls it makes: a call, and how the
    program goes on with its result.  [run] says what a kernel does with the tree:
    a [fork] goes on twice, with the result 0 in the child, and the events of all
    processes are collected, those of a child before those that follow in its
    parent.  The shell has a file of its own. *)

From Stdlib Require Import Ascii String.
From S2P Require Import Prelude Config Strings UserPrint.

Module Programs.
Import Str.

Inductive call :=
| CFork | CWait (tid : Z) | CIodup (oldfd newfd : Z) | CFsopen (fd : Z) (name : cstr)
| CDevopen (fd : Z) (name : cstr) (instno : Z) | CExec (fd : Z) (argv : list cstr)
| CClose (fd : Z) | CPrint (msg : cstr) | CTime.

(** A program that returned from main or called [_exit] is [Done]; [Stuck] is a
    loop that was cut off. *)
Inductive prog :=
| Done
| Stuck
| Call (c : call) (k : Z → prog).

Notation "x ⇐ c ; p" := (Call c (λ x, p)) (at level 20, c at level 100, p at level 200, only parsing).

(** ** init *)

Definition init_name : cstr := chars "trek_cp2".

(** [while (_wait(0) > 0) continue;] *)
Fixpoint wait_all (fuel : nat) : prog :=
  match fuel with
  | O => Stuck
  | S fuel => r ⇐ CWait 0; if 0 <? r then wait_all fuel else Done
  end.

(** The loop over the serial ports, from [++k] on. *)
Fixpoint attach_all (fuel : nat) (k : Z) : prog :=
  match fuel with
  | O => Stuck
  | S fuel =>
      let k := k + 1 in
      result ⇐ CDevopen 2 (chars "uart") k;
      if result <? 0 then _ ⇐ CClose 3; wait_all (S (Z.to_nat k))
      else
        t ⇐ CFork;
        let rest := _ ⇐ CClose 2; attach_all fuel k in
        if t =? 0 then _ ⇐ CExec 3 [init_name]; rest else rest
  end.

Definition init_main (fuel : nat) : prog :=
  t ⇐ CFork;
  r ⇐ CWait t;
  if 0 <? r then Done
  else
    _ ⇐ CIodup 0 1;
    _ ⇐ CFsopen 3 init_name;
    attach_all fuel 0.

(** ** trekfib *)

Definition trekfib_main : prog :=
  parent ⇐ CFork;
  if negb (parent =? 0) then
    trekFd ⇐ CFsopen (-1) (chars "trek_cp2");
    _ ⇐ CDevopen 2 (chars "uart") 1;
    _ ⇐ CExec trekFd [];
    Done
  else
    trekFd ⇐ CFsopen (-1) (chars "fib");
    _ ⇐ CExec trekFd [];
    Done.

(** ** fib *)

Fixpoint fib (n : nat) : Z :=
  match n with
  | O => 0
  | S n1 => match n1 with O => 1 | S n2 => u32 (fib n2 + fib n1) end
  end.

(** The string in a buffer. *)
Fixpoint until_nul (l : list Z) : cstr := match l with [] => [] | c :: r => if c =? 0 then [] else c :: until_nul r end.

Definition fib_fmt : cstr := chars "f(%u) = %u" ++ [10].

(** The loop from [n] on; [linebuf] keeps its bytes from pass to pass. *)
Fixpoint fib_loop (todo : nat) (n : nat) (linebuf : list Z) : prog :=
  match todo with
  | O => Done
  | S todo =>
      match UPrint.snprintf linebuf 64 fib_fmt [VReg (Z.of_nat n); VReg (fib n)] with
      | (Ret _, linebuf) => _ ⇐ CPrint (until_nul linebuf); fib_loop todo (S n) linebuf
      | _ => Stuck
      end
  end.
Definition fib_main (linebuf : list Z) : prog := fib_loop 60 0 linebuf.

(** ** bench *)

Definition ITERS_FORK : nat := 100.
Definition ITERS_PRINT : nat := 1000.
Definition ITERS_FSOPEN : nat := 200.

Definition report_fmt : cstr := chars "%s  iters=%d  total=%lu ns  per=%lu ns" ++ [10].

(** [buf] is the array of [report] on the stack, [rest] what runs behind it. *)
Definition report (buf : list Z) (label : cstr) (ticks : Z) (iters : Z) (rest : prog) : prog :=
  let total_ns := u64 (ticks * 100) in
  let per_ns := if negb (iters =? 0) then total_ns / iters else 0 in
  match UPrint.snprintf buf 80 report_fmt [VPtr (Some label); VReg iters; VReg total_ns; VReg per_ns] with
  | (Ret _, buf) => _ ⇐ CPrint (until_nul buf); rest
  | _ => Stuck
  end.

Fixpoint print_loop (n : nat) (rest : prog) : prog :=
  match n with O => rest | S n => _ ⇐ CPrint []; print_loop n rest end.
Definition bench_print (buf : list Z) (rest : prog) : prog :=
  t0 ⇐ CTime;
  print_loop ITERS_PRINT (t1 ⇐ CTime; report buf (chars "syscall  (_print empty)") (u64 (t1 - t0)) (Z.of_nat ITERS_PRINT) rest).

Fixpoint fork_loop (n : nat) (rest : prog) : prog :=
  match n with
  | O => rest
  | S n => tid ⇐ CFork; if tid =? 0 then Done else _ ⇐ CWait tid; fork_loop n rest
  end.
Definition bench_fork_wait (buf : list Z) (rest : prog) : prog :=
  t0 ⇐ CTime;
  fork_loop ITERS_FORK (t1 ⇐ CTime; report buf (chars "process  (_fork + _wait)") (u64 (t1 - t0)) (Z.of_nat ITERS_FORK) rest).

(** [back] is what runs when the function returns early. *)
Fixpoint fsopen_loop (n : nat) (back rest : prog) : prog :=
  match n with
  | O => rest
  | S n =>
      fd ⇐ CFsopen (-1) (chars "fib");
      if fd <? 0 then _ ⇐ CPrint (chars "bench: _fsopen failed" ++ [10]); back
      else _ ⇐ CClose fd; fsopen_loop n back rest
  end.
Definition bench_fsopen (buf : list Z) (rest : prog) : prog :=
  t0 ⇐ CTime;
  fsopen_loop ITERS_FSOPEN rest
    (t1 ⇐ CTime; report buf (chars "fs       (_fsopen + _close)") (u64 (t1 - t0)) (Z.of_nat ITERS_FSOPEN) rest).

Definition bench_main (buf : list Z) : prog :=
  _ ⇐ CPrint (chars "riscv-mini-os bench" ++ [10]);
  _ ⇐ CPrint (chars "-------------------" ++ [10]);
  bench_print buf (bench_fsopen buf (bench_fork_wait buf Done)).

(** ** What the kernel does *)

Inductive object := Term | File (name : cstr) | Uart (instno : Z).

(** The number of serial ports, the files there are, and whether images load. *)
Record kernel := Kernel { uarts : Z; files : cstr → bool; loads : bool }.

(** A process: its descriptors, the children it has not waited for, and what the
    time register will show it. *)
Record process := Process { fds : gmap Z object; kids : nat; clock : list Z }.
Implicit Types (w : kernel) (s : process).

(** A message was printed; a process became the program of a file, with its
    arguments and its descriptor 2; a process ended; a loop was cut off. *)
Inductive event := EPrint (msg : cstr) | EExec (name : cstr) (argv : list cstr) (fd2 : option object) | EExit | EStuck.

Definition with_fds s f : process := Process f (kids s) (clock s).
Definition with_kids s n : process := Process (fds s) n (clock s).

(** The descriptor for an open: the one asked for, or the lowest free one. *)
Definition pick s (fd : Z) : option Z :=
  if fd <? 0 then Z.of_nat <$> findi (λ i : nat, match fds s !! Z.of_nat i with None => true | Some _ => false end) (seq 0 16) else Some fd.

Definition open_object w s (fd : Z) (o : option object) : Z * process :=
  match o, pick s fd with
  | None, _ => (- ENOENT, s)
  | _, None => (- EMFILE, s)
  | Some o, Some fd => (fd, with_fds s (<[fd := o]> (fds s)))
  end.

Fixpoint run w (p : prog) s : list event :=
  match p with
  | Done => [EExit]
  | Stuck => [EStuck]
  | Call c k =>
      match c with
      | CFork => run w (k 0) (with_kids s 0) ++ run w (k 1) (with_kids s (S (kids s)))
      | CWait _ => match kids s with O => run w (k (- EINVAL)) s | S n => run w (k 1) (with_kids s n) end
      | CIodup o n => match fds s !! o with Some x => run w (k n) (with_fds s (<[n := x]> (fds s))) | None => run w (k (- EBADFD)) s end
      | CFsopen fd name => let '(r, s) := open_object w s fd (if files w name then Some (File name) else None) in run w (k r) s
      | CDevopen fd name i =>
          let '(r, s) := open_object w s fd (if ((0 <=? i) && (i <? uarts w))%bool then Some (Uart i) else None) in run w (k r) s
      | CExec fd argv => match fds s !! fd with
                         | Some (File name) => if loads w then [EExec name argv (fds s !! 2)] else run w (k (- EINVAL)) s
                         | _ => run w (k (- EBADFD)) s
                         end
      | CClose fd => run w (k 0) (with_fds s (delete fd (fds s)))
      | CPrint msg => EPrint msg :: run w (k 0) s
      | CTime => match clock s with t :: ts => run w (k t) (Process (fds s) (kids s) ts) | [] => run w (k 0) s end
      end
  end.

(** *** Starting programs *)

Lemma wait_all_ok w fuel : ∀ s, (kids s < fuel)%nat → run w (wait_all fuel) s = [EExit].
Proof.
  induction fuel as [|fuel IH]; intros s Hk; [lia|]. cbn [wait_all run]. destruct (kids s) as [|n] eqn:E; [done|].
  apply IH. simpl. lia.
Qed.

(** From port [k + 1] on, where every child started so far is still running. *)
Lemma attach_all_ok w (m : nat) : ∀ (fuel : nat) (k : Z) s,
  loads w = true → fds s !! 3 = Some (File init_name) → 0 ≤ k → uarts w = k + 1 + Z.of_nat m → (m < fuel)%nat → kids s = Z.to_nat k →
  run w (attach_all fuel k) s = ((λ i, EExec init_name [init_name] (Some (Uart i))) <$> seqZ (k + 1) (Z.of_nat m)) ++ [EExit].
Proof.
  induction m as [|m IH]; intros fuel k s Hl H3 Hk Hu Hf Hkids; destruct fuel as [|fuel]; try lia; cbn [attach_all run].
  - rewrite (proj2 (Z.leb_le 0 (k + 1))), (proj2 (Z.ltb_ge (k + 1) (uarts w))) by lia. cbn [andb open_object].
    change (- ENOENT <? 0) with true. cbn [run]. rewrite wait_all_ok; [done|]. simpl. lia.
  - rewrite (proj2 (Z.leb_le 0 (k + 1))), (proj2 (Z.ltb_lt (k + 1) (uarts w))) by lia. cbn [andb open_object].
    change (pick s 2) with (Some 2). cbv beta iota zeta. change (2 <? 0) with false. cbn iota. cbn [run Z.eqb].
    change (fds (with_kids (with_fds s (<[2:=Uart (k + 1)]> (fds s))) 0)) with (<[2:=Uart (k + 1)]> (fds s)).
    rewrite lookup_insert_ne, H3, Hl, lookup_insert_eq by lia.
    rewrite IH; try done; try lia; [|cbn; rewrite lookup_delete_ne, lookup_insert_ne by lia; done|cbn; lia].
    rewrite Nat2Z.inj_succ, (seqZ_cons (k + 1)) by lia. cbn [fmap list_fmap app]. do 3 f_equal; f_equal; lia.
Qed.

Lemma init_main_ok w (fuel : nat) s : loads w = true → files w init_name = true → 1 ≤ uarts w < Z.of_nat fuel →
  run w (init_main fuel) s = ((λ i, EExec init_name [init_name] (Some (Uart i))) <$> seqZ 1 (uarts w - 1)) ++ [EExit; EExit].
Proof.
  intros Hl Hf Hu. unfold init_main. cbn [run kids with_kids]. change (0 <? - EINVAL) with false. cbn iota. cbn [run Z.ltb Z.compare].
  assert (∀ s, kids s = O → run w (_ ⇐ CFsopen 3 init_name; attach_all fuel 0) s =
    ((λ i, EExec init_name [init_name] (Some (Uart i))) <$> seqZ 1 (uarts w - 1)) ++ [EExit]) as Hopen.
  { intros s1 Hk. cbn [run]. rewrite Hf. cbn [open_object]. change (pick s1 3) with (Some 3). cbv beta iota zeta.
    rewrite (attach_all_ok w (Z.to_nat (uarts w - 1))); try done; try lia; [|apply lookup_insert_eq].
    by rewrite Z2Nat.id by lia. }
  assert (∀ l, l = ((λ i, EExec init_name [init_name] (Some (Uart i))) <$> seqZ 1 (uarts w - 1)) ++ [EExit] →
    l ++ [EExit] = ((λ i, EExec init_name [init_name] (Some (Uart i))) <$> seqZ 1 (uarts w - 1)) ++ [EExit; EExit]) as Happ
    by (intros l ->; by rewrite <- app_assoc).
  apply Happ. destruct (_ !! 0); by apply Hopen.
Qed.

(** When the image does not load, the children go on as if they were init: with
    four ports nine processes run instead of five, and none of them is a shell. *)
Lemma init_failed_exec_multiplies :
  let w b := Kernel 4 (λ _, true) b in
  let s := Process {[0 := Term]} 0 [] in
  length (run (w true) (init_main 10) s) = 5%nat ∧ run (w false) (init_main 10) s = replicate 9 EExit.
Proof. split; vm_compute; reflexivity. Qed.

(** [trekfib] starts [fib] in the child and [trek_cp2] on the first free serial
    port in itself. *)
Lemma trekfib_starts_both w s :
  loads w = true → files w (chars "trek_cp2") = true → files w (chars "fib") = true → 1 < uarts w →
  (∀ i, 0 ≤ i < 3 → is_Some (fds s !! i)) → fds s !! 3 = None →
  run w trekfib_main s = [EExec (chars "fib") [] (fds s !! 2); EExec (chars "trek_cp2") [] (Some (Uart 1))].
Proof.
  intros Hl Ht Hb Hu Hd H3. unfold trekfib_main. cbn [run Z.eqb negb]. rewrite Ht, Hb.
  assert (∀ n, pick (with_kids s n) (-1) = Some 3) as Hpick.
  { intros n. unfold pick. cbn [Z.ltb Z.compare fds with_kids seq findi].
    destruct (Hd 0 ltac:(lia)) as [? E0], (Hd 1 ltac:(lia)) as [? E1], (Hd 2 ltac:(lia)) as [? E2].
    change (Z.of_nat 0) with 0. change (Z.of_nat 1) with 1. change (Z.of_nat 2) with 2. change (Z.of_nat 3) with 3.
    by rewrite E0, E1, E2, H3. }
  unfold open_object. rewrite !Hpick. cbv beta iota zeta. cbn [run].
  rewrite (proj2 (Z.ltb_lt 1 (uarts w))) by done. change (0 <=? 1) with true. cbn [andb].
  change (pick _ 2) with (Some 2). cbv beta iota zeta. cbn [fds with_fds with_kids].
  rewrite !lookup_insert_eq, Hl, lookup_insert_ne by lia. rewrite (lookup_insert_ne _ 2 3), lookup_insert_eq by lia. done.
Qed.

(** ** Numbers in decimal *)

Definition decimal (v : Z) : cstr := int_text v 10 false 0.

Lemma decimal_chars_digits fuel : ∀ val acc, Forall (λ c, 48 ≤ c < 58) acc → Forall (λ c, 48 ≤ c < 58) (int_chars fuel val 10 acc).
Proof.
  induction fuel as [|fuel IH]; intros val acc Ha; unfold int_chars; fold int_chars; [done|].
  assert (Forall (λ c, 48 ≤ c < 58) (digit_char (val mod 10) :: acc)).
  { constructor; [|done]. pose proof (Z.mod_pos_bound val 10 ltac:(lia)). unfold digit_char. rewrite (proj2 (Z.ltb_lt _ 10)) by lia. lia. }
  destruct (negb _); [by apply IH|done].
Qed.

Lemma int_chars_length (k : nat) : ∀ fuel val acc, 0 ≤ val < 10 ^ Z.of_nat k → (0 < k)%nat →
  (length (int_chars fuel val 10 acc) ≤ k + length acc)%nat.
Proof.
  induction k as [|k IH]; intros [|fuel] val acc Hv Hk; unfold int_chars; fold int_chars; try lia.
  destruct (Z.eqb_spec (val / 10) 0) as [E|E]; cbn [negb]; [simpl; lia|].
  rewrite Nat2Z.inj_succ, Z.pow_succ_r in Hv by lia.
  assert (0 ≤ val / 10 < 10 ^ Z.of_nat k) as Hq by (split; [apply Z.div_pos; lia|apply Z.div_lt_upper_bound; lia]).
  destruct k as [|k]; [simpl in Hq; lia|]. etrans; [apply IH; [done|lia]|]. simpl. lia.
Qed.

Lemma decimal_chars v : decimal v = int_chars 40 v 10 [].
Proof. unfold decimal, int_text. by replace (Z.to_nat (0 - _)) with O by lia. Qed.
Lemma decimal_no_nul v : 0 ∉ decimal v.
Proof.
  rewrite decimal_chars. intros Hin. pose proof (decimal_chars_digits 40 v [] ltac:(constructor)) as Hd.
  rewrite Forall_forall in Hd. specialize (Hd 0 Hin). lia.
Qed.
Lemma decimal_length (k : nat) v : 0 ≤ v < 10 ^ Z.of_nat k → (0 < k)%nat → (length (decimal v) ≤ k)%nat.
Proof. intros Hv Hk. rewrite decimal_chars. pose proof (int_chars_length k 40 v [] Hv Hk) as Hl. cbn [length] in Hl. lia. Qed.

(** A text that fits is the string in the buffer, and the buffer keeps its size. *)
Lemma snprintf_string buf fmt ap out : UPrint.printed fmt ap = Some out → (length out < length buf)%nat → 0 ∉ out →
  ∃ n buf', UPrint.snprintf buf (Z.of_nat (length buf)) fmt ap = (Ret n, buf') ∧ until_nul buf' = out ∧ length buf' = length buf.
Proof.
  intros Hp Hl H0. unfold UPrint.snprintf. rewrite (UPrint.vsnprintf_ok buf fmt ap out Hp). eexists _, _. split; [reflexivity|].
  cbv zeta. rewrite Nat.min_l, (take_ge out), take_ge by (rewrite ?length_app; simpl; lia). split.
  - rewrite <- app_assoc. generalize (drop (S (length out)) buf). intros t. cbn [app]. clear Hp Hl. induction out as [|c out IH]; [done|]. apply not_elem_of_cons in H0 as [Hc H0].
    cbn [app until_nul]. rewrite (proj2 (Z.eqb_neq c 0)) by done. by rewrite IH.
  - rewrite !length_app, length_drop. simpl. lia.
Qed.

(** ** Fibonacci numbers *)

Fixpoint fibonacci (n : nat) : Z :=
  match n with O => 0 | S n1 => match n1 with O => 1 | S n2 => fibonacci n2 + fibonacci n1 end end.

Lemma fib_mod n : fib n = u32 (fibonacci n) ∧ fib (S n) = u32 (fibonacci (S n)).
Proof.
  induction n as [|n [IH1 IH2]]; [done|]. split; [done|].
  change (fib (S (S n))) with (u32 (fib n + fib (S n))). change (fibonacci (S (S n))) with (fibonacci n + fibonacci (S n)).
  rewrite IH1, IH2. unfold u32. by rewrite <- Zplus_mod.
Qed.

Definition fib_line (n : nat) : cstr := chars "f(" ++ decimal (Z.of_nat n) ++ chars ") = " ++ decimal (u32 (fibonacci n)) ++ [10].

Lemma fib_printed n (v : Z) : Z.of_nat n < 2 ^ 32 → 0 ≤ v < 2 ^ 32 →
  UPrint.printed fib_fmt [VReg (Z.of_nat n); VReg v] = Some (chars "f(" ++ decimal (Z.of_nat n) ++ chars ") = " ++ decimal v ++ [10]).
Proof.
  intros Hn Hv. assert (u32 (Z.of_nat n) = Z.of_nat n ∧ u32 v = v) as [En Ev] by (split; apply Z.mod_small; lia).
  transitivity (Some (chars "f(" ++ decimal (u32 (Z.of_nat n)) ++ chars ") = " ++ decimal (u32 v) ++ [10])); [|by rewrite En, Ev].
  reflexivity.
Qed.

Lemma fib_loop_ok w s todo : ∀ n linebuf, length linebuf = 64%nat → Z.of_nat (n + todo) ≤ 2 ^ 16 →
  run w (fib_loop todo n linebuf) s = ((λ i, EPrint (fib_line i)) <$> seq n todo) ++ [EExit].
Proof.
  induction todo as [|todo IH]; intros n linebuf Hl Hn; [done|]. cbn [fib_loop seq fmap list_fmap app].
  pose proof (Z.mod_pos_bound (fibonacci n) (2 ^ 32) ltac:(lia)) as Hb. destruct (fib_mod n) as [Ef _].
  assert (Z.of_nat n < 2 ^ 16) as Hn16 by lia.
  destruct (snprintf_string linebuf fib_fmt [VReg (Z.of_nat n); VReg (fib n)] (fib_line n)) as (r & buf' & Hrun & Hs & Hl').
  - rewrite Ef. apply fib_printed; [lia|exact Hb].
  - unfold fib_line. rewrite !length_app, Hl. pose proof (decimal_length 5 (Z.of_nat n) ltac:(lia) ltac:(lia)).
    pose proof (decimal_length 10 (u32 (fibonacci n)) ltac:(unfold u32; lia) ltac:(lia)). cbn. lia.
  - unfold fib_line. rewrite !not_elem_of_app. split_and!; try apply decimal_no_nul; vm_compute; set_solver.
  - rewrite Hl in Hrun. change (Z.of_nat 64) with 64 in Hrun. rewrite Hrun. cbn [run]. rewrite Hs, IH; [done|congruence|lia].
Qed.

(** ** The measurements *)

Lemma print_loop_run w rest s n : run w (print_loop n rest) s = replicate n (EPrint []) ++ run w rest s.
Proof. induction n as [|n IH]; [done|]. cbn [print_loop run replicate app]. by rewrite IH. Qed.

(** Every child ends and is waited for. *)
Lemma fork_loop_run w rest s n : run w (fork_loop n rest) s = replicate n EExit ++ run w rest s.
Proof.
  induction n as [|n IH]; [done|]. cbn [fork_loop run Z.eqb kids with_kids app replicate].
  change (with_kids (with_kids s (S (kids s))) (kids s)) with (Process (fds s) (kids s) (clock s)). f_equal.
  replace (Process (fds s) (kids s) (clock s)) with s by (by destruct s). exact IH.
Qed.

Lemma pick_free s fd : pick s (-1) = Some fd → fds s !! fd = None ∧ 0 ≤ fd.
Proof.
  unfold pick. cbn [Z.ltb Z.compare]. destruct (findi _ _) as [i|] eqn:Ef; [|done]. intros [= <-].
  apply findi_Some in Ef as [(j & Hj & Hf) _]. apply lookup_seq in Hj as [-> _]. cbn [Nat.add] in Hf.
  split; [|lia]. by destruct (fds s !! Z.of_nat i).
Qed.

(** Every descriptor is closed again. *)
Lemma fsopen_loop_run w back rest s fd n : files w (chars "fib") = true → pick s (-1) = Some fd →
  run w (fsopen_loop n back rest) s = run w rest s.
Proof.
  intros Hf Hp. destruct (pick_free s fd Hp) as [Hfree Hfd]. induction n as [|n IH]; [done|]. cbn [fsopen_loop run]. rewrite Hf.
  unfold open_object. rewrite Hp. cbv beta iota zeta. rewrite (proj2 (Z.ltb_ge fd 0)) by lia. cbn [run fds with_fds].
  rewrite delete_insert_id by done. change (with_fds (with_fds s (<[fd:=File (chars "fib")]> (fds s))) (fds s)) with (with_fds s (fds s)).
  replace (with_fds s (fds s)) with s by (by destruct s). exact IH.
Qed.

(** A line of the report: [ticks] of 100 ns for [iters] passes. *)
Definition report_line (label : cstr) (ticks iters : Z) : cstr :=
  label ++ chars "  iters=" ++ decimal iters ++ chars "  total=" ++ decimal (ticks * 100) ++ chars " ns  per=" ++
  decimal (ticks * 100 / iters) ++ chars " ns" ++ [10].

Lemma report_printed label (i t p : Z) : 0 ≤ i < 2 ^ 31 → 0 ≤ t < 2 ^ 64 → 0 ≤ p < 2 ^ 64 →
  UPrint.printed report_fmt [VPtr (Some label); VReg i; VReg t; VReg p] =
  Some (label ++ chars "  iters=" ++ decimal i ++ chars "  total=" ++ decimal t ++ chars " ns  per=" ++ decimal p ++ chars " ns" ++ [10]).
Proof.
  intros Hi Ht Hp. assert (u64 t = t ∧ u64 p = p) as [Et Ep] by (split; apply Z.mod_small; lia).
  assert (s32 i = i) as Ei by (unfold s32; rewrite Z.mod_small; lia).
  transitivity (Some (str_text (Some label) 0 ++ chars "  iters=" ++
    (if s32 i <? 0 then 45 :: int_text (- s32 i) 10 false (0 - 1) else decimal (s32 i)) ++
    chars "  total=" ++ decimal (u64 t) ++ chars " ns  per=" ++ decimal (u64 p) ++ chars " ns" ++ [10])); [reflexivity|].
  rewrite Et, Ep, Ei, (proj2 (Z.ltb_ge i 0)) by lia. unfold str_text. change (default null_text (Some label)) with label.
  replace (Z.to_nat (0 - Z.of_nat (length label))) with O by lia. cbn [replicate]. by rewrite app_nil_r.
Qed.

(** A measurement of less than a second fits the buffer. *)
Lemma report_run w s buf label (ticks : Z) (iters : Z) rest :
  length buf = 80%nat → (length label ≤ 27)%nat → 0 ∉ label → 0 ≤ ticks < 10 ^ 7 → 0 < iters < 10 ^ 4 →
  run w (report buf label ticks iters rest) s = EPrint (report_line label ticks iters) :: run w rest s.
Proof.
  intros Hb Hlab H0 Ht Hi. unfold report. cbv zeta. assert (u64 (ticks * 100) = ticks * 100) as -> by (apply Z.mod_small; lia).
  rewrite (proj2 (Z.eqb_neq iters 0)) by lia. cbn [negb].
  assert (0 ≤ ticks * 100 / iters ≤ ticks * 100) as Hdiv.
  { split; [apply Z.div_pos; lia|]. apply Z.div_le_upper_bound; nia. }
  destruct (snprintf_string buf report_fmt [VPtr (@Some cstr label); VReg iters; VReg (ticks * 100); VReg (ticks * 100 / iters)] (report_line label ticks iters))
    as (r & buf' & Hrun & Hs & _).
  - apply report_printed; lia.
  - unfold report_line. rewrite !length_app, Hb. pose proof (decimal_length 4 iters ltac:(lia) ltac:(lia)).
    pose proof (decimal_length 9 (ticks * 100) ltac:(lia) ltac:(lia)).
    pose proof (decimal_length 9 (ticks * 100 / iters) ltac:(lia) ltac:(lia)). cbn. lia.
  - unfold report_line. rewrite !not_elem_of_app. split_and!; try apply decimal_no_nul; try done; vm_compute; set_solver.
  - rewrite Hb in Hrun. change (Z.of_nat 80) with 80 in Hrun. rewrite Hrun. cbn [run]. by rewrite Hs.
Qed.

(** The whole benchmark: with the file there and a free descriptor, it prints its
    heading and, for the ticks each part took, less than a second each, the time
    per pass; it leaves no descriptor open and no child behind. *)
Lemma bench_main_ok w f n (t0 t1 t2 t3 t4 t5 : Z) ts buf fd :
  let s := Process f n (t0 :: t1 :: t2 :: t3 :: t4 :: t5 :: ts) in
  length buf = 80%nat → files w (chars "fib") = true → pick s (-1) = Some fd →
  0 ≤ t1 - t0 < 10 ^ 7 → 0 ≤ t3 - t2 < 10 ^ 7 → 0 ≤ t5 - t4 < 10 ^ 7 →
  run w (bench_main buf) s =
  [EPrint (chars "riscv-mini-os bench" ++ [10]); EPrint (chars "-------------------" ++ [10])] ++
  replicate 1000 (EPrint []) ++ [EPrint (report_line (chars "syscall  (_print empty)") (t1 - t0) 1000)] ++
  [EPrint (report_line (chars "fs       (_fsopen + _close)") (t3 - t2) 200)] ++
  replicate 100 EExit ++ [EPrint (report_line (chars "process  (_fork + _wait)") (t5 - t4) 100); EExit].
Proof.
  intros s Hb Hf Hp H1 H2 H3. assert (∀ a, 0 ≤ a < 10 ^ 7 → u64 a = a) as Hu by (intros; apply Z.mod_small; lia).
  assert (∀ l, 0 ∉ chars l ↔ bool_decide (0 ∈ chars l) = false) as Hnul by (intros; by rewrite bool_decide_eq_false).
  unfold bench_main, bench_print. cbn [run app]. do 2 f_equal. unfold s at 1. cbn [clock fds kids].
  rewrite print_loop_run. f_equal. cbn [run clock fds kids].
  rewrite Hu, report_run by (done || (vm_compute; lia) || (apply Hnul; vm_compute; reflexivity)). f_equal.
  unfold bench_fsopen. cbn [run clock fds kids]. rewrite (fsopen_loop_run _ _ _ _ fd) by done. cbn [run clock fds kids].
  rewrite Hu, report_run by (done || (vm_compute; lia) || (apply Hnul; vm_compute; reflexivity)). f_equal.
  unfold bench_fork_wait. cbn [run clock fds kids]. rewrite fork_loop_run. f_equal. cbn [run clock fds kids].
  rewrite Hu, report_run by (done || (vm_compute; lia) || (apply Hnul; vm_compute; reflexivity)). done.
Qed.

(** The program prints one line for each n below 60, with the Fibonacci number
    modulo 2^32, and ends. *)
Lemma fib_main_ok w s linebuf : length linebuf = 64%nat →
  run w (fib_main linebuf) s = ((λ i, EPrint (fib_line i)) <$> seq 0 60) ++ [EExit].
Proof. intros Hl. apply fib_loop_ok; [done|lia]. Qed.

Lemma fibonacci_iter n :
  fibonacci n = (Nat.iter n (λ p, (p.2, p.1 + p.2)) (0, 1)).1 ∧ fibonacci (S n) = (Nat.iter n (λ p, (p.2, p.1 + p.2)) (0, 1)).2.
Proof.
  induction n as [|n [IH1 IH2]]; [done|]. split; [exact IH2|].
  change (fibonacci (S (S n))) with (fibonacci n + fibonacci (S n)). by rewrite IH1, IH2.
Qed.

(** The line of 48 shows 512559680, not the Fibonacci number 4807526976. *)
Lemma fib_wraps : fib_line 48 = chars "f(48) = 512559680" ++ [10] ∧ fibonacci 48 = 4807526976.
Proof.
  unfold fib_line. rewrite (proj1 (fibonacci_iter 48)). split; vm_compute; reflexivity.
Qed.
End Programs.
