(* ===== verification/UserIoPrint.v ===== *)
(** * User library: formatted output to I/O objects (user/io.c), hello (user/hello.c)

    [iovprintf] puts UserIo and UserPrint together: the characters of a format go
    to an I/O object one by one, and the first error ends the output.  The
    dispatching functions of user/io.c that repeat the kernel's are translated
    here too. *)

From Stdlib Require Import Ascii String.
From S2P Require Import Prelude Config Io Strings UserIo UserPrint.

Module UIoPrint.
Import Str.

Section io.
Context {R : Type}.
Implicit Types (o : io R) (buf : list Z) (pos len bufsz c : Z).

(** ** Dispatching functions *)

Definition iorefcnt o : Z := refcnt o.
Definition ioaddref o : io R := with_refcnt o (u64 (refcnt o + 1)).

Definition ioread o bufsz : Z * list Z * io R :=
  match i_read (intf o) with
  | None => (- ENOTSUP, [], o)
  | Some f => if bufsz <? 0 then (- EINVAL, [], o) else let '(n, got, s) := f (ist o) bufsz in (n, got, with_ist o s)
  end.
Definition ioreadat o pos bufsz : Z * list Z * io R :=
  match i_readat (intf o) with
  | None => (- ENOTSUP, [], o)
  | Some f => if bufsz <? 0 then (- EINVAL, [], o) else let '(n, got, s) := f (ist o) pos bufsz in (n, got, with_ist o s)
  end.
Definition iowriteat o pos buf len : Z * io R :=
  match i_writeat (intf o) with
  | None => (- ENOTSUP, o)
  | Some f => if len <? 0 then (- EINVAL, o) else let '(n, s) := f (ist o) pos buf len in (n, with_ist o s)
  end.
Definition ioctl o (cmd : Z) (arg : option Z) : Z * option Z * io R :=
  match i_cntl (intf o) with
  | Some f => let '(r, a, s) := f (ist o) cmd arg in (r, a, with_ist o s)
  | None => (if cmd =? IOCTL_GETBLKSZ then 1 else - ENOTSUP, arg, o)
  end.

(** They are the kernel's, so that what Io shows of those holds of them. *)
Lemma dispatch_same o bufsz pos buf len (cmd : Z) (arg : option Z) :
  ioread o bufsz = Io.ioread o bufsz ∧ ioreadat o pos bufsz = Io.ioreadat o pos bufsz ∧
  iowriteat o pos buf len = Io.iowriteat o pos buf len ∧ ioctl o cmd arg = Io.ioctl o cmd arg.
Proof. done. Qed.

(** ** Formatted output *)

Record iovprintf_state := IoV { vio : io R; err : Z }.

Definition iovprintf_putc c : M iovprintf_state unit := λ st,
  if err st =? 0 then
    let '(r, o) := UserIo.ioputc c (vio st) in
    match r with
    | Ret result => (Ret tt, IoV o (if result <? 0 then result else err st))
    | Fail rc => (Fail rc, IoV o (err st))
    | Panic => (Panic, IoV o (err st))
    | NoFuel => (NoFuel, IoV o (err st))
    end
  else (Ret tt, st).

Definition iovprintf (fmt : cstr) (ap : list va) : M (io R) Z := λ o,
  let '(r, st) := UPrint.vgprintf iovprintf_putc fmt ap (IoV o 0) in
  (match r with Ret nout => Ret (if negb (err st =? 0) then err st else s64 nout) | r => r end, vio st).
Definition ioprintf (fmt : cstr) (ap : list va) : M (io R) Z := iovprintf fmt ap.

(** ** What reaches the object *)

(** Writing one character always returns: a write that takes it ends the loop,
    and one that takes nothing or fails ends it, too. *)
Lemma ioputc_returns c o : ∃ v o', UserIo.ioputc c o = (Ret v, o').
Proof.
  assert (∃ v o', UserIo.iowrite [c] 1 o = (Ret v, o')) as (v & o' & Hw).
  { unfold UserIo.iowrite. destruct (i_write (intf o)) as [f|]; [|by eexists _, _]. change (1 <? 0) with false. cbn iota.
    change (S (Z.to_nat 1)) with 2%nat. cbn [UserIo.iowrite_loop]. destruct (f (ist o) [c] 1) as [n s].
    destruct (Z.leb_spec n 0); [by eexists _, _|]. rewrite (proj2 (Z.ltb_ge (0 + n) 1)) by lia. by eexists _, _. }
  unfold UserIo.ioputc. krun Hw. by eexists _, _.
Qed.

(** The characters written one by one up to the first error: the error, or 0. *)
Fixpoint feed (text : list Z) o : Z * io R :=
  match text with
  | [] => (0, o)
  | c :: text =>
      match UserIo.ioputc c o with
      | (Ret v, o) => if v <? 0 then (v, o) else feed text o
      | (_, o) => (0, o)
      end
  end.

Lemma put_all_feed text : ∀ o,
  put_all (λ c st, (iovprintf_putc c st).2) text (IoV o 0) = let '(e, o') := feed text o in IoV o' e.
Proof.
  induction text as [|c text IH]; intros o; cbn [put_all feed]; [done|]. unfold iovprintf_putc at 2. cbn [err vio Z.eqb].
  destruct (ioputc_returns c o) as (v & o1 & ->). cbn [snd]. destruct (Z.ltb_spec v 0); [|apply IH].
  clear IH. induction text as [|d text IH]; cbn [put_all]; [done|]. unfold iovprintf_putc at 2. cbn [err].
  rewrite (proj2 (Z.eqb_neq v 0)) by lia. exact IH.
Qed.

(** [iovprintf] writes the text of the format to the object up to the first
    error, which it returns; without an error it returns the length. *)
Lemma iovprintf_ok fmt ap text o : UPrint.printed fmt ap = Some text →
  iovprintf fmt ap o =
  let '(e, o') := feed text o in (Ret (if negb (e =? 0) then e else s64 (u64 (Z.of_nat (length text)))), o').
Proof.
  intros Hp. unfold iovprintf.
  rewrite (UPrint.vgprintf_ok iovprintf_putc (λ _, True) (λ c st, (iovprintf_putc c st).2)) with (out := text); try done.
  - rewrite put_all_feed. by destruct (feed text o).
  - intros c st _. split; [|done]. unfold iovprintf_putc. destruct (err st =? 0); [|done].
    by destruct (ioputc_returns c (vio st)) as (v & o1 & ->).
Qed.
End io.

(** ** On an object that takes everything *)

Section raw.
Context {R : Type} (rd : R → Z → Z * list Z * R) (wr : R → list Z → Z → Z * R) `{!UserIo.RawIo rd wr}.
Implicit Types (o : io R).

Lemma ioputc_raw c o : i_write (intf o) = Some wr →
  ∃ s', UserIo.ioputc c o = (Ret (u8 c), with_ist o s') ∧ UserIo.sent s' = UserIo.sent (ist o) ++ [c].
Proof.
  intros Hw. destruct (UserIo.raw_write (ist o) [c] 1 ltac:(simpl; lia)) as (s' & Hr & Hs & _). exists s'. split; [|exact Hs].
  unfold UserIo.ioputc, UserIo.iowrite, mbind, M_bind. rewrite Hw. change (1 <? 0) with false. cbn iota.
  change (S (Z.to_nat 1)) with 2%nat. cbn [UserIo.iowrite_loop]. by rewrite Hr.
Qed.

Lemma feed_raw text : ∀ o, i_write (intf o) = Some wr →
  ∃ s', feed text o = (0, with_ist o s') ∧ UserIo.sent s' = UserIo.sent (ist o) ++ text.
Proof.
  induction text as [|c text IH]; intros o Hw; cbn [feed].
  { exists (ist o). rewrite app_nil_r. by destruct o. }
  destruct (ioputc_raw c o Hw) as (s1 & -> & Hs1). pose proof (Z.mod_pos_bound c (2 ^ 8) eq_refl) as Hc.
  rewrite (proj2 (Z.ltb_ge (u8 c) 0)) by (unfold u8; lia).
  destruct (IH (with_ist o s1) Hw) as (s2 & -> & Hs2). exists s2. split; [done|]. rewrite Hs2. cbn [ist with_ist].
  by rewrite Hs1, <- app_assoc.
Qed.

(** The text arrives whole and its length is returned. *)
Lemma ioprintf_prints fmt ap text o :
  i_write (intf o) = Some wr → UPrint.printed fmt ap = Some text → Z.of_nat (length text) < 2 ^ 63 →
  ∃ s', ioprintf fmt ap o = (Ret (Z.of_nat (length text)), with_ist o s') ∧ UserIo.sent s' = UserIo.sent (ist o) ++ text.
Proof.
  intros Hw Hp Hl. destruct (feed_raw text o Hw) as (s' & Hf & Hs). exists s'. split; [|done].
  unfold ioprintf. rewrite (iovprintf_ok fmt ap text o Hp), Hf. cbn [negb Z.eqb].
  assert (u64 (Z.of_nat (length text)) = Z.of_nat (length text)) as -> by (apply Z.mod_small; lia).
  unfold s64. rewrite Z.mod_small by lia. do 2 f_equal. lia.
Qed.

(** ** hello *)

(** [char buf[15] = "Hello, world!"]: the text, its NUL and another one. *)
Definition hello_main : M (io R) Z := UserIo.iowrite (chars "Hello, world!" ++ [0; 0]) 15.

Lemma hello_sends_two_nuls o : i_write (intf o) = Some wr →
  ∃ s', hello_main o = (Ret 15, with_ist o s') ∧ UserIo.sent s' = UserIo.sent (ist o) ++ chars "Hello, world!" ++ [0; 0].
Proof.
  intros Hw. destruct (UserIo.raw_write (ist o) (chars "Hello, world!" ++ [0; 0]) 15) as (s' & Hr & Hs & _); [vm_compute; split; discriminate || reflexivity|].
  exists s'. split; [|exact Hs]. unfold hello_main, UserIo.iowrite. rewrite Hw. change (15 <? 0) with false. cbn iota.
  change (S (Z.to_nat 15)) with 16%nat. cbn [UserIo.iowrite_loop]. by rewrite Hr.
Qed.
End raw.

End UIoPrint.
