(* ===== verification/Csr.v ===== *)
(** * Control registers and critical sections (kernel/riscv.h, kernel/intr.h)

    The supervisor control registers, the functions of riscv.h that read and
    write them, and the functions of intr.h that switch interrupts off and on.
    [csrc_sie], [csrc_sip] and [csrc_sstatus] of riscv.h are left out: nothing
    calls them, and their instructions either overwrite an input operand or have
    one operand too few. *)

From S2P Require Import Prelude.

Module Csr.

(** ** The registers *)

Record csrs := Csrs {
  scause : Z; stval : Z; sepc : Z; sscratch : Z; stvec : Z; sie : Z; sip : Z; sstatus : Z; satp : Z; time : Z }.
Implicit Types (s : csrs) (val mask : Z).

Definition with_sepc s x := Csrs (scause s) (stval s) x (sscratch s) (stvec s) (sie s) (sip s) (sstatus s) (satp s) (time s).
Definition with_sscratch s x := Csrs (scause s) (stval s) (sepc s) x (stvec s) (sie s) (sip s) (sstatus s) (satp s) (time s).
Definition with_stvec s x := Csrs (scause s) (stval s) (sepc s) (sscratch s) x (sie s) (sip s) (sstatus s) (satp s) (time s).
Definition with_sie s x := Csrs (scause s) (stval s) (sepc s) (sscratch s) (stvec s) x (sip s) (sstatus s) (satp s) (time s).
Definition with_sip s x := Csrs (scause s) (stval s) (sepc s) (sscratch s) (stvec s) (sie s) x (sstatus s) (satp s) (time s).
Definition with_sstatus s x := Csrs (scause s) (stval s) (sepc s) (sscratch s) (stvec s) (sie s) (sip s) x (satp s) (time s).
Definition with_satp s x := Csrs (scause s) (stval s) (sepc s) (sscratch s) (stvec s) (sie s) (sip s) (sstatus s) x (time s).

(** ** riscv.h *)

Definition RISCV_SIE_STIE : Z := Z.shiftl 1 5.
Definition RISCV_SIE_SEIE : Z := Z.shiftl 1 9.
Definition RISCV_SSTATUS_SIE : Z := Z.shiftl 1 1.

(** [long]: the sign of the register is the interrupt bit. *)
Definition csrr_scause : M csrs Z := gets (λ s, s64 (scause s)).
Definition csrr_stval : M csrs Z := gets stval.
Definition csrw_sepc val : M csrs unit := modify (λ s, with_sepc s val).
Definition csrr_sepc : M csrs Z := gets sepc.
Definition csrw_sscratch val : M csrs unit := modify (λ s, with_sscratch s val).
Definition csrr_sscratch : M csrs Z := gets sscratch.
Definition csrw_stvec val : M csrs unit := modify (λ s, with_stvec s val).
Definition csrw_sie mask : M csrs unit := modify (λ s, with_sie s mask).
Definition csrs_sie mask : M csrs unit := modify (λ s, with_sie s (Z.lor (sie s) mask)).
Definition csrw_sip mask : M csrs unit := modify (λ s, with_sip s mask).
Definition csrs_sip mask : M csrs unit := modify (λ s, with_sip s (Z.lor (sip s) mask)).
Definition csrr_sstatus : M csrs Z := gets sstatus.
Definition csrs_sstatus mask : M csrs unit := modify (λ s, with_sstatus s (Z.lor (sstatus s) mask)).
Definition csrr_satp : M csrs Z := gets satp.
Definition csrw_satp val : M csrs unit := modify (λ s, with_satp s val).
Definition csrrw_satp new_val : M csrs Z := λ s, (Ret (satp s), with_satp s new_val).
Definition rdtime : M csrs Z := gets time.

(** The old value of the whole register, as a [long]. *)
Definition csrrsi_sstatus_SIE : M csrs Z := λ s,
  (Ret (s64 (sstatus s)), with_sstatus s (Z.lor (sstatus s) RISCV_SSTATUS_SIE)).
Definition csrrci_sstatus_SIE : M csrs Z := λ s,
  (Ret (s64 (sstatus s)), with_sstatus s (Z.ldiff (sstatus s) RISCV_SSTATUS_SIE)).
Definition csrwi_sstatus_SIE (newval : Z) : M csrs unit :=
  modify (λ s, with_sstatus s (Z.ldiff (sstatus s) RISCV_SSTATUS_SIE));;
  csrs_sstatus (Z.land newval RISCV_SSTATUS_SIE).

(** ** intr.h *)

Definition enable_interrupts : M csrs Z := csrrsi_sstatus_SIE.
Definition disable_interrupts : M csrs Z := csrrci_sstatus_SIE.
(** The parameter is an [int]. *)
Definition restore_interrupts (prev_state : Z) : M csrs unit := csrwi_sstatus_SIE (s32 prev_state).
Definition interrupts_enabled : M csrs bool := x ← csrr_sstatus; mret (negb (Z.land x RISCV_SSTATUS_SIE =? 0)).
Definition interrupts_disabled : M csrs bool := x ← csrr_sstatus; mret (Z.land x RISCV_SSTATUS_SIE =? 0).

(** ** Critical sections *)

(** The way the kernel uses these functions: a section saves what
    [disable_interrupts] returns, through an [int], and restores it; sections
    nest and follow one another.  [Look] stands for a point where an interrupt
    could be taken. *)
Inductive code := Skip | Look | Seq (a b : code) | Critical (a : code).

Fixpoint run (c : code) : M csrs (list bool) :=
  match c with
  | Skip => mret []
  | Look => e ← interrupts_enabled; mret [e]
  | Seq a b => x ← run a; y ← run b; mret (x ++ y)
  | Critical a =>
      pie ← disable_interrupts;
      x ← run a;
      restore_interrupts (s32 pie);;
      mret x
  end.

(** What is seen: nothing inside a section can be interrupted. *)
Fixpoint looks (enabled : bool) (c : code) : list bool :=
  match c with
  | Skip => []
  | Look => [enabled]
  | Seq a b => looks enabled a ++ looks enabled b
  | Critical a => looks false a
  end.

Definition SIE s : bool := Z.testbit (sstatus s) 1.

Lemma land_SIE x : Z.land x RISCV_SSTATUS_SIE = if Z.testbit x 1 then RISCV_SSTATUS_SIE else 0.
Proof.
  unfold RISCV_SSTATUS_SIE. apply Z.bits_inj'. intros n Hn. rewrite Z.land_spec, Z.shiftl_1_l, Z.pow2_bits_eqb by lia.
  destruct (Z.eqb_spec 1 n) as [<-|]; [|rewrite andb_false_r; destruct (Z.testbit x 1); [|by rewrite Z.bits_0]].
  - rewrite andb_true_r. by destruct (Z.testbit x 1) eqn:E.
  - symmetry. rewrite Z.pow2_bits_eqb by lia. by apply Z.eqb_neq.
Qed.

Lemma bit1_mod4 x y : x mod 4 = y mod 4 → Z.testbit x 1 = Z.testbit y 1.
Proof.
  intros E. change 4 with (2 ^ 2) in E. rewrite <- (Z.mod_pow2_bits_low x 2 1), <- (Z.mod_pow2_bits_low y 2 1) by lia. by rewrite E.
Qed.

Lemma s32_bit1 x : Z.testbit (s32 x) 1 = Z.testbit x 1.
Proof. apply bit1_mod4. unfold s32. Z.div_mod_to_equations. lia. Qed.

Lemma s64_bit1 x : Z.testbit (s64 x) 1 = Z.testbit x 1.
Proof. apply bit1_mod4. unfold s64. Z.div_mod_to_equations. lia. Qed.

Lemma disabled_SIE s x : SIE (with_sstatus s (Z.ldiff x RISCV_SSTATUS_SIE)) = false.
Proof. unfold SIE. cbn [sstatus with_sstatus]. rewrite Z.ldiff_spec. apply andb_false_r. Qed.

(** Clearing the bit and setting it to what it was changes nothing. *)
Lemma restore_run s x :
  restore_interrupts (s32 (s64 x)) (with_sstatus s (Z.ldiff x RISCV_SSTATUS_SIE)) = (Ret tt, with_sstatus s x).
Proof.
  unfold restore_interrupts, csrwi_sstatus_SIE, csrs_sstatus. kmodify. unfold modify. cbn [sstatus with_sstatus scause stval sepc sscratch stvec sie sip satp time].
  rewrite land_SIE, !s32_bit1, s64_bit1. do 2 f_equal. unfold with_sstatus. f_equal. apply Z.bits_inj'. intros n Hn.
  unfold RISCV_SSTATUS_SIE. rewrite Z.lor_spec, !Z.ldiff_spec, Z.shiftl_1_l, Z.pow2_bits_eqb by lia.
  destruct (Z.eqb_spec 1 n) as [<-|Hne]; cbn [negb].
  - rewrite !andb_false_r, orb_false_l. by destruct (Z.testbit x 1).
  - rewrite !andb_true_r. destruct (Z.testbit x 1); [|by rewrite Z.bits_0, orb_false_r].
    rewrite Z.pow2_bits_eqb by lia. rewrite (proj2 (Z.eqb_neq 1 n)) by done. apply orb_false_r.
Qed.

(** Critical sections: however they nest, inside them interrupts are off,
    outside they are as before, and at the end every control register is what it
    was, although the saved status register goes through an [int]. *)
Lemma critical_sections_nest c s : run c s = (Ret (looks (SIE s) c), s).
Proof.
  revert s. induction c as [| |a IHa b IHb|a IH]; intros s; cbn [run looks].
  - done.
  - unfold interrupts_enabled, csrr_sstatus. rewrite bind_bind. kgets. kret. unfold SIE. rewrite land_SIE. by destruct (Z.testbit (sstatus s) 1).
  - krun (IHa s). by krun (IHb s).
  - assert (disable_interrupts s = (Ret (s64 (sstatus s)), with_sstatus s (Z.ldiff (sstatus s) RISCV_SSTATUS_SIE))) as R by done.
    krun R. krun (IH (with_sstatus s (Z.ldiff (sstatus s) RISCV_SSTATUS_SIE))). rewrite disabled_SIE.
    krun (restore_run s (sstatus s)). by destruct s.
Qed.

(** [enable_interrupts] and [disable_interrupts] change one bit. *)
Lemma interrupts_switched s (on : bool) :
  ∃ s', (if on then enable_interrupts else disable_interrupts) s = (Ret (s64 (sstatus s)), s') ∧ SIE s' = on ∧
    (∀ n, 0 ≤ n → n ≠ 1 → Z.testbit (sstatus s') n = Z.testbit (sstatus s) n) ∧ s' = with_sstatus s (sstatus s').
Proof.
  destruct on; eexists; (split; [reflexivity|]); unfold SIE; cbn [sstatus with_sstatus]; unfold RISCV_SSTATUS_SIE; (split; [|split; [|done]]).
  - rewrite Z.lor_spec. apply orb_true_r.
  - intros n Hn Hne. rewrite Z.lor_spec, Z.shiftl_1_l, Z.pow2_bits_eqb, (proj2 (Z.eqb_neq 1 n)) by lia. apply orb_false_r.
  - rewrite Z.ldiff_spec. apply andb_false_r.
  - intros n Hn Hne. rewrite Z.ldiff_spec, Z.shiftl_1_l, Z.pow2_bits_eqb, (proj2 (Z.eqb_neq 1 n)) by lia. apply andb_true_r.
Qed.

End Csr.
