(* ===== verification/Panic.v ===== *)
(** * Panic, assertions and error names (kernel/assert.c, kernel/error.c)

    A panic and a failed assertion print a message and stop the machine; their
    result is the console at that point.  In the other files both are the
    outcome [Panic]. *)

From Stdlib Require Import Ascii String.
From S2P Require Import Prelude Config Strings Device Console.
Import Str Console.

Module Stop.

(** ** Messages *)

Implicit Types (s : tty) (srcfile msg stmt : option cstr).

(** The console when [halt_failure] is reached; [None] where the formatter
    would read an argument that is not there. *)
Definition halt_failure (r : option (outcome unit * tty)) : option tty := snd <$> r.

Definition panic_actual srcfile (srcline : Z) msg s : option tty :=
  halt_failure
    (match msg with
     | Some (_ :: _) => klprintf (Some (chars "PANIC")) srcfile srcline (chars "%s" ++ [LF]) [VPtr msg] s
     | _ => klprintf (Some (chars "PANIC")) srcfile srcline [LF] [] s
     end).

Definition assert_failed srcfile (srcline : Z) stmt s : option tty :=
  halt_failure (klprintf (Some (chars "ASSERT")) srcfile srcline (chars "failed (%s)" ++ [LF]) [VPtr stmt] s).

(** ** Names of errors *)

(** The array of names; the gap is an element that no initializer names. *)
Definition error_names : list (option cstr) :=
  [Some (chars "(success)"); Some (chars "EINVAL"); Some (chars "EBUSY"); Some (chars "ENOTSUP"); Some (chars "ENODEV"); Some (chars "EIO");
   Some (chars "EBADFMT"); Some (chars "ENOENT"); Some (chars "EACCESS"); Some (chars "EBADFD"); Some (chars "EMFILE"); Some (chars "EMPROC");
   Some (chars "EMTHR"); Some (chars "ECHILD"); Some (chars "ENOMEM"); None; Some (chars "ENODATABLKS"); Some (chars "ENOINODEBLKS")].
Definition unknown : cstr := chars "(unknown)".

(** The comparison with the size is unsigned. *)
Definition error_name (code : Z) : cstr :=
  let code := if code <? 0 then s32 (- code) else code in
  let name := if u64 code <? Z.of_nat (length error_names) then getb None error_names code else None in
  default unknown name.

(** ** What is printed *)

Lemma kvprintf_run fmt ap t s : printed fmt ap = Some t → CR ∉ t → put_prev s ≠ CR →
  ∃ s', kvprintf fmt ap s = Some (Ret tt, s') ∧ out s' = out s ++ (t ≫= crlf) ∧ put_prev s' ≠ CR.
Proof.
  intros Hpr Hcr Hp. destruct (put_all_crlf t s Hcr Hp) as (p & Hall & Hpp).
  unfold kvprintf. unfold vgprintf, printed in *. rewrite vgprintf_loop_text, Hpr by lia.
  cbn [fmap option_fmap option_map mbind option_bind]. rewrite Hall. by eexists.
Qed.

(** Where a message comes from: "PANIC main.c:54: ". *)
Definition location (label file : cstr) (line : Z) : list Z := label ++ [32] ++ file ++ [58] ++ int_text line 10 false 0 ++ [58; 32].

Lemma str_text_plain t : str_text (Some t) 0 = t.
Proof. unfold str_text. cbn [default]. replace (Z.to_nat _) with O by lia. apply app_nil_r. Qed.

Lemma location_printed label file line : 0 ≤ line < 2 ^ 31 →
  printed label_fmt [VPtr (Some label); VPtr (Some file); VReg line] = Some (location label file line).
Proof.
  intros Hl. assert (s32 line = line) as Es by (unfold s32; rewrite Z.mod_small; lia).
  transitivity (Some (str_text (Some label) 0 ++ 32 :: str_text (Some file) 0 ++ 58 ::
    (if s32 line <? 0 then 45 :: int_text (- s32 line) 10 false (0 - 1) else int_text (s32 line) 10 false 0) ++ [58; 32])); [reflexivity|].
  by rewrite Es, (proj2 (Z.ltb_ge line 0)), !str_text_plain by lia.
Qed.

Lemma klprintf_prints label file line fmt ap t s :
  0 ≤ line < 2 ^ 31 → printed fmt ap = Some t → CR ∉ location label file line → CR ∉ t → put_prev s ≠ CR →
  ∃ s', klprintf (Some label) (Some file) line fmt ap s = Some (Ret tt, s') ∧ out s' = out s ++ ((location label file line ++ t ++ [LF]) ≫= crlf).
Proof.
  intros Hl Ht Hc0 Hc Hp. unfold klprintf, kprintf.
  destruct (kvprintf_run label_fmt _ _ s (location_printed label file line Hl) Hc0 Hp) as (s1 & -> & Ho1 & Hp1).
  destruct (kvprintf_run fmt ap t s1 Ht Hc Hp1) as (s2 & -> & Ho2 & Hp2). rewrite kputc_crlf by done.
  eexists. split; [reflexivity|]. cbn [out]. by rewrite Ho2, Ho1, !bind_app, <- !app_assoc.
Qed.

(** The message of a panic or of a failed assertion, with the place it comes
    from.  [klprintf] ends the line, and so do the formats: a blank line
    follows. *)
Lemma stop_messages file line text s :
  0 ≤ line < 2 ^ 31 → CR ∉ location (chars "PANIC") file line → CR ∉ location (chars "ASSERT") file line → CR ∉ text → put_prev s ≠ CR →
  (∃ s', panic_actual (Some file) line (Some text) s = Some s' ∧ out s' = out s ++ ((location (chars "PANIC") file line ++ text ++ [LF; LF]) ≫= crlf)) ∧
  (∃ s', assert_failed (Some file) line (Some text) s = Some s' ∧
     out s' = out s ++ ((location (chars "ASSERT") file line ++ chars "failed (" ++ text ++ chars ")" ++ [LF; LF]) ≫= crlf)).
Proof.
  intros Hl Hc1 Hc2 Ht Hp. assert (CR ∉ text ++ [LF]) as Ht1 by (rewrite not_elem_of_app, not_elem_of_cons; split_and!; [done|done|apply not_elem_of_nil]). split.
  - unfold panic_actual. destruct text as [|c r].
    + destruct (klprintf_prints (chars "PANIC") file line [LF] [] [LF] s Hl eq_refl Hc1 Ht1 Hp) as (s' & K & Ho). exists s'. split; [exact (f_equal halt_failure K)|exact Ho].
    + assert (printed (chars "%s" ++ [LF]) [VPtr (Some (c :: r))] = Some ((c :: r) ++ [LF])) as Hpr
        by (transitivity (Some (str_text (Some (c :: r)) 0 ++ [LF])); [reflexivity|by rewrite str_text_plain]).
      destruct (klprintf_prints (chars "PANIC") file line _ _ _ s Hl Hpr Hc1 Ht1 Hp) as (s' & K & Ho). exists s'. split; [exact (f_equal halt_failure K)|].
      rewrite Ho. by rewrite <- (app_assoc (c :: r)).
  - unfold assert_failed.
    assert (printed (chars "failed (%s)" ++ [LF]) [VPtr (Some text)] = Some (chars "failed (" ++ text ++ chars ")" ++ [LF])) as Hpr
      by (transitivity (Some (chars "failed (" ++ str_text (Some text) 0 ++ chars ")" ++ [LF])); [reflexivity|by rewrite str_text_plain]).
    destruct (klprintf_prints (chars "ASSERT") file line _ _ _ s Hl Hpr Hc2) as (s' & K & Ho); [|done|].
    + rewrite !not_elem_of_app. split_and!; [by apply (bool_decide_unpack _)|done|by apply (bool_decide_unpack _)..].
    + exists s'. split; [exact (f_equal halt_failure K)|]. rewrite Ho. by rewrite <- !app_assoc.
Qed.

(** ** Every error but one has a name *)

(** The codes of error.h. *)
Definition error_codes : list (Z * cstr) :=
  [(EINVAL, chars "EINVAL"); (EBUSY, chars "EBUSY"); (ENOTSUP, chars "ENOTSUP"); (ENODEV, chars "ENODEV"); (EIO, chars "EIO");
   (EBADFMT, chars "EBADFMT"); (ENOENT, chars "ENOENT"); (EACCESS, chars "EACCESS"); (EBADFD, chars "EBADFD"); (EMFILE, chars "EMFILE");
   (EMPROC, chars "EMPROC"); (EMTHR, chars "EMTHR"); (ECHILD, chars "ECHILD"); (ENOMEM, chars "ENOMEM");
   (ENODATABLKS, chars "ENODATABLKS"); (ENOINODEBLKS, chars "ENOINODEBLKS")].

(** [error_name] on an [int]: a code of error.h, with either sign, has its own
    name, except EPIPE; every other number, the smallest one included, is
    unknown. *)
Lemma error_name_ok code : -2 ^ 31 ≤ code < 2 ^ 31 → code ≠ 0 →
  error_name code = match list_find (λ e, Z.abs code = e.1) error_codes with Some (_, e) => e.2 | None => unknown end.
Proof.
  intros Hc H0. unfold error_name. set (k := if code <? 0 then s32 (- code) else code).
  destruct (decide (Z.abs code < 18)) as [Hlt|Hge].
  - assert (code ∈ seqZ (-17) 35) as Hin by (apply elem_of_seqZ; lia).
    revert Hin H0. unfold k. clear. intros Hin H0.
    assert (Forall (λ c, c ≠ 0 → let k := if c <? 0 then s32 (- c) else c in
      default unknown (if u64 k <? Z.of_nat (length error_names) then getb None error_names k else None) =
      match list_find (λ e, Z.abs c = e.1) error_codes with Some (_, e) => e.2 | None => unknown end) (seqZ (-17) 35)) as Hall.
    { apply (bool_decide_unpack _). vm_compute. exact I. }
    rewrite Forall_forall in Hall. exact (Hall code Hin H0).
  - assert (18 ≤ u64 k) as Hk.
    { unfold k, u64, s32. destruct (Z.ltb_spec code 0); [|rewrite Z.mod_small; lia].
      destruct (decide (code = -2 ^ 31)) as [->|]; [by vm_compute|]. rewrite (Z.mod_small (- code + 2 ^ 31)) by lia. rewrite Z.mod_small; lia. }
    change (Z.of_nat (length error_names)) with 18. rewrite (proj2 (Z.ltb_ge _ _)) by done.
    assert (list_find (λ e, Z.abs code = e.1) error_codes = None) as ->; [|done].
    apply list_find_None. unfold error_codes, EINVAL, EBUSY, ENOTSUP, ENODEV, EIO, EBADFMT, ENOENT, EACCESS, EBADFD, EMFILE, EMPROC, EMTHR, ECHILD, ENOMEM, ENODATABLKS, ENOINODEBLKS.
    repeat (apply Forall_cons_2; [cbn [fst]; lia|]). apply Forall_nil_2.
Qed.

Lemma epipe_has_no_name : error_name (- EPIPE) = unknown.
Proof. done. Qed.

End Stop.
