(* ===== verification/Startup.v ===== *)
(** * Start-up (kernel/main.c)

    [main] brings the parts of the kernel up in order and starts the first
    program.  The state is that of all the parts; each step runs the function of
    its part on the part's own state.  The memory manager's state is inside the
    heap's, and every part sees the same device table, interrupt controller,
    threads and status register.

    The addresses of structures the drivers allocate are arguments, as in the
    drivers' own files.  The file system is a parameter: what mounting and opening
    do for the state [F] of the layers below (Ktfs on Cache on Vioblk). *)

From Stdlib Require Import Ascii String.
From S2P Require Import Prelude Config Io PhysPages PageTable PageTableProofs Threads ThreadProofs LockProofs SchedProofs Heap Boot Intr.
From S2P Require Import Strings Device Virtio Vioblk VioblkProofs VioblkDisk Viorng Attach Elf UserMem Exec Process ProcessProofs Csr Console.

Module Startup.

Section startup.
Context {D E St F : Type} `{Vioblk.VirtioBlk D} `{Viorng.EntropySource E}.
Context (fsmount : option nat → M F Z) (fsopen : Str.cstr → M F (Z * option (io St))).
(** The console's operations as an I/O object. *)
Context (console_state : St) (console_intf : iointf St).

(** ** The machine *)

(** A VirtIO slot: its registers, and what is behind them for the driver that
    attaches to it. *)
Record slot := Slot { sregs : Virtio.mmio; sdisk : D; sent : E }.

(** What the allocations for a slot return: the structure, its rings, its lock
    and condition, and the uninitialized array of features. *)
Record valloc := VAlloc { va_p : Z; va_desc : Z; va_used : Z; va_avail : Z; va_lock : nat; va_cond : nat; va_junk : list Z }.

Record machine := Machine {
  console_initialized : bool; devmgr_initialized : bool; thrmgr_initialized : bool; procmgr_initialized : bool;
  m_dev : Attach.asys; m_intr : Intr.isys; m_boot : Boot.boot;
  m_kern : Threads.ks; m_ios : gmap nat (io St); m_proctab : list (option nat); m_procs : gmap nat Process.process;
  m_slots : list slot; m_blks : gmap Z (Vioblk.vioblk_device * Vioblk.dmem); m_rngs : gmap Z (Viorng.viorng_device * Viorng.rmem);
  m_fs : F; m_umem : Elf.memory }.
Implicit Types (m : machine) (sl : slot) (a : valloc).

Definition with_flags m c d t p : machine :=
  Machine c d t p (m_dev m) (m_intr m) (m_boot m) (m_kern m) (m_ios m) (m_proctab m) (m_procs m) (m_slots m) (m_blks m) (m_rngs m) (m_fs m) (m_umem m).
(** The state the device drivers share. *)
Definition with_parts m d i k : machine :=
  Machine (console_initialized m) (devmgr_initialized m) (thrmgr_initialized m) (procmgr_initialized m) d i (m_boot m) k (m_ios m) (m_proctab m) (m_procs m)
          (m_slots m) (m_blks m) (m_rngs m) (m_fs m) (m_umem m).
Definition with_slots m s b r : machine :=
  Machine (console_initialized m) (devmgr_initialized m) (thrmgr_initialized m) (procmgr_initialized m) (m_dev m) (m_intr m) (m_boot m) (m_kern m) (m_ios m)
          (m_proctab m) (m_procs m) s b r (m_fs m) (m_umem m).
Definition with_boot m b : machine :=
  Machine (console_initialized m) (devmgr_initialized m) (thrmgr_initialized m) (procmgr_initialized m) (m_dev m) (m_intr m) b (m_kern m) (m_ios m)
          (m_proctab m) (m_procs m) (m_slots m) (m_blks m) (m_rngs m) (m_fs m) (m_umem m).
Definition with_psys m (s : Process.psys St) : machine :=
  Machine (console_initialized m) (devmgr_initialized m) (thrmgr_initialized m) (procmgr_initialized m) (m_dev m) (m_intr m)
          (Boot.MkBoot (Boot.with_pgs (Boot.bheap (m_boot m)) (Process.mem s)) (Boot.sstatus (m_boot m)) (Boot.memory_initialized (m_boot m)))
          (Process.kern s) (Process.ios s) (Process.proctab s) (Process.procs s) (m_slots m) (m_blks m) (m_rngs m) (m_fs m) (m_umem m).
Definition with_fs m x : machine :=
  Machine (console_initialized m) (devmgr_initialized m) (thrmgr_initialized m) (procmgr_initialized m) (m_dev m) (m_intr m) (m_boot m) (m_kern m) (m_ios m)
          (m_proctab m) (m_procs m) (m_slots m) (m_blks m) (m_rngs m) x (m_umem m).
Definition with_umem m x : machine :=
  Machine (console_initialized m) (devmgr_initialized m) (thrmgr_initialized m) (procmgr_initialized m) (m_dev m) (m_intr m) (m_boot m) (m_kern m) (m_ios m)
          (m_proctab m) (m_procs m) (m_slots m) (m_blks m) (m_rngs m) (m_fs m) x.

(** The memory manager, and the state of the process manager. *)
Definition pages_of m : PhysPages.mm := Heap.pgs (Boot.bheap (m_boot m)).
Definition psys_of m : Process.psys St := Process.PSys (m_kern m) (pages_of m) (m_ios m) (m_proctab m) (m_procs m).

Definition on_dev {A} (f : M Attach.asys A) : M machine A := λ m, let (r, x) := f (m_dev m) in (r, with_parts m x (m_intr m) (m_kern m)).
Definition on_intr {A} (f : M Intr.isys A) : M machine A := λ m, let (r, x) := f (m_intr m) in (r, with_parts m (m_dev m) x (m_kern m)).
Definition on_boot {A} (f : M Boot.boot A) : M machine A := λ m, let (r, x) := f (m_boot m) in (r, with_boot m x).
Definition on_psys {A} (f : M (Process.psys St) A) : M machine A := λ m, let (r, x) := f (psys_of m) in (r, with_psys m x).
Definition on_fs {A} (f : M F A) : M machine A := λ m, let (r, x) := f (m_fs m) in (r, with_fs m x).

(** The status register; the others play no part here. *)
Definition on_status {A} (f : M Csr.csrs A) : M machine A := λ m,
  let (r, x) := f (Csr.Csrs 0 0 0 0 0 (Intr.sie (m_intr m)) 0 (Boot.sstatus (m_boot m)) (Threads.active (m_kern m)) 0) in
  (r, with_boot m (Boot.MkBoot (Boot.bheap (m_boot m)) (Csr.sstatus x) (Boot.memory_initialized (m_boot m)))).

(** ** The initialization functions *)

Definition console_init : M machine unit :=
  on_dev Attach.console_device_init;;
  modify (λ m, with_flags m true (devmgr_initialized m) (thrmgr_initialized m) (procmgr_initialized m)).

Definition devmgr_init : M machine unit :=
  modify (λ m, with_flags m (console_initialized m) true (thrmgr_initialized m) (procmgr_initialized m)).

Definition intrmgr_init : M machine unit := _ ← on_status Csr.disable_interrupts; on_intr Intr.intrmgr_init.

(** [cm] and [ci] are the conditions inside the two static threads; the active
    memory space is the one [memory_init] installed. *)
Definition thrmgr_init (cm ci : nat) : M machine unit :=
  modify (λ m, with_parts m (m_dev m) (m_intr m) (Threads.with_active (Threads.initial cm ci) (PhysPages.satp (pages_of m))));;
  modify (λ m, with_flags m (console_initialized m) (devmgr_initialized m) true (procmgr_initialized m)).

Definition main_proc : nat := 0.

Definition procmgr_init : M machine unit :=
  ready ← gets (λ m, (Boot.memory_initialized (m_boot m) && Heap.heap_initialized (Boot.bheap (m_boot m)))%bool);
  if negb ready then panic
  else
    i ← gets procmgr_initialized;
    on_psys (Process.procmgr_init main_proc i);;
    modify (λ m, with_flags m (console_initialized m) (devmgr_initialized m) (thrmgr_initialized m) true).

(** ** Devices *)

(** A driver on its structure at address [p] and the registers of slot [i]. *)
Definition blk_state m (p : Z) sl : Vioblk.vsys D :=
  let '(d, x) := default (Vioblk.VioblkDevice 0 0 0 0 0 0 0, Vioblk.fresh_mem (Vioblk.DMem [] 0 [] 0 [] (Vioblk.ReqHdr 0 0 0) 0 ∅)) (m_blks m !! p) in
  Vioblk.VSys (m_kern m) (m_intr m) (Attach.devtab (m_dev m)) (sregs sl) d x (sdisk sl) ∅.
Definition rng_state m (p : Z) sl : Viorng.rsys E :=
  let '(d, x) := default (Viorng.ViorngDevice 0 0 0 0 0 0, Viorng.fresh_mem) (m_rngs m !! p) in
  Viorng.RSys (m_kern m) (m_intr m) (Attach.devtab (m_dev m)) (sregs sl) d x (sent sl).

Definition with_devtab (s : Attach.asys) t : Attach.asys := Attach.ASys t (Attach.ports s) (Attach.uarts s).

Definition put_blk (i : nat) (p : Z) (s : Vioblk.vsys D) sl m : machine :=
  with_slots (with_parts m (with_devtab (m_dev m) (Vioblk.devtab s)) (Vioblk.intr s) (Vioblk.kern s))
             (<[i := Slot (Vioblk.regs s) (Vioblk.disk s) (sent sl)]> (m_slots m)) (<[p := (Vioblk.dev s, Vioblk.mem s)]> (m_blks m)) (m_rngs m).
Definition put_rng (i : nat) (p : Z) (s : Viorng.rsys E) sl m : machine :=
  with_slots (with_parts m (with_devtab (m_dev m) (Viorng.devtab s)) (Viorng.intr s) (Viorng.kern s))
             (<[i := Slot (Viorng.regs s) (sdisk sl) (Viorng.ent s)]> (m_slots m)) (m_blks m) (<[p := (Viorng.dev s, Viorng.mem s)]> (m_rngs m)).

Definition get_slot (i : nat) : M machine slot := o ← gets (λ m, m_slots m !! i); match o with Some sl => mret sl | None => panic end.
Definition blk_at {A} (i : nat) (p : Z) (f : M (Vioblk.vsys D) A) sl : M machine A := λ m,
  let (r, s) := f (blk_state m p sl) in (r, put_blk i p s sl m).
Definition rng_at {A} (i : nat) (p : Z) (f : M (Viorng.rsys E) A) sl : M machine A := λ m,
  let (r, s) := f (rng_state m p sl) in (r, put_rng i p s sl m).
Definition regs_at {A} (i : nat) (f : M Virtio.mmio A) sl : M machine A := λ m,
  let (r, x) := f (sregs sl) in (r, with_slots m (<[i := Slot x (sdisk sl) (sent sl)]> (m_slots m)) (m_blks m) (m_rngs m)).
Definition on_blk {A} (i : nat) (p : Z) (f : M (Vioblk.vsys D) A) : M machine A := sl ← get_slot i; blk_at i p f sl.
Definition on_rng {A} (i : nat) (p : Z) (f : M (Viorng.rsys E) A) : M machine A := sl ← get_slot i; rng_at i p f sl.
Definition on_slot {A} (i : nat) (f : M Virtio.mmio A) : M machine A := sl ← get_slot i; regs_at i f sl.

Definition VIRTIO0_INTR_SRCNO : Z := 1.

(** [virtio_attach] with the attach functions it calls; no driver for the
    console and the GPU is linked in. *)
Definition virtio_attach (i : nat) a : M machine unit :=
  let irq := VIRTIO0_INTR_SRCNO + Z.of_nat i in
  d ← on_slot i Virtio.virtio_attach;
  match d with
  | Some Virtio.Vioblk => on_blk i (va_p a) (Vioblk.vioblk_attach true (va_p a) (va_desc a) (va_used a) (va_avail a) (va_lock a) (va_cond a) (va_junk a) irq)
  | Some Virtio.Viorng => on_rng i (va_p a) (Viorng.viorng_attach (va_p a) (va_desc a) (va_used a) (va_avail a) (va_cond a) (va_junk a) irq)
  | _ => mret tt
  end.

(** The loop of [main] over [n] slots from number [i] on. *)
Fixpoint attach_virtio (n i : nat) (allocs : list valloc) : M machine unit :=
  match n, allocs with
  | O, _ => mret tt
  | S n, a :: rest => virtio_attach i a;; attach_virtio n (S i) rest
  | S _, [] => panic
  end.
Definition NUM_SLOTS : nat := 8.

(** [vioblk_open] through its structure; [main] opens no other kind of device. *)
Definition run_open (f : nat) (p : Z) : M machine (Z * option nat) :=
  if decide (f = Vioblk.open_id) then
    o ← gets (λ m, m_blks m !! p);
    match o with
    | None => panic
    | Some (d, x) =>
        if negb (Vioblk.refcnt d =? 0) then mret (- EBUSY, None)
        else modify (λ m, with_slots m (m_slots m) (<[p := (Vioblk.set_ref (Vioblk.refcnt d + 1) d, x)]> (m_blks m)) (m_rngs m));; mret (0, Some (Z.to_nat p))
    end
  else panic.

(** ** [main] *)

Definition INIT_NAME : Str.cstr := Str.chars "trekfib".

(** The managers. *)
Definition init_managers img (cm ci : nat) : M machine unit :=
  console_init;;
  devmgr_init;;
  intrmgr_init;;
  on_boot (Boot.memory_init img);;
  thrmgr_init cm ci;;
  procmgr_init.

(** Everything before the first device is opened. *)
Definition bring_up img (cm ci : nat) (ps : list Z) (p : Z) (allocs : list valloc) : M machine unit :=
  init_managers img cm ci;;
  on_dev (Attach.attach_fixed ps p);;
  attach_virtio NUM_SLOTS 0 allocs;;
  _ ← on_status Csr.enable_interrupts;
  mret tt.

(** [cio] is what [make_console_io] returns. *)
Definition install_console (cio : option nat) : M machine unit :=
  match cio with
  | None => mret tt
  | Some c =>
      on_psys (modify (λ s, Process.with_ios s (<[c := ioinit1 console_state console_intf]> (Process.ios s))));;
      p ← on_psys Process.current_process;
      match p with
      | None => panic
      | Some p =>
          on_psys (Process.set_slot p 0 (Some c));;
          on_psys (Process.addref c);;
          on_psys (Process.set_slot p 1 (Some c));;
          on_psys (Process.addref c);;
          on_psys (Process.set_slot p 2 (Some c))
      end
  end.

(** [process_exec] on the memory and on the file [o]. *)
Definition exec_file (o : io St) (proc : option nat) : M machine Exec.user_frame := λ m,
  let mm := pages_of m in
  let mm := PhysPages.Mm (PhysPages.words mm) (PhysPages.free_chunk_list mm) (Threads.active (m_kern m)) (PhysPages.main_mtag mm) in
  let (r, x) := Exec.process_exec 0 proc 0 PhysPages.NULL (Boot.sstatus (m_boot m)) (Elf.ESys o (UserMem.Paged mm (m_umem m))) in
  let p := Elf.umem x in
  (r, with_umem (with_psys m (Process.PSys (Threads.with_active (m_kern m) (PhysPages.satp (UserMem.pmm p))) (UserMem.pmm p) (m_ios m) (m_proctab m) (m_procs m)))
                (UserMem.view p)).

Definition start_init (kmalloc : bool) (c : nat) : M machine Exec.user_frame :=
  t ← gets (λ m, Attach.devtab (m_dev m));
  b ← Device.open_device run_open t Vioblk.VIOBLK_NAME 1;
  if b.1 <? 0 then panic
  else
    rc ← on_fs (fsmount b.2);
    if rc <? 0 then panic
    else
      f ← on_fs (fsopen INIT_NAME);
      if f.1 <? 0 then panic
      else
        install_console (Console.make_console_io kmalloc c);;
        p ← on_psys Process.current_process;
        match f.2 with
        | None => panic
        | Some o =>
            fr ← attempt (exec_file o p);
            match fr with Some fr => mret fr | None => panic end
        end.

Definition main img (cm ci : nat) (ps : list Z) (p : Z) (allocs : list valloc) (kmalloc : bool) (c : nat) : M machine Exec.user_frame :=
  bring_up img cm ci ps p allocs;; start_init kmalloc c.


(** ** Attaching the slots *)

(** Which driver a slot gets. *)
Definition driver_of (r : Virtio.mmio) : option Virtio.driver :=
  if ((Virtio.magic_value r =? Virtio.VIRTIO_MAGIC) && (Virtio.version r =? 2) && negb (Virtio.device_id r =? Virtio.VIRTIO_ID_NONE))%bool then
    if Virtio.device_id r =? Virtio.VIRTIO_ID_CONSOLE then Some Virtio.Viocons
    else if Virtio.device_id r =? Virtio.VIRTIO_ID_BLOCK then Some Virtio.Vioblk
    else if Virtio.device_id r =? Virtio.VIRTIO_ID_RNG then Some Virtio.Viorng
    else if Virtio.device_id r =? Virtio.VIRTIO_ID_GPU then Some Virtio.Viogpu
    else None
  else None.

(** A device that follows the specification: it accepts the features it
    offered, and the block size is a power of two; it has seen no request. *)
Definition slot_ok sl : Prop :=
  (∀ fs, Virtio.accepts (sregs sl) fs = true) ∧
  match driver_of (sregs sl) with
  | Some Virtio.Vioblk =>
      (let bs := if Z.testbit (getb 0 (Virtio.offered (sregs sl)) 0) 6 then Virtio.blk_size (sregs sl) else 512 in Z.land (u32 (bs - 1)) bs = 0) ∧
      Vioblk.vb_ok (sdisk sl) ∧ Vioblk.vb_seen (sdisk sl) = 0
  | Some Virtio.Viorng => Viorng.es_ok (sent sl) ∧ Viorng.es_seen (sent sl) = 0
  | _ => True
  end.

(** The entries of the device table for a slot and for all slots. *)
Definition entry_of a sl : list Device.dev_entry :=
  match driver_of (sregs sl) with
  | Some Virtio.Vioblk => [Device.DevEntry Vioblk.VIOBLK_NAME (Some Vioblk.open_id) (va_p a)]
  | Some Virtio.Viorng => [Device.DevEntry Viorng.VIORNG_NAME (Some Viorng.open_id) (va_p a)]
  | _ => []
  end.
Fixpoint registered (allocs : list valloc) (sls : list slot) : list Device.dev_entry :=
  match allocs, sls with
  | a :: allocs, sl :: sls => entry_of a sl ++ registered allocs sls
  | _, _ => []
  end.

Lemma virtio_attach_run r : (∀ fs, Virtio.accepts r fs = true) →
  ∃ r', Virtio.virtio_attach r = (Ret (driver_of r), r') ∧
    (driver_of r ≠ None → Virtio.device_id r' = Virtio.device_id r ∧ Virtio.accepts r' = Virtio.accepts r ∧
       Virtio.offered r' = Virtio.offered r ∧ Virtio.blk_size r' = Virtio.blk_size r ∧ length (Virtio.driver_features r') = 4%nat).
Proof.
  intros Hacc. unfold Virtio.virtio_attach, driver_of. kgets.
  destruct (Virtio.magic_value r =? Virtio.VIRTIO_MAGIC); cbn [negb andb]; [|by exists r].
  destruct (Virtio.version r =? 2); cbn [negb andb]; [|by exists r].
  destruct (Virtio.device_id r =? Virtio.VIRTIO_ID_NONE); cbn [negb andb]; [by exists r|].
  do 2 kmodify. eexists. split; [reflexivity|]. intros _.
  assert (Virtio.write_status (Virtio.write_status r 0) Virtio.VIRTIO_STAT_ACKNOWLEDGE =
          Virtio.with_status (Virtio.write_status r 0) Virtio.VIRTIO_STAT_ACKNOWLEDGE) as ->; [|by split_and!].
  unfold Virtio.write_status at 1. change (Virtio.VIRTIO_STAT_ACKNOWLEDGE =? 0) with false. cbv iota.
  change (Virtio.accepts (Virtio.write_status r 0)) with (Virtio.accepts r). by rewrite Hacc.
Qed.

(** What attaching leaves alone. *)
Record kframe (k k' : Threads.ks) : Prop := {
  kf_thr : Threads.thr k' = Threads.thr k;
  kf_tp : Threads.TP k' = Threads.TP k;
  kf_procs : Threads.procs k' = Threads.procs k;
  kf_active : Threads.active k' = Threads.active k
}.
#[local] Instance kframe_refl : Reflexive kframe.
Proof. by split. Qed.
#[local] Instance kframe_trans : Transitive kframe.
Proof. intros k1 k2 k3 [] []. split; congruence. Qed.

Lemma condition_init_frame c k k' : Threads.condition_init c k = (Ret tt, k') → kframe k k' ∧ Threads.locks k' = Threads.locks k.
Proof. unfold Threads.condition_init, Threads.tlclear, Threads.put_tl, modify. by intros [= <-]. Qed.
Lemma lock_init_frame l c k k' : Threads.lock_init l c k = (Ret tt, k') →
  kframe k k' ∧ ∀ l', l' ≠ l → Threads.locks k' !! l' = Threads.locks k !! l'.
Proof.
  unfold Threads.lock_init, Threads.condition_init, Threads.tlclear, Threads.put_tl, Threads.put_lock, modify, mbind, M_bind. cbn.
  intros [= <-]. split; [done|]. intros l' Hl. cbn. by rewrite lookup_insert_ne by auto.
Qed.

Record mframe m m' : Prop := {
  mf_kern : kframe (m_kern m) (m_kern m');
  mf_boot : m_boot m' = m_boot m;
  mf_sys : m_ios m' = m_ios m ∧ m_proctab m' = m_proctab m ∧ m_procs m' = m_procs m;
  mf_rest : m_fs m' = m_fs m ∧ m_umem m' = m_umem m ∧ procmgr_initialized m' = procmgr_initialized m;
  mf_ports : Attach.ports (m_dev m') = Attach.ports (m_dev m)
}.
#[local] Instance mframe_refl : Reflexive mframe.
Proof. by split. Qed.
#[local] Instance mframe_trans : Transitive mframe.
Proof.
  intros m1 m2 m3 [Hk1 Hb1 (?&?&?) (?&?&?) Hp1] [Hk2 Hb2 (?&?&?) (?&?&?) Hp2].
  split; [by etrans|congruence|split_and!; congruence|split_and!; congruence|congruence].
Qed.

(** The state between two slots: [es] is what has been registered. *)
Record attaching m (es : list Device.dev_entry) (n : nat) : Prop := {
  ag_sys : SchedProofs.sys (m_kern m);
  ag_quiet c : SchedProofs.unused (m_kern m) c;
  ag_intr : Intr.served (m_intr m);
  ag_tab : Attach.devtab (m_dev m) = Device.table es n;
  ag_names : Device.good_names es;
  ag_blks e : e ∈ es → Device.name e = Vioblk.VIOBLK_NAME →
    Device.openfn e = Some Vioblk.open_id ∧ ∃ d x, m_blks m !! Device.aux e = Some (d, x) ∧ Vioblk.refcnt d = 0
}.

Lemma get_slot_run m i sl : m_slots m !! i = Some sl → get_slot i m = (Ret sl, m).
Proof. intros Hi. unfold get_slot. kgets. by rewrite Hi. Qed.

Lemma quiet_frame k k' : kframe k k' → (∀ c, SchedProofs.unused k c) → ∀ c, SchedProofs.unused k' c.
Proof. intros [Et _ _ _] Hq c p x. rewrite Et. apply Hq. Qed.

(** Attaching slot [i] took [m] to [m'] and registered [new]. *)
Definition attached_slot m m' (i l : nat) (es new : list Device.dev_entry) (n : nat) : Prop :=
  attaching m' (es ++ new) n ∧ mframe m m' ∧ (∃ sl, m_slots m' = <[i := sl]> (m_slots m)) ∧
  ∀ l', l' ≠ l → Threads.locks (m_kern m') !! l' = Threads.locks (m_kern m) !! l'.

Lemma irq_ok (i : nat) : (i < 8)%nat → 0 < VIRTIO0_INTR_SRCNO + Z.of_nat i < Intr.NIRQ.
Proof. unfold VIRTIO0_INTR_SRCNO, Intr.NIRQ, Intr.PLIC_SRC_CNT. lia. Qed.

Lemma attach_blk m es n i a sl :
  let irq := VIRTIO0_INTR_SRCNO + Z.of_nat i in
  let r := sregs sl in
  attaching m es (S n) → m_slots m !! i = Some sl → (i < 8)%nat → length (va_junk a) = 4%nat → Threads.locks (m_kern m) !! va_lock a = None →
  (∀ fs, Virtio.accepts r fs = true) → length (Virtio.driver_features r) = 4%nat →
  (let bs := if Z.testbit (getb 0 (Virtio.offered r) 0) 6 then Virtio.blk_size r else 512 in Z.land (u32 (bs - 1)) bs = 0) →
  Vioblk.vb_ok (sdisk sl) → Vioblk.vb_seen (sdisk sl) = 0 →
  ∃ m', on_blk i (va_p a) (Vioblk.vioblk_attach true (va_p a) (va_desc a) (va_used a) (va_avail a) (va_lock a) (va_cond a) (va_junk a) irq) m = (Ret tt, m') ∧
    attached_slot m m' i (va_lock a) es [Device.DevEntry Vioblk.VIOBLK_NAME (Some Vioblk.open_id) (va_p a)] n.
Proof.
  intros irq r [Hsys Hq Hin Htab Hnm Hb] Hi Hlt Hj Hl Hacc Hdf Hbs Hok Hseen. pose proof (irq_ok i Hlt) as Hirq.
  unfold on_blk. krun (get_slot_run m i _ Hi). unfold blk_at. set (st := blk_state m (va_p a) _).
  assert (Vioblk.kern st = m_kern m ∧ Vioblk.intr st = m_intr m ∧ Vioblk.devtab st = Attach.devtab (m_dev m) ∧ Vioblk.regs st = r ∧ Vioblk.disk st = sdisk sl)
    as (Ek & Ei & Et & Er & Ed) by (unfold st, blk_state; by destruct (default _ _)).
  destruct (VioblkDisk.attach_run st (va_lock a) (va_cond a) (va_junk a) irq es n (va_p a) (va_desc a) (va_used a) (va_avail a))
    as (s' & Hrun & Hatt & Hv & _ & _ & _ & _ & Hlk & Hsv); [split; rewrite ?Ek, ?Ei, ?Et, ?Er, ?Ed; done|].
  rewrite Hrun. rewrite Ek in Hlk. destruct (lock_init_frame _ _ _ _ Hlk) as [Hkf Hlk']. destruct Hatt as (_ & _ & _ & _ & Etab & Edev).
  eexists. split; [reflexivity|]. split; [|split; [by split|split; [by eexists|exact Hlk'] ] ].
  split; cbn [put_blk m_kern m_intr m_dev m_blks with_slots with_parts with_devtab Attach.devtab];
    [apply Hv|by apply (quiet_frame (m_kern m))|done|done|apply Forall_app; split; [done|by repeat constructor]|].
  intros e [He|He%list_elem_of_singleton]%elem_of_app Hn.
  - destruct (Hb e He Hn) as (Ho & d & x & Hx & Hz). split; [done|]. destruct (decide (Device.aux e = va_p a)) as [->|].
    + rewrite lookup_insert_eq. eexists _, _. split; [done|]. by rewrite Edev.
    + rewrite lookup_insert_ne by auto. by eauto.
  - subst e. split; [done|]. cbn [Device.aux]. rewrite lookup_insert_eq. eexists _, _. split; [done|]. by rewrite Edev.
Qed.

Lemma attach_rng m es n i a sl :
  let irq := VIRTIO0_INTR_SRCNO + Z.of_nat i in
  let r := sregs sl in
  attaching m es (S n) → m_slots m !! i = Some sl → (i < 8)%nat → length (va_junk a) = 4%nat →
  (∀ fs, Virtio.accepts r fs = true) → length (Virtio.driver_features r) = 4%nat → Virtio.device_id r = Virtio.VIRTIO_ID_RNG →
  Viorng.es_ok (sent sl) → Viorng.es_seen (sent sl) = 0 →
  ∃ m', on_rng i (va_p a) (Viorng.viorng_attach (va_p a) (va_desc a) (va_used a) (va_avail a) (va_cond a) (va_junk a) irq) m = (Ret tt, m') ∧
    attached_slot m m' i (va_lock a) es [Device.DevEntry Viorng.VIORNG_NAME (Some Viorng.open_id) (va_p a)] n.
Proof.
  intros irq r [Hsys Hq Hin Htab Hnm Hb] Hi Hlt Hj Hacc Hdf Hid Hok Hseen. pose proof (irq_ok i Hlt) as Hirq.
  unfold on_rng. krun (get_slot_run m i _ Hi). unfold rng_at. set (st := rng_state m (va_p a) _).
  assert (Viorng.kern st = m_kern m ∧ Viorng.intr st = m_intr m ∧ Viorng.devtab st = Attach.devtab (m_dev m) ∧ Viorng.regs st = r ∧ Viorng.ent st = sent sl)
    as (Ek & Ei & Et & Er & Ed) by (unfold st, rng_state; by destruct (default _ _)).
  destruct (Viorng.viorng_attach_correct st (va_cond a) (va_junk a) irq es n (va_p a) (va_desc a) (va_used a) (va_avail a))
    as (s' & Hrun & Hv & _ & _ & _ & _ & _ & _ & Etab & Hlk & Hsv); [split; rewrite ?Ek, ?Ei, ?Et, ?Er, ?Ed; done|].
  rewrite Hrun. rewrite Ek in Hlk. destruct (condition_init_frame _ _ _ Hlk) as [Hkf Hlk'].
  eexists. split; [reflexivity|]. split; [|split; [by split|split; [by eexists|intros l _; cbn [put_rng m_kern with_slots with_parts]; by rewrite Hlk'] ] ].
  split; cbn [put_rng m_kern m_intr m_dev m_blks with_slots with_parts with_devtab Attach.devtab];
    [apply Hv|by apply (quiet_frame (m_kern m))|done|done|apply Forall_app; split; [done|by repeat constructor]|].
  intros e [He|He%list_elem_of_singleton]%elem_of_app Hn; [by apply Hb|]. by subst e.
Qed.

Lemma attach_one m es n i a sl :
  attaching m es (S n) → m_slots m !! i = Some sl → slot_ok sl → (i < 8)%nat → length (va_junk a) = 4%nat →
  Threads.locks (m_kern m) !! va_lock a = None →
  ∃ m' n', virtio_attach i a m = (Ret tt, m') ∧ attached_slot m m' i (va_lock a) es (entry_of a sl) n' ∧ (n' + length (entry_of a sl) = S n)%nat.
Proof.
  intros Hat Hi [Hacc Hkind] Hlt Hj Hl. unfold virtio_attach, entry_of.
  destruct (virtio_attach_run (sregs sl) Hacc) as (r & Hrun & Hr). set (sl1 := Slot r (sdisk sl) (sent sl)).
  set (m1 := with_slots m (<[i := sl1]> (m_slots m)) (m_blks m) (m_rngs m)).
  assert (on_slot i Virtio.virtio_attach m = (Ret (driver_of (sregs sl)), m1)) as R.
  { unfold on_slot. krun (get_slot_run m i sl Hi). unfold regs_at. by rewrite Hrun. }
  krun R. assert (m_slots m1 !! i = Some sl1) as Hi1 by (apply list_lookup_insert_eq; by eapply lookup_lt_Some).
  assert (attaching m1 es (S n)) as Hat1 by (by destruct Hat).
  assert (∀ m' new n', attached_slot m1 m' i (va_lock a) es new n' → attached_slot m m' i (va_lock a) es new n') as Hup.
  { intros m' new n' (K1 & K2 & (s' & K3) & K4). split_and!; [done|etrans; [|exact K2]; by split| |exact K4].
    exists s'. rewrite K3. apply list_insert_insert_eq. }
  assert (attached_slot m m1 i (va_lock a) es [] (S n)) as Hnone by (split_and!; [by rewrite app_nil_r|by split|by eexists|done]).
  destruct (driver_of (sregs sl)) as [[]|] eqn:Hd; try (exists m1, (S n); split_and!; [done|done|simpl; lia]).
  - destruct Hr as (_ & Eacc & Eoff & Ebs & Edf); [done|]. destruct Hkind as (Hbs & Hok & Hseen).
    destruct (attach_blk m1 es n i a sl1) as (m2 & R2 & K); try done; [|cbn [sl1 sregs]; by rewrite Eoff, Ebs|].
    { intros fs. cbn [sl1 sregs]. rewrite Eacc. apply Hacc. }
    exists m2, n. split_and!; [exact R2|by apply Hup|simpl; lia].
  - destruct Hr as (Eid & Eacc & _ & _ & Edf); [done|]. destruct Hkind as (Hok & Hseen).
    assert (Virtio.device_id r = Virtio.VIRTIO_ID_RNG) as Erng.
    { rewrite Eid. revert Hd. unfold driver_of. repeat case_match; try done. intros _. by kbool. }
    destruct (attach_rng m1 es n i a sl1) as (m2 & R2 & K); try done.
    { intros fs. cbn [sl1 sregs]. rewrite Eacc. apply Hacc. }
    exists m2, n. split_and!; [exact R2|by apply Hup|simpl; lia].
Qed.

(** The loop registers the devices in the order of the slots. *)
Lemma attach_virtio_ok allocs : ∀ m es n i sls,
  attaching m es n → drop i (m_slots m) = sls → length sls = length allocs → Forall slot_ok sls → (i + length allocs ≤ 8)%nat →
  (length allocs ≤ n)%nat → Forall (λ a, length (va_junk a) = 4%nat ∧ Threads.locks (m_kern m) !! va_lock a = None) allocs → NoDup (va_lock <$> allocs) →
  ∃ m' n', attach_virtio (length allocs) i allocs m = (Ret tt, m') ∧ attaching m' (es ++ registered allocs sls) n' ∧ mframe m m'.
Proof.
  induction allocs as [|a allocs IH]; intros m es n i sls Hat Hs Hlen Hok Hi Hn Hall Hnd; cbn [length attach_virtio].
  { exists m, n. split_and!; [done|by rewrite app_nil_r|done]. }
  destruct sls as [|sl sls]; [done|]. apply Forall_cons in Hok as [Hsl Hok]. apply Forall_cons in Hall as [[Hj Hl] Hall].
  apply NoDup_cons in Hnd as [Hna Hnd]. destruct n as [|n]; [simpl in Hn; lia|]. simpl in Hlen, Hi, Hn.
  assert (m_slots m !! i = Some sl) as Hlook by (rewrite <- (Nat.add_0_r i), <- lookup_drop, Hs; done).
  destruct (attach_one m es n i a sl Hat Hlook Hsl ltac:(lia) Hj Hl) as (m1 & n1 & Hrun & (Hat1 & Hf1 & (sl' & Hs1) & Hlk) & Hn1). krun Hrun.
  assert (length (entry_of a sl) ≤ 1)%nat by (unfold entry_of; repeat case_match; simpl; lia).
  destruct (IH m1 (es ++ entry_of a sl) n1 (S i) sls) as (m2 & n2 & Hrun2 & Hat2 & Hf2); [done| |lia|done|lia|lia| |done|].
  - rewrite Hs1, drop_insert_lt by lia. rewrite (drop_S _ _ _ Hlook) in Hs. by injection Hs.
  - rewrite Forall_forall in Hall. apply Forall_forall. intros b Hb. destruct (Hall b Hb) as [? Hlb]. split; [done|]. rewrite Hlk; [done|].
    intros Eb. apply Hna. rewrite <- Eb. by apply list_elem_of_fmap_2.
  - exists m2, n2. cbn [registered]. rewrite app_assoc. split_and!; [done|done|by etrans].
Qed.

(** ** The parts come up *)

(** The invariants do not speak of memory spaces, nor of the process of a thread. *)
Lemma sys_spaces k pr ac : SchedProofs.sys k →
  SchedProofs.sys (Threads.Ks (Threads.thr k) (Threads.thrtab k) (Threads.ready_list k) (Threads.conds k) (Threads.locks k) (Threads.TP k) pr ac).
Proof.
  intros (q & h & [[L1 L2 L3] H2 H3 H4 H5] & Hh & Hc & Ht). exists q, h. split_and!; [|by destruct Hh|done|by destruct Ht].
  split; [split|..]; done.
Qed.

Lemma sys_set_proc k t x o : SchedProofs.sys k → Threads.thr k !! t = Some x →
  SchedProofs.sys (Threads.with_thr k (<[t := Threads.with_proc x o]> (Threads.thr k))).
Proof.
  intros (q & h & Hinv & Hh & Hc & Ht) Hx. set (th := <[t := Threads.with_proc x o]> (Threads.thr k)).
  assert (SchedProofs.shrinks (Threads.thr k) th) as Hs.
  { split.
    - intros y x'. unfold th. destruct (decide (y = t)) as [->|]; [rewrite lookup_insert_eq; intros [= <-]; by exists x|].
      rewrite lookup_insert_ne by auto. intros Hy. by exists x'.
    - intros y z Hy _. unfold th. destruct (decide (y = t)) as [->|]; [rewrite lookup_insert_eq; eauto|]. rewrite lookup_insert_ne by auto. eauto. }
  exists q, h. split_and!; [by apply SchedProofs.inv_shrink|by apply SchedProofs.held_shrink|done|].
  exact (SchedProofs.tab_ok_proper _ _ (SchedProofs.same_tab_upd k t x (Threads.with_proc x o) Hx eq_refl eq_refl) Ht).
Qed.

(** The main thread, and the kernel with the first process. *)
Definition main_thr (cm : nat) : Threads.thread := Threads.Thread Threads.MAIN_TID Threads.SELF 0 None None None cm None None.
Definition first_kern (cm ci : nat) (tag : Z) : Threads.ks :=
  let k := Threads.initial cm ci in
  Threads.Ks (<[Threads.main_thread := Threads.with_proc (main_thr cm) (Some main_proc)]> (Threads.thr k)) (Threads.thrtab k) (Threads.ready_list k)
             (Threads.conds k) (Threads.locks k) (Threads.TP k) {[main_proc := tag]} tag.
Definition first_proc : Process.process := Process.Proc 0 0 (replicate Process.IOMAX None).

Lemma procmgr_run cm ci mm (ios : gmap nat (io St)) pt :
  Process.procmgr_init main_proc false (Process.PSys (Threads.with_active (Threads.initial cm ci) (PhysPages.satp mm)) mm ios pt ∅) =
  (Ret tt, Process.PSys (first_kern cm ci (PhysPages.satp mm)) mm ios pt {[main_proc := first_proc]}).
Proof. destruct mm. reflexivity. Qed.

Lemma first_kern_sys cm ci tag : SchedProofs.sys (first_kern cm ci tag).
Proof.
  pose proof (sys_set_proc (Threads.initial cm ci) Threads.main_thread (main_thr cm) (Some main_proc) (SchedProofs.initial_sys cm ci) eq_refl) as Hs.
  exact (sys_spaces _ {[main_proc := tag]} tag Hs).
Qed.

Lemma first_kern_quiet cm ci tag c : SchedProofs.unused (first_kern cm ci tag) c.
Proof.
  intros p x. unfold first_kern. cbn [Threads.thr]. intros [[<- <-]|[_ Hx]]%lookup_insert_Some; [done|].
  by apply SchedProofs.initial_thr in Hx as [[_ ->]|[_ ->]].
Qed.

(** The state at power-on: the device table and the process table of the
    image, the tables of the hardware and of the image zero. *)
Record reset img m : Prop := {
  rs_tab : Attach.devtab (m_dev m) = Device.table [] 16;
  rs_ports i : 0 ≤ i < 3 → Attach.lcr (Attach.port (m_dev m) (Attach.UART_MMIO_BASE i)) = 0;
  rs_plic : length (Intr.priority (Intr.PLIC (m_intr m))) = Z.to_nat Intr.PLIC_SRC_CNT ∧ length (Intr.isrtab (m_intr m)) = Z.to_nat Intr.NIRQ;
  rs_zero : Boot.zero_tables img (PhysPages.words (pages_of m));
  rs_slots : length (m_slots m) = 8%nat ∧ Forall slot_ok (m_slots m);
  rs_globals : m_ios m = ∅ ∧ m_proctab m = Some main_proc :: replicate 15 None ∧ m_procs m = ∅ ∧ procmgr_initialized m = false
}.

(** The allocations return distinct structures. *)
Definition distinct (ps : list Z) (allocs : list valloc) : Prop :=
  NoDup ps ∧ NoDup (va_lock <$> allocs) ∧ length allocs = 8%nat ∧ Forall (λ a, length (va_junk a) = 4%nat) allocs.

Record up img (m m' : machine) (es : list Device.dev_entry) : Prop := {
  up_attached : ∃ n, attaching m' es n;
  up_booted : Boot.booted img (m_boot m');
  up_status : Z.testbit (Boot.sstatus (m_boot m')) 1 = true;
  up_active : Threads.active (m_kern m') = PhysPages.satp (pages_of m');
  up_cur : ∃ x, Threads.thr (m_kern m') !! Threads.TP (m_kern m') = Some x ∧ Threads.proc x = Some main_proc;
  up_procs : m_ios m' = ∅ ∧ m_proctab m' = Some main_proc :: replicate 15 None ∧ m_procs m' = {[main_proc := first_proc]};
  up_rest : m_fs m' = m_fs m ∧ m_umem m' = m_umem m
}.

Lemma on_dev_run {A} (f : M Attach.asys A) m v x : f (m_dev m) = (Ret v, x) → on_dev f m = (Ret v, with_parts m x (m_intr m) (m_kern m)).
Proof. intros R. unfold on_dev. by rewrite R. Qed.
Lemma on_intr_run {A} (f : M Intr.isys A) m v x : f (m_intr m) = (Ret v, x) → on_intr f m = (Ret v, with_parts m (m_dev m) x (m_kern m)).
Proof. intros R. unfold on_intr. by rewrite R. Qed.
Lemma on_boot_run {A} (f : M Boot.boot A) m v x : f (m_boot m) = (Ret v, x) → on_boot f m = (Ret v, with_boot m x).
Proof. intros R. unfold on_boot. by rewrite R. Qed.
Lemma on_psys_run {A} (f : M (Process.psys St) A) m v x : f (psys_of m) = (Ret v, x) → on_psys f m = (Ret v, with_psys m x).
Proof. intros R. unfold on_psys. by rewrite R. Qed.

Lemma booted_status img h st st' mi : Boot.booted img (Boot.MkBoot h st mi) → Z.testbit st' 18 = true → Boot.booted img (Boot.MkBoot h st' mi).
Proof. intros [(H1 & H2 & H3) ? ? ? ? ? ? ?] Hst. by split. Qed.

(** The managers are initialized: no thread waits, no source can interrupt,
    and the running thread belongs to the first process. *)
Record managed img m m' : Prop := {
  mg_kern : ∃ cm ci, m_kern m' = first_kern cm ci (PhysPages.satp (pages_of m'));
  mg_booted : Boot.booted img (m_boot m');
  mg_intr : Intr.served (m_intr m');
  mg_tab : Attach.devtab (m_dev m') = Attach.devtab (m_dev m);
  mg_ports b : b ≠ Attach.UART0_MMIO_BASE → Attach.port (m_dev m') b = Attach.port (m_dev m) b;
  mg_procs : m_ios m' = m_ios m ∧ m_proctab m' = m_proctab m ∧ m_procs m' = {[main_proc := first_proc]};
  mg_rest : m_slots m' = m_slots m ∧ m_fs m' = m_fs m ∧ m_umem m' = m_umem m
}.

Lemma init_managers_ok img cm ci m : Boot.image_ok img → reset img m →
  ∃ m', init_managers img cm ci m = (Ret tt, m') ∧ managed img m m'.
Proof.
  intros Himg [Ht Hports [Hpl Hit] Hz _ (_ & _ & Hpr & Hpi)].
  destruct (Attach.console_init_run (m_dev m)) as (d1 & R1 & _ & Hd1 & Ho1); [by apply (Hports 0)|].
  unfold init_managers, console_init. rewrite bind_bind. krun (on_dev_run _ m _ _ R1). kmodify. unfold devmgr_init. kmodify.
  unfold intrmgr_init. rewrite bind_bind. set (m2 := with_flags _ _ _ _ _).
  set (b2 := Boot.MkBoot (Boot.bheap (m_boot m)) (Z.ldiff (Boot.sstatus (m_boot m)) Csr.RISCV_SSTATUS_SIE) (Boot.memory_initialized (m_boot m))).
  assert (on_status Csr.disable_interrupts m2 = (Ret (s64 (Boot.sstatus (m_boot m))), with_boot m2 b2)) as R2 by done. krun R2.
  destruct (Intr.intrmgr_init_served (m_intr m) Hpl Hit) as (i3 & R3 & Hsv). krun (on_intr_run _ (with_boot m2 b2) _ _ R3).
  set (m3 := with_parts _ _ _ _). destruct (Boot.memory_init_ok img b2 Himg Hz) as (b4 & R4 & Hb4). krun (on_boot_run _ m3 _ _ R4).
  set (m4 := with_boot m3 b4). unfold thrmgr_init. rewrite bind_bind. do 2 kmodify. set (m5 := with_flags _ _ _ _ _).
  unfold procmgr_init. kgets. change (m_boot m5) with b4. destruct (Boot.bt_flags _ _ Hb4) as (-> & -> & _). cbn [andb negb]. kgets.
  change (procmgr_initialized m5) with (procmgr_initialized m). rewrite Hpi.
  assert (psys_of m5 = Process.PSys (Threads.with_active (Threads.initial cm ci) (PhysPages.satp (Heap.pgs (Boot.bheap b4)))) (Heap.pgs (Boot.bheap b4)) (m_ios m) (m_proctab m) ∅) as E5
    by (unfold psys_of; cbn; by rewrite Hpr).
  assert (Process.procmgr_init main_proc false (psys_of m5) = (Ret tt, Process.PSys (first_kern cm ci (PhysPages.satp (Heap.pgs (Boot.bheap b4)))) (Heap.pgs (Boot.bheap b4)) (m_ios m) (m_proctab m) {[main_proc := first_proc]})) as R5
    by (rewrite E5; apply procmgr_run).
  krun (on_psys_run _ m5 _ _ R5). eexists. split; [reflexivity|].
  assert (∀ b : Boot.boot, Boot.MkBoot (Boot.with_pgs (Boot.bheap b) (Heap.pgs (Boot.bheap b))) (Boot.sstatus b) (Boot.memory_initialized b) = b) as Hid
    by (by intros [[] ? ?]).
  split; [by eexists _, _|exact (eq_ind_r (Boot.booted img) Hb4 (Hid b4))|exact Hsv|exact Hd1|exact Ho1|done|done].
Qed.

Lemma bring_up_ok img cm ci p0 p1 p2 p allocs m :
  Boot.image_ok img → reset img m → distinct [p0; p1; p2] allocs →
  ∃ m', bring_up img cm ci [p0; p1; p2] p allocs m = (Ret tt, m') ∧
    up img m m' (Attach.fixed_devices p1 p2 p ++ registered allocs (m_slots m)).
Proof.
  intros Himg Hrs (Hnd & Hlk & Hal & Hj). destruct (init_managers_ok img cm ci m Himg Hrs) as (m1 & R1 & Hm1).
  destruct Hrs as [Ht Hports _ _ [Hsl Hsok] (Hio & Hpt & _ & _)]. unfold bring_up. krun R1.
  destruct Hm1 as [(cm' & ci' & Hk) Hb Hsv Htab Hpo (Ei & Ept & Epr) (Es & Ef & Eu)].
  destruct (Attach.fixed_devices_open (m_dev m1) p0 p1 p2 p (λ _ _, mret (0, None) : M unit _)) as (d2 & R2 & Hd2 & _);
    [congruence|done|rewrite Hpo by done; by apply Hports..|].
  krun (on_dev_run _ m1 _ _ R2). set (m2 := with_parts _ _ _ _).
  assert (attaching m2 (Attach.fixed_devices p1 p2 p) 12) as Hat2.
  { split; cbn [m2 m_kern m_intr m_dev with_parts]; rewrite ?Hk; [apply first_kern_sys|apply first_kern_quiet|done|done|by repeat constructor|].
    intros e He Hn. unfold Attach.fixed_devices in He. rewrite !elem_of_cons in He. destruct He as [->|[->|[->|[->|He]]]]; try done. by apply not_elem_of_nil in He. }
  destruct (attach_virtio_ok allocs m2 (Attach.fixed_devices p1 p2 p) 12 0 (m_slots m)) as (m3 & n & R3 & Hat3 & Hf);
    [done|by cbn; rewrite Es|congruence|done|lia|lia| |done|].
  { eapply Forall_impl; [exact Hj|]. intros a Ha. split; [done|]. cbn [m2 m_kern with_parts]. by rewrite Hk. }
  rewrite Hal in R3. krun R3. set (b4 := Boot.MkBoot (Boot.bheap (m_boot m3)) (Z.lor (Boot.sstatus (m_boot m3)) Csr.RISCV_SSTATUS_SIE) (Boot.memory_initialized (m_boot m3))).
  assert (on_status Csr.enable_interrupts m3 = (Ret (s64 (Boot.sstatus (m_boot m3))), with_boot m3 b4)) as R4 by done. krun R4.
  destruct Hf as [Hkf Hbf (F1 & F2 & F3) (F4 & F5 & _) _].
  eexists. split; [reflexivity|]. split.
  - exists n. by destruct Hat3.
  - cbn [with_boot m_boot]. unfold b4. rewrite Hbf. change (m_boot m2) with (m_boot m1). destruct (m_boot m1) as [h st mi].
    eapply booted_status; [exact Hb|]. rewrite Z.lor_spec. cbn [Boot.sstatus]. destruct (Boot.bt_flags _ _ Hb) as (_ & _ & Hst). cbn [Boot.sstatus] in Hst. by rewrite Hst.
  - cbn [with_boot m_boot b4 Boot.sstatus]. rewrite Z.lor_spec. apply orb_true_r.
  - cbn [with_boot m_kern]. rewrite (kf_active _ _ Hkf). cbn [m2 m_kern with_parts]. rewrite Hk. unfold pages_of. cbn [with_boot m_boot b4 Boot.bheap]. by rewrite Hbf.
  - cbn [with_boot m_kern]. rewrite (kf_thr _ _ Hkf), (kf_tp _ _ Hkf). cbn [m2 m_kern with_parts]. rewrite Hk. by eexists.
  - cbn [with_boot m_ios m_proctab m_procs]. rewrite F1, F2, F3. cbn [m2 with_parts m_ios m_proctab m_procs]. split_and!; congruence.
  - cbn [with_boot m_fs m_umem]. rewrite F4, F5. done.
Qed.

(** ** The first program *)

(** Opening the second disk gives its object a reference. *)
Lemma open_disk_run img m m1 es e :
  up img m m1 es → filter (λ e, Device.name e = Vioblk.VIOBLK_NAME) es !! 1%nat = Some e →
  ∃ blks, Device.open_device run_open (Attach.devtab (m_dev m1)) Vioblk.VIOBLK_NAME 1 m1 =
    (Ret (0, Some (Z.to_nat (Device.aux e))), with_slots m1 (m_slots m1) blks (m_rngs m1)).
Proof.
  intros Hup He. destruct (up_attached _ _ _ _ Hup) as [n [_ _ _ Ht Hn Hb]]. unfold Device.open_device. rewrite Ht.
  rewrite Device.find_device_ok by first [done | by repeat constructor]. rewrite bool_decide_true by lia. change (Z.to_nat (1 - 0)) with 1%nat. rewrite He.
  apply list_elem_of_lookup_2, list_elem_of_filter in He as [Hnm Hin]. destruct (Hb e Hin Hnm) as (-> & d & x & Hx & Hr).
  unfold run_open. rewrite decide_True by done. kgets. rewrite Hx, Hr. cbn [Z.eqb negb]. kmodify. by eexists.
Qed.

(** Without a second disk [main] panics. *)
Lemma no_second_disk_panics img cm ci p0 p1 p2 p allocs kmalloc c m :
  Boot.image_ok img → reset img m → distinct [p0; p1; p2] allocs →
  (Device.named Vioblk.VIOBLK_NAME (registered allocs (m_slots m)) ≤ 1)%nat →
  (main img cm ci [p0; p1; p2] p allocs kmalloc c m).1 = Panic.
Proof.
  intros Himg Hrs Hd Hone. destruct (bring_up_ok img cm ci p0 p1 p2 p allocs m Himg Hrs Hd) as (m1 & R1 & Hup). unfold main. krun R1.
  destruct (up_attached _ _ _ _ Hup) as [n [_ _ _ Ht Hn _]]. unfold start_init. kgets. unfold Device.open_device. rewrite Ht.
  rewrite Device.find_device_ok by first [done | by repeat constructor]. rewrite bool_decide_true by lia. change (Z.to_nat (1 - 0)) with 1%nat.
  rewrite (proj2 (lookup_ge_None _ _)); [done|]. rewrite filter_app, length_app. exact Hone.
Qed.

(** The console's object after it was stored three times. *)
Definition console_object : io St := ioaddref (ioaddref (ioinit1 console_state console_intf)).
Definition console_proc (c : nat) : Process.process := Process.Proc 0 0 (Some c :: Some c :: Some c :: replicate 13 None).
Definition with_console m (c : nat) : Process.psys St :=
  Process.PSys (m_kern m) (pages_of m) {[c := console_object]} (m_proctab m) {[main_proc := console_proc c]}.

Lemma install_console_run m c x :
  m_ios m = ∅ → m_procs m = {[main_proc := first_proc]} → Threads.thr (m_kern m) !! Threads.TP (m_kern m) = Some x → Threads.proc x = Some main_proc →
  install_console (Some c) m = (Ret tt, with_psys m (with_console m c)).
Proof.
  intros Hio Hpr Hx Hp. unfold install_console.
  set (S := λ (o : io St) (y : Process.process), Process.PSys (m_kern m) (pages_of m) {[c := o]} (m_proctab m) {[main_proc := y]}).
  assert (∀ s s', with_psys (with_psys m s) s' = with_psys m s') as Hw by (by intros [] []).
  assert (∀ s, psys_of (with_psys m s) = s) as Hv by (by intros []).
  assert (∀ o y fd, Process.set_slot main_proc fd (Some c) (S o y) = (Ret tt, S o (ProcessProofs.set_tab y fd (Some c)))) as Hset.
  { intros o y fd. unfold Process.set_slot, Process.get_proc. rewrite bind_bind. kgets. unfold S at 1. cbn [Process.procs]. rewrite lookup_singleton_eq.
    cbn [Process.deref]. kret. unfold Process.put_proc, modify, Process.with_procs, S. cbn [Process.ios Process.kern Process.mem Process.proctab Process.procs]. by rewrite insert_singleton_eq. }
  assert (∀ o y, Process.addref c (S o y) = (Ret tt, S (ioaddref o) y)) as Hadd.
  { intros o y. unfold Process.addref, Process.get_io. rewrite bind_bind. kgets. unfold S at 1. cbn [Process.ios]. rewrite lookup_singleton_eq.
    cbn [Process.deref]. kret. unfold Process.put_io, modify, Process.with_ios, S. cbn [Process.ios Process.kern Process.mem Process.proctab Process.procs]. by rewrite insert_singleton_eq. }
  assert (modify (λ s, Process.with_ios s (<[c := ioinit1 console_state console_intf]> (Process.ios s))) (psys_of m) =
          (Ret tt, S (ioinit1 console_state console_intf) first_proc)) as R0 by (unfold modify, psys_of, S; cbn; by rewrite Hio, Hpr).
  krun (on_psys_run _ m _ _ R0). set (s1 := S _ _).
  assert (Process.current_process (psys_of (with_psys m s1)) = (Ret (Some main_proc), s1)) as R1.
  { rewrite Hv. unfold Process.current_process, Process.on_kern, Threads.running_thread_process. cbn [s1 S Process.kern]. unfold Threads.get_thr.
    unfold mbind at 1, M_bind at 1, gets at 1. rewrite bind_bind. kgets. rewrite Hx. cbn [Threads.deref]. kret. by rewrite Hp. }
  krun (on_psys_run _ (with_psys m s1) _ _ R1). rewrite Hw.
  assert (∀ A (f : M _ A) s v s', f s = (Ret v, s') → on_psys f (with_psys m s) = (Ret v, with_psys m s')) as Hon.
  { intros A f s v s' R. rewrite (on_psys_run f _ v s'); [by rewrite Hw|by rewrite Hv]. }
  set (o0 := ioinit1 console_state console_intf). set (y0 := first_proc).
  krun (Hon _ _ _ _ _ (Hset o0 y0 0)). set (y1 := ProcessProofs.set_tab y0 0 _).
  krun (Hon _ _ _ _ _ (Hadd o0 y1)). krun (Hon _ _ _ _ _ (Hset (ioaddref o0) y1 1)). set (y2 := ProcessProofs.set_tab y1 1 _).
  krun (Hon _ _ _ _ _ (Hadd (ioaddref o0) y2)). by rewrite (Hon _ _ _ _ _ (Hset (ioaddref (ioaddref o0)) y2 2)).
Qed.

Lemma with_console_pinv m c : m_proctab m = Some main_proc :: replicate 15 None → ProcessProofs.pinv (λ _, 0) (with_console m c).
Proof.
  intros Hpt. assert (∀ i, ProcessProofs.refs {[main_proc := console_proc c]} i = if decide (i = c) then 3 else 0) as Hr.
  { intros i. unfold ProcessProofs.refs. rewrite map_fold_singleton. unfold console_proc. cbn [Process.iotab]. rewrite !ProcessProofs.cnt_cons, ProcessProofs.cnt_none by (by apply Forall_replicate).
    unfold ProcessProofs.held. destruct (decide (i = c)) as [->|]; [by rewrite !decide_True by done|by rewrite !decide_False by congruence]. }
  split; [split| | |]; unfold with_console; cbn [Process.ios Process.procs Process.proctab].
  - intros i o [<- <-]%lookup_singleton_Some. by rewrite Hr, decide_True.
  - intros i. rewrite Hr. case_decide as Hi; [subst i; rewrite lookup_singleton_eq; eauto|lia].
  - by intros q y [<- <-]%lookup_singleton_Some.
  - rewrite map_size_singleton. lia.
  - lia.
  - by rewrite Hpt.
  - rewrite Hpt. by intros q y [<- <-]%lookup_singleton_Some.
Qed.

(** There is room for a program of [n] pages. *)
Lemma program_room n img b : Boot.booted img b → (3 + 3 * n ≤ length (PhysPages.pages (Boot.pool (Boot.heap_bounds img).2)))%nat →
  Exec.room_for n (Heap.pgs (Boot.bheap b)) (Boot.pool (Boot.heap_bounds img).2).
Proof.
  intros Hb Hn. split; [apply Hb|]. split; [|done]. intros va Hva (e & below & Hx & _).
  rewrite (Boot.bt_high _ _ Hb) in Hx; [done|unfold Elf.user_addr, UMEM_START_VMA, UMEM_END_VMA, RAM_END_PMA, RAM_SIZE, RAM_START_PMA in *; lia|].
  by apply UserMem.user_wellformed.
Qed.

(** What the first program finds: [fr] are the registers it starts with,
    [c] is the console's object and [es] the devices. *)
Record running img file eh m (fr : Exec.user_frame) (c : nat) (es : list Device.dev_entry) : Prop := {
  ru_entry : Exec.u_sepc fr = Elf.e_entry eh ∧ Z.testbit (Exec.u_sstatus fr) 8 = false;
  ru_stack : Exec.u_a0 fr = 0 ∧ Exec.u_a1 fr = Exec.u_sp fr ∧ Exec.u_sp fr mod 16 = 0 ∧ Exec.STACK_BASE ≤ Exec.u_sp fr < UMEM_END_VMA;
  ru_intr : Z.testbit (Boot.sstatus (m_boot m)) 1 = true ∧ Intr.served (m_intr m);
  ru_sys : SchedProofs.sys (m_kern m);
  ru_counts : ProcessProofs.pinv (λ _, 0) (psys_of m);
  ru_cur : ProcessProofs.cur_ok (psys_of m) (Some main_proc);
  ru_fds fd : ProcessProofs.fd_object (psys_of m) fd = if decide (0 ≤ fd < 3) then Some c else None;
  ru_space : ∃ l, PageTableProofs.space_ok (pages_of m) l;
  ru_stack_page : ∃ spp, spp ∈ PhysPages.pages (Boot.pool (Boot.heap_bounds img).2) ∧
    ∀ va, PageTableProofs.vpage va = PageTableProofs.vpage Exec.STACK_BASE → UserMem.tr (pages_of m) va = Some (spp + va mod PAGE_SIZE, 0xD7);
  ru_map va : 0 ≤ va < 2 ^ 64 → PageTable.wellformed va = true → PageTableProofs.vpage va ≠ PageTableProofs.vpage Exec.STACK_BASE →
    if va <? RAM_END_PMA then UserMem.tr (pages_of m) va = Some (va, Boot.kernel_flags img va)
    else let loaded := UserMem.range_pages (Exec.segments file eh ≫= Elf.written) (PageTableProofs.vpage va) in
      (¬ loaded ∧ UserMem.tr (pages_of m) va = None) ∨
      (loaded ∧ ∃ pp, pp ∈ PhysPages.pages (Boot.pool (Boot.heap_bounds img).2) ∧ UserMem.tr (pages_of m) va = Some (pp + va mod PAGE_SIZE, 0xDF));
  ru_memory x : UMEM_START_VMA ≤ x < Exec.STACK_BASE →
    UserMem.seen (UserMem.Paged (pages_of m) (m_umem m)) x = foldl (Elf.seg_image file) (λ _, 0) (Exec.segments file eh) x;
  ru_tab : ∃ n, Attach.devtab (m_dev m) = Device.table es n
}.

Lemma cur_of m x : Threads.thr (m_kern m) !! Threads.TP (m_kern m) = Some x → Threads.proc x = Some main_proc →
  is_Some (m_procs m !! main_proc) → ProcessProofs.cur_ok (psys_of m) (Some main_proc).
Proof.
  intros Hx Hp Hl. split; [|by intros q [= <-]]. unfold Threads.running_thread_process, Threads.get_thr. cbn [psys_of Process.kern].
  kgets. rewrite bind_bind. kgets. rewrite Hx. cbn [Threads.deref]. kret. by rewrite Hp.
Qed.

Lemma console_fds m c fd x :
  Threads.thr (m_kern m) !! Threads.TP (m_kern m) = Some x → Threads.proc x = Some main_proc → m_procs m = {[main_proc := console_proc c]} →
  ProcessProofs.fd_object (psys_of m) fd = if decide (0 ≤ fd < 3) then Some c else None.
Proof.
  intros Hx Hp Hpr. destruct (cur_of m x Hx Hp) as [R _]; [rewrite Hpr; by eexists|]. cbn [psys_of Process.kern] in R.
  unfold ProcessProofs.fd_object. cbn [psys_of Process.kern Process.procs]. rewrite R, Hpr. unfold Process.valid_fd, PROCESS_IOMAX.
  destruct ((0 <=? fd) && (fd <? 16))%bool eqn:Hv; [|case_decide; [lia|done]]. rewrite lookup_singleton_eq. cbn [mbind option_bind].
  kbool. unfold Process.slot, console_proc, getb. cbn [Process.iotab]. case_decide as Hd.
  - assert (fd = 0 ∨ fd = 1 ∨ fd = 2) as [-> | [-> | ->] ] by lia; done.
  - replace (Z.to_nat fd) with (S (S (S (Z.to_nat (fd - 3))))) by lia. cbn [lookup list_lookup].
    destruct (replicate 13 None !! Z.to_nat (fd - 3)) as [o|] eqn:Ho; [|done]. by apply lookup_replicate in Ho as [-> _].
Qed.

(** The kernel is up: [es] are the devices. *)
Record ready img m (es : list Device.dev_entry) : Prop := {
  rd_booted : Boot.booted img (m_boot m) ∧ Threads.active (m_kern m) = PhysPages.satp (pages_of m);
  rd_intr : Z.testbit (Boot.sstatus (m_boot m)) 1 = true ∧ Intr.served (m_intr m);
  rd_sys : SchedProofs.sys (m_kern m);
  rd_counts : ProcessProofs.pinv (λ _, 0) (psys_of m);
  rd_cur : ProcessProofs.cur_ok (psys_of m) (Some main_proc);
  rd_fds fd : ProcessProofs.fd_object (psys_of m) fd = None;
  rd_tab : ∃ n, Attach.devtab (m_dev m) = Device.table es n
}.

Lemma no_descriptors m : m_ios m = ∅ → m_proctab m = Some main_proc :: replicate 15 None → m_procs m = {[main_proc := first_proc]} →
  ProcessProofs.pinv (λ _, 0) (psys_of m) ∧ ∀ fd, ProcessProofs.fd_object (psys_of m) fd = None.
Proof.
  intros Eio Ept Epr. split.
  - assert (∀ i, ProcessProofs.refs {[main_proc := first_proc]} i = 0) as Hr.
    { intros i. unfold ProcessProofs.refs. rewrite map_fold_singleton. cbn [first_proc Process.iotab]. by rewrite ProcessProofs.cnt_none by (by apply Forall_replicate). }
    split; [split| | |]; cbn [psys_of Process.ios Process.procs Process.proctab]; rewrite ?Eio, ?Ept, ?Epr; try done.
    + intros i. rewrite Hr. lia.
    + by intros q y [<- <-]%lookup_singleton_Some.
    + rewrite map_size_singleton. lia.
    + by intros q y [<- <-]%lookup_singleton_Some.
  - intros fd. unfold ProcessProofs.fd_object. cbn [psys_of Process.kern Process.procs]. rewrite Epr.
    destruct (Threads.running_thread_process (m_kern m)) as [[[q|]| | |] ?]; try done. destruct (Process.valid_fd fd); [|done].
    destruct (decide (q = main_proc)) as [->|Hne]; [rewrite lookup_singleton_eq|by rewrite lookup_singleton_ne].
    cbn [mbind option_bind]. unfold Process.slot, getb, first_proc. cbn [Process.iotab].
    destruct (replicate Process.IOMAX None !! Z.to_nat fd) as [y|] eqn:Ey; [|done]. by apply lookup_replicate in Ey as [-> _].
Qed.


Lemma start_init_ok img m m1 es e (o : io St) file `{!Elf.FileImage o file} eh f1 f2 rc rc' c :
  up img m m1 es → filter (λ e, Device.name e = Vioblk.VIOBLK_NAME) es !! 1%nat = Some e →
  fsmount (Some (Z.to_nat (Device.aux e))) (m_fs m) = (Ret rc, f1) → 0 ≤ rc →
  fsopen INIT_NAME f1 = (Ret (rc', Some o), f2) → 0 ≤ rc' → Exec.executable file eh →
  (3 + 3 * UserMem.page_total (Exec.segments file eh ≫= Elf.written) ≤ length (PhysPages.pages (Boot.pool (Boot.heap_bounds img).2)))%nat →
  ∃ fr m', start_init true c m1 = (Ret fr, m') ∧ running img file eh m' fr c es.
Proof.
  intros Hup He Hmount Hrc Hopen Hrc' Hex Hroom. unfold start_init. kgets. destruct (open_disk_run img m m1 es e Hup He) as (blks & R1). krun R1. cbn [fst snd].
  change (0 <? 0) with false. cbv iota. set (m2 := with_slots _ _ _ _). destruct Hup as [[n Hat] Hb Hst Hact (x & Hx & Hp) (Eio & Ept & Epr) (Efs & Eum)].
  assert (on_fs (fsmount (Some (Z.to_nat (Device.aux e)))) m2 = (Ret rc, with_fs m2 f1)) as R2 by (unfold on_fs; cbn [m2 m_fs with_slots]; by rewrite Efs, Hmount).
  krun R2. rewrite (proj2 (Z.ltb_ge rc 0)) by done.
  assert (on_fs (fsopen INIT_NAME) (with_fs m2 f1) = (Ret (rc', Some o), with_fs m2 f2)) as R3 by (unfold on_fs; cbn [m_fs with_fs]; by rewrite Hopen).
  krun R3. cbn [fst snd]. rewrite (proj2 (Z.ltb_ge rc' 0)) by done. cbn [Console.make_console_io].
  krun (install_console_run (with_fs m2 f2) c x Eio Epr Hx Hp). set (m3 := with_psys _ _).
  assert (Process.current_process (psys_of m3) = (Ret (Some main_proc), psys_of m3)) as R4.
  { apply ProcessProofs.current_run, (cur_of m3 x); [done|done|by eexists]. }
  krun (on_psys_run _ m3 _ _ R4). set (m4 := with_psys m3 _). set (mm := pages_of m1) in *.
  assert (PhysPages.Mm (PhysPages.words (pages_of m4)) (PhysPages.free_chunk_list (pages_of m4)) (Threads.active (m_kern m4)) (PhysPages.main_mtag (pages_of m4)) = mm) as Emm.
  { change (pages_of m4) with mm. change (m_kern m4) with (m_kern m1). rewrite Hact. by destruct mm. }
  set (s := Elf.ESys o (UserMem.Paged mm (m_umem m1))).
  destruct (Exec.process_exec_ok o file eh 0 main_proc PhysPages.NULL [] (Boot.sstatus (m_boot m1)) s (Boot.pool (Boot.heap_bounds img).2))
    as (fr & s' & spp & Rx & Hs); [done|done|done|done|by apply program_room|done|]. change (Z.of_nat (length [])) with 0 in Rx.
  assert (∃ m5, exec_file o (Some main_proc) m4 = (Ret fr, m5) ∧ m5 = with_umem (with_psys m4 (Process.PSys (Threads.with_active (m_kern m4) (PhysPages.satp (UserMem.pmm (Elf.umem s'))))
    (UserMem.pmm (Elf.umem s')) (m_ios m4) (m_proctab m4) (m_procs m4))) (UserMem.view (Elf.umem s'))) as (m5 & R5 & E5).
  { unfold exec_file. rewrite Emm. change (m_umem m4) with (m_umem m1). change (Boot.sstatus (m_boot m4)) with (Boot.sstatus (m_boot m1)). fold s. rewrite Rx. by eexists. }
  krun R5. exists fr, m5. split; [reflexivity|]. subst m5. destruct Hs as [K1 K2 _ K4 [K5 [l' K6]] [K7 K8] K9 K10]. cbn [s Elf.umem UserMem.pmm] in *.
  assert (∀ va, 0 ≤ va < 2 ^ 64 → PageTable.wellformed va = true → UserMem.tr mm va = if va <? RAM_END_PMA then Some (va, Boot.kernel_flags img va) else None) as Hmap
    by (apply Hb). split; try done.
  - split; [exact Hst|apply Hat].
  - exact (sys_spaces _ _ _ (ag_sys _ _ _ Hat)).
  - apply (ProcessProofs.pinv_same _ (with_console m1 c)); [done|]. by apply with_console_pinv.
  - apply (cur_of _ x); [done|done|by eexists].
  - intros fd. by apply (console_fds _ c fd x).
  - by exists l'.
  - exists spp. split; [exact K7|exact K8].
  - intros va Hva Hw Hne. specialize (Hmap va Hva Hw). destruct (va <? RAM_END_PMA); [exact (K9 va _ Hne Hmap)|exact (K10 va Hne Hmap)].
  - intros y Hy. etrans; [exact (K4 y Hy)|]. apply Exec.load_image_at; [apply Hex|]. unfold UserMem.seen. cbn [UserMem.pmm].
    rewrite (proj2 (UserMem.unmapped_iff mm y)); [done|]. assert (Elf.user_addr y) as Hu by apply (Exec.below_stack y Hy).
    pose proof (UserMem.user_wellformed y Hu) as Hw. unfold Elf.user_addr, UMEM_START_VMA, UMEM_END_VMA in Hu. rewrite Hmap by (done || lia).
    rewrite (proj2 (Z.ltb_ge _ _)); [done|]. unfold RAM_END_PMA, RAM_SIZE, RAM_START_PMA. lia.
  - exists n. apply Hat.
Qed.

(** From power-on to the first program: with the kernel's image in place, at
    least two block devices among the eight VirtIO slots and a file system on
    the second that mounts and holds an executable INIT_NAME for which the pool
    has pages, [main] jumps to the file's entry point in user mode with an empty
    argument vector on a mapped stack, with the file's segments in memory and
    every part in the state its own theorems start from. *)
Lemma main_starts_first_program img cm ci p0 p1 p2 p allocs c m e (o : io St) file `{!Elf.FileImage o file} eh f1 f2 rc rc' :
  Boot.image_ok img → reset img m → distinct [p0; p1; p2] allocs →
  filter (λ e, Device.name e = Vioblk.VIOBLK_NAME) (registered allocs (m_slots m)) !! 1%nat = Some e →
  fsmount (Some (Z.to_nat (Device.aux e))) (m_fs m) = (Ret rc, f1) → 0 ≤ rc →
  fsopen INIT_NAME f1 = (Ret (rc', Some o), f2) → 0 ≤ rc' → Exec.executable file eh →
  (3 + 3 * UserMem.page_total (Exec.segments file eh ≫= Elf.written) ≤ length (PhysPages.pages (Boot.pool (Boot.heap_bounds img).2)))%nat →
  ∃ fr m', main img cm ci [p0; p1; p2] p allocs true c m = (Ret fr, m') ∧
    running img file eh m' fr c (Attach.fixed_devices p1 p2 p ++ registered allocs (m_slots m)).
Proof.
  intros Himg Hrs Hd He Hmount Hrc Hopen Hrc' Hex Hroom. destruct (bring_up_ok img cm ci p0 p1 p2 p allocs m Himg Hrs Hd) as (m1 & R1 & Hup).
  unfold main. krun R1. apply (start_init_ok img m m1 _ e o file eh f1 f2 rc rc' c); done.
Qed.

End startup.

(** ** A concrete machine

    The VirtIO slots as QEMU fills them: an entropy device, two disks. *)
Definition empty_regs : Virtio.mmio := Virtio.Mmio Virtio.VIRTIO_MAGIC 2 Virtio.VIRTIO_ID_NONE [0; 0; 0; 0] (λ _, true) 0 [0; 0; 0; 0] 0 0 ∅ [] 0 0 0 0.
Definition demo_slot (r : Virtio.mmio) : slot := Slot r VioblkDisk.demo_disk (Viorng.Counter 0 []).
Definition demo_slots : list slot :=
  replicate 5 (demo_slot empty_regs) ++ [demo_slot Virtio.demo_regs; demo_slot Virtio.demo_regs; demo_slot Viorng.rng_regs].
Definition demo_machine : machine (St := memio) (F := list Z) :=
  Machine false false false false (Attach.ASys (Device.table [] 16) ∅ ∅) Intr.demo_isys Boot.demo_boot (Threads.initial 0 1) ∅
          (Some main_proc :: replicate 15 None) ∅ demo_slots ∅ ∅ [] (λ _, 255).
Definition demo_allocs : list valloc :=
  (λ i : nat, VAlloc (256 * Z.of_nat i) 1 2 3 (10 + i) (20 + i) [7; 8; 9; 9]) <$> seq 0 8.

(** A file system with one file, which remembers the disk it was mounted from. *)
Definition demo_mount (disk : option nat) : M (list Z) Z :=
  match disk with Some d => modify (λ _, [Z.of_nat d]);; mret 0 | None => mret (- EINVAL) end.
Definition demo_fsopen (nm : Str.cstr) : M (list Z) (Z * option (io memio)) :=
  if decide (nm = INIT_NAME) then mret (0, Some (Elf.mem_file Elf.demo_img)) else mret (- ENOENT, None).

Lemma demo_reset : reset Boot.demo_image demo_machine.
Proof.
  split; [done| |done|done| |done].
  - intros i Hi. assert (i = 0 ∨ i = 1 ∨ i = 2) as [-> | [-> | ->] ] by lia; by vm_compute.
  - split; [done|]. apply Forall_app. split; [by apply Forall_replicate|]. by repeat constructor.
Qed.

Lemma demo_distinct : distinct [1; 2; 3] demo_allocs.
Proof. split_and!; [by apply (bool_decide_unpack _)|by apply (bool_decide_unpack _)|done|by repeat constructor]. Qed.


End Startup.
